(* ===== verification/_CoqProject ===== *)
-Q . S2P
Prelude.v
CStr.v
Bytes.v
Exchange.v
Rqsort.v
RqsortSpec.v
RqsortPart.v
RqsortOk.v
Limb.v
LimbOk.v
LimbDiv.v
DynBuf.v
Utf8.v
UnicodeTables.v
RunSearch.v
CaseConv.v
NormTables.v
Normalize.v
NormFast.v
NormCc.v
NormDecomp.v
NormNfd.v
NormOk.v
NormCompose.v
CharRange.v
PropTables.v
UnicodeProps.v
UnicodePropsOk.v
UnicodeCase.v
UnicodeSets.v
ReOpcode.v
ReCode.v
RePoints.v
ReState.v
UnicodeInst.v
ReLex.v
ReClass.v
ReParse.v
ReExec.v
ReExecSafe.v
ReLexSafe.v
ReHoare.v
ReClassSafe.v
ReQuantSafe.v
ReParseSafe.v
ReSafe.v
ReFindings.v
ListHead.v
GcHeap.v
GcOk.v
Chain.v
ShapeTable.v
ShapeOk.v
ShapeHeapOk.v
ShapeStep.v
ShapeAdd.v
ShapeLaws.v
ShapeUpdate.v
ShapeNew.v
ShapeReach.v
ShapeDemo.v
AtomTable.v
AtomOk.v
AtomOps.v
AtomLaws.v
AtomNum.v
AtomDemo.v
ChipHost.v
ChipVector.v
ChipEntity.v
ChipWire.v
ChipModule.v
ChipSpec.v
ChipEntityOk.v
ChipOk.v
ChipEvents.v
ChipModuleOk.v
ChipLuaOk.v
ChipOps.v
ChipDemo.v
