(* ===== verification/Prelude.v ===== *)
(** * JS-Chip: a verification library for the QuickJS runtime support code and the chip module

    JS-Chip runs JavaScript inside the game Garry's Mod: a binary module (src/c++_module/js.cpp)
    embeds the QuickJS engine (src/c++_module/quickjs) and connects it to the Lua state of the
    game.  This library models the parts of the engine that keep data structures of their
    own, the regular expression and Unicode libraries, and the module.  Paths below are
    relative to src/c++_module.

    ** How the parts interact

    cutils.c (strings, byte access, growing buffers, UTF-8, sorting) and list.h serve every
    other part.  libunicode.c (ranges of characters, case conversion, normalisation,
    properties) is used by libregexp.c and by the string functions of the engine.
    libregexp.c compiles a pattern to byte code in a growing buffer and runs it with an
    explicit stack of saved states.  quickjs.c interns names in the table of atoms, keeps the
    names of properties in shapes that objects share, and collects cycles of objects by trial
    decrement.  js.cpp holds up to 128 contexts; scripts call its functions, which
    push values on the Lua stack and call the game, and Lua calls it to create contexts,
    evaluate scripts and deliver events.

    ** Which file models what

    - Prelude: arrays ([znth], [zupd], [zslice]: an access outside the object is [None]),
      machine integers ([u8], [u16], [u32], signed wrap around) and their lemmas; Chain:
      linked chains of indices and sums over finite maps.
    - CStr, Bytes, DynBuf, Utf8: cutils.c and cutils.h.  Exchange and Rqsort: the sorting
      functions of cutils.c; RqsortSpec, RqsortPart and RqsortOk prove them.
    - Limb: the sums, products and divisions of libbf.c on arrays of limbs (64 bits), in a
      memory of blocks; LimbOk: loops with a carry and the product; LimbDiv: the division.
    - CharRange: the sets of code points of libunicode.c and their operations.
      UnicodeTables, NormTables and PropTables: the arrays of libunicode-table.h.  RunSearch
      and CaseConv: binary search in the compressed tables, case conversion, identifiers.
      Normalize: unicode_normalize and its helpers, with NormFast, NormCc, NormDecomp,
      NormNfd, NormOk and NormCompose for the proofs.  UnicodeProps: the ranges of a script,
      a general category or a property, with UnicodePropsOk, UnicodeCase and
      UnicodeSets for the proofs.
    - ReOpcode: libregexp-opcode.h, the header of the byte code and the linear analyses.
      ReState, ReLex, ReClass, ReParse: the parser as a state and error monad; ReExec: the
      matcher as a machine with [step].  ReCode, RePoints, ReExecSafe, ReLexSafe,
      ReHoare, ReClassSafe, ReQuantSafe, ReParseSafe and ReSafe: structured byte code, a
      program logic for the parser, and safety; UnicodeInst: the interface [UnicodeDb] from
      the tables; ReFindings: runs that differ from what the code means to do.
    - ListHead: list.h over a store of list heads.  GcHeap: the objects of the collector,
      mark_children, gc_decref and gc_scan of quickjs.c; GcOk: the proof.
    - ShapeTable: hidden classes (shapes), their property tables, the hash table of shapes
      and the own properties of plain objects.  ShapeOk: one property table; ShapeHeapOk: the
      invariant of the heap; ShapeStep, ShapeAdd, ShapeLaws, ShapeUpdate,
      ShapeNew and ShapeReach: the operations, one
      after the other, up to the reachable states; ShapeDemo: a run.
    - AtomTable: the table of atoms of quickjs.c with the predefined atoms of quickjs-atom.h.
      AtomOk: its invariant; AtomOps, AtomLaws and AtomNum: the operations;
      AtomDemo: the table after JS_InitAtoms.
    - ChipHost: the Lua stack of LuaBase.h and the interface [Host] to the game and the
      engine.  ChipVector, ChipEntity, ChipWire: the functions given to scripts; ChipModule:
      the contexts, the listeners and the functions that Lua calls; ChipOps: the limit on
      operations.  ChipSpec: what the functions mean without the stack, refined in
      ChipEntityOk and ChipOk; ChipEvents, ChipModuleOk and ChipLuaOk: the
      events, the invariant of the slots and the replies to Lua; ChipDemo: a small game.

    ** How state and effects are modelled

    A struct is a [Record], an enum or a tagged union an [Inductive].  A C integer is a [Z]
    with its wrap around written out.  Pointers are indices into an array, keys of a finite
    map from addresses, or positions in an object; aliasing is modelled where the code relies on
    it (list heads, shapes shared by objects, strings of the atom table, elements that are
    sorted in place).  A function of C is a function on the state whose result [None] (in the
    regular expressions [Undef]) is undefined behaviour, a failed assertion, or a loop whose
    fuel is used up; a theorem that gives [Some] thus shows that there is none of them.
    Failing allocations are modelled everywhere: the allocators are interfaces with laws
    ([Allocator] and [AllocatorOk], [JSMalloc] and [JSMallocOk], [ShapeMalloc] and
    [ShapeMallocOk]) that may refuse any request.

    ** Fuel

    Loops over a pattern, a string or an array have its length as fuel, since each iteration
    advances.  A walk along a hash chain has the number of entries of the table (of shapes,
    of properties), since a chain has no entry twice.  The loops of the collector have the
    number of headers.  The estimate of a digit of a quotient is corrected at most 2 times.
    The loops that double or halve a size have 32.  The matcher is
    a step function: [lre_exec_safe] speaks of runs of any length, because the matching of a
    pattern with an empty lazy loop does not end ([ReFindings]).  That the fuel is enough is
    part of the theorems, which give a result and not only a property of one.

    ** What the theorems show

    - Regular expressions: on any pattern of bytes below 0xfd lre_compile ends, reads inside
      the pattern and writes inside its buffers (after a failed allocation it may not, which
      [ReFindings] shows), and its byte code is well formed; lre_exec on well formed byte
      code makes no access outside the code, the input, the captures and the stack, and
      its captures lie inside the input.
    - Unicode: UTF-8 round trips and canonical decoding; the set operations are those of
      sets; the compressed tables denote their runs; case conversion is safe for every code
      point; unicode_normalize computes the decompositions and compositions of the standard.
    - Sorting: rqsort ends, and gives a sorted permutation when the comparison is an order.
      DynBuf refines a byte sequence with a sticky failure; list.h refines lists.
    - Arrays of limbs: the product of two arrays is their product, two limbs are divided
      by one with a precomputed inverse, and the schoolbook division returns the quotient and
      the remainder; each writes its result and nothing else.
    - The collector keeps exactly what is reachable from outside the heap, and restores
      the reference counts.
    - Atoms: two atoms are equal iff their contents are; interning finds or adds; freeing
      releases exactly what has no reference; the invariant holds in every reachable state.
    - Shapes: adding, deleting and changing a property change one object only, although
      shapes are shared, keep the order of the properties and find them again; the
      reference counts and the references to atoms and prototypes balance in every
      reachable state.  The bound on the number of properties, 2^26, is that of the field
      hash_next, which the code does not check.
    - The chip module: every function that scripts see performs the game calls of its
      specification and leaves the Lua stack as it found it; slots and listeners stay
      consistent in every reachable state; each request of Lua gets its reply, errors
      included; a script over its limit of operations is stopped.

    ** What is not modelled

    The parser, the compiler and the interpreter of JavaScript, its values, conversions and
    built in objects (quickjs.c beyond the parts above): they need a semantics of the language as a
    whole.  The second half of the collector (gc_free_cycles and the finalizers) and the
    property access of scripts above the shapes.  Of libbf.c,
    the floating point and decimal numbers, the transform behind long products
    and the division of long numbers by an approximate inverse.
    quickjs-libc.c, qjs.c, qjsc.c and run-test262.c, which are input and output.
    unicode_gen.c, whose output is modelled.  Functions that only print, and dbuf_printf,
    which formats with the C library.  The game side of the add-on, written in Lua. *)

From Stdlib Require Export ZArith Lia.
From stdpp Require Export base numbers list option.

#[global] Open Scope Z_scope.

(** ** Machine integers

    A C integer of [w] bits is a [Z]; every place where the C arithmetic can
    wrap applies the truncation of its type. *)

Definition u8 (x : Z) : Z := x mod 2 ^ 8.
Definition u16 (x : Z) : Z := x mod 2 ^ 16.
Definition u32 (x : Z) : Z := x mod 2 ^ 32.
Definition u64 (x : Z) : Z := x mod 2 ^ 64.

(** Conversion to [int32_t] (two's complement). *)
Definition s32 (x : Z) : Z :=
  let y := x mod 2 ^ 32 in if y <? 2 ^ 31 then y else y - 2 ^ 32.

Definition INT32_MAX : Z := 2147483647.
Definition UINT32_MAX : Z := 4294967295.

Lemma u8_range x : 0 <= u8 x < 256.
Proof. apply Z.mod_pos_bound. lia. Qed.

Lemma u16_range x : 0 <= u16 x < 65536.
Proof. apply Z.mod_pos_bound. lia. Qed.

Lemma u32_range x : 0 <= u32 x < 4294967296.
Proof. apply Z.mod_pos_bound. lia. Qed.

Lemma u64_range x : 0 <= u64 x < 18446744073709551616.
Proof. apply Z.mod_pos_bound. lia. Qed.

Lemma u8_small x : 0 <= x < 256 -> u8 x = x.
Proof. apply Z.mod_small. Qed.

Lemma u16_small x : 0 <= x < 65536 -> u16 x = x.
Proof. apply Z.mod_small. Qed.

Lemma u32_small x : 0 <= x < 4294967296 -> u32 x = x.
Proof. apply Z.mod_small. Qed.

Lemma u64_small x : 0 <= x < 18446744073709551616 -> u64 x = x.
Proof. apply Z.mod_small. Qed.

Lemma s32_small x : 0 <= x < 2147483648 -> s32 x = x.
Proof.
  intros H. unfold s32. rewrite Z.mod_small by lia.
  destruct (Z.ltb_spec x (2 ^ 31)); lia.
Qed.

Lemma s32_range x : -2147483648 <= s32 x < 2147483648.
Proof.
  unfold s32. pose proof (Z.mod_pos_bound x (2 ^ 32) ltac:(lia)).
  destruct (Z.ltb_spec (x mod 2 ^ 32) (2 ^ 31)); lia.
Qed.

(** An [int32_t] survives the conversion to [uint32_t] and back. *)
Lemma s32_u32 x : -2147483648 <= x < 2147483648 -> s32 (u32 x) = x.
Proof.
  intros H. unfold s32, u32. rewrite Z.mod_mod by lia.
  destruct (Z.ltb_spec (x mod 2 ^ 32) (2 ^ 31)); Z.div_mod_to_equations; lia.
Qed.

(** ** Case analysis on the comparisons of the code *)

Ltac destruct_cmp :=
  match goal with
  | |- context [?a <? ?b] => destruct (Z.ltb_spec a b)
  | |- context [?a <=? ?b] => destruct (Z.leb_spec a b)
  | |- context [?a =? ?b] => destruct (Z.eqb_spec a b)
  | |- context [?a >? ?b] => rewrite (Z.gtb_ltb a b)
  | |- context [?a >=? ?b] => rewrite (Z.geb_leb a b)
  end.

Ltac destruct_cmp_in H :=
  match type of H with
  | context [?a <? ?b] => destruct (Z.ltb_spec a b)
  | context [?a <=? ?b] => destruct (Z.leb_spec a b)
  | context [?a =? ?b] => destruct (Z.eqb_spec a b)
  | context [?a >? ?b] => rewrite (Z.gtb_ltb a b) in H
  | context [?a >=? ?b] => rewrite (Z.geb_leb a b) in H
  end.

Ltac zify_bools :=
  repeat match goal with
  | H : andb _ _ = true |- _ => apply andb_prop in H; destruct H
  | H : andb _ _ = false |- _ => apply andb_false_iff in H
  | H : orb _ _ = true |- _ => apply orb_prop in H
  | H : orb _ _ = false |- _ => apply orb_false_elim in H; destruct H
  | H : negb _ = true |- _ => apply negb_true_iff in H
  | H : negb _ = false |- _ => apply negb_false_iff in H
  | H : (_ <? _) = true |- _ => apply Z.ltb_lt in H
  | H : (_ <? _) = false |- _ => apply Z.ltb_ge in H
  | H : (_ <=? _) = true |- _ => apply Z.leb_le in H
  | H : (_ <=? _) = false |- _ => apply Z.leb_gt in H
  | H : (_ =? _) = true |- _ => apply Z.eqb_eq in H
  | H : (_ =? _) = false |- _ => apply Z.eqb_neq in H
  end.

(** Closes the goal by reflexivity, a hypothesis, arithmetic or congruence, or leaves it. *)
Ltac dlia := try solve [ done | lia | congruence ].

(** Linear arithmetic with division and remainder by constants. *)
Ltac divlia := Z.div_mod_to_equations; lia.

(** Splits the binds of a successful computation in the option monad. *)
Ltac inv_bind H :=
  match type of H with
  | (?x ≫= _) = Some _ =>
      let E := fresh "E" in
      destruct x eqn:E; cbn [mbind option_bind] in H; [ | discriminate H]
  end.

(** ** Arrays indexed by [Z]

    The C code indexes arrays with integers and pointers.  An access outside the
    object is undefined behaviour: it is [None] here, never a default value. *)

Definition zlen {A} (l : list A) : Z := Z.of_nat (length l).

Definition znth {A} (l : list A) (i : Z) : option A :=
  if i <? 0 then None else l !! Z.to_nat i.

Definition zupd {A} (l : list A) (i : Z) (x : A) : option (list A) :=
  if (0 <=? i) && (i <? zlen l) then Some (<[Z.to_nat i := x]> l) else None.

(** [zslice l i n] is the object [l\[i .. i + n\[]. *)
Definition zslice {A} (l : list A) (i n : Z) : option (list A) :=
  if (0 <=? i) && (0 <=? n) && (i + n <=? zlen l)
  then Some (take (Z.to_nat n) (drop (Z.to_nat i) l)) else None.

(** [zblit l i d] is [memcpy(l + i, d, length d)]. *)
Definition zblit {A} (l : list A) (i : Z) (d : list A) : option (list A) :=
  if (0 <=? i) && (i + zlen d <=? zlen l)
  then Some (take (Z.to_nat i) l ++ d ++ drop (Z.to_nat i + length d) l) else None.

Lemma zlen_nonneg {A} (l : list A) : 0 <= zlen l.
Proof. unfold zlen. lia. Qed.

Lemma zlen_nil {A} : zlen (@nil A) = 0.
Proof. reflexivity. Qed.

Lemma zlen_cons {A} (x : A) l : zlen (x :: l) = 1 + zlen l.
Proof. unfold zlen. cbn [length]. lia. Qed.

Lemma zlen_app {A} (l k : list A) : zlen (l ++ k) = zlen l + zlen k.
Proof. unfold zlen. rewrite length_app. lia. Qed.

Lemma zlen_take {A} n (l : list A) : zlen (take n l) = Z.min (Z.of_nat n) (zlen l).
Proof. unfold zlen. rewrite length_take. lia. Qed.

Lemma zlen_drop {A} n (l : list A) : zlen (drop n l) = Z.max 0 (zlen l - Z.of_nat n).
Proof. unfold zlen. rewrite length_drop. lia. Qed.

Lemma zlen_map {A B} (f : A -> B) l : zlen (map f l) = zlen l.
Proof. unfold zlen. by rewrite length_map. Qed.

Lemma zlen_insert {A} (l : list A) i x : zlen (<[i := x]> l) = zlen l.
Proof. unfold zlen. by rewrite length_insert. Qed.

Lemma zlen_replicate {A} n (x : A) : zlen (replicate n x) = Z.of_nat n.
Proof. unfold zlen. by rewrite length_replicate. Qed.

Create Rewrite HintDb zlen.
#[export] Hint Rewrite @zlen_nil @zlen_cons @zlen_app @zlen_take @zlen_drop @zlen_map
  @zlen_insert @zlen_replicate : zlen.

Ltac zlen_lia :=
  autorewrite with zlen in *;
  repeat match goal with
  | |- context [zlen ?l] => unless (0 <= zlen l) by assumption; pose proof (zlen_nonneg l)
  | H : context [zlen ?l] |- _ => unless (0 <= zlen l) by assumption; pose proof (zlen_nonneg l)
  end; lia.

Lemma znth_Some_range {A} (l : list A) i x : znth l i = Some x -> 0 <= i < zlen l.
Proof.
  unfold znth, zlen. destruct (Z.ltb_spec i 0); [done|].
  intros ?%lookup_lt_Some. lia.
Qed.

Lemma znth_is_Some {A} (l : list A) i : 0 <= i < zlen l -> is_Some (znth l i).
Proof.
  unfold znth, zlen. intros H. destruct (Z.ltb_spec i 0); [lia|].
  apply lookup_lt_is_Some_2. lia.
Qed.

Lemma nth_error_lookup {A} (l : list A) i : nth_error l i = l !! i.
Proof. revert i. induction l as [|x l IH]; intros [|i]; cbn; [done..|]. apply IH. Qed.

Lemma znth_None {A} (l : list A) i : zlen l <= i -> znth l i = None.
Proof.
  unfold znth, zlen. intros Hi. destruct (Z.ltb_spec i 0); [done|]. apply lookup_ge_None_2. lia.
Qed.

Lemma znth_lookup {A} (l : list A) i : 0 <= i -> znth l i = l !! Z.to_nat i.
Proof. intros. unfold znth. destruct (Z.ltb_spec i 0); [lia|done]. Qed.

Lemma znth_app_l {A} (l k : list A) i : i < zlen l -> znth (l ++ k) i = znth l i.
Proof.
  unfold znth, zlen. intros H. destruct (Z.ltb_spec i 0); [done|].
  apply lookup_app_l. lia.
Qed.

Lemma znth_app_r {A} (l k : list A) i :
  zlen l <= i -> znth (l ++ k) i = znth k (i - zlen l).
Proof.
  unfold znth, zlen. intros H. destruct (Z.ltb_spec i 0); [lia|].
  destruct (Z.ltb_spec (i - Z.of_nat (length l)) 0); [lia|].
  rewrite lookup_app_r by lia. f_equal. lia.
Qed.

Lemma znth_cons_0 {A} (x : A) l : znth (x :: l) 0 = Some x.
Proof. reflexivity. Qed.

Lemma znth_cons_S {A} (x : A) l i : 0 < i -> znth (x :: l) i = znth l (i - 1).
Proof.
  intros. change (x :: l) with ([x] ++ l). rewrite znth_app_r; zlen_lia || f_equal.
Qed.

Lemma zupd_Some {A} (l : list A) i x l' :
  zupd l i x = Some l' -> 0 <= i < zlen l /\ l' = <[Z.to_nat i := x]> l.
Proof.
  unfold zupd. destruct (Z.leb_spec 0 i), (Z.ltb_spec i (zlen l)); cbn; naive_solver.
Qed.

Lemma zupd_is_Some {A} (l : list A) i x :
  0 <= i < zlen l -> zupd l i x = Some (<[Z.to_nat i := x]> l).
Proof. intros. unfold zupd. repeat destruct_cmp; cbn; done || lia. Qed.

Lemma zslice_Some {A} (l : list A) i n k :
  zslice l i n = Some k ->
  0 <= i /\ 0 <= n /\ i + n <= zlen l /\ k = take (Z.to_nat n) (drop (Z.to_nat i) l).
Proof. unfold zslice. repeat destruct_cmp; cbn; naive_solver. Qed.

Lemma zslice_is_Some {A} (l : list A) i n :
  0 <= i -> 0 <= n -> i + n <= zlen l ->
  zslice l i n = Some (take (Z.to_nat n) (drop (Z.to_nat i) l)).
Proof. intros. unfold zslice. repeat destruct_cmp; cbn; done || lia. Qed.

Lemma zslice_len {A} (l : list A) i n k : zslice l i n = Some k -> zlen k = n.
Proof. intros (? & ? & ? & ->)%zslice_Some. zlen_lia. Qed.

Lemma zblit_is_Some {A} (l : list A) i d :
  0 <= i -> i + zlen d <= zlen l ->
  zblit l i d = Some (take (Z.to_nat i) l ++ d ++ drop (Z.to_nat i + length d) l).
Proof. intros. unfold zblit. repeat destruct_cmp; cbn; done || lia. Qed.

Lemma zblit_Some {A} (l : list A) i d l' :
  zblit l i d = Some l' ->
  0 <= i /\ i + zlen d <= zlen l /\
  l' = take (Z.to_nat i) l ++ d ++ drop (Z.to_nat i + length d) l.
Proof. unfold zblit. repeat destruct_cmp; cbn; naive_solver. Qed.

Lemma zblit_len {A} (l : list A) i d l' : zblit l i d = Some l' -> zlen l' = zlen l.
Proof.
  intros (? & ? & ->)%zblit_Some. unfold zlen in *.
  rewrite !length_app, length_take, length_drop. lia.
Qed.

(** ** Bit operations as arithmetic *)

Lemma land_mask x m k : 0 <= k -> m = 2 ^ k - 1 -> Z.land x m = x mod 2 ^ k.
Proof. intros ? ->. rewrite <- Z.land_ones by done. by rewrite Z.ones_equiv, Z.sub_1_r. Qed.

Lemma land_disjoint a b k : 0 <= k -> 0 <= b < 2 ^ k -> Z.land (a * 2 ^ k) b = 0.
Proof.
  intros Hk Hb. apply Z.bits_inj'. intros i Hi.
  rewrite Z.land_spec, Z.bits_0, <- Z.shiftl_mul_pow2, Z.shiftl_spec by done.
  destruct (decide (i < k)).
  - by rewrite (Z.testbit_neg_r a) by lia.
  - replace b with (b mod 2 ^ k) by (apply Z.mod_small; lia).
    rewrite Z.mod_pow2_bits_high by lia. apply andb_false_r.
Qed.

Lemma lor_add a b : Z.land a b = 0 -> Z.lor a b = a + b.
Proof. intros H. rewrite Z.add_nocarry_lxor by done. symmetry. by apply Z.lxor_lor. Qed.

(** [hi * 2^k | lo] for a [lo] below [2^k]. *)
Lemma lor_mul_add a b k : 0 <= k -> 0 <= b < 2 ^ k -> Z.lor (a * 2 ^ k) b = a * 2 ^ k + b.
Proof. intros. apply lor_add. by apply land_disjoint. Qed.

Lemma lor_shiftl_add a b k : 0 <= k -> 0 <= b < 2 ^ k -> Z.lor (Z.shiftl a k) b = a * 2 ^ k + b.
Proof. intros. rewrite Z.shiftl_mul_pow2 by done. by apply lor_mul_add. Qed.

Lemma lor_flag_add a m k :
  0 <= k -> 0 <= a < 2 ^ k -> m mod 2 ^ k = 0 -> Z.lor a m = a + m.
Proof.
  intros Hk Ha Hm. rewrite Z.lor_comm.
  replace m with (m / 2 ^ k * 2 ^ k) by (pose proof (Z.div_mod m (2 ^ k)); lia).
  rewrite lor_mul_add by done. lia.
Qed.

(** Equality of integers below [2^n] bit by bit, for a concrete [n]. *)
Lemma bits_eq_below n a b :
  0 <= n -> 0 <= a < 2 ^ n -> 0 <= b < 2 ^ n ->
  (forall i, 0 <= i < n -> Z.testbit a i = Z.testbit b i) -> a = b.
Proof.
  intros Hn Ha Hb H. apply Z.bits_inj'. intros i Hi.
  destruct (decide (i < n)); [apply H; lia|].
  rewrite <- (Z.mod_small a (2 ^ n)), <- (Z.mod_small b (2 ^ n)) by lia.
  by rewrite !Z.mod_pow2_bits_high by lia.
Qed.

(** The array as seen from a pointer: element and rest. *)
Lemma drop_znth {A} (l : list A) i :
  0 <= i < zlen l ->
  exists x, znth l i = Some x /\ drop (Z.to_nat i) l = x :: drop (Z.to_nat (i + 1)) l.
Proof.
  intros Hi. destruct (znth_is_Some l i Hi) as [x Hx]. exists x. split; [done|].
  rewrite znth_lookup in Hx by lia. rewrite (drop_S _ x) by done.
  by replace (Z.to_nat (i + 1)) with (S (Z.to_nat i)) by lia.
Qed.

Lemma znth_take {A} (l : list A) n i : i < n -> znth (take (Z.to_nat n) l) i = znth l i.
Proof.
  intros. unfold znth. destruct (Z.ltb_spec i 0); [done|]. by rewrite lookup_take_lt by lia.
Qed.

Lemma znth_insert_ne {A} (l : list A) k x i :
  0 <= k -> i <> k -> znth (<[Z.to_nat k := x]> l) i = znth l i.
Proof.
  intros. unfold znth. destruct (Z.ltb_spec i 0); [done|].
  apply list_lookup_insert_ne. lia.
Qed.

Lemma take_insert_snoc {A} (l : list A) k x :
  0 <= k < zlen l -> take (Z.to_nat (k + 1)) (<[Z.to_nat k := x]> l) = take (Z.to_nat k) l ++ [x].
Proof.
  intros Hk. unfold zlen in Hk. replace (Z.to_nat (k + 1)) with (S (Z.to_nat k)) by lia.
  rewrite (take_S_r _ _ x) by (apply list_lookup_insert_eq; lia).
  by rewrite take_insert_ge by lia.
Qed.

Lemma znth_nil {A} i : znth (@nil A) i = None.
Proof. unfold znth. by destruct (i <? 0). Qed.

Lemma zblit_app {A} (l1 x l2 d : list A) :
  zlen d = zlen x -> zblit (l1 ++ x ++ l2) (zlen l1) d = Some (l1 ++ d ++ l2).
Proof.
  intros Hd. pose proof (zlen_nonneg l1). rewrite zblit_is_Some by zlen_lia. unfold zlen in *.
  rewrite Nat2Z.id, take_app_length. do 3 f_equal. rewrite drop_app_ge by lia.
  rewrite drop_app_ge by lia. replace (_ - _ - _)%nat with 0%nat by lia. done.
Qed.
