(* ===== verification/CStr.v ===== *)
(** * C strings (cutils.c, cutils.h)

    [pstrcpy], [pstrcat], [strstart], [has_suffix] and the small scalar helpers.
    A [char *] into a buffer is the list of the bytes that remain in the object;
    running off the end of the object is [None]. *)

From S2P Require Import Prelude.

(** ** Scalar helpers of cutils.h *)

Definition max_int (a b : Z) : Z := if a >? b then a else b.
Definition min_int (a b : Z) : Z := if a <? b then a else b.

Definition from_hex (c : Z) : Z :=
  if (48 <=? c) && (c <=? 57) then c - 48
  else if (65 <=? c) && (c <=? 70) then c - 65 + 10
  else if (97 <=? c) && (c <=? 102) then c - 97 + 10
  else -1.

Definition is_digit (c : Z) : bool := (c >=? 48) && (c <=? 57).

Lemma max_int_max a b : max_int a b = Z.max a b.
Proof. unfold max_int. repeat destruct_cmp; lia. Qed.

Lemma from_hex_range c : -1 <= from_hex c < 16.
Proof. unfold from_hex. repeat destruct_cmp; cbn; lia. Qed.

(** ** String functions *)

(** [strlen]: the number of bytes before the first zero. *)
Fixpoint strlen (s : list Z) : option Z :=
  match s with
  | [] => None
  | c :: s' => if c =? 0 then Some 0 else n ← strlen s'; Some (1 + n)
  end.

(** The loop of [pstrcpy]: [q] is the write index, [str] the rest of the source. *)
Fixpoint pstrcpy_loop (buf : list Z) (q buf_size : Z) (str : list Z) : option (list Z) :=
  match str with
  | [] => None
  | c :: str' =>
      if (c =? 0) || (q >=? buf_size - 1) then zupd buf q 0
      else buf' ← zupd buf q c; pstrcpy_loop buf' (q + 1) buf_size str'
  end.

Definition pstrcpy (buf : list Z) (buf_size : Z) (str : list Z) : option (list Z) :=
  if buf_size <=? 0 then Some buf else pstrcpy_loop buf 0 buf_size str.

(** [pstrcpy(buf + len, ...)] works on the tail of the object [buf]. *)
Definition pstrcat (buf : list Z) (buf_size : Z) (s : list Z) : option (list Z) :=
  len ← strlen buf;
  if len <? buf_size
  then tl ← pstrcpy (drop (Z.to_nat len) buf) (buf_size - len) s;
       Some (take (Z.to_nat len) buf ++ tl)
  else Some buf.

(** [Some None] is the C result 0; [Some (Some p)] is 1 with [*ptr = p]. *)
Fixpoint strstart (str val : list Z) {struct val} : option (option (list Z)) :=
  match val with
  | [] => None
  | v :: val' =>
      if v =? 0 then Some (Some str)
      else match str with
           | [] => None
           | p :: str' => if p =? v then strstart str' val' else Some None
           end
  end.

Definition memcmp_eq (a b : list Z) : bool := bool_decide (a = b).

Definition has_suffix (str suffix : list Z) : option bool :=
  len ← strlen str;
  slen ← strlen suffix;
  if len >=? slen
  then a ← zslice str (len - slen) slen;
       b ← zslice suffix 0 slen;
       Some (memcmp_eq a b)
  else Some false.

(** ** Zero terminated strings *)

(** [cstr s t]: the object [s] holds the string [t], followed by a zero. *)
Definition cstr (s t : list Z) : Prop :=
  Forall (fun c => c <> 0) t /\ exists rest, s = t ++ 0 :: rest.

Lemma cstr_cons c s t : cstr (c :: s) t -> c <> 0 -> exists t', t = c :: t' /\ cstr s t'.
Proof.
  intros [Ht [rest E]] Hc. destruct t as [|c' t']; cbn in E; [congruence|].
  injection E as <- ->. inversion_clear Ht. exists t'. split; [done|]. split; [done|eauto].
Qed.

Lemma cstr_zero s t : cstr (0 :: s) t -> t = [].
Proof.
  intros [Ht [rest E]]. destruct t as [|c' t']; [done|].
  injection E as <- ->. inversion_clear Ht. congruence.
Qed.

Lemma strlen_cstr s t : cstr s t -> strlen s = Some (zlen t).
Proof.
  revert t. induction s as [|c s IH]; intros t Ht.
  - destruct Ht as [_ [rest E]]. by destruct t.
  - cbn. destruct (Z.eqb_spec c 0) as [->|Hc].
    + by rewrite (cstr_zero _ _ Ht).
    + apply cstr_cons in Ht as (t' & -> & Ht'); [|done].
      rewrite (IH _ Ht'). cbn. f_equal. zlen_lia.
Qed.

Lemma cstr_app_slice s t : cstr s t -> forall i n,
  0 <= i -> 0 <= n -> i + n <= zlen t ->
  zslice s i n = Some (take (Z.to_nat n) (drop (Z.to_nat i) t)).
Proof.
  intros [_ [rest ->]] i n Hi Hn Hle.
  rewrite zslice_is_Some by zlen_lia.
  rewrite drop_app_le by (unfold zlen in *; lia).
  rewrite take_app_le; [done|]. rewrite length_drop. unfold zlen in *. lia.
Qed.

(** The write loop: it copies the string from index [q] on, truncated to leave
    room for the terminator. *)
Lemma pstrcpy_loop_spec buf q buf_size s t n :
  cstr s t -> 0 <= q < buf_size -> buf_size <= zlen buf ->
  n = Nat.min (length t) (Z.to_nat (buf_size - 1 - q)) ->
  pstrcpy_loop buf q buf_size s =
    Some (take (Z.to_nat q) buf ++ take n t ++ [0] ++ drop (Z.to_nat q + n + 1) buf).
Proof.
  revert buf q t n. induction s as [|c s IH]; intros buf q t n Ht Hq Hb Hn.
  { destruct Ht as [_ [rest E]]. by destruct t. }
  assert (Hupd : forall x, <[Z.to_nat q := x]> buf =
    take (Z.to_nat q) buf ++ x :: drop (Z.to_nat q + 1) buf).
  { intros x. rewrite insert_take_drop by (unfold zlen in *; lia).
    by replace (S (Z.to_nat q)) with (Z.to_nat q + 1)%nat by lia. }
  cbn. destruct (Z.eqb_spec c 0) as [->|Hc]; cbn.
  { rewrite zupd_is_Some by lia. apply cstr_zero in Ht. subst. cbn.
    rewrite Hupd. by rewrite Nat.add_0_r. }
  rewrite Z.geb_leb. destruct (Z.leb_spec (buf_size - 1) q).
  { rewrite zupd_is_Some by lia.
    assert (n = 0%nat) as -> by lia. rewrite Hupd. cbn. by rewrite Nat.add_0_r. }
  apply cstr_cons in Ht as (t' & -> & Ht'); [|done].
  rewrite zupd_is_Some by lia. cbn.
  rewrite (fun H => IH (<[Z.to_nat q:=c]> buf) (q + 1) t' _ Ht' H ltac:(rewrite zlen_insert; lia) eq_refl) by lia.
  rewrite Hupd.
  set (m := Nat.min (length t') (Z.to_nat (buf_size - 1 - (q + 1)))).
  assert (n = S m) as -> by (subst m n; cbn [length]; lia). clear Hn.
  assert (Hlen : length (take (Z.to_nat q) buf) = Z.to_nat q)
    by (rewrite length_take; unfold zlen in *; lia).
  rewrite take_app, (take_ge (take _ _)), Hlen by lia.
  replace (Z.to_nat (q + 1) - Z.to_nat q)%nat with 1%nat by lia.
  rewrite drop_app_ge, Hlen by lia.
  replace (Z.to_nat (q + 1) + m + 1 - Z.to_nat q)%nat with (S (m + 1)) by lia.
  cbn [take drop]. rewrite take_0, drop_drop, <- app_assoc.
  replace (Z.to_nat q + 1 + (m + 1))%nat with (Z.to_nat q + S m + 1)%nat by lia.
  done.
Qed.

(** pstrcpy writes the longest prefix of the string that fits with its terminator,
    never writes at or beyond buf_size, and leaves the rest of the buffer unchanged.
    *)
Theorem pstrcpy_truncates (buf : list Z) buf_size s t :
  cstr s t -> 0 < buf_size <= zlen buf ->
  exists rest,
    pstrcpy buf buf_size s = Some (take (Z.to_nat (buf_size - 1)) t ++ 0 :: rest)
    /\ zlen (take (Z.to_nat (buf_size - 1)) t ++ 0 :: rest) = zlen buf
    /\ drop (Z.to_nat buf_size) (take (Z.to_nat (buf_size - 1)) t ++ 0 :: rest)
       = drop (Z.to_nat buf_size) buf.
Proof.
  intros Ht Hb. unfold pstrcpy. destruct (Z.leb_spec buf_size 0); [lia|].
  set (n := Nat.min (length t) (Z.to_nat (buf_size - 1 - 0))).
  rewrite (pstrcpy_loop_spec buf 0 buf_size s t n) by (done || lia).
  assert (Hn : take (Z.to_nat (buf_size - 1)) t = take n t).
  { subst n. rewrite Z.sub_0_r. destruct (decide (length t <= Z.to_nat (buf_size - 1)))%nat.
    - rewrite !take_ge by lia. done.
    - f_equal. lia. }
  rewrite Hn. exists (drop (n + 1) buf). cbn. split; [done|].
  assert (length (take n t) = n) by (rewrite length_take; lia).
  split.
  - autorewrite with zlen. unfold zlen in *. lia.
  - rewrite drop_app_ge by lia.
    replace (Z.to_nat buf_size - length (take n t))%nat
      with (S (Z.to_nat buf_size - 1 - n)) by lia.
    cbn. rewrite drop_drop. f_equal. lia.
Qed.

Lemma pstrcpy_truncates_witness :
  cstr [104; 105; 33; 0] [104; 105; 33] /\
  exists rest, pstrcpy [9; 9; 9; 9] 3 [104; 105; 33; 0] = Some ([104; 105] ++ 0 :: rest).
Proof.
  assert (H : cstr [104; 105; 33; 0] [104; 105; 33]).
  { split; [repeat constructor; lia | exists []; reflexivity]. }
  split; [exact H|].
  destruct (pstrcpy_truncates [9; 9; 9; 9] 3 _ _ H ltac:(vm_compute; split; congruence))
    as (rest & E & _).
  exists rest. exact E.
Defined.

Lemma strstart_spec s t val v :
  cstr s t -> cstr val v ->
  exists r, strstart s val = Some r /\
    match r with
    | Some p => exists t', t = v ++ t' /\ cstr p t'
    | None => forall t', t <> v ++ t'
    end.
Proof.
  intros Hs Hv. revert s t v Hs Hv. induction val as [|c val IH]; intros s t v Hs Hv.
  { destruct Hv as [_ [? E]]. by destruct v. }
  cbn. destruct (Z.eqb_spec c 0) as [->|Hc].
  { rewrite (cstr_zero _ _ Hv). exists (Some s). split; [done|]. by exists t. }
  apply cstr_cons in Hv as (v' & -> & Hv); [|done].
  destruct s as [|p s].
  { destruct Hs as [_ [? E]]. by destruct t. }
  destruct (Z.eqb_spec p c) as [->|Hne].
  - apply cstr_cons in Hs as (t' & -> & Hs); [|done].
    destruct (IH _ _ _ Hs Hv) as (r & -> & Hr). exists r. split; [done|].
    destruct r; [|naive_solver].
    destruct Hr as (t'' & -> & ?). by exists t''.
  - exists None. split; [done|]. intros t' ->. destruct Hs as [_ [? E]].
    cbn in E. congruence.
Qed.

Lemma has_suffix_spec s t suf u :
  cstr s t -> cstr suf u ->
  has_suffix s suf = Some (bool_decide (drop (length t - length u) t = u)).
Proof.
  intros Hs Hu. unfold has_suffix.
  rewrite (strlen_cstr _ _ Hs), (strlen_cstr _ _ Hu). cbn. rewrite Z.geb_leb.
  destruct (Z.leb_spec (zlen u) (zlen t)).
  - rewrite (cstr_app_slice _ _ Hs) by (zlen_lia).
    rewrite (cstr_app_slice _ _ Hu) by (zlen_lia). cbn. f_equal.
    unfold memcmp_eq, zlen in *. rewrite drop_0, (take_ge u) by lia.
    rewrite take_ge by (rewrite length_drop; lia).
    by replace (Z.to_nat _) with (length t - length u)%nat by lia.
  - symmetry. f_equal. apply bool_decide_eq_false. intros E.
    apply (f_equal length) in E. rewrite length_drop in E. unfold zlen in *. lia.
Qed.
