(* ===== verification/Bytes.v ===== *)
(** * Byte level accessors (cutils.h)

    [get_u16], [put_u32] and the like read and write packed integers of the
    host, which is little endian; [bswap16/32/64] reverse the bytes.  A read or
    write outside of the object is [None]. *)

From S2P Require Import Prelude.

(** The [n] bytes of an integer, least significant first. *)
Fixpoint le_bytes (n : nat) (v : Z) : list Z :=
  match n with
  | O => []
  | S n' => v mod 256 :: le_bytes n' (v / 256)
  end.

Fixpoint le_value (bs : list Z) : Z :=
  match bs with
  | [] => 0
  | b :: bs' => b + 256 * le_value bs'
  end.

Definition is_byte (b : Z) : Prop := 0 <= b < 256.

(** ** Definitions *)

Definition get_u8 (tab : list Z) (i : Z) : option Z := znth tab i.
Definition get_u16 (tab : list Z) (i : Z) : option Z := le_value <$> zslice tab i 2.
Definition get_u32 (tab : list Z) (i : Z) : option Z := le_value <$> zslice tab i 4.
Definition get_u64 (tab : list Z) (i : Z) : option Z := le_value <$> zslice tab i 8.

(** The signed readings of the same bytes. *)
Definition sext (w v : Z) : Z := if v <? 2 ^ (w - 1) then v else v - 2 ^ w.
Definition get_i8 (tab : list Z) (i : Z) : option Z := sext 8 <$> get_u8 tab i.
Definition get_i16 (tab : list Z) (i : Z) : option Z := sext 16 <$> get_u16 tab i.
Definition get_i32 (tab : list Z) (i : Z) : option Z := sext 32 <$> get_u32 tab i.
Definition get_i64 (tab : list Z) (i : Z) : option Z := sext 64 <$> get_u64 tab i.

Definition put_u8 (tab : list Z) (i v : Z) : option (list Z) := zupd tab i (u8 v).
Definition put_u16 (tab : list Z) (i v : Z) : option (list Z) := zblit tab i (le_bytes 2 v).
Definition put_u32 (tab : list Z) (i v : Z) : option (list Z) := zblit tab i (le_bytes 4 v).
Definition put_u64 (tab : list Z) (i v : Z) : option (list Z) := zblit tab i (le_bytes 8 v).

Definition bswap16 (x : Z) : Z := u16 (Z.lor (Z.shiftr x 8) (Z.shiftl x 8)).

Definition bswap32 (v : Z) : Z :=
  Z.lor (Z.lor (Z.lor
    (Z.shiftr (Z.land v 0xff000000) 24)
    (Z.shiftr (Z.land v 0x00ff0000) 8))
    (u32 (Z.shiftl (Z.land v 0x0000ff00) 8)))
    (u32 (Z.shiftl (Z.land v 0x000000ff) 24)).

Definition bswap64 (v : Z) : Z :=
  let m k := Z.shiftl 0xff (k * 8) in
  Z.lor (Z.lor (Z.lor (Z.lor (Z.lor (Z.lor (Z.lor
    (Z.shiftr (Z.land v (m 7)) (7 * 8))
    (Z.shiftr (Z.land v (m 6)) (5 * 8)))
    (Z.shiftr (Z.land v (m 5)) (3 * 8)))
    (Z.shiftr (Z.land v (m 4)) (1 * 8)))
    (Z.shiftl (Z.land v (m 3)) (1 * 8)))
    (Z.shiftl (Z.land v (m 2)) (3 * 8)))
    (Z.shiftl (Z.land v (m 1)) (5 * 8)))
    (Z.shiftl (Z.land v (m 0)) (7 * 8)).

(** ** Little endian encodings *)

Lemma length_le_bytes n v : length (le_bytes n v) = n.
Proof. revert v. induction n; cbn; auto. Qed.

Lemma zlen_le_bytes n v : zlen (le_bytes n v) = Z.of_nat n.
Proof. unfold zlen. by rewrite length_le_bytes. Qed.
#[export] Hint Rewrite zlen_le_bytes : zlen.

Lemma le_bytes_bytes n v : Forall is_byte (le_bytes n v).
Proof.
  revert v. induction n; cbn; constructor; auto. apply Z.mod_pos_bound. lia.
Qed.

Lemma le_value_bytes n v : le_value (le_bytes n v) = v mod 256 ^ Z.of_nat n.
Proof.
  revert v. induction n as [|n IH]; intros v; [by rewrite Z.mod_1_r|].
  cbn [le_bytes le_value]. rewrite IH, Nat2Z.inj_succ, Z.pow_succ_r by lia.
  rewrite (Z.rem_mul_r v 256) by (pose proof (Z.pow_pos_nonneg 256 (Z.of_nat n)); lia). lia.
Qed.

Lemma le_value_range bs : Forall is_byte bs -> 0 <= le_value bs < 256 ^ zlen bs.
Proof.
  induction 1 as [|b bs Hb _ IH]; [split; vm_compute; congruence|].
  rewrite zlen_cons, Z.pow_add_r, Z.pow_1_r by zlen_lia. unfold is_byte in Hb. cbn [le_value]. lia.
Qed.

Lemma le_bytes_value bs : Forall is_byte bs -> le_bytes (length bs) (le_value bs) = bs.
Proof.
  induction 1 as [|b bs Hb _ IH]; [done|]. unfold is_byte in Hb. cbn.
  rewrite (Z.mul_comm 256), Z.mod_add, Z.div_add, Z.mod_small, Z.div_small by lia.
  by rewrite Z.add_0_l, IH.
Qed.

(** ** Reading back what was written *)

Lemma zslice_app_mid {A} (l m r : list A) : zslice (l ++ m ++ r) (zlen l) (zlen m) = Some m.
Proof.
  rewrite zslice_is_Some by zlen_lia. unfold zlen.
  rewrite !Nat2Z.id, drop_app_ge, Nat.sub_diag, drop_0 by lia.
  by rewrite take_app_length.
Qed.

Lemma zslice_zblit {A} (l : list A) i d l' :
  zblit l i d = Some l' -> zslice l' i (zlen d) = Some d.
Proof.
  intros (Hi & Hle & ->)%zblit_Some.
  assert (i = zlen (take (Z.to_nat i) l)) as Ei by zlen_lia.
  rewrite <- (zslice_app_mid (take (Z.to_nat i) l) d (drop (Z.to_nat i + length d) l)).
  by rewrite <- Ei.
Qed.

(** A slice disjoint from the written range is unchanged. *)
Lemma zslice_zblit_ne {A} (l : list A) i d l' j n :
  zblit l i d = Some l' -> j + n <= i \/ i + zlen d <= j -> zslice l' j n = zslice l j n.
Proof.
  intros Hb Hj. pose proof (zblit_len _ _ _ _ Hb) as Hlen.
  apply zblit_Some in Hb as (Hi & Hle & ->).
  unfold zslice. rewrite Hlen.
  destruct (Z.leb_spec 0 j), (Z.leb_spec 0 n), (Z.leb_spec (j + n) (zlen l)); cbn; [|done..].
  f_equal. unfold zlen in *. apply list_eq. intros k.
  destruct (decide (k < Z.to_nat n)%nat); [|by rewrite !lookup_take_ge by lia].
  rewrite !lookup_take_lt, !lookup_drop by lia.
  destruct Hj.
  - rewrite lookup_app_l by (rewrite length_take; lia). by rewrite lookup_take_lt by lia.
  - rewrite lookup_app_r by (rewrite length_take; lia).
    rewrite lookup_app_r by (rewrite length_take; lia).
    rewrite lookup_drop, length_take. f_equal. lia.
Qed.

Section read_write.
Context (tab tab' : list Z) (i v : Z).

Lemma get_put_le n :
  zblit tab i (le_bytes n v) = Some tab' ->
  le_value <$> zslice tab' i (Z.of_nat n) = Some (v mod 256 ^ Z.of_nat n).
Proof.
  intros H%zslice_zblit. rewrite zlen_le_bytes in H. rewrite H. cbn. by rewrite le_value_bytes.
Qed.

Lemma get_put_u16 : put_u16 tab i v = Some tab' -> get_u16 tab' i = Some (u16 v).
Proof. apply (get_put_le 2). Qed.

Lemma get_put_u32 : put_u32 tab i v = Some tab' -> get_u32 tab' i = Some (u32 v).
Proof. apply (get_put_le 4). Qed.

Lemma get_put_u64 : put_u64 tab i v = Some tab' -> get_u64 tab' i = Some (u64 v).
Proof. apply (get_put_le 8). Qed.
End read_write.

Lemma get_le_app n l v r :
  le_value <$> zslice (l ++ le_bytes n v ++ r) (zlen l) (Z.of_nat n)
  = Some (v mod 256 ^ Z.of_nat n).
Proof.
  pose proof (zslice_app_mid l (le_bytes n v) r) as E. rewrite zlen_le_bytes in E.
  rewrite E. cbn. by rewrite le_value_bytes.
Qed.

Lemma get_u16_app l v r : get_u16 (l ++ le_bytes 2 v ++ r) (zlen l) = Some (u16 v).
Proof. apply (get_le_app 2). Qed.

Lemma get_u32_app l v r : get_u32 (l ++ le_bytes 4 v ++ r) (zlen l) = Some (u32 v).
Proof. apply (get_le_app 4). Qed.

(** ** Byte swapping reverses the little endian encoding *)

Lemma le_bytes_testbit n v k i :
  (k < n)%nat -> 0 <= i < 8 ->
  Z.testbit (default 0 (le_bytes n v !! k)) i = Z.testbit v (8 * Z.of_nat k + i).
Proof.
  revert v k. induction n as [|n IH]; intros v k Hk Hi; [lia|].
  destruct k as [|k]; cbn [le_bytes lookup list_lookup].
  - cbn. change 256 with (2 ^ 8). by rewrite Z.mod_pow2_bits_low by lia.
  - rewrite IH by lia. change 256 with (2 ^ 8). rewrite Z.div_pow2_bits by lia.
    f_equal. lia.
Qed.

Ltac bit_cases i H :=
  let rec go n := match n with
    | O => exfalso; lia
    | S ?m => destruct (decide (i = Z.of_nat m)) as [->|]; [ | go m ]
    end in
  match type of H with
  | 0 <= i < ?n => let k := eval cbv in (Z.to_nat n) in go k
  end.

Ltac bit_eval :=
  rewrite ?Z.mod_pow2_bits_low by lia;
  rewrite ?Z.lor_spec, ?Z.shiftr_spec, ?Z.land_spec, ?Z.shiftl_spec by lia;
  rewrite ?Z.mod_pow2_bits_low by lia;
  rewrite ?Z.lor_spec, ?Z.shiftr_spec, ?Z.land_spec, ?Z.shiftl_spec, ?Z.land_spec by lia.

Ltac bswap_bits v i Hi :=
  bit_cases i Hi; bit_eval; cbn -[Z.testbit];
  repeat match goal with |- context [Z.testbit (Zpos ?p) ?k] =>
    let b := eval vm_compute in (Z.testbit (Zpos p) k) in
    change (Z.testbit (Zpos p) k) with b end;
  rewrite ?(Z.testbit_neg_r v) by lia;
  rewrite ?andb_false_r, ?andb_true_r, ?orb_false_r; try done.

(** [w] is [v] with its [n] bytes in the opposite order. *)
Definition bytes_swapped (n v w : Z) : Prop :=
  forall i, 0 <= i < 8 * n -> Z.testbit w i = Z.testbit v (8 * (n - 1 - i / 8) + i mod 8).

(** The argument of [bswap16] is converted to [uint16_t] by the call. *)
Lemma bswap16_bit v : bytes_swapped 2 v (bswap16 (u16 v)).
Proof.
  intros i Hi. change (8 * 2) with 16 in Hi. unfold bswap16, u16.
  rewrite Z.mod_pow2_bits_low, Z.lor_spec, Z.shiftr_spec, Z.shiftl_spec by lia.
  destruct (decide (i < 8)).
  - rewrite (Z.testbit_neg_r _ (i - 8)), orb_false_r, Z.mod_pow2_bits_low by lia.
    f_equal. rewrite Z.div_small, Z.mod_small; lia.
  - rewrite (Z.mod_pow2_bits_high v), Z.mod_pow2_bits_low by lia. cbn. f_equal.
    replace i with ((i - 8) + 1 * 8) at 2 3 by lia.
    rewrite Z.div_add, Z.mod_add, Z.div_small, Z.mod_small; lia.
Qed.

Lemma bswap32_bit v : bytes_swapped 4 v (bswap32 v).
Proof.
  intros i Hi. change (8 * 4) with 32 in Hi. unfold bswap32, u32. bswap_bits v i Hi.
Qed.

Lemma bswap64_bit v : bytes_swapped 8 v (bswap64 v).
Proof.
  intros i Hi. change (8 * 8) with 64 in Hi. unfold bswap64.
  repeat match goal with |- context [Z.shiftl 255 ?k] =>
    let m := eval vm_compute in (Z.shiftl 255 k) in change (Z.shiftl 255 k) with m end.
  bswap_bits v i Hi.
Qed.

Lemma bytes_swapped_le_bytes n v w :
  bytes_swapped (Z.of_nat n) v w -> le_bytes n w = reverse (le_bytes n v).
Proof.
  intros H. apply list_eq. intros k.
  destruct (decide (k < n)%nat) as [Hk|Hk].
  2:{ by rewrite !lookup_ge_None_2 by (rewrite ?length_reverse, length_le_bytes; lia). }
  assert (Hb : forall m u, (m < n)%nat -> exists b, le_bytes n u !! m = Some b /\ is_byte b).
  { intros m u Hm. destruct (lookup_lt_is_Some_2 (le_bytes n u) m) as [b E];
      [by rewrite length_le_bytes|].
    exists b. split; [done|]. eapply Forall_lookup_1; [apply le_bytes_bytes|exact E]. }
  rewrite reverse_lookup by (by rewrite length_le_bytes). rewrite length_le_bytes.
  destruct (Hb k w Hk) as (b & Eb & Bb).
  destruct (Hb (n - S k)%nat v ltac:(lia)) as (c & Ec & Bc).
  rewrite Eb, Ec. f_equal. apply (bits_eq_below 8); try (unfold is_byte in *; lia).
  intros i Hi.
  pose proof (le_bytes_testbit n w k i Hk Hi) as E1. rewrite Eb in E1. cbn in E1.
  pose proof (le_bytes_testbit n v (n - S k) i ltac:(lia) Hi) as E2. rewrite Ec in E2. cbn in E2.
  rewrite E1, E2, H by lia.
  assert ((8 * Z.of_nat k + i) / 8 = Z.of_nat k) as ->
    by (symmetry; apply Z.div_unique with i; lia).
  assert ((8 * Z.of_nat k + i) mod 8 = i) as ->
    by (symmetry; apply Z.mod_unique with (Z.of_nat k); lia).
  f_equal. lia.
Qed.

Lemma le_bytes_inj n v w :
  0 <= v < 256 ^ Z.of_nat n -> 0 <= w < 256 ^ Z.of_nat n ->
  le_bytes n v = le_bytes n w -> v = w.
Proof.
  intros Hv Hw E. apply (f_equal le_value) in E. rewrite !le_value_bytes in E.
  by rewrite !Z.mod_small in E.
Qed.

(** bswap16, bswap32 and bswap64 reverse the little endian byte encoding of their
    argument. *)
Theorem bswap_reverses_bytes v :
  le_bytes 2 (bswap16 (u16 v)) = reverse (le_bytes 2 v)
  /\ le_bytes 4 (bswap32 v) = reverse (le_bytes 4 v)
  /\ le_bytes 8 (bswap64 v) = reverse (le_bytes 8 v).
Proof.
  split_and!; apply bytes_swapped_le_bytes;
    [apply bswap16_bit | apply bswap32_bit | apply bswap64_bit].
Qed.
