(* ===== verification/Exchange.v ===== *)
(** * Exchanging two objects of an array (cutils.c)

    The [exchange_*] functions of [rqsort] swap two objects word by word, with the widest
    word that the alignment of the array allows.  A memory object is the list of its
    bytes, and pointers into it are offsets; [addr] is the address of the offset 0.  A word
    is kept as its bytes.  An access outside the object, or one that is not aligned on the
    size of the word, is [None]. *)

From S2P Require Import Prelude Bytes.

(** ** Definitions *)

Section exchange.
Context (addr : Z).

(** [*p] and [*p = t] for a pointer to words of [k] bytes. *)
Definition load (k : Z) (m : list Z) (p : Z) : option (list Z) :=
  if (addr + p) mod k =? 0 then zslice m p k else None.

Definition store (k : Z) (m : list Z) (p : Z) (t : list Z) : option (list Z) :=
  if (addr + p) mod k =? 0 then zblit m p t else None.

(** [t = *ap; *ap = *bp; *bp = t], on words of [k] bytes. *)
Definition exchange_word (k : Z) (m : list Z) (ap bp : Z) : option (list Z) :=
  t ← load k m ap;
  u ← load k m bp;
  m ← store k m ap u;
  store k m bp t.

(** The loop that exchanges [n] consecutive words. *)
Fixpoint exchange_words (k : Z) (n : nat) (m : list Z) (ap bp : Z) : option (list Z) :=
  match n with
  | O => Some m
  | S n' => m ← exchange_word k m ap bp; exchange_words k n' m (ap + k) (bp + k)
  end.

Definition exchange_f : Type := list Z -> Z -> Z -> Z -> option (list Z).

Definition exchange_bytes : exchange_f := fun m a b size => exchange_words 1 (Z.to_nat size) m a b.
Definition exchange_one_byte : exchange_f := fun m a b size => exchange_word 1 m a b.
Definition exchange_int16s : exchange_f := fun m a b size => exchange_words 2 (Z.to_nat (size / 2)) m a b.
Definition exchange_one_int16 : exchange_f := fun m a b size => exchange_word 2 m a b.
Definition exchange_int32s : exchange_f := fun m a b size => exchange_words 4 (Z.to_nat (size / 4)) m a b.
Definition exchange_one_int32 : exchange_f := fun m a b size => exchange_word 4 m a b.
Definition exchange_int64s : exchange_f := fun m a b size => exchange_words 8 (Z.to_nat (size / 8)) m a b.
Definition exchange_one_int64 : exchange_f := fun m a b size => exchange_word 8 m a b.

(** Two words at a time: both are read before the first is written. *)
Definition exchange_one_int128 : exchange_f := fun m ap bp size =>
  t ← load 8 m ap;
  u ← load 8 m (ap + 8);
  b0 ← load 8 m bp;
  m ← store 8 m ap b0;
  b1 ← load 8 m (bp + 8);
  m ← store 8 m (ap + 8) b1;
  m ← store 8 m bp t;
  store 8 m (bp + 8) u.

Fixpoint exchange_int128s_loop (n : nat) (m : list Z) (ap bp : Z) : option (list Z) :=
  match n with
  | O => Some m
  | S n' => m ← exchange_one_int128 m ap bp 16; exchange_int128s_loop n' m (ap + 16) (bp + 16)
  end.

Definition exchange_int128s : exchange_f := fun m a b size =>
  exchange_int128s_loop (Z.to_nat (size / 16)) m a b.

(** The function for the objects of [size] bytes of an array at the address [base]. *)
Definition exchange_func (base size : Z) : exchange_f :=
  let k := Z.land (Z.lor base size) 15 in
  if k =? 0 then if size =? 16 then exchange_one_int128 else exchange_int128s
  else if k =? 8 then if size =? 8 then exchange_one_int64 else exchange_int64s
  else if (k =? 4) || (k =? 12) then if size =? 4 then exchange_one_int32 else exchange_int32s
  else if (k =? 2) || (k =? 6) || (k =? 10) || (k =? 14) then
    if size =? 2 then exchange_one_int16 else exchange_int16s
  else if size =? 1 then exchange_one_byte else exchange_bytes.
End exchange.

(** ** Swapped ranges *)

(** Where the byte at [x] comes from once the ranges of [n] bytes at [a] and [b] have been
    exchanged. *)
Definition swap_ix (a b n x : Z) : Z :=
  if (a <=? x) && (x <? a + n) then x - a + b
  else if (b <=? x) && (x <? b + n) then x - b + a
  else x.

Lemma swap_ix_cases a b n x :
  (a <= x < a + n /\ swap_ix a b n x = x - a + b) \/
  (~ a <= x < a + n /\ b <= x < b + n /\ swap_ix a b n x = x - b + a) \/
  (~ a <= x < a + n /\ ~ b <= x < b + n /\ swap_ix a b n x = x).
Proof.
  unfold swap_ix. destruct (Z.leb_spec a x), (Z.ltb_spec x (a + n)); cbn [andb]; try lia;
    destruct (Z.leb_spec b x), (Z.ltb_spec x (b + n)); cbn [andb]; lia.
Qed.

Record swapped {A} (m : list A) (a b n : Z) (m' : list A) : Prop := {
  swapped_len : zlen m' = zlen m;
  swapped_at x : znth m' x = znth m (swap_ix a b n x)
}.

(** Two ranges that are the same or do not meet. *)
Definition apart (a b n : Z) : Prop := a = b \/ a + n <= b \/ b + n <= a.

Lemma znth_zblit {A} (l : list A) i d l' x :
  zblit l i d = Some l' ->
  znth l' x = if (i <=? x) && (x <? i + zlen d) then znth d (x - i) else znth l x.
Proof.
  intros (Hi & Hle & ->)%zblit_Some. pose proof (zlen_nonneg d).
  assert (Ht : zlen (take (Z.to_nat i) l) = i) by zlen_lia.
  destruct (Z.leb_spec i x); cbn [andb].
  - rewrite znth_app_r, Ht by lia. destruct (Z.ltb_spec x (i + zlen d)).
    + by rewrite znth_app_l by lia.
    + rewrite znth_app_r by lia. rewrite !znth_lookup, lookup_drop by lia.
      f_equal. unfold zlen in *. lia.
  - rewrite znth_app_l by lia. apply znth_take. lia.
Qed.

Lemma znth_zslice {A} (l : list A) i n d x :
  zslice l i n = Some d -> 0 <= x < n -> znth d x = znth l (i + x).
Proof.
  intros (Hi & Hn & Hle & ->)%zslice_Some Hx. rewrite znth_take by lia.
  rewrite !znth_lookup, lookup_drop by lia. f_equal. lia.
Qed.

(** ** Alignment *)

Lemma aligned_mul k x j : 0 < k -> x mod k = 0 -> (x + j * k) mod k = 0.
Proof. intros. by rewrite Z.mod_add by lia. Qed.

Lemma aligned_next k x : 0 < k -> x mod k = 0 -> (x + k) mod k = 0.
Proof. intros. replace (x + k) with (x + 1 * k) by lia. by apply aligned_mul. Qed.

(** ** The exchange of words *)

Section exchange_spec.
Context (addr : Z).

Definition in_object (m : list Z) (a b n : Z) : Prop :=
  0 <= a /\ 0 <= b /\ 0 <= n /\ a + n <= zlen m /\ b + n <= zlen m.

Lemma load_ok k m p :
  (addr + p) mod k = 0 -> 0 <= p -> 0 <= k -> p + k <= zlen m ->
  exists t, load addr k m p = Some t /\ zlen t = k /\ forall x, 0 <= x < k -> znth t x = znth m (p + x).
Proof.
  intros Ha Hp Hk Hle. unfold load. rewrite Ha. change (0 =? 0) with true. cbv iota.
  pose proof (zslice_is_Some m p k Hp Hk Hle) as E. eexists. split; [exact E|].
  split; [by eapply zslice_len|]. intros x Hx. by eapply znth_zslice.
Qed.

Lemma store_ok k m p t :
  (addr + p) mod k = 0 -> 0 <= p -> zlen t = k -> p + k <= zlen m ->
  exists m', store addr k m p t = Some m' /\ zlen m' = zlen m /\
    forall x, znth m' x = if (p <=? x) && (x <? p + k) then znth t (x - p) else znth m x.
Proof.
  intros Ha Hp Hk Hle. unfold store. rewrite Ha. change (0 =? 0) with true. cbv iota.
  destruct (zblit m p t) as [m'|] eqn:E; [|rewrite zblit_is_Some in E by lia; done].
  exists m'. split; [done|]. split; [by eapply zblit_len|].
  intros x. rewrite (znth_zblit _ _ _ _ x E). by rewrite Hk.
Qed.

Ltac cases_ix := unfold swap_ix;
  repeat match goal with
  | |- context [?a <=? ?b] => destruct (Z.leb_spec a b)
  | |- context [?a <? ?b] => destruct (Z.ltb_spec a b)
  end; cbn [andb].

Lemma exchange_word_ok k m a b :
  0 < k -> (addr + a) mod k = 0 -> (addr + b) mod k = 0 -> in_object m a b k -> apart a b k ->
  exists m', exchange_word addr k m a b = Some m' /\ swapped m a b k m'.
Proof.
  intros Hk Ha Hb (H1 & H2 & _ & H3 & H4) Hap. unfold exchange_word.
  destruct (load_ok k m a) as (t & -> & Ht & Et); [done|lia..|].
  destruct (load_ok k m b) as (u & -> & Hu & Eu); [done|lia..|]. cbn [mbind option_bind].
  destruct (store_ok k m a u) as (m1 & -> & L1 & E1); [done..|]. cbn [mbind option_bind].
  destruct (store_ok k m1 b t) as (m2 & -> & L2 & E2); [done|lia..|].
  exists m2. split; [done|]. split; [lia|]. intros x. rewrite E2.
  unfold apart in Hap. cases_ix; try lia; rewrite ?E1; cases_ix; try lia;
    rewrite ?Et, ?Eu by lia; f_equal; lia.
Qed.

Lemma swapped_app {A} (m : list A) a b n1 n2 m1 m2 :
  0 <= n1 -> 0 <= n2 -> apart a b (n1 + n2) ->
  swapped m a b n1 m1 -> swapped m1 (a + n1) (b + n1) n2 m2 -> swapped m a b (n1 + n2) m2.
Proof.
  intros Hn1 Hn2 Hap [L1 E1] [L2 E2]. split; [lia|]. intros x. rewrite E2, E1.
  f_equal. unfold apart in Hap.
  pose proof (swap_ix_cases (a + n1) (b + n1) n2 x).
  pose proof (swap_ix_cases a b n1 (swap_ix (a + n1) (b + n1) n2 x)).
  pose proof (swap_ix_cases a b (n1 + n2) x). lia.
Qed.

Lemma exchange_words_ok k n m a b :
  0 < k -> (addr + a) mod k = 0 -> (addr + b) mod k = 0 ->
  in_object m a b (Z.of_nat n * k) -> apart a b (Z.of_nat n * k) ->
  exists m', exchange_words addr k n m a b = Some m' /\ swapped m a b (Z.of_nat n * k) m'.
Proof.
  intros Hk. revert m a b. induction n as [|n IH]; intros m a b Ha Hb Hin Hap.
  { exists m. split; [done|]. split; [done|]. intros x. f_equal. cases_ix; lia. }
  replace (Z.of_nat (S n) * k) with (k + Z.of_nat n * k) in * by lia.
  assert (0 <= Z.of_nat n * k) by lia.
  destruct Hin as (H1 & H2 & H3 & H4 & H5). unfold apart in Hap. cbn [exchange_words].
  destruct (exchange_word_ok k m a b) as (m1 & -> & S1); [done..| | |];
    [unfold in_object; lia|unfold apart; lia|]. cbn [mbind option_bind].
  destruct (IH m1 (a + k) (b + k)) as (m2 & -> & S2).
  - rewrite Z.add_assoc. by apply aligned_next.
  - rewrite Z.add_assoc. by apply aligned_next.
  - unfold in_object. rewrite (swapped_len _ _ _ _ _ S1). lia.
  - unfold apart. lia.
  - exists m2. split; [done|]. apply (swapped_app m a b k _ m1); done || lia.
Qed.
Lemma exchange_one_int128_ok m a b n :
  (addr + a) mod 8 = 0 -> (addr + b) mod 8 = 0 -> in_object m a b 16 -> apart a b 16 ->
  exists m', exchange_one_int128 addr m a b n = Some m' /\ swapped m a b 16 m'.
Proof.
  intros Ha Hb (H1 & H2 & _ & H3 & H4) Hap. unfold exchange_one_int128.
  assert (Ha8 : (addr + (a + 8)) mod 8 = 0) by (rewrite Z.add_assoc; by apply aligned_next).
  assert (Hb8 : (addr + (b + 8)) mod 8 = 0) by (rewrite Z.add_assoc; by apply aligned_next).
  destruct (load_ok 8 m a) as (t & -> & Ht & Et); [done|lia..|].
  destruct (load_ok 8 m (a + 8)) as (u & -> & Hu & Eu); [done|lia..|].
  destruct (load_ok 8 m b) as (b0 & -> & Hb0 & Eb0); [done|lia..|]. cbn [mbind option_bind].
  destruct (store_ok 8 m a b0) as (m1 & -> & L1 & E1); [done|lia..|]. cbn [mbind option_bind].
  destruct (load_ok 8 m1 (b + 8)) as (b1 & -> & Hb1 & Eb1); [done|lia..|]. cbn [mbind option_bind].
  destruct (store_ok 8 m1 (a + 8) b1) as (m2 & -> & L2 & E2); [done|lia..|]. cbn [mbind option_bind].
  destruct (store_ok 8 m2 b t) as (m3 & -> & L3 & E3); [done|lia..|]. cbn [mbind option_bind].
  destruct (store_ok 8 m3 (b + 8) u) as (m4 & -> & L4 & E4); [done|lia..|].
  exists m4. split; [done|]. split; [lia|]. intros x. unfold apart in Hap.
  assert (Hb1' : forall y, 0 <= y < 8 -> znth b1 y = znth m (b + 8 + y)).
  { intros y Hy. rewrite Eb1, E1 by lia. cases_ix; try done; rewrite Eb0 by lia; f_equal; lia. }
  rewrite E4. cases_ix; rewrite ?E3; cases_ix; rewrite ?E2; cases_ix; rewrite ?E1; cases_ix;
    try lia; rewrite ?Et, ?Eu, ?Eb0, ?Hb1' by lia; f_equal; lia.
Qed.

Lemma exchange_int128s_ok n m a b :
  (addr + a) mod 8 = 0 -> (addr + b) mod 8 = 0 ->
  in_object m a b (Z.of_nat n * 16) -> apart a b (Z.of_nat n * 16) ->
  exists m', exchange_int128s_loop addr n m a b = Some m' /\ swapped m a b (Z.of_nat n * 16) m'.
Proof.
  revert m a b. induction n as [|n IH]; intros m a b Ha Hb Hin Hap.
  { exists m. split; [done|]. split; [done|]. intros x. f_equal. cases_ix; lia. }
  replace (Z.of_nat (S n) * 16) with (16 + Z.of_nat n * 16) in * by lia.
  destruct Hin as (H1 & H2 & H3 & H4 & H5). unfold apart in Hap. cbn [exchange_int128s_loop].
  destruct (exchange_one_int128_ok m a b 16) as (m1 & -> & S1); [done..| | |];
    [unfold in_object; lia|unfold apart; lia|]. cbn [mbind option_bind].
  destruct (IH m1 (a + 16) (b + 16)) as (m2 & -> & S2).
  - rewrite Z.add_assoc. by apply (aligned_mul 8 _ 2).
  - rewrite Z.add_assoc. by apply (aligned_mul 8 _ 2).
  - unfold in_object. rewrite (swapped_len _ _ _ _ _ S1). lia.
  - unfold apart. lia.
  - exists m2. split; [done|]. apply (swapped_app m a b 16 _ m1); done || lia.
Qed.

(** ** The function chosen *)

(** [k] bytes divide a number whose last four bits are those of [base | size]. *)
Lemma lor_divides base size k :
  0 <= k -> Z.land (Z.lor base size) (Z.ones k) = 0 -> base mod 2 ^ k = 0 /\ size mod 2 ^ k = 0.
Proof.
  intros Hk. rewrite <- !Z.land_ones by done. intros H.
  split; apply Z.bits_inj'; intros i Hi;
    apply (f_equal (fun z => Z.testbit z i)) in H;
    rewrite Z.land_spec, Z.lor_spec in H; rewrite Z.land_spec, Z.bits_0 in *;
    destruct (Z.testbit base i), (Z.testbit size i), (Z.testbit (Z.ones k) i); done.
Qed.

Lemma low_bits base size k :
  0 <= k <= 4 -> Z.land (Z.land (Z.lor base size) 15) (Z.ones k) = 0 ->
  base mod 2 ^ k = 0 /\ size mod 2 ^ k = 0.
Proof.
  intros Hk H. apply lor_divides; [lia|]. rewrite <- H, <- Z.land_assoc. f_equal.
  change 15 with (Z.ones 4). rewrite Z.land_ones, Z.ones_mod_pow2 by lia. done.
Qed.

(** [exchange_func(base, size)] exchanges [n] bytes when the alignment common to [base] and
    [size] is one of the two pointers and of [n], and, where [size] is a single word, [n] is
    [size]. *)
Definition aligned_like (base size x : Z) : Prop :=
  forall k, 0 <= k <= 4 -> base mod 2 ^ k = 0 -> size mod 2 ^ k = 0 -> x mod 2 ^ k = 0.

Definition one_word (size : Z) : bool := bool_decide (size ∈ [1; 2; 4; 8; 16]).

Lemma exchange_words_div k m a b n :
  0 < k -> n mod k = 0 -> (addr + a) mod k = 0 -> (addr + b) mod k = 0 ->
  in_object m a b n -> apart a b n ->
  exists m', exchange_words addr k (Z.to_nat (n / k)) m a b = Some m' /\ swapped m a b n m'.
Proof.
  intros Hk Hn Ha Hb Hin Hap.
  assert (E : Z.of_nat (Z.to_nat (n / k)) * k = n).
  { destruct Hin as (_ & _ & H & _). pose proof (Z.div_pos n k H Hk). divlia. }
  destruct (exchange_words_ok k (Z.to_nat (n / k)) m a b) as (m' & H1 & H2); [done..|by rewrite E|by rewrite E|].
  exists m'. by rewrite <- E at 2.
Qed.

Ltac in_words := apply list_elem_of_In; cbn; tauto.

Lemma exchange_func_ok base size m a b n :
  aligned_like base size (addr + a) -> aligned_like base size (addr + b) ->
  aligned_like base size n -> (one_word size = true -> n = size) ->
  in_object m a b n -> apart a b n ->
  exists m', exchange_func addr base size m a b n = Some m' /\ swapped m a b n m'.
Proof.
  intros Ha Hb Hn Hone Hin Hap. unfold exchange_func.
  assert (Hw : forall k, 0 <= k <= 4 ->
    Z.land (Z.land (Z.lor base size) 15) (Z.ones k) = 0 ->
    (addr + a) mod 2 ^ k = 0 /\ (addr + b) mod 2 ^ k = 0 /\ n mod 2 ^ k = 0).
  { intros k Hk H. apply low_bits in H as [H1 H2]; [|done]. repeat split; auto. }
  assert (H1 : forall w, (size =? w) = true -> w ∈ [1; 2; 4; 8; 16] -> n = w).
  { intros w ->%Z.eqb_eq Hw'. apply Hone. unfold one_word. by rewrite bool_decide_true. }
  set (q := Z.land _ 15) in *. clearbody q.
  destruct (Z.eqb_spec q 0) as [->|].
  { destruct (Hw 4) as (A1 & A2 & A3); [lia|done|].
    assert (A4 : (addr + a) mod 8 = 0) by divlia. assert (A5 : (addr + b) mod 8 = 0) by divlia.
    destruct (size =? 16) eqn:E; [rewrite (H1 _ E) in * by in_words; by apply exchange_one_int128_ok|].
    assert (E' : Z.of_nat (Z.to_nat (n / 16)) * 16 = n) by (destruct Hin as (_ & _ & H & _); divlia).
    destruct (exchange_int128s_ok (Z.to_nat (n / 16)) m a b) as (m' & S1 & S2);
      [done..|by rewrite E'|by rewrite E'|]. exists m'. by rewrite E' in S2. }
  destruct (Z.eqb_spec q 8) as [->|].
  { destruct (Hw 3) as (A1 & A2 & A3); [lia|done|].
    destruct (size =? 8) eqn:E; [rewrite (H1 _ E) in * by in_words; by apply exchange_word_ok|].
    by apply exchange_words_div. }
  destruct ((q =? 4) || (q =? 12)) eqn:E4.
  { destruct (Hw 2) as (A1 & A2 & A3); [lia|by apply orb_prop in E4 as [->%Z.eqb_eq | ->%Z.eqb_eq]|].
    destruct (size =? 4) eqn:E; [rewrite (H1 _ E) in * by in_words; by apply exchange_word_ok|].
    by apply exchange_words_div. }
  destruct (_ || _ || _ || _) eqn:E2.
  { destruct (Hw 1) as (A1 & A2 & A3); [lia| |].
    { repeat (apply orb_prop in E2 as [E2|E2]); by apply Z.eqb_eq in E2 as ->. }
    destruct (size =? 2) eqn:E; [rewrite (H1 _ E) in * by in_words; by apply exchange_word_ok|].
    by apply exchange_words_div. }
  destruct (Hw 0) as (A1 & A2 & A3); [lia|by rewrite Z.land_0_r|].
  destruct (size =? 1) eqn:E; [rewrite (H1 _ E) in * by in_words; by apply exchange_word_ok|].
  destruct (exchange_words_div 1 m a b n) as (m' & S1 & S2); [done..|].
  exists m'. by rewrite Z.div_1_r in S1.
Qed.
End exchange_spec.
