(* ===== verification/Rqsort.v ===== *)
(** * Sorting an array of objects (cutils.c)

    [rqsort] is a quicksort with a three way partition around the median of three
    elements, an explicit stack of 50 segments, an insertion sort for the segments of at
    most 6 elements and a heap sort for those that lie deeper than 50 levels.  Pointers are
    byte offsets into the object [m], whose address is [addr]; the comparison function of
    the caller, [cmp], reads two elements and writes nothing. *)

From S2P Require Import Prelude Bytes Exchange.

Section rqsort.
Context (addr size : Z) (cmp : list Z -> list Z -> Z).

(** [cmp(p, q, opaque)] *)
Definition cmp_at (m : list Z) (p q : Z) : option Z :=
  x ← zslice m p size;
  y ← zslice m q size;
  Some (cmp x y).

(** ** heapsortx *)

(** The loop [for (r = ...; (c = r * 2 + size) < n; r = c)] of both phases. *)
Fixpoint sift_down (fuel : nat) (swap : exchange_f) (m : list Z) (basep r n : Z)
  : option (list Z) :=
  match fuel with
  | O => None
  | S fuel' =>
      let c := u64 (r * 2 + size) in
      if c <? n then
        c ← (if c <? n - size then
               d ← cmp_at m (basep + c) (basep + c + size);
               Some (if d <=? 0 then c + size else c)
             else Some c);
        d ← cmp_at m (basep + r) (basep + c);
        if d >? 0 then Some m
        else m ← swap m (basep + r) (basep + c) size; sift_down fuel' swap m basep c n
      else Some m
  end.

(** [while (i > 0) { i -= size; ... }] *)
Fixpoint heapify (fuel : nat) (swap : exchange_f) (m : list Z) (basep i n : Z)
  : option (list Z) :=
  match fuel with
  | O => None
  | S fuel' =>
      if i >? 0 then
        let i := i - size in
        m ← sift_down (S (Z.to_nat n)) swap m basep i n;
        heapify fuel' swap m basep i n
      else Some m
  end.

(** [for (i = n - size; i > 0; i -= size)] *)
Fixpoint heap_extract (fuel : nat) (swap : exchange_f) (m : list Z) (basep i : Z)
  : option (list Z) :=
  match fuel with
  | O => None
  | S fuel' =>
      if i >? 0 then
        m ← swap m basep (basep + i) size;
        m ← sift_down (S (Z.to_nat i)) swap m basep 0 i;
        heap_extract fuel' swap m basep (i - size)
      else Some m
  end.

Definition heapsortx (m : list Z) (base nmemb : Z) : option (list Z) :=
  let swap := exchange_func addr (addr + base) size in
  if nmemb >? 1 then
    let i := u64 (nmemb / 2 * size) in
    let n := u64 (nmemb * size) in
    let fuel := S (Z.to_nat nmemb) in
    m ← heapify fuel swap m base i n;
    heap_extract fuel swap m base (n - size)
  else Some m.

(** ** The partition of rqsort *)

Definition med3 (m : list Z) (a b c : Z) : option Z :=
  ab ← cmp_at m a b;
  if ab <? 0 then
    bc ← cmp_at m b c;
    if bc <? 0 then Some b
    else ac ← cmp_at m a c; Some (if ac <? 0 then c else a)
  else
    bc ← cmp_at m b c;
    if bc >? 0 then Some b
    else ac ← cmp_at m a c; Some (if ac <? 0 then a else c).

(** The array and the local variables of the partition; [pj] is kept after the
    decrement. *)
Record Part := mkPart {
  mem : list Z;
  i_ : Z;
  lt_ : Z;
  gt_ : Z;
  pi : Z;
  plt : Z;
  pj : Z;
  pgt : Z
}.

(** [while (pi < pj && (c = cmp(ptr, pi, opaque)) >= 0)] *)
Fixpoint scan_left (fuel : nat) (swap : exchange_f) (ptr : Z) (s : Part) : option Part :=
  match fuel with
  | O => None
  | S fuel' =>
      if pi s <? pj s then
        c ← cmp_at (mem s) ptr (pi s);
        if c >=? 0 then
          s ← (if c =? 0 then
                 m ← swap (mem s) (plt s) (pi s) size;
                 Some (mkPart m (i_ s) (lt_ s + 1) (gt_ s) (pi s) (plt s + size) (pj s) (pgt s))
               else Some s);
          scan_left fuel' swap ptr
            (mkPart (mem s) (i_ s + 1) (lt_ s) (gt_ s) (pi s + size) (plt s) (pj s) (pgt s))
        else Some s
      else Some s
  end.

(** [while (pi < (pj -= size) && (c = cmp(ptr, pj, opaque)) <= 0)] *)
Fixpoint scan_right (fuel : nat) (swap : exchange_f) (ptr : Z) (s : Part) : option Part :=
  match fuel with
  | O => None
  | S fuel' =>
      let s := mkPart (mem s) (i_ s) (lt_ s) (gt_ s) (pi s) (plt s) (pj s - size) (pgt s) in
      if pi s <? pj s then
        c ← cmp_at (mem s) ptr (pj s);
        if c <=? 0 then
          s ← (if c =? 0 then
                 let pgt' := pgt s - size in
                 m ← swap (mem s) pgt' (pj s) size;
                 Some (mkPart m (i_ s) (lt_ s) (gt_ s - 1) (pi s) (plt s) (pj s) pgt')
               else Some s);
          scan_right fuel' swap ptr s
        else Some s
      else Some s
  end.

(** [for (;;)] *)
Fixpoint partition_loop (fuel : nat) (swap : exchange_f) (ptr : Z) (s : Part) : option Part :=
  match fuel with
  | O => None
  | S fuel' =>
      s ← scan_left (S (Z.to_nat (pj s - pi s))) swap ptr s;
      s ← scan_right (S (Z.to_nat (pj s - pi s))) swap ptr s;
      if pi s >=? pj s then Some s
      else
        m ← swap (mem s) (pi s) (pj s) size;
        partition_loop fuel' swap ptr
          (mkPart m (i_ s + 1) (lt_ s) (gt_ s) (pi s + size) (plt s) (pj s) (pgt s))
  end.

(** The selection of the pivot, the partition and the moves of the elements identical to
    the pivot to the middle: the array, [lt], [gt] and the pointer [pgt]. *)
Definition partition (swap swap_block : exchange_f) (m : list Z) (ptr nmemb : Z)
  : option (list Z * Z * Z * Z) :=
  let m4 := u64 (Z.shiftr nmemb 2 * size) in
  md ← med3 m (ptr + m4) (ptr + 2 * m4) (ptr + 3 * m4);
  m ← swap m ptr md size;
  let top := ptr + u64 (nmemb * size) in
  s ← partition_loop (S (Z.to_nat nmemb)) swap ptr
        (mkPart m 1 1 nmemb (ptr + size) (ptr + size) top top);
  let span := plt s - ptr in
  let span2 := pi s - plt s in
  let lt := i_ s - lt_ s in
  let span := if span >? span2 then span2 else span in
  m ← swap_block (mem s) ptr (pi s - span) span;
  let span := top - pgt s in
  let span2 := pgt s - pi s in
  let pgt := top - span2 in
  let gt := nmemb - (gt_ s - i_ s) in
  let span := if span >? span2 then span2 else span in
  m ← swap_block m (pi s) (top - span) span;
  Some (m, lt, gt, pgt).

(** ** Insertion sort *)

(** [for (pj = pi; pj > ptr && cmp(pj - size, pj, opaque) > 0; pj -= size)] *)
Fixpoint insert_left (fuel : nat) (swap : exchange_f) (m : list Z) (ptr pj : Z)
  : option (list Z) :=
  match fuel with
  | O => None
  | S fuel' =>
      if pj >? ptr then
        d ← cmp_at m (pj - size) pj;
        if d >? 0 then
          m ← swap m pj (pj - size) size; insert_left fuel' swap m ptr (pj - size)
        else Some m
      else Some m
  end.

(** [for (pi = ptr + size; pi < top; pi += size)] *)
Fixpoint insertion_sort (fuel : nat) (swap : exchange_f) (m : list Z) (ptr pi top : Z)
  : option (list Z) :=
  match fuel with
  | O => None
  | S fuel' =>
      if pi <? top then
        m ← insert_left (S (Z.to_nat (pi - ptr))) swap m ptr pi;
        insertion_sort fuel' swap m ptr (pi + size) top
      else Some m
  end.

(** ** rqsort *)

(** An entry of the stack. *)
Record Segment := mkSegment { seg_base : Z; seg_count : Z; seg_depth : Z }.

(** [stack\[50\]]: [sp->base = ...; sp++] *)
Definition push_segment (sg : Segment) (stack : list Segment) : option (list Segment) :=
  if zlen stack <? 50 then Some (sg :: stack) else None.

(** [while (nmemb > 6)]: the array, the stack, and the pointer and the count of the
    segment left. *)
Fixpoint split_segments (fuel : nat) (swap swap_block : exchange_f) (m : list Z)
    (stack : list Segment) (ptr nmemb depth : Z)
  : option (list Z * list Segment * Z * Z) :=
  match fuel with
  | O => None
  | S fuel' =>
      if nmemb >? 6 then
        let depth := depth + 1 in
        if depth >? 50 then
          m ← heapsortx m ptr nmemb; Some (m, stack, ptr, 0)
        else
          '(m, lt, gt, pgt) ← partition swap swap_block m ptr nmemb;
          if lt >? nmemb - gt then
            stack ← push_segment (mkSegment ptr lt depth) stack;
            split_segments fuel' swap swap_block m stack pgt (nmemb - gt) depth
          else
            stack ← push_segment (mkSegment pgt (nmemb - gt) depth) stack;
            split_segments fuel' swap swap_block m stack ptr lt depth
      else Some (m, stack, ptr, nmemb)
  end.

(** [while (sp > stack)] *)
Fixpoint rqsort_loop (fuel : nat) (swap swap_block : exchange_f) (m : list Z)
    (stack : list Segment) : option (list Z) :=
  match fuel with
  | O => None
  | S fuel' =>
      match stack with
      | [] => Some m
      | mkSegment ptr nmemb depth :: stack =>
          '(m, stack, ptr, nmemb) ←
            split_segments (S (Z.to_nat nmemb)) swap swap_block m stack ptr nmemb depth;
          m ← insertion_sort (S (Z.to_nat nmemb)) swap m ptr (ptr + size)
                (ptr + u64 (nmemb * size));
          rqsort_loop fuel' swap swap_block m stack
      end
  end.

(** The array is the object [m], at the address [addr]. *)
Definition rqsort (m : list Z) (nmemb : Z) : option (list Z) :=
  let swap := exchange_func addr addr size in
  let swap_block := exchange_func addr addr (Z.lor size 128) in
  if (nmemb <? 2) || (size <=? 0) then Some m
  else rqsort_loop (S (S (Z.to_nat nmemb))) swap swap_block m [mkSegment 0 nmemb 0].
End rqsort.

(** ** Evaluation *)

(** Elements of [k] bytes, compared as little endian integers. *)
Definition cmp_le (x y : list Z) : Z :=
  let a := le_value x in let b := le_value y in
  if a <? b then -1 else if b <? a then 1 else 0.

Example rqsort_two_bytes :
  rqsort 1000 2 cmp_le (flat_map (le_bytes 2) [5; 300; 2; 2; 9; 1; 77; 300; 4; 0; 12; 5]) 12
  = Some (flat_map (le_bytes 2) [0; 1; 2; 2; 4; 5; 5; 9; 12; 77; 300; 300]).
Proof. vm_compute. done. Qed.
