(* ===== verification/RqsortSpec.v ===== *)
(** * Correctness of rqsort

    The bytes of the array are related to the list of its elements; every loop of
    [Rqsort] is then specified on that list, for an arbitrary comparison function: it
    stays inside the array, terminates, and permutes the elements of its segment.  Under
    the order laws of [CmpOrder] the segments end up sorted. *)

From Stdlib Require Import Permutation.
From S2P Require Import Prelude Bytes Exchange Rqsort.

(** ** Elements of a list *)

Definition elt (l : list (list Z)) (i : Z) : list Z := default [] (znth l i).

Lemma znth_elt l i : 0 <= i < zlen l -> znth l i = Some (elt l i).
Proof. intros H. unfold elt. by destruct (znth_is_Some l i H) as [x ->]. Qed.

Lemma znth_ext {A} (l k : list A) :
  zlen l = zlen k -> (forall i, 0 <= i < zlen l -> znth l i = znth k i) -> l = k.
Proof.
  intros Hl H. apply list_eq. intros i. unfold zlen in *.
  destruct (decide (i < length l)%nat) as [Hi|Hi].
  - specialize (H (Z.of_nat i) ltac:(lia)). rewrite !znth_lookup, Nat2Z.id in H by lia. done.
  - rewrite !lookup_ge_None_2 by lia. done.
Qed.

Lemma elt_swapped l a b n l' x : swapped l a b n l' -> elt l' x = elt l (swap_ix a b n x).
Proof. intros [_ E]. unfold elt. by rewrite E. Qed.

Lemma swap_ix_range a b n x len :
  0 <= a -> 0 <= b -> a + n <= len -> b + n <= len -> 0 <= x < len -> 0 <= swap_ix a b n x < len.
Proof. intros. pose proof (swap_ix_cases a b n x). lia. Qed.

Lemma swap_ix_invol a b n x : apart a b n -> swap_ix a b n (swap_ix a b n x) = x.
Proof.
  intros H. unfold apart in H. pose proof (swap_ix_cases a b n x).
  pose proof (swap_ix_cases a b n (swap_ix a b n x)). lia.
Qed.

(** The list with the two ranges exchanged. *)
Definition swap_ranges (l : list (list Z)) (a b n : Z) : list (list Z) :=
  map (fun i => elt l (swap_ix a b n (Z.of_nat i))) (seq 0 (length l)).

Lemma swap_ranges_swapped l a b n :
  0 <= a -> 0 <= b -> a + n <= zlen l -> b + n <= zlen l -> swapped l a b n (swap_ranges l a b n).
Proof.
  intros Ha Hb Han Hbn.
  assert (Hl : zlen (swap_ranges l a b n) = zlen l) by (unfold zlen, swap_ranges; by rewrite length_map, length_seq).
  split; [done|]. intros x. destruct (decide (0 <= x < zlen l)) as [Hx|Hx].
  - pose proof (swap_ix_range a b n x _ Ha Hb Han Hbn Hx). rewrite (znth_elt l) by done.
    unfold swap_ranges. rewrite znth_lookup, list_lookup_fmap by lia.
    rewrite lookup_seq_lt by (unfold zlen in *; lia). cbn. do 2 f_equal. f_equal. lia.
  - assert (swap_ix a b n x = x) as -> by (pose proof (swap_ix_cases a b n x); lia).
    unfold znth, zlen in *. destruct (Z.ltb_spec x 0); [done|]. rewrite !lookup_ge_None_2 by lia. done.
Qed.

Lemma swapped_perm {A} (l : list A) a b n l' :
  0 <= a -> 0 <= b -> a + n <= zlen l -> b + n <= zlen l -> apart a b n ->
  swapped l a b n l' -> Permutation l' l.
Proof.
  intros Ha Hb Han Hbn Hap [Hl E]. symmetry. apply Permutation_nth_error.
  split; [unfold zlen in Hl; lia|].
  exists (fun k => if bool_decide (k < length l)%nat then Z.to_nat (swap_ix a b n (Z.of_nat k)) else k).
  assert (R : forall k, (k < length l)%nat -> 0 <= swap_ix a b n (Z.of_nat k) < zlen l).
  { intros k Hk. apply swap_ix_range; try done. unfold zlen. lia. }
  split.
  - intros x y. repeat case_bool_decide; [|pose proof (R x H)|pose proof (R y H0)|done];
      unfold zlen in *; [|lia..].
    pose proof (R x H). pose proof (R y H0). intros Hxy.
    rewrite <- (Nat2Z.id x), <- (Nat2Z.id y). f_equal.
    rewrite <- (swap_ix_invol a b n (Z.of_nat x)), <- (swap_ix_invol a b n (Z.of_nat y)) by done.
    f_equal. lia.
  - intros k. rewrite !nth_error_lookup. case_bool_decide as Hk.
    + pose proof (R k Hk). specialize (E (Z.of_nat k)). rewrite !znth_lookup, Nat2Z.id in E by lia. done.
    + unfold zlen in *. rewrite !lookup_ge_None_2 by lia. done.
Qed.

(** ** Changes confined to a segment *)

(** [l'] permutes the elements of [l] at the positions [s .. s + n). *)
Record confined (s n : Z) (l l' : list (list Z)) : Prop := {
  conf_perm : Permutation l' l;
  conf_out x : ~ s <= x < s + n -> elt l' x = elt l x;
  conf_in x : s <= x < s + n -> exists y, s <= y < s + n /\ elt l' x = elt l y
}.

Lemma confined_refl s n l : confined s n l l.
Proof. split; [done|done|]. intros x Hx. by exists x. Qed.

Lemma confined_trans s n l1 l2 l3 : confined s n l1 l2 -> confined s n l2 l3 -> confined s n l1 l3.
Proof.
  intros [P1 O1 I1] [P2 O2 I2]. split.
  - by rewrite P2.
  - intros x Hx. by rewrite O2, O1.
  - intros x Hx. destruct (I2 x Hx) as (y & Hy & ->). destruct (I1 y Hy) as (z & Hz & ->). by exists z.
Qed.

Lemma confined_weaken s n s' n' l l' :
  confined s n l l' -> s' <= s -> s + n <= s' + n' -> confined s' n' l l'.
Proof.
  intros [P O I] H1 H2. split; [done|..].
  - intros x Hx. apply O. lia.
  - intros x Hx. destruct (decide (s <= x < s + n)) as [Hs|Hs].
    + destruct (I x Hs) as (y & Hy & ->). exists y. split; [lia|done].
    + exists x. split; [done|]. by apply O.
Qed.

Lemma confined_len s n l l' : confined s n l l' -> zlen l' = zlen l.
Proof. intros [P _ _]. unfold zlen. by rewrite (Permutation_length P). Qed.

Lemma swapped_confined l a b k l' s n :
  swapped l a b k l' -> 0 <= s -> s + n <= zlen l -> 0 <= k ->
  s <= a -> s <= b -> a + k <= s + n -> b + k <= s + n -> apart a b k -> confined s n l l'.
Proof.
  intros Hs H0 Hn Hk Ha Hb Hak Hbk Hap. split.
  - eapply (swapped_perm _ a b k); try done; lia.
  - intros x Hx. rewrite (elt_swapped _ _ _ _ _ _ Hs). f_equal.
    pose proof (swap_ix_cases a b k x). lia.
  - intros x Hx. exists (swap_ix a b k x). split; [|by apply elt_swapped].
    pose proof (swap_ix_cases a b k x). lia.
Qed.

(** A property of the elements of a segment survives a change confined to it. *)
Lemma confined_all s n l l' (P : list Z -> Prop) :
  confined s n l l' -> (forall x, s <= x < s + n -> P (elt l x)) -> forall x, s <= x < s + n -> P (elt l' x).
Proof. intros [_ _ I] H x Hx. destruct (I x Hx) as (y & Hy & ->). by apply H. Qed.

(** ** The exchange of two elements *)

Definition exch (l : list (list Z)) (i j : Z) : list (list Z) := swap_ranges l i j 1.

Lemma exch_swapped l i j : 0 <= i < zlen l -> 0 <= j < zlen l -> swapped l i j 1 (exch l i j).
Proof. intros. apply swap_ranges_swapped; lia. Qed.

Lemma exch_confined l i j s n :
  0 <= s -> s + n <= zlen l -> s <= i < s + n -> s <= j < s + n -> confined s n l (exch l i j).
Proof.
  intros. eapply (swapped_confined l i j 1); [apply exch_swapped; lia|lia..|unfold apart; lia].
Qed.

Lemma exch_len l i j : 0 <= i < zlen l -> 0 <= j < zlen l -> zlen (exch l i j) = zlen l.
Proof. intros. by apply (swapped_len _ _ _ _ _ (exch_swapped l i j ltac:(lia) ltac:(lia))). Qed.

Lemma elt_exch l i j x :
  0 <= i < zlen l -> 0 <= j < zlen l ->
  elt (exch l i j) x = if x =? i then elt l j else if x =? j then elt l i else elt l x.
Proof.
  intros Hi Hj. rewrite (elt_swapped _ _ _ _ _ x (exch_swapped l i j Hi Hj)).
  destruct (Z.eqb_spec x i) as [->|]; [|destruct (Z.eqb_spec x j) as [->|]];
    f_equal; pose proof (swap_ix_cases i j 1); [specialize (H i)|specialize (H j)|specialize (H x)]; lia.
Qed.

Ltac elt_cases :=
  repeat match goal with
  | |- context [?a =? ?b] => destruct (Z.eqb_spec a b); try lia; subst
  end.

(** ** The bytes of the array *)

Section rep.
Context (addr size : Z) (cmp : list Z -> list Z -> Z) (tl : list Z).
Hypothesis size_pos : 0 < size.

(** The object [m] holds the elements [l] followed by the bytes [tl]. *)
Record arr (m : list Z) (l : list (list Z)) : Prop := {
  arr_len : zlen m = zlen l * size + zlen tl;
  arr_at i x : 0 <= i < zlen l -> 0 <= x < size -> znth m (i * size + x) = znth (elt l i) x;
  arr_tl x : 0 <= x -> znth m (zlen l * size + x) = znth tl x;
  arr_size i : 0 <= i < zlen l -> zlen (elt l i) = size
}.

Lemma arr_slice m l i : arr m l -> 0 <= i < zlen l -> zslice m (i * size) size = Some (elt l i).
Proof.
  intros A Hi. pose proof (arr_len _ _ A). pose proof (zlen_nonneg tl).
  destruct (zslice m (i * size) size) as [d|] eqn:E; [|rewrite zslice_is_Some in E by nia; done].
  f_equal. apply znth_ext; rewrite (zslice_len _ _ _ _ E); [by rewrite (arr_size _ _ A)|].
  intros x Hx. rewrite (znth_zslice _ _ _ _ x E) by done. by apply (arr_at _ _ A).
Qed.

Lemma cmp_at_ok m l i j :
  arr m l -> 0 <= i < zlen l -> 0 <= j < zlen l ->
  cmp_at size cmp m (i * size) (j * size) = Some (cmp (elt l i) (elt l j)).
Proof. intros A Hi Hj. unfold cmp_at. by rewrite !(arr_slice _ _ _ A) by done. Qed.

Lemma swap_ix_scale i j k q x :
  0 <= x < size ->
  swap_ix (i * size) (j * size) (k * size) (q * size + x) = swap_ix i j k q * size + x.
Proof.
  intros Hx. pose proof (swap_ix_cases i j k q).
  pose proof (swap_ix_cases (i * size) (j * size) (k * size) (q * size + x)). nia.
Qed.

Lemma arr_swapped m l m' i j k :
  arr m l -> 0 <= i -> 0 <= j -> 0 <= k -> i + k <= zlen l -> j + k <= zlen l ->
  swapped m (i * size) (j * size) (k * size) m' -> arr m' (swap_ranges l i j k).
Proof.
  intros A Hi Hj Hk Hik Hjk [Hl E].
  destruct (swap_ranges_swapped l i j k) as [Hl' E']; [done..|].
  assert (R : forall x, 0 <= x < zlen l -> elt (swap_ranges l i j k) x = elt l (swap_ix i j k x))
    by (intros x Hx; unfold elt; by rewrite E').
  split; rewrite ?Hl'.
  - rewrite Hl. apply (arr_len _ _ A).
  - intros q x Hq Hx. rewrite E, swap_ix_scale, R by done.
    apply (arr_at _ _ A); [by apply swap_ix_range|done].
  - intros x Hx. rewrite E. rewrite <- (arr_tl _ _ A) by done. f_equal.
    pose proof (swap_ix_cases (i * size) (j * size) (k * size) (zlen l * size + x)). nia.
  - intros q Hq. rewrite R by done. apply (arr_size _ _ A). by apply swap_ix_range.
Qed.

(** *** The functions that exchange elements *)

Definition swap_ok (sw : exchange_f) : Prop := forall m l i j,
  arr m l -> 0 <= i < zlen l -> 0 <= j < zlen l ->
  exists m', sw m (i * size) (j * size) size = Some m' /\ arr m' (exch l i j).

Definition swap_block_ok (sw : exchange_f) : Prop := forall m l i j k,
  arr m l -> 0 <= i -> 0 <= j -> 0 <= k -> i + k <= zlen l -> j + k <= zlen l -> apart i j k ->
  exists m', sw m (i * size) (j * size) (k * size) = Some m' /\ arr m' (swap_ranges l i j k).

Lemma in_object_elts m l i j k :
  arr m l -> 0 <= i -> 0 <= j -> 0 <= k -> i + k <= zlen l -> j + k <= zlen l ->
  in_object m (i * size) (j * size) (k * size).
Proof.
  intros A ? ? ? ? ?. pose proof (arr_len _ _ A). pose proof (zlen_nonneg tl). unfold in_object. nia.
Qed.

Lemma apart_scale i j k : apart i j k -> apart (i * size) (j * size) (k * size).
Proof. unfold apart. intros [->|[?|?]]; [by left|right; left; nia|right; right; nia]. Qed.

Lemma aligned_like_elt b i : aligned_like (addr + b * size) size (addr + i * size).
Proof.
  intros k Hk H1 H2. apply Z.mod_divide in H1 as [u Hu], H2 as [v Hv]; [|lia..].
  apply Z.mod_divide; [lia|]. exists (u + (i - b) * v). lia.
Qed.

Lemma exchange_func_swap b : swap_ok (exchange_func addr (addr + b * size) size).
Proof.
  intros m l i j A Hi Hj.
  destruct (exchange_func_ok addr (addr + b * size) size m (i * size) (j * size) (1 * size))
    as (m' & E & S).
  - apply aligned_like_elt.
  - apply aligned_like_elt.
  - intros k Hk _ H. by rewrite Z.mul_1_l.
  - lia.
  - eapply in_object_elts; [done|lia..].
  - apply apart_scale. unfold apart. lia.
  - rewrite Z.mul_1_l in E. exists m'. split; [done|]. eapply arr_swapped; [done|lia..|done].
Qed.

Lemma lor_128_large : one_word (Z.lor size 128) = false.
Proof.
  unfold one_word. case_bool_decide as H; [|done]. exfalso.
  assert (Hb : Z.testbit (Z.lor size 128) 7 = true) by (rewrite Z.lor_spec; apply orb_true_r).
  repeat (apply elem_of_cons in H as [H|H]; [rewrite H in Hb; discriminate Hb|]).
  by apply elem_of_nil in H.
Qed.

Lemma aligned_like_128 x : aligned_like addr size x -> aligned_like addr (Z.lor size 128) x.
Proof.
  intros H k Hk H1 H2. apply H; [done..|].
  destruct (lor_divides size 128 k) as [H3 _]; [lia| |done]. by rewrite Z.land_ones by lia.
Qed.

Lemma exchange_func_swap_block : swap_block_ok (exchange_func addr addr (Z.lor size 128)).
Proof.
  intros m l i j k A Hi Hj Hk Hik Hjk Hap.
  assert (Ha : forall q, aligned_like addr (Z.lor size 128) (addr + q * size)).
  { intros q. apply aligned_like_128. pose proof (aligned_like_elt 0 q) as H.
    by rewrite Z.mul_0_l, Z.add_0_r in H. }
  destruct (exchange_func_ok addr addr (Z.lor size 128) m (i * size) (j * size) (k * size))
    as (m' & E & S).
  - apply Ha.
  - apply Ha.
  - apply aligned_like_128. intros p Hp _ H. apply Z.mod_divide in H as [v Hv]; [|lia].
    apply Z.mod_divide; [lia|]. exists (k * v). lia.
  - by rewrite lor_128_large.
  - by eapply in_object_elts.
  - by apply apart_scale.
  - exists m'. split; [done|]. by eapply arr_swapped.
Qed.
End rep.

(** For an array at any address and elements of any size, the function that
    exchange_func selects only makes aligned accesses, and exchanges exactly the bytes
    of the two elements. *)
Theorem exchange_func_swaps addr size m i j :
  0 < size -> 0 <= i -> 0 <= j -> (i + 1) * size <= zlen m -> (j + 1) * size <= zlen m ->
  exists m', exchange_func addr addr size m (i * size) (j * size) size = Some m' /\
    swapped m (i * size) (j * size) size m'.
Proof.
  intros Hs Hi Hj Hli Hlj. pose proof (aligned_like_elt addr size 0) as Ha.
  rewrite Z.mul_0_l, Z.add_0_r in Ha.
  apply exchange_func_ok; [apply Ha|apply Ha|by intros k _ _ H|done|unfold in_object; lia|].
  unfold apart. destruct (Z.lt_trichotomy i j) as [|[->|]]; nia.
Qed.

Lemma exchange_func_swaps_witness :
  exists m', exchange_func 1002 1002 6 (map Z.of_nat (seq 0 30)) (4 * 6) (1 * 6) 6 = Some m' /\
    swapped (map Z.of_nat (seq 0 30)) (4 * 6) (1 * 6) 6 m'.
Proof.
  apply (exchange_func_swaps 1002 6 (map Z.of_nat (seq 0 30)) 4 1); vm_compute; congruence.
Defined.

(** ** The order of the comparison function *)

(** What [rqsort] asks from [cmp] to sort: a total preorder given by its sign. *)
Class CmpOrder (cmp : list Z -> list Z -> Z) : Prop := {
  cmp_opp x y : cmp x y < 0 <-> 0 < cmp y x;
  cmp_trans x y z : cmp x y <= 0 -> cmp y z <= 0 -> cmp x z <= 0
}.

Section order.
Context (cmp : list Z -> list Z -> Z) `{!CmpOrder cmp}.

Lemma cmp_flip x y : 0 <= cmp x y -> cmp y x <= 0.
Proof. pose proof (cmp_opp y x). pose proof (cmp_opp x y). lia. Qed.

Lemma cmp_refl x : cmp x x <= 0.
Proof. destruct (Z.le_gt_cases (cmp x x) 0); [done|]. pose proof (cmp_opp x x). lia. Qed.
End order.

(** The elements at the positions [s .. s + n) are in order. *)
Definition sorted_from (cmp : list Z -> list Z -> Z) (s n : Z) (l : list (list Z)) : Prop :=
  forall i j, s <= i < j -> j < s + n -> cmp (elt l i) (elt l j) <= 0.
