(* ===== verification/RqsortPart.v ===== *)
(** * Correctness of heapsortx and of the partition of rqsort

    The segment of [n] elements from the position [b] is a heap from [lo] on when no
    element is greater than its parent; [sift_down] restores the heap when only one element
    may be smaller than its children.

    The pivot of the partition is the first element of the segment.  The loops split the rest
    into four parts: elements equal to the pivot, smaller ones, those not looked at yet,
    greater ones, and again equal ones; the block exchanges then bring the equal ones to the
    middle.  The parts are given by the sign of [cmp] against the pivot, so nothing here
    depends on the laws of an order. *)

From S2P Require Import Prelude Exchange Rqsort RqsortSpec.

Section heap.
Context (addr size : Z) (cmp : list Z -> list Z -> Z) (tl : list Z).
Hypothesis size_pos : 0 < size.

#[local] Abbreviation arr := (arr size tl).
#[local] Abbreviation swap_ok := (swap_ok size tl).

Definition child (q c : Z) : Prop := c = 2 * q + 1 \/ c = 2 * q + 2.

Definition le_at (l : list (list Z)) (i j : Z) : Prop := cmp (elt l i) (elt l j) <= 0.

Definition heap (b lo n : Z) (l : list (list Z)) : Prop :=
  forall q c, lo <= q -> child q c -> c < n -> le_at l (b + c) (b + q).

(** The element [r] may be smaller than its children, which are below its parent. *)
Definition heap_but (b lo n r : Z) (l : list (list Z)) : Prop :=
  (forall q c, lo <= q -> q <> r -> child q c -> c < n -> le_at l (b + c) (b + q)) /\
  (forall p c, lo <= p -> child p r -> child r c -> c < n -> le_at l (b + c) (b + p)).

(** The greater child goes up. *)
Lemma heap_but_down b lo n r c l :
  0 <= b -> 0 <= lo <= r -> b + n <= zlen l -> child r c -> c < n ->
  (forall d, child r d -> d < n -> le_at l (b + d) (b + c)) ->
  le_at l (b + r) (b + c) ->
  heap_but b lo n r l -> heap_but b lo n c (exch l (b + r) (b + c)).
Proof.
  unfold heap_but, child, le_at. intros Hb Hlo Hn Hc Hcn Hmax Hrc [H1 H2].
  split; intros q d; intros; rewrite !elt_exch by lia; elt_cases;
    first [exact Hrc | apply Hmax; lia | apply H1; lia | apply H2; lia].
Qed.

Lemma heap_but_done b lo n r l :
  (forall c, child r c -> c < n -> le_at l (b + c) (b + r)) -> heap_but b lo n r l -> heap b lo n l.
Proof.
  intros Hr [H1 _] q c Hq Hc Hn. destruct (decide (q = r)) as [->|]; [by apply Hr|by apply H1].
Qed.

Lemma heap_start b lo n l : 0 <= lo -> heap b (lo + 1) n l -> heap_but b lo n lo l.
Proof.
  intros Hlo H. split.
  - intros q c Hq Hne. apply H. lia.
  - intros p c Hp Hc. unfold child in Hc. lia.
Qed.

Lemma heap_root b n l k : CmpOrder cmp -> heap b 0 n l -> 0 <= k < n -> le_at l (b + k) b.
Proof.
  intros HO H. induction k as [k IH] using (well_founded_induction (Z.lt_wf 0)). intros Hk.
  destruct (decide (k = 0)) as [->|]; [unfold le_at; rewrite Z.add_0_r; by apply cmp_refl|].
  eapply cmp_trans; [apply (H ((k - 1) / 2) k); unfold child; [divlia|divlia|lia]|].
  apply IH; divlia.
Qed.

(** The greater child of [r], as [sift_down] chooses it. *)
Definition max_child (l : list (list Z)) (b r n : Z) : Z :=
  if (2 * r + 1 <? n - 1) && (cmp (elt l (b + (2 * r + 1))) (elt l (b + (2 * r + 2))) <=? 0)
  then 2 * r + 2 else 2 * r + 1.

Lemma max_child_max l b r n d :
  CmpOrder cmp -> 2 * r + 1 < n -> child r d -> d < n -> le_at l (b + d) (b + max_child l b r n).
Proof.
  intros HO Hr Hd Hn. unfold max_child, le_at, child in *.
  destruct (Z.ltb_spec (2 * r + 1) (n - 1)); cbn [andb].
  - destruct (Z.leb_spec (cmp (elt l (b + (2 * r + 1))) (elt l (b + (2 * r + 2)))) 0);
      destruct Hd as [->| ->]; first [done | by apply cmp_refl | apply cmp_flip; [done|lia]].
  - replace d with (2 * r + 1) by lia. by apply cmp_refl.
Qed.

Lemma sift_down_ok fuel sw m l b r n lo :
  swap_ok sw -> arr m l -> zlen l * size < 2 ^ 63 ->
  0 <= b -> 0 <= lo <= r -> r < n -> b + n <= zlen l -> n - r < Z.of_nat fuel ->
  exists m' l', sift_down size cmp fuel sw m (b * size) (r * size) (n * size) = Some m' /\
    arr m' l' /\ confined b n l l' /\
    (CmpOrder cmp -> heap_but b lo n r l -> heap b lo n l').
Proof.
  intros Hsw. revert m l r. induction fuel as [|fuel IH]; intros m l r A Hsz Hb Hlo Hr Hn Hf; [lia|].
  cbn [sift_down]. rewrite u64_small by nia.
  replace (r * size * 2 + size) with ((2 * r + 1) * size) by ring.
  destruct (Z.ltb_spec ((2 * r + 1) * size) (n * size)) as [Hc|Hc]; cycle 1.
  { exists m, l. split; [done|]. split; [done|]. split; [apply confined_refl|].
    intros _ H. eapply heap_but_done; [|done]. unfold child. intros c [->| ->] ?; nia. }
  assert (Hc' : 2 * r + 1 < n) by nia.
  assert (E : (if (2 * r + 1) * size <? n * size - size
    then d ← cmp_at size cmp m (b * size + (2 * r + 1) * size) (b * size + (2 * r + 1) * size + size);
         Some (if d <=? 0 then (2 * r + 1) * size + size else (2 * r + 1) * size)
    else Some ((2 * r + 1) * size)) = Some (max_child l b r n * size)).
  { unfold max_child. replace (n * size - size) with ((n - 1) * size) by ring.
    destruct (Z.ltb_spec ((2 * r + 1) * size) ((n - 1) * size)), (Z.ltb_spec (2 * r + 1) (n - 1)); try nia;
      cbn [andb]; [|done].
    replace (b * size + (2 * r + 1) * size + size) with ((b + (2 * r + 2)) * size) by ring.
    rewrite <- Z.mul_add_distr_r. rewrite (cmp_at_ok _ _ _ size_pos _ _ _ _ A) by lia. cbn [mbind option_bind].
    destruct (_ <=? 0); f_equal. ring. }
  rewrite E. cbn [mbind option_bind]. clear E.
  pose proof (max_child_max l b r n) as Hmax.
  assert (Hch : child r (max_child l b r n) /\ max_child l b r n < n).
  { unfold max_child, child. destruct (Z.ltb_spec (2 * r + 1) (n - 1)), (_ <=? 0); cbn [andb]; lia. }
  set (c := max_child l b r n) in *. clearbody c. unfold child in Hch.
  rewrite <- !Z.mul_add_distr_r, (cmp_at_ok _ _ _ size_pos _ _ _ _ A) by lia. cbn [mbind option_bind].
  destruct (Z.gtb_spec (cmp (elt l (b + r)) (elt l (b + c))) 0) as [Hgt|Hle].
  { exists m, l. split; [done|]. split; [done|]. split; [apply confined_refl|].
    intros HO H. eapply heap_but_done; [|done]. intros d Hd Hdn.
    eapply cmp_trans; [by apply Hmax|]. apply cmp_flip; [done|lia]. }
  destruct (Hsw m l (b + r) (b + c) A) as (m1 & -> & A1); [lia..|]. cbn [mbind option_bind].
  assert (L1 : zlen (exch l (b + r) (b + c)) = zlen l) by (apply exch_len; lia).
  destruct (IH m1 _ c A1) as (m' & l' & E & A' & C' & H'); [rewrite ?L1; lia..|].
  exists m', l'. split; [done|]. split; [done|]. split.
  - eapply confined_trans; [|done]. apply exch_confined; lia.
  - intros HO H. apply H'; [done|]. apply heap_but_down; try done; [|lia|]; unfold child; [lia|].
    intros d Hd Hdn. by apply Hmax.
Qed.

Lemma heapify_ok fuel sw m l b i n :
  swap_ok sw -> arr m l -> zlen l * size < 2 ^ 63 ->
  0 <= b -> 0 <= i <= n -> b + n <= zlen l -> i < Z.of_nat fuel ->
  exists m' l', heapify size cmp fuel sw m (b * size) (i * size) (n * size) = Some m' /\
    arr m' l' /\ confined b n l l' /\ (CmpOrder cmp -> heap b i n l -> heap b 0 n l').
Proof.
  intros Hsw. revert m l i. induction fuel as [|fuel IH]; intros m l i A Hsz Hb Hi Hn Hf; [lia|].
  cbn [heapify]. destruct (Z.gtb_spec (i * size) 0) as [Hp|Hz]; cycle 1.
  { exists m, l. split; [done|]. split; [done|]. split; [apply confined_refl|].
    assert (i = 0) as -> by nia. done. }
  assert (0 < i) by nia. replace (i * size - size) with ((i - 1) * size) by ring.
  destruct (sift_down_ok (S (Z.to_nat (n * size))) sw m l b (i - 1) n (i - 1))
    as (m1 & l1 & -> & A1 & C1 & H1); [done|done|lia..|nia|]. cbn [mbind option_bind].
  pose proof (confined_len _ _ _ _ C1) as L1.
  destruct (IH m1 l1 (i - 1) A1) as (m' & l' & E & A' & C' & H'); [rewrite ?L1; lia..|].
  exists m', l'. split; [done|]. split; [done|]. split; [by eapply confined_trans|].
  intros HO H2. apply H'; [done|]. apply H1; [done|]. apply heap_start; [lia|].
  by replace (i - 1 + 1) with i by lia.
Qed.

(** The elements from [i + 1] on are in their final place. *)
Definition extracting (b n i : Z) (l : list (list Z)) : Prop :=
  heap b 0 (i + 1) l /\ (forall x y, 0 <= x < y -> i < y < n -> le_at l (b + x) (b + y)).

Lemma extracting_step b n i l l1 l2 :
  CmpOrder cmp -> 0 <= b -> 0 < i < n -> b + n <= zlen l ->
  l1 = exch l b (b + i) -> confined b i l1 l2 ->
  (heap_but b 0 i 0 l1 -> heap b 0 i l2) -> extracting b n i l -> extracting b n (i - 1) l2.
Proof.
  intros HO Hb Hi Hn -> C2 H2 [Hh Hp].
  assert (C1 : confined b (i + 1) l (exch l b (b + i))) by (apply exch_confined; lia).
  assert (C : confined b (i + 1) l l2).
  { eapply confined_trans; [done|]. eapply confined_weaken; [done|lia..]. }
  split; [replace (i - 1 + 1) with i by lia; apply H2|].
  - apply heap_start; [lia|]. intros q c Hq Hc Hcn. unfold child in Hc.
    unfold le_at. rewrite !elt_exch by lia. elt_cases. apply Hh; unfold child; lia.
  - intros x y Hx Hy. unfold le_at. destruct (decide (y = i)) as [->|].
    + rewrite (conf_out _ _ _ _ C2 (b + i)) by lia. rewrite elt_exch by lia. elt_cases.
      apply (confined_all _ _ _ _ (fun e => cmp e (elt l b) <= 0) C); [|lia].
      intros z Hz. replace z with (b + (z - b)) by lia. apply (heap_root b (i + 1)); done || lia.
    + rewrite (conf_out _ _ _ _ C (b + y)) by lia.
      destruct (decide (x < i + 1)); [|rewrite (conf_out _ _ _ _ C (b + x)) by lia; apply Hp; lia].
      apply (confined_all _ _ _ _ (fun e => cmp e (elt l (b + y)) <= 0) C); [|lia].
      intros z Hz. replace z with (b + (z - b)) by lia. apply Hp; lia.
Qed.

Lemma heap_extract_ok fuel sw m l b i n :
  swap_ok sw -> arr m l -> zlen l * size < 2 ^ 63 ->
  0 <= b -> 0 <= i < n -> b + n <= zlen l -> i < Z.of_nat fuel ->
  exists m' l', heap_extract size cmp fuel sw m (b * size) (i * size) = Some m' /\
    arr m' l' /\ confined b n l l' /\ (CmpOrder cmp -> extracting b n i l -> extracting b n 0 l').
Proof.
  intros Hsw. revert m l i. induction fuel as [|fuel IH]; intros m l i A Hsz Hb Hi Hn Hf; [lia|].
  cbn [heap_extract]. destruct (Z.gtb_spec (i * size) 0) as [Hp|Hz]; cycle 1.
  { exists m, l. split; [done|]. split; [done|]. split; [apply confined_refl|].
    assert (i = 0) as -> by nia. done. }
  assert (0 < i) by nia. replace (i * size - size) with ((i - 1) * size) by ring.
  rewrite <- Z.mul_add_distr_r.
  destruct (Hsw m l b (b + i) A) as (m1 & -> & A1); [lia..|]. cbn [mbind option_bind].
  assert (L1 : zlen (exch l b (b + i)) = zlen l) by (apply exch_len; lia).
  destruct (sift_down_ok (S (Z.to_nat (i * size))) sw m1 _ b 0 i 0 Hsw A1)
    as (m2 & l2 & E2 & A2 & C2 & H2); [rewrite ?L1; lia..|nia|].
  rewrite Z.mul_0_l in E2. rewrite E2. cbn [mbind option_bind].
  pose proof (confined_len _ _ _ _ C2) as L2. rewrite L1 in L2.
  destruct (IH m2 l2 (i - 1) A2) as (m' & l' & E & A' & C' & H'); [rewrite ?L2; lia..|].
  exists m', l'. split; [done|]. split; [done|]. split.
  - eapply confined_trans; [|done].
    apply (confined_trans _ _ _ (exch l b (b + i))); [apply exch_confined; lia|].
    eapply confined_weaken; [done|lia..].
  - intros HO Hx. apply H'; [done|]. 
    apply (extracting_step b n i l (exch l b (b + i)) l2 HO); [lia..|reflexivity|exact C2|by apply H2|exact Hx].
Qed.

Lemma heapsortx_ok m l b n :
  arr m l -> zlen l * size < 2 ^ 63 -> 0 <= b -> 0 <= n -> b + n <= zlen l ->
  exists m' l', heapsortx addr size cmp m (b * size) n = Some m' /\
    arr m' l' /\ confined b n l l' /\ (CmpOrder cmp -> sorted_from cmp b n l').
Proof.
  intros A Hsz Hb Hn Hbn. unfold heapsortx.
  pose proof (exchange_func_swap addr size tl size_pos b) as Hsw.
  destruct (Z.gtb_spec n 1); cycle 1.
  { exists m, l. split; [done|]. split; [done|]. split; [apply confined_refl|].
    intros _ i j Hi Hj. lia. }
  rewrite !u64_small by (Z.div_mod_to_equations; nia).
  destruct (heapify_ok (S (Z.to_nat n)) _ m l b (n / 2) n Hsw A)
    as (m1 & l1 & -> & A1 & C1 & H1); [lia|lia|divlia|lia|divlia|]. cbn [mbind option_bind].
  pose proof (confined_len _ _ _ _ C1) as L1.
  replace (n * size - size) with ((n - 1) * size) by ring.
  destruct (heap_extract_ok (S (Z.to_nat n)) _ m1 l1 b (n - 1) n Hsw A1)
    as (m2 & l2 & E & A2 & C2 & H2); [rewrite ?L1; lia..|].
  exists m2, l2. split; [done|]. split; [done|]. split; [by eapply confined_trans|].
  intros HO i j Hi Hj. destruct H2 as [_ H2]; [done| |].
  - split; [|lia]. replace (n - 1 + 1) with n by lia. apply H1; [done|].
    intros q c Hq Hc Hcn. unfold child in Hc. divlia.
  - specialize (H2 (i - b) (j - b)). unfold le_at in H2.
    replace (b + (i - b)) with i in H2 by lia. replace (b + (j - b)) with j in H2 by lia. apply H2; lia.
Qed.
End heap.

Section part.
Context (addr size : Z) (cmp : list Z -> list Z -> Z) (tl : list Z).
Hypothesis size_pos : 0 < size.

#[local] Abbreviation arr := (arr size tl).
#[local] Abbreviation swap_ok := (swap_ok size tl).
#[local] Abbreviation swap_block_ok := (swap_block_ok size tl).

(** Elements taken for identical to the pivot [p]; it is not compared with itself. *)
Definition same (p e : list Z) : Prop := e = p \/ cmp p e = 0.

(** The parts of the segment [s .. s + n) while [i] and [j] are the scan positions. *)
Record parted (p : list Z) (s n : Z) (l : list (list Z)) (i lt gt j : Z) : Prop := {
  part_bounds : 1 <= lt <= i /\ i <= j <= gt /\ gt <= n;
  part_pivot : elt l s = p;
  part_lt x : 0 <= x < lt -> same p (elt l (s + x));
  part_small x : lt <= x < i -> 0 < cmp p (elt l (s + x));
  part_great x : j <= x < gt -> cmp p (elt l (s + x)) < 0;
  part_gt x : gt <= x < n -> same p (elt l (s + x))
}.

(** The local variables of the partition for these positions. *)
Definition state_of (m : list Z) (s i lt gt j : Z) : Part :=
  mkPart m i lt gt ((s + i) * size) ((s + lt) * size) ((s + j) * size) ((s + gt) * size).

Ltac part_cases H :=
  repeat (rewrite !elt_exch by lia); elt_cases;
  first [by apply (part_pivot _ _ _ _ _ _ _ _ H)
        | apply (part_lt _ _ _ _ _ _ _ _ H); lia
        | apply (part_small _ _ _ _ _ _ _ _ H); lia
        | apply (part_great _ _ _ _ _ _ _ _ H); lia
        | apply (part_gt _ _ _ _ _ _ _ _ H); lia
        | idtac].

(** One step of the scan from the left. *)
Lemma parted_small p s n l i lt gt j :
  parted p s n l i lt gt j -> i < j -> 0 < cmp p (elt l (s + i)) -> parted p s n l (i + 1) lt gt j.
Proof.
  intros H Hi Hc. pose proof (part_bounds _ _ _ _ _ _ _ _ H). split; [lia|intros; part_cases H..].
  destruct (decide (x = i)) as [->|]; [done|part_cases H].
Qed.

Lemma parted_same_left p s n l i lt gt j :
  0 <= s -> s + n <= zlen l -> parted p s n l i lt gt j -> i < j -> cmp p (elt l (s + i)) = 0 ->
  parted p s n (exch l (s + lt) (s + i)) (i + 1) (lt + 1) gt j.
Proof.
  intros Hs Hn H Hi Hc. pose proof (part_bounds _ _ _ _ _ _ _ _ H).
  split; [lia|intros; part_cases H..]. by right.
Qed.

(** One step of the scan from the right; [j - 1] is the position looked at. *)
Lemma parted_great p s n l i lt gt j :
  parted p s n l i lt gt j -> i < j - 1 -> cmp p (elt l (s + (j - 1))) < 0 ->
  parted p s n l i lt gt (j - 1).
Proof.
  intros H Hi Hc. pose proof (part_bounds _ _ _ _ _ _ _ _ H). split; [lia|intros; part_cases H..].
  destruct (decide (x = j - 1)) as [->|]; [done|part_cases H].
Qed.

Lemma parted_same_right p s n l i lt gt j :
  0 <= s -> s + n <= zlen l -> parted p s n l i lt gt j -> i < j - 1 ->
  cmp p (elt l (s + (j - 1))) = 0 ->
  parted p s n (exch l (s + (gt - 1)) (s + (j - 1))) i lt (gt - 1) (j - 1).
Proof.
  intros Hs Hn H Hi Hc. pose proof (part_bounds _ _ _ _ _ _ _ _ H).
  split; [lia|intros; part_cases H..]. by right.
Qed.

(** The exchange at the end of an iteration. *)
Lemma parted_swap p s n l i lt gt j :
  0 <= s -> s + n <= zlen l -> parted p s n l i lt gt (j + 1) -> i < j ->
  cmp p (elt l (s + i)) < 0 -> 0 < cmp p (elt l (s + j)) ->
  parted p s n (exch l (s + i) (s + j)) (i + 1) lt gt j.
Proof.
  intros Hs Hn H Hi Hci Hcj. pose proof (part_bounds _ _ _ _ _ _ _ _ H).
  split; [lia|intros; part_cases H..]; done.
Qed.

Lemma scan_left_ok fuel sw m l p s n i lt gt j :
  swap_ok sw -> arr m l -> 0 <= s -> s + n <= zlen l -> parted p s n l i lt gt j ->
  j - i < Z.of_nat fuel ->
  exists m' l' i' lt', scan_left size cmp fuel sw (s * size) (state_of m s i lt gt j)
      = Some (state_of m' s i' lt' gt j) /\
    arr m' l' /\ confined s n l l' /\ parted p s n l' i' lt' gt j /\ i <= i' /\
    (i' = j \/ i' < j /\ cmp p (elt l' (s + i')) < 0).
Proof.
  intros Hsw. revert m l i lt. induction fuel as [|fuel IH]; intros m l i lt A Hs Hn H Hf;
    pose proof (part_bounds _ _ _ _ _ _ _ _ H); [lia|]. cbn [scan_left state_of pi pj mem].
  destruct (Z.ltb_spec ((s + i) * size) ((s + j) * size)) as [Hij|Hij]; cycle 1.
  { exists m, l, i, lt. repeat (split; [done || lia || apply confined_refl|]). left. nia. }
  assert (Hlt : i < j) by nia.
  rewrite (cmp_at_ok _ _ _ size_pos _ _ _ _ A), (part_pivot _ _ _ _ _ _ _ _ H) by lia.
  cbn [mbind option_bind].
  destruct (Z.geb_spec (cmp p (elt l (s + i))) 0) as [Hc|Hc]; cycle 1.
  { exists m, l, i, lt. repeat (split; [done || lia || apply confined_refl|]). right. lia. }
  destruct (Z.eqb_spec (cmp p (elt l (s + i))) 0) as [He|He].
  - cbn [plt state_of i_ lt_ gt_ pgt pi pj].
    destruct (Hsw m l (s + lt) (s + i) A) as (m1 & -> & A1); [lia..|]. cbn [mbind option_bind].
    assert (L1 : zlen (exch l (s + lt) (s + i)) = zlen l) by (apply exch_len; lia).
    destruct (IH m1 _ (i + 1) (lt + 1) A1) as (m' & l' & i' & lt' & E & A' & C' & P' & Hi' & X');
      [lia|by rewrite L1|by apply parted_same_left|lia|].
    exists m', l', i', lt'. split; [|split; [done|split; [|split; [done|split; [lia|done]]]]].
    + rewrite <- E. unfold state_of. cbn. f_equal. f_equal; ring.
    + eapply confined_trans; [|exact C']. apply exch_confined; lia.
  - destruct (IH m l (i + 1) lt A) as (m' & l' & i' & lt' & E & A' & C' & P' & Hi' & X');
      [done..|apply parted_small; done || lia|lia|].
    exists m', l', i', lt'. split; [|split; [done|split; [done|split; [done|split; [lia|done]]]]].
    rewrite <- E. unfold state_of. cbn. f_equal. f_equal; ring.
Qed.

Lemma scan_right_ok fuel sw m l p s n i lt gt j :
  swap_ok sw -> arr m l -> 0 <= s -> s + n <= zlen l -> parted p s n l i lt gt j ->
  j - i < Z.of_nat fuel ->
  exists m' l' gt' j', scan_right size cmp fuel sw (s * size) (state_of m s i lt gt j)
      = Some (state_of m' s i lt gt' j') /\
    arr m' l' /\ confined s n l l' /\ parted p s n l' i lt gt' (j' + 1) /\ j' < j /\
    elt l' (s + i) = elt l (s + i) /\
    (j' <= i \/ i < j' /\ 0 < cmp p (elt l' (s + j'))).
Proof.
  intros Hsw. revert m l gt j. induction fuel as [|fuel IH]; intros m l gt j A Hs Hn H Hf;
    pose proof (part_bounds _ _ _ _ _ _ _ _ H); [lia|]. cbn [scan_right state_of pi pj mem i_ lt_ gt_ plt pgt].
  replace ((s + j) * size - size) with ((s + (j - 1)) * size) by ring.
  destruct (Z.ltb_spec ((s + i) * size) ((s + (j - 1)) * size)) as [Hij|Hij]; cycle 1.
  { exists m, l, gt, (j - 1). rewrite Z.sub_add.
    repeat (split; [done || lia || apply confined_refl|]). left. nia. }
  assert (Hlt : i < j - 1) by nia.
  rewrite (cmp_at_ok _ _ _ size_pos _ _ _ _ A), (part_pivot _ _ _ _ _ _ _ _ H) by lia.
  cbn [mbind option_bind].
  destruct (Z.leb_spec (cmp p (elt l (s + (j - 1)))) 0) as [Hc|Hc]; cycle 1.
  { exists m, l, gt, (j - 1). rewrite Z.sub_add.
    repeat (split; [done || lia || apply confined_refl|]). right. lia. }
  destruct (Z.eqb_spec (cmp p (elt l (s + (j - 1)))) 0) as [He|He].
  - replace ((s + gt) * size - size) with ((s + (gt - 1)) * size) by ring.
    destruct (Hsw m l (s + (gt - 1)) (s + (j - 1)) A) as (m1 & -> & A1); [lia..|].
    cbn [mbind option_bind].
    assert (L1 : zlen (exch l (s + (gt - 1)) (s + (j - 1))) = zlen l) by (apply exch_len; lia).
    destruct (IH m1 _ (gt - 1) (j - 1) A1) as (m' & l' & gt' & j' & E & A' & C' & P' & Hj' & Hi' & X');
      [lia|by rewrite L1|by apply parted_same_right|lia|].
    exists m', l', gt', j'. split; [exact E|]. split; [done|]. split.
    { eapply confined_trans; [|exact C']. apply exch_confined; lia. }
    split; [done|]. split; [lia|]. split; [|done].
    rewrite Hi', elt_exch by lia. elt_cases. done.
  - destruct (IH m l gt (j - 1) A) as (m' & l' & gt' & j' & E & A' & C' & P' & Hj' & Hi' & X');
      [done..|apply parted_great; done || lia|lia|].
    exists m', l', gt', j'. repeat (split; [done || lia|]). done.
Qed.

Lemma partition_loop_ok fuel sw m l p s n i lt gt j :
  swap_ok sw -> arr m l -> 0 <= s -> s + n <= zlen l -> parted p s n l i lt gt j ->
  j - i < Z.of_nat fuel ->
  exists m' l' i' lt' gt' j', partition_loop size cmp fuel sw (s * size) (state_of m s i lt gt j)
      = Some (state_of m' s i' lt' gt' j') /\
    arr m' l' /\ confined s n l l' /\ parted p s n l' i' lt' gt' i'.
Proof.
  intros Hsw. revert m l i lt gt j.
  induction fuel as [|fuel IH]; intros m l i lt gt j A Hs Hn H Hf;
    pose proof (part_bounds _ _ _ _ _ _ _ _ H); [lia|]. cbn [partition_loop].
  assert (F : forall i j, j - i < Z.of_nat (S (Z.to_nat ((s + j) * size - (s + i) * size)))) by nia.
  destruct (scan_left_ok (S (Z.to_nat (pj (state_of m s i lt gt j) - pi (state_of m s i lt gt j))))
    sw m l p s n i lt gt j Hsw A Hs Hn H (F i j)) as (m1 & l1 & i1 & lt1 & E1 & A1 & C1 & P1 & Hi1 & X1).
  rewrite E1. cbn [mbind option_bind]. clear E1.
  pose proof (confined_len _ _ _ _ C1) as L1.
  destruct (scan_right_ok (S (Z.to_nat (pj (state_of m1 s i1 lt1 gt j) - pi (state_of m1 s i1 lt1 gt j))))
    sw m1 l1 p s n i1 lt1 gt j Hsw A1 Hs ltac:(lia) P1 (F i1 j))
    as (m2 & l2 & gt2 & j2 & E2 & A2 & C2 & P2 & Hj2 & Hi2 & X2).
  rewrite E2. cbn [mbind option_bind]. clear E2.
  pose proof (confined_len _ _ _ _ C2) as L2. cbn [state_of pi pj mem i_ lt_ gt_ plt pgt].
  pose proof (part_bounds _ _ _ _ _ _ _ _ P1). pose proof (part_bounds _ _ _ _ _ _ _ _ P2).
  destruct (Z.geb_spec ((s + i1) * size) ((s + j2) * size)) as [Hge|Hlt].
  { assert (j2 <= i1) by nia. exists m2, l2, i1, lt1, gt2, j2. split; [done|]. split; [done|].
    split; [by eapply confined_trans|].
    destruct (decide (j2 = i1)) as [->|]; [|by replace i1 with (j2 + 1) at 2 by lia].
    destruct X1 as [->|[_ X1]]; [lia|].
    split; [lia|intros; part_cases P2..].
    destruct (decide (x = i1)) as [->|]; [by rewrite Hi2|part_cases P2]. }
  assert (i1 < j2) by nia. destruct X2 as [X2|[_ X2]]; [lia|].
  destruct X1 as [->|[_ X1]]; [lia|]. rewrite <- Hi2 in X1.
  destruct (Hsw m2 l2 (s + i1) (s + j2) A2) as (m3 & -> & A3); [lia..|]. cbn [mbind option_bind].
  assert (L3 : zlen (exch l2 (s + i1) (s + j2)) = zlen l2) by (apply exch_len; lia).
  destruct (IH m3 _ (i1 + 1) lt1 gt2 j2 A3) as (m' & l' & i' & lt' & gt' & j' & E & A' & C' & P');
    [lia|lia|by apply parted_swap; try done; lia|lia|].
  exists m', l', i', lt', gt', j'. split; [|split; [done|split; [|done]]].
  - rewrite <- E. f_equal. unfold state_of. f_equal; ring.
  - eapply confined_trans; [exact C1|]. eapply confined_trans; [exact C2|].
    eapply confined_trans; [|exact C']. apply exch_confined; lia.
Qed.

Lemma med3_ok m l a b c :
  arr m l -> 0 <= a < zlen l -> 0 <= b < zlen l -> 0 <= c < zlen l ->
  exists x, med3 size cmp m (a * size) (b * size) (c * size) = Some (x * size) /\
    (x = a \/ x = b \/ x = c).
Proof.
  intros A Ha Hb Hc. unfold med3. rewrite !(cmp_at_ok _ _ _ size_pos _ _ _ _ A) by lia.
  cbn [mbind option_bind].
  repeat match goal with |- context [if ?x then _ else _] => destruct x end; eauto.
Qed.

(** The three parts after the block exchanges. *)
Record three_parts (p : list Z) (s n : Z) (l : list (list Z)) (lt gt : Z) : Prop := {
  three_bounds : 0 <= lt < gt /\ gt <= n;
  three_small x : 0 <= x < lt -> 0 < cmp p (elt l (s + x));
  three_same x : lt <= x < gt -> same p (elt l (s + x));
  three_great x : gt <= x < n -> cmp p (elt l (s + x)) < 0
}.

(** The elements identical to the pivot move from both ends to the middle. *)
Lemma parted_three p s n l l1 l2 i lt gt a b :
  0 <= s -> s + n <= zlen l -> parted p s n l i lt gt i ->
  a = Z.min lt (i - lt) -> b = Z.min (n - gt) (gt - i) ->
  swapped l s (s + i - a) a l1 -> swapped l1 (s + i) (s + n - b) b l2 ->
  three_parts p s n l2 (i - lt) (n - (gt - i)).
Proof.
  intros Hs Hn H Ea Eb S1 S2. pose proof (part_bounds _ _ _ _ _ _ _ _ H).
  assert (R : forall x, elt l2 (s + x)
    = elt l (swap_ix s (s + i - a) a (swap_ix (s + i) (s + n - b) b (s + x)))).
  { intros x. by rewrite (elt_swapped _ _ _ _ _ _ S2), (elt_swapped _ _ _ _ _ _ S1). }
  assert (Q : forall x, exists y, elt l2 (s + x) = elt l (s + y) /\
    ((0 <= x < i - lt -> lt <= y < i) /\ (i - lt <= x < n - (gt - i) -> 0 <= y < lt \/ gt <= y < n) /\
     (n - (gt - i) <= x < n -> i <= y < gt))).
  { intros x. exists (swap_ix s (s + i - a) a (swap_ix (s + i) (s + n - b) b (s + x)) - s).
    split; [rewrite R; f_equal; lia|].
    pose proof (swap_ix_cases (s + i) (s + n - b) b (s + x)).
    pose proof (swap_ix_cases s (s + i - a) a (swap_ix (s + i) (s + n - b) b (s + x))). lia. }
  split; [lia|intros x Hx; destruct (Q x) as (y & -> & Q1 & Q2 & Q3)..].
  - apply (part_small _ _ _ _ _ _ _ _ H). lia.
  - destruct (Q2 Hx); [by apply (part_lt _ _ _ _ _ _ _ _ H)|by apply (part_gt _ _ _ _ _ _ _ _ H)].
  - apply (part_great _ _ _ _ _ _ _ _ H). lia.
Qed.

Lemma partition_ok sw sb m l s n :
  swap_ok sw -> swap_block_ok sb -> arr m l -> zlen l * size < 2 ^ 63 ->
  0 <= s -> s + n <= zlen l -> 6 < n ->
  exists m' l' lt gt, partition size cmp sw sb m (s * size) n = Some (m', lt, gt, (s + gt) * size) /\
    arr m' l' /\ confined s n l l' /\ exists p, three_parts p s n l' lt gt.
Proof.
  intros Hsw Hsb A Hsz Hs Hn H6. unfold partition. rewrite Z.shiftr_div_pow2 by lia.
  change (2 ^ 2) with 4. set (q := n / 4). assert (1 <= q /\ 4 * q <= n) by (subst q; divlia).
  rewrite !u64_small by nia.
  replace (s * size + q * size) with ((s + q) * size) by ring.
  replace (s * size + 2 * (q * size)) with ((s + 2 * q) * size) by ring.
  replace (s * size + 3 * (q * size)) with ((s + 3 * q) * size) by ring.
  destruct (med3_ok m l (s + q) (s + 2 * q) (s + 3 * q) A) as (x & -> & Hx); [lia..|].
  cbn [mbind option_bind].
  destruct (Hsw m l s x A) as (m1 & -> & A1); [lia..|]. cbn [mbind option_bind].
  assert (L1 : zlen (exch l s x) = zlen l) by (apply exch_len; lia).
  destruct (partition_loop_ok (S (Z.to_nat n)) sw m1 (exch l s x) (elt (exch l s x) s) s n 1 1 n n Hsw A1)
    as (m2 & l2 & i & lt & gt & j & E2 & A2 & C2 & P2); [done|lia| |lia|].
  { split; [lia|done|intros k Hk; left; f_equal; lia|intros; lia..]. }
  unfold state_of in E2. rewrite !Z.mul_add_distr_r, !Z.mul_1_l in E2. rewrite E2.
  cbn [mbind option_bind mem pi plt pj pgt i_ lt_ gt_]. clear E2.
  pose proof (part_bounds _ _ _ _ _ _ _ _ P2). pose proof (confined_len _ _ _ _ C2) as L2.
  set (a := Z.min lt (i - lt)). set (b := Z.min (n - gt) (gt - i)).
  assert (Ea : (if s * size + lt * size - s * size >? s * size + i * size - (s * size + lt * size)
    then s * size + i * size - (s * size + lt * size) else s * size + lt * size - s * size) = a * size).
  { subst a. destruct (Z.gtb_spec (s * size + lt * size - s * size)
      (s * size + i * size - (s * size + lt * size))).
    - rewrite Z.min_r by nia. ring.
    - rewrite Z.min_l by nia. ring. }
  assert (Eb : (if s * size + n * size - (s * size + gt * size) >? s * size + gt * size - (s * size + i * size)
    then s * size + gt * size - (s * size + i * size) else s * size + n * size - (s * size + gt * size)) = b * size).
  { subst b. destruct (Z.gtb_spec (s * size + n * size - (s * size + gt * size))
      (s * size + gt * size - (s * size + i * size))).
    - rewrite Z.min_r by nia. ring.
    - rewrite Z.min_l by nia. ring. }
  rewrite Ea, Eb. clear Ea Eb.
  assert (Ha : 0 <= a /\ a <= lt /\ a <= i - lt) by (subst a; lia).
  assert (Hb : 0 <= b /\ b <= n - gt /\ b <= gt - i) by (subst b; lia).
  replace (s * size + i * size - a * size) with ((s + i - a) * size) by ring.
  destruct (Hsb m2 l2 s (s + i - a) a A2) as (m3 & -> & A3); [lia..|unfold apart; lia|].
  cbn [mbind option_bind].
  pose proof (swap_ranges_swapped l2 s (s + i - a) a ltac:(lia) ltac:(lia) ltac:(lia) ltac:(lia)) as S3.
  pose proof (swapped_len _ _ _ _ _ S3) as L3.
  replace (s * size + n * size - b * size) with ((s + n - b) * size) by ring.
  replace (s * size + i * size) with ((s + i) * size) by ring.
  destruct (Hsb m3 _ (s + i) (s + n - b) b A3) as (m4 & -> & A4); [lia..|unfold apart; lia|].
  cbn [mbind option_bind].
  pose proof (swap_ranges_swapped (swap_ranges l2 s (s + i - a) a) (s + i) (s + n - b) b
    ltac:(lia) ltac:(lia) ltac:(lia) ltac:(lia)) as S4.
  eexists m4, _, (i - lt), (n - (gt - i)). split; [|split; [exact A4|split]].
  - do 2 f_equal. ring.
  - apply (confined_trans _ _ _ (exch l s x)); [apply exch_confined; lia|].
    eapply confined_trans; [exact C2|]. eapply confined_trans.
    + apply (swapped_confined _ _ _ _ _ s n S3); lia || (unfold apart; lia).
    + apply (swapped_confined _ _ _ _ _ s n S4); lia || (unfold apart; lia).
  - eexists. eapply parted_three; [exact Hs| |exact P2|reflexivity|reflexivity|exact S3|exact S4]. lia.
Qed.
End part.
