(* ===== verification/RqsortOk.v ===== *)
(** * Correctness of rqsort: insertion sort, the stack of segments, the theorems

    The segments on the stack are disjoint, and any two elements that do not lie in the same
    segment are already in order.  Their depths increase towards the top of the stack,
    which is why its 50 entries are enough. *)

From Stdlib Require Import Permutation Sorted.
From S2P Require Import Prelude Bytes Exchange Rqsort RqsortSpec RqsortPart.

Section main.
Context (addr size : Z) (cmp : list Z -> list Z -> Z) (tl : list Z).
Hypothesis size_pos : 0 < size.

#[local] Abbreviation arr := (arr size tl).
#[local] Abbreviation swap_ok := (swap_ok size tl).
#[local] Abbreviation swap_block_ok := (swap_block_ok size tl).

(** ** Insertion sort *)

(** The first [k + 1] elements are in order, but for the one at [j], which may be smaller
    than those before it. *)
Definition inserting (s k j : Z) (l : list (list Z)) : Prop :=
  forall x y, 0 <= x < y -> y <= k -> y <> j -> cmp (elt l (s + x)) (elt l (s + y)) <= 0.

Lemma inserting_step s k j l :
  CmpOrder cmp -> 0 <= s -> 0 < j <= k -> s + k < zlen l ->
  0 < cmp (elt l (s + (j - 1))) (elt l (s + j)) ->
  inserting s k j l -> inserting s k (j - 1) (exch l (s + j) (s + (j - 1))).
Proof.
  intros HO Hs Hj Hk Hc H x y Hx Hy Hne. rewrite !elt_exch by lia. elt_cases.
  all: first [apply H; lia | apply cmp_flip; [done|lia]].
Qed.

Lemma inserting_done s k j l :
  CmpOrder cmp -> 0 <= j <= k -> (j = 0 \/ cmp (elt l (s + (j - 1))) (elt l (s + j)) <= 0) ->
  inserting s k j l -> sorted_from cmp s (k + 1) l.
Proof.
  intros HO Hj Hc H x y Hx Hy.
  replace x with (s + (x - s)) by lia. replace y with (s + (y - s)) by lia.
  destruct (decide (y - s = j)) as [Ej|]; [rewrite Ej|apply H; lia].
  destruct Hc as [Hc|Hc]; [lia|]. destruct (decide (x - s = j - 1)) as [->|]; [done|].
  eapply cmp_trans; [|exact Hc]. apply H; lia.
Qed.

Lemma insert_left_ok fuel sw m l s k j :
  swap_ok sw -> arr m l -> 0 <= s -> 0 <= j <= k -> s + k < zlen l -> j < Z.of_nat fuel ->
  exists m' l', insert_left size cmp fuel sw m (s * size) ((s + j) * size) = Some m' /\
    arr m' l' /\ confined s (k + 1) l l' /\
    (CmpOrder cmp -> inserting s k j l -> sorted_from cmp s (k + 1) l').
Proof.
  intros Hsw. revert m l j. induction fuel as [|fuel IH]; intros m l j A Hs Hj Hk Hf; [lia|].
  cbn [insert_left]. destruct (Z.gtb_spec ((s + j) * size) (s * size)) as [Hp|Hz]; cycle 1.
  { exists m, l. repeat (split; [done || apply confined_refl|]).
    intros HO. apply inserting_done; [done|done|left; nia]. }
  assert (0 < j) by nia. replace ((s + j) * size - size) with ((s + (j - 1)) * size) by ring.
  rewrite (cmp_at_ok _ _ _ size_pos _ _ _ _ A) by lia. cbn [mbind option_bind].
  destruct (Z.gtb_spec (cmp (elt l (s + (j - 1))) (elt l (s + j))) 0) as [Hgt|Hle]; cycle 1.
  { exists m, l. repeat (split; [done || apply confined_refl|]).
    intros HO. apply inserting_done; [done|done|by right]. }
  destruct (Hsw m l (s + j) (s + (j - 1)) A) as (m1 & -> & A1); [lia..|]. cbn [mbind option_bind].
  assert (L1 : zlen (exch l (s + j) (s + (j - 1))) = zlen l) by (apply exch_len; lia).
  destruct (IH m1 _ (j - 1) A1) as (m' & l' & E & A' & C' & H'); [rewrite ?L1; lia..|].
  exists m', l'. split; [done|]. split; [done|]. split.
  - eapply confined_trans; [|exact C']. apply exch_confined; lia.
  - intros HO Hi. apply H'; [done|].
    apply inserting_step; done || lia.
Qed.

Lemma insertion_sort_ok fuel sw m l s i n :
  swap_ok sw -> arr m l -> 0 <= s -> 1 <= i -> s + n <= zlen l -> n < Z.of_nat fuel + i ->
  (0 < fuel)%nat ->
  exists m' l', insertion_sort size cmp fuel sw m (s * size) ((s + i) * size) ((s + n) * size) = Some m' /\
    arr m' l' /\ confined s n l l' /\
    (CmpOrder cmp -> sorted_from cmp s (Z.min i n) l -> sorted_from cmp s n l').
Proof.
  intros Hsw. revert m l i. induction fuel as [|fuel IH]; intros m l i A Hs Hi Hn Hf Hf0; [lia|].
  cbn [insertion_sort]. destruct (Z.ltb_spec ((s + i) * size) ((s + n) * size)) as [Hp|Hz]; cycle 1.
  { exists m, l. repeat (split; [done || apply confined_refl|]).
    intros HO. by rewrite Z.min_r by nia. }
  assert (i < n) by nia.
  destruct (insert_left_ok (S (Z.to_nat ((s + i) * size - s * size))) sw m l s i i Hsw A)
    as (m1 & l1 & -> & A1 & C1 & H1); [lia..|nia|]. cbn [mbind option_bind].
  pose proof (confined_len _ _ _ _ C1) as L1.
  replace ((s + i) * size + size) with ((s + (i + 1)) * size) by ring.
  destruct (IH m1 l1 (i + 1) A1) as (m' & l' & E & A' & C' & H'); [rewrite ?L1; lia..|].
  exists m', l'. split; [done|]. split; [done|]. split.
  - eapply confined_trans; [|exact C']. eapply confined_weaken; [exact C1|lia..].
  - intros HO Hi'. apply H'; [done|]. rewrite Z.min_l by lia. apply H1; [done|].
    intros x y Hx Hy Hne. apply Hi'; lia.
Qed.

(** ** The segments *)

Definition seg : Type := Z * Z.

Definition in_seg (sg : seg) (x : Z) : Prop := sg.1 <= x < sg.1 + sg.2.

Definition meet (sg sg' : seg) : Prop := exists x, in_seg sg x /\ in_seg sg' x.

Fixpoint segs_ok (len : Z) (segs : list seg) : Prop :=
  match segs with
  | [] => True
  | sg :: r =>
      0 <= sg.1 /\ 0 <= sg.2 /\ sg.1 + sg.2 <= len /\
      Forall (fun sg' => ~ meet sg sg') r /\ segs_ok len r
  end.

(** Elements of different segments are in order. *)
Definition sorted_but (len : Z) (segs : list seg) (l : list (list Z)) : Prop :=
  forall x y, 0 <= x < y -> y < len ->
    cmp (elt l x) (elt l y) <= 0 \/ Exists (fun sg => in_seg sg x /\ in_seg sg y) segs.

Lemma sorted_but_confined len sg r l l' :
  segs_ok len (sg :: r) -> confined sg.1 sg.2 l l' ->
  sorted_but len (sg :: r) l -> sorted_but len (sg :: r) l'.
Proof.
  intros (H0 & H1 & H2 & Hd & _) C H x y Hx Hy.
  assert (D : forall sg' z, In sg' r -> in_seg sg z -> in_seg sg' z -> False).
  { intros sg' z Hr Hz Hz'. rewrite Forall_forall in Hd. apply (Hd sg'); [done|by exists z]. }
  destruct (decide (sg.1 <= x < sg.1 + sg.2)) as [Ix|Ix], (decide (sg.1 <= y < sg.1 + sg.2)) as [Iy|Iy].
  - right. by apply Exists_cons_hd.
  - destruct (conf_in _ _ _ _ C x Ix) as (z & Iz & ->). rewrite (conf_out _ _ _ _ C y Iy).
    left. destruct (H z y ltac:(lia) ltac:(lia)) as [Hle|[[_ ?]|(sg' & Hr & Hz & _)%Exists_exists]%Exists_cons]; [done|done|].
    exfalso. by apply (D sg' z).
  - destruct (conf_in _ _ _ _ C y Iy) as (z & Iz & ->). rewrite (conf_out _ _ _ _ C x Ix).
    left. destruct (H x z ltac:(lia) ltac:(lia)) as [Hle|[[? _]|(sg' & Hr & _ & Hz)%Exists_exists]%Exists_cons]; [done|done|].
    exfalso. by apply (D sg' z).
  - rewrite (conf_out _ _ _ _ C x Ix), (conf_out _ _ _ _ C y Iy). by apply H.
Qed.

(** A segment that is in order is done with. *)
Lemma sorted_but_done len sg r l :
  sorted_from cmp sg.1 sg.2 l -> sorted_but len (sg :: r) l -> sorted_but len r l.
Proof.
  intros Hs H x y Hx Hy. destruct (H x y Hx Hy) as [Hle|[[H1 H2]|Hr]%Exists_cons]; [by left| |by right].
  left. apply Hs; unfold in_seg in *; lia.
Qed.

Lemma same_le p e : CmpOrder cmp -> same cmp p e -> cmp p e <= 0 /\ cmp e p <= 0.
Proof.
  intros HO [->|He]; [split; by apply cmp_refl|]. split; [lia|]. apply cmp_flip; [done|lia].
Qed.

(** After the partition the two ends of the segment remain. *)
Lemma sorted_but_split len b n r l p lt gt :
  CmpOrder cmp -> three_parts cmp p b n l lt gt -> sorted_but len ((b, n) :: r) l ->
  sorted_but len ((b, lt) :: (b + gt, n - gt) :: r) l.
Proof.
  intros HO T H x y Hx Hy. pose proof (three_bounds _ _ _ _ _ _ _ T).
  destruct (H x y Hx Hy) as [Hle|[[H1 H2]|Hr]%Exists_cons]; [by left| |right; by repeat apply Exists_cons_tl].
  unfold in_seg in *. cbn in *.
  assert (L : x < b + gt -> cmp (elt l x) p <= 0).
  { intros Hg. replace x with (b + (x - b)) by lia. destruct (decide (x - b < lt)).
    - apply cmp_flip; [done|]. pose proof (three_small _ _ _ _ _ _ _ T (x - b)). lia.
    - apply (same_le p); [done|]. apply (three_same _ _ _ _ _ _ _ T). lia. }
  assert (G : b + lt <= y -> cmp p (elt l y) <= 0).
  { intros Hg. replace y with (b + (y - b)) by lia. destruct (decide (gt <= y - b)).
    - pose proof (three_great _ _ _ _ _ _ _ T (y - b)). lia.
    - apply (same_le p); [done|]. apply (three_same _ _ _ _ _ _ _ T). lia. }
  destruct (decide (b + gt <= x)).
  { right. apply Exists_cons_tl, Exists_cons_hd. unfold in_seg. cbn. lia. }
  destruct (decide (y < b + lt)).
  { right. apply Exists_cons_hd. unfold in_seg. cbn. lia. }
  left. eapply cmp_trans; [apply L|apply G]; lia.
Qed.

Lemma sorted_but_perm len segs segs' l :
  (forall sg, sg ∈ segs -> sg ∈ segs') -> sorted_but len segs l -> sorted_but len segs' l.
Proof.
  intros Hs H x y Hx Hy. destruct (H x y Hx Hy) as [?|(sg & Hsg & Hi)%Exists_exists]; [by left|].
  right. apply Exists_exists. exists sg. split; [|done]. apply list_elem_of_In, Hs. by apply list_elem_of_In.
Qed.

(** ** The stack *)

(** The entry of a segment given by its position, its count and its depth. *)
Definition entry (e : seg * Z) : Segment := mkSegment (e.1.1 * size) e.1.2 e.2.

(** The depths decrease from [d] down the stack. *)
Fixpoint depths_ok (d : Z) (st : list (seg * Z)) : Prop :=
  match st with
  | [] => True
  | e :: r => 1 <= e.2 <= d /\ depths_ok (e.2 - 1) r
  end.

Lemma depths_len d st : 0 <= d -> depths_ok d st -> zlen st <= d.
Proof.
  revert d. induction st as [|e r IH]; intros d Hd H; [done|]. destruct H as [H1 H2].
  rewrite zlen_cons. specialize (IH (e.2 - 1) ltac:(lia) H2). lia.
Qed.

Lemma depths_weaken d d' st : d <= d' -> depths_ok d st -> depths_ok d' st.
Proof. destruct st; [done|]. cbn. intros ? [? ?]. split; [lia|done]. Qed.

Definition weight (st : list (seg * Z)) : Z := fold_right (fun e w => e.1.2 + 1 + w) 0 st.

Lemma weight_cons b c e st : weight ((b, c, e) :: st) = c + 1 + weight st.
Proof. done. Qed.

Lemma weight_nonneg len st : segs_ok len (map fst st) -> 0 <= weight st.
Proof.
  induction st as [|[[b c] e] st IH]; [done|]. intros (_ & H & _ & _ & G). cbn [fst snd] in H.
  specialize (IH G). rewrite weight_cons. lia.
Qed.

Lemma push_entry_ok d b c e st :
  0 <= d < 50 -> depths_ok d st ->
  push_segment (mkSegment (b * size) c e) (map entry st) = Some (map entry ((b, c, e) :: st)).
Proof.
  intros Hd H. apply depths_len in H; [|lia]. unfold push_segment. rewrite zlen_map.
  destruct (Z.ltb_spec (zlen st) 50); [done|lia].
Qed.

(** What [split_segments] and the insertion sort keep, for the segment [sg] in hand. *)
Record sorting (len : Z) (m : list Z) (l0 l : list (list Z)) (sg : seg) (st : list (seg * Z)) : Prop := {
  sorting_arr : arr m l;
  sorting_len : zlen l = len;
  sorting_perm : Permutation l l0;
  sorting_segs : segs_ok len (sg :: map fst st);
  sorting_but : CmpOrder cmp -> sorted_but len (sg :: map fst st) l
}.

Lemma sorting_confined len m m' l0 l l' sg st :
  sorting len m l0 l sg st -> arr m' l' -> confined sg.1 sg.2 l l' -> sorting len m' l0 l' sg st.
Proof.
  intros [A L P S B] A' C. split; [done|..].
  - by rewrite (confined_len _ _ _ _ C).
  - by rewrite (conf_perm _ _ _ _ C).
  - done.
  - intros HO. by eapply sorted_but_confined; [| |apply B].
Qed.

(** The two segments that a partition leaves, in either order. *)
Lemma segs_split len b n lt gt r :
  0 <= lt < gt -> gt <= n -> segs_ok len ((b, n) :: r) ->
  segs_ok len ((b, lt) :: (b + gt, n - gt) :: r) /\ segs_ok len ((b + gt, n - gt) :: (b, lt) :: r).
Proof.
  intros H1 H2 (H3 & H4 & H5 & H6 & H7). cbn in *.
  assert (D : ~ meet (b, lt) (b + gt, n - gt) /\ ~ meet (b + gt, n - gt) (b, lt)).
  { split; intros (x & Hx & Hx'); unfold in_seg in *; cbn in *; lia. }
  assert (F : forall b' n', b <= b' -> b' + n' <= b + n -> Forall (fun sg' => ~ meet (b', n') sg') r).
  { intros b' n' Hb Hn. eapply Forall_impl; [|exact H6]. intros sg' H (x & Hx & Hx').
    apply H. exists x. split; [|done]. unfold in_seg in *. cbn in *. lia. }
  repeat split; try lia; try done; try (constructor; [apply D|]); apply F; lia.
Qed.

(** One step: the part that is kept and the part that is pushed. *)
Lemma sorting_split len m l0 l b n lt gt p d st :
  sorting len m l0 l (b, n) st -> three_parts cmp p b n l lt gt ->
  sorting len m l0 l (b + gt, n - gt) ((b, lt, d) :: st) /\
  sorting len m l0 l (b, lt) ((b + gt, n - gt, d) :: st).
Proof.
  intros [A L P S B] T. pose proof (three_bounds _ _ _ _ _ _ _ T) as [H1 H2].
  destruct (segs_split _ _ _ _ _ _ H1 H2 S) as [S1 S2].
  assert (B' : CmpOrder cmp -> sorted_but len ((b, lt) :: (b + gt, n - gt) :: map fst st) l).
  { intros HO. by eapply sorted_but_split; [|exact T|apply B]. }
  split; split; try done.
  intros HO. eapply sorted_but_perm; [|by apply B'].
  intros sg. cbn. rewrite !elem_of_cons. tauto.
Qed.

Lemma split_segments_ok fuel sw sb len m l0 l b n d st :
  swap_ok sw -> swap_block_ok sb -> len * size < 2 ^ 63 ->
  sorting len m l0 l (b, n) st -> 0 <= d -> depths_ok d st -> n < Z.of_nat fuel ->
  exists m' l' b' n' st' d',
    split_segments addr size cmp fuel sw sb m (map entry st) (b * size) n d
      = Some (m', map entry st', b' * size, n') /\
    sorting len m' l0 l' (b', n') st' /\ depths_ok d' st' /\ weight st' + n' <= weight st + n.
Proof.
  intros Hsw Hsb Hsz. revert m l b n d st.
  induction fuel as [|fuel IH]; intros m l b n d st S Hd D Hf;
    destruct (sorting_segs _ _ _ _ _ _ S) as (Hb & Hn & Hbn & _); cbn in Hb, Hn, Hbn; [lia|].
  pose proof (sorting_arr _ _ _ _ _ _ S) as A. pose proof (sorting_len _ _ _ _ _ _ S) as L.
  cbn [split_segments]. destruct (Z.gtb_spec n 6) as [H6|H6]; cycle 1.
  { exists m, l, b, n, st, d. repeat (split; [done|]). done. }
  destruct (Z.gtb_spec (d + 1) 50) as [H50|H50].
  { destruct (heapsortx_ok addr size cmp tl size_pos m l b n A) as (m1 & l1 & -> & A1 & C1 & S1); [lia..|].
    cbn [mbind option_bind]. exists m1, l1, b, 0, st, d. split; [done|].
    pose proof (sorting_confined _ _ _ _ _ _ _ _ S A1 C1) as [_ L1 P1 G1 B1].
    split; [|split; [done|lia]]. split; try done.
    - destruct G1 as (G1 & G2 & G3 & G4 & G5). cbn in *. repeat split; try done || lia.
      eapply Forall_impl; [|exact G4]. intros sg' H (x & Hx & Hx'). unfold in_seg in Hx. cbn in Hx. lia.
    - intros HO. eapply (sorted_but_perm _ (map fst st)); [intros sg Hsg; apply elem_of_cons; by right|].
      eapply (sorted_but_done _ (b, n)); [by apply S1|by apply B1]. }
  destruct (partition_ok size cmp tl size_pos sw sb m l b n Hsw Hsb A)
    as (m1 & l1 & lt & gt & -> & A1 & C1 & p & T); [lia..|]. cbn [mbind option_bind].
  pose proof (sorting_confined _ _ _ _ _ _ _ _ S A1 C1) as S1.
  pose proof (three_bounds _ _ _ _ _ _ _ T) as HT.
  destruct (sorting_split _ _ _ _ _ _ _ _ _ (d + 1) _ S1 T) as [SR SL].
  destruct (lt >? n - gt).
  - rewrite (push_entry_ok d b lt (d + 1) st) by (done || lia). cbn [mbind option_bind].
    destruct (IH m1 l1 (b + gt) (n - gt) (d + 1) _ SR) as (m' & l' & b' & n' & st' & d' & E & S' & D' & W');
      [lia|split; cbn [snd]; [lia|by rewrite Z.add_simpl_r]|lia|].
    exists m', l', b', n', st', d'. split; [done|]. split; [done|]. split; [done|]. rewrite weight_cons in W'. lia.
  - rewrite (push_entry_ok d (b + gt) (n - gt) (d + 1) st) by (done || lia). cbn [mbind option_bind].
    destruct (IH m1 l1 b lt (d + 1) _ SL) as (m' & l' & b' & n' & st' & d' & E & S' & D' & W');
      [lia|split; cbn [snd]; [lia|by rewrite Z.add_simpl_r]|lia|].
    exists m', l', b', n', st', d'. split; [done|]. split; [done|]. split; [done|]. rewrite weight_cons in W'. lia.
Qed.

(** The stack at the head of the loop; the first entry has depth 0. *)
Definition stack_ok (st : list (seg * Z)) : Prop :=
  match st with [] => True | e :: r => 0 <= e.2 /\ depths_ok e.2 r end.

Lemma rqsort_loop_ok fuel sw sb len m l0 l st :
  swap_ok sw -> swap_block_ok sb -> len * size < 2 ^ 63 ->
  arr m l -> zlen l = len -> Permutation l l0 -> segs_ok len (map fst st) ->
  (CmpOrder cmp -> sorted_but len (map fst st) l) ->
  stack_ok st -> weight st < Z.of_nat fuel ->
  exists m' l', rqsort_loop addr size cmp fuel sw sb m (map entry st) = Some m' /\
    arr m' l' /\ Permutation l' l0 /\ (CmpOrder cmp -> sorted_from cmp 0 len l').
Proof.
  intros Hsw Hsb Hsz. revert m l st. induction fuel as [|fuel IH]; intros m l st A L P G B D Hf.
  { pose proof (weight_nonneg _ _ G). lia. }
  destruct st as [|[[b n] d] st]; cbn [map rqsort_loop].
  { exists m, l. repeat (split; [done|]). intros HO x y Hx Hy.
    destruct (B HO x y ltac:(lia) ltac:(lia)) as [?|H]; [done|by apply Exists_nil in H]. }
  cbn [entry fst snd]. destruct D as [D0 D]. cbn in D0, D.
  destruct (split_segments_ok (S (Z.to_nat n)) sw sb len m l0 l b n d st Hsw Hsb Hsz)
    as (m1 & l1 & b1 & n1 & st1 & d1 & E & S1 & D1 & W1); [by split|done|done| |].
  { destruct G as (_ & Hn & _). cbn in Hn. lia. }
  cbn [seg_base]. rewrite E. cbn [mbind option_bind].
  destruct (sorting_segs _ _ _ _ _ _ S1) as (Hb1 & Hn1 & Hbn1 & _ & G1). cbn in Hb1, Hn1, Hbn1.
  pose proof (sorting_arr _ _ _ _ _ _ S1) as A1. pose proof (sorting_len _ _ _ _ _ _ S1) as L1.
  rewrite u64_small by nia.
  replace (b1 * size + size) with ((b1 + 1) * size) by ring.
  replace (b1 * size + n1 * size) with ((b1 + n1) * size) by ring.
  destruct (insertion_sort_ok (S (Z.to_nat n1)) sw m1 l1 b1 1 n1 Hsw A1)
    as (m2 & l2 & -> & A2 & C2 & H2); [lia..|]. cbn [mbind option_bind].
  pose proof (sorting_confined _ _ _ _ _ _ _ _ S1 A2 C2) as [_ L2 P2 _ B2].
  apply (IH m2 l2 st1 A2 L2 P2 G1).
  - intros HO. eapply (sorted_but_done _ (b1, n1)); [|by apply B2]. apply H2; [done|].
    intros x y Hx Hy. lia.
  - destruct st1 as [|e r]; [done|]. destruct D1 as [D1 D2]. split; [lia|].
    eapply depths_weaken; [|exact D2]. lia.
  - rewrite weight_cons in Hf. lia.
Qed.

Lemma rqsort_ok m l :
  arr m l -> zlen l * size < 2 ^ 63 ->
  exists m' l', rqsort addr size cmp m (zlen l) = Some m' /\
    arr m' l' /\ Permutation l' l /\ (CmpOrder cmp -> sorted_from cmp 0 (zlen l) l').
Proof.
  intros A Hsz. unfold rqsort. destruct (Z.ltb_spec (zlen l) 2); cbn [orb].
  { exists m, l. repeat (split; [done|]). intros _ x y Hx Hy. lia. }
  rewrite (proj2 (Z.leb_gt _ _)) by lia.
  pose proof (exchange_func_swap addr size tl size_pos 0) as Hsw. rewrite Z.mul_0_l, Z.add_0_r in Hsw.
  apply (rqsort_loop_ok (S (S (Z.to_nat (zlen l)))) _ _ (zlen l) m l l [((0, zlen l), 0)] Hsw
    (exchange_func_swap_block addr size tl size_pos) Hsz A); try done.
  - cbn. repeat split; try done; lia.
  - intros _ x y Hx Hy. right. apply Exists_cons_hd. unfold in_seg. cbn. lia.
  - cbn. lia.
Qed.
End main.

(** ** The bytes of a list of elements *)

Section bytes.
Context (size : Z) (tl : list Z).
Hypothesis size_pos : 0 < size.

Definition sized (l : list (list Z)) : Prop := Forall (fun e => zlen e = size) l.

Lemma zlen_concat l : sized l -> zlen (concat l) = zlen l * size.
Proof.
  induction 1 as [|e l He _ IH]; [done|]. cbn [concat]. rewrite zlen_app, zlen_cons, IH, He. ring.
Qed.

Lemma elt_sized l i : sized l -> 0 <= i < zlen l -> zlen (elt l i) = size.
Proof.
  intros H Hi. unfold sized in H. rewrite List.Forall_forall in H. apply H.
  apply list_elem_of_In. eapply (list_elem_of_lookup_2 l (Z.to_nat i)).
  rewrite <- znth_lookup by lia. by apply znth_elt.
Qed.

Lemma concat_elt l i x :
  sized l -> 0 <= i < zlen l -> 0 <= x < size -> znth (concat l) (i * size + x) = znth (elt l i) x.
Proof.
  intros H. revert i. induction H as [|e l He Hl IH]; intros i Hi Hx; [unfold zlen in Hi; cbn in Hi; lia|].
  rewrite zlen_cons in Hi. cbn [concat]. unfold elt. destruct (decide (i = 0)) as [->|].
  - rewrite znth_app_l by lia. done.
  - rewrite znth_app_r by nia. rewrite znth_cons_S by lia.
    fold (elt l (i - 1)). rewrite <- (IH (i - 1)) by (done || lia). f_equal. rewrite He. ring.
Qed.

Lemma concat_arr l : sized l -> arr size tl (concat l ++ tl) l.
Proof.
  intros H. pose proof (zlen_concat l H) as Hl. split.
  - rewrite zlen_app. lia.
  - intros i x Hi Hx. rewrite znth_app_l by nia. by apply concat_elt.
  - intros x Hx. rewrite znth_app_r by lia. f_equal. lia.
  - intros i Hi. by apply elt_sized.
Qed.

Lemma arr_concat m l : arr size tl m l -> sized l /\ m = concat l ++ tl.
Proof.
  intros A.
  assert (H : sized l).
  { apply List.Forall_forall. intros e He. apply list_elem_of_In, list_elem_of_lookup_1 in He as [i Hi].
    pose proof (lookup_lt_Some _ _ _ Hi). rewrite <- (arr_size _ _ _ _ A (Z.of_nat i)) by (unfold zlen; lia).
    unfold elt. by rewrite znth_lookup, Nat2Z.id, Hi by lia. }
  split; [done|]. pose proof (concat_arr l H) as B.
  apply znth_ext; [by rewrite (arr_len _ _ _ _ A), (arr_len _ _ _ _ B)|].
  intros x Hx. destruct (Z.lt_ge_cases x (zlen l * size)).
  - replace x with (x / size * size + x mod size) by divlia.
    assert (0 <= x / size < zlen l) by (split; [apply Z.div_pos|apply Z.div_lt_upper_bound]; lia).
    assert (0 <= x mod size < size) by (apply Z.mod_pos_bound; lia).
    by rewrite (arr_at _ _ _ _ A), (arr_at _ _ _ _ B).
  - replace x with (zlen l * size + (x - zlen l * size)) by lia.
    by rewrite (arr_tl _ _ _ _ A), (arr_tl _ _ _ _ B) by lia.
Qed.
End bytes.

Lemma sorted_strongly cmp l :
  sorted_from cmp 0 (zlen l) l -> StronglySorted (fun x y => cmp x y <= 0) l.
Proof.
  induction l as [|e l IH]; intros H; constructor.
  - apply IH. intros i j Hi Hj. rewrite zlen_cons in H. specialize (H (i + 1) (j + 1) ltac:(lia) ltac:(lia)).
    unfold elt in *. rewrite !znth_cons_S in H by lia. by rewrite !Z.add_simpl_r in H.
  - apply List.Forall_forall. intros x Hx. apply list_elem_of_In, list_elem_of_lookup_1 in Hx as [i Hi].
    pose proof (lookup_lt_Some _ _ _ Hi). specialize (H 0 (Z.of_nat i + 1) ltac:(lia)).
    unfold elt in H. rewrite znth_cons_0, znth_cons_S, Z.add_simpl_r, znth_lookup, Nat2Z.id, Hi in H by lia.
    apply H. rewrite zlen_cons. unfold zlen. lia.
Qed.

(** ** The theorems *)


(** C18: When the comparison function is a total preorder, rqsort leaves the array in
    order: its elements are a permutation of the old ones, sorted, and the bytes
    behind the array are untouched. *)
Theorem rqsort_sorts addr size cmp l tl :
  0 < size -> CmpOrder cmp -> sized size l -> zlen l * size < 2 ^ 63 ->
  exists l', rqsort addr size cmp (concat l ++ tl) (zlen l) = Some (concat l' ++ tl) /\
    Permutation l' l /\ StronglySorted (fun x y => cmp x y <= 0) l'.
Proof.
  intros Hs HO Hl Hsz.
  destruct (rqsort_ok addr size cmp tl Hs _ l (concat_arr size tl Hs l Hl) Hsz) as (m' & l' & E & A & P & S).
  exists l'. apply arr_concat in A as [_ ->]; [|done]. split; [done|]. split; [done|].
  apply sorted_strongly. replace (zlen l') with (zlen l) by (unfold zlen; by rewrite (Permutation_length P)).
  by apply S.
Qed.

(** ** Witnesses *)

#[export] Instance cmp_le_order : CmpOrder cmp_le.
Proof.
  split; unfold cmp_le.
  - intros x y. repeat destruct_cmp; lia.
  - intros x y z H1 H2. repeat destruct_cmp_in H1; repeat destruct_cmp_in H2; repeat destruct_cmp; lia.
Qed.

(** A comparison that is no order: everything is greater than everything. *)
Definition cmp_never (x y : list Z) : Z := 1.


Lemma rqsort_sorts_witness :
  exists l', rqsort 1000 2 cmp_le (concat [[5; 0]; [44; 1]; [2; 0]; [2; 0]; [9; 0]; [1; 0]; [77; 0]; [44; 1]] ++ [8]) 8
    = Some (concat l' ++ [8]) /\
    Permutation l' [[5; 0]; [44; 1]; [2; 0]; [2; 0]; [9; 0]; [1; 0]; [77; 0]; [44; 1]] /\
    StronglySorted (fun x y => cmp_le x y <= 0) l'.
Proof.
  apply (rqsort_sorts 1000 2 cmp_le [[5; 0]; [44; 1]; [2; 0]; [2; 0]; [9; 0]; [1; 0]; [77; 0]; [44; 1]] [8]);
    [lia | apply cmp_le_order | repeat constructor | vm_compute; reflexivity].
Defined.
