(* ===== verification/Limb.v ===== *)
(** * Arithmetic on arrays of limbs (libbf.c)

    A number of arbitrary precision is an array of limbs, the least significant one first.
    The functions work in place and on overlapping arguments, so they are modelled on a
    memory of blocks; a limb_slot that was not written yet is [None].  A result [None] is an
    access outside a block, a read of a limb_slot that was not written, or fuel that is used up.
    The limbs have 64 bits, which is the choice of libbf.h where pointers do. *)

From stdpp Require Import gmap.
From S2P Require Import Prelude.

(** ** Memory *)

Definition LIMB_BITS : Z := 64.
Definition BASE : Z := 2 ^ LIMB_BITS.
Definition limb (x : Z) : Z := x mod BASE.
Definition dlimb (x : Z) : Z := x mod BASE ^ 2.
(** [slimb_t] of a limb. *)
Definition slimb (x : Z) : Z := if x <? BASE / 2 then x else x - BASE.

Abbreviation Mem := (gmap Z (list (option Z))).

Record ptr := mk_ptr { blk : Z; off : Z }.
Definition padd (p : ptr) (n : Z) : ptr := mk_ptr (blk p) (off p + n).

Definition mload (m : Mem) (b o : Z) : option Z := l ← m !! b; v ← znth l o; v.
Definition mstore (m : Mem) (b o v : Z) : option Mem := l ← m !! b; l ← zupd l o (Some v); Some (<[b := l]> m).

(** [p\[i\]] *)
Definition lrd (m : Mem) (p : ptr) (i : Z) : option Z := mload m (blk p) (off p + i).
Definition wr (m : Mem) (p : ptr) (i v : Z) : option Mem := mstore m (blk p) (off p + i) v.

(** [for(i = i0; i < i0 + k; i++)] and [for(i = k - 1; i >= 0; i--)]. *)
Fixpoint for_up {A} (k : nat) (i : Z) (body : Z -> A -> option A) (s : A) : option A :=
  match k with O => Some s | S k' => s ← body i s; for_up k' (i + 1) body s end.
Fixpoint for_down {A} (k : nat) (body : Z -> A -> option A) (s : A) : option A :=
  match k with O => Some s | S k' => s ← body (Z.of_nat k') s; for_down k' body s end.

(** The multiplication of large numbers, by a number theoretic transform, which is not
    modelled; [None] is a memory error. *)
Class FftMul := fft_mul : Mem -> ptr -> ptr -> Z -> ptr -> Z -> option Mem.

Definition FFT_MUL_THRESHOLD : Z := 100.
Definition DIVNORM_LARGE_THRESHOLD : Z := 50.
Definition UDIV1NORM_THRESHOLD : Z := 3.

(** ** Addition and subtraction *)

Definition mp_add (m : Mem) (res op1 op2 : ptr) (n carry : Z) : option (Mem * Z) :=
  for_up (Z.to_nat n) 0 (fun i '(m, k) =>
    v ← lrd m op1 i;
    y ← lrd m op2 i;
    let a := limb (v + y) in
    let k1 := Z.b2z (a <? v) in
    let a := limb (a + k) in
    let k := Z.lor (Z.b2z (a <? k)) k1 in
    m ← wr m res i a;
    Some (m, k)) (m, carry).

Fixpoint mp_add_ui_loop (n : nat) (m : Mem) (tab : ptr) (i k : Z) : option (Mem * Z) :=
  match n with
  | O => Some (m, k)
  | S n' =>
      if k =? 0 then Some (m, k)
      else
        v ← lrd m tab i;
        let a := limb (v + k) in
        m ← wr m tab i a;
        mp_add_ui_loop n' m tab (i + 1) (Z.b2z (a <? k))
  end.
Definition mp_add_ui (m : Mem) (tab : ptr) (b n : Z) : option (Mem * Z) := mp_add_ui_loop (Z.to_nat n) m tab 0 b.

Definition mp_sub (m : Mem) (res op1 op2 : ptr) (n carry : Z) : option (Mem * Z) :=
  for_up (Z.to_nat n) 0 (fun i '(m, k) =>
    v ← lrd m op1 i;
    y ← lrd m op2 i;
    let a := limb (v - y) in
    let k1 := Z.b2z (a >? v) in
    let v := limb (a - k) in
    let k := Z.lor (Z.b2z (v >? a)) k1 in
    m ← wr m res i v;
    Some (m, k)) (m, carry).

Definition mp_neg (m : Mem) (res op2 : ptr) (n carry : Z) : option (Mem * Z) :=
  for_up (Z.to_nat n) 0 (fun i '(m, k) =>
    y ← lrd m op2 i;
    let a := limb (0 - y) in
    let k1 := Z.b2z (a >? 0) in
    let v := limb (a - k) in
    let k := Z.lor (Z.b2z (v >? a)) k1 in
    m ← wr m res i v;
    Some (m, k)) (m, carry).

Fixpoint mp_sub_ui_loop (n : nat) (m : Mem) (tab : ptr) (i k : Z) : option (Mem * Z) :=
  match n with
  | O => Some (m, k)
  | S n' =>
      v ← lrd m tab i;
      let a := limb (v - k) in
      let k := Z.b2z (a >? v) in
      m ← wr m tab i a;
      if k =? 0 then Some (m, k) else mp_sub_ui_loop n' m tab (i + 1) k
  end.
Definition mp_sub_ui (m : Mem) (tab : ptr) (b n : Z) : option (Mem * Z) := mp_sub_ui_loop (Z.to_nat n) m tab 0 b.

Fixpoint mp_cmp_loop (n : nat) (m : Mem) (taba tabb : ptr) : option Z :=
  match n with
  | O => Some 0
  | S n' =>
      x ← lrd m taba (Z.of_nat n');
      y ← lrd m tabb (Z.of_nat n');
      if negb (x =? y) then Some (if x <? y then -1 else 1) else mp_cmp_loop n' m taba tabb
  end.
Definition mp_cmp (m : Mem) (taba tabb : ptr) (n : Z) : option Z := mp_cmp_loop (Z.to_nat n) m taba tabb.

(** ** Multiplication *)

Definition mp_mul1 (m : Mem) (tabr taba : ptr) (n b l : Z) : option (Mem * Z) :=
  for_up (Z.to_nat n) 0 (fun i '(m, l) =>
    x ← lrd m taba i;
    let t := dlimb (x * b + l) in
    m ← wr m tabr i (limb t);
    Some (m, Z.shiftr t LIMB_BITS)) (m, l).

Definition mp_add_mul1 (m : Mem) (tabr taba : ptr) (n b : Z) : option (Mem * Z) :=
  for_up (Z.to_nat n) 0 (fun i '(m, l) =>
    x ← lrd m taba i;
    y ← lrd m tabr i;
    let t := dlimb (x * b + l + y) in
    m ← wr m tabr i (limb t);
    Some (m, Z.shiftr t LIMB_BITS)) (m, 0).

Definition mp_sub_mul1 (m : Mem) (tabr taba : ptr) (n b : Z) : option (Mem * Z) :=
  for_up (Z.to_nat n) 0 (fun i '(m, l) =>
    y ← lrd m tabr i;
    x ← lrd m taba i;
    let t := dlimb (y - x * b - l) in
    m ← wr m tabr i (limb t);
    Some (m, limb (- Z.shiftr t LIMB_BITS))) (m, 0).

Definition mp_mul_basecase (m : Mem) (result op1 : ptr) (op1_size : Z) (op2 : ptr) (op2_size : Z) : option Mem :=
  b ← lrd m op2 0;
  '(m, r) ← mp_mul1 m result op1 op1_size b 0;
  m ← wr m result op1_size r;
  for_up (Z.to_nat (op2_size - 1)) 1 (fun i m =>
    b ← lrd m op2 i;
    '(m, r) ← mp_add_mul1 m (padd result i) op1 op1_size b;
    wr m result (i + op1_size) r) m.

(** 0, or -1 for a memory error. *)
Definition mp_mul `{FftMul} (m : Mem) (result op1 : ptr) (op1_size : Z) (op2 : ptr) (op2_size : Z) : option (Mem * Z) :=
  if Z.min op1_size op2_size >=? FFT_MUL_THRESHOLD then
    match fft_mul m result op1 op1_size op2 op2_size with Some m => Some (m, 0) | None => Some (m, -1) end
  else m ← mp_mul_basecase m result op1 op1_size op2 op2_size; Some (m, 0).

(** ** Division by one limb *)

Definition udiv1norm_init (d : Z) : Z :=
  let a1 := limb (- d - 1) in
  let a0 := limb (-1) in
  limb (Z.lor (dlimb (Z.shiftl a1 LIMB_BITS)) a0 / d).

(** Quotient and remainder. *)
Definition udiv1norm (a1 a0 d d_inv : Z) : Z * Z :=
  let n1m := limb (Z.shiftr (slimb a0) (LIMB_BITS - 1)) in
  let n_adj := limb (a0 + Z.land n1m d) in
  let a := dlimb (d_inv * limb (a1 - n1m) + n_adj) in
  let q := limb (Z.shiftr a LIMB_BITS + a1) in
  let a := Z.lor (dlimb (Z.shiftl a1 LIMB_BITS)) a0 in
  let a := dlimb (a - q * d - d) in
  let ah := limb (Z.shiftr a LIMB_BITS) in
  let q := limb (q + (1 + ah)) in
  let r := limb (limb a + Z.land ah d) in
  (q, r).

Definition mp_div1norm (m : Mem) (tabr taba : ptr) (n b r : Z) : option (Mem * Z) :=
  if n >=? UDIV1NORM_THRESHOLD then
    let b_inv := udiv1norm_init b in
    for_down (Z.to_nat n) (fun i '(m, r) =>
      x ← lrd m taba i;
      let '(q, r) := udiv1norm r x b b_inv in
      m ← wr m tabr i q;
      Some (m, r)) (m, r)
  else
    for_down (Z.to_nat n) (fun i '(m, r) =>
      x ← lrd m taba i;
      let a1 := Z.lor (dlimb (Z.shiftl r LIMB_BITS)) x in
      m ← wr m tabr i (limb (a1 / b));
      Some (m, limb (a1 mod b))) (m, r).

(** ** Division *)

(** The first quotient digit is 1 unless the highest limbs are smaller. *)
Fixpoint first_quotient (k : nat) (m : Mem) (a tabb : ptr) : option Z :=
  match k with
  | O => Some 1
  | S k' =>
      x ← lrd m a (Z.of_nat k');
      y ← lrd m tabb (Z.of_nat k');
      if negb (x =? y) then Some (if x <? y then 0 else 1) else first_quotient k' m a tabb
  end.

(** The loop for a negative remainder; an estimate is too large by 2 at most. *)
Fixpoint fix_quotient (fuel : nat) (m : Mem) (a tabb : ptr) (nb q : Z) : option (Mem * Z) :=
  match fuel with
  | O => None
  | S fuel' =>
      let q := limb (q - 1) in
      '(m, c) ← mp_add m a a tabb nb 0;
      if negb (c =? 0) then
        v ← lrd m a nb;
        let v := limb (v + 1) in
        m ← wr m a nb v;
        if v =? 0 then Some (m, q) else fix_quotient fuel' m a tabb nb q
      else fix_quotient fuel' m a tabb nb q
  end.

(** One digit of the quotient: [a] is [taba + i]. *)
Definition div_digit (m : Mem) (a tabb : ptr) (nb b1 b1_inv : Z) : option (Mem * Z) :=
  hi ← lrd m a nb;
  q ← (if hi >=? b1 then Some (limb (-1))
       else
         lo ← lrd m a (nb - 1);
         if negb (b1_inv =? 0) then Some (udiv1norm hi lo b1 b1_inv).1
         else Some (limb (Z.lor (dlimb (Z.shiftl hi LIMB_BITS)) lo / b1)));
  '(m, r) ← mp_sub_mul1 m a tabb nb q;
  v ← lrd m a nb;
  let x := limb (v - r) in
  let c := Z.b2z (x >? v) in
  m ← wr m a nb x;
  if negb (c =? 0) then fix_quotient 2 m a tabb nb q else Some (m, q).

Definition divnorm_basecase (m : Mem) (tabq taba tabb : ptr) (na nb : Z) : option Mem :=
  b1 ← lrd m tabb (nb - 1);
  let n := na - nb in
  let b1_inv := if n >=? UDIV1NORM_THRESHOLD then udiv1norm_init b1 else 0 in
  q ← first_quotient (Z.to_nat nb) m (padd taba n) tabb;
  m ← wr m tabq n q;
  m ← (if negb (q =? 0) then '(m, _) ← mp_sub m (padd taba n) (padd taba n) tabb nb 0; Some m else Some m);
  for_down (Z.to_nat n) (fun i m =>
    '(m, q) ← div_digit m (padd taba i) tabb nb b1 b1_inv;
    wr m tabq i q) m.

(** The division with [large] for numbers of many limbs (mp_divnorm_large, which multiplies by
    an approximate inverse and is not modelled); 0, or -1 for a memory error.  The caller
    ensures [nb <= na]. *)
Definition mp_divnorm_with (large : Mem -> ptr -> ptr -> Z -> ptr -> Z -> option (Mem * Z))
    (m : Mem) (tabq taba : ptr) (na : Z) (tabb : ptr) (nb : Z) : option (Mem * Z) :=
  b1 ← lrd m tabb (nb - 1);
  if nb =? 1 then
    '(m, r) ← mp_div1norm m tabq taba na b1 0;
    m ← wr m taba 0 r;
    Some (m, 0)
  else if Z.min (na - nb) nb >=? DIVNORM_LARGE_THRESHOLD then large m tabq taba na tabb nb
  else m ← divnorm_basecase m tabq taba tabb na nb; Some (m, 0).
