(* ===== verification/LimbOk.v ===== *)
(** * Arrays of limbs: memory, carry loops, sums and products

    The value of an array of limbs, when an operation writes an array and nothing else, and
    one lemma on loops with a carry, which gives the sums, the differences and the products
    by one limb; the schoolbook product follows. *)

From stdpp Require Import gmap.
From S2P Require Import Prelude.
From S2P Require Import Limb.

(** ** Values *)

Abbreviation is_limb x := (0 <= x < BASE) (only parsing).

Fixpoint lval (xs : list Z) : Z := match xs with [] => 0 | x :: xs => x + BASE * lval xs end.

Lemma base_two : BASE = 2 * (BASE / 2).
Proof. reflexivity. Qed.
Lemma base_ge : 2 <= BASE.
Proof. by unfold BASE, LIMB_BITS. Qed.
#[global] Opaque BASE.

Lemma limb_small x : is_limb x -> limb x = x.
Proof. intros. unfold limb. by rewrite Z.mod_small. Qed.
Lemma limb_is x : is_limb (limb x).
Proof. apply Z.mod_pos_bound. pose proof base_ge. lia. Qed.
(** A limb and what was carried out of it. *)
Lemma limb_carry x k : 0 <= x - BASE * k < BASE -> limb x = x - BASE * k.
Proof. intros. unfold limb. symmetry. apply (Z.mod_unique x BASE k); lia. Qed.
Lemma dlimb_small x : 0 <= x < BASE ^ 2 -> dlimb x = x.
Proof. intros. unfold dlimb. by rewrite Z.mod_small. Qed.
Lemma shr_limb x : Z.shiftr x LIMB_BITS = x / BASE.
Proof. by rewrite Z.shiftr_div_pow2. Qed.
Lemma base_pow n : 0 <= n -> BASE ^ (1 + n) = BASE * BASE ^ n.
Proof. intros. rewrite Z.pow_add_r, Z.pow_1_r by lia. done. Qed.
Lemma base_pow_pos n : 0 <= n -> 0 < BASE ^ n.
Proof. intros. apply Z.pow_pos_nonneg; [|done]. pose proof base_ge. lia. Qed.

Lemma lval_app xs ys : lval (xs ++ ys) = lval xs + BASE ^ zlen xs * lval ys.
Proof.
  induction xs as [|x xs IH]; [change (lval ys = 0 + 1 * lval ys); lia|].
  cbn [app lval]. rewrite IH, zlen_cons, base_pow by apply zlen_nonneg. lia.
Qed.
Lemma lval_bounds xs : Forall (fun x => is_limb x) xs -> 0 <= lval xs < BASE ^ zlen xs.
Proof.
  induction 1 as [|x xs Hx _ IH]; [change (0 <= 0 < 1); lia|].
  cbn [lval]. rewrite zlen_cons, base_pow by apply zlen_nonneg. nia.
Qed.

(** ** Memory *)

Definition limb_slot (m : Mem) (b o : Z) : Prop := exists l, m !! b = Some l /\ 0 <= o < zlen l.
(** [n] slots that may be written. *)
Definition slots (m : Mem) (p : ptr) (n : Z) : Prop := forall i, 0 <= i < n -> limb_slot m (blk p) (off p + i).
(** The limbs of an array. *)
Definition holds (m : Mem) (p : ptr) (xs : list Z) : Prop := forall i x, znth xs i = Some x -> lrd m p i = Some x.
(** Two arrays that do not overlap. *)
Definition no_overlap (p : ptr) (n : Z) (q : ptr) (k : Z) : Prop :=
  blk p <> blk q \/ off p + n <= off q \/ off q + k <= off p.
(** A loop that writes [r] upwards, or downwards, has read a limb_slot of [p] when it overwrites it. *)
Definition ahead_up (r p : ptr) (n : Z) : Prop := blk r <> blk p \/ off r <= off p \/ off p + n <= off r.
Definition ahead_down (r p : ptr) (n : Z) : Prop := blk r <> blk p \/ off p <= off r \/ off r + n <= off p.
(** [m'] is [m] with the array [zs] at [p]. *)
Record writes (m m' : Mem) (p : ptr) (zs : list Z) : Prop := {
  wr_in : holds m' p zs;
  wr_out : forall b o, b <> blk p \/ o < off p \/ off p + zlen zs <= o -> mload m' b o = mload m b o;
  wr_slot : forall b o, limb_slot m b o -> limb_slot m' b o
}.

Lemma padd_padd p i j : padd (padd p i) j = padd p (i + j).
Proof. unfold padd. cbn. f_equal. lia. Qed.
Lemma padd_0 p : padd p 0 = p.
Proof. destruct p. unfold padd. cbn. f_equal. lia. Qed.
Lemma rd_padd m p i j : lrd m (padd p i) j = lrd m p (i + j).
Proof. unfold lrd, padd. cbn. f_equal. lia. Qed.
Lemma wr_padd m p i j v : wr m (padd p i) j v = wr m p (i + j) v.
Proof. unfold wr, padd. cbn. f_equal. lia. Qed.

Lemma holds_app m p xs ys : holds m p (xs ++ ys) <-> holds m p xs /\ holds m (padd p (zlen xs)) ys.
Proof.
  split.
  - intros H. split; intros i x Hi; pose proof (znth_Some_range _ _ _ Hi).
    + apply H. rewrite znth_app_l by lia. done.
    + rewrite rd_padd. apply H. rewrite znth_app_r by lia. by rewrite Z.add_simpl_l.
  - intros [H1 H2] i x. destruct (Z.lt_ge_cases i (zlen xs)); [rewrite znth_app_l by lia; apply H1|].
    rewrite znth_app_r by lia. intros Hi. apply H2 in Hi. rewrite rd_padd in Hi. rewrite <- Hi. f_equal. lia.
Qed.
Lemma holds_cons m p x xs : holds m p (x :: xs) <-> lrd m p 0 = Some x /\ holds m (padd p 1) xs.
Proof.
  change (x :: xs) with ([x] ++ xs). rewrite holds_app. change (zlen [x]) with 1.
  split; (intros [H ?]; split; [|done]).
  - by apply H.
  - intros i y Hi. pose proof (znth_Some_range _ _ _ Hi) as Hr. change (zlen [x]) with 1 in Hr.
    assert (i = 0) as -> by lia. rewrite znth_cons_0 in Hi. by simplify_eq.
Qed.
Lemma holds_snoc m p x xs : holds m p (xs ++ [x]) <-> holds m p xs /\ lrd m p (zlen xs) = Some x.
Proof.
  rewrite holds_app, holds_cons, rd_padd, Z.add_0_r. split; [tauto|].
  intros [? ?]. do 2 (split; [done|]). intros i y. by rewrite znth_nil.
Qed.
Lemma holds_nil m p : holds m p [].
Proof. intros i x. by rewrite znth_nil. Qed.
Lemma slots_padd m p n i k : slots m p n -> 0 <= i -> i + k <= n -> slots m (padd p i) k.
Proof. intros H Hi Hk j Hj. cbn. rewrite <- Z.add_assoc. apply H. lia. Qed.
Lemma holds_slots m p xs : holds m p xs -> slots m p (zlen xs).
Proof.
  intros H i Hi. destruct (znth_is_Some xs i Hi) as [x Hx]. apply H in Hx. unfold lrd, mload in Hx.
  inv_bind Hx. inv_bind Hx. exists l. split; [done|]. by apply znth_Some_range in E0.
Qed.

Lemma load_store m b o v b' o' m' :
  mstore m b o v = Some m' -> mload m' b' o' = if bool_decide (b' = b /\ o' = o) then Some v else mload m b' o'.
Proof.
  unfold mstore, mload. intros H. inv_bind H. inv_bind H. simplify_eq.
  apply zupd_Some in E0 as [Ho ->]. case_bool_decide as Hb.
  - destruct Hb as [-> ->]. rewrite lookup_insert_eq. cbn. rewrite znth_lookup by lia.
    by rewrite list_lookup_insert_eq by (unfold zlen in Ho; lia).
  - destruct (decide (b' = b)) as [->|]; [|by rewrite lookup_insert_ne].
    rewrite lookup_insert_eq, E. cbn. by rewrite znth_insert_ne by (lia || naive_solver).
Qed.
Lemma slot_store m b o v b' o' m' : mstore m b o v = Some m' -> limb_slot m b' o' -> limb_slot m' b' o'.
Proof.
  unfold mstore. intros H (l' & Hl' & Ho'). inv_bind H. inv_bind H. simplify_eq.
  apply zupd_Some in E0 as [Ho ->]. unfold limb_slot. destruct (decide (b' = b)) as [->|].
  - rewrite lookup_insert_eq. eexists. split; [done|]. simplify_eq. by rewrite zlen_insert.
  - rewrite lookup_insert_ne by done. eauto.
Qed.
(** A write of a limb_slot is defined, and writes an array of one limb. *)
Lemma wr_ok m p i v :
  limb_slot m (blk p) (off p + i) -> exists m', wr m p i v = Some m' /\ writes m m' (padd p i) [v].
Proof.
  intros (l & Hl & Ho). unfold wr. destruct (mstore m (blk p) (off p + i) v) as [m'|] eqn:E.
  - exists m'. split; [done|]. split; [|cbn..].
    + apply holds_cons. split; [|apply holds_nil]. rewrite rd_padd, Z.add_0_r. unfold lrd.
      rewrite (load_store _ _ _ _ _ _ _ E). by rewrite bool_decide_eq_true_2.
    + change (zlen [v]) with 1. intros. rewrite (load_store _ _ _ _ _ _ _ E).
      rewrite bool_decide_eq_false_2; [done|]. intros [-> ->]. lia.
    + eauto using slot_store.
  - exfalso. unfold mstore in E. rewrite Hl in E. cbn in E. by rewrite (zupd_is_Some l) in E.
Qed.

Lemma wr_slots m p n i v :
  slots m p n -> 0 <= i < n -> exists m', wr m p i v = Some m' /\ writes m m' (padd p i) [v].
Proof. intros H Hi. apply wr_ok. by apply H. Qed.

Lemma rd_slot m p i x : lrd m p i = Some x -> limb_slot m (blk p) (off p + i).
Proof.
  intros H. unfold lrd, mload in H. inv_bind H. inv_bind H. exists l. split; [done|]. by apply znth_Some_range in E0.
Qed.
(** A write of a limb that can be read. *)
Lemma wr_rd m p i x v : lrd m p i = Some x -> exists m', wr m p i v = Some m' /\ writes m m' (padd p i) [v].
Proof. intros H. by eapply wr_ok, rd_slot. Qed.

Lemma writes_nil m p : writes m m p [].
Proof. split; [apply holds_nil|done..]. Qed.
Lemma writes_holds m m' p zs : writes m m' p zs -> holds m' p zs.
Proof. by intros []. Qed.
Lemma writes_slots m m' p zs q k : writes m m' p zs -> slots m q k -> slots m' q k.
Proof. intros [_ _ H] Hs i Hi. by apply H, Hs. Qed.
Lemma writes_frame m m' p zs q xs :
  writes m m' p zs -> no_overlap p (zlen zs) q (zlen xs) -> holds m q xs -> holds m' q xs.
Proof.
  intros [_ H _] Ha Hq i x Hi. pose proof (znth_Some_range _ _ _ Hi). apply Hq in Hi. unfold lrd in *.
  rewrite H; [done|]. destruct Ha as [|[|]]; [left; congruence|lia|lia].
Qed.
(** Two writes next to each other, in either order. *)
Lemma writes_app m m1 m2 p zs ws :
  writes m m1 p zs -> writes m1 m2 (padd p (zlen zs)) ws -> writes m m2 p (zs ++ ws).
Proof.
  intros [H1 H2 H3] [K1 K2 K3]. pose proof (zlen_nonneg zs). pose proof (zlen_nonneg ws).
  cbn in K2. split.
  - apply holds_app. split; [|done]. intros i x Hi. pose proof (znth_Some_range _ _ _ Hi).
    unfold lrd. rewrite K2 by lia. by apply H1.
  - rewrite zlen_app. intros b o Ho. rewrite K2 by lia. apply H2. lia.
  - auto.
Qed.
Lemma writes_app_r m m1 m2 p zs ws :
  writes m m1 (padd p (zlen zs)) ws -> writes m1 m2 p zs -> writes m m2 p (zs ++ ws).
Proof.
  intros [H1 H2 H3] [K1 K2 K3]. pose proof (zlen_nonneg zs). pose proof (zlen_nonneg ws).
  cbn in H2. split.
  - apply holds_app. split; [done|]. intros i x Hi. pose proof (znth_Some_range _ _ _ Hi).
    unfold lrd. cbn. rewrite K2 by lia. by apply H1.
  - rewrite zlen_app. intros b o Ho. rewrite K2 by lia. apply H2. lia.
  - auto.
Qed.
Lemma writes_cons m m1 m2 p z zs :
  writes m m1 p [z] -> writes m1 m2 (padd p 1) zs -> writes m m2 p (z :: zs).
Proof. apply (writes_app _ _ _ _ [z]). Qed.

(** ** Loops with a carry *)

Section carry.
Context (f : Z -> Z -> Z -> Z * Z) (inv : Z -> Prop) (s c1 c2 : Z).
(** One step, with weights for the operands and a sign for the carry. *)
Hypothesis f_ok : forall x y k, is_limb x -> is_limb y -> inv k ->
  let '(z, k') := f x y k in
  is_limb z /\ inv k' /\ z + s * BASE * k' = c1 * x + c2 * y + s * k.

Definition carry_body (r p q : ptr) (i : Z) : Mem * Z -> option (Mem * Z) := fun '(m, k) =>
  x ← lrd m p i; y ← lrd m q i; m ← wr m r i (f x y k).1; Some (m, (f x y k).2).

Definition carry_result (m : Mem) (r : ptr) (k : Z) (xs ys : list Z) (out : option (Mem * Z)) : Prop :=
  exists m' zs k', out = Some (m', k') /\ zlen zs = zlen xs /\ Forall (fun z => is_limb z) zs /\ inv k' /\
    writes m m' r zs /\ lval zs + s * BASE ^ zlen xs * k' = c1 * lval xs + c2 * lval ys + s * k.

Lemma carry_loop xs : forall m r p q i ys k,
  zlen ys = zlen xs -> holds m (padd p i) xs -> holds m (padd q i) ys -> slots m (padd r i) (zlen xs) ->
  ahead_up r p (i + zlen xs) -> ahead_up r q (i + zlen xs) -> 0 <= i ->
  Forall (fun x => is_limb x) xs -> Forall (fun x => is_limb x) ys -> inv k ->
  carry_result m (padd r i) k xs ys (for_up (length xs) i (carry_body r p q) (m, k)).
Proof.
  induction xs as [|x xs IH]; intros m r p q i ys k Hl Hx Hy Hr Hp Hq Hi Bx By Hk.
  - destruct ys; [|zlen_lia]. exists m, [], k. cbn [for_up length lval].
    repeat (split; [done || apply writes_nil|]). change (0 + s * 1 * k = c1 * 0 + c2 * 0 + s * k). lia.
  - destruct ys as [|y ys]; [zlen_lia|]. rewrite !zlen_cons in *. pose proof (zlen_nonneg xs).
    apply Forall_cons_1 in Bx as [Bx Bxs], By as [By Bys].
    apply holds_cons in Hx as [Hx Hxs], Hy as [Hy Hys]. rewrite rd_padd, Z.add_0_r in Hx, Hy.
    rewrite padd_padd in Hxs, Hys.
    pose proof (f_ok x y k Bx By Hk) as Hf. destruct (f x y k) as [z k'] eqn:Ef. destruct Hf as (Bz & Hk' & Hz).
    destruct (wr_ok m r i z) as (m1 & E1 & W1). { rewrite <- (Z.add_0_r (_ + i)). apply (Hr 0). lia. }
    cbn [for_up length carry_body]. unfold carry_body at 1. rewrite Hx. cbn [mbind option_bind].
    rewrite Hy. cbn [mbind option_bind]. rewrite Ef. cbn [fst snd]. rewrite E1. cbn [mbind option_bind].
    destruct (IH m1 r p q (i + 1) ys k') as (m2 & zs & k2 & E2 & Lz & Bzs & Hk2 & W2 & V); clear IH.
    all: try done; try lia; try (replace (i + 1 + zlen xs) with (i + (1 + zlen xs)) by lia; done).
    + eapply writes_frame; [done| |done]. change (zlen [z]) with 1. clear -Hp Hi. unfold no_overlap, ahead_up in *. cbn. lia.
    + eapply writes_frame; [done| |done]. change (zlen [z]) with 1. clear -Hq Hl Hi. unfold no_overlap, ahead_up in *. cbn. lia.
    + eapply writes_slots; [done|]. rewrite <- padd_padd. eapply slots_padd; [done|lia|lia].
    + exists m2, (z :: zs), k2. rewrite !zlen_cons. split; [done|]. split; [lia|]. split; [by constructor|].
      split; [done|]. split; [by eapply writes_cons; [|rewrite padd_padd]|].
      cbn [lval]. rewrite base_pow by lia. clear -Hz V. nia.
Qed.
End carry.

Lemma for_up_ext {A} (f g : Z -> A -> option A) k : (forall i s, f i s = g i s) -> forall i s, for_up k i f s = for_up k i g s.
Proof. intros H. induction k as [|k IH]; intros; cbn; [done|]. rewrite H. destruct (g i s); cbn; auto. Qed.

(** What the callers of a loop over [xs] and [ys] that writes [r] provide. *)
Record operands (m : Mem) (r p q : ptr) (xs ys : list Z) : Prop := {
  op_len : zlen ys = zlen xs;
  op_1 : holds m p xs;
  op_2 : holds m q ys;
  op_out : slots m r (zlen xs);
  op_ahead1 : ahead_up r p (zlen xs);
  op_ahead2 : ahead_up r q (zlen xs);
  op_limb1 : Forall (fun x => is_limb x) xs;
  op_limb2 : Forall (fun x => is_limb x) ys
}.

Lemma carry_for f inv s c1 c2 body :
  (forall x y k, is_limb x -> is_limb y -> inv k ->
     let '(z, k') := f x y k in is_limb z /\ inv k' /\ z + s * BASE * k' = c1 * x + c2 * y + s * k) ->
  forall m r p q xs ys k, operands m r p q xs ys -> inv k ->
  (forall i st, body i st = carry_body f r p q i st) ->
  carry_result inv s c1 c2 m r k xs ys (for_up (Z.to_nat (zlen xs)) 0 body (m, k)).
Proof.
  intros Hf m r p q xs ys k [] Hk Hb. rewrite (for_up_ext _ _ _ Hb). unfold zlen. rewrite Nat2Z.id.
  pose proof (carry_loop f inv s c1 c2 Hf xs m r p q 0 ys k) as H. rewrite !padd_0 in H.
  by apply H.
Qed.

(** ** Sums and differences *)

Lemma lor_bits a b : Z.lor (Z.b2z a) (Z.b2z b) = Z.b2z (a || b).
Proof. by destruct a, b. Qed.

Lemma add_step x y k : is_limb x -> is_limb y -> 0 <= k <= 1 ->
  let a := limb (x + y) in
  let k' := Z.lor (Z.b2z (limb (a + k) <? k)) (Z.b2z (a <? x)) in
  is_limb (limb (a + k)) /\ 0 <= k' <= 1 /\ limb (a + k) + 1 * BASE * k' = 1 * x + 1 * y + 1 * k.
Proof.
  intros Hx Hy Hk a k'. pose proof base_ge. split; [apply limb_is|].
  assert (a = x + y \/ a = x + y - BASE) as Ha.
  { unfold a. destruct (Z.lt_ge_cases (x + y) BASE); [left; apply limb_small; lia|right].
    rewrite (limb_carry _ 1); lia. }
  assert (0 <= a < BASE) by apply limb_is.
  assert (limb (a + k) = a + k \/ limb (a + k) = a + k - BASE /\ BASE <= a + k) as Hz.
  { destruct (Z.lt_ge_cases (a + k) BASE); [left; apply limb_small; lia|right].
    rewrite (limb_carry _ 1); lia. }
  unfold k'; clear k'. rewrite lor_bits. generalize dependent (limb (a + k)). clearbody a. intros z Hz.
  destruct (Z.ltb_spec z k), (Z.ltb_spec a x); cbn [orb Z.b2z]; lia.
Qed.

Lemma sub_step x y k : is_limb x -> is_limb y -> 0 <= k <= 1 ->
  let a := limb (x - y) in
  let k' := Z.lor (Z.b2z (limb (a - k) >? a)) (Z.b2z (a >? x)) in
  is_limb (limb (a - k)) /\ 0 <= k' <= 1 /\ limb (a - k) + -1 * BASE * k' = 1 * x + -1 * y + -1 * k.
Proof.
  intros Hx Hy Hk a k'. pose proof base_ge. split; [apply limb_is|].
  assert (a = x - y \/ a = x - y + BASE) as Ha.
  { unfold a. destruct (Z.lt_ge_cases x y); [right|left; apply limb_small; lia].
    rewrite (limb_carry _ (-1)); lia. }
  assert (0 <= a < BASE) by apply limb_is.
  assert (limb (a - k) = a - k \/ limb (a - k) = a - k + BASE /\ a < k) as Hz.
  { destruct (Z.lt_ge_cases a k); [right|left; apply limb_small; lia].
    rewrite (limb_carry _ (-1)); lia. }
  unfold k'; clear k'. rewrite lor_bits. generalize dependent (limb (a - k)). clearbody a. intros z Hz. rewrite !Z.gtb_ltb.
  destruct (Z.ltb_spec a z), (Z.ltb_spec x a); cbn [orb Z.b2z]; lia.
Qed.

Abbreviation is_bit k := (0 <= k <= 1) (only parsing).

Lemma mp_add_run m r p q xs ys k : operands m r p q xs ys -> is_bit k ->
  carry_result (fun k => is_bit k) 1 1 1 m r k xs ys (mp_add m r p q (zlen xs) k).
Proof.
  intros Ho Hk.
  apply (carry_for (fun x y k => let a := limb (x + y) in
    (limb (a + k), Z.lor (Z.b2z (limb (a + k) <? k)) (Z.b2z (a <? x))))) with p q; [|done..|by intros ? []].
  intros. by apply add_step.
Qed.
Lemma mp_sub_run m r p q xs ys k : operands m r p q xs ys -> is_bit k ->
  carry_result (fun k => is_bit k) (-1) 1 (-1) m r k xs ys (mp_sub m r p q (zlen xs) k).
Proof.
  intros Ho Hk.
  apply (carry_for (fun x y k => let a := limb (x - y) in
    (limb (a - k), Z.lor (Z.b2z (limb (a - k) >? a)) (Z.b2z (a >? x))))) with p q; [|done..|by intros ? []].
  intros. by apply sub_step.
Qed.
Lemma mp_neg_run m r q ys k : operands m r q q ys ys -> is_bit k ->
  carry_result (fun k => is_bit k) (-1) 0 (-1) m r k ys ys (mp_neg m r q (zlen ys) k).
Proof.
  intros Ho Hk.
  apply (carry_for (fun _ y k => let a := limb (0 - y) in
    (limb (a - k), Z.lor (Z.b2z (limb (a - k) >? a)) (Z.b2z (a >? 0))))) with q q; [|done..|].
  - intros x y c _ Hy Hc. pose proof base_ge. destruct (sub_step 0 y c ltac:(lia) Hy Hc) as (? & ? & E). split_and!; lia.
  - intros i [m' c]. cbn. by destruct (lrd m' q i).
Qed.

(** The sum and the difference with one limb stop when nothing is carried. *)
Definition ui_result (s : Z) (m : Mem) (p : ptr) (xs : list Z) (k : Z) (out : option (Mem * Z)) : Prop :=
  exists m' zs k', out = Some (m', k') /\ zlen zs = zlen xs /\ Forall (fun z => is_limb z) zs /\ is_limb k' /\
    writes m m' p zs /\ lval zs + s * BASE ^ zlen xs * k' = lval xs + s * k.

Lemma ui_stop s m p xs : holds m p xs -> Forall (fun x => is_limb x) xs -> ui_result s m p xs 0 (Some (m, 0)).
Proof. intros. pose proof base_ge. exists m, xs, 0. split_and!; try done; lia. Qed.
Lemma ui_next s m m1 p x xs z k k' out :
  writes m m1 p [z] -> is_limb z -> z + s * BASE * k' = x + s * k -> ui_result s m1 (padd p 1) xs k' out ->
  ui_result s m p (x :: xs) k out.
Proof.
  intros W Bz Hz (m2 & zs & k2 & -> & L & B & Hk & W2 & V). exists m2, (z :: zs), k2. rewrite !zlen_cons, base_pow by apply zlen_nonneg.
  split; [done|]. split; [lia|]. split; [by constructor|]. split; [done|]. split; [by eapply writes_cons|]. cbn [lval].
  apply (f_equal (Z.mul BASE)) in V. clear -V Hz. lia.
Qed.

Lemma mp_add_ui_loop_run tab xs : forall m k i,
  holds m (padd tab i) xs -> Forall (fun x => is_limb x) xs -> is_limb k ->
  ui_result 1 m (padd tab i) xs k (mp_add_ui_loop (length xs) m tab i k).
Proof.
  induction xs as [|x xs IH]; intros m k i Hx Bx Hk.
  - exists m, [], k. do 4 (split; [done|]). split; [apply writes_nil|]. change (0 + 1 * 1 * k = 0 + 1 * k). lia.
  - cbn [mp_add_ui_loop length]. destruct (Z.eqb_spec k 0) as [->|]; [by apply ui_stop|].
    apply holds_cons in Hx as [Hx Hxs]. apply Forall_cons_1 in Bx as [Bx Bxs]. rewrite rd_padd, Z.add_0_r in Hx.
    rewrite Hx. cbn [mbind option_bind]. cbn zeta.
    destruct (wr_rd m tab i x (limb (x + k)) Hx) as (m1 & E & W). rewrite E. cbn [mbind option_bind].
    pose proof base_ge. eapply ui_next; [done|apply limb_is| |].
    2:{ rewrite padd_padd in *. apply IH; [|done|destruct (_ <? k); cbn; lia].
        eapply writes_frame; [done| |done]. right. left. cbn -[Z.add]. zlen_lia. }
    destruct (Z.lt_ge_cases (x + k) BASE).
    + rewrite limb_small by lia. rewrite (proj2 (Z.ltb_ge _ _)) by lia. cbn [Z.b2z]. lia.
    + rewrite (limb_carry _ 1) by lia. rewrite (proj2 (Z.ltb_lt _ _)) by lia. cbn [Z.b2z]. lia.
Qed.
Lemma mp_sub_ui_loop_run tab xs : forall m k i,
  holds m (padd tab i) xs -> Forall (fun x => is_limb x) xs -> is_limb k ->
  ui_result (-1) m (padd tab i) xs k (mp_sub_ui_loop (length xs) m tab i k).
Proof.
  induction xs as [|x xs IH]; intros m k i Hx Bx Hk.
  - exists m, [], k. do 4 (split; [done|]). split; [apply writes_nil|]. change (0 + -1 * 1 * k = 0 + -1 * k). lia.
  - cbn [mp_sub_ui_loop length].
    apply holds_cons in Hx as [Hx Hxs]. apply Forall_cons_1 in Bx as [Bx Bxs]. rewrite rd_padd, Z.add_0_r in Hx.
    rewrite Hx. cbn [mbind option_bind]. cbn zeta.
    destruct (wr_rd m tab i x (limb (x - k)) Hx) as (m1 & E & W). rewrite E. cbn [mbind option_bind].
    pose proof base_ge. set (k' := Z.b2z (limb (x - k) >? x)).
    assert (holds m1 (padd (padd tab i) 1) xs) as Hx1.
    { eapply writes_frame; [done| |done]. right. left. cbn -[Z.add]. zlen_lia. }
    eapply ui_next with (k' := k'); [done|apply limb_is| |].
    + unfold k'. rewrite Z.gtb_ltb. destruct (Z.lt_ge_cases x k).
      * rewrite (limb_carry _ (-1)) by lia. rewrite (proj2 (Z.ltb_lt _ _)) by lia. cbn [Z.b2z]. lia.
      * rewrite limb_small by lia. rewrite (proj2 (Z.ltb_ge _ _)) by lia. cbn [Z.b2z]. lia.
    + destruct (Z.eqb_spec k' 0) as [->|]; [by apply ui_stop|]. rewrite padd_padd in *.
      apply IH; [done..|]. unfold k'. destruct (_ >? x); cbn; lia.
Qed.

Lemma mp_add_ui_run m tab xs k : holds m tab xs -> Forall (fun x => is_limb x) xs -> is_limb k ->
  ui_result 1 m tab xs k (mp_add_ui m tab k (zlen xs)).
Proof. pose proof (mp_add_ui_loop_run tab xs m k 0) as H. rewrite padd_0 in H. unfold mp_add_ui, zlen. by rewrite Nat2Z.id. Qed.
Lemma mp_sub_ui_run m tab xs k : holds m tab xs -> Forall (fun x => is_limb x) xs -> is_limb k ->
  ui_result (-1) m tab xs k (mp_sub_ui m tab k (zlen xs)).
Proof. pose proof (mp_sub_ui_loop_run tab xs m k 0) as H. rewrite padd_0 in H. unfold mp_sub_ui, zlen. by rewrite Nat2Z.id. Qed.

(** ** Products *)

(** The double limb of [x * b + l + y], and of [y - x * b - l]. *)
Lemma mul_step x b y l : is_limb x -> is_limb b -> is_limb y -> is_limb l ->
  let t := dlimb (x * b + l + y) in
  is_limb (limb t) /\ is_limb (Z.shiftr t LIMB_BITS) /\ limb t + BASE * Z.shiftr t LIMB_BITS = x * b + l + y.
Proof.
  intros Hx Hb Hy Hl t. pose proof base_ge. assert (x * b <= (BASE - 1) * (BASE - 1)) by nia.
  assert (t = x * b + l + y) as Ht by (apply dlimb_small; nia).
  rewrite shr_limb. split; [apply limb_is|]. pose proof (Z.div_mod t BASE). unfold limb.
  split; [|lia]. split; [apply Z.div_pos; nia|]. apply Z.div_lt_upper_bound; nia.
Qed.
Lemma sub_mul_step x b y l : is_limb x -> is_limb b -> is_limb y -> is_limb l ->
  let t := dlimb (y - x * b - l) in
  let l' := limb (- Z.shiftr t LIMB_BITS) in
  is_limb (limb t) /\ is_limb l' /\ limb t - BASE * l' = y - x * b - l.
Proof.
  intros Hx Hb Hy Hl t l'. pose proof base_ge. assert (x * b <= (BASE - 1) * (BASE - 1)) by nia.
  set (u := y - x * b - l) in *. assert (0 <= x * b) by nia.
  assert (- (BASE * (BASE - 1)) <= u < BASE) as Hu by (unfold u; nia).
  pose proof (Z.div_mod u BASE ltac:(lia)) as Hd. pose proof (Z.mod_pos_bound u BASE ltac:(lia)).
  assert (- (BASE - 1) <= u / BASE <= 0) as Hq by nia.
  assert (limb t = u mod BASE) as Et.
  { unfold t, limb, dlimb. rewrite Z.pow_2_r. rewrite Z.rem_mul_r, Z.mul_comm, Z.mod_add, Z.mod_mod by lia. done. }
  assert (l' = - (u / BASE)) as El.
  { unfold l'. rewrite shr_limb. unfold t, dlimb. rewrite Z.pow_2_r, Z.rem_mul_r by lia.
    rewrite (Z.mul_comm BASE (_ mod _)), Z.div_add, (Z.div_small (_ mod _)), Z.add_0_l by lia.
    destruct (Z.eq_dec (u / BASE) 0) as [->|]; [by rewrite Z.mod_0_l by lia; apply limb_small; lia|].
    replace ((u / BASE) mod BASE) with (u / BASE + BASE); [rewrite (limb_carry _ (-1)); lia|].
    rewrite <- (Z.mod_add _ 1), Z.mod_small by lia. lia. }
  rewrite El, Et. lia.
Qed.

Lemma mp_mul1_run m r p xs b l : operands m r p p xs xs -> is_limb b -> is_limb l ->
  carry_result (fun k => is_limb k) 1 b 0 m r l xs xs (mp_mul1 m r p (zlen xs) b l).
Proof.
  intros Ho Hb Hl.
  apply (carry_for (fun x _ l => let t := dlimb (x * b + l) in (limb t, Z.shiftr t LIMB_BITS))) with p p; [|done..|].
  - intros x y k Hx _ Hk. pose proof base_ge. destruct (mul_step x b 0 k) as (? & ? & E); [lia..|].
    rewrite Z.add_0_r in *. split_and!; lia.
  - intros i [m' c]. cbn. by destruct (lrd m' p i).
Qed.
Lemma mp_add_mul1_run m r p xs ys b : operands m r p r xs ys -> is_limb b ->
  carry_result (fun k => is_limb k) 1 b 1 m r 0 xs ys (mp_add_mul1 m r p (zlen xs) b).
Proof.
  intros Ho Hb. pose proof base_ge.
  apply (carry_for (fun x y l => let t := dlimb (x * b + l + y) in (limb t, Z.shiftr t LIMB_BITS))) with p r;
    [|done|lia|by intros ? []].
  intros x y k Hx Hy Hk. destruct (mul_step x b y k) as (? & ? & E); [lia..|]. split_and!; lia.
Qed.
Lemma mp_sub_mul1_run m r p xs ys b : operands m r r p ys xs -> is_limb b ->
  carry_result (fun k => is_limb k) (-1) 1 (- b) m r 0 ys xs (mp_sub_mul1 m r p (zlen ys) b).
Proof.
  intros Ho Hb. pose proof base_ge.
  apply (carry_for (fun y x l => let t := dlimb (y - x * b - l) in (limb t, limb (- Z.shiftr t LIMB_BITS)))) with r p;
    [|done|lia|by intros ? []].
  intros y x k Hy Hx Hk. destruct (sub_mul_step x b y k) as (? & ? & E); [lia..|]. split_and!; lia.
Qed.

(** A later write over the end of an array. *)
Lemma writes_over m m1 m2 p lo hi ws :
  writes m m1 p (lo ++ hi) -> writes m1 m2 (padd p (zlen lo)) ws -> zlen hi <= zlen ws ->
  writes m m2 p (lo ++ ws).
Proof.
  intros [H1 H2 H3] [K1 K2 K3] Hl. apply holds_app in H1 as [H1 _]. rewrite zlen_app in H2.
  pose proof (zlen_nonneg lo). pose proof (zlen_nonneg hi). pose proof (zlen_nonneg ws). cbn in K2. split.
  - apply holds_app. split; [|done]. intros i x Hi. pose proof (znth_Some_range _ _ _ Hi).
    unfold lrd. rewrite K2 by lia. by apply H1.
  - rewrite zlen_app. intros b o Ho. rewrite K2 by lia. apply H2. lia.
  - auto.
Qed.

Lemma split_at {A} (l : list A) i : 0 <= i <= zlen l -> exists lo hi, l = lo ++ hi /\ zlen lo = i.
Proof.
  intros. exists (take (Z.to_nat i) l), (drop (Z.to_nat i) l). rewrite take_drop. split; [done|zlen_lia].
Qed.

(** [m1] is [m] with the product of [xs] and [ys] at [r]. *)
Record product (m m1 : Mem) (r : ptr) (xs ys zs : list Z) : Prop := {
  pr_len : zlen zs = zlen xs + zlen ys;
  pr_limb : Forall (fun x => is_limb x) zs;
  pr_val : lval zs = lval xs * lval ys;
  pr_writes : writes m m1 r zs
}.

Section basecase.
Context (m : Mem) (result op1 op2 : ptr) (xs ys : list Z).
Hypothesis op1_holds : holds m op1 xs.
Hypothesis op2_holds : holds m op2 ys.
Hypothesis result_slots : slots m result (zlen xs + zlen ys).
Hypothesis apart1 : no_overlap result (zlen xs + zlen ys) op1 (zlen xs).
Hypothesis apart2 : no_overlap result (zlen xs + zlen ys) op2 (zlen ys).
Hypothesis limbs1 : Forall (fun x => is_limb x) xs.
Hypothesis limbs2 : Forall (fun x => is_limb x) ys.

Lemma basecase_step m1 ys1 b ys2 zs :
  ys = ys1 ++ b :: ys2 -> product m m1 result xs ys1 zs ->
  exists m2 r m3 zs', lrd m1 op2 (zlen ys1) = Some b /\
    mp_add_mul1 m1 (padd result (zlen ys1)) op1 (zlen xs) b = Some (m2, r) /\
    wr m2 result (zlen ys1 + zlen xs) r = Some m3 /\ product m m3 result xs (ys1 ++ [b]) zs'.
Proof.
  intros Hys [Hl Hb Hv Hw]. rewrite Hys in *. rewrite zlen_app, zlen_cons in *.
  pose proof (zlen_nonneg xs). pose proof (zlen_nonneg ys1). pose proof (zlen_nonneg ys2).
  assert (is_limb b) as Bb. { apply Forall_app in limbs2 as [_ F]. by apply Forall_inv in F. }
  destruct (split_at zs (zlen ys1)) as (lo & hi & -> & Hlo); [lia|].
  rewrite zlen_app in Hl. apply Forall_app in Hb as [Blo Bhi].
  assert (holds m1 (padd result (zlen ys1)) hi) as Hhi.
  { apply writes_holds, holds_app in Hw as [_ Hh]. by rewrite Hlo in Hh. }
  destruct (mp_add_mul1_run m1 (padd result (zlen ys1)) op1 xs hi b)
    as (m2 & hi' & r & E2 & L2 & B2 & Hr & W2 & V2); [split; try done| done|].
  - lia.
  - eapply writes_frame; [done| |done]. rewrite zlen_app. clear -apart1 Hl Hlo H1. unfold no_overlap in *. lia.
  - eapply slots_padd; [by eapply writes_slots|lia|lia].
  - clear -apart1 H H0 H1. unfold no_overlap, ahead_up in *. cbn. lia.
  - right. left. lia.
  - destruct (wr_slots m2 result (zlen xs + (zlen ys1 + (1 + zlen ys2))) (zlen ys1 + zlen xs) r)
      as (m3 & E3 & W3); 
      [by apply (writes_slots _ _ _ _ _ _ W2), (writes_slots _ _ _ _ _ _ Hw)|lia|].
    exists m2, r, m3, (lo ++ hi' ++ [r]). assert (zlen [r] = 1) as Lr by done. split; [|split; [done|split; [done|split]]].
    + assert (holds m1 op2 (ys1 ++ b :: ys2)) as Hh.
      { eapply writes_frame; [done| |done]. rewrite !zlen_app, zlen_cons. clear -apart2 Hl Hlo H1. unfold no_overlap in *. lia. }
      apply holds_app in Hh as [_ Hh]. apply holds_cons in Hh as [Hh _]. by rewrite rd_padd, Z.add_0_r in Hh.
    + rewrite !zlen_app, Lr. change (zlen [b]) with 1. lia.
    + apply Forall_app. split; [done|]. apply Forall_app. split; [done|]. by apply Forall_singleton.
    + rewrite lval_app in Hv. rewrite !lval_app, Hlo, L2. cbn [lval]. rewrite Hlo in Hv.
      replace (zlen hi) with (zlen xs) in * by lia. nia.
    + eapply writes_over; [done| |rewrite zlen_app, Lr; lia]. rewrite Hlo. eapply writes_app; [done|].
      rewrite padd_padd. by rewrite L2.
Qed.

Lemma basecase_loop ys2 : forall m1 ys1 zs,
  ys = ys1 ++ ys2 -> product m m1 result xs ys1 zs ->
  exists m2 zs', for_up (length ys2) (zlen ys1) (fun i m =>
    b ← lrd m op2 i;
    '(m, r) ← mp_add_mul1 m (padd result i) op1 (zlen xs) b;
    wr m result (i + zlen xs) r) m1 = Some m2 /\ product m m2 result xs ys zs'.
Proof.
  induction ys2 as [|b ys2 IH]; intros m1 ys1 zs Hys Hp.
  - rewrite app_nil_r in Hys. subst ys1. eauto.
  - destruct (basecase_step m1 ys1 b ys2 zs Hys Hp) as (m2 & r & m3 & zs' & E1 & E2 & E3 & Hp').
    cbn [for_up length]. rewrite E1. cbn [mbind option_bind]. rewrite E2. cbn [mbind option_bind].
    rewrite E3. cbn [mbind option_bind]. specialize (IH m3 (ys1 ++ [b]) zs').
    rewrite zlen_app, <- app_assoc in IH. by apply IH.
Qed.

Lemma basecase_run : ys <> [] ->
  exists m' zs, mp_mul_basecase m result op1 (zlen xs) op2 (zlen ys) = Some m' /\ product m m' result xs ys zs.
Proof.
  intros Hne. assert (exists b ys2, ys = b :: ys2) as (b & ys2 & Hys) by (destruct ys; [done|eauto]). pose proof (zlen_nonneg xs). pose proof (zlen_nonneg ys2).
  assert (zlen ys = 1 + zlen ys2) as Hl by (rewrite Hys; apply zlen_cons).
  assert (lrd m op2 0 = Some b) as E0. { pose proof op2_holds as Hh. rewrite Hys in Hh. by apply holds_cons in Hh as [? _]. }
  assert (is_limb b) as Bb. { pose proof limbs2 as F. rewrite Hys in F. by apply Forall_inv in F. }
  unfold mp_mul_basecase. rewrite E0. cbn [mbind option_bind]. pose proof base_ge.
  destruct (mp_mul1_run m result op1 xs b 0) as (m1 & zs & r & E1 & L1 & B1 & Hr & W1 & V1); [split; try done|done|lia|].
  - intros i Hi. apply result_slots. lia.
  - clear -apart1 H H0 Hl. unfold no_overlap, ahead_up in *. lia.
  - clear -apart1 H H0 Hl. unfold no_overlap, ahead_up in *. lia.
  - rewrite E1. cbn [mbind option_bind].
    destruct (wr_slots m1 result (zlen xs + zlen ys) (zlen xs) r) as (m2 & E2 & W2); [by eapply writes_slots|lia|].
    rewrite E2. cbn [mbind option_bind]. replace (Z.to_nat (zlen ys - 1)) with (length ys2) by (unfold zlen in *; lia).
    apply (basecase_loop ys2 m2 [b] (zs ++ [r])); [done|]. split.
    + rewrite zlen_app, L1. done.
    + apply Forall_app. split; [done|]. by apply Forall_singleton.
    + rewrite lval_app, L1. cbn [lval]. nia.
    + eapply writes_app; [done|]. by rewrite L1.
Qed.
End basecase.

Lemma writes_again m m1 m2 p zs ws :
  writes m m1 p zs -> writes m1 m2 p ws -> zlen zs <= zlen ws -> writes m m2 p ws.
Proof. intros. eapply (writes_over m m1 m2 p [] zs ws); [done| |done]. change (zlen []) with 0. by rewrite padd_0. Qed.
Lemma rd_frame m m' p zs i : writes m m' p zs -> i < 0 \/ zlen zs <= i -> lrd m' p i = lrd m p i.
Proof. intros [_ H _] Hi. unfold lrd. apply H. lia. Qed.
(** ** Comparison *)

(** The highest limbs decide when they differ. *)
Lemma lval_compare xs ys x y :
  Forall (fun x => is_limb x) xs -> Forall (fun x => is_limb x) ys -> zlen xs = zlen ys ->
  (lval (xs ++ [x]) ?= lval (ys ++ [y])) = if x =? y then lval xs ?= lval ys else x ?= y.
Proof.
  intros Bx By Hl. apply lval_bounds in Bx, By. rewrite !lval_app, Hl. cbn [lval]. rewrite Hl in Bx.
  set (P := BASE ^ zlen ys) in *. rewrite !Z.mul_0_r, !Z.add_0_r. destruct (Z.eqb_spec x y) as [->|Hne].
  - destruct (Z.compare_spec (lval xs) (lval ys)); [apply Z.compare_eq_iff|apply Z.compare_lt_iff|apply Z.compare_gt_iff]; lia.
  - destruct (Z.compare_spec x y); [done|apply Z.compare_lt_iff|apply Z.compare_gt_iff]; nia.
Qed.

Definition sign_of (c : comparison) : Z := match c with Eq => 0 | Lt => -1 | Gt => 1 end.

Lemma mp_cmp_run m p q xs : forall ys, zlen xs = zlen ys -> holds m p xs -> holds m q ys ->
  Forall (fun x => is_limb x) xs -> Forall (fun x => is_limb x) ys ->
  mp_cmp m p q (zlen xs) = Some (sign_of (lval xs ?= lval ys)).
Proof.
  unfold mp_cmp. replace (Z.to_nat (zlen xs)) with (length xs) by (unfold zlen; lia).
  induction xs as [|x xs IH] using rev_ind; intros ys Hl Hx Hy Bx By.
  - destruct ys; [done|zlen_lia].
  - destruct ys as [|y ys _] using rev_ind; [zlen_lia|]. rewrite !zlen_app in Hl. change (zlen [_]) with 1 in Hl.
    assert (zlen xs = zlen ys) as Hl' by (change (zlen [y]) with 1 in Hl; lia).
    apply holds_snoc in Hx as [Hx Ex], Hy as [Hy Ey]. apply Forall_app in Bx as [Bx _], By as [By _].
    rewrite length_app, Nat.add_1_r. cbn [mp_cmp_loop]. change (Z.of_nat (length xs)) with (zlen xs).
    rewrite Ex, Hl', Ey. cbn [mbind option_bind]. rewrite lval_compare by done.
    destruct (Z.eqb_spec x y); cbn [negb]; [by apply IH|].
    destruct (Z.ltb_spec x y), (Z.compare_spec x y); done || lia.
Qed.

(** ** The functions of the interface *)

(** [m'] differs from [m] inside two arrays only. *)
Record only (m m' : Mem) (p : ptr) (n : Z) (q : ptr) (k : Z) : Prop := {
  only_load : forall b o, (b <> blk p \/ o < off p \/ off p + n <= o) ->
    (b <> blk q \/ o < off q \/ off q + k <= o) -> mload m' b o = mload m b o;
  only_slot : forall b o, limb_slot m b o -> limb_slot m' b o
}.

(** Arrays in a block of a concrete memory. *)
Lemma holds_block m p xs a c : m !! blk p = Some (a ++ (Some <$> xs) ++ c) -> zlen a = off p -> holds m p xs.
Proof.
  intros Hm Ha i x Hi. pose proof (znth_Some_range _ _ _ Hi). unfold lrd, mload. rewrite Hm. cbn [mbind option_bind].
  rewrite znth_app_r by lia. replace (off p + i - zlen a) with i by lia.
  rewrite znth_app_l by (unfold zlen in *; rewrite length_fmap; lia).
  rewrite znth_lookup in Hi by lia. rewrite znth_lookup by lia. by rewrite list_lookup_fmap, Hi.
Qed.
Lemma slots_block m p n l : m !! blk p = Some l -> 0 <= off p -> off p + n <= zlen l -> slots m p n.
Proof. intros Hm Hp Hn i Hi. exists l. split; [done|lia]. Qed.

(** C22: mp_mul on arrays below the threshold of the transform writes the product of
    the two numbers into the result, of the sum of their lengths, and nothing else. *)
Theorem mp_mul_correct `{FftMul} m result op1 op2 xs ys :
  holds m op1 xs -> holds m op2 ys -> ys <> [] -> Z.min (zlen xs) (zlen ys) < FFT_MUL_THRESHOLD ->
  slots m result (zlen xs + zlen ys) ->
  no_overlap result (zlen xs + zlen ys) op1 (zlen xs) -> no_overlap result (zlen xs + zlen ys) op2 (zlen ys) ->
  Forall (fun x => is_limb x) xs -> Forall (fun x => is_limb x) ys ->
  exists m' zs, mp_mul m result op1 (zlen xs) op2 (zlen ys) = Some (m', 0) /\
    zlen zs = zlen xs + zlen ys /\ Forall (fun x => is_limb x) zs /\
    lval zs = lval xs * lval ys /\ writes m m' result zs.
Proof.
  intros. unfold mp_mul. rewrite Z.geb_leb, (proj2 (Z.leb_gt _ _)) by done.
  destruct (basecase_run m result op1 op2 xs ys) as (m' & zs & -> & []); eauto 10.
Qed.

Section demo.
Local Instance no_fft : FftMul := fun _ _ _ _ _ _ => None.
Definition mul_demo : Mem :=
  {[ 1 := Some <$> [BASE - 1; BASE - 2]; 2 := Some <$> [BASE - 1]; 3 := replicate 3 None ]}.
Definition mul_demo_xs : list Z := [BASE - 1; BASE - 2].
Definition mul_demo_ys : list Z := [BASE - 1].

Theorem mp_mul_correct_witness :
  exists m' zs, mp_mul mul_demo (mk_ptr 3 0) (mk_ptr 1 0) 2 (mk_ptr 2 0) 1 = Some (m', 0) /\
    lval zs = ((BASE - 1) + BASE * (BASE - 2)) * (BASE - 1) /\ writes mul_demo m' (mk_ptr 3 0) zs.
Proof.
  destruct (mp_mul_correct mul_demo (mk_ptr 3 0) (mk_ptr 1 0) (mk_ptr 2 0) mul_demo_xs mul_demo_ys)
    as (m' & zs & E & _ & _ & V & W).
  - by apply (holds_block _ _ _ [] []).
  - by apply (holds_block _ _ _ [] []).
  - done.
  - done.
  - by eapply slots_block.
  - by left.
  - by left.
  - by repeat constructor.
  - by repeat constructor.
  - exists m', zs. split; [exact E|]. split; [|exact W]. rewrite V. unfold mul_demo_xs, mul_demo_ys. cbn [lval]. lia.
Defined.
End demo.
