(* ===== verification/LimbDiv.v ===== *)
(** * Division of arrays of limbs

    The division of two limbs by one with a precomputed inverse, the division of an array by
    one limb, and the schoolbook division: its estimates of a digit are at most 2 too large,
    and what the code returns is the quotient and the remainder. *)

From stdpp Require Import gmap.
From S2P Require Import Prelude.
From S2P Require Import Limb.
From S2P Require Import LimbOk.

(** ** Two limbs by one *)

(** The estimate from the inverse [M] is at most one too small. *)
Lemma estimate_low B d M a1 a0 q :
  d < B <= 2 * d -> 0 <= a1 < d -> 0 <= a0 -> 2 * a0 < B -> M * d < B * B -> B * B <= M * d + d ->
  B * q <= M * a1 + a0 < B * q + B -> 0 <= a1 * B + a0 - q * d < 2 * d.
Proof.
  intros Hd H1 H0 H0' HM1 HM2 Hq. set (e := B * B - M * d) in *. assert (1 <= e <= d) by lia.
  assert (0 <= B * (a1 * B + a0 - q * d) < B * (2 * d)); [|nia].
  assert (d * (B * q) <= d * (M * a1 + a0) < d * (B * q + B)) as Hdq by nia.
  replace (d * (M * a1 + a0)) with (B * B * a1 - e * a1 + a0 * d) in Hdq by (unfold e; ring).
  assert (0 <= e * a1 <= d * (d - 1)) by nia. assert (0 <= 2 * (a0 * (B - d)) <= B * (B - d)) by nia.
  assert (d * (d - 1) + a0 * (B - d) + d * (B - 1) < 2 * (B * d)); [|split; nia].
  assert (a0 * (B - d) <= d * (B - d)) by nia. nia.
Qed.
Lemma estimate_high B d M a1 a0 q :
  d < B <= 2 * d -> 0 <= a1 < d -> a0 < B <= 2 * a0 -> M * d < B * B -> B * B <= M * d + d ->
  B * q <= M * (a1 + 1) + a0 + d - 2 * B < B * q + B -> 0 <= a1 * B + a0 - q * d < 2 * d.
Proof.
  intros Hd H1 H0 HM1 HM2 Hq. set (e := B * B - M * d) in *. assert (1 <= e <= d) by lia.
  assert (0 <= B * (a1 * B + a0 - q * d) < B * (2 * d)); [|nia].
  assert (d * (B * q) <= d * (M * (a1 + 1) + a0 + d - 2 * B) < d * (B * q + B)) as Hdq by nia.
  replace (d * (M * (a1 + 1) + a0 + d - 2 * B)) with (B * B * (a1 + 1) - e * (a1 + 1) + a0 * d + d * d - 2 * (B * d))
    in Hdq by (unfold e; ring).
  assert (0 <= e * (a1 + 1) <= d * d) by nia.
  assert (0 <= (a0 - (B - d)) * (B - d) <= (d - 1) * (B - d)) by nia. split; nia.
Qed.

(** The remainder fixes the estimate. *)
Lemma estimate_fix N d q : 0 < d -> 0 <= N - q * d < 2 * d ->
  N / d = q + (if N - q * d <? d then 0 else 1) /\ N mod d = N - q * d - (if N - q * d <? d then 0 else d).
Proof.
  intros Hd Hq. destruct (Z.ltb_spec (N - q * d) d).
  - rewrite <- (Z.div_unique_pos N d q (N - q * d)), <- (Z.mod_unique_pos N d q (N - q * d)) by lia. lia.
  - rewrite <- (Z.div_unique_pos N d (q + 1) (N - q * d - d)), <- (Z.mod_unique_pos N d (q + 1) (N - q * d - d)) by lia. lia.
Qed.

Lemma base_def : BASE = 2 ^ LIMB_BITS.
Proof. reflexivity. Qed.
Lemma join_limbs a b : is_limb a -> is_limb b -> Z.lor (dlimb (Z.shiftl a LIMB_BITS)) b = a * BASE + b.
Proof.
  intros Ha Hb. rewrite dlimb_small, lor_shiftl_add; rewrite ?Z.shiftl_mul_pow2; rewrite <- ?base_def; try done.
  rewrite Z.pow_2_r. nia.
Qed.
Lemma land_all d : is_limb d -> Z.land (BASE - 1) d = d.
Proof. intros. rewrite Z.land_comm, (land_mask d (BASE - 1) LIMB_BITS), <- base_def by done. by apply Z.mod_small. Qed.
Lemma limb_neg x : 0 < x <= BASE -> limb (- x) = BASE - x.
Proof. intros. rewrite (limb_carry _ (-1)); lia. Qed.

(** The sign of a limb as a mask. *)
Lemma sign_mask a : is_limb a -> limb (Z.shiftr (slimb a) (LIMB_BITS - 1)) = if 2 * a <? BASE then 0 else BASE - 1.
Proof.
  intros Ha. pose proof base_ge. pose proof base_two. rewrite Z.shiftr_div_pow2 by done. unfold slimb.
  replace (2 ^ (LIMB_BITS - 1)) with (BASE / 2) by done.
  destruct (Z.ltb_spec a (BASE / 2)), (Z.ltb_spec (2 * a) BASE); try lia.
  - rewrite Z.div_small by lia. apply limb_small. lia.
  - replace ((a - BASE) / (BASE / 2)) with (- (1)); [apply limb_neg; lia|].
    apply (Z.div_unique _ _ _ (a - BASE / 2)); lia.
Qed.

(** The inverse with its highest bit. *)
Lemma udiv1norm_init_ok d : d < BASE <= 2 * d ->
  let M := udiv1norm_init d + BASE in
  is_limb (udiv1norm_init d) /\ M * d < BASE * BASE /\ BASE * BASE <= M * d + d.
Proof.
  intros Hd M. pose proof base_ge. set (N := (BASE - d - 1) * BASE + (BASE - 1)).
  assert (udiv1norm_init d = N / d) as E.
  { unfold udiv1norm_init. rewrite (limb_carry (- d - 1) (-1)), (limb_carry (-1) (-1)), join_limbs by lia.
    replace ((- d - 1 - BASE * -1) * BASE + (-1 - BASE * -1)) with N by (unfold N; lia). apply limb_small. unfold N.
    split; [apply Z.div_pos; nia|]. apply Z.div_lt_upper_bound; nia. }
  unfold M. rewrite E. pose proof (Z.div_mod N d ltac:(lia)). pose proof (Z.mod_pos_bound N d ltac:(lia)).
  split; [|unfold N in *; nia]. rewrite <- E. apply limb_is.
Qed.

(** The estimate the code computes. *)
Definition estimate (a1 a0 d d_inv : Z) : Z :=
  let n1m := limb (Z.shiftr (slimb a0) (LIMB_BITS - 1)) in
  let n_adj := limb (a0 + Z.land n1m d) in
  let a := dlimb (d_inv * limb (a1 - n1m) + n_adj) in
  limb (Z.shiftr a LIMB_BITS + a1).

Lemma estimate_ok d a1 a0 : d < BASE <= 2 * d -> 0 <= a1 < d -> is_limb a0 ->
  let q := estimate a1 a0 d (udiv1norm_init d) in
  is_limb q /\ 0 <= a1 * BASE + a0 - q * d < 2 * d.
Proof.
  intros Hd H1 H0. destruct (udiv1norm_init_ok d Hd) as (Hv & HM1 & HM2). set (v := udiv1norm_init d) in *.
  cbn zeta. pose proof base_ge.
  assert (exists A, estimate a1 a0 d v = limb (A / BASE + a1) /\ 0 <= A < BASE ^ 2 /\
    0 <= a1 * BASE + a0 - (A / BASE + a1) * d < 2 * d) as (A & -> & HA & HN).
  { unfold estimate. rewrite sign_mask by done. cbn zeta. destruct (Z.ltb_spec (2 * a0) BASE).
    - rewrite Z.land_0_l, Z.add_0_r, Z.sub_0_r, (limb_small a0), (limb_small a1), dlimb_small, shr_limb by (lia || nia).
      exists (v * a1 + a0). split; [done|]. split; [nia|]. apply (estimate_low BASE d (v + BASE)); try lia.
      pose proof (Z.div_mod (v * a1 + a0) BASE ltac:(lia)). pose proof (Z.mod_pos_bound (v * a1 + a0) BASE ltac:(lia)). lia.
    - rewrite land_all by lia. rewrite (limb_carry (a0 + d) 1), (limb_carry (a1 - _) (-1)) by lia.
      replace (a1 - (BASE - 1) - BASE * -1) with (a1 + 1) by lia. rewrite Z.mul_1_r.
      rewrite dlimb_small, shr_limb by nia.
      exists (v * (a1 + 1) + (a0 + d - BASE)). split; [done|]. split; [nia|].
      apply (estimate_high BASE d (v + BASE)); try lia. set (A := v * (a1 + 1) + (a0 + d - BASE)).
      pose proof (Z.div_mod A BASE ltac:(lia)). pose proof (Z.mod_pos_bound A BASE ltac:(lia)). unfold A in *. lia. }
  assert (0 <= A / BASE) by (apply Z.div_pos; lia). set (q := A / BASE + a1) in *.
  assert (q < BASE).
  { destruct (Z.lt_ge_cases q BASE); [done|]. assert (BASE * d <= q * d) by nia.
    assert (a1 * BASE <= (d - 1) * BASE) by nia. lia. }
  rewrite limb_small by lia. split; [lia|done].
Qed.

(** Quotient and remainder of two limbs. *)
Lemma udiv1norm_ok d a1 a0 : d < BASE <= 2 * d -> 0 <= a1 < d -> is_limb a0 ->
  udiv1norm a1 a0 d (udiv1norm_init d) = ((a1 * BASE + a0) / d, (a1 * BASE + a0) mod d).
Proof.
  intros Hd H1 H0. destruct (estimate_ok d a1 a0 Hd H1 H0) as [Bq Hq]. unfold udiv1norm. cbn zeta.
  fold (estimate a1 a0 d (udiv1norm_init d)). set (q := estimate a1 a0 d _) in *. pose proof base_ge.
  rewrite join_limbs by lia. set (N := a1 * BASE + a0) in *.
  destruct (estimate_fix N d q ltac:(lia) Hq) as [-> ->].
  destruct (Z.ltb_spec (N - q * d) d).
  - assert (dlimb (N - q * d - d) = (BASE - 1) * BASE + (N - q * d - d + BASE)) as ->.
    { unfold dlimb. symmetry. apply (Z.mod_unique_pos _ _ (-1)); rewrite Z.pow_2_r; nia. }
    rewrite shr_limb, Z.div_add_l, (Z.div_small (_ + BASE)), Z.add_0_r, (limb_small (BASE - 1)), land_all by lia.
    f_equal; [rewrite (limb_carry _ 1); lia|].
    rewrite (limb_carry ((BASE - 1) * BASE + _) (BASE - 1)), (limb_carry _ 1); lia.
  - assert (dlimb (N - q * d - d) = N - q * d - d) as -> by (apply dlimb_small; rewrite Z.pow_2_r; nia).
    rewrite shr_limb, Z.div_small, (limb_small 0), Z.land_0_l, !Z.add_0_r by lia.
    f_equal; [apply limb_small; unfold N in *; nia|]. rewrite !limb_small; rewrite ?limb_small; lia.
Qed.

(** ** An array by one limb *)

Lemma for_down_ext {A} (f g : Z -> A -> option A) k : (forall i s, f i s = g i s) -> forall s, for_down k f s = for_down k g s.
Proof. intros H. induction k as [|k IH]; intros; cbn; [done|]. rewrite H. destruct (g _ s); cbn; auto. Qed.

Section div1.
Context (d : Z) (f : Z -> Z -> Z * Z).
Hypothesis d_norm : d < BASE <= 2 * d.
Hypothesis f_ok : forall r x, 0 <= r < d -> is_limb x -> f r x = ((r * BASE + x) / d, (r * BASE + x) mod d).

Definition div1_body (tabr taba : ptr) (i : Z) : Mem * Z -> option (Mem * Z) := fun '(m, r) =>
  x ← lrd m taba i; m ← wr m tabr i (f r x).1; Some (m, (f r x).2).

Definition div1_result (m : Mem) (tabr : ptr) (xs : list Z) (r : Z) (out : option (Mem * Z)) : Prop :=
  exists m' zs r', out = Some (m', r') /\ zlen zs = zlen xs /\ Forall (fun z => is_limb z) zs /\ 0 <= r' < d /\
    writes m m' tabr zs /\ lval xs + BASE ^ zlen xs * r = lval zs * d + r'.

Lemma div1_loop xs : forall m tabr taba r,
  holds m taba xs -> slots m tabr (zlen xs) -> ahead_down tabr taba (zlen xs) ->
  Forall (fun x => is_limb x) xs -> 0 <= r < d ->
  div1_result m tabr xs r (for_down (length xs) (div1_body tabr taba) (m, r)).
Proof.
  induction xs as [|x xs IH] using rev_ind; intros m tabr taba r Hx Hs Ha Bx Hr.
  - exists m, [], r. do 2 (split; [done|]). split; [done|]. split; [done|]. split; [apply writes_nil|].
    change (0 + 1 * r = 0 * d + r). lia.
  - apply holds_snoc in Hx as [Hx Ex]. apply Forall_app in Bx as [Bx Bl]. apply Forall_inv in Bl.
    rewrite length_app, Nat.add_1_r. rewrite zlen_app in *. change (zlen [x]) with 1 in *.
    pose proof (zlen_nonneg xs). pose proof base_ge.
    cbn [for_down]. change (Z.of_nat (length xs)) with (zlen xs).
    set (N := r * BASE + x). set (q := N / d). pose proof (Z.div_mod N d ltac:(lia)) as HN. fold q in HN.
    pose proof (Z.mod_pos_bound N d ltac:(lia)) as Hm.
    assert (is_limb q). { split; [apply Z.div_pos; unfold N; nia|]. apply Z.div_lt_upper_bound; unfold N; nia. }
    destruct (wr_slots m tabr _ (zlen xs) q Hs) as (m1 & E1 & W1); [lia|].
    assert (div1_body tabr taba (zlen xs) (m, r) = Some (m1, N mod d)) as ->.
    { unfold div1_body. rewrite Ex. cbn [mbind option_bind]. rewrite (f_ok r x Hr Bl). cbn [fst snd].
      fold N. fold q. by rewrite E1. }
    cbn [mbind option_bind].
    destruct (IH m1 tabr taba (N mod d)) as (m2 & zs & r' & E2 & L2 & B2 & Hr' & W2 & V2); clear IH; try done.
    + eapply writes_frame; [done| |done]. change (zlen [q]) with 1. clear -Ha. unfold no_overlap, ahead_down in *. cbn. lia.
    + eapply writes_slots; [done|]. intros i Hi. apply Hs. lia.
    + clear -Ha H. unfold ahead_down in *. lia.
    + exists m2, (zs ++ [q]), r'. rewrite !zlen_app. change (zlen [q]) with 1. change (zlen [x]) with 1.
      split; [done|]. split; [lia|]. split; [apply Forall_app; split; [done|by apply Forall_singleton]|].
      split; [done|]. split; [eapply writes_app_r; [by rewrite L2|done]|].
      replace (zlen xs + 1) with (1 + zlen xs) by lia. rewrite !lval_app, L2, base_pow by lia. cbn [lval].
      apply (f_equal (Z.mul (BASE ^ zlen xs))) in HN. unfold N at 1 in HN. clear -HN V2. lia.
Qed.
End div1.

Lemma mp_div1norm_run d m tabr taba xs r : d < BASE <= 2 * d ->
  holds m taba xs -> slots m tabr (zlen xs) -> ahead_down tabr taba (zlen xs) ->
  Forall (fun x => is_limb x) xs -> 0 <= r < d ->
  div1_result d m tabr xs r (mp_div1norm m tabr taba (zlen xs) d r).
Proof.
  intros Hd Hx Hs Ha Bx Hr. unfold mp_div1norm. replace (Z.to_nat (zlen xs)) with (length xs) by (unfold zlen; lia).
  destruct (zlen xs >=? _).
  - cbn zeta. erewrite for_down_ext; [apply (div1_loop d (fun r x => udiv1norm r x d (udiv1norm_init d))); try done|].
    + intros. by apply udiv1norm_ok.
    + intros i [m' r']. cbn. destruct (lrd m' taba i) as [x|]; [|done]. cbn. by destruct (udiv1norm r' x d (udiv1norm_init d)).
  - apply (div1_loop d (fun r x => let a1 := Z.lor (dlimb (Z.shiftl r LIMB_BITS)) x in (limb (a1 / d), limb (a1 mod d))));
      try done.
    intros r' x Hr' Hx'. cbn zeta. pose proof (Z.mod_pos_bound (r' * BASE + x) d ltac:(lia)).
    rewrite join_limbs, (limb_small (_ mod _)) by lia. f_equal. apply limb_small.
    split; [apply Z.div_pos; nia|]. apply Z.div_lt_upper_bound; nia.
Qed.
(** ** Knuth's division *)

(** The estimate from the highest limbs is at most 2 too large. *)
Lemma digit_estimate B P b1 v0 hi lo u0 q :
  0 < P -> 0 <= v0 < P -> b1 < B <= 2 * b1 -> 0 <= lo < B -> 0 <= hi -> 0 <= u0 < P ->
  (hi * B + lo) * P + u0 < B * (b1 * P + v0) ->
  q = (if hi >=? b1 then B - 1 else (hi * B + lo) / b1) ->
  0 <= q < B /\ - (2 * (b1 * P + v0)) <= (hi * B + lo) * P + u0 - q * (b1 * P + v0) < b1 * P + v0.
Proof.
  intros HP Hv Hb Hlo Hhi Hu HU Hq. set (N := hi * B + lo) in *. set (V := b1 * P + v0) in *.
  assert (B * P <= 2 * V) by (unfold V; nia).
  assert (0 <= q < B /\ q * b1 <= N /\ N * P + u0 - q * V < V) as (Bq & Hl & Hr).
  { rewrite Z.geb_leb in Hq. destruct (Z.leb_spec b1 hi); subst q.
    - split; [lia|]. split; [unfold N; nia|lia].
    - assert (N < b1 * B) by (unfold N; nia). pose proof (Z.div_mod N b1 ltac:(lia)) as Hd.
      pose proof (Z.mod_pos_bound N b1 ltac:(lia)). split; [split; [apply Z.div_pos; unfold N; nia|]|].
      + apply Z.div_lt_upper_bound; lia.
      + split; [lia|]. set (k := N / b1) in *. assert (N + 1 <= (k + 1) * b1) by lia.
        assert ((N + 1) * P <= (k + 1) * b1 * P) by nia. unfold V. assert (0 <= k) by (apply Z.div_pos; unfold N; nia). nia. }
  split; [done|]. split; [|done].
  assert (q * b1 * P <= N * P) by nia. assert (q * v0 <= B * P) by nia. unfold V in *. nia.
Qed.

(** The first digit is 1 unless the highest limbs are a smaller number. *)
Lemma first_quotient_run m a q xs : forall ys, zlen xs = zlen ys -> holds m a xs -> holds m q ys ->
  Forall (fun x => is_limb x) xs -> Forall (fun x => is_limb x) ys ->
  first_quotient (length xs) m a q = Some (if lval xs <? lval ys then 0 else 1).
Proof.
  induction xs as [|x xs IH] using rev_ind; intros ys Hl Hx Hy Bx By.
  - destruct ys; [done|zlen_lia].
  - destruct ys as [|y ys _] using rev_ind; [zlen_lia|].
    assert (zlen xs = zlen ys) as Hl' by zlen_lia.
    apply holds_snoc in Hx as [Hx Ex], Hy as [Hy Ey]. apply Forall_app in Bx as [Bx _], By as [By _].
    rewrite length_app, Nat.add_1_r. cbn [first_quotient]. change (Z.of_nat (length xs)) with (zlen xs).
    rewrite Ex, Hl', Ey. cbn [mbind option_bind]. unfold Z.ltb at 2. rewrite lval_compare by done.
    destruct (Z.eqb_spec x y); cbn [negb]; [by apply IH|]. unfold Z.ltb. by destruct (x ?= y).
Qed.

Section divnorm.
Context (tabb : ptr) (bs0 : list Z) (b1 : Z).
Let bs := bs0 ++ [b1].
Let nb := zlen bs.
Let V := lval bs.
Hypothesis b_limbs : Forall (fun x => is_limb x) bs.
Hypothesis b1_norm : BASE <= 2 * b1.

Lemma nb_pos : nb = zlen bs0 + 1 /\ 0 <= zlen bs0.
Proof using. unfold nb, bs. rewrite zlen_app. split; [done|apply zlen_nonneg]. Qed.
Lemma V_eq : V = lval bs0 + BASE ^ zlen bs0 * b1.
Proof using. unfold V, bs. rewrite lval_app. cbn [lval]. lia. Qed.
Lemma b1_limb : is_limb b1.
Proof using b_limbs. apply Forall_app in b_limbs as [_ F]. by apply Forall_inv in F. Qed.
Lemma V_bounds : BASE ^ nb <= 2 * V /\ 0 < V < BASE ^ nb.
Proof using b_limbs b1_norm.
  pose proof base_ge. pose proof (lval_bounds bs b_limbs) as Hb. pose proof V_eq as HV. pose proof nb_pos as [Hn H0].
  pose proof (base_pow_pos (zlen bs0) H0). fold nb V in Hb. rewrite Hn, Z.add_comm, base_pow in * by done.
  assert (0 <= lval bs0). { apply Forall_app in b_limbs as [F _]. apply lval_bounds in F. lia. } nia.
Qed.

(** The result of one digit of the quotient: what [a] holds and the digit. *)
Definition digit_result (m : Mem) (a : ptr) (U : Z) (out : option (Mem * Z)) : Prop :=
  exists m' q ws, out = Some (m', q) /\ is_limb q /\ writes m m' a (ws ++ [0]) /\ zlen ws = nb /\
    Forall (fun x => is_limb x) ws /\ U = q * V + lval ws /\ lval ws < V.

Lemma fix_quotient_run U fuel : forall m a ws x q,
  holds m a (ws ++ [x]) -> holds m tabb bs -> no_overlap a (nb + 1) tabb nb ->
  zlen ws = nb -> Forall (fun x => is_limb x) ws -> is_limb x -> is_limb q -> 0 <= U ->
  U - q * V = lval ws + BASE ^ nb * x - BASE ^ nb * BASE -> U - q * V < 0 -> - (Z.of_nat fuel * V) <= U - q * V ->
  digit_result m a U (fix_quotient fuel m a tabb nb q).
Proof using b_limbs b1_norm.
  pose proof V_bounds as [HV1 HV2]. pose proof base_ge. pose proof nb_pos as [Hn Hn0].
  induction fuel as [|fuel IH]; intros m a ws x q Ha Hb Hap Hl Bws Bx Bq HU E Hneg Hfuel; [lia|].
  apply holds_snoc in Ha as [Ha Hx]. rewrite Hl in Hx. cbn [fix_quotient]. cbn zeta.
  assert (1 <= q) by nia. rewrite (limb_small (q - 1)) by lia.
  destruct (mp_add_run m a a tabb ws bs 0) as (m1 & ws1 & c & E1 & L1 & B1 & Hc & W1 & V1);
    [split; try done|lia|].
  { by apply holds_slots. }
  { right. left. lia. }
  { rewrite Hl. clear -Hap Hn Hn0. unfold no_overlap, ahead_up in *. lia. }
  rewrite Hl in E1, L1, V1. rewrite E1. cbn [mbind option_bind]. fold V in V1.
  pose proof (rd_frame _ _ _ _ nb W1 ltac:(lia)) as Hx1. rewrite Hx in Hx1.
  pose proof (lval_bounds ws1 B1) as Bv1. rewrite L1 in Bv1.
  assert (holds m1 tabb bs) as Hb1.
  { eapply writes_frame; [done| |done]. fold nb. clear -Hap L1 Hn Hn0. unfold no_overlap in *. lia. }
  destruct (Z.eqb_spec c 0) as [->|Hc0]; cbn [negb].
  - destruct (IH m1 a ws1 x (q - 1)) as (m2 & q2 & ws2 & E2 & B2 & W2 & R2); clear IH; try done; try lia.
    + apply holds_snoc. rewrite L1. split; [by eapply writes_holds|done].
    + nia.
    + exists m2, q2, ws2. split; [done|]. split; [done|]. split; [|done].
      eapply writes_again; [done..|]. rewrite zlen_app. destruct R2 as [-> _]. change (zlen [0]) with 1. lia.
  - assert (c = 1) as -> by lia. rewrite Hx1. cbn [mbind option_bind].
    destruct (wr_rd _ _ _ _ (limb (x + 1)) Hx1) as (m2 & E2 & W2). rewrite E2. cbn [mbind option_bind].
    assert (writes m m2 a (ws1 ++ [limb (x + 1)])) as W12 by (eapply writes_app; [done|by rewrite L1]).
    destruct (Z.eqb_spec (limb (x + 1)) 0) as [Hz|Hz].
    + assert (x + 1 = BASE).
      { destruct (Z.eq_dec (x + 1) BASE); [done|]. rewrite limb_small in Hz; lia. }
      rewrite Hz in W12. exists m2, (q - 1), ws1. split_and!; try done; nia.
    + assert (x + 1 < BASE).
      { destruct (Z.eq_dec (x + 1) BASE) as [Ex|]; [|lia]. rewrite (limb_carry _ 1) in Hz; lia. }
      rewrite limb_small in * by lia.
      destruct (IH m2 a ws1 (x + 1) (q - 1)) as (m3 & q3 & ws3 & E3 & B3 & W3 & R3); clear IH; try done; try lia.
      * by eapply writes_holds.
      * eapply writes_frame; [exact W12| |done]. rewrite zlen_app, L1. exact Hap.
      * nia.
      * exists m3, q3, ws3. split; [done|]. split; [done|]. split; [|done].
        eapply writes_again; [done..|]. rewrite !zlen_app. destruct R3 as [-> _]. change (zlen [0]) with 1.
        change (zlen [x + 1]) with 1. lia.
Qed.

(** The estimate of a digit is what the code computes. *)
Lemma guess_run m a hi lo b1_inv :
  lrd m a (nb - 1) = Some lo -> is_limb hi -> is_limb lo -> (b1_inv = 0 \/ b1_inv = udiv1norm_init b1) ->
  (if hi >=? b1 then Some (limb (-1))
   else
     lo ← lrd m a (nb - 1);
     if negb (b1_inv =? 0) then Some (udiv1norm hi lo b1 b1_inv).1
     else Some (limb (Z.lor (dlimb (Z.shiftl hi LIMB_BITS)) lo / b1))) =
  Some (if hi >=? b1 then BASE - 1 else (hi * BASE + lo) / b1).
Proof using b_limbs b1_norm.
  intros Hlo Bh Bl Hinv. pose proof b1_limb as Bb. pose proof base_ge. rewrite Hlo. cbn [mbind option_bind].
  rewrite Z.geb_leb. destruct (Z.leb_spec b1 hi); [f_equal; rewrite (limb_carry _ (-1)); lia|].
  destruct (Z.eqb_spec b1_inv 0) as [_|Hi]; cbn [negb].
  - rewrite join_limbs by done. f_equal. apply limb_small.
    split; [apply Z.div_pos; nia|]. apply Z.div_lt_upper_bound; nia.
  - destruct Hinv as [|Hinv]; [done|]. rewrite Hinv, udiv1norm_ok by lia. done.
Qed.

Lemma div_digit_run m a ws hi b1_inv :
  holds m a (ws ++ [hi]) -> holds m tabb bs -> no_overlap a (nb + 1) tabb nb -> zlen ws = nb ->
  Forall (fun x => is_limb x) ws -> is_limb hi -> lval (ws ++ [hi]) < BASE * V ->
  (b1_inv = 0 \/ b1_inv = udiv1norm_init b1) ->
  digit_result m a (lval (ws ++ [hi])) (div_digit m a tabb nb b1 b1_inv).
Proof using b_limbs b1_norm.
  intros Ha Hb Hap Hl Bws Bh HU Hinv. pose proof nb_pos as [Hn Hn0]. pose proof V_bounds as [HV1 HV2]. pose proof base_ge.
  pose proof Ha as Hws. apply holds_snoc in Hws as [Hws Hhi]. rewrite Hl in Hhi.
  destruct (split_at ws (nb - 1)) as (ws0 & los & E & Hl0); [lia|].
  assert (exists lo, los = [lo]) as [lo ->].
  { rewrite E, zlen_app in Hl. destruct los as [|lo los]; [zlen_lia|]. destruct los; [by exists lo|zlen_lia]. }
  assert (lrd m a (nb - 1) = Some lo) as Hlo. { rewrite E in Hws. apply holds_snoc in Hws as [_ Hws]. by rewrite Hl0 in Hws. }
  assert (is_limb lo /\ Forall (fun x => is_limb x) ws0) as [Blo B0].
  { rewrite E in Bws. apply Forall_app in Bws as [? F]. by apply Forall_inv in F. }
  unfold div_digit. rewrite Hhi. cbn [mbind option_bind]. rewrite (guess_run m a hi lo b1_inv) by done.
  cbn [mbind option_bind]. set (q := if hi >=? b1 then _ else _).
  destruct (digit_estimate BASE (BASE ^ zlen bs0) b1 (lval bs0) hi lo (lval ws0) q) as [Bq Hq]; try done; try lia.
  { apply lval_bounds. by apply Forall_app in b_limbs as [? _]. }
  { split; [apply b1_limb|done]. }
  { replace (zlen bs0) with (zlen ws0) by lia. by apply lval_bounds. }
  { revert HU. rewrite V_eq, E, !lval_app, zlen_app, Hl0. change (zlen [lo]) with 1. cbn [lval].
    replace (nb - 1) with (zlen bs0) by lia. rewrite (Z.add_comm _ 1), base_pow by done. lia. }
  assert ((hi * BASE + lo) * BASE ^ zlen bs0 + lval ws0 = lval (ws ++ [hi])) as EU.
  { rewrite E, !lval_app, zlen_app, Hl0. change (zlen [lo]) with 1. cbn [lval].
    replace (nb - 1) with (zlen bs0) by lia. rewrite (Z.add_comm _ 1), base_pow by done. lia. }
  replace (b1 * BASE ^ zlen bs0 + lval bs0) with V in Hq by (rewrite V_eq; lia). rewrite EU in Hq. clear EU.
  clearbody q. clear E B0 Hl0 Hlo Blo ws0 lo.
  destruct (mp_sub_mul1_run m a tabb bs ws q) as (m1 & ws1 & r & E1 & L1 & B1 & Hr & W1 & V1);
    [split; try done|done|].
  { by apply holds_slots. }
  { right. left. lia. }
  { rewrite Hl. clear -Hap Hn Hn0. unfold no_overlap, ahead_up in *. lia. }
  rewrite Hl in E1, L1, V1. rewrite E1. cbn [mbind option_bind]. fold V in V1.
  pose proof (rd_frame _ _ _ _ nb W1 ltac:(lia)) as Hx1. rewrite Hhi in Hx1. rewrite Hx1. cbn [mbind option_bind]. cbn zeta.
  destruct (wr_rd _ _ _ _ (limb (hi - r)) Hx1) as (m2 & E2 & W2). rewrite E2. cbn [mbind option_bind].
  assert (writes m m2 a (ws1 ++ [limb (hi - r)])) as W12 by (eapply writes_app; [done|by rewrite L1]).
  pose proof (lval_bounds ws1 B1) as Bv1. rewrite L1 in Bv1.
  assert (lval (ws ++ [hi]) = lval ws + BASE ^ nb * hi) as EU by (rewrite lval_app, Hl; cbn [lval]; lia).
  pose proof (lval_bounds ws Bws) as Bv. rewrite Hl in Bv. rewrite Z.gtb_ltb.
  destruct (Z.lt_ge_cases hi r) as [Hc|Hc].
  - rewrite (limb_carry (hi - r) (-1)) in * by lia. replace (hi - r - BASE * -1) with (hi - r + BASE) in * by lia.
    rewrite (proj2 (Z.ltb_lt _ _)) by lia. cbn [Z.b2z negb Z.eqb].
    destruct (fix_quotient_run (lval (ws ++ [hi])) 2 m2 a ws1 (hi - r + BASE) q) as (m3 & q' & ws2 & E3 & B3 & W3 & R3);
      try done; try lia.
    + by eapply writes_holds.
    + eapply writes_frame; [exact W12| |done]. rewrite zlen_app, L1. exact Hap.
    + assert (BASE ^ nb * (hi - r) <= BASE ^ nb * -1) by (apply Z.mul_le_mono_nonneg_l; lia). lia.
    + exists m3, q', ws2. split; [done|]. split; [done|]. split; [|done].
      eapply writes_again; [done..|]. rewrite !zlen_app. destruct R3 as [-> _]. change (zlen [0]) with 1.
      change (zlen [_]) with 1. lia.
  - rewrite limb_small in * by lia. rewrite (proj2 (Z.ltb_ge _ _)) by lia. cbn [Z.b2z negb Z.eqb].
    assert (hi = r) as ->.
    { destruct (Z.eq_dec hi r); [done|]. assert (BASE ^ nb * 1 <= BASE ^ nb * (hi - r)) by (apply Z.mul_le_mono_nonneg_l; lia). lia. }
    rewrite Z.sub_diag in W12.
    exists m2, q, ws1. split_and!; try done; nia.
Qed.

Definition div_loop_result (m : Mem) (tabq taba : ptr) (lo rem : list Z) (out : option Mem) : Prop :=
  exists m' qs rem', out = Some m' /\ zlen qs = zlen lo /\ Forall (fun x => is_limb x) qs /\
    zlen rem' = nb /\ Forall (fun x => is_limb x) rem' /\ holds m' tabq qs /\ holds m' taba rem' /\
    only m m' tabq (zlen lo) taba (zlen lo + nb) /\
    lval (lo ++ rem) = lval qs * V + lval rem' /\ lval rem' < V.

Definition div_body (tabq taba : ptr) (b1_inv : Z) (i : Z) (m : Mem) : option Mem :=
  '(m, q) ← div_digit m (padd taba i) tabb nb b1 b1_inv; wr m tabq i q.

Record div_inv (m : Mem) (tabq taba : ptr) (lo rem : list Z) : Prop := {
  di_a : holds m taba (lo ++ rem);
  di_b : holds m tabb bs;
  di_q : slots m tabq (zlen lo);
  di_len : zlen rem = nb;
  di_lo : Forall (fun x => is_limb x) lo;
  di_rem : Forall (fun x => is_limb x) rem;
  di_V : lval rem < V;
  di_ab : no_overlap taba (zlen lo + nb) tabb nb;
  di_qb : no_overlap tabq (zlen lo) tabb nb;
  di_qa : no_overlap tabq (zlen lo) taba (zlen lo + nb)
}.

(** One digit. *)
Lemma div_body_run m tabq taba lo x rem b1_inv :
  (b1_inv = 0 \/ b1_inv = udiv1norm_init b1) -> div_inv m tabq taba (lo ++ [x]) rem ->
  exists m1 m2 q ws, div_body tabq taba b1_inv (zlen lo) m = Some m2 /\ is_limb q /\
    writes m m1 (padd taba (zlen lo)) (ws ++ [0]) /\ writes m1 m2 (padd tabq (zlen lo)) [q] /\
    div_inv m2 tabq taba lo ws /\ x + BASE * lval rem = q * V + lval ws.
Proof using b_limbs b1_norm.
  intros Hinv [Ha Hb Hq Hl Blo Brem HV Hab Hqb Hqa]. pose proof nb_pos as [Hn Hn0]. pose proof (zlen_nonneg lo).
  pose proof base_ge. rewrite <- app_assoc in Ha. apply holds_app in Ha as [Ha Hw]. cbn [app] in Hw.
  rewrite zlen_app in *. change (zlen [x]) with 1 in *. apply Forall_app in Blo as [Blo Bx]. apply Forall_inv in Bx.
  destruct (split_at (x :: rem) nb) as (us & his & E & Lu); [rewrite zlen_cons; lia|].
  assert (exists hi, his = [hi]) as [hi ->].
  { apply (f_equal zlen) in E. rewrite zlen_app, zlen_cons in E. destruct his as [|hi his]; [zlen_lia|].
    destruct his; [by exists hi|zlen_lia]. }
  assert (Forall (fun x => is_limb x) (us ++ [hi])) as Bus by (rewrite <- E; by constructor).
  apply Forall_app in Bus as [Bus Bhi]. apply Forall_inv in Bhi.
  assert (lval (us ++ [hi]) = x + BASE * lval rem) as EU by (by rewrite <- E).
  rewrite E in Hw.
  destruct (div_digit_run m (padd taba (zlen lo)) us hi b1_inv) as (m1 & q & ws & E1 & Bq & W1 & Lw & Bw & V1 & HV1);
    try done.
  { unfold no_overlap, padd in *. cbn [blk off]. lia. }
  { rewrite EU. nia. }
  destruct (wr_slots m1 tabq (zlen lo + 1) (zlen lo) q) as (m2 & E2 & W2); [by eapply writes_slots|lia|].
  assert (zlen (ws ++ [0]) = nb + 1) as Lw0 by (rewrite zlen_app, Lw; done). assert (zlen [q] = 1) as Lq by done.
  exists m1, m2, q, ws. split_and!; try done; try lia.
  { unfold div_body. rewrite E1. cbn [mbind option_bind]. done. }
  split; try done.
  - apply holds_app. split.
    + eapply writes_frame; [exact W2| |eapply writes_frame; [exact W1| |exact Ha]]; rewrite ?Lq, ?Lw0;
        unfold no_overlap, padd in *; cbn [blk off]; lia.
    + apply writes_holds, holds_app in W1 as [W1 _]. eapply writes_frame; [exact W2| |exact W1].
      rewrite Lq, Lw. unfold no_overlap, padd in *; cbn [blk off]; lia.
  - eapply writes_frame; [exact W2| |eapply writes_frame; [exact W1| |exact Hb]]; rewrite ?Lq, ?Lw0;
      fold nb; unfold no_overlap, padd in *; cbn [blk off]; lia.
  - intros i Hi. eapply writes_slots; [exact W2|eapply writes_slots; [exact W1|exact Hq]|]. lia.
  - unfold no_overlap in *. lia.
  - unfold no_overlap in *. lia.
  - unfold no_overlap in *. lia.
Qed.

Lemma div_loop tabq taba b1_inv lo : (b1_inv = 0 \/ b1_inv = udiv1norm_init b1) -> forall m rem,
  div_inv m tabq taba lo rem ->
  div_loop_result m tabq taba lo rem (for_down (length lo) (div_body tabq taba b1_inv) m).
Proof using b_limbs b1_norm.
  intros Hinv. pose proof nb_pos as [Hn Hn0]. induction lo as [|x lo IH] using rev_ind; intros m rem Hi.
  - destruct Hi. exists m, [], rem. split_and!; try done. apply holds_nil.
  - destruct (div_body_run m tabq taba lo x rem b1_inv Hinv Hi) as (m1 & m2 & q & ws & E & Bq & W1 & W2 & Hi2 & HU).
    destruct (IH m2 ws Hi2) as (m3 & qs & rem' & E3 & L3 & B3 & Lr & Br & Q3 & A3 & [O3 S3] & V3 & HV3); clear IH.
    destruct Hi as [Ha Hb Hq Hl Blo Brem HV Hab Hqb Hqa]. unfold div_loop_result.
    rewrite zlen_app in *. change (zlen [x]) with 1 in *. pose proof (zlen_nonneg lo). assert (zlen (ws ++ [0]) = nb + 1) as Lw0 by (destruct Hi2; rewrite zlen_app; zlen_lia).
    rewrite length_app, Nat.add_1_r. cbn [for_down]. change (Z.of_nat (length lo)) with (zlen lo).
    rewrite E. cbn [mbind option_bind]. exists m3, (qs ++ [q]), rem'. split_and!; try done.
    + rewrite zlen_app, L3. done.
    + apply Forall_app. split; [done|]. by apply Forall_singleton.
    + apply holds_snoc. split; [done|]. apply writes_holds, holds_cons in W2 as [W2 _]. rewrite rd_padd, Z.add_0_r in W2.
      rewrite L3, <- W2. apply O3; unfold no_overlap in *; lia.
    + destruct W1 as [_ O1 S1], W2 as [_ O2 S2]. rewrite Lw0 in O1. change (zlen [q]) with 1 in O2. cbn in O1, O2.
      split; [|auto]. intros b o Hbo Hbo'. rewrite O3, O2, O1; [done|lia..].
    + rewrite <- app_assoc. cbn [app]. rewrite lval_app in *. rewrite lval_app, L3. cbn [lval].
      apply (f_equal (Z.mul (BASE ^ zlen lo))) in HU. clear -HU V3. lia.
Qed.

(** The first digit and the loop. *)
Lemma divnorm_basecase_run m tabq taba xs :
  holds m taba xs -> holds m tabb bs -> slots m tabq (zlen xs - nb + 1) -> nb <= zlen xs ->
  no_overlap taba (zlen xs) tabb nb -> no_overlap tabq (zlen xs - nb + 1) tabb nb -> no_overlap tabq (zlen xs - nb + 1) taba (zlen xs) ->
  Forall (fun x => is_limb x) xs ->
  exists m' qs q rem, divnorm_basecase m tabq taba tabb (zlen xs) nb = Some m' /\
    holds m' tabq (qs ++ [q]) /\ holds m' taba rem /\ zlen qs = zlen xs - nb /\ zlen rem = nb /\
    Forall (fun x => is_limb x) qs /\ 0 <= q <= 1 /\ Forall (fun x => is_limb x) rem /\
    only m m' tabq (zlen xs - nb + 1) taba (zlen xs) /\
    lval xs = lval (qs ++ [q]) * V + lval rem /\ lval rem < V.
Proof using b_limbs b1_norm.
  intros Ha Hb Hq Hn Hab Hqb Hqa Bx. pose proof nb_pos as [Hnb Hn0]. pose proof V_bounds as [HV1 HV2].
  pose proof base_ge. assert (lrd m tabb (nb - 1) = Some b1) as Hb1.
  { apply holds_snoc in Hb as [_ Hb]. by replace (nb - 1) with (zlen bs0) by lia. }
  destruct (split_at xs (zlen xs - nb)) as (lo & hi & E & Hlo); [lia|].
  assert (zlen hi = nb) as Lhi by (apply (f_equal zlen) in E; rewrite zlen_app in E; lia).
  set (n := zlen xs - nb) in *. replace (zlen xs) with (n + nb) in * by (unfold n; lia). clearbody n.
  subst xs. apply Forall_app in Bx as [Blo Bhi].
  apply holds_app in Ha as [Ha Hh]. rewrite Hlo in Hh. unfold divnorm_basecase. rewrite Hb1. cbn [mbind option_bind].
  cbn zeta. replace (n + nb - nb) with n in * by lia. set (b1_inv := if n >=? _ then _ else _).
  assert (b1_inv = 0 \/ b1_inv = udiv1norm_init b1) as Hinv by (unfold b1_inv; case_match; auto). clearbody b1_inv.
  replace (Z.to_nat nb) with (length hi) by (rewrite <- Lhi; unfold zlen; lia).
  rewrite (first_quotient_run m (padd taba n) tabb hi bs) by done. cbn [mbind option_bind]. fold V.
  set (q := if lval hi <? V then 0 else 1).
  destruct (wr_slots m tabq (n + 1) n q) as (m1 & E1 & W1); [done|lia|]. rewrite E1. cbn [mbind option_bind].
  assert (zlen [q] = 1) as Lq by done.
  assert (exists m2 rem, (if negb (q =? 0) then '(m, _) ← mp_sub m1 (padd taba n) (padd taba n) tabb nb 0; Some m else Some m1)
    = Some m2 /\ zlen rem = nb /\ Forall (fun x => is_limb x) rem /\ lval hi = q * V + lval rem /\ lval rem < V /\
    writes m1 m2 (padd taba n) rem) as (m2 & rem & E2 & Lr & Br & Vr & HVr & W2).
  { assert (holds m1 (padd taba n) hi) as Hh1.
    { eapply writes_frame; [exact W1| |exact Hh]. rewrite Lq, Lhi. unfold no_overlap, padd in *. cbn [blk off]. lia. }
    pose proof (lval_bounds hi Bhi) as Bv. rewrite Lhi in Bv. unfold q. destruct (Z.ltb_spec (lval hi) V); cbn [Z.eqb negb].
    - exists m1, hi. by split_and!.
    - destruct (mp_sub_run m1 (padd taba n) (padd taba n) tabb hi bs 0) as (m2 & rem & k & E2 & L2 & B2 & Hk & W2 & V2);
        [split; try done|lia|].
      { eapply writes_frame; [exact W1| |exact Hb]. rewrite Lq. fold nb. unfold no_overlap, padd in *. cbn [blk off]. lia. }
      { by apply holds_slots. }
      { right. left. lia. }
      { rewrite Lhi. unfold ahead_up, no_overlap, padd in *. cbn [blk off]. lia. }
      rewrite Lhi in E2, L2, V2. fold V in V2. rewrite E2. cbn [mbind option_bind]. exists m2, rem.
      pose proof (lval_bounds rem B2) as Br. rewrite L2 in Br.
      assert (k = 0) as ->. { destruct (Z.eq_dec k 0); [done|]. assert (k = 1) as -> by lia. lia. }
      split_and!; try done; lia. }
  rewrite E2. cbn [mbind option_bind]. clear E2.
  assert (div_inv m2 tabq taba lo rem) as Hi.
  { rewrite <- Hlo in *. split; try done.
    - apply holds_app. split; [|by apply writes_holds in W2].
      eapply writes_frame; [exact W2| |eapply writes_frame; [exact W1| |exact Ha]]; rewrite ?Lq, ?Lr;
        unfold no_overlap, padd in *; cbn [blk off]; lia.
    - eapply writes_frame; [exact W2| |eapply writes_frame; [exact W1| |exact Hb]]; rewrite ?Lq, ?Lr; fold nb;
        unfold no_overlap, padd in *; cbn [blk off]; lia.
    - intros i Hi. eapply writes_slots; [exact W2|eapply writes_slots; [exact W1|exact Hq]|]. lia.
    - unfold no_overlap in *. lia.
    - unfold no_overlap in *. lia. }
  destruct (div_loop tabq taba b1_inv lo Hinv m2 rem Hi) as
    (m3 & qs & rem' & E3 & L3 & B3 & Lr' & Br' & Q3 & A3 & [O3 S3] & V3 & HV3).
  replace (Z.to_nat n) with (length lo) by (rewrite <- Hlo; unfold zlen; lia). rewrite Hlo in *.
  exists m3, qs, q, rem'. unfold div_body in E3. split_and!; try done.
  - apply holds_snoc. split; [done|]. apply writes_holds, holds_cons in W1 as [W1 _]. rewrite rd_padd, Z.add_0_r in W1.
    rewrite L3, <- W1. destruct W2 as [_ O2 _]. cbn in O2. rewrite Lr in O2. unfold lrd.
    rewrite O3, O2; [done|unfold no_overlap in *; lia..].
  - unfold q. case_match; lia.
  - unfold q. case_match; lia.
  - destruct W1 as [_ O1 S1], W2 as [_ O2 S2]. rewrite Lr in O2. rewrite Lq in O1. cbn in O1, O2.
    split; [|auto]. intros b o Hbo Hbo'. rewrite O3, O2, O1; [done|lia..].
  - rewrite lval_app, Hlo, Vr. rewrite lval_app, Hlo in V3. rewrite lval_app, L3. cbn [lval]. clear -V3. lia.
Qed.
End divnorm.

(** ** The functions of the interface *)

(** C23: udiv1norm with the inverse of udiv1norm_init returns the quotient and the
    remainder of two limbs divided by one normalised limb, for every dividend whose
    high limb is below the divisor, without any overflow of the wrapping arithmetic
    showing in the result. *)
Theorem udiv1norm_correct d a1 a0 : d < BASE <= 2 * d -> 0 <= a1 < d -> is_limb a0 ->
  udiv1norm a1 a0 d (udiv1norm_init d) = ((a1 * BASE + a0) / d, (a1 * BASE + a0) mod d).
Proof. apply udiv1norm_ok. Qed.

Theorem udiv1norm_correct_witness :
  udiv1norm (BASE / 2) (BASE - 1) (BASE / 2 + 1) (udiv1norm_init (BASE / 2 + 1)) =
  ((BASE / 2 * BASE + (BASE - 1)) / (BASE / 2 + 1), (BASE / 2 * BASE + (BASE - 1)) mod (BASE / 2 + 1)).
Proof. apply (udiv1norm_correct (BASE / 2 + 1)); vm_compute; by split. Defined.

(** The quotient and the remainder from their equation. *)
Lemma quotient_of N d q r : N = q * d + r -> 0 <= r < d -> q = N / d /\ r = N mod d.
Proof. intros. split; [apply (Z.div_unique_pos _ _ _ r)|apply (Z.mod_unique_pos _ _ q)]; lia. Qed.

(** Division by one limb leaves the remainder in the first limb. *)
Lemma div_one_run m tabq taba xs b1 : BASE <= 2 * b1 -> is_limb b1 -> 1 <= zlen xs ->
  holds m taba xs -> slots m tabq (zlen xs) -> no_overlap tabq (zlen xs) taba (zlen xs) ->
  Forall (fun x => is_limb x) xs ->
  exists m1 m' qs q r, mp_div1norm m tabq taba (zlen xs) b1 0 = Some (m1, r) /\ wr m1 taba 0 r = Some m' /\
    holds m' tabq (qs ++ [q]) /\ holds m' taba [r] /\ zlen qs = zlen xs - 1 /\ 0 <= q <= 1 /\
    Forall (fun x => is_limb x) qs /\ only m m' tabq (zlen xs) taba (zlen xs) /\
    lval xs = lval (qs ++ [q]) * b1 + r /\ 0 <= r < b1.
Proof.
  intros Hb Bb Hl Ha Hq Hap Bx. pose proof base_ge.
  destruct (mp_div1norm_run b1 m tabq taba xs 0) as (m1 & zs & r & E1 & L1 & B1 & Hr & W1 & V1); try done; try lia.
  { unfold no_overlap, ahead_down in *. lia. }
  destruct (wr_slots m1 taba (zlen xs) 0 r) as (m2 & E2 & W2); [by eapply writes_slots, holds_slots|lia|].
  rewrite padd_0 in W2. destruct (split_at zs (zlen xs - 1)) as (qs & los & -> & Lq); [lia|].
  assert (exists q, los = [q]) as [q ->].
  { rewrite zlen_app in L1. destruct los as [|q los]; [zlen_lia|]. destruct los; [by exists q|zlen_lia]. }
  apply Forall_app in B1 as [Bq Bl]. apply Forall_inv in Bl. rewrite Z.mul_0_r, Z.add_0_r in V1.
  exists m1, m2, qs, q, r. split; [done|]. split; [done|]. split.
  { eapply writes_frame; [exact W2| |by eapply writes_holds]. change (zlen [r]) with 1. unfold no_overlap in *. lia. }
  split; [by eapply writes_holds|]. split; [done|]. split; [split; [lia|]|].
  { pose proof (lval_bounds xs Bx) as Bv. pose proof (lval_bounds qs Bq). rewrite lval_app, Lq in V1. cbn [lval] in V1.
    replace (zlen xs) with (1 + (zlen xs - 1)) in Bv by lia. rewrite base_pow in Bv by lia.
    pose proof (base_pow_pos (zlen xs - 1) ltac:(lia)). set (P := BASE ^ (zlen xs - 1)) in *.
    destruct (Z.le_gt_cases q 1); [done|]. assert (BASE <= q * b1) by nia.
    assert (P * BASE <= P * (q * b1)) by (apply Z.mul_le_mono_nonneg_l; lia).
    assert (0 <= lval qs * b1) by nia. lia. }
  split; [done|]. split; [|by split].
  destruct W1 as [_ O1 S1], W2 as [_ O2 S2]. change (zlen [r]) with 1 in O2. rewrite L1 in O1.
  split; [|auto]. intros b o Ho Ho'. rewrite O2, O1; [done|lia..].
Qed.


Definition div_demo : Mem := {[ 1 := Some <$> [5; 7; 1]; 2 := Some <$> [3; BASE / 2]; 3 := replicate 2 None ]}.

