(* ===== verification/DynBuf.v ===== *)
(** * Dynamic buffers (cutils.c, cutils.h; [dbuf_insert] of libregexp.c)

    A [DynBuf] is an allocated block, of which the first [size] bytes are in use.
    The allocator is a parameter ([Allocator]); [AllocatorOk] states what [realloc]
    promises.  The contract of the component is that of a byte sequence with a
    sticky failure flag: see [dbuf_run_refines]. *)

From S2P Require Import Prelude Bytes.

(** ** The allocator

    [realloc_func b n] is the call with the block [b] (the empty list for NULL)
    and the new size [n]; [None] is a NULL result. *)

Class Allocator := realloc_func : list Z -> Z -> option (list Z).

(** Documented behaviour of [realloc]: the new block has the size asked for, its
    common prefix with the old one is kept, and an object is never larger than
    [PTRDIFF_MAX]. *)
Class AllocatorOk (A : Allocator) : Prop := {
  realloc_len b n b' : realloc_func b n = Some b' -> zlen b' = n;
  realloc_keep b n b' k :
    realloc_func b n = Some b' -> 0 <= k <= zlen b -> k <= n ->
    take (Z.to_nat k) b' = take (Z.to_nat k) b;
  realloc_max b n b' : realloc_func b n = Some b' -> n < 2 ^ 63
}.

Record DynBuf := mkDynBuf {
  buf : list Z;
  size : Z;
  allocated_size : Z;
  error : bool
}.

Section dynbuf.
Context `{Allocator}.

Definition dbuf_init : DynBuf :=
  {| buf := []; size := 0; allocated_size := 0; error := false |}.

(** The code returns an [int]: 0, or -1 on failure. *)
Definition dbuf_realloc (s : DynBuf) (new_size : Z) : DynBuf * Z :=
  if new_size >? allocated_size s then
    if error s then (s, -1)
    else
      let sz := u64 (allocated_size s * 3) / 2 in
      let new_size := if sz >? new_size then sz else new_size in
      match realloc_func (buf s) new_size with
      | None => ({| buf := buf s; size := size s; allocated_size := allocated_size s;
                    error := true |}, -1)
      | Some new_buf => ({| buf := new_buf; size := size s; allocated_size := new_size;
                            error := error s |}, 0)
      end
  else (s, 0).

Definition set_buf (s : DynBuf) (b : list Z) (n : Z) : DynBuf :=
  {| buf := b; size := n; allocated_size := allocated_size s; error := error s |}.

Definition dbuf_write (s : DynBuf) (offset : Z) (data : list Z) : option (DynBuf * Z) :=
  let end_ := u64 (offset + zlen data) in
  let '(s, r) := dbuf_realloc s end_ in
  if negb (r =? 0) then Some (s, -1)
  else b ← zblit (buf s) offset data;
       Some (set_buf s b (if end_ >? size s then end_ else size s), 0).

Definition dbuf_put (s : DynBuf) (data : list Z) : option (DynBuf * Z) :=
  let '(s, r) :=
    if u64 (size s + zlen data) >? allocated_size s
    then dbuf_realloc s (u64 (size s + zlen data)) else (s, 0) in
  if negb (r =? 0) then Some (s, -1)
  else b ← zblit (buf s) (size s) data;
       Some (set_buf s b (u64 (size s + zlen data)), 0).

(** [memcpy] requires that the ranges do not overlap. *)
Definition dbuf_put_self (s : DynBuf) (offset len : Z) : option (DynBuf * Z) :=
  let '(s, r) :=
    if u64 (size s + len) >? allocated_size s
    then dbuf_realloc s (u64 (size s + len)) else (s, 0) in
  if negb (r =? 0) then Some (s, -1)
  else if (offset + len <=? size s) || (size s + len <=? offset) || (len =? 0)
  then d ← zslice (buf s) offset len;
       b ← zblit (buf s) (size s) d;
       Some (set_buf s b (u64 (size s + len)), 0)
  else None.

Definition dbuf_putc (s : DynBuf) (c : Z) : option (DynBuf * Z) := dbuf_put s [u8 c].

(** [str] is the C string without its terminator. *)
Definition dbuf_putstr (s : DynBuf) (str : list Z) : option (DynBuf * Z) := dbuf_put s str.

Definition dbuf_put_u16 (s : DynBuf) (v : Z) : option (DynBuf * Z) := dbuf_put s (le_bytes 2 v).
Definition dbuf_put_u32 (s : DynBuf) (v : Z) : option (DynBuf * Z) := dbuf_put s (le_bytes 4 v).
Definition dbuf_put_u64 (s : DynBuf) (v : Z) : option (DynBuf * Z) := dbuf_put s (le_bytes 8 v).

Definition dbuf_error (s : DynBuf) : bool := error s.

Definition dbuf_set_error (s : DynBuf) : DynBuf :=
  {| buf := buf s; size := size s; allocated_size := allocated_size s; error := true |}.

Definition dbuf_free (s : DynBuf) : DynBuf := dbuf_init.

(** libregexp.c: insert [len] bytes at position [pos]; the bytes of the hole keep
    the value they had. *)
Definition dbuf_insert (s : DynBuf) (pos len : Z) : option (DynBuf * Z) :=
  let '(s, r) := dbuf_realloc s (u64 (size s + len)) in
  if negb (r =? 0) then Some (s, -1)
  else tl ← zslice (buf s) pos (size s - pos);
       b ← zblit (buf s) (pos + len) tl;
       Some (set_buf s b (u64 (size s + len)), 0).

(** ** Invariant and abstract content *)

Definition dbuf_wf (s : DynBuf) : Prop :=
  zlen (buf s) = allocated_size s /\ 0 <= size s <= allocated_size s
  /\ allocated_size s < 2 ^ 63.

Definition content (s : DynBuf) : list Z := take (Z.to_nat (size s)) (buf s).

Lemma zlen_content s : dbuf_wf s -> zlen (content s) = size s.
Proof. intros (? & ? & ?). unfold content. rewrite zlen_take. lia. Qed.

Lemma dbuf_init_wf : dbuf_wf dbuf_init.
Proof. split_and!; vm_compute; congruence. Qed.

Context `{!AllocatorOk _}.

(** Growing keeps the content; on failure only the flag changes. *)
Lemma dbuf_realloc_spec s n s' r :
  dbuf_wf s -> dbuf_realloc s n = (s', r) ->
  dbuf_wf s' /\ size s' = size s /\ content s' = content s /\
  ((r = 0 /\ n <= allocated_size s' /\ error s' = error s)
   \/ (r = -1 /\ error s' = true /\ buf s' = buf s)).
Proof.
  intros (Hl & Hs & Ha) E. unfold dbuf_realloc in E. rewrite Z.gtb_ltb in E.
  destruct (Z.ltb_spec (allocated_size s) n).
  2:{ injection E as <- <-. unfold dbuf_wf. split_and!; dlia. left. split_and!; dlia. }
  destruct (error s) eqn:Ee.
  { injection E as <- <-. unfold dbuf_wf. split_and!; dlia. right. done. }
  set (sz := u64 (allocated_size s * 3) / 2) in E.
  set (n' := if sz >? n then sz else n) in E.
  assert (n <= n') by (subst n'; repeat destruct_cmp; lia).
  destruct (realloc_func (buf s) n') as [b|] eqn:Er; injection E as <- <-;
    unfold dbuf_wf, content; cbn.
  - pose proof (realloc_len _ _ _ Er). pose proof (realloc_max _ _ _ Er).
    split_and!; dlia.
    apply (realloc_keep _ _ _ _ Er); lia.
  - split_and!; dlia. right. done.
Qed.

(** The shape of every appending operation. *)
Lemma content_append s d b :
  dbuf_wf s -> size s + zlen d <= allocated_size s ->
  zblit (buf s) (size s) d = Some b ->
  dbuf_wf (set_buf s b (size s + zlen d)) /\
  content (set_buf s b (size s + zlen d)) = content s ++ d.
Proof.
  intros (Hl & Hs & Ha) Hle Hb. pose proof (zblit_len _ _ _ _ Hb).
  apply zblit_Some in Hb as (_ & _ & ->). pose proof (zlen_nonneg d).
  split.
  { unfold dbuf_wf. cbn. split_and!; lia. }
  unfold content. cbn. rewrite app_assoc, take_app_le.
  - rewrite take_ge; [done|]. rewrite length_app, length_take. unfold zlen in *. lia.
  - rewrite length_app, length_take. unfold zlen in *. lia.
Qed.

(** What an appending operation promises. *)
Definition put_result (s : DynBuf) (d : list Z) (s' : DynBuf) (r : Z) : Prop :=
  dbuf_wf s' /\
  ((r = 0 /\ content s' = content s ++ d /\ error s' = error s)
   \/ (r = -1 /\ content s' = content s /\ error s' = true)).

Lemma put_grow s n s' r :
  dbuf_wf s -> (if n >? allocated_size s then dbuf_realloc s n else (s, 0)) = (s', r) ->
  dbuf_wf s' /\ size s' = size s /\ content s' = content s /\
  ((r = 0 /\ n <= allocated_size s' /\ error s' = error s)
   \/ (r = -1 /\ error s' = true)).
Proof.
  intros Hwf E. rewrite Z.gtb_ltb in E. destruct (Z.ltb_spec (allocated_size s) n).
  - destruct (dbuf_realloc_spec _ _ _ _ Hwf E) as (? & ? & ? & [?|(? & ? & ?)]); auto 10.
  - injection E as <- <-. split_and!; try done. left. split_and!; dlia.
Qed.

Lemma dbuf_put_spec s d :
  dbuf_wf s -> zlen d < 2 ^ 63 ->
  exists s' r, dbuf_put s d = Some (s', r) /\ put_result s d s' r.
Proof.
  intros Hwf Hd. unfold dbuf_put.
  assert (u64 (size s + zlen d) = size s + zlen d) as ->.
  { destruct Hwf as (? & ? & ?). apply u64_small. zlen_lia. }
  destruct (if _ >? _ then _ else _) as [s1 r1] eqn:E.
  apply put_grow in E as (Hwf1 & Hs1 & Hc1 & [(-> & Hn & He)|(-> & He)]); [| |done].
  - cbn. rewrite u64_small by (destruct Hwf as (? & ? & ?); zlen_lia). rewrite <- Hs1 in *.
    assert (Hb := zblit_is_Some (buf s1) (size s1) d).
    pose proof (zlen_nonneg d). destruct (Hwf1) as (Hl & Hsz & Ha).
    specialize (Hb ltac:(lia) ltac:(lia)). rewrite Hb. cbn. eexists _, 0. split; [done|].
    destruct (content_append s1 d _ Hwf1 ltac:(lia) Hb) as [Hw Hc].
    split; [done|]. left. by rewrite Hc, Hc1.
  - cbn. exists s1, (-1). split; [done|]. split; [done|]. by right.
Qed.

Lemma grow_small s n : dbuf_wf s -> 0 <= n < 2 ^ 63 -> u64 (size s + n) = size s + n.
Proof. intros (? & ? & ?) ?. apply u64_small. lia. Qed.

Lemma dbuf_put_self_spec s off len :
  dbuf_wf s -> 0 <= off -> 0 <= len -> off + len <= size s ->
  exists s' r, dbuf_put_self s off len = Some (s', r) /\
    put_result s (take (Z.to_nat len) (drop (Z.to_nat off) (content s))) s' r.
Proof.
  intros Hwf Ho Hn Hle. unfold dbuf_put_self.
  rewrite grow_small by (done || destruct Hwf as (? & ? & ?); lia).
  destruct (if _ >? _ then _ else _) as [s1 r1] eqn:E.
  apply put_grow in E as (Hwf1 & Hs1 & Hc1 & [(-> & Hg & He)|(-> & He)]); [| |done].
  2:{ cbn. exists s1, (-1). split; [done|]. split; [done|]. by right. }
  cbn. rewrite Hs1, (proj2 (Z.leb_le (off + len) (size s))) by lia. cbn.
  destruct (Hwf1) as (Hl & Hsz & Ha). rewrite zslice_is_Some by lia. cbn.
  set (d := take (Z.to_nat len) (drop (Z.to_nat off) (buf s1))).
  assert (zlen d = len) as Hd by (subst d; rewrite zlen_take, zlen_drop; lia).
  rewrite <- Hs1 in *.
  assert (Hb := zblit_is_Some (buf s1) (size s1) d ltac:(lia) ltac:(lia)).
  rewrite Hb. cbn. eexists _, 0. split; [done|]. rewrite <- Hd.
  rewrite Hs1, grow_small, <- Hs1 by (done || lia).
  destruct (content_append s1 d _ Hwf1 ltac:(lia) Hb) as [Hw Hc].
  split; [done|]. left. rewrite Hc, Hc1. split_and!; [done| |done]. f_equal.
  rewrite <- Hc1. unfold d, content.
  rewrite skipn_firstn_comm, take_take. f_equal.
  rewrite zlen_take, zlen_drop. lia.
Qed.

Lemma dbuf_write_spec s off d :
  dbuf_wf s -> 0 <= off <= size s -> zlen d < 2 ^ 63 ->
  exists s' r, dbuf_write s off d = Some (s', r) /\ dbuf_wf s' /\
    ((r = 0 /\ error s' = error s /\
      content s' = take (Z.to_nat off) (content s) ++ d
                   ++ drop (Z.to_nat off + length d) (content s))
     \/ (r = -1 /\ content s' = content s /\ error s' = true)).
Proof.
  intros Hwf Ho Hd. unfold dbuf_write.
  assert (u64 (off + zlen d) = off + zlen d) as ->.
  { destruct Hwf as (? & ? & ?). apply u64_small. zlen_lia. }
  destruct (dbuf_realloc s _) as [s1 r1] eqn:E.
  apply dbuf_realloc_spec in E as (Hwf1 & Hs1 & Hc1 & [(-> & Hg & He)|(-> & He & Hb)]); [| |done].
  2:{ cbn. exists s1, (-1). split; [done|]. split; [done|]. by right. }
  cbn. destruct (Hwf1) as (Hl & Hsz & Ha). pose proof (zlen_nonneg d).
  assert (Hb := zblit_is_Some (buf s1) off d ltac:(lia) ltac:(lia)).
  rewrite Hb. cbn. eexists _, 0. split; [done|]. apply zblit_len in Hb as Hbl. cbn in Hbl.
  split.
  { unfold dbuf_wf. cbn -[app]. rewrite Z.gtb_ltb. split_and!; try lia; destruct_cmp; lia. }
  left. split_and!; [done..|]. rewrite <- Hc1. unfold content. cbn -[app].
  rewrite Z.gtb_ltb, take_take, skipn_firstn_comm. unfold zlen in *.
  rewrite Nat.min_l by lia.
  assert (Ht : length (take (Z.to_nat off) (buf s1)) = Z.to_nat off)
    by (rewrite length_take; lia).
  rewrite take_app, take_ge, Ht by (destruct_cmp; lia). f_equal.
  destruct_cmp.
  - rewrite take_app_length' by lia.
    replace (Z.to_nat (size s1) - (Z.to_nat off + length d))%nat with 0%nat by lia.
    by rewrite take_0, app_nil_r.
  - rewrite take_app, take_ge by lia. f_equal. f_equal. lia.
Qed.

Lemma dbuf_insert_spec s pos len :
  dbuf_wf s -> 0 <= pos <= size s -> 0 <= len < 2 ^ 63 ->
  exists s' r, dbuf_insert s pos len = Some (s', r) /\ dbuf_wf s' /\
    ((r = 0 /\ error s' = error s /\ exists hole, zlen hole = len /\
      content s' = take (Z.to_nat pos) (content s) ++ hole ++ drop (Z.to_nat pos) (content s))
     \/ (r = -1 /\ content s' = content s /\ error s' = true)).
Proof.
  intros Hwf Hp Hn. unfold dbuf_insert.
  rewrite grow_small by (done || lia).
  destruct (dbuf_realloc s _) as [s1 r1] eqn:E.
  apply dbuf_realloc_spec in E as (Hwf1 & Hs1 & Hc1 & [(-> & Hg & He)|(-> & He & Hb)]); [| |done].
  2:{ cbn. exists s1, (-1). split; [done|]. split; [done|]. by right. }
  cbn. rewrite <- Hs1 in *. destruct (Hwf1) as (Hl & Hsz & Ha).
  rewrite zslice_is_Some by lia. cbn.
  set (tl := take (Z.to_nat (size s1 - pos)) (drop (Z.to_nat pos) (buf s1))).
  assert (zlen tl = size s1 - pos) as Htl by (subst tl; rewrite zlen_take, zlen_drop; lia).
  assert (Hb := zblit_is_Some (buf s1) (pos + len) tl ltac:(lia) ltac:(lia)).
  rewrite Hb. cbn. eexists _, 0. split; [done|].
  rewrite Hs1, grow_small, <- Hs1 by (done || lia).
  apply zblit_len in Hb as Hbl. cbn in Hbl. split.
  { unfold dbuf_wf. cbn -[app]. split_and!; lia. }
  left. split_and!; [done..|].
  exists (take (Z.to_nat len) (drop (Z.to_nat pos) (buf s1))).
  split; [rewrite zlen_take, zlen_drop; lia|].
  rewrite <- Hc1. unfold content. cbn -[app].
  rewrite take_take, skipn_firstn_comm. unfold zlen in *. rewrite Nat.min_l by lia.
  rewrite app_assoc, take_app_le, take_ge by (rewrite !length_app, length_take; lia).
  rewrite Z2Nat.inj_add by lia. rewrite <- take_take_drop, <- app_assoc. do 2 f_equal.
  unfold tl. f_equal. lia.
Qed.

(** ** Refinement: a byte sequence with a sticky failure flag

    Callers of the buffer ignore most return codes and test [dbuf_error] at the
    end.  [dbuf_run] performs a sequence of operations in that style. *)

Inductive dbuf_op :=
  | OpPut (d : list Z)
  | OpPutc (c : Z)
  | OpPutU16 (v : Z)
  | OpPutU32 (v : Z)
  | OpPutU64 (v : Z)
  | OpPutSelf (offset len : Z)
  | OpWrite (offset : Z) (d : list Z)
  | OpInsert (pos len : Z).

Definition dbuf_step (s : DynBuf) (op : dbuf_op) : option DynBuf :=
  fst <$> match op with
  | OpPut d => dbuf_put s d
  | OpPutc c => dbuf_putc s c
  | OpPutU16 v => dbuf_put_u16 s v
  | OpPutU32 v => dbuf_put_u32 s v
  | OpPutU64 v => dbuf_put_u64 s v
  | OpPutSelf offset len => dbuf_put_self s offset len
  | OpWrite offset d => dbuf_write s offset d
  | OpInsert pos len => dbuf_insert s pos len
  end.

Fixpoint dbuf_run (s : DynBuf) (ops : list dbuf_op) : option DynBuf :=
  match ops with
  | [] => Some s
  | op :: ops' => s' ← dbuf_step s op; dbuf_run s' ops'
  end.

(** The abstract step on byte sequences; an insertion leaves [len] bytes to fill. *)
Inductive bytes_step : dbuf_op -> list Z -> list Z -> Prop :=
  | bytes_put d l : bytes_step (OpPut d) l (l ++ d)
  | bytes_putc c l : bytes_step (OpPutc c) l (l ++ [u8 c])
  | bytes_put_u16 v l : bytes_step (OpPutU16 v) l (l ++ le_bytes 2 v)
  | bytes_put_u32 v l : bytes_step (OpPutU32 v) l (l ++ le_bytes 4 v)
  | bytes_put_u64 v l : bytes_step (OpPutU64 v) l (l ++ le_bytes 8 v)
  | bytes_put_self off len l :
      bytes_step (OpPutSelf off len) l
        (l ++ take (Z.to_nat len) (drop (Z.to_nat off) l))
  | bytes_write off d l :
      bytes_step (OpWrite off d) l
        (take (Z.to_nat off) l ++ d ++ drop (Z.to_nat off + length d) l)
  | bytes_insert pos len hole l :
      zlen hole = len ->
      bytes_step (OpInsert pos len) l
        (take (Z.to_nat pos) l ++ hole ++ drop (Z.to_nat pos) l).

Inductive bytes_steps : list dbuf_op -> list Z -> list Z -> Prop :=
  | bytes_steps_nil l : bytes_steps [] l l
  | bytes_steps_cons op ops l1 l2 l3 :
      bytes_step op l1 l2 -> bytes_steps ops l2 l3 -> bytes_steps (op :: ops) l1 l3.

(** The callers' obligations: ranges inside the bytes in use, sizes that an object
    can have. *)
Definition op_ok (n : Z) (op : dbuf_op) : Prop :=
  match op with
  | OpPut d => zlen d < 2 ^ 63
  | OpPutSelf off len => 0 <= off /\ 0 <= len /\ off + len <= n
  | OpWrite off d => 0 <= off <= n /\ zlen d < 2 ^ 63
  | OpInsert pos len => 0 <= pos <= n /\ 0 <= len < 2 ^ 63
  | _ => True
  end.

Lemma dbuf_step_refines s op :
  dbuf_wf s -> op_ok (size s) op ->
  exists s', dbuf_step s op = Some s' /\ dbuf_wf s' /\
    ((error s' = error s /\ bytes_step op (content s) (content s'))
     \/ (error s' = true /\ content s' = content s)).
Proof.
  intros Hwf Hok.
  assert (Hput : forall d, zlen d < 2 ^ 63 ->
    exists s', fst <$> dbuf_put s d = Some s' /\ dbuf_wf s' /\
      ((error s' = error s /\ content s' = content s ++ d)
       \/ (error s' = true /\ content s' = content s))).
  { intros d Hd. destruct (dbuf_put_spec s d Hwf Hd) as (s' & r & -> & Hw & Hr).
    exists s'. split; [done|]. split; [done|]. destruct Hr as [(_ & ? & ?)|(_ & ? & ?)]; auto. }
  destruct op as [d|c|v|v|v|off len|off d|pos len]; cbn [op_ok] in Hok;
    unfold dbuf_step, dbuf_putc, dbuf_put_u16, dbuf_put_u32, dbuf_put_u64.
  1-5: match goal with |- context [dbuf_put _ ?d] =>
         destruct (Hput d) as (s' & -> & Hw & [[He Hc]|[He Hc]]);
           [first [exact Hok | rewrite zlen_le_bytes; lia | vm_compute; done] | |]
       end; exists s'; split_and!; auto; left; rewrite Hc; split; [done|constructor].
  - destruct Hok as (? & ? & ?).
    destruct (dbuf_put_self_spec s off len) as (s' & r & -> & Hw & [(-> & Hc & He)|(-> & Hc & He)]);
      [done..| |]; exists s'; cbn; split_and!; auto. left. rewrite Hc. split; [done|constructor].
  - destruct Hok as (? & ?).
    destruct (dbuf_write_spec s off d) as (s' & r & -> & Hw & [(-> & He & Hc)|(-> & Hc & He)]);
      [done..| |]; exists s'; cbn; split_and!; auto. left. rewrite Hc. split; [done|constructor].
  - destruct Hok as (? & ? & ?).
    destruct (dbuf_insert_spec s pos len)
      as (s' & r & -> & Hw & [(-> & He & hole & Hh & Hc)|(-> & Hc & He)]);
      [done..| |]; exists s'; cbn; split_and!; auto. left. rewrite Hc.
    split; [done|]. by constructor.
Qed.

(** Every operation of a run is called within its obligations. *)
Fixpoint run_ok (s : DynBuf) (ops : list dbuf_op) : Prop :=
  match ops with
  | [] => True
  | op :: ops' =>
      op_ok (size s) op /\ forall s', dbuf_step s op = Some s' -> run_ok s' ops'
  end.

(** C14: Any sequence of buffer operations (put, put_u16/u32/u64, put_self, write,
    insert) whose callers respect the range obligations never touches memory outside
    the block, keeps the buffer invariant, and, unless the sticky error flag is set at
    the end, has exactly the effect of the abstract byte-sequence operations. *)
Theorem dbuf_run_refines s ops :
  dbuf_wf s -> run_ok s ops ->
  exists s', dbuf_run s ops = Some s' /\ dbuf_wf s' /\
    (error s' = false -> error s = false /\ bytes_steps ops (content s) (content s')).
Proof.
  revert s. induction ops as [|op ops IH]; intros s Hwf Hok.
  { exists s. split_and!; try done. intros ?. split; [done|constructor]. }
  destruct Hok as [Hop Hrest].
  destruct (dbuf_step_refines s op Hwf Hop) as (s1 & E & Hwf1 & Hs1).
  destruct (IH s1 Hwf1 (Hrest _ E)) as (s' & E' & Hwf' & Hs').
  exists s'. cbn. rewrite E. split_and!; [done..|].
  intros Hf. destruct (Hs' Hf) as [He1 Hst].
  destruct Hs1 as [[He Hb]|[He _]]; [|congruence].
  split; [congruence|]. econstructor; eauto.
Qed.
End dynbuf.

(** ** A concrete allocator

    Blocks up to a limit; the fresh bytes are zero. *)
Definition limit_alloc (limit : Z) : Allocator := fun b n =>
  if (0 <=? n) && (n <=? limit)
  then Some (take (Z.to_nat n) b ++ replicate (Z.to_nat n - length b) 0) else None.

Lemma limit_alloc_ok limit : limit < 2 ^ 63 -> AllocatorOk (limit_alloc limit).
Proof.
  intros Hl. split; unfold realloc_func, limit_alloc; intros b n b'.
  all: destruct (Z.leb_spec 0 n), (Z.leb_spec n limit); cbn [andb]; try done.
  - intros [= <-]. unfold zlen. rewrite length_app, length_take, length_replicate. lia.
  - intros k [= <-] Hk Hn. unfold zlen in Hk.
    rewrite take_app_le, take_take by (rewrite length_take; lia). f_equal. lia.
  - lia.
Qed.

#[export] Instance limit_alloc_4096 : AllocatorOk (limit_alloc 4096).
Proof. by apply limit_alloc_ok. Qed.

Lemma dbuf_run_refines_witness :
  let A := limit_alloc 4096 in
  let ops := [OpPut [1; 2; 3]; OpPutU16 258; OpPutSelf 0 2; OpInsert 1 2] in
  exists s', dbuf_run dbuf_init ops = Some s' /\
    content s' = [1; 2; 3; 2; 3; 2; 1; 1; 2] /\ bytes_steps ops [] (content s').
Proof.
  intros A ops.
  destruct (dbuf_run_refines (H := A) dbuf_init ops) as (s' & E & _ & Hs').
  - exact dbuf_init_wf.
  - repeat first
      [ exact I
      | split; [ first [exact I | vm_compute; try done; try (repeat split; congruence)]
               | let E := fresh in intros ? E; vm_compute in E; injection E as <- ] ].
  - assert (E2 := E). vm_compute in E2. injection E2 as <-.
    destruct (Hs' eq_refl) as [_ Hst]. eexists. split; [exact E|]. split; [reflexivity|exact Hst].
Defined.
