(* ===== verification/Utf8.v ===== *)
(** * UTF-8 encoding and decoding (cutils.c)

    [unicode_to_utf8] and [unicode_from_utf8], for code points up to 31 bits. *)

From S2P Require Import Prelude Bytes.

Definition UTF8_CHAR_LEN_MAX : Z := 6.

(** ** Definitions *)

(** The last [k] continuation bytes of [c]: [((c >> 6 i) & 0x3f) | 0x80]. *)
Fixpoint utf8_tail (k : nat) (c : Z) : list Z :=
  match k with
  | O => []
  | S k' => Z.lor (Z.land (Z.shiftr c (6 * Z.of_nat k')) 0x3f) 0x80 :: utf8_tail k' c
  end.

(** The bytes written; the C result is their number. [c] is an [unsigned int], and
    a byte store truncates. *)
Definition unicode_to_utf8 (c : Z) : list Z :=
  if c <? 0x80 then [u8 c]
  else if c <? 0x800 then u8 (Z.lor (Z.shiftr c 6) 0xc0) :: utf8_tail 1 c
  else if c <? 0x10000 then u8 (Z.lor (Z.shiftr c 12) 0xe0) :: utf8_tail 2 c
  else if c <? 0x00200000 then u8 (Z.lor (Z.shiftr c 18) 0xf0) :: utf8_tail 3 c
  else if c <? 0x04000000 then u8 (Z.lor (Z.shiftr c 24) 0xf8) :: utf8_tail 4 c
  else if c <? 0x80000000 then u8 (Z.lor (Z.shiftr c 30) 0xfc) :: utf8_tail 5 c
  else [].

Definition utf8_min_code : list Z := [0x80; 0x800; 0x10000; 0x00200000; 0x04000000].
Definition utf8_first_code_mask : list Z := [0x1f; 0xf; 0x7; 0x3; 0x1].

(** The decoding loop over [l] continuation bytes at [p]. The outer [None] is a read
    outside the object; [Some None] is the C result -1. *)
Fixpoint utf8_cont (l : nat) (c : Z) (p : list Z) : option (option (Z * list Z)) :=
  match l with
  | O => Some (Some (c, p))
  | S l' =>
      match p with
      | [] => None
      | b :: p' =>
          if (b <? 0x80) || (b >=? 0xc0) then Some None
          else utf8_cont l' (Z.lor (Z.shiftl c 6) (Z.land b 0x3f)) p'
      end
  end.

(** The number of continuation bytes announced by a first byte (the [switch]). *)
Definition utf8_extra (c : Z) : option Z :=
  if (0xc0 <=? c) && (c <=? 0xdf) then Some 1
  else if (0xe0 <=? c) && (c <=? 0xef) then Some 2
  else if (0xf0 <=? c) && (c <=? 0xf7) then Some 3
  else if (0xf8 <=? c) && (c <=? 0xfb) then Some 4
  else if (0xfc <=? c) && (c <=? 0xfd) then Some 5
  else None.

(** [p] is what remains of the object from the pointer on. On success the code point
    is returned with the new pointer. *)
Definition unicode_from_utf8 (p : list Z) (max_len : Z) : option (option (Z * list Z)) :=
  match p with
  | [] => None
  | c :: p' =>
      if c <? 0x80 then Some (Some (c, p'))
      else match utf8_extra c with
           | None => Some None
           | Some l =>
               if l >? max_len - 1 then Some None
               else mask ← znth utf8_first_code_mask (l - 1);
                    min_code ← znth utf8_min_code (l - 1);
                    r ← utf8_cont (Z.to_nat l) (Z.land c mask) p';
                    match r with
                    | None => Some None
                    | Some (c, p'') =>
                        if c <? min_code then Some None else Some (Some (c, p''))
                    end
           end
  end.

(** ** Arithmetic of the encoding *)

Lemma tail_byte c k :
  Z.lor (Z.land (Z.shiftr c (6 * Z.of_nat k)) 0x3f) 0x80
  = 128 + (c / 64 ^ Z.of_nat k) mod 64.
Proof.
  rewrite (land_mask _ 0x3f 6) by lia.
  rewrite (lor_flag_add _ 0x80 6) by (try apply Z.mod_pos_bound; lia || reflexivity).
  rewrite Z.shiftr_div_pow2, Z.pow_mul_r by lia. change (2 ^ 6) with 64. lia.
Qed.

Lemma cont_step c b :
  0 <= c -> 128 <= b < 192 -> Z.lor (Z.shiftl c 6) (Z.land b 0x3f) = 64 * c + (b - 128).
Proof.
  intros Hc Hb. rewrite (land_mask _ 0x3f 6) by lia.
  assert (b mod 2 ^ 6 = b - 128) as ->.
  { symmetry. apply Z.mod_unique with 2; lia. }
  rewrite lor_shiftl_add by lia. lia.
Qed.

Lemma cont_test b : (b <? 0x80) || (b >=? 0xc0) = negb ((128 <=? b) && (b <? 192)).
Proof. repeat destruct_cmp; cbn; try done; lia. Qed.

(** Reading back the continuation bytes of [c] extends the accumulator by the low
    [6 k] bits of [c]. *)
Lemma utf8_cont_tail k c a rest :
  0 <= a -> 0 <= c ->
  utf8_cont k a (utf8_tail k c ++ rest)
  = Some (Some (a * 64 ^ Z.of_nat k + c mod 64 ^ Z.of_nat k, rest)).
Proof.
  revert a. induction k as [|k IH]; intros a Ha Hc.
  { cbn. rewrite Z.mod_1_r. do 3 f_equal. lia. }
  cbn [utf8_tail utf8_cont app]. rewrite tail_byte, cont_test.
  pose proof (Z.mod_pos_bound (c / 64 ^ Z.of_nat k) 64 ltac:(lia)) as Hm.
  rewrite (proj2 (Z.leb_le _ _)), (proj2 (Z.ltb_lt _ _)) by lia. cbn [andb negb].
  rewrite cont_step, IH by lia. do 3 f_equal.
  rewrite Nat2Z.inj_succ, Z.pow_succ_r by lia.
  pose proof (Z.pow_pos_nonneg 64 (Z.of_nat k) ltac:(lia) ltac:(lia)).
  rewrite (Z.mul_comm 64 (64 ^ _)), Z.rem_mul_r by lia. lia.
Qed.

(** Conversely, accepted continuation bytes are the encoding of what was read. *)
Lemma utf8_cont_inv k a p c rest :
  0 <= a -> utf8_cont k a p = Some (Some (c, rest)) ->
  p = utf8_tail k c ++ rest /\ c / 64 ^ Z.of_nat k = a.
Proof.
  revert a p. induction k as [|k IH]; intros a p Ha E.
  { cbn in E. injection E as <- <-. cbn. split; [done|]. by rewrite Z.div_1_r. }
  cbn [utf8_cont] in E. destruct p as [|b p]; [done|]. rewrite cont_test in E.
  destruct (Z.leb_spec 128 b), (Z.ltb_spec b 192); cbn [andb negb] in E; try done.
  rewrite cont_step in E by lia. apply IH in E as [-> Hc]; [|lia].
  cbn [utf8_tail app]. rewrite tail_byte, Hc.
  pose proof (Z.pow_pos_nonneg 64 (Z.of_nat k) ltac:(lia) ltac:(lia)).
  rewrite Nat2Z.inj_succ, Z.pow_succ_r, (Z.mul_comm 64 (64 ^ Z.of_nat k)), <- Z.div_div, Hc by lia.
  split; [do 2 f_equal|]; divlia.
Qed.

(** One clause of the encoder: lead byte flag [m], [k] continuation bytes. *)
Lemma lead_byte c m k w :
  0 <= w -> 0 <= c < 2 ^ w * 64 ^ Z.of_nat k -> m mod 2 ^ w = 0 -> 0 <= m -> m + 2 ^ w <= 256 ->
  u8 (Z.lor (Z.shiftr c (6 * Z.of_nat k)) m) = m + c / 64 ^ Z.of_nat k.
Proof.
  intros Hw Hc Hm Hm0 Hle. rewrite Z.shiftr_div_pow2, Z.pow_mul_r by lia.
  change (2 ^ 6) with 64.
  pose proof (Z.pow_pos_nonneg 64 (Z.of_nat k) ltac:(lia) ltac:(lia)).
  assert (0 <= c / 64 ^ Z.of_nat k < 2 ^ w).
  { split; [apply Z.div_pos; lia|]. apply Z.div_lt_upper_bound; lia. }
  rewrite (lor_flag_add _ m w) by done. rewrite u8_small by lia. lia.
Qed.

(** ** Encoding and decoding are inverse *)

Lemma five_cases l (P : Z -> Prop) :
  P 1 -> P 2 -> P 3 -> P 4 -> P 5 -> 1 <= l <= 5 -> P l.
Proof.
  intros. assert (l = 1 \/ l = 2 \/ l = 3 \/ l = 4 \/ l = 5) as Hc by lia.
  destruct Hc as [-> | [-> | [-> | [-> | ->]]]]; done.
Qed.

(** The least code point that needs [l] continuation bytes. *)
Definition min_code (l : Z) : Z := if l =? 1 then 128 else 2 ^ (5 * l + 1).

Lemma znth_mask l :
  1 <= l <= 5 ->
  znth utf8_first_code_mask (l - 1) = Some (2 ^ (6 - l) - 1) /\
  znth utf8_min_code (l - 1) = Some (min_code l).
Proof. intros Hl. pattern l. apply five_cases; [by split..|done]. Qed.

(** What the [switch] says of a lead byte with payload [q]. *)
Lemma lead_facts l q :
  1 <= l <= 5 -> 0 <= q < 2 ^ (6 - l) ->
  utf8_extra (256 - 2 ^ (7 - l) + q) = Some l
  /\ 0x80 <= 256 - 2 ^ (7 - l) + q < 256
  /\ (256 - 2 ^ (7 - l) + q) mod 2 ^ (6 - l) = q.
Proof.
  intros Hl Hq. revert Hq. pattern l. apply five_cases; try done; intros Hq;
    cbn in Hq; cbn [Z.sub Z.pow Z.add Z.opp Z.pow_pos Pos.iter Z.mul Z.pos_sub].
  all: split; [unfold utf8_extra; repeat (destruct_cmp; try (exfalso; lia); cbn [andb]); done|].
  all: split; [lia|symmetry].
  - apply Z.mod_unique with 6; lia.
  - apply Z.mod_unique with 14; lia.
  - apply Z.mod_unique with 30; lia.
  - apply Z.mod_unique with 62; lia.
  - apply Z.mod_unique with 126; lia.
Qed.

(** The decoder on a lead byte for [l] continuation bytes followed by these. *)
Lemma from_utf8_lead l c rest max_len :
  1 <= l <= 5 -> l < max_len ->
  min_code l <= c < 2 ^ (6 - l) * 64 ^ l ->
  unicode_from_utf8
    ((256 - 2 ^ (7 - l) + c / 64 ^ l) :: utf8_tail (Z.to_nat l) c ++ rest) max_len
  = Some (Some (c, rest)).
Proof.
  intros Hl Hmax Hc.
  pose proof (Z.pow_pos_nonneg 64 l ltac:(lia) ltac:(lia)).
  assert (Hcn : 0 <= c).
  { enough (0 <= min_code l) by lia. unfold min_code. destruct_cmp; [lia|]. by apply Z.pow_nonneg. }
  assert (Hq : 0 <= c / 64 ^ l < 2 ^ (6 - l)).
  { split; [apply Z.div_pos; lia|]. apply Z.div_lt_upper_bound; lia. }
  set (q := c / 64 ^ l) in *.
  destruct (lead_facts l q Hl Hq) as (Hex & Hge & Hmod).
  destruct (znth_mask l Hl) as (Em & En).
  cbn [unicode_from_utf8]. rewrite (proj2 (Z.ltb_ge _ _)) by lia.
  rewrite Hex, Z.gtb_ltb, (proj2 (Z.ltb_ge _ _)) by lia.
  rewrite Em, En. cbn [mbind option_bind].
  rewrite (land_mask _ _ (6 - l)) by lia. rewrite Hmod.
  rewrite utf8_cont_tail by lia. cbn. rewrite Z2Nat.id by lia.
  replace (q * 64 ^ l + c mod 64 ^ l) with c by (subst q; pose proof (Z.div_mod c (64 ^ l)); lia).
  by rewrite (proj2 (Z.ltb_ge _ _)) by lia.
Qed.

(** The first code point that needs more than [l] continuation bytes. *)
Lemma max_code l : 1 <= l <= 5 -> 2 ^ (6 - l) * 64 ^ l = 2 ^ (5 * l + 6).
Proof.
  intros. change 64 with (2 ^ 6). rewrite <- Z.pow_mul_r, <- Z.pow_add_r by lia.
  f_equal. lia.
Qed.

(** The encoder chooses the clause of the length of the code. *)
Lemma to_utf8_clause l c :
  1 <= l <= 5 -> min_code l <= c < 2 ^ (5 * l + 6) ->
  unicode_to_utf8 c = u8 (Z.lor (Z.shiftr c (6 * l)) (256 - 2 ^ (7 - l))) :: utf8_tail (Z.to_nat l) c.
Proof.
  intros Hl. pattern l. apply five_cases; try done; intros Hc.
  all: match type of Hc with _ /\ _ < ?b =>
         let b' := eval vm_compute in b in change b with b' in Hc end.
  all: match type of Hc with ?a <= _ /\ _ =>
         let a' := eval vm_compute in a in change a with a' in Hc end.
  all: repeat match goal with |- context [6 * ?k] =>
         let k' := eval vm_compute in (6 * k) in change (6 * k) with k' end.
  all: repeat match goal with |- context [256 - ?k] =>
         let k' := eval vm_compute in (256 - k) in change (256 - k) with k' end.
  all: match goal with |- context [Z.to_nat ?k] =>
         let k' := eval vm_compute in (Z.to_nat k) in change (Z.to_nat k) with k' end.
  all: unfold unicode_to_utf8;
    repeat (destruct_cmp; [try (exfalso; lia)|try (exfalso; lia)]); done.
Qed.

Lemma to_utf8_lead l c :
  1 <= l <= 5 -> min_code l <= c < 2 ^ (6 - l) * 64 ^ l ->
  unicode_to_utf8 c = (256 - 2 ^ (7 - l) + c / 64 ^ l) :: utf8_tail (Z.to_nat l) c.
Proof.
  intros Hl Hc. assert (0 <= min_code l) by (clear - Hl; pattern l; by apply five_cases).
  rewrite (to_utf8_clause l) by (rewrite <- ?max_code; done). f_equal.
  replace (6 * l) with (6 * Z.of_nat (Z.to_nat l)) by lia.
  rewrite (lead_byte c _ (Z.to_nat l) (6 - l)); rewrite ?Z2Nat.id by lia; try lia.
  all: clear - Hl; pattern l; by apply five_cases.
Qed.

Lemma code_cases c :
  0 <= c < 2 ^ 31 -> c < 128 \/ exists l, 1 <= l <= 5 /\ min_code l <= c < 2 ^ (6 - l) * 64 ^ l.
Proof.
  intros Hc. destruct (decide (c < 128)); [by left|right].
  destruct (decide (c < 0x800)); [exists 1|].
  2: destruct (decide (c < 0x10000)); [exists 2|].
  3: destruct (decide (c < 0x200000)); [exists 3|].
  4: destruct (decide (c < 0x4000000)); [exists 4|exists 5].
  all: cbn; lia.
Qed.

(** C15: Decoding the UTF-8 encoding of any 31-bit code point gives back the code
    point and the rest of the input. *)
Theorem utf8_decode_encode c rest :
  0 <= c < 2 ^ 31 ->
  unicode_from_utf8 (unicode_to_utf8 c ++ rest) UTF8_CHAR_LEN_MAX = Some (Some (c, rest)).
Proof.
  intros Hc. destruct (code_cases c Hc) as [Hs|(l & Hl & Hr)].
  - unfold unicode_to_utf8. rewrite (proj2 (Z.ltb_lt _ _)) by lia.
    rewrite u8_small by lia. cbn. by rewrite (proj2 (Z.ltb_lt _ _)) by lia.
  - rewrite (to_utf8_lead l) by done. cbn [app].
    apply from_utf8_lead; [done| |done]. unfold UTF8_CHAR_LEN_MAX. lia.
Qed.

Lemma utf8_decode_encode_witness :
  0 <= 0x1F600 < 2 ^ 31 /\
  unicode_from_utf8 ([0xf0; 0x9f; 0x98; 0x80] ++ [7]) 6 = Some (Some (0x1F600, [7])).
Proof. split; [lia|]. exact (utf8_decode_encode 0x1F600 [7] ltac:(lia)). Defined.

Lemma utf8_extra_inv b l :
  utf8_extra b = Some l ->
  1 <= l <= 5 /\ 256 - 2 ^ (7 - l) <= b < 256 - 2 ^ (7 - l) + 2 ^ (6 - l).
Proof.
  unfold utf8_extra. intros E.
  repeat (destruct_cmp_in E; cbn [andb] in E; try done);
    injection E as <-; cbn; lia.
Qed.

Lemma unicode_from_utf8_inv p max_len c rest :
  Forall is_byte p -> unicode_from_utf8 p max_len = Some (Some (c, rest)) ->
  0 <= c < 2 ^ 31 /\ p = unicode_to_utf8 c ++ rest.
Proof.
  intros Hb E. destruct p as [|b p]; [done|]. apply Forall_cons_1 in Hb as [Hb Hp].
  unfold is_byte in Hb. cbn [unicode_from_utf8] in E.
  destruct (Z.ltb_spec b 0x80).
  { injection E as <- <-. split; [lia|]. unfold unicode_to_utf8.
    rewrite (proj2 (Z.ltb_lt _ _)) by lia. by rewrite u8_small by lia. }
  destruct (utf8_extra b) as [l|] eqn:El; [|done].
  apply utf8_extra_inv in El as [Hl Hbr].
  destruct (l >? max_len - 1); [done|].
  destruct (znth_mask l Hl) as (Em & En). rewrite Em, En in E. cbn [mbind option_bind] in E.
  set (q := b - (256 - 2 ^ (7 - l))). assert (Hq : 0 <= q < 2 ^ (6 - l)) by lia.
  destruct (lead_facts l q Hl Hq) as (_ & _ & Hmod).
  replace (256 - 2 ^ (7 - l) + q) with b in Hmod by lia.
  rewrite (land_mask _ _ (6 - l)), Hmod in E by lia.
  destruct (utf8_cont _ q p) as [[[c' p']|]|] eqn:Ec; cbn [mbind option_bind] in E; try done.
  destruct (Z.ltb_spec c' (min_code l)); [done|]. injection E as <- <-.
  apply utf8_cont_inv in Ec as [-> Hdiv]; [|lia]. rewrite Z2Nat.id in Hdiv by lia.
  pose proof (Z.pow_pos_nonneg 64 l ltac:(lia) ltac:(lia)).
  assert (Hr : min_code l <= c' < 2 ^ (6 - l) * 64 ^ l).
  { split; [done|]. pose proof (Z.div_mod c' (64 ^ l) ltac:(lia)).
    pose proof (Z.mod_pos_bound c' (64 ^ l) ltac:(lia)). nia. }
  split.
  - assert (0 <= min_code l) by (clear - Hl; pattern l; by apply five_cases).
    assert (2 ^ (6 - l) * 64 ^ l <= 2 ^ 31) by (clear - Hl; pattern l; by apply five_cases).
    lia.
  - rewrite (to_utf8_lead l) by done. rewrite Hdiv. cbn. f_equal. lia.
Qed.

(** C16: Whatever byte sequence the decoder accepts is exactly the encoder's output
    for the code point it returns: overlong, truncated and malformed sequences are
    rejected. *)
Theorem utf8_decode_canonical p max_len c rest :
  Forall is_byte p -> unicode_from_utf8 p max_len = Some (Some (c, rest)) ->
  0 <= c < 2 ^ 31 /\ p = unicode_to_utf8 c ++ rest.
Proof. apply unicode_from_utf8_inv. Qed.

Lemma utf8_decode_canonical_witness :
  unicode_from_utf8 [0xe2; 0x82; 0xac; 33] 6 = Some (Some (0x20ac, [33])) /\
  [0xe2; 0x82; 0xac; 33] = unicode_to_utf8 0x20ac ++ [33].
Proof.
  split; [reflexivity|].
  refine (proj2 (utf8_decode_canonical [0xe2; 0x82; 0xac; 33] 6 0x20ac [33] _ eq_refl)).
  repeat constructor; lia.
Defined.

(** The reader stays inside a zero terminated string. *)
Lemma utf8_cont_safe k a p : 0 ∈ p -> utf8_cont k a p <> None.
Proof.
  revert a p. induction k as [|k IH]; intros a p Hp; [done|].
  destruct p as [|b p]; [by apply elem_of_nil in Hp|]. cbn.
  destruct (Z.eqb_spec b 0) as [->|]; [done|].
  destruct (_ || _); [done|]. apply IH. apply elem_of_cons in Hp as [|]; [lia|done].
Qed.

(** It consumes at least one byte, and stops before the terminator of the string
    unless it starts on it. *)
Lemma unicode_from_utf8_safe p max_len :
  0 ∈ p -> exists r, unicode_from_utf8 p max_len = Some r.
Proof.
  intros Hp. destruct p as [|b p]; [by apply elem_of_nil in Hp|]. cbn.
  destruct (Z.ltb_spec b 0x80); [eauto|].
  destruct (utf8_extra b) as [l|] eqn:El; [|eauto].
  apply utf8_extra_inv in El as [Hl _].
  destruct (l >? max_len - 1); [eauto|].
  destruct (znth_mask l Hl) as (-> & ->). cbn.
  apply elem_of_cons in Hp as [|Hp]; [lia|].
  destruct (utf8_cont _ _ p) as [[[c p']|]|] eqn:Ec; cbn; [destruct_cmp| |]; eauto.
  by apply utf8_cont_safe in Ec.
Qed.

Lemma utf8_cont_rest k a p c rest :
  0 ∈ p -> utf8_cont k a p = Some (Some (c, rest)) -> 0 ∈ rest /\ zlen rest <= zlen p.
Proof.
  revert a p. induction k as [|k IH]; intros a p Hp E; cbn in E; [injection E as <- <-; by split|].
  destruct p as [|b p]; [done|]. destruct (Z.ltb_spec b 0x80); [done|]. cbn [orb] in E.
  destruct (b >=? 0xc0); [done|]. apply elem_of_cons in Hp as [|Hp]; [lia|].
  apply IH in E as [? ?]; [|done]. split; [done|]. zlen_lia.
Qed.

Lemma unicode_from_utf8_rest p max_len c rest :
  0 ∈ tail p -> unicode_from_utf8 p max_len = Some (Some (c, rest)) ->
  0 ∈ rest /\ zlen rest < zlen p.
Proof.
  intros Hp E. destruct p as [|b p]; [by apply elem_of_nil in Hp|]. cbn [unicode_from_utf8] in E. cbn [tail] in Hp.
  destruct (Z.ltb_spec b 0x80).
  { injection E as <- <-. split; [done|]. zlen_lia. }
  destruct (utf8_extra b) as [l|]; [|done]. destruct (l >? max_len - 1); [done|].
  destruct (znth utf8_first_code_mask _) as [mask|]; cbn [mbind option_bind] in E; [|done].
  destruct (znth utf8_min_code _) as [mn|]; cbn [mbind option_bind] in E; [|done].
  destruct (utf8_cont _ _ p) as [[[c' p']|]|] eqn:Ec; cbn [mbind option_bind] in E; try done.
  destruct (c' <? mn); [done|]. injection E as <- <-.
  apply utf8_cont_rest in Ec as [? ?]; [|done]. split; [done|]. zlen_lia.
Qed.
