(* ===== verification/UnicodeTables.v ===== *)
(** * The compressed Unicode tables (libunicode-table.h)

    The tables of the case conversions and of the four properties that libunicode.c
    looks up, as the header of the code lists them. *)

From S2P Require Import Prelude.

Definition case_conv_table1 : list Z := [
  0x00209a30; 0x00309a00; 0x005a8173; 0x00601730; 0x006c0730; 0x006f81b3;
  0x00701700; 0x007c0700; 0x007f8100; 0x00803040; 0x009801c3; 0x00988190;
  0x00990640; 0x009c9040; 0x00a481b4; 0x00a52e40; 0x00bc0130; 0x00bc8640;
  0x00bf8170; 0x00c00100; 0x00c08130; 0x00c10440; 0x00c30130; 0x00c38240;
  0x00c48230; 0x00c58240; 0x00c70130; 0x00c78130; 0x00c80130; 0x00c88240;
  0x00c98130; 0x00ca0130; 0x00ca8100; 0x00cb0130; 0x00cb8130; 0x00cc0240;
  0x00cd0100; 0x00ce0130; 0x00ce8130; 0x00cf0100; 0x00cf8130; 0x00d00640;
  0x00d30130; 0x00d38240; 0x00d48130; 0x00d60240; 0x00d70130; 0x00d78240;
  0x00d88230; 0x00d98440; 0x00db8130; 0x00dc0240; 0x00de0240; 0x00df8100;
  0x00e20350; 0x00e38350; 0x00e50350; 0x00e69040; 0x00ee8100; 0x00ef1240;
  0x00f801b4; 0x00f88350; 0x00fa0240; 0x00fb0130; 0x00fb8130; 0x00fc2840;
  0x01100130; 0x01111240; 0x011d0131; 0x011d8240; 0x011e8130; 0x011f0131;
  0x011f8201; 0x01208240; 0x01218130; 0x01220130; 0x01228130; 0x01230a40;
  0x01280101; 0x01288101; 0x01290101; 0x01298100; 0x012a0100; 0x012b0200;
  0x012c8100; 0x012d8100; 0x012e0101; 0x01300100; 0x01308101; 0x01318100;
  0x01328101; 0x01330101; 0x01340100; 0x01348100; 0x01350101; 0x01358101;
  0x01360101; 0x01378100; 0x01388101; 0x01390100; 0x013a8100; 0x013e8101;
  0x01400100; 0x01410101; 0x01418100; 0x01438101; 0x01440100; 0x01448100;
  0x01450200; 0x01460100; 0x01490100; 0x014e8101; 0x014f0101; 0x01a28173;
  0x01b80440; 0x01bb0240; 0x01bd8300; 0x01bf8130; 0x01c30130; 0x01c40330;
  0x01c60130; 0x01c70230; 0x01c801d0; 0x01c89130; 0x01d18930; 0x01d60100;
  0x01d68300; 0x01d801d3; 0x01d89100; 0x01e10173; 0x01e18900; 0x01e60100;
  0x01e68200; 0x01e78130; 0x01e80173; 0x01e88173; 0x01ea8173; 0x01eb0173;
  0x01eb8100; 0x01ec1840; 0x01f80173; 0x01f88173; 0x01f90100; 0x01f98100;
  0x01fa01a0; 0x01fa8173; 0x01fb8240; 0x01fc8130; 0x01fd0240; 0x01fe8330;
  0x02001030; 0x02082030; 0x02182000; 0x02281000; 0x02302240; 0x02453640;
  0x02600130; 0x02608e40; 0x02678100; 0x02686040; 0x0298a630; 0x02b0a600;
  0x02c381b5; 0x08502631; 0x08638131; 0x08668131; 0x08682b00; 0x087e8300;
  0x09d05011; 0x09f80610; 0x09fc0620; 0x0e400174; 0x0e408174; 0x0e410174;
  0x0e418174; 0x0e420174; 0x0e428174; 0x0e430174; 0x0e438180; 0x0e440180;
  0x0e482b30; 0x0e5e8330; 0x0ebc8101; 0x0ebe8101; 0x0ec70101; 0x0f007e40;
  0x0f3f1840; 0x0f4b01b5; 0x0f4b81b6; 0x0f4c01b6; 0x0f4c81b6; 0x0f4d01b7;
  0x0f4d8180; 0x0f4f0130; 0x0f506040; 0x0f800800; 0x0f840830; 0x0f880600;
  0x0f8c0630; 0x0f900800; 0x0f940830; 0x0f980800; 0x0f9c0830; 0x0fa00600;
  0x0fa40630; 0x0fa801b0; 0x0fa88100; 0x0fa901d3; 0x0fa98100; 0x0faa01d3;
  0x0faa8100; 0x0fab01d3; 0x0fab8100; 0x0fac8130; 0x0fad8130; 0x0fae8130;
  0x0faf8130; 0x0fb00800; 0x0fb40830; 0x0fb80200; 0x0fb90400; 0x0fbb0200;
  0x0fbc0201; 0x0fbd0201; 0x0fbe0201; 0x0fc008b7; 0x0fc40867; 0x0fc808b8;
  0x0fcc0868; 0x0fd008b8; 0x0fd40868; 0x0fd80200; 0x0fd901b9; 0x0fd981b1;
  0x0fda01b9; 0x0fdb01b1; 0x0fdb81d7; 0x0fdc0230; 0x0fdd0230; 0x0fde0161;
  0x0fdf0173; 0x0fe101b9; 0x0fe181b2; 0x0fe201ba; 0x0fe301b2; 0x0fe381d8;
  0x0fe40430; 0x0fe60162; 0x0fe80200; 0x0fe901d0; 0x0fe981d0; 0x0feb01b0;
  0x0feb81d0; 0x0fec0230; 0x0fed0230; 0x0ff00201; 0x0ff101d3; 0x0ff181d3;
  0x0ff201ba; 0x0ff28101; 0x0ff301b0; 0x0ff381d3; 0x0ff40230; 0x0ff50230;
  0x0ff60131; 0x0ff901ba; 0x0ff981b2; 0x0ffa01bb; 0x0ffb01b2; 0x0ffb81d9;
  0x0ffc0230; 0x0ffd0230; 0x0ffe0162; 0x109301a0; 0x109501a0; 0x109581a0;
  0x10990131; 0x10a70101; 0x10b01031; 0x10b81001; 0x10c18240; 0x125b1a31;
  0x12681a01; 0x16002f31; 0x16182f01; 0x16300240; 0x16310130; 0x16318130;
  0x16320130; 0x16328100; 0x16330100; 0x16338640; 0x16368130; 0x16370130;
  0x16378130; 0x16380130; 0x16390240; 0x163a8240; 0x163f0230; 0x16406440;
  0x16758440; 0x16790240; 0x16802600; 0x16938100; 0x16968100; 0x53202e40;
  0x53401c40; 0x53910e40; 0x53993e40; 0x53bc8440; 0x53be8130; 0x53bf0a40;
  0x53c58240; 0x53c68130; 0x53c80440; 0x53ca0101; 0x53cb1440; 0x53d50130;
  0x53d58130; 0x53d60130; 0x53d68130; 0x53d70130; 0x53d80130; 0x53d88130;
  0x53d90130; 0x53d98131; 0x53da0c40; 0x53e10240; 0x53e20131; 0x53e28130;
  0x53e30130; 0x53e38440; 0x53fa8240; 0x55a98101; 0x55b85020; 0x7d8001b2;
  0x7d8081b2; 0x7d8101b2; 0x7d8181da; 0x7d8201da; 0x7d8281b3; 0x7d8301b3;
  0x7d8981bb; 0x7d8a01bb; 0x7d8a81bb; 0x7d8b01bc; 0x7d8b81bb; 0x7f909a31;
  0x7fa09a01; 0x82002831; 0x82142801; 0x82582431; 0x826c2401; 0x86403331;
  0x86603301; 0x8c502031; 0x8c602001; 0xb7202031; 0xb7302001; 0xf4802231;
  0xf4912201].

Definition case_conv_table2 : list Z := [
  0x01; 0x00; 0x9c; 0x06; 0x07; 0x4d; 0x03; 0x04;
  0x10; 0x00; 0x8f; 0x0b; 0x00; 0x00; 0x11; 0x00;
  0x08; 0x00; 0x53; 0x4a; 0x51; 0x00; 0x52; 0x00;
  0x53; 0x00; 0x3a; 0x54; 0x55; 0x00; 0x57; 0x59;
  0x3f; 0x5d; 0x5c; 0x00; 0x46; 0x61; 0x63; 0x42;
  0x64; 0x00; 0x66; 0x00; 0x68; 0x00; 0x6a; 0x00;
  0x6c; 0x00; 0x6e; 0x00; 0x00; 0x40; 0x00; 0x00;
  0x00; 0x00; 0x1a; 0x00; 0x93; 0x00; 0x00; 0x20;
  0x35; 0x00; 0x27; 0x00; 0x21; 0x00; 0x24; 0x22;
  0x2a; 0x00; 0x13; 0x6b; 0x6d; 0x00; 0x26; 0x24;
  0x27; 0x14; 0x16; 0x18; 0x1b; 0x1c; 0x3e; 0x1e;
  0x3f; 0x1f; 0x39; 0x3d; 0x22; 0x21; 0x41; 0x1e;
  0x40; 0x25; 0x25; 0x26; 0x28; 0x20; 0x2a; 0x49;
  0x2c; 0x43; 0x2e; 0x4b; 0x30; 0x4c; 0x32; 0x44;
  0x42; 0x99; 0x00; 0x00; 0x95; 0x8f; 0x7d; 0x7e;
  0x83; 0x84; 0x12; 0x80; 0x82; 0x76; 0x77; 0x12;
  0x7b; 0xa3; 0x7c; 0x78; 0x79; 0x8a; 0x92; 0x98;
  0xa6; 0xa0; 0x85; 0x00; 0x9a; 0xa1; 0x93; 0x75;
  0x33; 0x95; 0x00; 0x8e; 0x00; 0x74; 0x99; 0x98;
  0x97; 0x96; 0x00; 0x00; 0x9e; 0x00; 0x9c; 0x00;
  0xa1; 0xa0; 0x15; 0x2e; 0x2f; 0x30; 0xb4; 0xb5;
  0x4e; 0xaa; 0xa9; 0x12; 0x14; 0x1e; 0x21; 0x22;
  0x22; 0x2a; 0x34; 0x35; 0xa6; 0xa7; 0x36; 0x1f;
  0x4a; 0x00; 0x00; 0x97; 0x01; 0x5a; 0xda; 0x1d;
  0x36; 0x05; 0x00; 0xc4; 0xc3; 0xc6; 0xc5; 0xc8;
  0xc7; 0xca; 0xc9; 0xcc; 0xcb; 0xc4; 0xd5; 0x45;
  0xd6; 0x42; 0xd7; 0x46; 0xd8; 0xce; 0xd0; 0xd2;
  0xd4; 0xda; 0xd9; 0xee; 0xf6; 0xfe; 0x0e; 0x07;
  0x0f; 0x80; 0x9f; 0x00; 0x21; 0x80; 0xa3; 0xed;
  0x00; 0xc0; 0x40; 0xc6; 0x60; 0xe7; 0xdb; 0xe6;
  0x99; 0xc0; 0x00; 0x00; 0x06; 0x60; 0xdc; 0x29;
  0xfd; 0x15; 0x12; 0x06; 0x16; 0xf8; 0xdd; 0x06;
  0x15; 0x12; 0x84; 0x08; 0xc6; 0x16; 0xff; 0xdf;
  0x03; 0xc0; 0x40; 0x00; 0x46; 0x60; 0xde; 0xe0;
  0x6d; 0x37; 0x38; 0x39; 0x15; 0x14; 0x17; 0x16;
  0x00; 0x1a; 0x19; 0x1c; 0x1b; 0x00; 0x5f; 0xb7;
  0x65; 0x44; 0x47; 0x00; 0x4f; 0x62; 0x4e; 0x50;
  0x00; 0x00; 0x48; 0x00; 0x00; 0x00; 0xa3; 0xa4;
  0xa5; 0x00; 0x00; 0x00; 0x00; 0x00; 0xb6; 0x00;
  0x00; 0x5a; 0x00; 0x48; 0x00; 0x5b; 0x56; 0x58;
  0x60; 0x5e; 0x70; 0x69; 0x6f; 0x4d; 0x00; 0x00;
  0x3b; 0x67; 0xb8; 0x00; 0x00; 0x45; 0xa8; 0x8a;
  0x8b; 0x8c; 0xab; 0xac; 0x58; 0x58; 0xaf; 0x94;
  0xb0; 0x6f; 0xb2; 0x5c; 0x5b; 0x5e; 0x5d; 0x60;
  0x5f; 0x62; 0x61; 0x64; 0x63; 0x66; 0x65; 0x68;
  0x67].

Definition case_conv_ext : list Z := [
  0x0399; 0x0308; 0x0301; 0x03a5; 0x0313; 0x0300; 0x0342; 0x0391;
  0x0397; 0x03a9; 0x0046; 0x0049; 0x004c; 0x0053; 0x0069; 0x0307;
  0x02bc; 0x004e; 0x004a; 0x030c; 0x0535; 0x0552; 0x0048; 0x0331;
  0x0054; 0x0057; 0x030a; 0x0059; 0x0041; 0x02be; 0x1f08; 0x1f80;
  0x1f28; 0x1f90; 0x1f68; 0x1fa0; 0x1fba; 0x0386; 0x1fb3; 0x1fca;
  0x0389; 0x1fc3; 0x03a1; 0x1ffa; 0x038f; 0x1ff3; 0x0544; 0x0546;
  0x053b; 0x054e; 0x053d; 0x03b8; 0x0462; 0xa64a; 0x1e60; 0x03c9;
  0x006b; 0x00e5].

Definition unicode_prop_Cased1_table : list Z := [
  0x40; 0xa9; 0x80; 0x8e; 0x80; 0xfc; 0x80; 0xd3;
  0x80; 0x8c; 0x80; 0x8d; 0x81; 0x8d; 0x02; 0x80;
  0xe1; 0x80; 0x91; 0x85; 0x9a; 0x01; 0x00; 0x01;
  0x11; 0x00; 0x01; 0x04; 0x08; 0x01; 0x08; 0x30;
  0x08; 0x01; 0x15; 0x20; 0x00; 0x39; 0x99; 0x31;
  0x9d; 0x84; 0x40; 0x94; 0x80; 0xd6; 0x82; 0xa6;
  0x80; 0x41; 0x62; 0x80; 0xa6; 0x80; 0x57; 0x76;
  0xf8; 0x02; 0x80; 0x8f; 0x80; 0xb0; 0x40; 0xdb;
  0x08; 0x80; 0x41; 0xd0; 0x80; 0x8c; 0x80; 0x8f;
  0x8c; 0xe4; 0x03; 0x01; 0x89; 0x00; 0x14; 0x28;
  0x10; 0x11; 0x02; 0x01; 0x18; 0x0b; 0x24; 0x4b;
  0x26; 0x01; 0x01; 0x86; 0xe5; 0x80; 0x60; 0x79;
  0xb6; 0x81; 0x40; 0x91; 0x81; 0xbd; 0x88; 0x94;
  0x05; 0x80; 0x98; 0x80; 0xc7; 0x82; 0x43; 0x34;
  0xa2; 0x06; 0x80; 0x8c; 0x61; 0x28; 0x96; 0xd4;
  0x80; 0xc6; 0x01; 0x08; 0x09; 0x0b; 0x80; 0x8b;
  0x00; 0x06; 0x80; 0xc0; 0x03; 0x0f; 0x06; 0x80;
  0x9b; 0x03; 0x04; 0x00; 0x16; 0x80; 0x41; 0x53;
  0x81; 0x98; 0x80; 0x98; 0x80; 0x9e; 0x80; 0x98;
  0x80; 0x9e; 0x80; 0x98; 0x80; 0x9e; 0x80; 0x98;
  0x80; 0x9e; 0x80; 0x98; 0x07; 0x59; 0x63; 0x99;
  0x85; 0x99; 0x85; 0x99].

Definition unicode_prop_Cased1_index : list Z := [
  0xb9; 0x02; 0xe0; 0xa0; 0x1e; 0x40; 0x9e; 0xa6;
  0x40; 0xba; 0xd4; 0x01; 0x89; 0xd7; 0x01; 0x8a;
  0xf1; 0x01].

Definition unicode_prop_Case_Ignorable_table : list Z := [
  0xa6; 0x05; 0x80; 0x8a; 0x80; 0xa2; 0x00; 0x80;
  0xc6; 0x03; 0x00; 0x03; 0x01; 0x81; 0x41; 0xf6;
  0x40; 0xbf; 0x19; 0x18; 0x88; 0x08; 0x80; 0x40;
  0xfa; 0x86; 0x40; 0xce; 0x04; 0x80; 0xb0; 0xac;
  0x00; 0x01; 0x01; 0x00; 0xab; 0x80; 0x8a; 0x85;
  0x89; 0x8a; 0x00; 0xa2; 0x80; 0x89; 0x94; 0x8f;
  0x80; 0xe4; 0x38; 0x89; 0x03; 0xa0; 0x00; 0x80;
  0x9d; 0x9a; 0xda; 0x8a; 0xb9; 0x8a; 0x18; 0x08;
  0x97; 0x97; 0xaa; 0x82; 0xf6; 0xaf; 0xb6; 0x00;
  0x03; 0x3b; 0x02; 0x86; 0x89; 0x81; 0x8c; 0x80;
  0x8e; 0x80; 0xb9; 0x03; 0x1f; 0x80; 0x93; 0x81;
  0x99; 0x01; 0x81; 0xb8; 0x03; 0x0b; 0x09; 0x12;
  0x80; 0x9d; 0x0a; 0x80; 0x8a; 0x81; 0xb8; 0x03;
  0x20; 0x0b; 0x80; 0x93; 0x81; 0x95; 0x28; 0x80;
  0xb9; 0x01; 0x00; 0x1f; 0x06; 0x81; 0x8a; 0x81;
  0x9d; 0x80; 0xbc; 0x80; 0x8b; 0x80; 0xb1; 0x02;
  0x80; 0xb8; 0x14; 0x10; 0x1e; 0x81; 0x8a; 0x81;
  0x9c; 0x80; 0xb9; 0x01; 0x05; 0x04; 0x81; 0x93;
  0x81; 0x9b; 0x81; 0xb8; 0x0b; 0x1f; 0x80; 0x93;
  0x81; 0x9c; 0x80; 0xc7; 0x06; 0x10; 0x80; 0xd9;
  0x01; 0x86; 0x8a; 0x88; 0xe1; 0x01; 0x88; 0x88;
  0x00; 0x85; 0xc9; 0x81; 0x9a; 0x00; 0x00; 0x80;
  0xb6; 0x8d; 0x04; 0x01; 0x84; 0x8a; 0x80; 0xa3;
  0x88; 0x80; 0xe5; 0x18; 0x28; 0x09; 0x81; 0x98;
  0x0b; 0x82; 0x8f; 0x83; 0x8c; 0x01; 0x0d; 0x80;
  0x8e; 0x80; 0xdd; 0x80; 0x42; 0x5f; 0x82; 0x43;
  0xb1; 0x82; 0x9c; 0x82; 0x9c; 0x81; 0x9d; 0x81;
  0xbf; 0x08; 0x37; 0x01; 0x8a; 0x10; 0x20; 0xac;
  0x83; 0xb3; 0x80; 0xc0; 0x81; 0xa1; 0x80; 0xf5;
  0x13; 0x81; 0x88; 0x05; 0x82; 0x40; 0xda; 0x09;
  0x80; 0xb9; 0x00; 0x30; 0x00; 0x01; 0x3d; 0x89;
  0x08; 0xa6; 0x07; 0x90; 0xbe; 0x83; 0xaf; 0x00;
  0x20; 0x04; 0x80; 0xa7; 0x88; 0x8b; 0x81; 0x9f;
  0x19; 0x08; 0x82; 0xb7; 0x00; 0x0a; 0x00; 0x82;
  0xb9; 0x39; 0x81; 0xbf; 0x85; 0xd1; 0x10; 0x8c;
  0x06; 0x18; 0x28; 0x11; 0xb1; 0xbe; 0x8c; 0x80;
  0xa1; 0xde; 0x04; 0x41; 0xbc; 0x00; 0x82; 0x8a;
  0x82; 0x8c; 0x82; 0x8c; 0x82; 0x8c; 0x81; 0x8b;
  0x27; 0x81; 0x89; 0x01; 0x01; 0x84; 0xb0; 0x20;
  0x89; 0x00; 0x8c; 0x80; 0x8f; 0x8c; 0xb2; 0xa0;
  0x4b; 0x8a; 0x81; 0xf0; 0x82; 0xfc; 0x80; 0x8e;
  0x80; 0xdf; 0x9f; 0xae; 0x80; 0x41; 0xd4; 0x80;
  0xa3; 0x1a; 0x24; 0x80; 0xdc; 0x85; 0xdc; 0x82;
  0x60; 0x6f; 0x15; 0x80; 0x44; 0xe1; 0x85; 0x41;
  0x0d; 0x80; 0xe1; 0x18; 0x89; 0x00; 0x9b; 0x83;
  0xcf; 0x81; 0x8d; 0xa1; 0xcd; 0x80; 0x96; 0x82;
  0xec; 0x0f; 0x02; 0x03; 0x80; 0x98; 0x0c; 0x80;
  0x40; 0x96; 0x81; 0x99; 0x91; 0x8c; 0x80; 0xa5;
  0x87; 0x98; 0x8a; 0xad; 0x82; 0xaf; 0x01; 0x19;
  0x81; 0x90; 0x80; 0x94; 0x81; 0xc1; 0x29; 0x09;
  0x81; 0x8b; 0x07; 0x80; 0xa2; 0x80; 0x8a; 0x80;
  0xb2; 0x00; 0x11; 0x0c; 0x08; 0x80; 0x9a; 0x80;
  0x8d; 0x0c; 0x08; 0x80; 0xe3; 0x84; 0x88; 0x82;
  0xf8; 0x01; 0x03; 0x80; 0x60; 0x4f; 0x2f; 0x80;
  0x40; 0x92; 0x8f; 0x42; 0x3d; 0x8f; 0x10; 0x8b;
  0x8f; 0xa1; 0x01; 0x80; 0x40; 0xa8; 0x06; 0x05;
  0x80; 0x8a; 0x80; 0xa2; 0x00; 0x80; 0xae; 0x80;
  0xac; 0x81; 0xc2; 0x80; 0x94; 0x82; 0x42; 0x00;
  0x80; 0x40; 0xe1; 0x80; 0x40; 0x94; 0x84; 0x46;
  0x85; 0x10; 0x0c; 0x83; 0xa7; 0x13; 0x80; 0x40;
  0xa4; 0x81; 0x42; 0x3c; 0x83; 0x41; 0x82; 0x81;
  0x40; 0x98; 0x8a; 0x40; 0xaf; 0x80; 0xb5; 0x8e;
  0xb7; 0x82; 0xb0; 0x19; 0x09; 0x80; 0x8e; 0x80;
  0xb1; 0x82; 0xa3; 0x20; 0x87; 0xbd; 0x80; 0x8b;
  0x81; 0xb3; 0x88; 0x89; 0x19; 0x80; 0xde; 0x11;
  0x00; 0x0d; 0x80; 0x40; 0x9f; 0x02; 0x87; 0x94;
  0x81; 0xb8; 0x0a; 0x80; 0xa4; 0x32; 0x84; 0x40;
  0xc2; 0x39; 0x10; 0x80; 0x96; 0x80; 0xd3; 0x28;
  0x03; 0x08; 0x81; 0x40; 0xed; 0x1d; 0x08; 0x81;
  0x9a; 0x81; 0xd4; 0x39; 0x00; 0x81; 0xe9; 0x00;
  0x01; 0x28; 0x80; 0xe4; 0x11; 0x18; 0x84; 0x41;
  0x02; 0x88; 0x01; 0x40; 0xff; 0x08; 0x03; 0x80;
  0x40; 0x8f; 0x19; 0x0b; 0x80; 0x9f; 0x89; 0xa7;
  0x29; 0x1f; 0x80; 0x88; 0x29; 0x82; 0xad; 0x8c;
  0x01; 0x41; 0x95; 0x30; 0x28; 0x80; 0xd1; 0x95;
  0x0e; 0x01; 0x01; 0xf9; 0x2a; 0x00; 0x08; 0x30;
  0x80; 0xc7; 0x0a; 0x00; 0x80; 0x41; 0x5a; 0x81;
  0x55; 0x3a; 0x88; 0x60; 0x36; 0xb6; 0x84; 0xba;
  0x86; 0x88; 0x83; 0x44; 0x0a; 0x80; 0xbe; 0x90;
  0xbf; 0x08; 0x81; 0x60; 0x4c; 0xb7; 0x08; 0x83;
  0x54; 0xc2; 0x82; 0x88; 0x8f; 0x0e; 0x9d; 0x83;
  0x40; 0x93; 0x82; 0x47; 0xba; 0xb6; 0x83; 0xb1;
  0x38; 0x8d; 0x80; 0x95; 0x20; 0x8e; 0x45; 0x4f;
  0x30; 0x90; 0x0e; 0x01; 0x04; 0x41; 0x04; 0x8d;
  0x41; 0xad; 0x83; 0x45; 0xdf; 0x86; 0xec; 0x87;
  0x4a; 0xae; 0x84; 0x6c; 0x0c; 0x00; 0x80; 0x9d;
  0xdf; 0xff; 0x40; 0xef].

Definition unicode_prop_Case_Ignorable_index : list Z := [
  0xbe; 0x05; 0x00; 0xfe; 0x07; 0x00; 0x52; 0x0a;
  0x20; 0x05; 0x0c; 0x20; 0x3b; 0x0e; 0x40; 0x61;
  0x10; 0x40; 0x0f; 0x18; 0x20; 0x43; 0x1b; 0x60;
  0x79; 0x1d; 0x00; 0xf1; 0x20; 0x00; 0x0d; 0xa6;
  0x40; 0x2e; 0xa9; 0x20; 0xde; 0xaa; 0x00; 0x0f;
  0xff; 0x20; 0xe7; 0x0a; 0x41; 0x82; 0x11; 0x21;
  0xc4; 0x14; 0x61; 0x44; 0x19; 0x01; 0x48; 0x1d;
  0x21; 0xa4; 0xbc; 0x01; 0x3e; 0xe1; 0x01; 0xf0;
  0x01; 0x0e].

Definition unicode_prop_ID_Start_table : list Z := [
  0xc0; 0x99; 0x85; 0x99; 0xae; 0x80; 0x89; 0x03;
  0x04; 0x96; 0x80; 0x9e; 0x80; 0x41; 0xc9; 0x83;
  0x8b; 0x8d; 0x26; 0x00; 0x80; 0x40; 0x80; 0x20;
  0x09; 0x18; 0x05; 0x00; 0x10; 0x00; 0x93; 0x80;
  0xd2; 0x80; 0x40; 0x8a; 0x87; 0x40; 0xa5; 0x80;
  0xa5; 0x08; 0x85; 0xa8; 0xc6; 0x9a; 0x1b; 0xac;
  0xaa; 0xa2; 0x08; 0xe2; 0x00; 0x8e; 0x0e; 0x81;
  0x89; 0x11; 0x80; 0x8f; 0x00; 0x9d; 0x9c; 0xd8;
  0x8a; 0x80; 0x97; 0xa0; 0x88; 0x0b; 0x04; 0x95;
  0x18; 0x88; 0x02; 0x80; 0x96; 0x98; 0x86; 0x8a;
  0xb4; 0x94; 0x80; 0x91; 0xbb; 0xb5; 0x10; 0x91;
  0x06; 0x89; 0x8e; 0x8f; 0x1f; 0x09; 0x81; 0x95;
  0x06; 0x00; 0x13; 0x10; 0x8f; 0x80; 0x8c; 0x08;
  0x82; 0x8d; 0x81; 0x89; 0x07; 0x2b; 0x09; 0x95;
  0x06; 0x01; 0x01; 0x01; 0x9e; 0x18; 0x80; 0x92;
  0x82; 0x8f; 0x88; 0x02; 0x80; 0x95; 0x06; 0x01;
  0x04; 0x10; 0x91; 0x80; 0x8e; 0x81; 0x96; 0x80;
  0x8a; 0x39; 0x09; 0x95; 0x06; 0x01; 0x04; 0x10;
  0x9d; 0x08; 0x82; 0x8e; 0x80; 0x90; 0x00; 0x2a;
  0x10; 0x1a; 0x08; 0x00; 0x0a; 0x0a; 0x12; 0x8b;
  0x95; 0x80; 0xb3; 0x38; 0x10; 0x96; 0x80; 0x8f;
  0x10; 0x99; 0x14; 0x81; 0x9d; 0x03; 0x38; 0x10;
  0x96; 0x80; 0x89; 0x04; 0x10; 0x9f; 0x00; 0x81;
  0x8e; 0x81; 0x90; 0x88; 0x02; 0x80; 0xa8; 0x08;
  0x8f; 0x04; 0x17; 0x82; 0x97; 0x2c; 0x91; 0x82;
  0x97; 0x80; 0x88; 0x00; 0x0e; 0xb9; 0xaf; 0x01;
  0x8b; 0x86; 0xb9; 0x08; 0x00; 0x20; 0x97; 0x00;
  0x80; 0x89; 0x01; 0x88; 0x01; 0x20; 0x80; 0x94;
  0x83; 0x9f; 0x80; 0xbe; 0x38; 0xa3; 0x9a; 0x84;
  0xf2; 0xaa; 0x93; 0x80; 0x8f; 0x2b; 0x1a; 0x02;
  0x0e; 0x13; 0x8c; 0x8b; 0x80; 0x90; 0xa5; 0x00;
  0x20; 0x81; 0xaa; 0x80; 0x41; 0x4c; 0x03; 0x0e;
  0x00; 0x03; 0x81; 0xa8; 0x03; 0x81; 0xa0; 0x03;
  0x0e; 0x00; 0x03; 0x81; 0x8e; 0x80; 0xb8; 0x03;
  0x81; 0xc2; 0xa4; 0x8f; 0x8f; 0xd5; 0x0d; 0x82;
  0x42; 0x6b; 0x81; 0x90; 0x80; 0x99; 0x84; 0xca;
  0x82; 0x8a; 0x86; 0x8c; 0x03; 0x8d; 0x91; 0x8d;
  0x91; 0x8d; 0x8c; 0x02; 0x8e; 0xb3; 0xa2; 0x03;
  0x80; 0xc2; 0xd8; 0x86; 0xa8; 0x00; 0x84; 0xc5;
  0x89; 0x9e; 0xb0; 0x9d; 0x0c; 0x8a; 0xab; 0x83;
  0x99; 0xb5; 0x96; 0x88; 0xb4; 0xd1; 0x80; 0xdc;
  0xae; 0x90; 0x86; 0xb6; 0x9d; 0x8c; 0x81; 0x89;
  0xab; 0x99; 0xa3; 0xa8; 0x82; 0x89; 0xa3; 0x81;
  0x88; 0x86; 0xaa; 0x0a; 0xa8; 0x18; 0x28; 0x0a;
  0x04; 0x40; 0xbf; 0xbf; 0x41; 0x15; 0x0d; 0x81;
  0xa5; 0x0d; 0x0f; 0x00; 0x00; 0x00; 0x80; 0x9e;
  0x81; 0xb4; 0x06; 0x00; 0x12; 0x06; 0x13; 0x0d;
  0x83; 0x8c; 0x22; 0x06; 0xf3; 0x80; 0x8c; 0x80;
  0x8f; 0x8c; 0xe4; 0x03; 0x01; 0x89; 0x00; 0x0d;
  0x28; 0x00; 0x00; 0x80; 0x8f; 0x0b; 0x24; 0x18;
  0x90; 0xa8; 0x4a; 0x76; 0xae; 0x80; 0xae; 0x80;
  0x40; 0x84; 0x2b; 0x11; 0x8b; 0xa5; 0x00; 0x20;
  0x81; 0xb7; 0x30; 0x8f; 0x96; 0x88; 0x30; 0x30;
  0x30; 0x30; 0x30; 0x30; 0x30; 0x86; 0x42; 0x25;
  0x82; 0x98; 0x88; 0x34; 0x0c; 0x83; 0xd5; 0x1c;
  0x80; 0xd9; 0x03; 0x84; 0xaa; 0x80; 0xdd; 0x90;
  0x9f; 0xaf; 0x8f; 0x41; 0xff; 0x59; 0xbf; 0xbf;
  0x60; 0x51; 0xfc; 0x82; 0x44; 0x8c; 0xc2; 0xad;
  0x81; 0x41; 0x0c; 0x82; 0x8f; 0x89; 0x81; 0x93;
  0xae; 0x8f; 0x9e; 0x81; 0xcf; 0xa6; 0x88; 0x81;
  0xe6; 0x81; 0xb4; 0x81; 0x88; 0xa9; 0x8c; 0x02;
  0x03; 0x80; 0x96; 0x9c; 0xb3; 0x8d; 0xb1; 0xbd;
  0x2a; 0x00; 0x81; 0x8a; 0x9b; 0x89; 0x96; 0x98;
  0x9c; 0x86; 0xae; 0x9b; 0x80; 0x8f; 0x20; 0x89;
  0x89; 0x20; 0xa8; 0x96; 0x10; 0x87; 0x93; 0x96;
  0x10; 0x82; 0xb1; 0x00; 0x11; 0x0c; 0x08; 0x00;
  0x97; 0x11; 0x8a; 0x32; 0x8b; 0x29; 0x29; 0x85;
  0x88; 0x30; 0x30; 0xaa; 0x80; 0x8d; 0x85; 0xf2;
  0x9c; 0x60; 0x2b; 0xa3; 0x8b; 0x96; 0x83; 0xb0;
  0x60; 0x21; 0x03; 0x41; 0x6d; 0x81; 0xe9; 0xa5;
  0x86; 0x8b; 0x24; 0x00; 0x89; 0x80; 0x8c; 0x04;
  0x00; 0x01; 0x01; 0x80; 0xeb; 0xa0; 0x41; 0x6a;
  0x91; 0xbf; 0x81; 0xb5; 0xa7; 0x8b; 0xf3; 0x20;
  0x40; 0x86; 0xa3; 0x99; 0x85; 0x99; 0x8a; 0xd8;
  0x15; 0x0d; 0x0d; 0x0a; 0xa2; 0x8b; 0x80; 0x99;
  0x80; 0x92; 0x01; 0x80; 0x8e; 0x81; 0x8d; 0xa1;
  0xfa; 0xc4; 0xb4; 0x41; 0x0a; 0x9c; 0x82; 0xb0;
  0xae; 0x9f; 0x8c; 0x9d; 0x84; 0xa5; 0x89; 0x9d;
  0x81; 0xa3; 0x1f; 0x04; 0xa9; 0x40; 0x9d; 0x91;
  0xa3; 0x83; 0xa3; 0x83; 0xa7; 0x87; 0xb3; 0x40;
  0x9b; 0x41; 0x36; 0x88; 0x95; 0x89; 0x87; 0x40;
  0x97; 0x29; 0x00; 0xab; 0x01; 0x10; 0x81; 0x96;
  0x89; 0x96; 0x88; 0x9e; 0xc0; 0x92; 0x01; 0x89;
  0x95; 0x89; 0x99; 0xc5; 0xb7; 0x29; 0xbf; 0x80;
  0x8e; 0x18; 0x10; 0x9c; 0xa9; 0x9c; 0x82; 0x9c;
  0xa2; 0x38; 0x9b; 0x9a; 0xb5; 0x89; 0x95; 0x89;
  0x92; 0x8c; 0x91; 0xed; 0xc8; 0xb6; 0xb2; 0x8c;
  0xb2; 0x8c; 0xa3; 0x41; 0x5b; 0xa9; 0x29; 0xcd;
  0x9c; 0x89; 0x07; 0x95; 0xe9; 0x94; 0x9a; 0x96;
  0x8b; 0xb4; 0xca; 0xac; 0x9f; 0x98; 0x99; 0xa3;
  0x9c; 0x01; 0x07; 0xa2; 0x10; 0x8b; 0xaf; 0x8d;
  0x83; 0x94; 0x00; 0x80; 0xa2; 0x91; 0x80; 0x98;
  0xd3; 0x30; 0x00; 0x18; 0x8e; 0x80; 0x89; 0x86;
  0xae; 0xa5; 0x39; 0x09; 0x95; 0x06; 0x01; 0x04;
  0x10; 0x91; 0x80; 0x8b; 0x84; 0x40; 0x9d; 0xb4;
  0x91; 0x83; 0x93; 0x82; 0x9d; 0xaf; 0x93; 0x08;
  0x80; 0x40; 0xb7; 0xae; 0xa8; 0x83; 0xa3; 0xaf;
  0x93; 0x80; 0xba; 0xaa; 0x8c; 0x80; 0xc6; 0x9a;
  0x40; 0xe4; 0xab; 0xf3; 0xbf; 0x9e; 0x39; 0x01;
  0x38; 0x08; 0x97; 0x8e; 0x00; 0x80; 0xdd; 0x39;
  0xa6; 0x8f; 0x00; 0x80; 0x9b; 0x80; 0x89; 0xa7;
  0x30; 0x94; 0x80; 0x8a; 0xad; 0x92; 0x80; 0xa1;
  0xb8; 0x41; 0x06; 0x88; 0x80; 0xa4; 0x90; 0x80;
  0xb0; 0x9d; 0xef; 0x30; 0x08; 0xa5; 0x94; 0x80;
  0x98; 0x28; 0x08; 0x9f; 0x8d; 0x80; 0x41; 0x46;
  0x92; 0x40; 0xbc; 0x80; 0xce; 0x43; 0x99; 0xe5;
  0xee; 0x90; 0x40; 0xc3; 0x4a; 0xbb; 0x44; 0x2e;
  0x4f; 0xd0; 0x42; 0x46; 0x60; 0x21; 0xb8; 0x42;
  0x38; 0x86; 0x9e; 0xf0; 0x9d; 0x91; 0xaf; 0x8f;
  0x83; 0x9e; 0x94; 0x84; 0x92; 0x42; 0xaf; 0xbf;
  0xff; 0xca; 0x20; 0xc1; 0x8c; 0xbf; 0x08; 0x80;
  0x9b; 0x57; 0xf7; 0x87; 0x44; 0xd5; 0xa9; 0x88;
  0x60; 0x22; 0xf6; 0x41; 0x1e; 0xb0; 0x82; 0x90;
  0x1f; 0x41; 0x8b; 0x49; 0x03; 0xea; 0x84; 0x8c;
  0x82; 0x88; 0x86; 0x89; 0x57; 0x65; 0xd4; 0x80;
  0xc6; 0x01; 0x08; 0x09; 0x0b; 0x80; 0x8b; 0x00;
  0x06; 0x80; 0xc0; 0x03; 0x0f; 0x06; 0x80; 0x9b;
  0x03; 0x04; 0x00; 0x16; 0x80; 0x41; 0x53; 0x81;
  0x98; 0x80; 0x98; 0x80; 0x9e; 0x80; 0x98; 0x80;
  0x9e; 0x80; 0x98; 0x80; 0x9e; 0x80; 0x98; 0x80;
  0x9e; 0x80; 0x98; 0x07; 0x49; 0x33; 0xac; 0x89;
  0x86; 0x8f; 0x80; 0x41; 0x70; 0xab; 0x45; 0x13;
  0x40; 0xc4; 0xba; 0xc3; 0x30; 0x44; 0xb3; 0x18;
  0x9a; 0x01; 0x00; 0x08; 0x80; 0x89; 0x03; 0x00;
  0x00; 0x28; 0x18; 0x00; 0x00; 0x02; 0x01; 0x00;
  0x08; 0x00; 0x00; 0x00; 0x00; 0x01; 0x00; 0x0b;
  0x06; 0x03; 0x03; 0x00; 0x80; 0x89; 0x80; 0x90;
  0x22; 0x04; 0x80; 0x90; 0x51; 0x43; 0x60; 0xa6;
  0xdd; 0xa1; 0x50; 0x34; 0x8a; 0x40; 0xdd; 0x81;
  0x56; 0x81; 0x8d; 0x5d; 0x30; 0x4c; 0x1e; 0x42;
  0x1d; 0x45; 0xe1; 0x53; 0x4a].

Definition unicode_prop_ID_Start_index : list Z := [
  0xf6; 0x03; 0x20; 0xa6; 0x07; 0x00; 0xa9; 0x09;
  0x00; 0xb4; 0x0a; 0x00; 0xba; 0x0b; 0x00; 0x3e;
  0x0d; 0x00; 0xe0; 0x0e; 0x20; 0x57; 0x12; 0x00;
  0xeb; 0x16; 0x00; 0xca; 0x19; 0x20; 0xc0; 0x1d;
  0x60; 0x80; 0x20; 0x00; 0x2e; 0x2d; 0x00; 0xc0;
  0x31; 0x20; 0x89; 0xa7; 0x20; 0xf0; 0xa9; 0x00;
  0xe3; 0xab; 0x00; 0x3e; 0xfd; 0x00; 0xfb; 0x00;
  0x21; 0x37; 0x07; 0x61; 0x01; 0x0a; 0x01; 0x1d;
  0x0f; 0x21; 0x2c; 0x12; 0x01; 0xc8; 0x14; 0x21;
  0xd1; 0x19; 0x21; 0x47; 0x1d; 0x01; 0x39; 0x6a;
  0x21; 0x09; 0x8d; 0x01; 0xbc; 0xd4; 0x01; 0xa9;
  0xd7; 0x21; 0x3a; 0xee; 0x01; 0xde; 0xa6; 0x22;
  0x4b; 0x13; 0x03].

Definition unicode_prop_ID_Continue1_table : list Z := [
  0xaf; 0x89; 0xa4; 0x80; 0xd6; 0x80; 0x42; 0x47;
  0xef; 0x96; 0x80; 0x40; 0xfa; 0x84; 0x41; 0x08;
  0xac; 0x00; 0x01; 0x01; 0x00; 0xc7; 0x8a; 0xaf;
  0x9e; 0x28; 0xe4; 0x31; 0x29; 0x08; 0x19; 0x89;
  0x96; 0x80; 0x9d; 0x9a; 0xda; 0x8a; 0x8e; 0x89;
  0xa0; 0x88; 0x88; 0x80; 0x97; 0x18; 0x88; 0x02;
  0x04; 0xaa; 0x82; 0xf6; 0x8e; 0x80; 0xa0; 0xb5;
  0x10; 0x91; 0x06; 0x89; 0x09; 0x89; 0x90; 0x82;
  0xb7; 0x00; 0x31; 0x09; 0x82; 0x88; 0x80; 0x89;
  0x09; 0x89; 0x8d; 0x01; 0x82; 0xb7; 0x00; 0x23;
  0x09; 0x12; 0x80; 0x93; 0x8b; 0x10; 0x8a; 0x82;
  0xb7; 0x00; 0x38; 0x10; 0x82; 0x93; 0x09; 0x89;
  0x89; 0x28; 0x82; 0xb7; 0x00; 0x31; 0x09; 0x16;
  0x82; 0x89; 0x09; 0x89; 0x91; 0x80; 0xba; 0x22;
  0x10; 0x83; 0x88; 0x80; 0x8d; 0x89; 0x8f; 0x84;
  0xb8; 0x30; 0x10; 0x1e; 0x81; 0x8a; 0x09; 0x89;
  0x90; 0x82; 0xb7; 0x00; 0x30; 0x10; 0x1e; 0x81;
  0x8a; 0x09; 0x89; 0x8f; 0x83; 0xb6; 0x08; 0x30;
  0x10; 0x83; 0x88; 0x80; 0x89; 0x09; 0x89; 0x90;
  0x82; 0xc5; 0x03; 0x28; 0x00; 0x3d; 0x89; 0x09;
  0xbc; 0x01; 0x86; 0x8b; 0x38; 0x89; 0xd6; 0x01;
  0x88; 0x8a; 0x29; 0x89; 0xbd; 0x0d; 0x89; 0x8a;
  0x00; 0x00; 0x03; 0x81; 0xb0; 0x93; 0x01; 0x84;
  0x8a; 0x80; 0xa3; 0x88; 0x80; 0xe3; 0x93; 0x80;
  0x89; 0x8b; 0x1b; 0x10; 0x11; 0x32; 0x83; 0x8c;
  0x8b; 0x80; 0x8e; 0x42; 0xbe; 0x82; 0x88; 0x88;
  0x43; 0x9f; 0x82; 0x9c; 0x82; 0x9c; 0x81; 0x9d;
  0x81; 0xbf; 0x9f; 0x88; 0x01; 0x89; 0xa0; 0x11;
  0x89; 0x40; 0x8e; 0x80; 0xf5; 0x8b; 0x83; 0x8b;
  0x89; 0x89; 0xff; 0x8a; 0xbb; 0x84; 0xb8; 0x89;
  0x80; 0x9c; 0x81; 0x8a; 0x85; 0x89; 0x95; 0x8d;
  0x01; 0xbe; 0x84; 0xae; 0x90; 0x8a; 0x89; 0x90;
  0x88; 0x8b; 0x82; 0x9d; 0x8c; 0x81; 0x89; 0xab;
  0x8d; 0xaf; 0x93; 0x87; 0x89; 0x85; 0x89; 0xf5;
  0x10; 0x94; 0x18; 0x28; 0x0a; 0x40; 0xc5; 0xb9;
  0x04; 0x42; 0x3e; 0x81; 0x92; 0x80; 0xfa; 0x8c;
  0x18; 0x82; 0x8b; 0x4b; 0xfd; 0x82; 0x40; 0x8c;
  0x80; 0xdf; 0x9f; 0x42; 0x29; 0x85; 0xe8; 0x81;
  0x60; 0x75; 0x84; 0x89; 0xc4; 0x03; 0x89; 0x9f;
  0x81; 0xcf; 0x81; 0x41; 0x0f; 0x02; 0x03; 0x80;
  0x96; 0x23; 0x80; 0xd2; 0x81; 0xb1; 0x91; 0x89;
  0x89; 0x85; 0x91; 0x8c; 0x8a; 0x9b; 0x87; 0x98;
  0x8c; 0xab; 0x83; 0xae; 0x8d; 0x8e; 0x89; 0x8a;
  0x80; 0x89; 0x89; 0xae; 0x8d; 0x8b; 0x07; 0x09;
  0x89; 0xa0; 0x82; 0xb1; 0x00; 0x11; 0x0c; 0x08;
  0x80; 0xa8; 0x24; 0x81; 0x40; 0xeb; 0x38; 0x09;
  0x89; 0x60; 0x4f; 0x23; 0x80; 0x42; 0xe0; 0x8f;
  0x8f; 0x8f; 0x11; 0x97; 0x82; 0x40; 0xbf; 0x89;
  0xa4; 0x80; 0x42; 0xbc; 0x80; 0x40; 0xe1; 0x80;
  0x40; 0x94; 0x84; 0x41; 0x24; 0x89; 0x45; 0x56;
  0x10; 0x0c; 0x83; 0xa7; 0x13; 0x80; 0x40; 0xa4;
  0x81; 0x42; 0x3c; 0x1f; 0x89; 0x41; 0x70; 0x81;
  0x40; 0x98; 0x8a; 0x40; 0xae; 0x82; 0xb4; 0x8e;
  0x9e; 0x89; 0x8e; 0x83; 0xac; 0x8a; 0xb4; 0x89;
  0x2a; 0xa3; 0x8d; 0x80; 0x89; 0x21; 0xab; 0x80;
  0x8b; 0x82; 0xaf; 0x8d; 0x3b; 0x80; 0x8b; 0xd1;
  0x8b; 0x28; 0x40; 0x9f; 0x8b; 0x84; 0x89; 0x2b;
  0xb6; 0x08; 0x31; 0x09; 0x82; 0x88; 0x80; 0x89;
  0x09; 0x32; 0x84; 0x40; 0xbf; 0x91; 0x88; 0x89;
  0x18; 0xd0; 0x93; 0x8b; 0x89; 0x40; 0xd4; 0x31;
  0x88; 0x9a; 0x81; 0xd1; 0x90; 0x8e; 0x89; 0xd0;
  0x8c; 0x87; 0x89; 0xd2; 0x8e; 0x83; 0x89; 0x40;
  0xf1; 0x8e; 0x40; 0xa4; 0x89; 0xc5; 0x28; 0x09;
  0x18; 0x00; 0x81; 0x8b; 0x89; 0xf6; 0x31; 0x32;
  0x80; 0x9b; 0x89; 0xa7; 0x30; 0x1f; 0x80; 0x88;
  0x8a; 0xad; 0x8f; 0x41; 0x94; 0x38; 0x87; 0x8f;
  0x89; 0xb7; 0x95; 0x80; 0x8d; 0xf9; 0x2a; 0x00;
  0x08; 0x30; 0x07; 0x89; 0xaf; 0x20; 0x08; 0x27;
  0x89; 0x41; 0x48; 0x83; 0x60; 0x4b; 0x68; 0x89;
  0x40; 0x85; 0x84; 0xba; 0x86; 0x98; 0x89; 0x43;
  0xf4; 0x00; 0xb6; 0x33; 0xd0; 0x80; 0x8a; 0x81;
  0x60; 0x4c; 0xaa; 0x81; 0x54; 0xc5; 0x22; 0x2f;
  0x39; 0x86; 0x9d; 0x83; 0x40; 0x93; 0x82; 0x45;
  0x88; 0xb1; 0x41; 0xff; 0xb6; 0x83; 0xb1; 0x38;
  0x8d; 0x80; 0x95; 0x20; 0x8e; 0x45; 0x4f; 0x30;
  0x90; 0x0e; 0x01; 0x04; 0x41; 0x04; 0x86; 0x88;
  0x89; 0x41; 0xa1; 0x8d; 0x45; 0xd5; 0x86; 0xec;
  0x34; 0x89; 0x52; 0x95; 0x89; 0x6c; 0x05; 0x05;
  0x40; 0xef].

Definition unicode_prop_ID_Continue1_index : list Z := [
  0xfa; 0x06; 0x00; 0x84; 0x09; 0x00; 0xf0; 0x0a;
  0x00; 0x70; 0x0c; 0x00; 0xf4; 0x0d; 0x00; 0x4a;
  0x10; 0x20; 0x1a; 0x18; 0x20; 0x74; 0x1b; 0x20;
  0xdd; 0x20; 0x00; 0x0c; 0xa8; 0x00; 0x5a; 0xaa;
  0x20; 0x1a; 0xff; 0x00; 0xad; 0x0e; 0x01; 0x38;
  0x12; 0x21; 0xc1; 0x15; 0x21; 0xe5; 0x19; 0x21;
  0xaa; 0x1d; 0x21; 0x8c; 0xd1; 0x41; 0x4a; 0xe1;
  0x21; 0xf0; 0x01; 0x0e].
