(* ===== verification/RunSearch.v ===== *)
(** * Tables of runs (libunicode.c)

    The conversion and decomposition tables list runs of consecutive code points in
    increasing order; an entry packs the first code point of its run, the length and a
    type.  Both are searched in the same way, here for any packing. *)

From Stdlib Require Import Sorted.
From S2P Require Import Prelude.

Section search.
Context (code_of len_of : Z -> Z).

(** The binary search of [lre_case_conv] and [lre_is_cased]: the index and the entry
    whose run holds [c].  The range shrinks at every iteration, so the length of the
    table is enough fuel. *)
Fixpoint find_run (fuel : nat) (tbl : list Z) (c idx_min idx_max : Z) : option (option (Z * Z)) :=
  match fuel with
  | O => None
  | S fuel' =>
      if idx_min <=? idx_max then
        let idx := (idx_max + idx_min) / 2 in
        v ← znth tbl idx;
        if c <? code_of v then find_run fuel' tbl c idx_min (idx - 1)
        else if c >=? code_of v + len_of v then find_run fuel' tbl c (idx + 1) idx_max
        else Some (Some (idx, v))
      else Some None
  end.

(** The run that holds [c], by a scan of the table from [i] on. *)
Fixpoint scan_run (i : Z) (tbl : list Z) (c : Z) : option (Z * Z) :=
  match tbl with
  | [] => None
  | v :: tbl' =>
      if (code_of v <=? c) && (c <? code_of v + len_of v) then Some (i, v)
      else scan_run (i + 1) tbl' c
  end.

(** ** The search of the runs *)

Definition in_run (v c : Z) : Prop := code_of v <= c < code_of v + len_of v.

(** A run ends before the next one starts. *)
Definition run_before (v w : Z) : Prop := code_of v + len_of v <= code_of w.

Hypothesis len_nonneg : forall v, 0 <= len_of v.

Lemma scan_run_spec tbl c i :
  match scan_run i tbl c with
  | Some (k, v) => i <= k /\ znth tbl (k - i) = Some v /\ in_run v c
  | None => forall k v, znth tbl k = Some v -> ~ in_run v c
  end.
Proof.
  revert i. induction tbl as [|w tbl IH]; intros i; cbn [scan_run].
  - intros k v (? & ?)%znth_Some_range. rewrite zlen_nil in *. lia.
  - destruct ((code_of w <=? c) && (c <? code_of w + len_of w)) eqn:E.
    + zify_bools. rewrite Z.sub_diag. split; [lia|]. by split.
    + specialize (IH (i + 1)). destruct (scan_run (i + 1) tbl c) as [[k v]|].
      * destruct IH as (? & Hk & ?). split; [lia|]. split; [|done].
        rewrite znth_cons_S by lia. rewrite <- Hk. f_equal. lia.
      * intros k v Hk. pose proof (znth_Some_range _ _ _ Hk).
        destruct (decide (k = 0)) as [->|].
        { rewrite znth_cons_0 in Hk. injection Hk as <-. unfold in_run.
          repeat destruct_cmp_in E; cbn in E; dlia. }
        rewrite znth_cons_S in Hk by lia. eauto.
Qed.

Lemma sorted_runs tbl i j v w :
  StronglySorted run_before tbl -> znth tbl i = Some v -> znth tbl j = Some w -> i < j ->
  run_before v w.
Proof.
  revert i j. induction tbl as [|x tbl IH]; intros i j Hs Hi Hj Hij.
  - apply znth_Some_range in Hi. zlen_lia.
  - apply StronglySorted_inv in Hs as [Hs Hx]. pose proof (znth_Some_range _ _ _ Hi).
    destruct (decide (i = 0)) as [->|].
    + rewrite znth_cons_S in Hj by lia. rewrite znth_cons_0 in Hi. injection Hi as <-.
      unfold znth in Hj. destruct (Z.ltb_spec (j - 1) 0); [done|].
      rewrite Forall_lookup in Hx. eauto.
    + rewrite znth_cons_S in Hi, Hj by lia. eapply (IH (i - 1) (j - 1)); eauto. lia.
Qed.

Lemma runs_disjoint tbl i j v w c :
  StronglySorted run_before tbl -> znth tbl i = Some v -> znth tbl j = Some w ->
  in_run v c -> in_run w c -> i = j.
Proof.
  intros Hs Hi Hj [? ?] [? ?]. destruct (Z.lt_total i j) as [Hl|[?|Hl]]; [|done|].
  - pose proof (sorted_runs _ _ _ _ _ Hs Hi Hj Hl). unfold run_before in *. lia.
  - pose proof (sorted_runs _ _ _ _ _ Hs Hj Hi Hl). unfold run_before in *. lia.
Qed.

(** The search gives the run of [c] between the bounds, or none of them holds [c]. *)
Lemma find_run_bounds fuel tbl c lo hi :
  StronglySorted run_before tbl -> 0 <= lo -> hi < zlen tbl ->
  Z.max 0 (hi - lo + 1) < Z.of_nat fuel ->
  (forall k v, znth tbl k = Some v -> in_run v c -> lo <= k <= hi) ->
  find_run fuel tbl c lo hi = Some (scan_run 0 tbl c).
Proof.
  intros Hs. revert lo hi. induction fuel as [|fuel IH]; intros lo hi Hlo Hhi Hf Hin.
  - lia.
  - pose proof (scan_run_spec tbl c 0) as Hscan. cbn [find_run].
    destruct (Z.leb_spec lo hi).
    + assert (lo <= (hi + lo) / 2 <= hi) by divlia. set (m := (hi + lo) / 2) in *.
      destruct (znth_is_Some tbl m) as [v Hv]; [lia|]. rewrite Hv. cbn [mbind option_bind].
      rewrite Z.geb_leb.
      destruct (Z.ltb_spec c (code_of v)); [|destruct (Z.leb_spec (code_of v + len_of v) c)].
      * apply IH; [lia..|]. intros k w Hk Hc. specialize (Hin _ _ Hk Hc).
        destruct (decide (m <= k)); [|lia]. pose proof (len_nonneg v).
        destruct (decide (m = k)) as [->|]; [unfold in_run in Hc; simplify_eq; lia|].
        pose proof (sorted_runs _ m k _ _ Hs Hv Hk ltac:(lia)). unfold in_run, run_before in *. lia.
      * apply IH; [lia..|]. intros k w Hk Hc. specialize (Hin _ _ Hk Hc).
        destruct (decide (k <= m)); [|lia]. pose proof (len_nonneg w).
        destruct (decide (m = k)) as [->|]; [unfold in_run in Hc; simplify_eq; lia|].
        pose proof (sorted_runs _ k m _ _ Hs Hk Hv ltac:(lia)). unfold in_run, run_before in *. lia.
      * destruct (scan_run 0 tbl c) as [[k w]|].
        -- destruct Hscan as (? & Hk & Hw). rewrite Z.sub_0_r in Hk.
           assert (in_run v c) by (unfold in_run; lia).
           pose proof (runs_disjoint _ _ _ _ _ _ Hs Hv Hk ltac:(done) Hw). by simplify_eq.
        -- exfalso. apply (Hscan m v Hv). unfold in_run. lia.
    + destruct (scan_run 0 tbl c) as [[k w]|]; [|done].
      destruct Hscan as (? & Hk & Hw). rewrite Z.sub_0_r in Hk. specialize (Hin _ _ Hk Hw). lia.
Qed.

Fixpoint runs_sortedb (tbl : list Z) : bool :=
  match tbl with
  | v :: (w :: _) as tbl' => (code_of v + len_of v <=? code_of w) && runs_sortedb tbl'
  | _ => true
  end.

Lemma runs_sortedb_ok tbl : runs_sortedb tbl = true -> StronglySorted run_before tbl.
Proof.
  intros H. apply Sorted_StronglySorted.
  - intros x y z. unfold run_before. pose proof (len_nonneg y). lia.
  - induction tbl as [|v [|w tbl] IH]; [constructor|repeat constructor|].
    cbn [runs_sortedb] in H. zify_bools. constructor; [by apply IH|]. by constructor.
Qed.

End search.
