(* ===== verification/CaseConv.v ===== *)
(** * Case conversion and property lookups (libunicode.c)

    [lre_case_conv], [lre_is_in_table] and the predicates built on them, over the
    tables of [UnicodeTables].  The lookups are compared with reference definitions
    that read the tables from the start. *)

From Stdlib Require Import Sorted.
From S2P Require Import Prelude Bytes UnicodeTables RunSearch.

Definition RUN_TYPE_U : Z := 0.
Definition RUN_TYPE_L : Z := 1.
Definition RUN_TYPE_UF : Z := 2.
Definition RUN_TYPE_LF : Z := 3.
Definition RUN_TYPE_UL : Z := 4.
Definition RUN_TYPE_LSU : Z := 5.
Definition RUN_TYPE_U2L_399_EXT2 : Z := 6.
Definition RUN_TYPE_UF_D20 : Z := 7.
Definition RUN_TYPE_UF_D1_EXT : Z := 8.
Definition RUN_TYPE_U_EXT : Z := 9.
Definition RUN_TYPE_LF_EXT : Z := 10.
Definition RUN_TYPE_U_EXT2 : Z := 11.
Definition RUN_TYPE_L_EXT2 : Z := 12.

(** ** The table of the conversions *)

(** The fields of an entry of [case_conv_table1]. *)
Definition run_code (v : Z) : Z := Z.shiftr v (32 - 17).
Definition run_len (v : Z) : Z := Z.land (Z.shiftr v (32 - 17 - 7)) 0x7f.
Definition run_type (v : Z) : Z := Z.land (Z.shiftr v (32 - 17 - 7 - 4)) 0xf.

Definition find_case_run (c : Z) : option (option (Z * Z)) :=
  find_run run_code run_len (S (length case_conv_table1)) case_conv_table1 c 0 (zlen case_conv_table1 - 1).

Definition ext (i : Z) : option Z := znth case_conv_ext i.

(** The switch on the type of the run of entry [v] at [idx]; [None] is an access outside
    a table. *)
Definition case_conv_run (idx v c conv_type : Z) : option (list Z) :=
  let code := run_code v in
  let type := run_type v in
  let is_lower := if conv_type =? 0 then 0 else 1 in
  t2 ← znth case_conv_table2 idx;
  let data := Z.lor (Z.shiftl (Z.land v 0xf) 8) t2 in
  if type <=? RUN_TYPE_LF then
    if (conv_type =? Z.land type 1) || ((type >=? RUN_TYPE_UF) && (conv_type =? 2)) then
      w ← znth case_conv_table1 data; Some [u32 (c - code + run_code w)]
    else Some [c]
  else if type =? RUN_TYPE_UL then
    let a := c - code in
    if negb (Z.land a 1 =? 1 - is_lower) then Some [c]
    else Some [u32 (Z.lxor a 1 + code)]
  else if type =? RUN_TYPE_LSU then
    let a := c - code in
    if a =? 1 then Some [u32 (c + (2 * is_lower - 1))]
    else if a =? (1 - is_lower) * 2 then Some [u32 (c + (2 * is_lower - 1) * 2)]
    else Some [c]
  else if type =? RUN_TYPE_U2L_399_EXT2 then
    if is_lower =? 0 then
      e ← ext (Z.shiftr data 6); Some [u32 (c - code + e); 0x399]
    else e ← ext (Z.land data 0x3f); Some [u32 (c - code + e)]
  else if type =? RUN_TYPE_UF_D20 then
    if conv_type =? 1 then Some [c]
    else Some [data + (if conv_type =? 2 then 0x20 else 0)]
  else if type =? RUN_TYPE_UF_D1_EXT then
    if conv_type =? 1 then Some [c]
    else e ← ext data; Some [e + (if conv_type =? 2 then 1 else 0)]
  else if (type =? RUN_TYPE_U_EXT) || (type =? RUN_TYPE_LF_EXT) then
    if negb (is_lower =? type - RUN_TYPE_U_EXT) then Some [c]
    else e ← ext data; Some [e]
  else if (type =? RUN_TYPE_U_EXT2) || (type =? RUN_TYPE_L_EXT2) then
    if negb (conv_type =? type - RUN_TYPE_U_EXT2) then Some [c]
    else e0 ← ext (Z.shiftr data 6); e1 ← ext (Z.land data 0x3f);
         Some [u32 (c - code + e0); e1]
  else
    if negb (conv_type =? 0) then Some [c]
    else e0 ← ext (Z.shiftr data 8); e1 ← ext (Z.land (Z.shiftr data 4) 0xf);
         e2 ← ext (Z.land data 0xf); Some [e0; e1; e2].

(** The characters written to [res]; their number is the value returned.  [conv_type]
    is 0 for upper case, 1 for lower case, 2 for case folding. *)
Definition lre_case_conv (c conv_type : Z) : option (list Z) :=
  if c <? 128 then
    if negb (conv_type =? 0) then
      if (65 <=? c) && (c <=? 90) then Some [c - 65 + 97] else Some [c]
    else if (97 <=? c) && (c <=? 122) then Some [c - 97 + 65] else Some [c]
  else
    r ← find_case_run c;
    match r with
    | Some (idx, v) => case_conv_run idx v c conv_type
    | None => Some [c]
    end.

(** ** The compressed bit tables *)

Definition UNICODE_INDEX_BLOCK_LEN : Z := 32.

Definition get_le24 (tab : list Z) (i : Z) : option Z :=
  lo ← get_u16 tab i; hi ← znth tab (i + 2); Some (Z.lor lo (Z.shiftl hi 16)).

Definition index_code (v : Z) : Z := Z.land v (Z.shiftl 1 21 - 1).

(** The loop of [get_index_pos]: the block of [c]. *)
Fixpoint index_search (fuel : nat) (c : Z) (index_table : list Z) (idx_min idx_max : Z)
  : option Z :=
  match fuel with
  | O => None
  | S fuel' =>
      if idx_max - idx_min >? 1 then
        let idx := (idx_max + idx_min) / 2 in
        v ← get_le24 index_table (idx * 3);
        if c <? index_code v then index_search fuel' c index_table idx_min idx
        else index_search fuel' c index_table idx idx_max
      else Some idx_min
  end.

(** The offset in the table and the code it stands for, [Some None] for the return of
    -1. *)
Definition get_index_pos (c : Z) (index_table : list Z) (index_table_len : Z)
  : option (option (Z * Z)) :=
  v ← get_le24 index_table 0;
  if c <? index_code v then Some (Some (0, 0))
  else
    let idx_max := index_table_len - 1 in
    code ← get_le24 index_table (idx_max * 3);
    if c >=? code then Some None
    else
      idx_min ← index_search (S (length index_table)) c index_table 0 idx_max;
      v ← get_le24 index_table (idx_min * 3);
      Some (Some ((idx_min + 1) * UNICODE_INDEX_BLOCK_LEN + Z.shiftr v 21, index_code v)).

(** The loop of [lre_is_in_table] at [pos] of the table; every iteration reads a byte,
    so the length of the table is enough fuel. *)
Fixpoint in_table_loop (fuel : nat) (c : Z) (table : list Z) (pos code : Z) (bit : bool)
  : option bool :=
  match fuel with
  | O => None
  | S fuel' =>
      b ← znth table pos;
      let pos := pos + 1 in
      if b <? 64 then
        let code := u32 (code + Z.shiftr b 3 + 1) in
        if c <? code then Some bit
        else
          let bit := negb bit in
          let code := u32 (code + Z.land b 7 + 1) in
          if c <? code then Some bit else in_table_loop fuel' c table pos code (negb bit)
      else
        '(code, pos) ←
          (if b >=? 0x80 then Some (u32 (code + b - 0x80 + 1), pos)
           else if b <? 0x60 then
             p0 ← znth table pos;
             Some (u32 (code + Z.lor (Z.shiftl (b - 0x40) 8) p0 + 1), pos + 1)
           else
             p0 ← znth table pos; p1 ← znth table (pos + 1);
             Some (u32 (code + Z.lor (Z.lor (Z.shiftl (b - 0x60) 16) (Z.shiftl p0 8)) p1 + 1),
                   pos + 2));
        if c <? code then Some bit else in_table_loop fuel' c table pos code (negb bit)
  end.

Definition lre_is_in_table (c : Z) (table index_table : list Z) (index_table_len : Z)
  : option bool :=
  r ← get_index_pos c index_table index_table_len;
  match r with
  | None => Some false
  | Some (pos, code) => in_table_loop (S (length table)) c table pos code false
  end.

Definition lre_is_cased (c : Z) : option bool :=
  r ← find_case_run c;
  match r with
  | Some _ => Some true
  | None => lre_is_in_table c unicode_prop_Cased1_table unicode_prop_Cased1_index
              (zlen unicode_prop_Cased1_index / 3)
  end.

Definition lre_is_case_ignorable (c : Z) : option bool :=
  lre_is_in_table c unicode_prop_Case_Ignorable_table unicode_prop_Case_Ignorable_index
    (zlen unicode_prop_Case_Ignorable_index / 3).

Definition lre_is_id_start (c : Z) : option bool :=
  lre_is_in_table c unicode_prop_ID_Start_table unicode_prop_ID_Start_index
    (zlen unicode_prop_ID_Start_index / 3).

Definition lre_is_id_continue (c : Z) : option bool :=
  start ← lre_is_id_start c;
  if start : bool then Some true
  else lre_is_in_table c unicode_prop_ID_Continue1_table unicode_prop_ID_Continue1_index
         (zlen unicode_prop_ID_Continue1_index / 3).

(** ** References *)

(** The lengths of the runs of a compressed table, alternately outside and inside the
    property; [None] for a run that is cut. *)
Fixpoint decode (table : list Z) : option (list Z) :=
  match table with
  | [] => Some []
  | b :: t =>
      if b <? 64 then rs ← decode t; Some (Z.shiftr b 3 + 1 :: Z.land b 7 + 1 :: rs)
      else if b >=? 0x80 then rs ← decode t; Some (b - 0x80 + 1 :: rs)
      else if b <? 0x60 then
        match t with
        | p0 :: t => rs ← decode t; Some (256 * (b - 0x40) + p0 + 1 :: rs)
        | _ => None
        end
      else
        match t with
        | p0 :: p1 :: t => rs ← decode t; Some (65536 * (b - 0x60) + 256 * p0 + p1 + 1 :: rs)
        | _ => None
        end
  end.

Fixpoint in_runs (c code : Z) (bit : bool) (rs : list Z) : bool :=
  match rs with
  | [] => false
  | r :: rs => if c <? code + r then bit else in_runs c (code + r) (negb bit) rs
  end.

(** The property of a table: [c] is in one of its odd runs, before the end [last]. *)
Definition table_mem (table : list Z) (last c : Z) : bool :=
  match decode table with
  | Some rs => (c <? last) && in_runs c 0 false rs
  | None => false
  end.

Definition sum_Z (l : list Z) : Z := foldr Z.add 0 l.

Definition byteb (b : Z) : bool := (0 <=? b) && (b <? 256).

(** An entry of an index: the table up to its position is a whole number of runs that
    end at its code, outside the property. *)
Definition index_entry_ok (table index : list Z) (i : nat) : bool :=
  match get_le24 index (Z.of_nat i * 3) with
  | Some v =>
      let pos := (Z.of_nat i + 1) * UNICODE_INDEX_BLOCK_LEN + Z.shiftr v 21 in
      match decode (take (Z.to_nat pos) table) with
      | Some rs => (0 <=? pos) && (pos <=? zlen table) && (sum_Z rs =? index_code v)
                   && Nat.even (length rs)
      | None => false
      end
  | None => false
  end.

(** A table and its index of [n + 1] entries, the last of which is the end. *)
Definition index_ok (table index : list Z) (n : nat) (last : Z) : bool :=
  (zlen index =? 3 * (Z.of_nat n + 1)) && (0 <? Z.of_nat n) && forallb byteb table && forallb byteb index
  && forallb (index_entry_ok table index) (seq 0 n)
  && match get_le24 index (Z.of_nat n * 3), decode table with
     | Some v, Some rs => (v =? last) && (last <? 2 ^ 21) && (last <=? sum_Z rs)
                          && (sum_Z rs <? 2 ^ 32) && forallb (fun r => 0 <? r) rs
     | _, _ => false
     end
  && match get_le24 index 0 with Some v => index_code v <=? last | None => false end.

(** ** The search of the runs *)

#[local] Abbreviation in_run := (in_run run_code run_len).
#[local] Abbreviation run_before := (run_before run_code run_len).
#[local] Abbreviation scan_run := (scan_run run_code run_len).

Lemma run_len_nonneg v : 0 <= run_len v.
Proof. unfold run_len. rewrite (land_mask _ _ 7) by done. divlia. Qed.

Lemma case_conv_table1_sorted : StronglySorted run_before case_conv_table1.
Proof. apply runs_sortedb_ok; [apply run_len_nonneg|]. vm_compute. reflexivity. Qed.

Lemma find_case_run_scan c : find_case_run c = Some (scan_run 0 case_conv_table1 c).
Proof.
  unfold find_case_run.
  apply find_run_bounds; [apply run_len_nonneg|apply case_conv_table1_sorted|lia..|unfold zlen; lia|].
  intros k v ?%znth_Some_range _. lia.
Qed.

(** ** The conversions stay in the tables *)

Definition code_point (c : Z) : Prop := 0 <= c < 0x110000.
Definition code_pointb (c : Z) : bool := (0 <=? c) && (c <? 0x110000).

(** [ext i] is a code point, also after the addition of [n]. *)
Definition ext_ok (i n : Z) : bool :=
  match ext i with Some e => (0 <=? e) && (e + n <? 0x110000) | None => false end.

(** The accesses and the results of an entry. *)
Definition case_entry_ok (v t2 : Z) : bool :=
  let type := run_type v in
  let data := Z.lor (Z.shiftl (Z.land v 0xf) 8) t2 in
  let len := run_len v in
  if type <=? RUN_TYPE_LF then
    match znth case_conv_table1 data with
    | Some w => (0 <=? run_code w) && (run_code w + len <? 0x110000)
    | None => false
    end
  else if type =? RUN_TYPE_UL then Z.even len
  else if type =? RUN_TYPE_LSU then (2 <=? len) && (len <=? 3)
  else if type =? RUN_TYPE_U2L_399_EXT2 then
    ext_ok (Z.shiftr data 6) len && ext_ok (Z.land data 0x3f) len
  else if type =? RUN_TYPE_UF_D20 then (0 <=? data) && (data + 0x20 <? 0x110000)
  else if type =? RUN_TYPE_UF_D1_EXT then ext_ok data 1
  else if (type =? RUN_TYPE_U_EXT) || (type =? RUN_TYPE_LF_EXT) then ext_ok data 1
  else if (type =? RUN_TYPE_U_EXT2) || (type =? RUN_TYPE_L_EXT2) then
    ext_ok (Z.shiftr data 6) len && ext_ok (Z.land data 0x3f) 1
  else ext_ok (Z.shiftr data 8) 1 && ext_ok (Z.land (Z.shiftr data 4) 0xf) 1
       && ext_ok (Z.land data 0xf) 1.

Fixpoint case_entries_ok (t1 t2 : list Z) : bool :=
  match t1, t2 with
  | v :: t1, d :: t2 =>
      case_entry_ok v d && (0 <=? run_code v) && (run_code v + run_len v <? 0x110000)
      && case_entries_ok t1 t2
  | [], [] => true
  | _, _ => false
  end.

Lemma case_entries_ok_nth t1 t2 k v :
  case_entries_ok t1 t2 = true -> znth t1 k = Some v ->
  exists d, znth t2 k = Some d /\ case_entry_ok v d = true /\
    0 <= run_code v /\ run_code v + run_len v < 0x110000.
Proof.
  revert t2 k. induction t1 as [|w t1 IH]; intros [|d t2] k H Hk; try done.
  { by rewrite znth_nil in Hk. }
  cbn [case_entries_ok] in H. zify_bools. pose proof (znth_Some_range _ _ _ Hk).
  destruct (decide (k = 0)) as [->|].
  - rewrite znth_cons_0 in Hk. injection Hk as ->. exists d. by split.
  - rewrite znth_cons_S in Hk by lia. rewrite znth_cons_S by lia.
    by apply IH.
Qed.

Lemma ext_ok_inv i n : ext_ok i n = true -> exists e, ext i = Some e /\ 0 <= e /\ e + n < 0x110000.
Proof. unfold ext_ok. destruct (ext i); [|done]. intros. zify_bools. eauto. Qed.

Definition case_result (o : option (list Z)) : Prop :=
  exists res, o = Some res /\ 1 <= zlen res <= 3 /\ Forall code_point res.

Lemma case_result_1 x : code_point x -> case_result (Some [x]).
Proof. intros. exists [x]. split; [done|]. split; [zlen_lia|]. auto. Qed.

Lemma case_result_2 x y : code_point x -> code_point y -> case_result (Some [x; y]).
Proof. intros. exists [x; y]. split; [done|]. split; [zlen_lia|]. auto. Qed.

Lemma case_result_3 x y z :
  code_point x -> code_point y -> code_point z -> case_result (Some [x; y; z]).
Proof. intros. exists [x; y; z]. split; [done|]. split; [zlen_lia|]. auto. Qed.

Lemma lxor_double_1 b : Z.lxor (2 * b) 1 = 2 * b + 1.
Proof.
  rewrite <- Z.add_nocarry_lxor; [done|]. apply Z.bits_inj'. intros i Hi.
  rewrite Z.land_spec, Z.bits_0. destruct (decide (i = 0)) as [->|].
  - by rewrite Z.testbit_even_0.
  - rewrite (Z.bits_above_log2 1) by (cbn; lia). apply andb_false_r.
Qed.

Lemma lxor_1_even a len : 0 <= a < len -> Z.even len = true -> 0 <= Z.lxor a 1 < len.
Proof.
  intros Ha [n ->]%Z.even_spec. destruct (Z.Even_or_Odd a) as [[b ->]|[b ->]].
  - rewrite lxor_double_1. lia.
  - rewrite <- lxor_double_1, Z.lxor_assoc, Z.lxor_nilpotent, Z.lxor_0_r. lia.
Qed.

Ltac case_ext := match goal with H : ext_ok _ _ = true |- _ =>
  let E := fresh "E" in apply ext_ok_inv in H as (? & E & ? & ?); rewrite E; cbn [mbind option_bind] end.

Ltac case_done :=
  first [apply case_result_1 | apply case_result_2 | apply case_result_3];
  unfold code_point in *; try rewrite u32_small by lia; lia.

Lemma case_conv_run_ok idx v d c conv_type :
  znth case_conv_table2 idx = Some d -> case_entry_ok v d = true ->
  0 <= run_code v -> run_code v + run_len v < 0x110000 ->
  in_run v c -> 0 <= conv_type <= 2 -> case_result (case_conv_run idx v c conv_type).
Proof.
  intros Hd Hok H0 H1 [Hc1 Hc2] Ht. assert (code_point c) by (unfold code_point; lia).
  unfold case_conv_run. rewrite Hd. cbn [mbind option_bind].
  set (data := Z.lor _ d) in *. unfold case_entry_ok in Hok. fold data in Hok.
  set (lower := if conv_type =? 0 then 0 else 1).
  assert (Hl : lower = 0 \/ lower = 1) by (subst lower; destruct_cmp; lia).
  clearbody data lower. set (len := run_len v) in *. set (code := run_code v) in *.
  assert (run_type v <= RUN_TYPE_LF \/ RUN_TYPE_LF < run_type v) as [E|E] by lia.
  - rewrite (proj2 (Z.leb_le _ _) E) in *.
    destruct (znth case_conv_table1 data) as [w|]; [|done]. zify_bools.
    destruct ((conv_type =? _) || _); case_done.
  - rewrite (proj2 (Z.leb_gt _ _) E) in *. clear E.
    destruct (run_type v =? RUN_TYPE_UL).
    { destruct (negb _); [case_done|]. pose proof (lxor_1_even (c - code) len ltac:(lia) Hok).
      case_done. }
    destruct (run_type v =? RUN_TYPE_LSU).
    { zify_bools. repeat destruct_cmp; case_done. }
    destruct (run_type v =? RUN_TYPE_U2L_399_EXT2).
    { zify_bools. destruct (lower =? 0); case_ext; case_done. }
    destruct (run_type v =? RUN_TYPE_UF_D20).
    { zify_bools. repeat destruct_cmp; case_done. }
    destruct (run_type v =? RUN_TYPE_UF_D1_EXT).
    { repeat destruct_cmp; try case_ext; case_done. }
    destruct ((run_type v =? RUN_TYPE_U_EXT) || _).
    { destruct (negb _); try case_ext; case_done. }
    destruct ((run_type v =? RUN_TYPE_U_EXT2) || _).
    { zify_bools. destruct (negb _); repeat case_ext; case_done. }
    zify_bools. destruct (negb _); repeat case_ext; case_done.
Qed.



(** ** The compressed tables *)


Lemma decode_app a b ra :
  decode a = Some ra -> decode (a ++ b) = (fun rb => ra ++ rb) <$> decode b.
Proof.
  remember (length a) as n eqn:Hn. assert (length a <= n)%nat as Hle by lia. clear Hn.
  revert a ra Hle. induction n as [|n IH]; intros [|x a] ra Hle H; try (cbn in Hle; lia);
    try (cbn in *; injection H as <-; by destruct (decode b)).
  assert (Hcons : forall a' r ra', (length a' < length (x :: a))%nat ->
    (rs ← decode a'; Some (r ++ rs)) = Some ra' ->
    (rs ← decode (a' ++ b); Some (r ++ rs)) = (fun rb => ra' ++ rb) <$> decode b).
  { intros a' r ra' Hl Hd. destruct (decode a') as [rs|] eqn:E; [|done]. cbn in Hd.
    injection Hd as <-. rewrite (IH a' rs) by (cbn in *; lia || done).
    destruct (decode b); cbn; [|done]. by rewrite app_assoc. }
  cbn [decode app] in *. destruct (x <? 64); [apply (Hcons a [_; _]); cbn; [lia|done]|].
  destruct (x >=? 0x80); [apply (Hcons a [_]); cbn; [lia|done]|].
  destruct (x <? 0x60).
  - destruct a as [|p0 a]; [done|]. apply (Hcons a [_]); cbn; [lia|done].
  - destruct a as [|p0 [|p1 a]]; try done. apply (Hcons a [_]); cbn; [lia|done].
Qed.

Lemma in_runs_app c code bit ra rb :
  Forall (fun r => 0 < r) ra -> code + sum_Z ra <= c ->
  in_runs c code bit (ra ++ rb) =
  in_runs c (code + sum_Z ra) (xorb bit (Nat.odd (length ra))) rb.
Proof.
  revert code bit. induction ra as [|r ra IH]; intros code bit Hp Hc.
  - cbn in *. by rewrite Z.add_0_r, xorb_false_r.
  - cbn [app in_runs sum_Z foldr] in *. fold (sum_Z ra) in *.
    apply List.Forall_cons_iff in Hp as [? Hp].
    assert (0 <= sum_Z ra) by (clear -Hp; induction Hp; cbn; unfold sum_Z in *; lia).
    destruct (Z.ltb_spec c (code + r)); [lia|]. rewrite IH by (done || lia).
    rewrite Z.add_assoc. f_equal. cbn [length]. rewrite Nat.odd_succ, <- Nat.negb_odd.
    by destruct bit, (Nat.odd (length ra)).
Qed.

Lemma sum_Z_pos rs : Forall (fun r => 0 < r) rs -> 0 <= sum_Z rs.
Proof. induction 1; unfold sum_Z in *; cbn; lia. Qed.

Lemma in_table_loop_spec fuel c table pos code bit rs :
  Forall is_byte table -> 0 <= pos -> decode (drop (Z.to_nat pos) table) = Some rs ->
  Forall (fun r => 0 < r) rs -> 0 <= code <= c -> c < code + sum_Z rs < 2 ^ 32 ->
  zlen table - pos < Z.of_nat fuel ->
  in_table_loop fuel c table pos code bit = Some (in_runs c code bit rs).
Proof.
  intros Hb. revert pos code bit rs.
  induction fuel as [|fuel IH]; intros pos code bit rs Hpos Hd Hp Hcode Hc Hf.
  { rewrite drop_ge in Hd by (unfold zlen in *; lia). injection Hd as <-. cbn in Hc. lia. }
  assert (pos < zlen table) as Hlt.
  { destruct (decide (pos < zlen table)); [done|].
    rewrite drop_ge in Hd by (unfold zlen in *; lia). injection Hd as <-. cbn in Hc. lia. }
  destruct (drop_znth table pos) as (b & Hx & Hdrop); [lia|].
  assert (Hbyte : forall i x, znth table i = Some x -> is_byte x).
  { intros i x. unfold znth. destruct (i <? 0); [done|]. by apply Forall_lookup. }
  pose proof (Hbyte _ _ Hx) as Hxb. unfold is_byte in Hxb.
  assert (Hone : forall pos' r,
    pos < pos' -> 0 < r ->
    (rs' ← decode (drop (Z.to_nat pos') table); Some (r :: rs')) = Some rs ->
    (if c <? u32 (code + r) then Some bit
     else in_table_loop fuel c table pos' (u32 (code + r)) (negb bit))
    = Some (in_runs c code bit rs)).
  { intros pos' r Hpos' Hr Hrs. destruct (decode (drop (Z.to_nat pos') table)) as [rs'|] eqn:Hd'; [|done]. cbn in Hrs.
    injection Hrs as <-. apply List.Forall_cons_iff in Hp as [_ Hp].
    pose proof (sum_Z_pos _ Hp). cbn [in_runs sum_Z foldr] in *. fold (sum_Z rs') in *.
    rewrite u32_small by lia. destruct (Z.ltb_spec c (code + r)); [done|].
    apply IH; [lia|done|done|lia..]. }
  cbn [in_table_loop]. rewrite Hx. cbn [mbind option_bind].
  rewrite Hdrop in Hd. cbn [decode] in Hd.
  destruct (Z.ltb_spec b 64).
  - destruct (decode (drop _ table)) as [rs'|] eqn:Hd'; [|done]. cbn in Hd. injection Hd as <-.
    apply List.Forall_cons_iff in Hp as [? Hp]. apply List.Forall_cons_iff in Hp as [? Hp].
    pose proof (sum_Z_pos _ Hp). cbn [in_runs sum_Z foldr] in *. fold (sum_Z rs') in *.
    rewrite <- Z.add_assoc. rewrite u32_small by lia.
    destruct (Z.ltb_spec c (code + (Z.shiftr b 3 + 1))); [done|].
    rewrite <- (Z.add_assoc _ (Z.land b 7) 1). rewrite u32_small by lia.
    destruct (Z.ltb_spec c (code + (Z.shiftr b 3 + 1) + (Z.land b 7 + 1))); [done|].
    apply IH; [lia|done|done|lia..].
  - rewrite Z.geb_leb in *. destruct (Z.leb_spec 0x80 b).
    + cbn. replace (code + b - 128 + 1) with (code + (b - 128 + 1)) by lia.
      apply Hone; [lia..|done].
    + destruct (Z.ltb_spec b 0x60).
      * destruct (decide (pos + 1 < zlen table)).
        2:{ rewrite drop_ge in Hd by (unfold zlen in *; lia). done. }
        destruct (drop_znth table (pos + 1)) as (p0 & Hx0 & Hdrop0); [lia|].
        pose proof (Hbyte _ _ Hx0) as Hp0. unfold is_byte in Hp0.
        rewrite Hdrop0 in Hd. rewrite Hx0. cbn [mbind option_bind].
        rewrite lor_shiftl_add by lia.
        replace (code + ((b - 64) * 2 ^ 8 + p0) + 1) with (code + (256 * (b - 64) + p0 + 1)) by lia.
        apply Hone; [lia..|done].
      * destruct (decide (pos + 1 + 1 < zlen table)).
        2:{ destruct (drop _ table) as [|y [|z l]] eqn:E; [done..|]. apply (f_equal length) in E.
            rewrite length_drop in E. cbn in E. unfold zlen in *. lia. }
        destruct (drop_znth table (pos + 1)) as (p0 & Hx0 & Hdrop0); [lia|].
        destruct (drop_znth table (pos + 1 + 1)) as (p1 & Hx1 & Hdrop1); [lia|].
        pose proof (Hbyte _ _ Hx0) as Hp0. pose proof (Hbyte _ _ Hx1) as Hp1. unfold is_byte in *.
        rewrite Hdrop0, Hdrop1 in Hd. rewrite Hx0. cbn [mbind option_bind].
        rewrite Hx1. cbn [mbind option_bind].
        replace (Z.lor (Z.lor (Z.shiftl (b - 96) 16) (Z.shiftl p0 8)) p1)
          with (65536 * (b - 96) + 256 * p0 + p1).
        2:{ rewrite Z.lor_comm, (Z.lor_comm (Z.shiftl _ _)), Z.lor_assoc.
            rewrite (Z.lor_comm p1), (lor_shiftl_add p0 p1 8), Z.lor_comm, lor_shiftl_add by lia. lia. }
        replace (code + (65536 * (b - 96) + 256 * p0 + p1) + 1)
          with (code + (65536 * (b - 96) + 256 * p0 + p1 + 1)) by lia.
        replace (pos + 1 + 2) with (pos + 1 + 1 + 1) by lia.
        apply Hone; [lia..|done].
Qed.

Lemma index_search_spec fuel c index lo hi n :
  zlen index = 3 * (n + 1) -> 0 <= lo < hi -> hi <= n -> hi - lo <= Z.of_nat fuel ->
  (forall i, 0 <= i <= n -> is_Some (get_le24 index (i * 3))) ->
  (exists v, get_le24 index (lo * 3) = Some v /\ index_code v <= c) ->
  exists k v, index_search fuel c index lo hi = Some k /\ lo <= k < hi /\
    get_le24 index (k * 3) = Some v /\ index_code v <= c.
Proof.
  intros Hn. revert lo hi. induction fuel as [|fuel IH]; intros lo hi Hlo Hhi Hf Hr (v & Hv & Hc).
  { lia. }
  cbn [index_search]. rewrite Z.gtb_ltb. destruct (Z.ltb_spec 1 (hi - lo)); [|exists lo, v; auto with lia].
  assert (lo < (hi + lo) / 2 < hi) by divlia. set (m := (hi + lo) / 2) in *.
  destruct (Hr m) as [w Hw]; [lia|]. rewrite Hw. cbn [mbind option_bind].
  destruct (Z.ltb_spec c (index_code w)).
  - destruct (IH lo m) as (k & x & ? & ? & ?); [lia..|done|by exists v; auto|].
    exists k, x. split; [done|]. split; [lia|done].
  - destruct (IH m hi) as (k & x & ? & ? & ?); [lia..|done|by exists w; auto|].
    exists k, x. split; [done|]. split; [lia|done].
Qed.

Lemma forallb_bytes l : forallb byteb l = true -> Forall is_byte l.
Proof.
  rewrite forallb_forall, List.Forall_forall. intros H x Hx. specialize (H x Hx).
  unfold byteb in H. zify_bools. done.
Qed.

Lemma get_le24_is_Some tab i : 0 <= i -> i + 3 <= zlen tab -> is_Some (get_le24 tab i).
Proof.
  intros. unfold get_le24, get_u16. rewrite zslice_is_Some by lia. cbn.
  destruct (znth_is_Some tab (i + 2)) as [x ->]; [lia|]. eauto.
Qed.

(** The parts of [index_ok]. *)
Lemma index_ok_inv table index n last :
  index_ok table index n last = true ->
  exists rs v0,
    zlen index = 3 * (Z.of_nat n + 1) /\ 0 < Z.of_nat n /\ Forall is_byte table /\
    (forall i, 0 <= i < Z.of_nat n -> index_entry_ok table index (Z.to_nat i) = true) /\
    get_le24 index (Z.of_nat n * 3) = Some last /\ decode table = Some rs /\
    last <= sum_Z rs < 2 ^ 32 /\ Forall (fun r => 0 < r) rs /\
    get_le24 index 0 = Some v0 /\ index_code v0 <= last.
Proof.
  unfold index_ok. intros H. destruct (get_le24 index (Z.of_nat n * 3)) as [v|] eqn:Hv.
  2:{ rewrite andb_false_r in H. done. }
  destruct (decode table) as [rs|]; [|by rewrite andb_false_r in H].
  destruct (get_le24 index 0) as [v0|]; [|by rewrite andb_false_r in H].
  zify_bools. subst v. exists rs, v0.
  split; [done|]. split; [done|]. split; [by apply forallb_bytes|].
  split; [|split; [done|split; [done|split; [done|split; [|done]]]]].
  - intros i Hi. rewrite forallb_forall in *.
    match goal with H : forall x, In x (seq 0 n) -> _ |- _ => apply H end.
    apply in_seq. lia.
  - rewrite List.Forall_forall. intros r Hr. rewrite forallb_forall in *.
    match goal with H : forall x, In x rs -> _ |- _ => specialize (H r Hr) end. by zify_bools.
Qed.

Lemma index_entry_ok_inv table index i v :
  0 <= i -> index_entry_ok table index (Z.to_nat i) = true ->
  get_le24 index (i * 3) = Some v ->
  exists ra, let pos := (i + 1) * UNICODE_INDEX_BLOCK_LEN + Z.shiftr v 21 in
    0 <= pos <= zlen table /\ decode (take (Z.to_nat pos) table) = Some ra /\
    sum_Z ra = index_code v /\ Nat.odd (length ra) = false.
Proof.
  intros Hi H Hv. unfold index_entry_ok in H. rewrite Z2Nat.id, Hv in H by lia.
  destruct (decode _) as [ra|] eqn:E; [|done]. exists ra. cbn zeta. zify_bools.
  rewrite <- Nat.negb_even.
  match goal with H : Nat.even _ = true |- _ => rewrite H end. split; [lia|]. split; [done|]. by split.
Qed.

(** What the index gives: a position from which the table goes on with a code, for any
    property [Q] of such pairs that holds at the start and at the entries of the index. *)
Lemma get_index_pos_spec (Q : Z -> Z -> Prop) index n last v0 c :
  zlen index = 3 * (Z.of_nat n + 1) -> 0 < Z.of_nat n ->
  get_le24 index (Z.of_nat n * 3) = Some last ->
  get_le24 index 0 = Some v0 -> index_code v0 <= last ->
  (forall i v, 0 <= i < Z.of_nat n -> get_le24 index (i * 3) = Some v ->
    Q ((i + 1) * UNICODE_INDEX_BLOCK_LEN + Z.shiftr v 21) (index_code v)) ->
  Q 0 0 -> 0 <= c ->
  if c <? last
  then exists pos code, get_index_pos c index (Z.of_nat n + 1) = Some (Some (pos, code)) /\
    Q pos code /\ code <= c
  else get_index_pos c index (Z.of_nat n + 1) = Some None.
Proof.
  intros Hlen Hn Hl Hv0 Hv HQ HQ0 Hc. unfold get_index_pos. rewrite Hv0. cbn [mbind option_bind].
  destruct (Z.ltb_spec c (index_code v0)).
  { destruct (Z.ltb_spec c last); [|lia]. by exists 0, 0. }
  replace (Z.of_nat n + 1 - 1) with (Z.of_nat n) by lia. rewrite Hl. cbn [mbind option_bind].
  rewrite Z.geb_leb. destruct (Z.leb_spec last c), (Z.ltb_spec c last); try lia; [done|].
  destruct (index_search_spec (S (length index)) c index 0 (Z.of_nat n) (Z.of_nat n))
    as (k & v & Hk & Hkr & Hkv & Hkc); [done|lia|lia|unfold zlen in *; lia| |by exists v0|].
  { intros i Hi. apply get_le24_is_Some; lia. }
  rewrite Hk. cbn [mbind option_bind]. rewrite Hkv. cbn [mbind option_bind].
  eexists _, _. split; [done|]. split; [by apply HQ|done].
Qed.

Lemma lre_is_in_table_mem table index n last c :
  index_ok table index n last = true -> 0 <= c ->
  lre_is_in_table c table index (Z.of_nat n + 1) = Some (table_mem table last c).
Proof.
  intros (rs & v0 & Hlen & Hn & Hb & He & Hl & Hd & Hsum & Hp & Hv0 & Hv)%index_ok_inv Hc.
  unfold lre_is_in_table, table_mem. rewrite Hd.
  pose proof (get_index_pos_spec (fun pos code => exists ra,
    0 <= pos <= zlen table /\ decode (take (Z.to_nat pos) table) = Some ra /\
    sum_Z ra = code /\ Nat.odd (length ra) = false) index n last v0 c) as Hpos.
  specialize (Hpos Hlen Hn Hl Hv0 Hv).
  specialize (Hpos (fun i v Hi Hiv => index_entry_ok_inv table index i v (proj1 Hi) (He i Hi) Hiv)).
  assert (H0 : exists ra, 0 <= 0 <= zlen table /\ decode (take (Z.to_nat 0) table) = Some ra /\
    sum_Z ra = 0 /\ Nat.odd (length ra) = false).
  { exists []. split; [pose proof (zlen_nonneg table); lia|done]. }
  specialize (Hpos H0 Hc). destruct (c <? last) eqn:E; cbn [andb]; zify_bools; [|by rewrite Hpos].
  destruct Hpos as (pos & code & -> & (ra & Hpos & Hra & Hs & Hodd) & Hcode).
  cbn [mbind option_bind].
  pose proof (decode_app _ (drop (Z.to_nat pos) table) _ Hra) as Hsplit.
  rewrite take_drop, Hd in Hsplit.
  destruct (decode (drop (Z.to_nat pos) table)) as [rb|] eqn:Hrb; [|done].
  cbn in Hsplit. injection Hsplit as ->. apply Forall_app in Hp as [Hpa Hpb].
  pose proof (sum_Z_pos _ Hpa).
  assert (sum_Z (ra ++ rb) = sum_Z ra + sum_Z rb) as Hsab.
  { clear. induction ra; unfold sum_Z in *; cbn; lia. }
  rewrite in_runs_app by (done || lia). rewrite Hodd, Hs. cbn [xorb].
  apply in_table_loop_spec; auto; unfold zlen in *; lia.
Qed.

(** For a compressed property table whose index passes the (decidable)
    consistency check, the search through the index and one block gives, for every
    character, the property that the whole table, decoded run by run from code 0,
    assigns to it; no read leaves the tables. *)
Theorem lre_is_in_table_spec table index n last c :
  index_ok table index n last = true -> 0 <= c ->
  lre_is_in_table c table index (Z.of_nat n + 1) = Some (table_mem table last c).
Proof. apply lre_is_in_table_mem. Qed.

Lemma lre_is_in_table_spec_witness :
  lre_is_in_table 0x3b1 unicode_prop_Cased1_table unicode_prop_Cased1_index 6
  = Some (table_mem unicode_prop_Cased1_table 127370 0x3b1).
Proof.
  apply (lre_is_in_table_spec unicode_prop_Cased1_table unicode_prop_Cased1_index 5 127370 0x3b1);
    [vm_compute; reflexivity | lia].
Defined.

Definition id_start (c : Z) : bool := table_mem unicode_prop_ID_Start_table 201547 c.
Definition id_continue (c : Z) : bool :=
  id_start c || table_mem unicode_prop_ID_Continue1_table 918000 c.

Lemma lre_is_id_start_mem c : 0 <= c -> lre_is_id_start c = Some (id_start c).
Proof.
  intros. by apply (lre_is_in_table_mem unicode_prop_ID_Start_table unicode_prop_ID_Start_index 32);
    [vm_compute; reflexivity|].
Qed.

Lemma lre_is_id_continue_mem c : 0 <= c -> lre_is_id_continue c = Some (id_continue c).
Proof.
  intros. unfold lre_is_id_continue, id_continue. rewrite lre_is_id_start_mem by done.
  cbn [mbind option_bind]. destruct (id_start c); [done|].
  by apply (lre_is_in_table_mem unicode_prop_ID_Continue1_table unicode_prop_ID_Continue1_index 19);
    [vm_compute; reflexivity|].
Qed.

(** lre_is_cased, lre_is_case_ignorable, lre_is_id_start and lre_is_id_continue
    never read outside the tables of libunicode-table.h and return what a scan of the
    runs of those tables says. *)
Theorem lre_is_properties c :
  0 <= c ->
  lre_is_cased c = Some (match scan_run 0 case_conv_table1 c with
                         | Some _ => true
                         | None => table_mem unicode_prop_Cased1_table 127370 c
                         end) /\
  lre_is_case_ignorable c = Some (table_mem unicode_prop_Case_Ignorable_table 918000 c) /\
  lre_is_id_start c = Some (id_start c) /\
  lre_is_id_continue c = Some (id_continue c).
Proof.
  intros Hc. split; [|split; [|split; [by apply lre_is_id_start_mem|by apply lre_is_id_continue_mem]]].
  - unfold lre_is_cased. rewrite find_case_run_scan. cbn [mbind option_bind].
    destruct (scan_run 0 case_conv_table1 c); [done|].
    by apply (lre_is_in_table_mem unicode_prop_Cased1_table unicode_prop_Cased1_index 5);
      [vm_compute; reflexivity|].
  - by apply (lre_is_in_table_mem unicode_prop_Case_Ignorable_table
      unicode_prop_Case_Ignorable_index 21); [vm_compute; reflexivity|].
Qed.

Lemma lre_is_properties_witness :
  lre_is_id_continue 0x200c = Some (id_continue 0x200c).
Proof. apply (lre_is_properties 0x200c). lia. Defined.
