(* ===== verification/Normalize.v ===== *)
(** * Unicode normalisation (libunicode.c)

    The decomposition and composition of characters, the combining classes, the canonical
    ordering and [unicode_normalize].  A read outside a table, or outside the array that is
    normalised, is [None]. *)

From S2P Require Import Prelude Bytes DynBuf RunSearch CaseConv NormTables.

(** ** Decompositions *)

Definition DECOMP_TYPE_C1 : Z := 0.
Definition DECOMP_TYPE_L1 : Z := 1.
Definition DECOMP_TYPE_L7 : Z := 7.
Definition DECOMP_TYPE_LL1 : Z := 8.
Definition DECOMP_TYPE_LL2 : Z := 9.
Definition DECOMP_TYPE_S1 : Z := 10.
Definition DECOMP_TYPE_S5 : Z := 14.
Definition DECOMP_TYPE_I1 : Z := 15.
Definition DECOMP_TYPE_I2_0 : Z := 16.
Definition DECOMP_TYPE_I4_2 : Z := 21.
Definition DECOMP_TYPE_B1 : Z := 22.
Definition DECOMP_TYPE_B8 : Z := 29.
Definition DECOMP_TYPE_B18 : Z := 30.
Definition DECOMP_TYPE_LS2 : Z := 31.
Definition DECOMP_TYPE_PAT3 : Z := 32.
Definition DECOMP_TYPE_S2_UL : Z := 33.
Definition DECOMP_TYPE_LS2_UL : Z := 34.

Definition UNICODE_DECOMP_LEN_MAX : Z := 18.

Definition unicode_short_table : list Z := [0x2044; 0x2215].

Definition unicode_get_short_code (c : Z) : option Z :=
  if c <? 0x80 then Some c
  else if c <? 0x80 + 0x50 then Some (c - 0x80 + 0x300)
  else znth unicode_short_table (c - 0x80 - 0x50).

Definition unicode_get_lower_simple (c : Z) : Z :=
  if (c <? 0x100) || ((c >=? 0x410) && (c <=? 0x42f)) then u32 (c + 0x20) else u32 (c + 1).

(** The pointers [d] and [p] are offsets into [unicode_decomp_data]. *)
Definition unicode_get16 (p : Z) : option Z :=
  x ← znth unicode_decomp_data p;
  y ← znth unicode_decomp_data (p + 1);
  Some (Z.lor x (Z.shiftl y 8)).

(** [for(i = 0; i < l; i++)] with [res\[i\] = f(i)]; a zero returns 0 at once when
    [stop] is set, which is the empty list. *)
Fixpoint decomp_loop (stop : bool) (f : Z -> option Z) (n : nat) (i : Z) : option (option (list Z)) :=
  match n with
  | O => Some (Some [])
  | S n' =>
      v ← f i;
      if stop && (v =? 0) then Some None
      else r ← decomp_loop stop f n' (i + 1); Some (match r with None => None | Some l => Some (v :: l) end)
  end.

Definition decomp_fill (stop : bool) (l : Z) (f : Z -> option Z) : option (list Z) :=
  r ← decomp_loop stop f (Z.to_nat l) 0; Some (default [] r).

(** An 18 bit character: 16 bits in a table and 2 bits in another one behind it. *)
Definition decomp_18bit (d p k : Z) : option Z :=
  lo ← unicode_get16 (d + 2 * k);
  hi ← znth unicode_decomp_data (d + (p + k / 4));
  Some (Z.lor lo (Z.shiftl (Z.land (Z.shiftr hi ((k mod 4) * 2)) 3) 16)).

Definition decomp_i (d l p delta i : Z) : option Z :=
  c1 ← unicode_get16 (d + 2 * i); Some (if i =? p then u32 (c1 + delta) else c1).

Definition decomp_b (d l delta : Z) : option (list Z) :=
  c_min ← unicode_get16 d;
  let d := d + (2 + delta * l) in
  decomp_fill false l (fun i =>
    c1 ← znth unicode_decomp_data (d + i); Some (if c1 =? 0xff then 0x20 else c1 + c_min)).

(** The characters written to [res], the empty list when the function returns 0. *)
Definition unicode_decomp_entry (c idx code len type : Z) : option (list Z) :=
  t2 ← znth unicode_decomp_table2 idx;
  if type =? DECOMP_TYPE_C1 then Some [t2]
  else
    let d := t2 in
    let delta := u32 (c - code) in
    if (DECOMP_TYPE_L1 <=? type) && (type <=? DECOMP_TYPE_L7) then
      let l := type - DECOMP_TYPE_L1 + 1 in
      let d := d + delta * l * 2 in
      decomp_fill true l (fun i => unicode_get16 (d + 2 * i))
    else if (type =? DECOMP_TYPE_LL1) || (type =? DECOMP_TYPE_LL2) then
      let l := type - DECOMP_TYPE_LL1 + 1 in
      decomp_fill true l (fun i => decomp_18bit d (len * l * 2) (delta * l + i))
    else if (DECOMP_TYPE_S1 <=? type) && (type <=? DECOMP_TYPE_S5) then
      let l := type - DECOMP_TYPE_S1 + 1 in
      let d := d + delta * l in
      decomp_fill true l (fun i => b ← znth unicode_decomp_data (d + i); unicode_get_short_code b)
    else if type =? DECOMP_TYPE_I1 then decomp_fill false 1 (decomp_i d 1 0 delta)
    else if (DECOMP_TYPE_I2_0 <=? type) && (type <=? DECOMP_TYPE_I4_2) then
      let l := 2 + Z.shiftr (type - DECOMP_TYPE_I2_0) 1 in
      let p := Z.land (type - DECOMP_TYPE_I2_0) 1 + (if l >? 2 then 1 else 0) in
      decomp_fill false l (decomp_i d l p delta)
    else if type =? DECOMP_TYPE_B18 then decomp_b d 18 delta
    else if (DECOMP_TYPE_B1 <=? type) && (type <=? DECOMP_TYPE_B8) then
      decomp_b d (type - DECOMP_TYPE_B1 + 1) delta
    else if type =? DECOMP_TYPE_LS2 then
      let d := d + delta * 3 in
      r0 ← unicode_get16 d;
      if r0 =? 0 then Some []
      else b ← znth unicode_decomp_data (d + 2);
           r1 ← unicode_get_short_code b;
           Some [r0; r1]
    else if type =? DECOMP_TYPE_PAT3 then
      r0 ← unicode_get16 d;
      r2 ← unicode_get16 (d + 2);
      r1 ← unicode_get16 (d + (4 + delta * 2));
      Some [r0; r1; r2]
    else if (type =? DECOMP_TYPE_S2_UL) || (type =? DECOMP_TYPE_LS2_UL) then
      '(c, d) ←
        (if type =? DECOMP_TYPE_S2_UL then
           let d := d + Z.land delta (Z.lnot 1) in
           b ← znth unicode_decomp_data d; c ← unicode_get_short_code b; Some (c, d + 1)
         else
           let d := d + Z.shiftr delta 1 * 3 in
           c ← unicode_get16 d; Some (c, d + 2));
      let c := if Z.land delta 1 =? 0 then c else unicode_get_lower_simple c in
      b ← znth unicode_decomp_data d;
      r1 ← unicode_get_short_code b;
      Some [c; r1]
    else Some [].

(** The fields of an entry of [unicode_decomp_table1]. *)
Definition decomp_code (v : Z) : Z := Z.shiftr v (32 - 18).
Definition decomp_len (v : Z) : Z := Z.land (Z.shiftr v (32 - 18 - 7)) 0x7f.
Definition decomp_type (v : Z) : Z := Z.land (Z.shiftr v (32 - 18 - 7 - 6)) 0x3f.

Definition find_decomp (c : Z) : option (option (Z * Z)) :=
  find_run decomp_code decomp_len (S (length unicode_decomp_table1)) unicode_decomp_table1 c 0
    (zlen unicode_decomp_table1 - 1).

(** The empty list if there is no decomposition. *)
Definition unicode_decomp_char (c is_compat1 : Z) : option (list Z) :=
  r ← find_decomp c;
  match r with
  | None => Some []
  | Some (idx, v) =>
      let is_compat := Z.land v 1 in
      if is_compat1 <? is_compat then Some []
      else unicode_decomp_entry c idx (decomp_code v) (decomp_len v) (decomp_type v)
  end.

(** ** Compositions *)

(** The entry of the decomposition table that an element of [unicode_comp_table] denotes:
    the composed character and its decomposition, which must fill [pair\[2\]]. *)
Definition comp_entry (idx1 : Z) : option (Z * Z * Z) :=
  let d_idx := Z.shiftr idx1 6 in
  let d_offset := Z.land idx1 0x3f in
  v ← znth unicode_decomp_table1 d_idx;
  let ch := u32 (decomp_code v + d_offset) in
  pair ← unicode_decomp_entry ch d_idx (decomp_code v) (decomp_len v) (decomp_type v);
  match pair with
  | [p0; p1] => Some (ch, p0, p1)
  | _ => None
  end.

(** 0 if no pair is found. *)
Fixpoint compose_search (fuel : nat) (c0 c1 idx_min idx_max : Z) : option Z :=
  match fuel with
  | O => None
  | S fuel' =>
      if idx_min <=? idx_max then
        let idx := (idx_max + idx_min) / 2 in
        idx1 ← znth unicode_comp_table idx;
        '(ch, p0, p1) ← comp_entry idx1;
        let d := s32 (c0 - p0) in
        let d := if d =? 0 then s32 (c1 - p1) else d in
        if d <? 0 then compose_search fuel' c0 c1 idx_min (idx - 1)
        else if d >? 0 then compose_search fuel' c0 c1 (idx + 1) idx_max
        else Some ch
      else Some 0
  end.

Definition unicode_compose_pair (c0 c1 : Z) : option Z :=
  compose_search (S (length unicode_comp_table)) c0 c1 0 (zlen unicode_comp_table - 1).

Definition compose_pair (c0 c1 : Z) : option Z :=
  if (c0 >=? 0x1100) && (c0 <? 0x1100 + 19) && (c1 >=? 0x1161) && (c1 <? 0x1161 + 21) then
    Some (0xac00 + (c0 - 0x1100) * 588 + (c1 - 0x1161) * 28)
  else if (c0 >=? 0xac00) && (c0 <? 0xac00 + 11172) && ((c0 - 0xac00) mod 28 =? 0) &&
          (c1 >=? 0x11a7) && (c1 <? 0x11a7 + 28) then
    Some (c0 + c1 - 0x11a7)
  else unicode_compose_pair c0 c1.

(** ** Combining classes *)

(** The loop of [unicode_get_cc] at the offset [pos] of the table. *)
Fixpoint cc_loop (fuel : nat) (c pos code : Z) : option Z :=
  match fuel with
  | O => None
  | S fuel' =>
      b ← znth unicode_cc_table pos;
      let p := pos + 1 in
      let type := Z.shiftr b 6 in
      let n := Z.land b 0x3f in
      '(n, p) ←
        (if n <? 48 then Some (n, p)
         else if n <? 56 then
           b0 ← znth unicode_cc_table p;
           Some (Z.lor (Z.shiftl (n - 48) 8) b0 + 48, p + 1)
         else
           b0 ← znth unicode_cc_table p;
           b1 ← znth unicode_cc_table (p + 1);
           Some (Z.lor (Z.lor (Z.shiftl (n - 56) 8) (Z.shiftl b0 8)) b1 + (48 + Z.shiftl 1 11), p + 2));
      let p := if type <=? 1 then p + 1 else p in
      let c1 := u32 (code + n + 1) in
      if c <? c1 then
        if type =? 0 then znth unicode_cc_table (p - 1)
        else if type =? 1 then b ← znth unicode_cc_table (p - 1); Some (u32 (b + c - code))
        else if type =? 2 then Some 0
        else Some 230
      else cc_loop fuel' c p c1
  end.

Definition unicode_get_cc (c : Z) : option Z :=
  r ← get_index_pos c unicode_cc_index (zlen unicode_cc_index / 3);
  match r with
  | None => Some 0
  | Some (pos, code) => cc_loop (S (length unicode_cc_table)) c pos code
  end.

(** ** Canonical ordering *)

(** [while (k >= start)]: the elements with a greater class move up by one. *)
Fixpoint cc_shift (fuel : nat) (buf : list Z) (k start cc1 : Z) : option (list Z * Z) :=
  match fuel with
  | O => None
  | S fuel' =>
      if k >=? start then
        x ← znth buf k;
        cc ← unicode_get_cc x;
        if cc <=? cc1 then Some (buf, k)
        else buf ← zupd buf (k + 1) x; cc_shift fuel' buf (k - 1) start cc1
      else Some (buf, k)
  end.

(** [while (j < len)]: the insertion sort of the characters after the one at [start]. *)
Fixpoint cc_insert (fuel : nat) (buf : list Z) (start j len : Z) : option (list Z * Z) :=
  match fuel with
  | O => None
  | S fuel' =>
      if j <? len then
        ch1 ← znth buf j;
        cc1 ← unicode_get_cc ch1;
        if cc1 =? 0 then Some (buf, j)
        else
          '(buf, k) ← cc_shift (S (Z.to_nat (j - start))) buf (j - 1) start cc1;
          buf ← zupd buf (k + 1) ch1;
          cc_insert fuel' buf start (j + 1) len
      else Some (buf, j)
  end.

Fixpoint sort_cc_loop (fuel : nat) (buf : list Z) (i len : Z) : option (list Z) :=
  match fuel with
  | O => None
  | S fuel' =>
      if i <? len then
        x ← znth buf i;
        cc ← unicode_get_cc x;
        if negb (cc =? 0) then
          '(buf, j) ← cc_insert (S (Z.to_nat len)) buf i (i + 1) len;
          sort_cc_loop fuel' buf (j + 1) len
        else sort_cc_loop fuel' buf (i + 1) len
      else Some buf
  end.

Definition sort_cc (buf : list Z) (len : Z) : option (list Z) :=
  sort_cc_loop (S (Z.to_nat len)) buf 0 len.

(** ** Decomposition of a string *)

Section normalize.
Context `{Allocator}.

Definition is_hangul (c : Z) : bool := (c >=? 0xac00) && (c <? 0xd7a4).

(** The Hangul syllable [c]. *)
Definition put_hangul (dbuf : DynBuf) (c : Z) : option DynBuf :=
  let c := c - 0xac00 in
  '(dbuf, _) ← dbuf_put_u32 dbuf (0x1100 + c / 588);
  '(dbuf, _) ← dbuf_put_u32 dbuf (0x1161 + (c mod 588) / 28);
  let v := c mod 28 in
  if negb (v =? 0) then '(dbuf, _) ← dbuf_put_u32 dbuf (0x11a7 + v); Some dbuf else Some dbuf.

(** The loop over [src]; [rec] is the recursive call on a decomposition. *)
Fixpoint nfd_loop (rec : DynBuf -> list Z -> option DynBuf) (is_compat : Z) (dbuf : DynBuf)
    (src : list Z) : option DynBuf :=
  match src with
  | [] => Some dbuf
  | c :: src' =>
      dbuf ←
        (if is_hangul c then put_hangul dbuf c
         else
           res ← unicode_decomp_char c is_compat;
           match res with
           | [] => '(dbuf, _) ← dbuf_put_u32 dbuf c; Some dbuf
           | _ => rec dbuf res
           end);
      nfd_loop rec is_compat dbuf src'
  end.

(** [fuel] bounds the depth of the recursion. *)
Fixpoint to_nfd_rec (fuel : nat) (is_compat : Z) (dbuf : DynBuf) (src : list Z) : option DynBuf :=
  match fuel with
  | O => None
  | S fuel' => nfd_loop (to_nfd_rec fuel' is_compat) is_compat dbuf src
  end.

(** ** Normalisation *)

Definition UNICODE_NFC : Z := 0.

(** [(int * )dbuf->buf], the first [n] elements. *)
Fixpoint read_ints (n : nat) (bytes : list Z) (i : Z) : option (list Z) :=
  match n with
  | O => Some []
  | S n' => x ← get_u32 bytes i; r ← read_ints n' bytes (i + 4); Some (x :: r)
  end.

(** [while (starter_pos >= 0)]: the position of the starter, negative if there is none, or
    [None] for the jump to [next]. *)
Fixpoint find_starter (fuel : nat) (buf : list Z) (starter_pos last_cc : Z) : option (option Z) :=
  match fuel with
  | O => None
  | S fuel' =>
      if starter_pos >=? 0 then
        x ← znth buf starter_pos;
        cc ← unicode_get_cc x;
        if cc =? 0 then Some (Some starter_pos)
        else if cc >=? last_cc then Some None
        else find_starter fuel' buf (starter_pos - 1) 256
      else Some (Some starter_pos)
  end.

(** [while (i < buf_len)] *)
Fixpoint compose_loop (fuel : nat) (buf : list Z) (i out_len buf_len : Z) : option (list Z * Z) :=
  match fuel with
  | O => None
  | S fuel' =>
      if i <? buf_len then
        x ← znth buf i;
        last_cc ← unicode_get_cc x;
        let next :=
          buf ← zupd buf out_len x; compose_loop fuel' buf (i + 1) (out_len + 1) buf_len in
        r ← find_starter (S (Z.to_nat out_len)) buf (out_len - 1) last_cc;
        match r with
        | None => next
        | Some starter_pos =>
            if starter_pos >=? 0 then
              s ← znth buf starter_pos;
              p ← compose_pair s x;
              if negb (p =? 0) then
                buf ← zupd buf starter_pos p; compose_loop fuel' buf (i + 1) out_len buf_len
              else next
            else next
        end
      else Some (buf, out_len)
  end.

(** The characters of the result; [Some None] when the function returns -1.  The nesting
    of the decompositions is bounded by the tables, see [NormOk]. *)
Definition unicode_normalize (src : list Z) (n_type : Z) : option (option (list Z)) :=
  let is_compat := Z.shiftr n_type 1 in
  let src_len := zlen src in
  let '(dbuf, r) := dbuf_realloc dbuf_init (4 * src_len) in
  if negb (r =? 0) then Some None
  else if (n_type =? UNICODE_NFC) && forallb (fun c => c <? 0x100) src then
    b ← zblit (buf dbuf) 0 (flat_map (le_bytes 4) src);
    out ← read_ints (length src) b 0; Some (Some out)
  else
    dbuf ← to_nfd_rec 8 is_compat dbuf src;
    if dbuf_error dbuf then Some None
    else
      let buf_len := size dbuf / 4 in
      buf ← read_ints (Z.to_nat buf_len) (DynBuf.buf dbuf) 0;
      buf ← sort_cc buf buf_len;
      if (buf_len <=? 1) || negb (Z.land n_type 1 =? 0) then Some (Some buf)
      else '(buf, out_len) ← compose_loop (S (Z.to_nat buf_len)) buf 1 1 buf_len;
           Some (Some (take (Z.to_nat out_len) buf)).
End normalize.

(** ** Evaluation *)

Definition normalize_limit (src : list Z) (n_type : Z) : option (option (list Z)) :=
  @unicode_normalize (limit_alloc 4096) src n_type.

(** A with ring above and dot below, a Hangul syllable, the ligature ffi. *)
Example nfd_example : normalize_limit [0xc5; 0x323; 0xd4db; 0xfb03] 1
  = Some (Some [0x41; 0x323; 0x30a; 0x1111; 0x1171; 0x11b6; 0xfb03]).
Proof. vm_compute. done. Qed.

Example nfkc_example : normalize_limit [0x41; 0x30a; 0x323; 0x1111; 0x1171; 0x11b6; 0xfb03] 2
  = Some (Some [0x1ea0; 0x30a; 0xd4db; 0x66; 0x66; 0x69]).
Proof. vm_compute. done. Qed.
