(* ===== verification/NormFast.v ===== *)
(** * The normalisation tables as search trees

    The properties of the tables that the proofs need are checked by evaluation, entry by
    entry.  Reading the element [i] of a list takes [i] steps; here the tables are also binary
    trees, equal to the lists as functions of the index, and [fast_tables] puts the trees in
    place of the lists before an evaluation. *)

From Stdlib Require Import FunctionalExtensionality.
From stdpp Require Import pmap.
From S2P Require Import Prelude RunSearch NormTables Normalize.

(** ** Arrays as trees *)

Definition aget (a : Pmap Z) (i : Z) : option Z :=
  match i with Z0 => a !! 1%positive | Zpos p => a !! Pos.succ p | Zneg _ => None end.

Fixpoint array_from (n : positive) (l : list Z) : Pmap Z :=
  match l with [] => ∅ | x :: l' => <[n := x]> (array_from (Pos.succ n) l') end.

Definition array_of (l : list Z) : Pmap Z := array_from 1 l.

Lemma array_from_lookup l n p :
  array_from n l !! p = if (p <? n)%positive then None else l !! (Pos.to_nat p - Pos.to_nat n)%nat.
Proof.
  revert n. induction l as [|x l IH]; intros n; cbn [array_from].
  - rewrite lookup_empty. by destruct (p <? n)%positive.
  - destruct (decide (p = n)) as [->|Hn].
    + by rewrite lookup_insert_eq, Pos.ltb_irrefl, Nat.sub_diag.
    + rewrite lookup_insert_ne, IH by done. destruct (Pos.ltb_spec p n), (Pos.ltb_spec p (Pos.succ n)); try lia; [done|].
      replace (Pos.to_nat p - Pos.to_nat n)%nat with (S (Pos.to_nat p - Pos.to_nat (Pos.succ n))) by lia. done.
Qed.

Lemma array_of_znth l : znth l = aget (array_of l).
Proof.
  extensionality i. unfold aget, array_of. destruct i as [|p|p].
  - rewrite array_from_lookup. by destruct l.
  - rewrite array_from_lookup, (proj2 (Pos.ltb_ge _ _)) by lia. rewrite znth_lookup by lia. f_equal. lia.
  - destruct (znth l (Z.neg p)) eqn:E; [|done]. apply znth_Some_range in E. lia.
Qed.

(** ** The search in a tree *)

Fixpoint find_get (code_of len_of : Z -> Z) (get : Z -> option Z) (fuel : nat) (c lo hi : Z) : option (option (Z * Z)) :=
  match fuel with
  | O => None
  | S fuel' =>
      if lo <=? hi then
        let idx := (hi + lo) / 2 in
        v ← get idx;
        if c <? code_of v then find_get code_of len_of get fuel' c lo (idx - 1)
        else if c >=? code_of v + len_of v then find_get code_of len_of get fuel' c (idx + 1) hi
        else Some (Some (idx, v))
      else Some None
  end.

Lemma find_run_get code_of len_of fuel tbl c lo hi :
  find_run code_of len_of fuel tbl c lo hi = find_get code_of len_of (znth tbl) fuel c lo hi.
Proof.
  revert lo hi. induction fuel as [|fuel IH]; intros lo hi; [done|]. cbn [find_run find_get].
  destruct (lo <=? hi); [|done]. destruct (znth tbl _) as [v|]; [|done]. cbn [mbind option_bind].
  by rewrite !IH.
Qed.

(** ** The tables *)

Definition table1_array : Pmap Z := Eval vm_compute in array_of unicode_decomp_table1.
Definition table2_array : Pmap Z := Eval vm_compute in array_of unicode_decomp_table2.
Definition data_array : Pmap Z := Eval vm_compute in array_of unicode_decomp_data.
Definition comp_array : Pmap Z := Eval vm_compute in array_of unicode_comp_table.

Lemma table1_get : znth unicode_decomp_table1 = aget table1_array.
Proof. exact (array_of_znth unicode_decomp_table1). Qed.

Lemma table2_get : znth unicode_decomp_table2 = aget table2_array.
Proof. exact (array_of_znth unicode_decomp_table2). Qed.

Lemma data_get : znth unicode_decomp_data = aget data_array.
Proof. exact (array_of_znth unicode_decomp_data). Qed.

Lemma comp_get : znth unicode_comp_table = aget comp_array.
Proof. exact (array_of_znth unicode_comp_table). Qed.

(** The last index of [unicode_decomp_table1]. *)
Definition TABLE1_LAST : Z := 689.

#[local] Opaque aget znth.

Lemma table1_last : zlen unicode_decomp_table1 - 1 = TABLE1_LAST.
Proof. reflexivity. Qed.

Lemma find_decomp_get :
  find_decomp = fun c =>
    find_get decomp_code decomp_len (aget table1_array) (S (length unicode_decomp_table1)) c 0 TABLE1_LAST.
Proof. extensionality c. unfold find_decomp. by rewrite find_run_get, table1_get, table1_last. Qed.

(** Puts the trees in place of the lists. *)
Ltac fast_tables :=
  cbv beta delta [comp_entry unicode_decomp_char unicode_decomp_entry decomp_18bit decomp_i decomp_b unicode_get16];
  rewrite ?find_decomp_get, ?table1_get, ?table2_get, ?data_get, ?comp_get.
