(* ===== verification/NormCc.v ===== *)
(** * Combining classes and the canonical ordering

    [unicode_get_cc] is compared with a decoding of the whole table; [sort_cc] is shown to
    compute the canonical ordering: within every run of characters of non zero class the
    classes increase, and characters of one class keep their order. *)

From Stdlib Require Import Permutation.
From S2P Require Import Prelude Bytes CaseConv NormTables Normalize.

(** ** The decoded table *)

(** A run: its length less one, its type and the byte that follows. *)
Record CcRun := mkCcRun { cc_n : Z; cc_type : Z; cc_base : Z }.

Definition cc_cons (n type : Z) (t : list Z) (k : list Z -> option (list CcRun)) : option (list CcRun) :=
  if type <=? 1 then
    match t with
    | b :: t => rs ← k t; Some (mkCcRun n type b :: rs)
    | [] => None
    end
  else rs ← k t; Some (mkCcRun n type 0 :: rs).

Fixpoint decode_cc (fuel : nat) (table : list Z) : option (list CcRun) :=
  match fuel with
  | O => None
  | S fuel' =>
      match table with
      | [] => Some []
      | b :: t =>
          let n := b mod 64 in
          if n <? 48 then cc_cons n (b / 64) t (decode_cc fuel')
          else if n <? 56 then
            match t with
            | b0 :: t => cc_cons ((n - 48) * 256 + b0 + 48) (b / 64) t (decode_cc fuel')
            | _ => None
            end
          else
            match t with
            | b0 :: b1 :: t =>
                cc_cons (Z.lor (Z.lor ((n - 56) * 256) (b0 * 256)) b1 + 2096) (b / 64) t (decode_cc fuel')
            | _ => None
            end
      end
  end.

(** The class of [c] in runs that start at [code]. *)
Fixpoint cc_in (c code : Z) (rs : list CcRun) : Z :=
  match rs with
  | [] => 0
  | r :: rs =>
      if c <? code + (cc_n r + 1) then
        if cc_type r =? 0 then cc_base r
        else if cc_type r =? 1 then cc_base r + (c - code)
        else if cc_type r =? 2 then 0
        else 230
      else cc_in c (code + (cc_n r + 1)) rs
  end.

Definition cc_sum (rs : list CcRun) : Z := foldr (fun r s => cc_n r + 1 + s) 0 rs.

Definition cc_run_ok (r : CcRun) : bool :=
  (0 <=? cc_n r) && (0 <=? cc_type r) && (0 <=? cc_base r) &&
  (cc_base r + (if cc_type r =? 1 then cc_n r else 0) <? 256).

Definition cc_runs : list CcRun :=
  Eval vm_compute in default [] (decode_cc (S (length unicode_cc_table)) unicode_cc_table).

Definition CC_LAST : Z := 125259.

(** The canonical combining class that the table defines. *)
Definition ccc (c : Z) : Z := if c <? CC_LAST then cc_in c 0 cc_runs else 0.

(** ** The loop *)

Lemma cc_sum_nonneg rs : Forall (fun r => cc_run_ok r = true) rs -> 0 <= cc_sum rs.
Proof.
  induction 1 as [|r rs Hr _ IH]; [done|]. unfold cc_run_ok in Hr. zify_bools. cbn. fold (cc_sum rs). lia.
Qed.

Lemma cc_loop_spec fuel c pos code rs f :
  Forall is_byte unicode_cc_table -> 0 <= pos ->
  decode_cc f (drop (Z.to_nat pos) unicode_cc_table) = Some rs ->
  Forall (fun r => cc_run_ok r = true) rs -> 0 <= code <= c -> c < code + cc_sum rs < 2 ^ 31 ->
  zlen unicode_cc_table - pos < Z.of_nat fuel ->
  cc_loop fuel c pos code = Some (cc_in c code rs).
Proof.
  set (table := unicode_cc_table). intros Hb. revert pos code rs f.
  induction fuel as [|fuel IH]; intros pos code rs f Hpos Hd Hp Hcode Hc Hf.
  { rewrite drop_ge in Hd by (unfold zlen in *; lia). destruct f; [done|]. injection Hd as <-. cbn in Hc. lia. }
  destruct f as [|f]; [done|].
  assert (pos < zlen table) as Hlt.
  { destruct (decide (pos < zlen table)); [done|].
    rewrite drop_ge in Hd by (unfold zlen in *; lia). injection Hd as <-. cbn in Hc. lia. }
  assert (Hbyte : forall i x, znth table i = Some x -> is_byte x).
  { intros i x. unfold znth. destruct (i <? 0); [done|]. by apply Forall_lookup. }
  assert (Hone : forall n type p,
    pos < p -> cc_cons n type (drop (Z.to_nat p) table) (decode_cc f) = Some rs ->
    (let p := if type <=? 1 then p + 1 else p in
     let c1 := u32 (code + n + 1) in
     if c <? c1 then
       if type =? 0 then znth table (p - 1)
       else if type =? 1 then b ← znth table (p - 1); Some (u32 (b + c - code))
       else if type =? 2 then Some 0
       else Some 230
     else cc_loop fuel c p c1) = Some (cc_in c code rs)).
  { intros n type p Hp' Hcons. unfold cc_cons in Hcons.
    destruct (Z.leb_spec type 1) as [Ht|Ht].
    - destruct (decide (p < zlen table)).
      2:{ rewrite drop_ge in Hcons by (unfold zlen in *; lia). done. }
      destruct (drop_znth table p) as (b & Hx & Hdrop); [lia|]. rewrite Hdrop in Hcons.
      destruct (decode_cc f (drop _ table)) as [rs'|] eqn:Hd'; [|done]. injection Hcons as <-.
      apply List.Forall_cons_iff in Hp as [Hr Hp]. unfold cc_run_ok in Hr. cbn [cc_n cc_type cc_base] in Hr.
      zify_bools. pose proof (cc_sum_nonneg _ Hp). cbn [cc_in cc_sum foldr cc_n cc_type cc_base] in *.
      fold (cc_sum rs') in *. cbv zeta. rewrite u32_small by lia.
      replace (code + n + 1) with (code + (n + 1)) by lia.
      destruct (Z.ltb_spec c (code + (n + 1))).
      + replace (p + 1 - 1) with p by lia. rewrite Hx. destruct (Z.eqb_spec type 0); [done|].
        destruct (Z.eqb_spec type 1) as [->|]; [|lia]. change (1 =? 1) with true in *. cbn [mbind option_bind].
        rewrite u32_small by lia. f_equal. lia.
      + eapply IH; [lia|exact Hd'|done|lia|lia|lia].
    - destruct (decode_cc f (drop (Z.to_nat p) table)) as [rs'|] eqn:Hd'; [|done]. injection Hcons as <-.
      apply List.Forall_cons_iff in Hp as [Hr Hp]. unfold cc_run_ok in Hr. cbn [cc_n cc_type cc_base] in Hr.
      zify_bools. pose proof (cc_sum_nonneg _ Hp). cbn [cc_in cc_sum foldr cc_n cc_type cc_base] in *.
      fold (cc_sum rs') in *. cbv zeta. rewrite u32_small by lia.
      replace (code + n + 1) with (code + (n + 1)) by lia.
      destruct (Z.ltb_spec c (code + (n + 1))).
      + destruct (Z.eqb_spec type 0); [lia|]. destruct (Z.eqb_spec type 1); [lia|]. by destruct (type =? 2).
      + eapply IH; [lia|exact Hd'|done|lia|lia|lia]. }
  destruct (drop_znth table pos) as (b & Hx & Hdrop); [lia|].
  pose proof (Hbyte _ _ Hx) as Hxb. unfold is_byte in Hxb.
  cbn [cc_loop]. fold table. rewrite Hx. cbn [mbind option_bind].
  rewrite Hdrop in Hd. cbn [decode_cc] in Hd.
  rewrite (land_mask b 0x3f 6), Z.shiftr_div_pow2 by done. change (2 ^ 6) with 64.
  assert (Hn : 0 <= b mod 64 < 64) by (apply Z.mod_pos_bound; lia). set (n := b mod 64) in *.
  destruct (Z.ltb_spec n 48); [apply Hone; [lia|done]|]. destruct (Z.ltb_spec n 56).
  - destruct (decide (pos + 1 < zlen table)).
    2:{ rewrite drop_ge in Hd by (unfold zlen in *; lia). done. }
    destruct (drop_znth table (pos + 1)) as (b0 & Hx0 & Hdrop0); [lia|].
    pose proof (Hbyte _ _ Hx0) as Hb0. unfold is_byte in Hb0.
    rewrite Hdrop0 in Hd. rewrite Hx0. cbn [mbind option_bind].
    rewrite lor_shiftl_add by lia. apply Hone; [lia|]. by replace ((n - 48) * 2 ^ 8) with ((n - 48) * 256) by lia.
  - destruct (decide (pos + 1 + 1 < zlen table)).
    2:{ destruct (drop _ table) as [|y [|z l]] eqn:E; [done..|]. apply (f_equal length) in E.
        rewrite length_drop in E. cbn [length] in E. unfold zlen in *. lia. }
    destruct (drop_znth table (pos + 1)) as (b0 & Hx0 & Hdrop0); [lia|].
    destruct (drop_znth table (pos + 1 + 1)) as (b1 & Hx1 & Hdrop1); [lia|].
    rewrite Hdrop0, Hdrop1 in Hd. rewrite Hx0. cbn [mbind option_bind]. rewrite Hx1. cbn [mbind option_bind].
    rewrite !Z.shiftl_mul_pow2 by lia. change (2 ^ 8) with 256. change (48 + 1 * 2 ^ 11) with 2096.
    apply Hone; [lia|]. by replace (pos + 1 + 2) with (pos + 1 + 1 + 1) by lia.
Qed.

(** ** The lookup *)

#[export] Instance CcRun_eq_dec : EqDecision CcRun.
Proof. solve_decision. Defined.

(** At the offset [pos] of the table the runs go on from [code]. *)
Definition cc_point (pos code : Z) : Prop :=
  exists f ra rb, decode_cc f (drop (Z.to_nat pos) unicode_cc_table) = Some rb /\
    cc_runs = ra ++ rb /\ cc_sum ra = code /\ 0 <= pos.

Definition cc_pointb (pos code : Z) : bool :=
  match decode_cc 852 (drop (Z.to_nat pos) unicode_cc_table) with
  | Some rb =>
      let n := (length cc_runs - length rb)%nat in
      bool_decide (drop n cc_runs = rb) && (cc_sum (take n cc_runs) =? code) && (0 <=? pos)
  | None => false
  end.

Lemma cc_pointb_ok pos code : cc_pointb pos code = true -> cc_point pos code.
Proof.
  unfold cc_pointb, cc_point. destruct (decode_cc _ _) as [rb|] eqn:E; [|done]. intros H. zify_bools.
  apply bool_decide_eq_true in H. eexists 852%nat, (take _ cc_runs), rb. split; [done|].
  split; [by rewrite <- (take_drop (length cc_runs - length rb) cc_runs) at 1; rewrite H|done].
Qed.

Definition cc_index_entry_ok (i : nat) : bool :=
  match get_le24 unicode_cc_index (Z.of_nat i * 3) with
  | Some v => cc_pointb ((Z.of_nat i + 1) * UNICODE_INDEX_BLOCK_LEN + Z.shiftr v 21) (index_code v)
  | None => false
  end.

Lemma cc_index_ok i v :
  0 <= i < 26 -> get_le24 unicode_cc_index (i * 3) = Some v ->
  cc_point ((i + 1) * UNICODE_INDEX_BLOCK_LEN + Z.shiftr v 21) (index_code v).
Proof.
  intros Hi Hv. apply cc_pointb_ok.
  assert (H : forallb cc_index_entry_ok (seq 0 26) = true) by (vm_compute; reflexivity).
  rewrite forallb_forall in H. specialize (H (Z.to_nat i)). unfold cc_index_entry_ok in H.
  rewrite Z2Nat.id, Hv in H by lia. apply H, in_seq. lia.
Qed.

Lemma cc_in_app c code ra rb :
  Forall (fun r => cc_run_ok r = true) ra -> code + cc_sum ra <= c ->
  cc_in c code (ra ++ rb) = cc_in c (code + cc_sum ra) rb.
Proof.
  revert code. induction ra as [|r ra IH]; intros code Hok Hc.
  - cbn. by rewrite Z.add_0_r.
  - apply List.Forall_cons_iff in Hok as [_ Hok]. pose proof (cc_sum_nonneg _ Hok).
    cbn [app cc_in cc_sum foldr] in *. fold (cc_sum ra) in *.
    destruct (Z.ltb_spec c (code + (cc_n r + 1))); [lia|]. rewrite IH by (done || lia). f_equal. lia.
Qed.

Lemma cc_in_range c code rs :
  Forall (fun r => cc_run_ok r = true) rs -> code <= c -> 0 <= cc_in c code rs < 256.
Proof.
  intros H. revert code. induction H as [|r rs Hr _ IH]; intros code Hc; cbn [cc_in]; [lia|].
  unfold cc_run_ok in Hr. zify_bools. destruct (Z.ltb_spec c (code + (cc_n r + 1))); [|apply IH; lia].
  destruct (Z.eqb_spec (cc_type r) 0), (Z.eqb_spec (cc_type r) 1); try lia. destruct (cc_type r =? 2); lia.
Qed.

Lemma cc_runs_ok : Forall (fun r => cc_run_ok r = true) cc_runs.
Proof. apply List.Forall_forall. apply forallb_forall. vm_compute. reflexivity. Qed.

Lemma ccc_range c : 0 <= c -> 0 <= ccc c < 256.
Proof. intros. unfold ccc. destruct (c <? CC_LAST); [|lia]. apply cc_in_range; [apply cc_runs_ok|lia]. Qed.

(** All the characters from [lo] to [hi - 1] have class 0. *)
Fixpoint cc_starters (lo hi code : Z) (rs : list CcRun) : bool :=
  match rs with
  | [] => true
  | r :: rs =>
      if lo <? code + (cc_n r + 1) then (hi <=? code + (cc_n r + 1)) && (cc_type r =? 2)
      else cc_starters lo hi (code + (cc_n r + 1)) rs
  end.

Lemma cc_starters_ok lo hi code rs c : cc_starters lo hi code rs = true -> lo <= c < hi -> cc_in c code rs = 0.
Proof.
  intros H Hc. revert code H. induction rs as [|r rs IH]; intros code H; [done|]. cbn [cc_starters cc_in] in *.
  destruct (Z.ltb_spec lo (code + (cc_n r + 1))).
  - zify_bools. rewrite (proj2 (Z.ltb_lt c _)) by lia. by rewrite H1.
  - rewrite (proj2 (Z.ltb_ge c _)) by lia. by apply IH.
Qed.

Lemma ccc_starters lo hi c : cc_starters lo hi 0 cc_runs = true -> lo <= c < hi -> ccc c = 0.
Proof. intros H Hc. unfold ccc. destruct (c <? CC_LAST); [|done]. by eapply cc_starters_ok. Qed.

Lemma unicode_get_cc_ccc c : 0 <= c -> unicode_get_cc c = Some (ccc c).
Proof.
  intros Hc. unfold unicode_get_cc, ccc. change (zlen unicode_cc_index / 3) with (Z.of_nat 26 + 1).
  pose proof (get_index_pos_spec cc_point unicode_cc_index 26 CC_LAST 845 c) as H.
  specialize (H eq_refl ltac:(lia) eq_refl eq_refl ltac:(vm_compute; congruence)).
  specialize (H (fun i v Hi => cc_index_ok i v Hi)).
  specialize (H (cc_pointb_ok 0 0 ltac:(vm_compute; reflexivity)) Hc).
  destruct (Z.ltb_spec c CC_LAST); [|by rewrite H].
  destruct H as (pos & code & -> & (f & ra & rb & Hd & Hr & Hs & Hp) & Hcode). cbn [mbind option_bind].
  pose proof cc_runs_ok as Hok. rewrite Hr in Hok |- *. apply Forall_app in Hok as [Ha Hb].
  rewrite cc_in_app by (done || lia). rewrite Hs.
  pose proof (cc_sum_nonneg _ Ha).
  assert (Ht : cc_sum ra + cc_sum rb = CC_LAST).
  { transitivity (cc_sum cc_runs); [|vm_compute; reflexivity]. rewrite Hr. clear.
    induction ra; unfold cc_sum in *; cbn; lia. }
  unfold CC_LAST in *. eapply cc_loop_spec; [|done|exact Hd|done|lia|lia|unfold zlen; lia].
  apply forallb_bytes. vm_compute. reflexivity.
Qed.

(** unicode_get_cc, which starts at an indexed position of the byte coded table,
    computes the same class as the decoded list of runs read from the beginning, for
    every 32 bit value. *)
Theorem unicode_get_cc_spec c :
  0 <= c ->
  decode_cc (S (length unicode_cc_table)) unicode_cc_table = Some cc_runs /\
  unicode_get_cc c = Some (if c <? CC_LAST then cc_in c 0 cc_runs else 0) /\
  0 <= (if c <? CC_LAST then cc_in c 0 cc_runs else 0) < 256.
Proof.
  intros Hc. split; [vm_compute; reflexivity|]. split; [by apply unicode_get_cc_ccc|by apply ccc_range].
Qed.

Lemma unicode_get_cc_spec_witness :
  decode_cc (S (length unicode_cc_table)) unicode_cc_table = Some cc_runs /\
  unicode_get_cc 0x345 = Some (if 0x345 <? CC_LAST then cc_in 0x345 0 cc_runs else 0) /\
  0 <= (if 0x345 <? CC_LAST then cc_in 0x345 0 cc_runs else 0) < 256.
Proof. apply (unicode_get_cc_spec 0x345). lia. Defined.

(** ** The canonical ordering *)

(** The starters and the characters of class [q]. *)
Definition erase (q : Z) (l : list Z) : list Z := List.filter (fun c => (ccc c =? 0) || (ccc c =? q)) l.

Lemma erase_app q l k : erase q (l ++ k) = erase q l ++ erase q k.
Proof. apply List.filter_app. Qed.

(** [l'] is [l] with runs of non starters reordered: starters stay, and so does the order
    of the characters of any one class. *)
Definition reordered (l l' : list Z) : Prop := Permutation l' l /\ forall q, erase q l' = erase q l.

Lemma reordered_refl l : reordered l l.
Proof. done. Qed.

Lemma reordered_trans l1 l2 l3 : reordered l1 l2 -> reordered l2 l3 -> reordered l1 l3.
Proof.
  intros [P1 E1] [P2 E2]. split; [by rewrite P2|]. intros q. by rewrite E2.
Qed.

Lemma reordered_app l1 l1' l2 l2' : reordered l1 l1' -> reordered l2 l2' -> reordered (l1 ++ l2) (l1' ++ l2').
Proof.
  intros [P1 E1] [P2 E2]. split; [by rewrite P1, P2|]. intros q. by rewrite !erase_app, E1, E2.
Qed.

(** Moving a character of class [q] before characters of other non zero classes. *)
Lemma erase_none q l : Forall (fun c => ccc c <> 0 /\ ccc c <> q) l -> erase q l = [].
Proof.
  induction 1 as [|c l [H1 H2] _ IH]; [done|]. cbn. apply Z.eqb_neq in H1, H2. by rewrite H1, H2.
Qed.

Lemma reordered_move a b x :
  ccc x <> 0 -> Forall (fun c => ccc c <> 0 /\ ccc c <> ccc x) b -> reordered (a ++ b ++ [x]) (a ++ [x] ++ b).
Proof.
  intros Hx Hb. apply reordered_app; [done|]. split; [apply Permutation_app_comm|]. intros q.
  rewrite !erase_app. destruct (decide (q = ccc x)) as [->|Hq].
  - by rewrite (erase_none _ b), app_nil_r.
  - cbn. destruct (Z.eqb_spec (ccc x) 0), (Z.eqb_spec (ccc x) q); try congruence. by rewrite app_nil_r.
Qed.

(** Two neighbours are in canonical order. *)
Definition in_order (x y : Z) : Prop := ccc y = 0 \/ ccc x <= ccc y.

Definition canonical (l : list Z) : Prop :=
  forall i x y, l !! i = Some x -> l !! (S i) = Some y -> in_order x y.

Definition starter (c : Z) : Prop := ccc c = 0.
Definition nonstarter (c : Z) : Prop := ccc c <> 0.

(** A run of non starters in increasing order. *)
Definition ordered (l : list Z) : Prop :=
  forall i j x y, (i < j)%nat -> l !! i = Some x -> l !! j = Some y -> ccc x <= ccc y.

Lemma ordered_app a b :
  ordered a -> ordered b -> (forall x y, x ∈ a -> y ∈ b -> ccc x <= ccc y) -> ordered (a ++ b).
Proof.
  intros Ha Hb Hab i j x y Hij Hx Hy.
  apply lookup_app_Some in Hx as [Hx|[Hi Hx]], Hy as [Hy|[Hj Hy]].
  - by eapply Ha.
  - apply Hab; by eapply list_elem_of_lookup_2.
  - apply lookup_lt_Some in Hy. lia.
  - eapply Hb; [|exact Hx|exact Hy]. lia.
Qed.

Lemma ordered_app_inv a b :
  ordered (a ++ b) -> ordered a /\ ordered b /\ (forall x y, x ∈ a -> y ∈ b -> ccc x <= ccc y).
Proof.
  intros H. split; [|split].
  - intros i j x y Hij Hx Hy. eapply H; [exact Hij|by apply lookup_app_l_Some..].
  - intros i j x y Hij Hx Hy. eapply (H (length a + i) (length a + j))%nat; [lia|..];
      rewrite lookup_app_r by lia; by rewrite Nat.add_sub_swap, Nat.sub_diag by lia.
  - intros x y [i Hi]%list_elem_of_lookup_1 [j Hj]%list_elem_of_lookup_1.
    eapply (H i (length a + j)%nat); [apply lookup_lt_Some in Hi; lia|by apply lookup_app_l_Some|].
    rewrite lookup_app_r by lia. by rewrite Nat.add_sub_swap, Nat.sub_diag by lia.
Qed.

Lemma ordered_singleton x : ordered [x].
Proof. intros [|i] [|j] y z Hij Hy Hz; try lia; done. Qed.

(** [x] goes behind the last element of a class that is not greater. *)
Lemma ordered_insert a b x :
  ordered (a ++ b) -> (forall a' y, a = a' ++ [y] -> ccc y <= ccc x) -> Forall (fun c => ccc x < ccc c) b ->
  ordered (a ++ [x] ++ b).
Proof.
  intros (Ha & Hb & Hab)%ordered_app_inv Hx Hxb. rewrite Forall_forall in Hxb.
  apply ordered_app; [done|apply ordered_app|].
  - apply ordered_singleton.
  - done.
  - intros y z Hy Hz. apply list_elem_of_singleton in Hy as ->. apply list_elem_of_In in Hz. specialize (Hxb z Hz). lia.
  - intros y z Hy [Hz|Hz]%elem_of_app; [|by apply Hab].
    apply list_elem_of_singleton in Hz as ->.
    destruct a as [|w a _] using rev_ind; [by apply elem_of_nil in Hy|].
    specialize (Hx a w eq_refl). apply elem_of_app in Hy as [Hy|Hy].
    + apply ordered_app_inv in Ha as (_ & _ & Ha). specialize (Ha y w Hy ltac:(by apply list_elem_of_singleton)). lia.
    + by apply list_elem_of_singleton in Hy as ->.
Qed.

(** ** sort_cc *)

Lemma znth_mid {A} (l r : list A) x i : i = zlen l -> znth (l ++ x :: r) i = Some x.
Proof. intros ->. rewrite znth_app_r by lia. by rewrite Z.sub_diag. Qed.

Lemma zupd_mid {A} (l r : list A) x y i : i = zlen l -> zupd (l ++ x :: r) i y = Some (l ++ y :: r).
Proof.
  intros ->. pose proof (zlen_nonneg l). pose proof (zlen_nonneg r). rewrite zupd_is_Some by zlen_lia.
  f_equal. unfold zlen. by rewrite Nat2Z.id, insert_app_r_alt, Nat.sub_diag by lia.
Qed.

Definition valid (l : list Z) : Prop := Forall (fun c => 0 <= c) l.

Lemma cc_shift_ok fuel l1 run h l2 k start cc1 :
  start = zlen l1 -> k = start + zlen run - 1 -> valid run -> zlen run < Z.of_nat fuel ->
  exists a b h', run = a ++ b /\
    cc_shift fuel (l1 ++ run ++ h :: l2) k start cc1 = Some (l1 ++ a ++ h' :: b ++ l2, start + zlen a - 1) /\
    Forall (fun c => cc1 < ccc c) b /\ (forall a' y, a = a' ++ [y] -> ccc y <= cc1).
Proof.
  intros -> ->. revert h l2 fuel. induction run as [|y run IH] using rev_ind; intros h l2 fuel Hv Hf;
    (destruct fuel as [|fuel]; [zlen_lia|]).
  - exists [], [], h. split; [done|]. split; [|split; [constructor|by intros [] ? ?]].
    cbn [cc_shift]. rewrite zlen_nil. rewrite Z.geb_leb, (proj2 (Z.leb_gt _ _)) by lia. done.
  - apply Forall_app in Hv as [Hv Hy]. apply List.Forall_cons_iff in Hy as [Hy _].
    cbn [cc_shift]. pose proof (zlen_nonneg run). rewrite zlen_app in *. change (zlen [y]) with 1 in *.
    rewrite Z.geb_leb, (proj2 (Z.leb_le _ _)) by lia.
    rewrite <- app_assoc. cbn [app]. rewrite (app_assoc l1 run).
    rewrite (znth_mid (l1 ++ run)) by (rewrite zlen_app; lia). cbn [mbind option_bind].
    rewrite unicode_get_cc_ccc by done. cbn [mbind option_bind].
    destruct (Z.leb_spec (ccc y) cc1) as [Hle|Hgt].
    + exists (run ++ [y]), [], h. split; [by rewrite app_nil_r|]. split; [|split; [constructor|]].
      * rewrite <- !app_assoc. cbn [app]. do 2 f_equal. rewrite zlen_app. change (zlen [y]) with 1. lia.
      * intros a' z [_ [= ->]]%app_inj_tail. done.
    + replace ((l1 ++ run) ++ y :: h :: l2) with (((l1 ++ run) ++ [y]) ++ h :: l2)
        by (by rewrite <- !app_assoc).
      rewrite zupd_mid by (rewrite !zlen_app; change (zlen [y]) with 1; lia). cbn [mbind option_bind].
      replace (((l1 ++ run) ++ [y]) ++ y :: l2) with (l1 ++ run ++ y :: y :: l2) by (by rewrite <- !app_assoc).
      destruct (IH y (y :: l2) fuel Hv ltac:(lia)) as (a & b & h' & -> & E & Hb & Ha).
      exists a, (b ++ [y]), h'. split; [by rewrite <- app_assoc|]. split; [|split; [|done]].
      * replace (zlen l1 + (zlen (a ++ b) + 1) - 1 - 1) with (zlen l1 + zlen (a ++ b) - 1) by lia.
        rewrite E. do 2 f_equal. by rewrite <- !app_assoc.
      * apply Forall_app. split; [done|]. by constructor.
Qed.

Lemma cc_insert_ok fuel l1 run rest start j len :
  start = zlen l1 -> j = start + zlen run -> len = j + zlen rest -> valid run -> valid rest ->
  ordered run -> Forall nonstarter run -> zlen rest < Z.of_nat fuel ->
  exists run' ns rest', rest = ns ++ rest' /\ Forall nonstarter ns /\
    cc_insert fuel (l1 ++ run ++ rest) start j len = Some (l1 ++ run' ++ rest', start + zlen run') /\
    ordered run' /\ reordered (run ++ ns) run' /\
    match rest' with [] => True | s :: _ => starter s end.
Proof.
  intros -> -> ->. revert run fuel. induction rest as [|x rest IH]; intros run fuel Hv Hr Ho Hn Hf;
    (destruct fuel as [|fuel]; [zlen_lia|]); cbn [cc_insert].
  { rewrite zlen_nil, Z.add_0_r, Z.ltb_irrefl. exists run, [], []. rewrite !app_nil_r.
    repeat (split; [done || constructor|]). done. }
  apply List.Forall_cons_iff in Hr as [Hx Hr]. rewrite zlen_cons in *. pose proof (zlen_nonneg rest).
  rewrite (proj2 (Z.ltb_lt _ _)) by lia.
  rewrite app_assoc. rewrite (znth_mid (l1 ++ run)) by (rewrite zlen_app; lia). cbn [mbind option_bind].
  rewrite unicode_get_cc_ccc by done. cbn [mbind option_bind].
  destruct (Z.eqb_spec (ccc x) 0) as [Hs|Hs].
  { exists run, [], (x :: rest). rewrite app_nil_r, <- app_assoc.
    repeat (split; [done || constructor|]). done. }
  rewrite <- app_assoc.
  destruct (cc_shift_ok (S (Z.to_nat (zlen l1 + zlen run - zlen l1))) l1 run x rest (zlen l1 + zlen run - 1) (zlen l1)
    (ccc x)) as (a & b & h & -> & E & Hb & Ha); [done..|pose proof (zlen_nonneg run); lia|].
  rewrite E. cbn [mbind option_bind]. clear E. rewrite app_assoc.
  rewrite zupd_mid by (rewrite zlen_app; lia). cbn [mbind option_bind].
  replace ((l1 ++ a) ++ x :: b ++ rest) with (l1 ++ (a ++ [x] ++ b) ++ rest) by (by rewrite <- !app_assoc).
  assert (L : zlen (a ++ [x] ++ b) = zlen (a ++ b) + 1) by (rewrite !zlen_app; change (zlen [x]) with 1; lia).
  assert (M : reordered ((a ++ b) ++ [x]) (a ++ [x] ++ b)).
  { rewrite <- app_assoc. apply reordered_move; [done|]. apply Forall_app in Hn as [_ Hn].
    rewrite Forall_forall in *. intros c Hc. specialize (Hb c Hc). specialize (Hn c Hc). unfold nonstarter in Hn. lia. }
  destruct (IH (a ++ [x] ++ b) fuel) as (run' & ns & rest' & -> & Hns & E & Ho' & Hre & Hst).
  - unfold valid in *. rewrite !Forall_app in *. destruct Hv. repeat split; try done. by constructor.
  - done.
  - by apply ordered_insert.
  - rewrite !Forall_app in *. destruct Hn. repeat split; try done. by constructor.
  - lia.
  - exists run', (x :: ns), rest'. split; [done|]. split; [by constructor|]. split; [|split; [done|split; [|done]]].
    + rewrite <- E, L. f_equal; lia.
    + eapply reordered_trans; [|exact Hre].
      replace ((a ++ b) ++ x :: ns) with (((a ++ b) ++ [x]) ++ ns) by (by rewrite <- !app_assoc).
      by apply reordered_app.
Qed.

Lemma canonical_nil : canonical [].
Proof. intros [|i] x y H; done. Qed.

Lemma canonical_cons x l :
  canonical l -> match l with [] => True | y :: _ => in_order x y end -> canonical (x :: l).
Proof.
  intros H Hh [|i] y z Hy Hz; [|by eapply H].
  injection Hy as ->. destruct l as [|w l]; [done|]. by injection Hz as ->.
Qed.

Lemma canonical_app r s l : ordered r -> starter s -> canonical (s :: l) -> canonical (r ++ s :: l).
Proof.
  intros Ho Hs Hc. induction r as [|x r IH]; [done|]. cbn.
  change (x :: r) with ([x] ++ r) in Ho. apply ordered_app_inv in Ho as (_ & Ho & Hx).
  apply canonical_cons; [by apply IH|]. destruct r as [|y r]; [by left|]. right.
  apply Hx; [by apply list_elem_of_singleton|apply elem_of_cons; by left].
Qed.

Lemma ordered_canonical r : ordered r -> canonical r.
Proof. intros H i x y Hx Hy. right. eapply H; [|exact Hx|exact Hy]. lia. Qed.

Lemma sort_cc_loop_ok fuel l1 rest i len :
  i = zlen l1 -> len = i + zlen rest -> valid rest -> zlen rest < Z.of_nat fuel ->
  exists rest', sort_cc_loop fuel (l1 ++ rest) i len = Some (l1 ++ rest') /\
    canonical rest' /\ reordered rest rest'.
Proof.
  intros -> ->. revert l1 rest. induction fuel as [|fuel IH]; intros l1 rest Hv Hf; [zlen_lia|].
  cbn [sort_cc_loop]. destruct rest as [|x rest].
  { rewrite zlen_nil, Z.add_0_r, Z.ltb_irrefl. exists []. split; [done|]. split; [apply canonical_nil|done]. }
  rewrite zlen_cons in *. pose proof (zlen_nonneg rest). rewrite (proj2 (Z.ltb_lt _ _)) by lia.
  rewrite znth_mid by done. cbn [mbind option_bind].
  apply List.Forall_cons_iff in Hv as [Hx Hv]. rewrite unicode_get_cc_ccc by done. cbn [mbind option_bind].
  destruct (Z.eqb_spec (ccc x) 0) as [Hs|Hs]; cbn [negb].
  - destruct (IH (l1 ++ [x]) rest Hv ltac:(lia)) as (r & E & Hc & Hr).
    exists (x :: r). split; [|split].
    + rewrite zlen_app, <- !app_assoc in E. change (zlen [x]) with 1 in E. cbn [app] in E. rewrite <- E. f_equal; lia.
    + apply canonical_cons; [done|]. destruct r as [|y r]; [done|]. right. rewrite Hs. apply ccc_range.
      destruct Hr as [Hp _]. unfold valid in Hv. rewrite List.Forall_forall in Hv. apply Hv.
      eapply Permutation_in; [exact Hp|by left].
    + by apply (reordered_app [x] [x]).
  - destruct (cc_insert_ok (S (Z.to_nat (zlen l1 + (1 + zlen rest)))) l1 [x] rest (zlen l1) (zlen l1 + 1)
      (zlen l1 + (1 + zlen rest))) as (run & ns & rest2 & -> & Hns & E & Ho & Hre & Hst);
      [done|done|lia|by constructor|done|apply ordered_singleton|by constructor|pose proof (zlen_nonneg l1); lia|].
    cbn [app] in E. rewrite E. cbn [mbind option_bind]. clear E.
    apply Forall_app in Hv as [_ Hv]. destruct rest2 as [|s rest2].
    + exists run. rewrite !app_nil_r in *. destruct fuel as [|fuel]; [zlen_lia|]. cbn [sort_cc_loop].
      rewrite (proj2 (Z.ltb_ge _ _)).
      2:{ destruct Hre as [Hp _]. apply Permutation_length in Hp. unfold zlen in *. cbn [app length] in *. lia. }
      split; [done|]. split; [by apply ordered_canonical|done].
    + apply List.Forall_cons_iff in Hv as [Hs0 Hv].
      assert (L : zlen run = 1 + zlen ns).
      { destruct Hre as [Hp _]. apply Permutation_length in Hp. unfold zlen in *. cbn [app length] in *. lia. }
      destruct (IH (l1 ++ run ++ [s]) rest2 Hv ltac:(zlen_lia)) as (r & E & Hc & Hr).
      exists (run ++ s :: r). split; [|split].
      * rewrite !zlen_app, <- !app_assoc in E. cbn [app] in E. change (zlen [s]) with 1 in E.
        rewrite <- E. f_equal; zlen_lia.
      * apply canonical_app; [done|done|]. apply canonical_cons; [done|]. destruct r as [|y r]; [done|].
        right. unfold starter in Hst. rewrite Hst. apply ccc_range. destruct Hr as [Hp _].
        unfold valid in Hv. rewrite List.Forall_forall in Hv. apply Hv.
        eapply Permutation_in; [exact Hp|by left].
      * apply (reordered_app ([x] ++ ns) run (s :: rest2) (s :: r)); [done|].
        by apply (reordered_app [s] [s]).
Qed.

Lemma sort_cc_ok buf : valid buf ->
  exists out, sort_cc buf (zlen buf) = Some out /\ canonical out /\ reordered buf out.
Proof. intros Hv. apply (sort_cc_loop_ok _ [] buf 0); [done|lia|done|zlen_lia]. Qed.

(** *** A canonical list is determined by the order of the characters of each class *)

Lemma canonical_tail x l : canonical (x :: l) -> canonical l.
Proof. intros H i y z Hy Hz. by apply (H (S i)). Qed.

Lemma erase_cons q c l :
  erase q (c :: l) = if (ccc c =? 0) || (ccc c =? q) then c :: erase q l else erase q l.
Proof. done. Qed.

(** The class of a non starter at the head is the least one of its run. *)
Lemma canonical_head x l y q r :
  canonical (x :: l) -> nonstarter x -> erase q (x :: l) = y :: r -> nonstarter y -> ccc x <= ccc y.
Proof.
  revert x. induction l as [|z l IH]; intros x Hc Hx He Hy.
  - rewrite erase_cons in He. unfold nonstarter in *. destruct (Z.eqb_spec (ccc x) 0); [done|].
    cbn [orb] in He. destruct (ccc x =? q); [|done]. by injection He as -> _.
  - rewrite erase_cons in He. unfold nonstarter in *. destruct (Z.eqb_spec (ccc x) 0); [done|].
    cbn [orb] in He. destruct (ccc x =? q); [by injection He as -> _|].
    destruct (Hc 0%nat x z eq_refl eq_refl) as [Hz|Hz].
    + rewrite erase_cons, Hz in He. injection He as -> _. done.
    + destruct (decide (ccc z = 0)) as [E|E]; [rewrite erase_cons, E in He; by injection He as -> _|].
      specialize (IH z (canonical_tail _ _ Hc) E He Hy). lia.
Qed.

Lemma canonical_unique l l' : canonical l -> canonical l' -> (forall q, erase q l = erase q l') -> l = l'.
Proof.
  revert l'. induction l as [|x l IH]; intros l' Hc Hc' He.
  - destruct l' as [|y l']; [done|]. specialize (He (ccc y)). rewrite erase_cons, Z.eqb_refl, orb_true_r in He. done.
  - destruct l' as [|y l'].
    { specialize (He (ccc x)). rewrite erase_cons, Z.eqb_refl, orb_true_r in He. done. }
    assert (x = y) as <-.
    { pose proof (He (ccc x)) as Hx. pose proof (He (ccc y)) as Hy.
      rewrite (erase_cons (ccc x) x), Z.eqb_refl, orb_true_r in Hx.
      rewrite (erase_cons (ccc y) y), Z.eqb_refl, orb_true_r in Hy.
      destruct (decide (ccc x = 0)) as [Ex|Ex].
      { rewrite erase_cons, Ex in Hy. by injection Hy. }
      destruct (decide (ccc y = 0)) as [Ey|Ey].
      { rewrite erase_cons, Ey in Hx. by injection Hx. }
      pose proof (canonical_head _ _ _ _ _ Hc Ex Hy Ey).
      pose proof (canonical_head _ _ _ _ _ Hc' Ey (eq_sym Hx) Ex).
      assert (E : ccc y = ccc x) by lia.
      rewrite erase_cons, E, Z.eqb_refl, orb_true_r in Hx. by injection Hx. }
    f_equal. apply IH; [by eapply canonical_tail|by eapply canonical_tail|].
    intros q. specialize (He q). rewrite !erase_cons in He. destruct (_ || _); [by injection He|done].
Qed.

(** sort_cc puts any text into canonical order: it permutes non starters only
    within their runs, keeps the order of the characters of one class, and its result
    is the only such arrangement. *)
Theorem sort_cc_canonical buf :
  Forall (fun c => 0 <= c) buf ->
  exists out, sort_cc buf (zlen buf) = Some out /\
    canonical out /\ Permutation out buf /\ (forall q, erase q out = erase q buf) /\
    (forall l, canonical l -> (forall q, erase q l = erase q buf) -> l = out).
Proof.
  intros Hv. destruct (sort_cc_ok buf Hv) as (out & E & Hc & Hp & He). exists out.
  split; [done|]. split; [done|]. split; [done|]. split; [done|].
  intros l Hl Hq. apply canonical_unique; [done|done|]. intros q. by rewrite Hq, He.
Qed.

Lemma sort_cc_canonical_witness :
  exists out, sort_cc [0x41; 0x30a; 0x323; 0x345; 0x331; 0x42; 0x327] 7 = Some out /\
    canonical out /\ Permutation out [0x41; 0x30a; 0x323; 0x345; 0x331; 0x42; 0x327] /\
    (forall q, erase q out = erase q [0x41; 0x30a; 0x323; 0x345; 0x331; 0x42; 0x327]) /\
    (forall l, canonical l ->
      (forall q, erase q l = erase q [0x41; 0x30a; 0x323; 0x345; 0x331; 0x42; 0x327]) -> l = out).
Proof.
  apply (sort_cc_canonical [0x41; 0x30a; 0x323; 0x345; 0x331; 0x42; 0x327]).
  repeat constructor; lia.
Defined.
