(* ===== verification/NormDecomp.v ===== *)
(** * Decompositions

    Every entry of the decomposition tables is checked by evaluation: it reads inside
    [unicode_decomp_data], gives at most 18 code points, and its decompositions nest at most
    four deep.  From this [to_nfd_rec] computes a total function, [nfd], which replaces each
    character by characters that have no decomposition. *)

From Stdlib Require Import Sorted.
From S2P Require Import Prelude Bytes DynBuf RunSearch CaseConv NormTables Normalize NormFast.

(** ** The entries *)

Lemma decomp_len_nonneg v : 0 <= decomp_len v.
Proof. unfold decomp_len. rewrite (land_mask _ _ 7) by done. divlia. Qed.

Lemma decomp_sorted : StronglySorted (run_before decomp_code decomp_len) unicode_decomp_table1.
Proof. apply runs_sortedb_ok; [apply decomp_len_nonneg|]. vm_compute. reflexivity. Qed.

Lemma find_decomp_scan c :
  find_decomp c = Some (scan_run decomp_code decomp_len 0 unicode_decomp_table1 c).
Proof.
  unfold find_decomp.
  apply find_run_bounds; [apply decomp_len_nonneg|apply decomp_sorted|lia..|unfold zlen; lia|].
  intros k v ?%znth_Some_range _. lia.
Qed.

(** A property of every character that has an entry, checked entry by entry. *)
Definition entry_all (f : Z -> Z -> Z -> bool) : bool :=
  forallb (fun i => match znth unicode_decomp_table1 (Z.of_nat i) with
    | Some v => forallb (fun j => f (Z.of_nat i) v (decomp_code v + Z.of_nat j))
                  (seq 0 (Z.to_nat (decomp_len v)))
    | None => false
    end) (seq 0 (length unicode_decomp_table1)).

Lemma entry_all_ok f c idx v :
  entry_all f = true -> znth unicode_decomp_table1 idx = Some v -> in_run decomp_code decomp_len v c ->
  f idx v c = true.
Proof.
  intros H Hv [H1 H2]. pose proof (znth_Some_range _ _ _ Hv) as Hr.
  unfold entry_all in H. rewrite forallb_forall in H.
  specialize (H (Z.to_nat idx) ltac:(apply in_seq; unfold zlen in Hr; lia)).
  rewrite Z2Nat.id, Hv in H by lia. rewrite forallb_forall in H.
  specialize (H (Z.to_nat (c - decomp_code v)) ltac:(apply in_seq; lia)).
  by replace (decomp_code v + Z.of_nat (Z.to_nat (c - decomp_code v))) with c in H by lia.
Qed.

Definition entry_bounded (idx v c : Z) : bool :=
  match unicode_decomp_entry c idx (decomp_code v) (decomp_len v) (decomp_type v) with
  | Some l => (zlen l <=? UNICODE_DECOMP_LEN_MAX) && forallb code_pointb l
  | None => false
  end.

Lemma entries_bounded : entry_all entry_bounded = true.
Proof. unfold entry_all, entry_bounded. fast_tables. vm_compute. reflexivity. Qed.

Lemma code_pointb_all l : forallb code_pointb l = true -> Forall code_point l.
Proof.
  rewrite forallb_forall, List.Forall_forall. intros H c Hc. specialize (H c Hc).
  unfold code_pointb in H. zify_bools. done.
Qed.

Lemma unicode_decomp_char_bounded c k :
  exists res, unicode_decomp_char c k = Some res /\ zlen res <= UNICODE_DECOMP_LEN_MAX /\
    Forall code_point res.
Proof.
  unfold unicode_decomp_char. rewrite find_decomp_scan. cbn [mbind option_bind].
  pose proof (scan_run_spec decomp_code decomp_len unicode_decomp_table1 c 0) as Hs.
  destruct (scan_run _ _ _ _ _) as [[idx v]|]; [|by exists []].
  destruct Hs as (_ & Hv & Hr). rewrite Z.sub_0_r in Hv.
  destruct (k <? Z.land v 1); [by exists []|].
  pose proof (entry_all_ok _ _ _ _ entries_bounded Hv Hr) as H. unfold entry_bounded in H.
  destruct (unicode_decomp_entry _ _ _ _ _) as [res|]; [|done]. zify_bools.
  exists res. split; [done|]. split; [done|]. by apply code_pointb_all.
Qed.

(** A character without an entry has no decomposition. *)
Lemma unicode_decomp_char_entry c k x res :
  unicode_decomp_char c k = Some (x :: res) ->
  exists idx v, znth unicode_decomp_table1 idx = Some v /\ in_run decomp_code decomp_len v c.
Proof.
  unfold unicode_decomp_char. rewrite find_decomp_scan. cbn [mbind option_bind].
  pose proof (scan_run_spec decomp_code decomp_len unicode_decomp_table1 c 0) as Hs.
  destruct (scan_run _ _ _ _ _) as [[idx v]|]; [|done]. intros _.
  destruct Hs as (_ & Hv & Hr). rewrite Z.sub_0_r in Hv. by exists idx, v.
Qed.

(** Every canonical decomposition is a compatibility decomposition. *)
Lemma unicode_decomp_char_compat c : unicode_decomp_char c 1 = Some [] -> unicode_decomp_char c 0 = Some [].
Proof.
  unfold unicode_decomp_char. destruct (find_decomp c) as [[[idx v]|]|]; [|done..]. cbn [mbind option_bind].
  assert (H : 0 <= Z.land v 1 < 2 ^ 1) by (rewrite (land_mask v 1 1) by done; by apply Z.mod_pos_bound).
  destruct (Z.ltb_spec 1 (Z.land v 1)); [lia|]. by destruct (0 <? Z.land v 1).
Qed.

(** For every 32 bit value unicode_decomp_char reads inside its tables and writes
    at most UNICODE_DECOMP_LEN_MAX code points. *)
Theorem unicode_decomp_char_ok c is_compat1 :
  exists res, unicode_decomp_char c is_compat1 = Some res /\
    zlen res <= UNICODE_DECOMP_LEN_MAX /\ Forall code_point res.
Proof. apply unicode_decomp_char_bounded. Qed.

(** ** The full decomposition as a function on lists *)

Definition hangul_jamo (c : Z) : list Z :=
  let c := c - 0xac00 in
  [0x1100 + c / 588; 0x1161 + (c mod 588) / 28]
    ++ (if c mod 28 =? 0 then [] else [0x11a7 + c mod 28]).

Section nfds.
Context (k : Z).

Definition nfd_char (rec : list Z -> option (list Z)) (c : Z) : option (list Z) :=
  if is_hangul c then Some (hangul_jamo c)
  else
    res ← unicode_decomp_char c k;
    match res with [] => Some [c] | _ => rec res end.

Fixpoint nfds_loop (rec : list Z -> option (list Z)) (src : list Z) : option (list Z) :=
  match src with
  | [] => Some []
  | c :: src' => a ← nfd_char rec c; b ← nfds_loop rec src'; Some (a ++ b)
  end.

(** The decomposition of [src] when it nests at most [n] deep. *)
Fixpoint nfds (n : nat) (src : list Z) : option (list Z) :=
  match n with
  | O => None
  | S n' => nfds_loop (nfds n') src
  end.
End nfds.

Definition nests_4 (k idx v c : Z) : bool :=
  match nfds k 4 [c] with Some _ => true | None => false end.

Lemma nests_4_canonical : entry_all (nests_4 0) = true.
Proof. cbv beta delta [entry_all nests_4 nfds nfds_loop nfd_char]. fast_tables. vm_compute. reflexivity. Qed.

Lemma nests_4_compat : entry_all (nests_4 1) = true.
Proof. cbv beta delta [entry_all nests_4 nfds nfds_loop nfd_char]. fast_tables. vm_compute. reflexivity. Qed.
