(* ===== verification/NormNfd.v ===== *)
(** * The full decomposition of a string

    [nfd] is the function that [to_nfd_rec] computes into its buffer; its results are made of
    characters without decomposition, so that decomposing again changes nothing. *)

From S2P Require Import Prelude Bytes DynBuf RunSearch CaseConv NormTables Normalize NormDecomp.

#[local] Opaque unicode_decomp_char.

Definition compat_flag (k : Z) : Prop := k = 0 \/ k = 1.

(** A character stored in 32 bits. *)
Definition word (c : Z) : Prop := 0 <= c < 2 ^ 32.

Lemma code_point_word c : code_point c -> word c.
Proof. unfold code_point, word. lia. Qed.

(** A character that the decomposition leaves alone. *)
Definition terminal (k c : Z) : Prop := is_hangul c = false /\ unicode_decomp_char c k = Some [].

Section nfd.
Context (k : Z).

(** ** Enough depth *)

Lemma nfds_loop_mono rec rec' src l :
  (forall s l, rec s = Some l -> rec' s = Some l) ->
  nfds_loop k rec src = Some l -> nfds_loop k rec' src = Some l.
Proof.
  intros H. revert l. induction src as [|c src IH]; intros l; [done|]. cbn [nfds_loop]. intros E.
  destruct (nfd_char k rec c) as [a|] eqn:Ea; [|done]. cbn [mbind option_bind] in E.
  destruct (nfds_loop k rec src) as [b|] eqn:Eb; [|done]. rewrite (IH b eq_refl).
  assert (nfd_char k rec' c = Some a) as ->; [|done]. unfold nfd_char in *.
  destruct (is_hangul c); [done|]. destruct (unicode_decomp_char c k) as [[|x res]|]; [done| |done].
  by apply H.
Qed.

Lemma nfds_mono n src l : nfds k n src = Some l -> nfds k (S n) src = Some l.
Proof.
  revert src l. induction n as [|n IH]; intros src l; [done|]. cbn [nfds] in *.
  apply nfds_loop_mono. apply IH.
Qed.

Lemma nfds_le n m src l : (n <= m)%nat -> nfds k n src = Some l -> nfds k m src = Some l.
Proof. induction 1; [done|]. intros E. by apply nfds_mono, IHle. Qed.

Lemma nfds_loop_app rec a b :
  nfds_loop k rec (a ++ b) =
    (x ← nfds_loop k rec a; y ← nfds_loop k rec b; Some (x ++ y)).
Proof.
  induction a as [|c a IH]; cbn [app nfds_loop mbind option_bind].
  - by destruct (nfds_loop k rec b).
  - rewrite IH. destruct (nfd_char k rec c); [|done]. cbn [mbind option_bind].
    destruct (nfds_loop k rec a); [|done]. cbn [mbind option_bind].
    destruct (nfds_loop k rec b); [|done]. cbn [mbind option_bind]. by rewrite app_assoc.
Qed.

Hypothesis Hk : compat_flag k.

Lemma nfds_char c : exists l, nfds k 4 [c] = Some l.
Proof.
  destruct (is_hangul c) eqn:Eh.
  { exists (hangul_jamo c). cbn [nfds nfds_loop]. unfold nfd_char. rewrite Eh. cbn [mbind option_bind].
    by rewrite app_nil_r. }
  destruct (unicode_decomp_char_bounded c k) as (res & E & _). destruct res as [|x res].
  { exists [c]. cbn [nfds nfds_loop nfd_char]. unfold nfd_char. by rewrite Eh, E. }
  destruct (unicode_decomp_char_entry _ _ _ _ E) as (idx & v & Hv & Hr).
  assert (H : nests_4 k idx v c = true).
  { destruct Hk as [->| ->]; [exact (entry_all_ok _ _ _ _ nests_4_canonical Hv Hr)|].
    exact (entry_all_ok _ _ _ _ nests_4_compat Hv Hr). }
  unfold nests_4 in H. destruct (nfds k 4 [c]) as [l|]; [by exists l|done].
Qed.

Lemma nfds_total src : exists l, nfds k 4 src = Some l.
Proof.
  induction src as [|c src [l IH]]; [by exists []|].
  destruct (nfds_char c) as [a Ha]. exists (a ++ l).
  change (c :: src) with ([c] ++ src). cbn [nfds] in *. by rewrite nfds_loop_app, Ha, IH.
Qed.

(** ** The function *)

Definition nfd (src : list Z) : list Z := default [] (nfds k 4 src).

Lemma nfds_nfd n src : (4 <= n)%nat -> nfds k n src = Some (nfd src).
Proof.
  intros Hn. destruct (nfds_total src) as [l E]. apply (nfds_le 4); [done|]. unfold nfd. by rewrite E.
Qed.

Lemma nfd_nil : nfd [] = [].
Proof. done. Qed.

Lemma nfd_app a b : nfd (a ++ b) = nfd a ++ nfd b.
Proof.
  pose proof (nfds_nfd 4 (a ++ b) ltac:(lia)) as E. pose proof (nfds_nfd 4 a ltac:(lia)) as Ea.
  pose proof (nfds_nfd 4 b ltac:(lia)) as Eb. cbn [nfds] in *. rewrite nfds_loop_app, Ea, Eb in E.
  by injection E.
Qed.

Lemma nfd_char_eq n c : (4 <= n)%nat -> nfd_char k (nfds k n) c = Some (nfd [c]).
Proof.
  intros Hn. pose proof (nfds_nfd (S n) [c] ltac:(lia)) as E. cbn [nfds nfds_loop] in E.
  destruct (nfd_char k (nfds k n) c); [|done]. cbn [mbind option_bind] in E.
  injection E as <-. by rewrite app_nil_r.
Qed.

Lemma nfd_hangul c : is_hangul c = true -> nfd [c] = hangul_jamo c.
Proof. intros H. pose proof (nfd_char_eq 4 c ltac:(lia)) as E. unfold nfd_char in E. rewrite H in E. by injection E. Qed.

Lemma nfd_decomp c res :
  is_hangul c = false -> unicode_decomp_char c k = Some res -> res <> [] -> nfd [c] = nfd res.
Proof.
  intros H Hd Hne. pose proof (nfd_char_eq 4 c ltac:(lia)) as E. unfold nfd_char in E. rewrite H, Hd in E.
  cbn [mbind option_bind] in E. destruct res; [done|].
  rewrite nfds_nfd in E by lia. by injection E.
Qed.

Lemma nfd_terminal_char c : terminal k c -> nfd [c] = [c].
Proof.
  intros [H Hd]. pose proof (nfd_char_eq 4 c ltac:(lia)) as E. unfold nfd_char in E. rewrite H, Hd in E.
  by injection E.
Qed.

Lemma nfd_terminals l : Forall (terminal k) l -> nfd l = l.
Proof.
  induction 1 as [|c l Hc _ IH]; [done|]. change (c :: l) with ([c] ++ l).
  by rewrite nfd_app, IH, nfd_terminal_char.
Qed.

(** ** What it is made of *)

Definition terminalb (c : Z) : bool :=
  negb (is_hangul c) && match unicode_decomp_char c k with Some [] => true | _ => false end.

Lemma terminalb_ok c : terminalb c = true -> terminal k c.
Proof.
  unfold terminalb, terminal. intros H. zify_bools. split; [done|].
  by destruct (unicode_decomp_char c k) as [[|]|].
Qed.
End nfd.

(** The conjoining jamo have no decomposition. *)
Lemma jamo_terminal k j :
  compat_flag k -> 0x1100 <= j < 0x1100 + 19 \/ 0x1161 <= j < 0x1161 + 21 \/ 0x11a7 <= j < 0x11a7 + 28 ->
  terminal k j.
Proof.
  intros Hk Hj. apply terminalb_ok.
  assert (H : forallb (fun i => let j := 0x1100 + Z.of_nat i in terminalb 0 j && terminalb 1 j) (seq 0 195) = true)
    by (vm_compute; reflexivity).
  rewrite forallb_forall in H. specialize (H (Z.to_nat (j - 0x1100)) ltac:(apply in_seq; lia)).
  cbv zeta in H. rewrite Z2Nat.id in H by lia. replace (0x1100 + (j - 0x1100)) with j in H by lia.
  zify_bools. by destruct Hk as [->| ->].
Qed.

Lemma hangul_jamo_terminal k c : compat_flag k -> is_hangul c = true -> Forall (terminal k) (hangul_jamo c).
Proof.
  intros Hk H. unfold is_hangul in H. zify_bools. rewrite Z.geb_leb in *. zify_bools.
  unfold hangul_jamo. apply Forall_app. split; [constructor; [|constructor; [|constructor]]|].
  - apply jamo_terminal; [done|]. left. divlia.
  - apply jamo_terminal; [done|]. right. left. divlia.
  - destruct (Z.eqb_spec ((c - 44032) mod 28) 0); constructor; [|done].
    apply jamo_terminal; [done|]. right. right. divlia.
Qed.

Lemma hangul_jamo_code_points c : is_hangul c = true -> Forall code_point (hangul_jamo c).
Proof.
  intros H. unfold is_hangul in H. zify_bools. rewrite Z.geb_leb in *. zify_bools.
  unfold hangul_jamo, code_point. apply Forall_app.
  split; [constructor; [divlia|constructor; [divlia|constructor]]|].
  destruct (_ =? 0); constructor; [divlia|constructor].
Qed.

Section output.
Context (k : Z) (Hk : compat_flag k).

(** Every character of the result comes from the source, or is a code point. *)
Lemma nfds_output n src l :
  nfds k n src = Some l ->
  Forall (terminal k) l /\ (Forall word src -> Forall word l) /\ (src <> [] -> l <> []).
Proof.
  revert src l. induction n as [|n IH]; intros src l; [done|]. cbn [nfds]. revert l.
  induction src as [|c src IHs]; intros l E; [by injection E as <-|]. cbn [nfds_loop] in E.
  destruct (nfd_char k (nfds k n) c) as [a|] eqn:Ea; [|done]. cbn [mbind option_bind] in E.
  destruct (nfds_loop k (nfds k n) src) as [b|] eqn:Eb; [|done]. injection E as <-.
  destruct (IHs b eq_refl) as (Tb & Wb & _).
  assert (A : Forall (terminal k) a /\ (word c -> Forall word a) /\ a <> []).
  { unfold nfd_char in Ea. destruct (is_hangul c) eqn:Eh.
    { injection Ea as <-. split; [by apply hangul_jamo_terminal|]. split; [|done]. intros _.
      eapply Forall_impl; [|by apply hangul_jamo_code_points]. intros x. apply code_point_word. }
    destruct (unicode_decomp_char_bounded c k) as (res & Er & _ & Hr). rewrite Er in Ea.
    cbn [mbind option_bind] in Ea. destruct res as [|x res].
    { injection Ea as <-. split; [by constructor|]. split; [|done]. intros W. by constructor. }
    destruct (IH _ _ Ea) as (T & W & N). split; [done|]. split; [|by apply N]. intros _. apply W.
    eapply Forall_impl; [|exact Hr]. intros y. apply code_point_word. }
  destruct A as (Ta & Wa & Na). split; [by apply Forall_app|]. split.
  - intros [Hc Hs]%List.Forall_cons_iff. apply Forall_app. auto.
  - intros _ H. by apply app_eq_nil in H as [? _].
Qed.

Lemma nfd_terminal src : Forall (terminal k) (nfd k src).
Proof. by apply (nfds_output 4 src), nfds_nfd. Qed.

Lemma nfd_word src : Forall word src -> Forall word (nfd k src).
Proof. by apply (nfds_output 4 src), nfds_nfd. Qed.

Lemma nfd_idem src : nfd k (nfd k src) = nfd k src.
Proof. apply nfd_terminals; [done|]. apply nfd_terminal. Qed.
End output.
