(* ===== verification/NormOk.v ===== *)
(** * unicode_normalize: decomposed forms

    [to_nfd_rec] appends the function [nfd] of its source to the buffer, unless an
    allocation fails; with the canonical ordering of [NormCc] this gives the forms NFD and
    NFKD. *)

From Stdlib Require Import Permutation.
From S2P Require Import Prelude Bytes DynBuf CaseConv NormTables Normalize NormCc.
From S2P Require Import NormDecomp NormNfd.

#[local] Opaque unicode_decomp_char unicode_get_cc.

(** The bytes of an array of 32 bit integers. *)
Definition ints (l : list Z) : list Z := flat_map (le_bytes 4) l.

Lemma ints_app a b : ints (a ++ b) = ints a ++ ints b.
Proof. apply flat_map_app. Qed.

Lemma zlen_ints l : zlen (ints l) = 4 * zlen l.
Proof.
  induction l as [|x l IH]; [done|]. change (ints (x :: l)) with (le_bytes 4 x ++ ints l).
  rewrite zlen_app, zlen_le_bytes, zlen_cons, IH. lia.
Qed.

Lemma read_ints_ok l pre post i :
  Forall word l -> i = zlen pre -> read_ints (length l) (pre ++ ints l ++ post) i = Some l.
Proof.
  intros H. revert pre i. induction H as [|x l Hx _ IH]; intros pre i ->; [done|].
  cbn [length read_ints]. change (ints (x :: l)) with (le_bytes 4 x ++ ints l).
  rewrite <- !app_assoc, get_u32_app. cbn [mbind option_bind].
  rewrite (app_assoc pre), IH by (rewrite zlen_app, zlen_le_bytes; lia). cbn [mbind option_bind].
  unfold word in Hx. by rewrite u32_small by lia.
Qed.

Section nfd_buf.
Context `{AllocatorOk}.

(** A request of at most [T] bytes was refused. *)
Definition refused (T : Z) : Prop := exists b n, n <= T /\ realloc_func b n = None.

(** [s'] is [s] with the integers [l] appended, unless an allocation has failed. *)
Definition appended (T : Z) (s : DynBuf) (l : list Z) (s' : DynBuf) : Prop :=
  dbuf_wf s' /\
  (error s' = true /\ (error s = true \/ refused T) \/
   error s = false /\ error s' = false /\ content s' = content s ++ ints l).

(** The requests for [l] more integers stay below [T]. *)
Definition room (T : Z) (s : DynBuf) (l : list Z) : Prop :=
  error s = false -> 3 * (size s + 4 * zlen l) <= 2 * T.

Lemma appended_trans T s a s1 b s2 :
  appended T s a s1 -> appended T s1 b s2 -> appended T s (a ++ b) s2.
Proof.
  intros [W1 H1] [W2 H2]. split; [done|].
  destruct H2 as [(E2 & [E1|R])|(E1 & E2 & C2)].
  - left. split; [done|]. destruct H1 as [(_ & H1)|(_ & H1 & _)]; [done|congruence].
  - left. split; [done|]. by right.
  - right. destruct H1 as [(H1 & _)|(H0 & _ & C1)]; [congruence|].
    split; [done|]. split; [done|]. by rewrite C2, C1, ints_app, app_assoc.
Qed.

Lemma room_app T s a s1 b : dbuf_wf s -> room T s (a ++ b) -> appended T s a s1 -> room T s1 b.
Proof.
  intros W R [W1 [(E & _)|(E0 & E & C)]] E1; [congruence|]. specialize (R E0).
  apply (f_equal zlen) in C. rewrite zlen_app, zlen_ints, !zlen_content in C by done.
  rewrite zlen_app in R. lia.
Qed.

Lemma room_l T s a b : room T s (a ++ b) -> room T s a.
Proof. intros R E. specialize (R E). rewrite zlen_app in R. pose proof (zlen_nonneg b). lia. Qed.

Lemma appended_nil T s : dbuf_wf s -> appended T s [] s.
Proof. intros W. split; [done|]. destruct (error s) eqn:E; [by auto|]. right. by rewrite app_nil_r. Qed.

(** A failed growth was refused by the allocator. *)
Lemma dbuf_realloc_refused s n s' r :
  dbuf_wf s -> n < 2 ^ 62 -> dbuf_realloc s n = (s', r) -> error s = false -> error s' = true ->
  refused (3 * n / 2).
Proof.
  intros (W1 & W2 & W3) Hn E E0 E1. unfold dbuf_realloc in E. rewrite Z.gtb_ltb in E.
  destruct (Z.ltb_spec (allocated_size s) n); [|injection E as <- <-; congruence]. rewrite E0 in E.
  rewrite u64_small in E by lia.
  set (sz := allocated_size s * 3 / 2) in E. set (n' := if sz >? n then sz else n) in E.
  destruct (realloc_func (buf s) n') as [b|] eqn:Er; injection E as <- <-.
  - cbn in E1. congruence.
  - exists (buf s), n'. split; [|done]. subst n' sz. rewrite Z.gtb_ltb. destruct (Z.ltb_spec n (allocated_size s * 3 / 2)); divlia.
Qed.

(** So was a failed append. *)
Lemma dbuf_put_refused s d s' r :
  dbuf_wf s -> size s + zlen d < 2 ^ 62 -> dbuf_put s d = Some (s', r) ->
  error s = false -> error s' = true -> refused (3 * (size s + zlen d) / 2).
Proof.
  intros W Hn E E0 E'. unfold dbuf_put in E. pose proof (zlen_nonneg d).
  rewrite grow_small in E by (done || (destruct W as (? & ? & ?); lia)).
  destruct (if _ >? _ then _ else _) as [s1 r1] eqn:G. rewrite Z.gtb_ltb in G.
  destruct (Z.ltb_spec (allocated_size s) (size s + zlen d)).
  - destruct (error s1) eqn:Er1; [by apply (dbuf_realloc_refused _ _ _ _ W Hn G)|].
    destruct (dbuf_realloc_spec _ _ _ _ W G) as (_ & _ & _ & [(-> & _)|(-> & ? & _)]); [|congruence].
    change (negb (0 =? 0)) with false in E. cbv iota in E.
    match type of E with mbind _ ?z = _ => destruct z; [|done] end. injection E as <- <-. cbn in E'. congruence.
  - injection G as <- <-. change (negb (0 =? 0)) with false in E. cbv iota in E.
    match type of E with mbind _ ?z = _ => destruct z; [|done] end. injection E as <- <-. cbn in E'. congruence.
Qed.

Lemma refused_le T T' : T <= T' -> refused T -> refused T'.
Proof. intros HT (b & n & Hn & E). exists b, n. split; [lia|done]. Qed.

Lemma dbuf_put_u32_appended T s c :
  dbuf_wf s -> T < 2 ^ 61 -> room T s [c] ->
  exists s' r, dbuf_put_u32 s c = Some (s', r) /\ appended T s [c] s'.
Proof.
  intros W HT R. unfold dbuf_put_u32.
  destruct (dbuf_put_spec s (le_bytes 4 c)) as (s' & r & E & W' & P); [done|done|].
  exists s', r. split; [done|]. split; [done|].
  destruct P as [(-> & C & Er)|(-> & C & Er)].
  - destruct (error s) eqn:E0; [left; by auto|]. right. by cbn [ints flat_map]; rewrite app_nil_r.
  - left. split; [done|]. destruct (error s) eqn:E0; [by left|]. right. specialize (R E0).
    assert (L : zlen (le_bytes 4 c) = 4) by (rewrite zlen_le_bytes; lia). change (zlen [c]) with 1 in R.
    apply (refused_le (3 * (size s + 4) / 2)); [divlia|]. rewrite <- L.
    apply (dbuf_put_refused s (le_bytes 4 c) s' (-1)); [done|lia|done..].
Qed.

(** ** The recursion *)

Lemma put_hangul_appended T s c :
  dbuf_wf s -> T < 2 ^ 61 -> room T s (hangul_jamo c) ->
  exists s', put_hangul s c = Some s' /\ appended T s (hangul_jamo c) s'.
Proof.
  intros W HT R. unfold put_hangul, hangul_jamo in *.
  set (x := _ + _ / 588) in *. set (y := _ + _ / 28) in *. set (v := _ mod 28) in *.
  change ([x; y] ++ ?l) with ([x] ++ [y] ++ l) in *.
  destruct (dbuf_put_u32_appended T s x W HT) as (s1 & r1 & E1 & A1); [by eapply room_l|].
  assert (R1 := room_app _ _ _ _ _ W R A1). assert (W1 := proj1 A1).
  destruct (dbuf_put_u32_appended T s1 y W1 HT) as (s2 & r2 & E2 & A2); [by eapply room_l|].
  assert (R2 := room_app _ _ _ _ _ W1 R1 A2). assert (W2 := proj1 A2).
  rewrite E1. cbn [mbind option_bind]. rewrite E2. cbn [mbind option_bind].
  destruct (v =? 0); cbn [negb].
  - exists s2. split; [done|]. rewrite app_nil_r. by eapply appended_trans.
  - destruct (dbuf_put_u32_appended T s2 (4519 + v) W2 HT R2) as (s3 & r3 & E3 & A3).
    rewrite E3. exists s3. split; [done|]. eapply appended_trans; [done|]. by eapply appended_trans.
Qed.

Lemma to_nfd_rec_appended T k n src l s :
  nfds k n src = Some l -> dbuf_wf s -> T < 2 ^ 61 -> room T s l ->
  exists s', to_nfd_rec n k s src = Some s' /\ appended T s l s'.
Proof.
  intros E W HT. revert src l s E W. induction n as [|n IHn]; [done|].
  intros src. cbn [nfds to_nfd_rec]. induction src as [|c src IH]; intros l s E W R; cbn [nfds_loop nfd_loop] in *.
  { injection E as <-. exists s. split; [done|by apply appended_nil]. }
  destruct (nfd_char k (nfds k n) c) as [a|] eqn:Ea; [|done]. cbn [mbind option_bind] in E.
  destruct (nfds_loop k (nfds k n) src) as [b|] eqn:Eb; [|done]. injection E as <-.
  assert (HA : exists s1,
    (if is_hangul c then put_hangul s c
     else res ← unicode_decomp_char c k;
          match res with
          | [] => '(dbuf, _) ← dbuf_put_u32 s c; Some dbuf
          | _ => to_nfd_rec n k s res
          end) = Some s1 /\ appended T s a s1).
  { unfold nfd_char in Ea. apply room_l in R. destruct (is_hangul c).
    - injection Ea as <-. by apply put_hangul_appended.
    - destruct (unicode_decomp_char c k) as [[|x res]|]; [| |done]; cbn [mbind option_bind] in *.
      + injection Ea as <-. destruct (dbuf_put_u32_appended T s c W HT R) as (s1 & r1 & E1 & A1).
        rewrite E1. by exists s1.
      + by apply IHn. }
  destruct HA as (s1 & -> & A1). cbn [mbind option_bind].
  destruct (IH b s1 eq_refl (proj1 A1) (room_app _ _ _ _ _ W R A1)) as (s2 & -> & A2).
  exists s2. split; [done|]. by eapply appended_trans.
Qed.
End nfd_buf.

(** ** unicode_normalize up to the ordering *)

(** [l] is the canonical ordering of the decomposition of [src]. *)
Definition decomposed (k : Z) (src l : list Z) : Prop := canonical l /\ reordered (nfd k src) l.

Lemma decomposed_unique k src l l' : decomposed k src l -> decomposed k src l' -> l = l'.
Proof.
  intros [C [_ E]] [C' [_ E']]. apply canonical_unique; [done..|]. intros q. by rewrite E, E'.
Qed.

Section normalize.
Context `{AllocatorOk}.

(** The bytes that a call may ask for. *)
Definition request (k : Z) (src : list Z) : Z := 6 * Z.max (zlen src) (zlen (nfd k src)).

Lemma to_nfd_rec_content k src s :
  compat_flag k -> Forall word src -> dbuf_wf s -> size s = 0 -> error s = false ->
  request k src < 2 ^ 61 ->
  exists s', to_nfd_rec 8 k s src = Some s' /\
    (error s' = true /\ refused (request k src) \/
     error s' = false /\ size s' = 4 * zlen (nfd k src) /\
     read_ints (length (nfd k src)) (buf s') 0 = Some (nfd k src)).
Proof.
  intros Hk Hs W Hz He Hr.
  destruct (to_nfd_rec_appended (request k src) k 8 src (nfd k src) s) as (s' & E & W' & HA);
    [by apply nfds_nfd; [|lia]|done|done|intros _; unfold request; lia|].
  exists s'. split; [done|]. destruct HA as [(E1 & [E2|R])|(_ & E1 & C)]; [congruence|by left|].
  right. split; [done|]. assert (content s = []) as E0.
  { unfold content. by rewrite Hz. }
  rewrite E0 in C. cbn [app] in C. split.
  - apply (f_equal zlen) in C. by rewrite zlen_content, zlen_ints in C.
  - rewrite <- (take_drop (Z.to_nat (size s')) (buf s')). fold (content s'). rewrite C.
    apply (read_ints_ok _ []); [by apply nfd_word|done].
Qed.

Lemma latin1_read src b b' :
  Forall word src -> zblit b 0 (ints src) = Some b' -> read_ints (length src) b' 0 = Some src.
Proof.
  intros Hs (_ & _ & ->)%zblit_Some. rewrite Z2Nat.inj_0, take_0. by apply (read_ints_ok _ []).
Qed.

(** The part common to the four forms. *)
Lemma unicode_normalize_decomposes src n_type :
  let k := Z.shiftr n_type 1 in
  0 <= n_type < 4 -> Forall word src -> request k src < 2 ^ 61 ->
  unicode_normalize src n_type = Some None /\ refused (request k src) \/
  (n_type = UNICODE_NFC /\ unicode_normalize src n_type = Some (Some src) /\
     forallb (fun c => c <? 0x100) src = true) \/
  exists l, decomposed k src l /\ valid l /\
    unicode_normalize src n_type =
      (let n := zlen l in
       if (n <=? 1) || negb (Z.land n_type 1 =? 0) then Some (Some l)
       else '(b, out_len) ← compose_loop (S (Z.to_nat n)) l 1 1 n; Some (Some (take (Z.to_nat out_len) b))).
Proof.
  cbv zeta. set (k := Z.shiftr n_type 1). intros Hn Hs Hr.
  assert (Hk : compat_flag k).
  { unfold k, compat_flag. rewrite Z.shiftr_div_pow2 by lia. divlia. }
  assert (Hw : Forall word (nfd k src)) by by apply nfd_word.
  unfold unicode_normalize. fold k. pose proof (zlen_nonneg src).
  assert (Hl : 6 * zlen src <= request k src) by (unfold request; lia).
  destruct (dbuf_realloc dbuf_init (4 * zlen src)) as [s r] eqn:E.
  destruct (dbuf_realloc_spec _ _ _ _ dbuf_init_wf E) as (W & Sz & _ & P).
  destruct P as [(-> & Ha & Er)|(-> & Er & _)].
  2:{ left. split; [done|]. apply (refused_le (3 * (4 * zlen src) / 2)); [divlia|].
    by apply (dbuf_realloc_refused dbuf_init (4 * zlen src) s (-1) dbuf_init_wf ltac:(lia) E). }
  change (negb (0 =? 0)) with false. cbv iota.
  destruct ((n_type =? UNICODE_NFC) && forallb _ src) eqn:EL.
  { right. left. zify_bools. split; [done|]. fold (ints src).
    destruct W as (Wl & Ws & Wa).
    assert (is_Some (zblit (buf s) 0 (ints src))) as [b Eb].
    { eexists; apply zblit_is_Some; [lia|]. rewrite zlen_ints. lia. }
    rewrite Eb. cbn [mbind option_bind]. by rewrite (latin1_read _ _ _ Hs Eb). }
  destruct (to_nfd_rec_content k src s Hk Hs W Sz Er Hr) as (s' & E' & [(E1 & R)|(E1 & E2 & E3)]);
    rewrite E'; cbn [mbind option_bind]; unfold dbuf_error; rewrite E1.
  { by left. }
  right. right. assert (size s' / 4 = zlen (nfd k src)) as -> by (rewrite E2; divlia).
  replace (Z.to_nat (zlen (nfd k src))) with (length (nfd k src)) by (unfold zlen; lia).
  rewrite E3. cbn [mbind option_bind].
  destruct (sort_cc_ok (nfd k src)) as (l & El & C & R).
  { eapply Forall_impl; [|exact Hw]. unfold word. lia. }
  rewrite El. cbn [mbind option_bind]. exists l.
  split; [done|]. split.
  { apply (Permutation_Forall (Permutation_sym (proj1 R))). eapply Forall_impl; [|exact Hw].
    unfold word. lia. }
  assert (E4 : length (nfd k src) = length l) by by rewrite (Permutation_length (proj1 R)).
  unfold zlen. by rewrite E4, Nat2Z.id.
Qed.

(** ** The decomposed forms *)

End normalize.

