(* ===== verification/NormCompose.v ===== *)
(** * unicode_normalize: composition

    [compose_pair] inverts the canonical decompositions of the composition table and of the
    Hangul syllables; the loop of [unicode_normalize] keeps the canonical decomposition of the
    text while it composes. *)

From Stdlib Require Import Permutation.
From S2P Require Import Prelude Bytes DynBuf RunSearch CaseConv NormTables Normalize NormFast NormCc.
From S2P Require Import NormDecomp NormNfd NormOk.

(** ** The composition table *)

(** A property of every composition, checked entry by entry.  Four of them (U+0344, U+0F73,
    U+0F75, U+0F81) begin with a non starter, where [unicode_normalize] never composes. *)
Definition comp_all (f : Z -> Z -> Z -> bool) : bool :=
  forallb (fun v => match comp_entry v with Some (ch, p0, p1) => f ch p0 p1 | None => false end)
    unicode_comp_table.

Definition comp_ok (ch p0 p1 : Z) : bool :=
  (0 <? ch) && code_pointb ch && negb (is_hangul ch) && (negb (ccc p0 =? 0) || (ccc ch =? 0)) &&
  code_pointb p0 && code_pointb p1 &&
  match unicode_decomp_char ch 0 with Some [q0; q1] => (q0 =? p0) && (q1 =? p1) | _ => false end &&
  match compose_pair p0 p1 with Some c => c =? ch | _ => false end.

Lemma comps_ok : comp_all comp_ok = true.
Proof.
  cbv beta delta [comp_all comp_ok compose_pair unicode_compose_pair compose_search]. fast_tables.
  vm_compute. reflexivity.
Qed.

Lemma hangul_starter c : is_hangul c = true -> ccc c = 0.
Proof.
  intros H. unfold is_hangul in H. rewrite Z.geb_leb in H. zify_bools.
  apply (ccc_starters 0xac00 0xd7a4); [vm_compute; reflexivity|lia].
Qed.

#[local] Opaque unicode_decomp_char unicode_get_cc comp_entry ccc.

Lemma comp_all_ok f i v :
  comp_all f = true -> znth unicode_comp_table i = Some v ->
  exists ch p0 p1, comp_entry v = Some (ch, p0, p1) /\ f ch p0 p1 = true.
Proof.
  intros H Hv. unfold comp_all in H. rewrite forallb_forall in H.
  rewrite znth_lookup in Hv by (apply znth_Some_range in Hv; lia). apply list_elem_of_lookup_2, list_elem_of_In, H in Hv.
  destruct (comp_entry v) as [[[ch p0] p1]|]; [|done]. by exists ch, p0, p1.
Qed.

(** [ch] is a composition of the table. *)
Definition composes (ch p0 p1 : Z) : Prop :=
  exists i v, znth unicode_comp_table i = Some v /\ comp_entry v = Some (ch, p0, p1).

Lemma s32_zero a b : word a -> word b -> s32 (a - b) = 0 -> a = b.
Proof. unfold word, s32, u32. intros Ha Hb. repeat destruct_cmp; divlia. Qed.

Lemma compose_search_ok fuel c0 c1 lo hi :
  word c0 -> word c1 -> 0 <= lo <= hi + 1 -> hi < zlen unicode_comp_table -> hi - lo + 1 < Z.of_nat fuel ->
  exists ch, compose_search fuel c0 c1 lo hi = Some ch /\ (ch = 0 \/ composes ch c0 c1).
Proof.
  intros W0 W1. revert lo hi. induction fuel as [|fuel IH]; intros lo hi Hlo Hhi Hf; [lia|].
  cbn [compose_search]. destruct (Z.leb_spec lo hi); [|exists 0; by auto].
  assert (Hm : lo <= (hi + lo) / 2 <= hi) by divlia. set (m := (hi + lo) / 2) in *.
  destruct (znth_is_Some unicode_comp_table m ltac:(lia)) as [v Hv]. rewrite Hv. cbn [mbind option_bind].
  destruct (comp_all_ok _ _ _ comps_ok Hv) as (ch & p0 & p1 & E & Hok). rewrite E. cbn [mbind option_bind].
  assert (Hp : code_point p0 /\ code_point p1).
  { unfold comp_ok in Hok. zify_bools. unfold code_pointb, code_point in *. by zify_bools. }
  destruct Hp as [Hp0%code_point_word Hp1%code_point_word].
  cbv zeta. set (d := s32 (c0 - p0)). set (d' := if d =? 0 then s32 (c1 - p1) else d).
  destruct (Z.ltb_spec d' 0); [apply IH; lia|]. rewrite Z.gtb_ltb.
  destruct (Z.ltb_spec 0 d'); [apply IH; lia|].
  exists ch. split; [done|]. right. exists m, v. split; [done|]. rewrite E. unfold d', d in *.
  destruct (Z.eqb_spec (s32 (c0 - p0)) 0) as [E0|]; [|lia].
  by rewrite (s32_zero c0 p0 W0), (s32_zero c1 p1 W1) by (done || lia).
Qed.

Lemma unicode_compose_pair_ok c0 c1 :
  word c0 -> word c1 ->
  exists ch, unicode_compose_pair c0 c1 = Some ch /\ (ch = 0 \/ composes ch c0 c1).
Proof. intros W0 W1. apply compose_search_ok; [done|done|zlen_lia|lia|unfold zlen; lia]. Qed.

Lemma composes_ok ch p0 p1 :
  composes ch p0 p1 ->
  0 < ch /\ word ch /\ is_hangul ch = false /\ (starter p0 -> starter ch) /\ unicode_decomp_char ch 0 = Some [p0; p1] /\
  compose_pair p0 p1 = Some ch.
Proof.
  intros (i & v & Hv & E). destruct (comp_all_ok _ _ _ comps_ok Hv) as (ch' & q0 & q1 & E' & Hok).
  rewrite E in E'. injection E' as <- <- <-. unfold comp_ok in Hok. zify_bools.
  split; [done|]. split; [apply code_point_word; unfold code_pointb, code_point in *; by zify_bools|].
  split; [done|]. split; [unfold starter; intros Es; destruct_or?; by zify_bools|].
  destruct (unicode_decomp_char ch 0) as [[|q0 [|q1 [|]]]|]; try done. zify_bools. subst.
  split; [done|]. destruct (compose_pair p0 p1); [|done]. zify_bools. by subst.
Qed.

(** ** compose_pair *)

(** U+11A7 precedes the trailing consonants: it is not one of them. *)
Definition JAMO_T_BASE : Z := 0x11a7.

Lemma hangul_lv_lvt c0 c1 p :
  is_hangul p = true ->
  (c0 = 0x1100 + (p - 0xac00) / 588 /\ c1 = 0x1161 + ((p - 0xac00) mod 588) / 28 /\ (p - 0xac00) mod 28 = 0 ->
   hangul_jamo p = [c0; c1]) /\
  (forall t, is_hangul c0 = true -> (c0 - 0xac00) mod 28 = 0 -> 0 < t < 28 -> p = c0 + t ->
   hangul_jamo p = hangul_jamo c0 ++ [JAMO_T_BASE + t]).
Proof.
  intros Hp. unfold hangul_jamo. cbv zeta. split.
  - intros (-> & -> & ->). done.
  - intros t H0 Hm Ht ->. rewrite Hm. cbn [Z.eqb app].
    assert ((c0 + t - 44032) / 588 = (c0 - 44032) / 588) as -> by divlia.
    assert ((c0 + t - 44032) mod 588 / 28 = (c0 - 44032) mod 588 / 28) as -> by divlia.
    assert ((c0 + t - 44032) mod 28 = t) as -> by divlia.
    destruct (Z.eqb_spec t 0); [lia|done].
Qed.

Lemma compose_pair_ok c0 c1 :
  word c0 -> word c1 ->
  exists p, compose_pair c0 c1 = Some p /\
    (p <> 0 -> word p /\ (starter c0 -> starter p) /\ (c1 <> JAMO_T_BASE -> nfd 0 [p] = nfd 0 [c0] ++ nfd 0 [c1])).
Proof.
  intros W0 W1. unfold compose_pair, JAMO_T_BASE. rewrite !Z.geb_leb.
  assert (H0 : compat_flag 0) by by left.
  destruct ((4352 <=? c0) && _ && _ && _) eqn:EA.
  { zify_bools. eexists. split; [done|]. intros _. set (p := 44032 + _ + _).
    assert (Hh : is_hangul p = true) by (unfold is_hangul, p; rewrite Z.geb_leb; apply andb_true_intro; split; zify_bools; lia).
    split; [unfold word, p; lia|]. split; [intros _; by apply hangul_starter|]. intros _.
    rewrite (nfd_hangul 0 H0 p Hh), !nfd_terminal_char by (done || (apply jamo_terminal; [done|lia])).
    apply (hangul_lv_lvt c0 c1 p Hh). unfold p. split_and!; divlia. }
  clear EA. destruct ((44032 <=? c0) && _ && _ && _ && _) eqn:EB.
  { zify_bools. eexists. split; [done|]. intros _. set (p := c0 + c1 - _).
    assert (Hh : is_hangul p = true) by (unfold is_hangul, p; rewrite Z.geb_leb; apply andb_true_intro; split; zify_bools; divlia).
    assert (Hh0 : is_hangul c0 = true) by (unfold is_hangul, p; rewrite Z.geb_leb; apply andb_true_intro; split; zify_bools; divlia).
    split; [unfold word, p; lia|]. split; [intros _; by apply hangul_starter|]. intros Hne.
    rewrite !nfd_hangul by done. rewrite (nfd_terminal_char 0 H0 c1) by (apply jamo_terminal; [done|lia]).
    replace c1 with (4519 + (c1 - 4519)) by lia.
    apply (hangul_lv_lvt c0 c1 p Hh); [done|lia|lia|unfold p; lia]. }
  destruct (unicode_compose_pair_ok c0 c1 W0 W1) as (p & E & Hp). exists p. split; [done|]. intros Hne.
  destruct Hp as [|(Hpos & Hw & Hh & Hst & Hd & _)%composes_ok]; [done|].
  split; [done|]. split; [done|]. intros _. rewrite (nfd_decomp 0 H0 p [c0; c1]) by done.
  by rewrite <- (nfd_app 0 H0).
Qed.

(** ** The canonical order *)

Lemma canonical_cons_inv x y l : canonical (x :: y :: l) -> in_order x y.
Proof. intros H. by apply (H 0%nat). Qed.

Lemma canonical_app_inv a b : canonical (a ++ b) -> canonical a /\ canonical b.
Proof.
  intros H. split; intros i x y Hx Hy.
  - by eapply H; apply lookup_app_l_Some.
  - eapply (H (length a + i)%nat); rewrite lookup_app_r by lia.
    + by rewrite Nat.add_sub_swap, Nat.sub_diag by lia.
    + by replace (S (length a + i) - length a)%nat with (S i) by lia.
Qed.

(** A starter separates what is before it from what is behind it. *)
Lemma canonical_starter a s b :
  starter s -> valid b -> canonical (a ++ s :: b) <-> canonical a /\ canonical b.
Proof.
  intros Hs Hb. split.
  - intros [Ha Hsb%canonical_tail]%canonical_app_inv. done.
  - intros [Ha Hc]. induction a as [|x a IH]; cbn [app].
    + destruct b as [|y b]; [apply canonical_cons; [apply canonical_nil|done]|].
      apply canonical_cons; [done|]. right. rewrite Hs.
      pose proof (ccc_range y (Forall_inv Hb)). lia.
    + apply canonical_cons; [apply IH; by eapply canonical_tail|].
      destruct a as [|z a]; [by left|by eapply canonical_cons_inv].
Qed.

(** The non starters before a character that they do not block. *)
Definition unblocked (N : list Z) (x : Z) : Prop :=
  Forall nonstarter N /\ forall N' n, N = N' ++ [n] -> ccc n < ccc x.

Lemma canonical_remove N x R : unblocked N x -> canonical (N ++ x :: R) -> canonical (N ++ R).
Proof.
  intros [Hn Hl] H. induction N as [|n N IH]; cbn [app] in *; [by eapply canonical_tail|].
  apply canonical_cons.
  { apply IH; [by eapply Forall_inv_tail|intros N' m ->; by apply (Hl (n :: N'))|by eapply canonical_tail]. }
  destruct N as [|m N]; cbn [app] in *; [|by eapply canonical_cons_inv].
  destruct R as [|y R]; [done|].
  specialize (Hl [] n eq_refl). apply canonical_tail in H as [H2|H2]%canonical_cons_inv; [by left|].
  right. lia.
Qed.

Lemma unblocked_lt N x : unblocked N x -> canonical N -> Forall (fun c => ccc c < ccc x) N.
Proof.
  intros [Hn Hl] H. induction N as [|n N IH]; [done|].
  assert (Hx : Forall (fun c => ccc c < ccc x) N).
  { apply IH; [by eapply Forall_inv_tail|intros N' m ->; by apply (Hl (n :: N'))|by eapply canonical_tail]. }
  constructor; [|done]. destruct N as [|m N]; [by apply (Hl [])|].
  apply canonical_cons_inv in H as [H|H].
  - by apply Forall_inv_tail, Forall_inv in Hn.
  - apply Forall_inv in Hx. lia.
Qed.

(** ** The loop *)

(** [O] is the text composed so far and [R] what is left of the decomposition [l]. *)
Definition inv (l O R : list Z) : Prop :=
  Forall word (O ++ R) /\ Forall (terminal 0) R /\
  Forall (fun c => nonstarter c -> terminal 0 c) O /\ canonical (O ++ R) /\
  (~ (JAMO_T_BASE ∈ l) -> ~ (JAMO_T_BASE ∈ R) /\ reordered l (nfd 0 O ++ R)).

Lemma canonical_flag : compat_flag 0.
Proof. by left. Qed.

Lemma word_valid l : Forall word l -> valid l.
Proof. apply List.Forall_impl. unfold word. lia. Qed.

Lemma inv_next l O x R : inv l O (x :: R) -> inv l (O ++ [x]) R.
Proof.
  intros (W & [Tx T]%List.Forall_cons_iff & N & C & E). unfold inv. rewrite <- app_assoc. cbn [app].
  split; [done|]. split; [done|]. split; [apply Forall_app; split; [done|by constructor]|].
  split; [done|]. intros HJ. destruct (E HJ) as [HR P].
  split; [intros Hin; apply HR, elem_of_cons; by right|].
  by rewrite (nfd_app 0 canonical_flag), (nfd_terminal_char 0 canonical_flag x Tx), <- app_assoc.
Qed.

(** The decomposition of a composed character crosses the characters between its parts. *)
Lemma reordered_compose a s N x R p :
  nfd 0 [p] = nfd 0 [s] ++ [x] -> Forall (terminal 0) N -> unblocked N x -> canonical N -> valid N ->
  reordered (nfd 0 (a ++ s :: N) ++ x :: R) (nfd 0 (a ++ p :: N) ++ R).
Proof.
  intros Hp HN Hu HC HV. change (s :: N) with ([s] ++ N). change (p :: N) with ([p] ++ N).
  rewrite !(nfd_app 0 canonical_flag), Hp, (nfd_terminals 0 canonical_flag N HN).
  change (x :: R) with ([x] ++ R). rewrite !app_assoc. apply reordered_app; [|apply reordered_refl].
  rewrite <- !app_assoc. rewrite (app_assoc _ (nfd 0 [s]) (N ++ _)), (app_assoc _ (nfd 0 [s]) ([x] ++ _)).
  destruct (decide (N = [])) as [->|Hne]; [rewrite app_nil_l, app_nil_r; apply reordered_refl|].
  pose proof (unblocked_lt _ _ Hu HC) as Hlt. destruct Hu as [Hn _].
  apply reordered_move.
  - destruct N as [|n N]; [done|]. apply Forall_inv in Hlt, HV. pose proof (ccc_range n HV). lia.
  - apply List.Forall_and; [|]; [exact Hn|]. eapply Forall_impl; [|exact Hlt]. cbn. lia.
Qed.

Lemma inv_compose l a s N x R p :
  inv l (a ++ s :: N) (x :: R) -> starter s -> unblocked N x -> compose_pair s x = Some p -> p <> 0 ->
  inv l (a ++ p :: N) R.
Proof.
  intros (W & [Tx T]%List.Forall_cons_iff & Nt & C & E) Hs Hu Hc Hp.
  rewrite <- app_assoc in W, C. cbn [app] in W, C.
  apply Forall_app in W as [Wa [Ws [WN [Wx WR]%List.Forall_cons_iff]%Forall_app]%List.Forall_cons_iff].
  apply Forall_app in Nt as [Na [_ NN]%List.Forall_cons_iff].
  destruct (compose_pair_ok s x Ws Wx) as (p' & E' & P). rewrite Hc in E'. injection E' as <-.
  destruct (P Hp) as (Wp & Sp & Ep). specialize (Sp Hs).
  assert (WNR : Forall word (N ++ R)) by by apply Forall_app.
  apply canonical_starter in C as [Ca CN]; [|done|].
  2:{ apply word_valid, Forall_app. split; [done|by constructor]. }
  pose proof (canonical_remove _ _ _ Hu CN) as CNR.
  unfold inv. rewrite <- app_assoc. cbn [app]. split; [|split; [done|split; [|split]]].
  - apply Forall_app. split; [done|by constructor].
  - apply Forall_app. split; [done|]. constructor; [done|exact NN].
  - apply canonical_starter; [done|by apply word_valid|done].
  - intros HJ. destruct (E HJ) as [HR Q].
    split; [intros Hin; apply HR; apply elem_of_cons; by right|].
    eapply reordered_trans; [exact Q|]. apply reordered_compose; [| |done|exact (proj1 (canonical_app_inv _ _ CN))|by apply word_valid].
    + rewrite Ep; [by rewrite (nfd_terminal_char 0 canonical_flag x Tx)|].
      intros ->. apply HR, elem_of_cons. by left.
    + destruct Hu as [Hu _]. rewrite Forall_forall in *. auto.
Qed.

(** The text ends in non starters, behind a starter or at its beginning. *)
Lemma split_starter O :
  exists A N, O = A ++ N /\ Forall nonstarter N /\ (A = [] \/ exists A' s, A = A' ++ [s] /\ starter s).
Proof.
  induction O as [|x O (A & N & -> & HN & HA)] using rev_ind; [exists [], []; by auto|].
  destruct (decide (ccc x = 0)) as [Hx|Hx].
  - exists ((A ++ N) ++ [x]), []. rewrite app_nil_r. split; [done|]. split; [done|]. right. by eexists _, x.
  - exists A, (N ++ [x]). rewrite app_assoc. split; [done|]. split; [|done].
    apply Forall_app. split; [done|by constructor].
Qed.

Lemma znth_last {T} (l r : list T) x : znth ((l ++ [x]) ++ r) (zlen l) = Some x.
Proof. rewrite <- app_assoc. by apply znth_mid. Qed.

(** The search stops at the starter unless the first character that it meets blocks. *)
Lemma find_starter_ok fuel A N r last_cc :
  valid A -> valid N -> Forall nonstarter N -> (A = [] \/ exists A' s, A = A' ++ [s] /\ starter s) ->
  (length N < fuel)%nat ->
  exists res, find_starter fuel ((A ++ N) ++ r) (zlen A + zlen N - 1) last_cc = Some res /\
    (res = None \/ res = Some (zlen A - 1) /\ forall N' n, N = N' ++ [n] -> ccc n < last_cc).
Proof.
  intros HA HN Hn Hs. revert r last_cc fuel. induction N as [|n N IH] using rev_ind; intros r last_cc fuel Hf.
  - destruct fuel as [|fuel]; [lia|]. rewrite app_nil_r, zlen_nil, Z.add_0_r. cbn [find_starter].
    exists (Some (zlen A - 1)). split; [|right; split; [done|by intros [|]]].
    destruct Hs as [->|(A' & s & -> & Hs)]; [done|].
    apply Forall_app in HA as [_ Hv%Forall_inv]. pose proof (zlen_nonneg A').
    rewrite zlen_app. change (zlen [s]) with 1. rewrite Z.add_simpl_r, znth_last.
    rewrite Z.geb_leb, (proj2 (Z.leb_le 0 (zlen A'))) by lia. cbn [mbind option_bind].
    rewrite unicode_get_cc_ccc by done. cbn [mbind option_bind]. by rewrite Hs.
  - destruct fuel as [|fuel]; [lia|]. apply Forall_app in HN as [HN Hv%Forall_inv], Hn as [Hn Hnn%Forall_inv].
    rewrite zlen_app, length_app in *. change (zlen [n]) with 1. cbn [length find_starter] in *.
    replace (zlen A + (zlen N + 1) - 1) with (zlen (A ++ N)) by (rewrite zlen_app; lia).
    rewrite (app_assoc A N [n]), znth_last. pose proof (zlen_nonneg (A ++ N)).
    rewrite Z.geb_leb, (proj2 (Z.leb_le 0 (zlen (A ++ N)))) by lia. cbn [mbind option_bind].
    rewrite unicode_get_cc_ccc by done. cbn [mbind option_bind].
    unfold nonstarter in Hnn. destruct (Z.eqb_spec (ccc n) 0); [done|]. rewrite Z.geb_leb.
    destruct (Z.leb_spec last_cc (ccc n)); [exists None; by auto|].
    rewrite <- app_assoc, zlen_app. destruct (IH HN Hn ([n] ++ r) 256 fuel ltac:(lia)) as (res & E & P).
    exists res. split; [done|]. destruct P as [->|[-> P]]; [by left|]. right. split; [done|].
    intros N' n' [_ [= <-]]%app_inj_tail. done.
Qed.

(** [buf\[out_len++\] = buf\[i++\]] *)
Lemma zupd_gap (O G R : list Z) x :
  exists G', zlen G' = zlen G /\ zupd (O ++ G ++ x :: R) (zlen O) x = Some ((O ++ [x]) ++ G' ++ R).
Proof.
  destruct G as [|g G]; cbn [app].
  - exists []. rewrite zupd_mid by done. by rewrite <- app_assoc.
  - exists (G ++ [x]). rewrite zupd_mid by done. rewrite <- !app_assoc. split; [zlen_lia|done].
Qed.

Lemma compose_loop_ok l fuel O G R i len :
  inv l O R -> i = zlen O + zlen G -> len = i + zlen R -> zlen R < Z.of_nat fuel ->
  exists O' G', compose_loop fuel (O ++ G ++ R) i (zlen O) len = Some (O' ++ G', zlen O') /\ inv l O' [].
Proof.
  revert O G R i len. induction fuel as [|fuel IH]; intros O G R i len HI -> -> Hf; [zlen_lia|].
  cbn [compose_loop]. destruct R as [|x R].
  { change (zlen (@nil Z)) with 0. rewrite Z.add_0_r, Z.ltb_irrefl. exists O, G. by rewrite app_nil_r. }
  rewrite zlen_cons in *. destruct (Z.ltb_spec (zlen O + zlen G) (zlen O + zlen G + (1 + zlen R))); [|zlen_lia].
  assert (HW : Forall word (O ++ x :: R)) by apply HI. apply Forall_app in HW as [WO [Wx _]%List.Forall_cons_iff].
  rewrite (app_assoc O G), znth_mid by zlen_lia. cbn [mbind option_bind]. rewrite <- app_assoc.
  rewrite unicode_get_cc_ccc by (unfold word in Wx; lia). cbn [mbind option_bind]. cbv zeta.
  assert (Next : exists O' G', (buf ← zupd (O ++ G ++ x :: R) (zlen O) x;
      compose_loop fuel buf (zlen O + zlen G + 1) (zlen O + 1) (zlen O + zlen G + (1 + zlen R)))
      = Some (O' ++ G', zlen O') /\ inv l O' []).
  { destruct (zupd_gap O G R x) as (G' & HG & ->). cbn [mbind option_bind].
    replace (zlen O + 1) with (zlen (O ++ [x])) by zlen_lia.
    apply IH; [by apply inv_next|zlen_lia|zlen_lia|lia]. }
  destruct (split_starter O) as (A & N & -> & HN & HA).
  apply Forall_app in WO as [WA WN].
  destruct (find_starter_ok (S (Z.to_nat (zlen (A ++ N)))) A N (G ++ x :: R) (ccc x)) as (res & E & P);
    [by apply word_valid|by apply word_valid|done|done|unfold zlen; rewrite length_app; lia|].
  replace (zlen (A ++ N) - 1) with (zlen A + zlen N - 1) by (rewrite zlen_app; lia). rewrite E.
  cbn [mbind option_bind]. destruct P as [->|[-> P]]; [done|]. rewrite Z.geb_leb.
  destruct (Z.leb_spec 0 (zlen A - 1)); [|done].
  destruct HA as [->|(A' & s & -> & Hs)]; [by rewrite zlen_nil in *|].
  replace (zlen (A' ++ [s]) - 1) with (zlen A') by zlen_lia. rewrite <- !app_assoc. cbn [app].
  rewrite znth_mid by done. cbn [mbind option_bind].
  apply Forall_app in WA as [WA [Ws _]%List.Forall_cons_iff].
  destruct (compose_pair_ok s x Ws Wx) as (p & Ep & _). rewrite Ep. cbn [mbind option_bind].
  destruct (Z.eqb_spec p 0) as [|Hp]; cbn [negb].
  { rewrite <- !app_assoc in Next. exact Next. }
  rewrite zupd_mid by done. cbn [mbind option_bind].
  replace (A' ++ p :: N ++ G ++ x :: R) with ((A' ++ p :: N) ++ (G ++ [x]) ++ R) by (rewrite <- !app_assoc; done).
  replace (zlen (A' ++ s :: N)) with (zlen (A' ++ p :: N)) by zlen_lia.
  apply IH; [|zlen_lia|zlen_lia|lia].
  apply (inv_compose l A' s N x R p); [by rewrite <- app_assoc in HI|done|done|done|done].
Qed.

(** ** The composed forms *)

Lemma terminal_canonical k c : compat_flag k -> terminal k c -> terminal 0 c.
Proof.
  intros Hk [Hh Hd]. split; [done|]. destruct Hk as [->| ->]; [done|]. by apply unicode_decomp_char_compat.
Qed.

Lemma reordered_sym l l' : reordered l l' -> reordered l' l.
Proof. intros [P E]. split; [by symmetry|]. intros q. by rewrite E. Qed.

Lemma latin1_canonical src : Forall word src -> forallb (fun c => c <? 0x100) src = true -> canonical src.
Proof.
  intros Hs Hl i x y _ Hy. left. apply list_elem_of_lookup_2, list_elem_of_In in Hy.
  rewrite List.Forall_forall in Hs. specialize (Hs y Hy). rewrite forallb_forall in Hl. specialize (Hl y Hy).
  unfold word in Hs. zify_bools.
  apply (ccc_starters 0 0x100); [vm_compute; reflexivity|lia].
Qed.

(** What the decomposed text [l] becomes. *)
Lemma compose_result k src l n_type :
  decomposed k src l -> Forall (terminal 0) l -> Forall word l ->
  exists out,
    (let n := zlen l in
     if (n <=? 1) || negb (Z.land n_type 1 =? 0) then Some (Some l)
     else '(b, out_len) ← compose_loop (S (Z.to_nat n)) l 1 1 n; Some (Some (take (Z.to_nat out_len) b)))
      = Some (Some out) /\
    canonical out /\ (~ (JAMO_T_BASE ∈ l) -> decomposed 0 out l).
Proof.
  intros D T W. cbv zeta. destruct (_ || _) eqn:E.
  { exists l. split; [done|]. split; [apply D|]. intros _. split; [apply D|].
    rewrite (nfd_terminals 0 canonical_flag l T). apply reordered_refl. }
  zify_bools. destruct l as [|x R]; [done|].
  assert (I : inv (x :: R) [x] R).
  { split; [done|]. apply List.Forall_cons_iff in T as [Tx T]. split; [done|].
    split; [by constructor|]. split; [apply D|]. intros HJ.
    split; [intros Hin; apply HJ, elem_of_cons; by right|].
    rewrite (nfd_terminal_char 0 canonical_flag x Tx). apply reordered_refl. }
  destruct (compose_loop_ok (x :: R) (S (Z.to_nat (zlen (x :: R)))) [x] [] R 1 (zlen (x :: R)) I)
    as (O & G & EL & (_ & _ & _ & C & P)); [done|zlen_lia|zlen_lia|].
  cbn [app] in EL. change (zlen [x]) with 1 in EL. rewrite EL. cbn [mbind option_bind].
  exists O. rewrite app_nil_r in C, P. split; [|split; [done|]].
  - unfold zlen. by rewrite Nat2Z.id, take_app_length.
  - intros HJ. destruct (P HJ) as [_ Q]. split; [apply D|]. by apply reordered_sym.
Qed.

Section normalize.
Context `{AllocatorOk}.

End normalize.


(** The test of [compose_pair] accepts U+11A7, and the composition loses it. *)
Theorem compose_pair_drops_jamo :
  compose_pair 0xac00 JAMO_T_BASE = Some 0xac00 /\
  normalize_limit [0xac00; JAMO_T_BASE] 0 = Some (Some [0xac00]) /\
  normalize_limit [0xac00; JAMO_T_BASE] 1 = Some (Some [0x1100; 0x1161; JAMO_T_BASE]).
Proof. vm_compute. done. Qed.

(** compose_pair searches the table without leaving it: a result other than 0 has
    the canonical decomposition of the pair (unless the second character is U+11A7),
    and every composition of the table is found. *)
Theorem compose_pair_inverse c0 c1 :
  word c0 -> word c1 ->
  exists p, compose_pair c0 c1 = Some p /\
    (p <> 0 -> c1 <> JAMO_T_BASE -> nfd 0 [p] = nfd 0 [c0; c1]) /\
    (forall ch, composes ch c0 c1 -> p = ch /\ unicode_decomp_char ch 0 = Some [c0; c1]).
Proof.
  intros W0 W1. destruct (compose_pair_ok c0 c1 W0 W1) as (p & E & P). exists p. split; [done|]. split.
  - intros Hp Hj. destruct (P Hp) as (_ & _ & H). change [c0; c1] with ([c0] ++ [c1]).
    rewrite (nfd_app 0 canonical_flag). auto.
  - intros ch (Hpos & _ & _ & _ & Hd & E')%composes_ok. rewrite E in E'. by injection E' as ->.
Qed.

(** U+00C5 is A and the ring above. *)
Lemma compose_pair_inverse_witness :
  exists p, compose_pair 0x41 0x30a = Some p /\ p = 0xc5 /\ nfd 0 [p] = nfd 0 [0x41; 0x30a].
Proof.
  destruct (compose_pair_inverse 0x41 0x30a) as (p & E & P & _); [split; lia|split; lia|].
  exists p. split; [done|]. vm_compute in E. injection E as <-. split; [done|]. by apply P.
Defined.

(** The jamo of a syllable composed from the left. *)
Fixpoint compose_left (c : Z) (l : list Z) : option Z :=
  match l with
  | [] => Some c
  | d :: l' => p ← compose_pair c d; if p =? 0 then None else compose_left p l'
  end.

(** Composing the jamo that a Hangul syllable decomposes into gives the syllable
    back. *)
Theorem hangul_roundtrip s :
  is_hangul s = true ->
  exists j js, nfd 0 [s] = j :: js /\ compose_left j js = Some s.
Proof.
  intros Hs. rewrite nfd_hangul by (done || apply canonical_flag). unfold is_hangul in Hs.
  rewrite Z.geb_leb in Hs. zify_bools. unfold hangul_jamo. cbv zeta. cbn [app].
  eexists _, _. split; [reflexivity|]. set (x := _ + _ / 588). set (y := _ + _ / 28).
  assert (Exy : compose_pair x y = Some (s - (s - 44032) mod 28)).
  { unfold compose_pair. rewrite !Z.geb_leb.
    rewrite (proj2 (Z.leb_le 4352 x)), (proj2 (Z.ltb_lt x _)), (proj2 (Z.leb_le _ y)), (proj2 (Z.ltb_lt y _))
      by (unfold x, y; divlia).
    cbn [andb]. f_equal. unfold x, y. divlia. }
  cbn [compose_left]. rewrite Exy. cbn [mbind option_bind].
  destruct (Z.eqb_spec (s - (s - 44032) mod 28) 0); [divlia|].
  destruct (Z.eqb_spec ((s - 44032) mod 28) 0) as [->|Ht]; [by rewrite Z.sub_0_r|]. cbn [compose_left].
  set (c0 := s - _). set (t := _ mod 28).
  assert (compose_pair c0 (4519 + t) = Some s) as ->.
  { unfold compose_pair. rewrite !Z.geb_leb. rewrite (proj2 (Z.ltb_ge c0 (4352 + 19))) by (unfold c0; divlia).
    rewrite andb_false_r. cbn [andb].
    rewrite (proj2 (Z.leb_le 44032 c0)), (proj2 (Z.ltb_lt c0 _)), (proj2 (Z.eqb_eq ((c0 - 44032) mod 28) 0)),
      (proj2 (Z.leb_le 4519 _)), (proj2 (Z.ltb_lt (4519 + t) _)) by (unfold c0, t; divlia).
    cbn [andb]. f_equal. unfold c0, t. lia. }
  cbn [mbind option_bind]. by destruct (Z.eqb_spec s 0); [lia|].
Qed.

Lemma hangul_roundtrip_witness :
  exists j js, nfd 0 [0xd4db] = j :: js /\ compose_left j js = Some 0xd4db.
Proof. apply (hangul_roundtrip 0xd4db). vm_compute. reflexivity. Defined.
