(* ===== verification/CharRange.v ===== *)
(** * Character ranges (libunicode.c, libunicode.h)

    A [CharRange] holds an even number of points in increasing order; points [2i]
    and [2i+1] delimit a half open interval of code points.  Blocks are lists of
    [uint32_t] cells and the allocator counts cells.  The loops carry fuel; the
    specifications show that the fuel given is enough.  The specification of the
    component is the set of code points it denotes ([cr_mem]). *)

From S2P Require Import Prelude CStr DynBuf.

Record CharRange := mkCharRange {
  cr_len : Z;
  cr_size : Z;
  cr_points : list Z
}.

Inductive CharRangeOp := CR_OP_UNION | CR_OP_INTER | CR_OP_XOR.

Section char_range.
Context `{Allocator}.

Definition cr_init : CharRange := {| cr_len := 0; cr_size := 0; cr_points := [] |}.

(** The block is given back; the structure itself is not written. *)
Definition cr_free (cr : CharRange) : CharRange := cr.

Definition cr_realloc (cr : CharRange) (size : Z) : CharRange * Z :=
  if size >? cr_size cr then
    let new_size := max_int size (cr_size cr * 3 / 2) in
    match realloc_func (cr_points cr) new_size with
    | None => (cr, -1)
    | Some new_buf =>
        ({| cr_len := cr_len cr; cr_size := new_size; cr_points := new_buf |}, 0)
    end
  else (cr, 0).

Definition cr_copy (cr cr1 : CharRange) : option (CharRange * Z) :=
  let '(cr, r) := cr_realloc cr (cr_len cr1) in
  if negb (r =? 0) then Some (cr, -1)
  else d ← zslice (cr_points cr1) 0 (cr_len cr1);
       p ← zblit (cr_points cr) 0 d;
       Some ({| cr_len := cr_len cr1; cr_size := cr_size cr; cr_points := p |}, 0).

Definition cr_add_point (cr : CharRange) (v : Z) : option (CharRange * Z) :=
  let '(cr, r) :=
    if cr_len cr >=? cr_size cr then cr_realloc cr (cr_len cr + 1) else (cr, 0) in
  if negb (r =? 0) then Some (cr, -1)
  else p ← zupd (cr_points cr) (cr_len cr) v;
       Some ({| cr_len := cr_len cr + 1; cr_size := cr_size cr; cr_points := p |}, 0).

Definition cr_add_interval (cr : CharRange) (c1 c2 : Z) : option (CharRange * Z) :=
  let '(cr, r) :=
    if cr_len cr + 2 >? cr_size cr then cr_realloc cr (cr_len cr + 2) else (cr, 0) in
  if negb (r =? 0) then Some (cr, -1)
  else p ← zupd (cr_points cr) (cr_len cr) c1;
       p ← zupd p (cr_len cr + 1) c2;
       Some ({| cr_len := cr_len cr + 2; cr_size := cr_size cr; cr_points := p |}, 0).

(** The inner loop of [cr_compress]: skip the borders shared by two intervals. *)
Fixpoint cr_compress_merge (fuel : nat) (pt : list Z) (j len : Z) : option Z :=
  match fuel with
  | O => None
  | S fuel' =>
      if j + 3 <? len then
        x ← znth pt (j + 1);
        y ← znth pt (j + 2);
        if x =? y then cr_compress_merge fuel' pt (j + 2) len else Some j
      else Some j
  end.

Fixpoint cr_compress_loop (fuel : nat) (pt : list Z) (i k len : Z) : option (list Z * Z) :=
  match fuel with
  | O => None
  | S fuel' =>
      if i + 1 <? len then
        x ← znth pt i;
        y ← znth pt (i + 1);
        if x =? y then cr_compress_loop fuel' pt (i + 2) k len
        else
          j ← cr_compress_merge fuel' pt i len;
          v ← znth pt i;
          pt ← zupd pt k v;
          w ← znth pt (j + 1);
          pt ← zupd pt (k + 1) w;
          cr_compress_loop fuel' pt (j + 2) (k + 2) len
      else Some (pt, k)
  end.

Definition cr_compress (cr : CharRange) : option CharRange :=
  '(pt, k) ← cr_compress_loop (S (Z.to_nat (cr_len cr))) (cr_points cr) 0 0 (cr_len cr);
  Some {| cr_len := k; cr_size := cr_size cr; cr_points := pt |}.

Definition cr_is_in (op : CharRangeOp) (a_idx b_idx : Z) : Z :=
  match op with
  | CR_OP_UNION => Z.lor (Z.land a_idx 1) (Z.land b_idx 1)
  | CR_OP_INTER => Z.land (Z.land a_idx 1) (Z.land b_idx 1)
  | CR_OP_XOR => Z.lxor (Z.land a_idx 1) (Z.land b_idx 1)
  end.

(** The next point in increasing order, with the new indices; [Some None] when both
    arrays are exhausted. *)
Definition cr_next (a_pt : list Z) (a_len : Z) (b_pt : list Z) (b_len a_idx b_idx : Z)
  : option (option (Z * Z * Z)) :=
  if (a_idx <? a_len) && (b_idx <? b_len) then
    x ← znth a_pt a_idx;
    y ← znth b_pt b_idx;
    if x <? y then Some (Some (x, a_idx + 1, b_idx))
    else if x =? y then Some (Some (x, a_idx + 1, b_idx + 1))
    else Some (Some (y, a_idx, b_idx + 1))
  else if a_idx <? a_len then
    x ← znth a_pt a_idx; Some (Some (x, a_idx + 1, b_idx))
  else if b_idx <? b_len then
    y ← znth b_pt b_idx; Some (Some (y, a_idx, b_idx + 1))
  else Some None.

Fixpoint cr_op_loop (fuel : nat) (cr : CharRange) (a_pt : list Z) (a_len : Z)
    (b_pt : list Z) (b_len : Z) (op : CharRangeOp) (a_idx b_idx : Z)
  : option (CharRange * Z) :=
  match fuel with
  | O => None
  | S fuel' =>
      n ← cr_next a_pt a_len b_pt b_len a_idx b_idx;
      match n with
      | None => cr ← cr_compress cr; Some (cr, 0)
      | Some (v, a_idx, b_idx) =>
          if negb (cr_is_in op a_idx b_idx =? Z.land (cr_len cr) 1) then
            '(cr, r) ← cr_add_point cr v;
            if negb (r =? 0) then Some (cr, -1)
            else cr_op_loop fuel' cr a_pt a_len b_pt b_len op a_idx b_idx
          else cr_op_loop fuel' cr a_pt a_len b_pt b_len op a_idx b_idx
      end
  end.

Definition cr_op (cr : CharRange) (a_pt : list Z) (a_len : Z) (b_pt : list Z) (b_len : Z)
    (op : CharRangeOp) : option (CharRange * Z) :=
  cr_op_loop (S (Z.to_nat a_len + Z.to_nat b_len)) cr a_pt a_len b_pt b_len op 0 0.

Definition cr_union1 (cr : CharRange) (b_pt : list Z) (b_len : Z) : option (CharRange * Z) :=
  cr_op cr_init (cr_points cr) (cr_len cr) b_pt b_len CR_OP_UNION.

(** [c2 + 1] is a [uint32_t] sum. *)
Definition cr_union_interval (cr : CharRange) (c1 c2 : Z) : option (CharRange * Z) :=
  cr_union1 cr [c1; u32 (c2 + 1)] 2.

Definition cr_invert (cr : CharRange) : option (CharRange * Z) :=
  let len := cr_len cr in
  let '(cr, r) := cr_realloc cr (len + 2) in
  if negb (r =? 0) then Some (cr, -1)
  else d ← zslice (cr_points cr) 0 len;
       p ← zblit (cr_points cr) 1 d;
       p ← zupd p 0 0;
       p ← zupd p (len + 1) UINT32_MAX;
       cr ← cr_compress {| cr_len := len + 2; cr_size := cr_size cr; cr_points := p |};
       Some (cr, 0).
End char_range.

(** ** The set denoted by a list of points *)

(** Membership in the half open intervals. *)
Fixpoint cr_mem (pts : list Z) (c : Z) : bool :=
  match pts with
  | a :: b :: r => ((a <=? c) && (c <? b)) || cr_mem r c
  | _ => false
  end.

(** In/out status at [c], starting from status [s]: each point flips it. *)
Fixpoint cr_parity (s : bool) (pts : list Z) (c : Z) : bool :=
  match pts with
  | [] => s
  | a :: r => if a <=? c then cr_parity (negb s) r c else s
  end.

Inductive increasing : list Z -> Prop :=
  | increasing_nil : increasing []
  | increasing_cons x l : increasing l -> Forall (fun y => x <= y) l -> increasing (x :: l).

Inductive strictly_increasing : list Z -> Prop :=
  | strictly_increasing_nil : strictly_increasing []
  | strictly_increasing_cons x l :
      strictly_increasing l -> Forall (fun y => x < y) l -> strictly_increasing (x :: l).

(** Nonempty intervals in increasing order. *)
Inductive intervals : list Z -> Prop :=
  | intervals_nil : intervals []
  | intervals_cons x y l :
      x < y -> intervals l -> Forall (fun z => y <= z) l -> intervals (x :: y :: l).

(** The points in use, and well formedness. *)
Definition cr_pts (cr : CharRange) : list Z := take (Z.to_nat (cr_len cr)) (cr_points cr).

Definition cr_wf (cr : CharRange) : Prop :=
  0 <= cr_len cr <= cr_size cr /\ zlen (cr_points cr) = cr_size cr.

Lemma pair_ind {A} (P : list A -> Prop) :
  P [] -> (forall x, P [x]) -> (forall x y l, P l -> P (x :: y :: l)) -> forall l, P l.
Proof.
  intros H0 H1 H2 l. enough (P l /\ forall x, P (x :: l)) by tauto.
  induction l as [|y l [IH1 IH2]]; split; auto.
Qed.

Lemma strictly_increasing_weak l : strictly_increasing l -> increasing l.
Proof.
  induction 1 as [|x l _ IH Hf]; constructor; [done|].
  revert Hf. apply Forall_impl. lia.
Qed.

Lemma intervals_increasing l : intervals l -> increasing l.
Proof.
  induction 1 as [|x y l Hxy _ IH Hf]; [constructor|]. constructor; [by constructor|].
  constructor; [lia|]. revert Hf. apply Forall_impl. lia.
Qed.

Lemma strictly_increasing_intervals l :
  strictly_increasing l -> Nat.even (length l) = true -> intervals l.
Proof.
  revert l. apply (pair_ind (fun l => strictly_increasing l -> _ -> _)); [constructor|done|].
  intros x y l IH Hs He. inversion_clear Hs as [|? ? Hs' Hx]. inversion_clear Hs' as [|? ? Hl Hy].
  apply Forall_cons_1 in Hx as [Hxy _]. constructor; [done|by apply IH|].
  revert Hy. apply Forall_impl. lia.
Qed.

Lemma cr_parity_high s pts c : Forall (fun y => c < y) pts -> cr_parity s pts c = s.
Proof.
  intros Hf. destruct pts as [|a r]; [done|]. apply Forall_cons_1 in Hf as [Ha _].
  cbn. by rewrite (proj2 (Z.leb_gt _ _)).
Qed.

Lemma increasing_lt x l c : increasing (x :: l) -> c < x -> Forall (fun y => c < y) (x :: l).
Proof.
  intros Hi Hc. inversion_clear Hi as [|? ? ? Hf]. constructor; [done|].
  revert Hf. apply Forall_impl. cbn. lia.
Qed.

Lemma increasing_tail x l : increasing (x :: l) -> increasing l.
Proof. by inversion 1. Qed.

Lemma cr_mem_low pts c : Forall (fun y => c < y) pts -> cr_mem pts c = false.
Proof.
  revert pts. apply (pair_ind (fun pts => Forall _ pts -> _)); [done..|].
  intros a b r IH Hf. apply Forall_cons_1 in Hf as [Ha Hf].
  apply Forall_cons_1 in Hf as [Hb Hf]. cbn. rewrite (proj2 (Z.leb_gt _ _)) by done.
  by apply IH.
Qed.

(** For increasing points of even number, membership is the final status. *)
Lemma cr_mem_parity pts c :
  increasing pts -> Nat.even (length pts) = true -> cr_mem pts c = cr_parity false pts c.
Proof.
  revert pts. apply (pair_ind (fun pts => increasing pts -> _ -> _)); [done..|].
  intros a b r IH Hi Hev. cbn -[Z.leb Z.ltb]. cbn in Hev.
  pose proof (increasing_tail _ _ Hi) as Hi2. pose proof (increasing_tail _ _ Hi2) as Hi3.
  rewrite IH by done.
  assert (a <= b).
  { inversion_clear Hi as [|? ? ? Hf]. by apply Forall_cons_1 in Hf as [? _]. }
  destruct (Z.leb_spec a c); cbn.
  - destruct (Z.ltb_spec c b); cbn.
    + rewrite (proj2 (Z.leb_gt _ _)) by done. done.
    + by rewrite (proj2 (Z.leb_le _ _)) by done.
  - apply cr_parity_high. apply (increasing_lt a (b :: r) c) in Hi; [|done].
    apply Forall_cons_1 in Hi as [_ Hi]. by apply Forall_cons_1 in Hi as [_ Hi].
Qed.

(** ** Compression *)

(** The end of the merged interval that ends at [b], and the points after it. *)
Fixpoint squeeze_merge (b : Z) (r : list Z) : Z * list Z :=
  match r with
  | c :: d :: r' => if b =? c then squeeze_merge d r' else (b, r)
  | _ => (b, r)
  end.

Fixpoint squeeze (n : nat) (l : list Z) : list Z :=
  match n, l with
  | S n', a :: b :: r =>
      if a =? b then squeeze n' r
      else let '(e, r') := squeeze_merge b r in a :: e :: squeeze n' r'
  | _, _ => []
  end.

Lemma squeeze_merge_len b r : (length (squeeze_merge b r).2 <= length r)%nat.
Proof.
  revert b. induction r as [|x|c d r IH] using pair_ind; intros b; cbn; [done|done|].
  destruct (b =? c); cbn; [|lia]. specialize (IH d). lia.
Qed.

Section merged.
Context (P : Z -> Prop).

Lemma squeeze_merge_Forall b r :
  P b -> Forall P r -> P (squeeze_merge b r).1 /\ Forall P (squeeze_merge b r).2.
Proof.
  revert b. induction r as [|x|c d r IH] using pair_ind; intros b Hb Hf; cbn; [done|done|].
  apply Forall_cons_1 in Hf as [Hc Hf].
  apply Forall_cons_1 in Hf as [Hd Hf].
  destruct (b =? c); [by apply IH|]. cbn. auto using Forall_cons.
Qed.
End merged.

Lemma squeeze_merge_spec b r :
  increasing (b :: r) ->
  let '(e, r') := squeeze_merge b r in
  b <= e /\ increasing r' /\ Forall (fun y => e <= y) r' /\
  (Nat.even (length r) = true -> Nat.even (length r') = true /\ Forall (fun y => e < y) r') /\
  forall a c, a <= b -> cr_mem (a :: b :: r) c = cr_mem (a :: e :: r') c.
Proof.
  revert b. induction r as [|x|c d r IH] using pair_ind; intros b Hi.
  - cbn. split_and!; [lia|constructor|constructor|by split|done].
  - inversion_clear Hi as [|? ? Hi' Hf]. cbn.
    split_and!; [lia|done|done|done|done].
  - cbn [squeeze_merge].
    inversion_clear Hi as [|? ? Hi1 Hf1]. inversion_clear Hi1 as [|? ? Hi2 Hf2].
    apply Forall_cons_1 in Hf1 as [Hbc Hf1]. apply Forall_cons_1 in Hf2 as [Hcd Hf2'].
    destruct (Z.eqb_spec b c) as [->|Hne].
    + specialize (IH d Hi2). destruct (squeeze_merge d r) as [e r'].
      destruct IH as (He & Hir & Hfr & Hev & Hm). split_and!; try done; [lia|].
      intros a x Ha. rewrite <- Hm by lia. cbn.
      repeat destruct_cmp; cbn; try done; lia.
    + split_and!; [lia|by constructor; [done|constructor]| |split|done].
      * constructor; [done|]. apply Forall_cons_1 in Hf1 as [? ?]. constructor; [lia|done].
      * done.
      * constructor; [lia|]. apply Forall_cons_1 in Hf1 as [? ?]. constructor; [lia|].
        revert Hf2'. apply Forall_impl. cbn. lia.
Qed.

Lemma squeeze_spec n l :
  (length l <= n)%nat -> increasing l -> Nat.even (length l) = true ->
  strictly_increasing (squeeze n l) /\ Nat.even (length (squeeze n l)) = true /\
  (forall P, Forall P l -> Forall P (squeeze n l)) /\
  forall c, cr_mem (squeeze n l) c = cr_mem l c.
Proof.
  revert l. induction n as [|n IH]; intros l Hn Hi Hev.
  { destruct l; [|cbn in Hn; lia]. cbn. split_and!; [constructor|done..]. }
  destruct l as [|a [|b r]]; [cbn; split_and!; [constructor|done..]|done|].
  cbn [squeeze]. cbn in Hn. cbn in Hev.
  pose proof (increasing_tail _ _ Hi) as Hi1. pose proof (increasing_tail _ _ Hi1) as Hi2.
  assert (Hab : a <= b).
  { inversion_clear Hi as [|? ? ? Hf]. by apply Forall_cons_1 in Hf as [? _]. }
  destruct (Z.eqb_spec a b) as [->|Hne].
  - destruct (IH r ltac:(lia) Hi2 Hev) as (H1 & H2 & H3 & H4). split_and!; [done|done| |].
    + intros P Hf. apply H3. apply Forall_cons_1 in Hf as [_ Hf].
      by apply Forall_cons_1 in Hf as [_ Hf].
    + intros c. rewrite H4. cbn. repeat destruct_cmp; cbn; try done; lia.
  - pose proof (squeeze_merge_spec b r Hi1) as Hm. pose proof (squeeze_merge_len b r) as Hl.
    pose proof (fun P => squeeze_merge_Forall P b r) as HP.
    destruct (squeeze_merge b r) as [e r']. cbn in Hl, HP.
    destruct Hm as (Hbe & Hir & Hfr & Hevr & Hm). destruct (Hevr Hev) as [Hev' Hfr'].
    destruct (IH r' ltac:(lia) Hir Hev') as (H1 & H2 & H3 & H4).
    split_and!; [|done| |].
    + constructor; [constructor; [done|by apply H3]|]. constructor; [lia|].
      apply H3. revert Hfr'. apply Forall_impl. cbn. lia.
    + intros P Hf. apply Forall_cons_1 in Hf as [Ha Hf]. apply Forall_cons_1 in Hf as [Hb Hf].
      destruct (HP P Hb Hf). auto using Forall_cons.
    + intros c. rewrite (Hm a c) by lia. cbn. by rewrite H4.
Qed.

(** The points from index [i] on, of the [len] points in use. *)
Definition pts_from (pt : list Z) (len i : Z) : list Z :=
  drop (Z.to_nat i) (take (Z.to_nat len) pt).

Lemma pts_from_cons pt len i :
  0 <= i < len -> len <= zlen pt ->
  exists x, znth pt i = Some x /\ pts_from pt len i = x :: pts_from pt len (i + 1).
Proof.
  intros Hi Hl. destruct (drop_znth (take (Z.to_nat len) pt) i) as (x & Hx & E).
  { rewrite zlen_take. lia. }
  exists x. rewrite znth_take in Hx by lia. done.
Qed.

Lemma pts_from_nil pt len i : len <= i -> pts_from pt len i = [].
Proof. intros. apply drop_ge. rewrite length_take. lia. Qed.

Lemma pts_from_upd pt len i k v :
  0 <= k < i -> pts_from (<[Z.to_nat k := v]> pt) len i = pts_from pt len i.
Proof.
  intros. unfold pts_from. rewrite take_insert. case_decide; [|done].
  apply drop_insert_lt. lia.
Qed.

Lemma cr_compress_merge_spec fuel pt len j b :
  len <= zlen pt -> 0 <= j -> j + 1 < len -> len - j <= Z.of_nat fuel ->
  znth pt (j + 1) = Some b ->
  exists j' e, cr_compress_merge fuel pt j len = Some j' /\ j <= j' /\ j' + 1 < len /\
    znth pt (j' + 1) = Some e /\
    squeeze_merge b (pts_from pt len (j + 2)) = (e, pts_from pt len (j' + 2)).
Proof.
  revert j b. induction fuel as [|fuel IH]; intros j b Hl Hj Hjl Hfuel Hb; [lia|].
  cbn [cr_compress_merge]. destruct (Z.ltb_spec (j + 3) len).
  - rewrite Hb. cbn.
    destruct (pts_from_cons pt len (j + 2)) as (y & Hy & E); [lia|done|].
    destruct (pts_from_cons pt len (j + 3)) as (z & Hz & E2); [lia|done|].
    rewrite Hy. cbn. rewrite E. replace (j + 2 + 1) with (j + 3) by lia. rewrite E2. cbn.
    destruct (Z.eqb_spec b y) as [Hby|Hby].
    + destruct (IH (j + 2) z) as (j' & e & -> & ? & ? & ? & Hm); try lia; try done.
      { by replace (j + 2 + 1) with (j + 3) by lia. }
      exists j', e. split_and!; try done; try lia.
      by replace (j + 3 + 1) with (j + 2 + 2) by lia.
    + exists j, b. split_and!; try done; try lia. rewrite E.
      replace (j + 2 + 1) with (j + 3) by lia. by rewrite E2.
  - exists j, b. split_and!; try done; try lia.
    destruct (Z.eqb_spec (j + 2) len) as [He|].
    + by rewrite pts_from_nil by lia.
    + destruct (pts_from_cons pt len (j + 2)) as (y & Hy & E); [lia|done|].
      rewrite E. by rewrite (pts_from_nil _ _ (j + 2 + 1)) by lia.
Qed.

Lemma squeeze_fuel n m l :
  (length l <= n)%nat -> (length l <= m)%nat -> squeeze n l = squeeze m l.
Proof.
  revert m l. induction n as [|n IH]; intros m l Hn Hm.
  { destruct l; [by destruct m|cbn in Hn; lia]. }
  destruct l as [|a [|b r]]; [by destruct m..|].
  destruct m as [|m]; [cbn in Hm; lia|]. cbn in Hn, Hm. cbn.
  pose proof (squeeze_merge_len b r). destruct (squeeze_merge b r) as [e r']. cbn in *.
  destruct (a =? b); [|do 2 f_equal]; apply IH; lia.
Qed.

Lemma length_pts_from pt len i :
  0 <= i <= len -> len <= zlen pt -> length (pts_from pt len i) = Z.to_nat (len - i).
Proof. intros. unfold pts_from, zlen in *. rewrite length_drop, length_take. lia. Qed.

Lemma cr_compress_loop_spec fuel pt i k len :
  0 <= k <= i -> i <= len <= zlen pt -> len - i < Z.of_nat fuel ->
  exists pt' k', cr_compress_loop fuel pt i k len = Some (pt', k') /\
    zlen pt' = zlen pt /\ 0 <= k' <= len /\
    take (Z.to_nat k') pt'
    = take (Z.to_nat k) pt ++ squeeze (Z.to_nat (len - i)) (pts_from pt len i).
Proof.
  revert pt i k. induction fuel as [|fuel IH]; intros pt i k Hk Hi Hf; [lia|].
  cbn [cr_compress_loop]. destruct (Z.ltb_spec (i + 1) len) as [Hil|Hil].
  2:{ exists pt, k. split_and!; try done; try lia.
      assert (squeeze (Z.to_nat (len - i)) (pts_from pt len i) = []) as ->; [|by rewrite app_nil_r].
      destruct (pts_from pt len i) as [|a [|b r]] eqn:E; [by destruct (Z.to_nat _)..|].
      pose proof (length_pts_from pt len i ltac:(lia) ltac:(lia)) as Hlen.
      rewrite E in Hlen. cbn in Hlen. lia. }
  destruct (pts_from_cons pt len i) as (x & Hx & Ex); [lia..|].
  destruct (pts_from_cons pt len (i + 1)) as (y & Hy & Ey); [lia..|].
  rewrite Hx, Hy. cbn [mbind option_bind]. rewrite Ex, Ey.
  replace (i + 1 + 1) with (i + 2) in * by lia.
  destruct (Z.to_nat (len - i)) as [|m] eqn:Em; [lia|].
  cbn [squeeze]. destruct (Z.eqb_spec x y) as [->|Hne].
  - destruct (IH pt (i + 2) k) as (pt' & k' & -> & Hlen & Hk' & Et); [lia..|].
    exists pt', k'. split_and!; try done; try lia. rewrite Et. f_equal.
    apply squeeze_fuel; rewrite length_pts_from by lia; lia.
  - destruct (cr_compress_merge_spec fuel pt len i y) as (j & e & -> & Hj & Hjl & He & Hm);
      [lia|lia|lia|lia|done|].
    cbn [mbind option_bind]. rewrite zupd_is_Some by lia. cbn [mbind option_bind].
    rewrite znth_insert_ne, He by lia. cbn [mbind option_bind].
    rewrite zupd_is_Some by (rewrite zlen_insert; lia). cbn [mbind option_bind].
    rewrite Hm. set (pt1 := <[Z.to_nat k := x]> pt).
    destruct (IH (<[Z.to_nat (k + 1) := e]> pt1) (j + 2) (k + 2))
      as (pt' & k' & -> & Hlen & Hk' & Et); try lia.
    { unfold pt1. rewrite !zlen_insert. lia. }
    exists pt', k'. unfold pt1 in Hlen. rewrite Hlen, !zlen_insert. split_and!; try done; try lia.
    rewrite Et. unfold pt1. rewrite !pts_from_upd by lia.
    replace (k + 2) with (k + 1 + 1) by lia.
    rewrite take_insert_snoc by (rewrite zlen_insert; lia).
    rewrite take_insert_snoc by lia. rewrite <- !app_assoc. cbn. do 3 f_equal.
    apply squeeze_fuel; rewrite length_pts_from by lia; lia.
Qed.

Lemma cr_compress_spec cr :
  cr_wf cr ->
  exists cr', cr_compress cr = Some cr' /\ cr_wf cr' /\ cr_size cr' = cr_size cr /\
    cr_pts cr' = squeeze (Z.to_nat (cr_len cr)) (cr_pts cr).
Proof.
  intros [Hl Hz]. unfold cr_compress.
  destruct (cr_compress_loop_spec (S (Z.to_nat (cr_len cr))) (cr_points cr) 0 0 (cr_len cr))
    as (pt & k & -> & Hlen & Hk & E); [lia..|].
  cbn. eexists. split; [done|]. unfold cr_wf, cr_pts. cbn. rewrite E, Z.sub_0_r.
  unfold pts_from. cbn. split_and!; try done; lia.
Qed.

(** ** Set operations *)

Definition op_bool (op : CharRangeOp) : bool -> bool -> bool :=
  match op with CR_OP_UNION => orb | CR_OP_INTER => andb | CR_OP_XOR => xorb end.

Lemma land_1_odd x : Z.land x 1 = Z.b2z (Z.odd x).
Proof.
  rewrite (land_mask x 1 1) by lia. change (2 ^ 1) with 2. rewrite Zmod_odd. by destruct (Z.odd x).
Qed.

Lemma cr_is_in_bool op a b :
  cr_is_in op a b = Z.b2z (op_bool op (Z.odd a) (Z.odd b)).
Proof. unfold cr_is_in. rewrite !land_1_odd. by destruct op, (Z.odd a), (Z.odd b). Qed.

(** The next point of two lists, with what was taken from each of them. *)
Definition op_next (a b : list Z) : option (Z * bool * bool * list Z * list Z) :=
  match a, b with
  | [], [] => None
  | x :: a', [] => Some (x, true, false, a', [])
  | [], y :: b' => Some (y, false, true, [], b')
  | x :: a', y :: b' =>
      if x <? y then Some (x, true, false, a', b)
      else if x =? y then Some (x, true, true, a', b')
      else Some (y, false, true, a, b')
  end.

Section op_points.
Context (f : bool -> bool -> bool).

(** The points that the loop of [cr_op] adds, as a function of the points that
    remain in both operands and of the three in/out states. *)
Fixpoint op_points (n : nat) (ia ib o : bool) (a b : list Z) : list Z :=
  match n with
  | O => []
  | S n' =>
      match op_next a b with
      | None => []
      | Some (v, da, db, a', b') =>
          if xorb (f (xorb ia da) (xorb ib db)) o
          then v :: op_points n' (xorb ia da) (xorb ib db) (negb o) a' b'
          else op_points n' (xorb ia da) (xorb ib db) o a' b'
      end
  end.

Lemma op_next_spec a b v da db a' b' :
  op_next a b = Some (v, da, db, a', b') -> increasing a -> increasing b ->
  increasing a' /\ increasing b' /\
  a = (if da then v :: a' else a') /\ b = (if db then v :: b' else b') /\
  Forall (fun y => v <= y) a /\ Forall (fun y => v <= y) b /\
  (length a' + length b' < length a + length b)%nat.
Proof.
  assert (Hup : forall x l, increasing (x :: l) -> forall v, v <= x -> Forall (fun y => v <= y) (x :: l)).
  { intros x l Hi w Hw. inversion_clear Hi as [|? ? ? Hf]. constructor; [done|].
    revert Hf. apply Forall_impl. cbn. lia. }
  unfold op_next. intros E Ha Hb. destruct a as [|x a], b as [|y b]; try done.
  - injection E as <- <- <- <- <-; split_and!; try done; eauto using increasing_tail;
      try (eapply Hup; [eassumption|lia]); cbn; lia.
  - injection E as <- <- <- <- <-; split_and!; try done; eauto using increasing_tail;
      try (eapply Hup; [eassumption|lia]); cbn; lia.
  - destruct (Z.ltb_spec x y); [|destruct (Z.eqb_spec x y) as [->|]];
      injection E as <- <- <- <- <-; split_and!; try done; eauto using increasing_tail;
      try (eapply Hup; [eassumption|lia]); cbn; lia.
Qed.

Lemma op_next_Forall a b v da db a' b' (P : Z -> Prop) :
  op_next a b = Some (v, da, db, a', b') -> Forall P a -> Forall P b ->
  P v /\ Forall P a' /\ Forall P b'.
Proof.
  unfold op_next. intros E Ha Hb. destruct a as [|x a], b as [|y b]; try done;
    repeat match goal with
    | H : Forall _ (_ :: _) |- _ => apply Forall_cons_1 in H as [? ?]
    end; repeat case_match; injection E as <- <- <- <- <-; auto using Forall_cons.
Qed.

Lemma op_points_Forall n ia ib o a b (P : Z -> Prop) :
  Forall P a -> Forall P b -> Forall P (op_points n ia ib o a b).
Proof.
  revert ia ib o a b. induction n as [|n IH]; intros ia ib o a b Ha Hb; [constructor|].
  cbn. destruct (op_next a b) as [[[[[v da] db] a'] b']|] eqn:E; [|constructor].
  destruct (op_next_Forall _ _ _ _ _ _ _ P E Ha Hb) as (? & ? & ?).
  destruct (xorb _ o); [constructor|]; auto.
Qed.

Lemma op_points_increasing n ia ib o a b :
  increasing a -> increasing b -> increasing (op_points n ia ib o a b).
Proof.
  revert ia ib o a b. induction n as [|n IH]; intros ia ib o a b Ha Hb; [constructor|].
  cbn. destruct (op_next a b) as [[[[[v da] db] a'] b']|] eqn:E; [|constructor].
  destruct (op_next_spec _ _ _ _ _ _ _ E Ha Hb) as (Ha' & Hb' & _ & _ & Fa & Fb & _).
  destruct (op_next_Forall _ _ _ _ _ _ _ _ E Fa Fb) as (_ & Fa' & Fb').
  destruct (xorb _ o); [constructor|]; auto using op_points_Forall.
Qed.

(** In/out status of the operands after the next point, at a code point past it. *)
Lemma op_points_parity n ia ib a b c :
  (length a + length b <= n)%nat -> increasing a -> increasing b ->
  cr_parity (f ia ib) (op_points n ia ib (f ia ib) a b) c
  = f (cr_parity ia a c) (cr_parity ib b c).
Proof.
  revert ia ib a b. induction n as [|n IH]; intros ia ib a b Hn Ha Hb.
  { destruct a, b; cbn in Hn; try lia. done. }
  cbn. destruct (op_next a b) as [[[[[v da] db] a'] b']|] eqn:E.
  2:{ unfold op_next in E. destruct a, b; repeat case_match; done. }
  destruct (op_next_spec _ _ _ _ _ _ _ E Ha Hb) as (Ha' & Hb' & Ea & Eb & Fa & Fb & Hl).
  destruct (Z.leb_spec v c) as [Hvc|Hvc].
  - assert (Hpa : cr_parity ia a c = cr_parity (xorb ia da) a' c).
    { rewrite Ea. destruct da; cbn; [|by rewrite xorb_false_r].
      by rewrite (proj2 (Z.leb_le _ _)), xorb_true_r. }
    assert (Hpb : cr_parity ib b c = cr_parity (xorb ib db) b' c).
    { rewrite Eb. destruct db; cbn; [|by rewrite xorb_false_r].
      by rewrite (proj2 (Z.leb_le _ _)), xorb_true_r. }
    rewrite Hpa, Hpb, <- IH by (done || lia).
    destruct (f (xorb ia da) (xorb ib db)) eqn:Ei, (f ia ib) eqn:Eo; cbn;
      rewrite ?(proj2 (Z.leb_le _ _)) by done; done.
  - assert (Hf : forall l, Forall (fun y => v <= y) l -> Forall (fun y => c < y) l).
    { intros l. apply Forall_impl. cbn. lia. }
    rewrite !(cr_parity_high _ a), !(cr_parity_high _ b) by auto.
    destruct (op_next_Forall _ _ _ _ _ _ _ _ E Fa Fb) as (_ & Fa' & Fb').
    apply cr_parity_high. destruct (xorb _ _); [constructor; [lia|]|];
      apply Hf; by apply op_points_Forall.
Qed.

Lemma op_points_odd n ia ib a b :
  (length a + length b <= n)%nat -> increasing a -> increasing b ->
  xorb (f ia ib) (Nat.odd (length (op_points n ia ib (f ia ib) a b)))
  = f (xorb ia (Nat.odd (length a))) (xorb ib (Nat.odd (length b))).
Proof.
  revert ia ib a b. induction n as [|n IH]; intros ia ib a b Hn Ha Hb.
  { destruct a, b; cbn in Hn; try lia. cbn. by rewrite !xorb_false_r. }
  cbn [op_points]. destruct (op_next a b) as [[[[[v da] db] a'] b']|] eqn:E.
  2:{ unfold op_next in E. destruct a, b; repeat case_match; try done.
      cbn. by rewrite !xorb_false_r. }
  destruct (op_next_spec _ _ _ _ _ _ _ E Ha Hb) as (Ha' & Hb' & Ea & Eb & Fa & Fb & Hl).
  assert (Hd : forall (d : bool) (l l' : list Z) (s : bool), l = (if d then v :: l' else l') ->
    xorb s (Nat.odd (length l)) = xorb (xorb s d) (Nat.odd (length l'))).
  { intros d l l' s ->. destruct d; [|by rewrite xorb_false_r].
    cbn [length]. rewrite Nat.odd_succ, <- Nat.negb_odd. by destruct s, (Nat.odd _). }
  rewrite (Hd da a a'), (Hd db b b') by done. rewrite <- IH by (done || lia).
  destruct (f (xorb ia da) (xorb ib db)) eqn:Ei, (f ia ib) eqn:Eo; cbn [xorb negb]; try done;
    cbn [length]; rewrite Nat.odd_succ, <- Nat.negb_odd; by destruct (Nat.odd _).
Qed.
End op_points.

Lemma cr_next_spec a_pt a_len b_pt b_len ai bi :
  0 <= ai <= a_len -> a_len <= zlen a_pt -> 0 <= bi <= b_len -> b_len <= zlen b_pt ->
  match op_next (pts_from a_pt a_len ai) (pts_from b_pt b_len bi) with
  | None => cr_next a_pt a_len b_pt b_len ai bi = Some None
  | Some (v, da, db, a', b') =>
      cr_next a_pt a_len b_pt b_len ai bi = Some (Some (v, ai + Z.b2z da, bi + Z.b2z db))
      /\ a' = pts_from a_pt a_len (ai + Z.b2z da) /\ b' = pts_from b_pt b_len (bi + Z.b2z db)
      /\ ai + Z.b2z da <= a_len /\ bi + Z.b2z db <= b_len
  end.
Proof.
  intros Ha Hal Hb Hbl. unfold cr_next.
  destruct (Z.ltb_spec ai a_len) as [Hai|Hai], (Z.ltb_spec bi b_len) as [Hbi|Hbi]; cbn [andb].
  all: try (destruct (pts_from_cons a_pt a_len ai) as (x & Hx & Ex); [lia..|];
    rewrite Hx, Ex; cbn [mbind option_bind]).
  all: try (destruct (pts_from_cons b_pt b_len bi) as (y & Hy & Ey); [lia..|];
    rewrite Hy, Ey; cbn [mbind option_bind]).
  all: rewrite ?(pts_from_nil a_pt), ?(pts_from_nil b_pt) by done; cbn [op_next].
  - destruct (x <? y); [|destruct (x =? y)]; cbn [Z.b2z];
      rewrite ?Z.add_0_r, ?Ex, ?Ey; split_and!; try done; lia.
  - cbn [Z.b2z]. rewrite ?Z.add_0_r, (pts_from_nil b_pt) by done. split_and!; try done; lia.
  - cbn [Z.b2z]. rewrite ?Z.add_0_r, (pts_from_nil a_pt) by done. split_and!; try done; lia.
  - done.
Qed.

Section refinement.
Context `{AllocatorOk}.

Lemma cr_realloc_spec cr n :
  cr_wf cr ->
  let '(cr', r) := cr_realloc cr n in
  (r = 0 /\ cr_wf cr' /\ cr_len cr' = cr_len cr /\ cr_pts cr' = cr_pts cr /\ n <= cr_size cr')
  \/ (r = -1 /\ cr' = cr).
Proof.
  intros [Hl Hz]. unfold cr_realloc. rewrite Z.gtb_ltb.
  destruct (Z.ltb_spec (cr_size cr) n); [|left; split_and!; done].
  rewrite max_int_max. set (n' := Z.max n _). assert (n <= n') by lia.
  destruct (realloc_func (cr_points cr) n') as [b|] eqn:E; [left|by right].
  unfold cr_wf, cr_pts. cbn. rewrite (realloc_len _ _ _ E). split_and!; try done; try lia.
  apply (realloc_keep _ _ _ _ E); lia.
Qed.

Lemma cr_add_point_spec cr v :
  cr_wf cr ->
  exists cr' r, cr_add_point cr v = Some (cr', r) /\
    ((r = 0 /\ cr_wf cr' /\ cr_len cr' = cr_len cr + 1 /\ cr_pts cr' = cr_pts cr ++ [v])
     \/ r = -1).
Proof.
  intros Hwf. unfold cr_add_point. rewrite Z.geb_leb.
  assert (Hg : let '(cr', r) :=
      if cr_size cr <=? cr_len cr then cr_realloc cr (cr_len cr + 1) else (cr, 0) in
    (r = 0 /\ cr_wf cr' /\ cr_len cr' = cr_len cr /\ cr_pts cr' = cr_pts cr
       /\ cr_len cr + 1 <= cr_size cr') \/ r = -1).
  { destruct (Z.leb_spec (cr_size cr) (cr_len cr)).
    - pose proof (cr_realloc_spec cr (cr_len cr + 1) Hwf) as Hr.
      destruct (cr_realloc _ _) as [cr' r]. destruct Hr as [(? & ? & ? & ? & ?)|[? _]]; auto 6.
    - left. split_and!; try done. lia. }
  destruct (if _ <=? _ then _ else _) as [cr' r].
  destruct Hg as [(-> & [Hl Hz] & Hlen & Hp & Hs)| ->]; cbn; [|eauto].
  rewrite zupd_is_Some by lia. cbn. eexists _, 0. split; [done|]. left.
  unfold cr_wf, cr_pts. cbn. rewrite zlen_insert, take_insert_snoc by lia.
  split_and!; try done; try lia. f_equal. exact Hp.
Qed.

Lemma odd_pts cr : cr_wf cr -> Nat.odd (length (cr_pts cr)) = Z.odd (cr_len cr).
Proof.
  intros [Hl Hz]. assert (length (cr_pts cr) = Z.to_nat (cr_len cr)) as ->.
  { unfold cr_pts. rewrite length_take. unfold zlen in Hz. lia. }
  replace (cr_len cr) with (Z.of_nat (Z.to_nat (cr_len cr))) at 2 by lia.
  generalize (Z.to_nat (cr_len cr)). intros n. induction n as [|n IH]; [done|].
  rewrite Nat2Z.inj_succ, Z.odd_succ, Nat.odd_succ, <- Z.negb_odd, <- Nat.negb_odd.
  by rewrite IH.
Qed.

Lemma odd_b2z x d : Z.odd (x + Z.b2z d) = xorb (Z.odd x) d.
Proof. rewrite Z.odd_add. by destruct d. Qed.

Lemma b2z_eqb a b : (Z.b2z a =? Z.b2z b) = negb (xorb a b).
Proof. by destruct a, b. Qed.

Lemma cr_op_loop_spec fuel cr a_pt a_len b_pt b_len op ai bi :
  cr_wf cr -> 0 <= ai <= a_len -> a_len <= zlen a_pt -> 0 <= bi <= b_len -> b_len <= zlen b_pt ->
  (length (pts_from a_pt a_len ai) + length (pts_from b_pt b_len bi) < fuel)%nat ->
  increasing (pts_from a_pt a_len ai) -> increasing (pts_from b_pt b_len bi) ->
  exists cr' r, cr_op_loop fuel cr a_pt a_len b_pt b_len op ai bi = Some (cr', r) /\
    ((r = 0 /\ cr_wf cr' /\
      let pts := cr_pts cr ++ op_points (op_bool op) fuel (Z.odd ai) (Z.odd bi)
        (Z.odd (cr_len cr)) (pts_from a_pt a_len ai) (pts_from b_pt b_len bi) in
      cr_pts cr' = squeeze (length pts) pts) \/ r = -1).
Proof.
  revert cr ai bi. induction fuel as [|fuel IH]; intros cr ai bi Hwf Ha Hal Hb Hbl Hf Hia Hib;
    [lia|].
  cbn [cr_op_loop op_points].
  pose proof (cr_next_spec a_pt a_len b_pt b_len ai bi Ha Hal Hb Hbl) as Hn.
  destruct (op_next _ _) as [[[[[v da] db] a'] b']|] eqn:E.
  2:{ rewrite Hn. cbn [mbind option_bind]. destruct (cr_compress_spec cr Hwf) as (cr' & -> & Hwf' & _ & Hp).
      cbn [mbind option_bind]. exists cr', 0. split; [done|]. left. split_and!; [done..|].
      cbn zeta. rewrite app_nil_r, Hp. apply squeeze_fuel; [|done].
      unfold cr_pts. rewrite length_take. lia. }
  destruct Hn as (-> & Ea & Eb & Hal' & Hbl'). cbn [mbind option_bind].
  destruct (op_next_spec _ _ _ _ _ _ _ E Hia Hib) as (Hia' & Hib' & _ & _ & _ & _ & Hl).
  rewrite Ea in *. rewrite Eb in *.
  rewrite cr_is_in_bool, land_1_odd, b2z_eqb, negb_involutive, !odd_b2z.
  assert (0 <= Z.b2z da) by (destruct da; cbn; lia).
  assert (0 <= Z.b2z db) by (destruct db; cbn; lia).
  destruct (xorb (op_bool op _ _) (Z.odd (cr_len cr))) eqn:Ex.
  - destruct (cr_add_point_spec cr v Hwf) as (cr1 & r1 & -> & Hr1). cbn [mbind option_bind].
    destruct Hr1 as [(-> & Hwf1 & Hlen1 & Hp1)| ->]; cbn; [|eauto].
    destruct (IH cr1 (ai + Z.b2z da) (bi + Z.b2z db)) as (cr' & r & -> & Hr);
      try done; try lia.
    exists cr', r. split; [done|]. destruct Hr as [(-> & Hwf' & Hp)|]; [left|by right].
    split_and!; [done..|]. rewrite Hp, Hp1, Hlen1, !odd_b2z, <- app_assoc.
    replace (Z.odd (cr_len cr + 1)) with (negb (Z.odd (cr_len cr))); [done|].
    rewrite Z.odd_add. by destruct (Z.odd _).
  - destruct (IH cr (ai + Z.b2z da) (bi + Z.b2z db)) as (cr' & r & -> & Hr);
      try done; try lia.
    exists cr', r. split; [done|]. destruct Hr as [(-> & Hwf' & Hp)|]; [left|by right].
    split_and!; [done..|]. by rewrite Hp, !odd_b2z.
Qed.

(** Intervals in increasing order, which may be adjacent. *)
Definition cr_denotes (cr : CharRange) (set : Z -> bool) : Prop :=
  cr_wf cr /\ intervals (cr_pts cr) /\ Nat.even (length (cr_pts cr)) = true /\
  forall c, cr_mem (cr_pts cr) c = set c.

(** What a range operation promises: a canonical list of points denoting [set]. *)
Definition cr_exact (cr : CharRange) (set : Z -> bool) : Prop :=
  cr_denotes cr set /\ strictly_increasing (cr_pts cr).

(** The points of the ranges that occur: up to 30 bits, or the end of a complement. *)
Definition cr_point (p : Z) : Prop := 0 <= p <= 2 ^ 30 \/ p = UINT32_MAX.

(** A well formed range of such points, whatever it denotes. *)
Definition cr_valid (cr : CharRange) : Prop :=
  (exists set, cr_denotes cr set) /\ Forall cr_point (cr_pts cr).

Lemma cr_init_wf : cr_wf cr_init.
Proof. split; vm_compute; [split; congruence|done]. Qed.

Lemma cr_op_spec a_pt a_len b_pt b_len op :
  0 <= a_len <= zlen a_pt -> 0 <= b_len <= zlen b_pt ->
  let a := take (Z.to_nat a_len) a_pt in let b := take (Z.to_nat b_len) b_pt in
  increasing a -> increasing b ->
  Nat.even (length a) = true -> Nat.even (length b) = true ->
  exists cr r, cr_op cr_init a_pt a_len b_pt b_len op = Some (cr, r) /\
    ((r = 0 /\ cr_exact cr (fun c => op_bool op (cr_mem a c) (cr_mem b c))
      /\ forall P, Forall P a -> Forall P b -> Forall P (cr_pts cr)) \/ r = -1).
Proof.
  intros Ha Hb a b Hia Hib Hea Heb. unfold cr_op.
  assert (Fa : pts_from a_pt a_len 0 = a) by done.
  assert (Fb : pts_from b_pt b_len 0 = b) by done.
  assert (La : length a = Z.to_nat a_len)
    by (subst a; rewrite length_take; unfold zlen in Ha; lia).
  assert (Lb : length b = Z.to_nat b_len)
    by (subst b; rewrite length_take; unfold zlen in Hb; lia).
  set (fuel := S _). assert (Hfuel : (length a + length b < fuel)%nat) by lia. clearbody fuel.
  destruct (cr_op_loop_spec fuel cr_init a_pt a_len b_pt b_len op 0 0)
    as (cr & r & -> & Hr);
    [by apply cr_init_wf|lia|lia|lia|lia|rewrite Fa, Fb; lia|by rewrite Fa|by rewrite Fb|].
  exists cr, r. split; [done|]. destruct Hr as [(-> & Hwf & Hp)|]; [left|by right].
  cbn zeta in Hp. rewrite Fa, Fb in Hp. change (cr_pts cr_init) with (@nil Z) in Hp.
  cbn [app] in Hp. change (Z.odd (cr_len cr_init)) with false in Hp. change (Z.odd 0) with false in Hp.
  assert (Ho : op_bool op false false = false) by (by destruct op).
  set (pts := op_points (op_bool op) fuel false false false a b) in Hp.
  assert (Hip : increasing pts) by (by apply op_points_increasing).
  assert (Hep : Nat.even (length pts) = true).
  { pose proof (op_points_odd (op_bool op) fuel false false a b ltac:(lia) Hia Hib) as Hodd.
    rewrite Ho in Hodd. fold pts in Hodd.
    assert (Nat.odd (length a) = false) as Oa by (by rewrite <- Nat.negb_even, Hea).
    assert (Nat.odd (length b) = false) as Ob by (by rewrite <- Nat.negb_even, Heb).
    rewrite Oa, Ob in Hodd. cbn [xorb] in Hodd. rewrite Ho in Hodd.
    rewrite <- Nat.negb_odd. by destruct (Nat.odd (length pts)). }
  destruct (squeeze_spec (length pts) pts ltac:(lia) Hip Hep) as (H1 & H2 & H3 & H4).
  split; [done|]. rewrite <- Hp in *. split.
  - split; [|done]. split_and!; try done; [by apply strictly_increasing_intervals|]. intros c. rewrite H4, cr_mem_parity by done.
    pose proof (op_points_parity (op_bool op) fuel false false a b c ltac:(lia) Hia Hib) as Hpar.
    rewrite Ho in Hpar. fold pts in Hpar. rewrite Hpar, !cr_mem_parity by done. done.
  - intros P Pa Pb. apply H3. by apply op_points_Forall.
Qed.
End refinement.

Lemma cr_mem_app pts l c :
  Nat.even (length pts) = true -> cr_mem (pts ++ l) c = cr_mem pts c || cr_mem l c.
Proof.
  induction pts as [|x|a b r IH] using pair_ind; intros Hev; [done|done|].
  cbn in Hev. cbn. rewrite IH by done. by rewrite orb_assoc.
Qed.

Lemma cr_parity_negb s l c : cr_parity (negb s) l c = negb (cr_parity s l c).
Proof. revert s. induction l as [|x l IH]; intros s; cbn; [done|]. by destruct_cmp. Qed.

(** The status past a final point that bounds the others. *)
Lemma cr_parity_snoc s l m c :
  Forall (fun p => 0 <= p <= m) l -> increasing l ->
  cr_parity s (l ++ [m]) c = if c <? m then cr_parity s l c else xorb s (Nat.even (length l)).
Proof.
  revert s. induction l as [|x l IH]; intros s Hf Hl; cbn -[Z.leb Nat.even].
  - change (Nat.even 0) with true. repeat destruct_cmp; try lia; by destruct s.
  - apply Forall_cons_1 in Hf as [Hx Hf]. apply increasing_tail in Hl.
    destruct (Z.leb_spec x c).
    + rewrite IH by done. destruct (c <? m); [done|].
      rewrite <- (Nat.negb_odd (length l)), Nat.even_succ.
      by destruct s, (Nat.odd (length l)).
    + by rewrite (proj2 (Z.ltb_lt _ _)) by lia.
Qed.

Section set_theorems.
Context `{AllocatorOk}.


Lemma cr_union1_prefix_spec cr b_pt b_len set :
  cr_denotes cr set -> 0 <= b_len <= zlen b_pt ->
  let pts := take (Z.to_nat b_len) b_pt in
  increasing pts -> Nat.even (length pts) = true ->
  exists cr' r, cr_union1 cr b_pt b_len = Some (cr', r) /\
    ((r = 0 /\ cr_exact cr' (fun c => set c || cr_mem pts c)
      /\ forall P, Forall P (cr_pts cr) -> Forall P pts -> Forall P (cr_pts cr')) \/ r = -1).
Proof.
  intros ([Hl Hz] & Hi & He & Hm) Hb pts Hip Hep. unfold cr_union1.
  destruct (cr_op_spec (cr_points cr) (cr_len cr) b_pt b_len CR_OP_UNION)
    as (cr' & r & -> & Hr); try done; try lia; [by apply intervals_increasing|].
  exists cr', r. split; [done|].
  destruct Hr as [(-> & ((? & ? & ? & Hm') & ?) & HP)|]; [left|by right].
  split; [done|]. split; [|done]. split; [|done]. split_and!; try done. intros c. rewrite Hm'. cbn.
  unfold cr_pts in Hm. by rewrite Hm.
Qed.

Lemma cr_union1_spec cr pts set :
  cr_denotes cr set -> increasing pts -> Nat.even (length pts) = true ->
  exists cr' r, cr_union1 cr pts (zlen pts) = Some (cr', r) /\
    ((r = 0 /\ cr_exact cr' (fun c => set c || cr_mem pts c)
      /\ forall P, Forall P (cr_pts cr) -> Forall P pts -> Forall P (cr_pts cr')) \/ r = -1).
Proof.
  intros Hcr Hip Hep.
  assert (take (Z.to_nat (zlen pts)) pts = pts) as Et by (apply take_ge; unfold zlen; lia).
  pose proof (zlen_nonneg pts).
  pose proof (cr_union1_prefix_spec cr pts (zlen pts) set) as H'. cbn zeta in H'.
  rewrite Et in H'. apply H'; done || lia.
Qed.

(** cr_union_interval adds exactly the characters of the interval to the set of a
    range. *)
Theorem cr_union_interval_denotes cr set c1 c2 :
  cr_denotes cr set -> 0 <= c1 <= c2 -> c2 < UINT32_MAX ->
  exists cr' r, cr_union_interval cr c1 c2 = Some (cr', r) /\
    ((r = 0 /\ cr_exact cr' (fun c => set c || ((c1 <=? c) && (c <=? c2)))) \/ r = -1).
Proof.
  intros Hcr H1 H2. unfold cr_union_interval, UINT32_MAX in *. rewrite u32_small by lia.
  destruct (cr_union1_spec cr [c1; c2 + 1] set) as (cr' & r & Er & Hr); [done| |done|].
  { constructor; [|by constructor; [lia|constructor]]. constructor; [constructor|by constructor]. }
  change (zlen [c1; c2 + 1]) with 2 in Er. exists cr', r. split; [done|].
  destruct Hr as [(-> & ((? & ? & ? & Hm) & ?) & _)|]; [left|by right].
  split; [done|]. split; [|done]. split_and!; try done. intros c. rewrite Hm. cbn.
  rewrite orb_false_r. do 2 f_equal. repeat destruct_cmp; lia.
Qed.

Lemma cr_invert_spec cr set :
  cr_denotes cr set -> Forall (fun p => 0 <= p <= UINT32_MAX) (cr_pts cr) ->
  exists cr' r, cr_invert cr = Some (cr', r) /\
    ((r = 0 /\ cr_exact cr' (fun c => (0 <=? c) && (c <? UINT32_MAX) && negb (set c)) /\
      forall P, P 0 -> P UINT32_MAX -> Forall P (cr_pts cr) -> Forall P (cr_pts cr')) \/ r = -1).
Proof.
  intros (Hwf & Hi%intervals_increasing & He & Hm) Hb. unfold cr_invert.
  pose proof (cr_realloc_spec cr (cr_len cr + 2) Hwf) as Hr.
  destruct (cr_realloc cr _) as [cr1 r1].
  destruct Hr as [(-> & [Hl1 Hz1] & Hlen & Hp & Hs)|[-> ->]]; cbn [Z.eqb negb]; [|eauto].
  rewrite <- Hlen in *. rewrite zslice_is_Some by lia. cbn [mbind option_bind].
  change (drop (Z.to_nat 0) (cr_points cr1)) with (cr_points cr1).
  fold (cr_pts cr1). rewrite Hp.
  assert (Hpl : zlen (cr_pts cr) = cr_len cr1) by (rewrite <- Hp; unfold cr_pts; zlen_lia).
  rewrite zblit_is_Some by lia. cbn [mbind option_bind].
  set (p1 := take (Z.to_nat 1) (cr_points cr1) ++ _).
  assert (Hp1 : zlen p1 = cr_size cr1).
  { subst p1. rewrite !zlen_app, zlen_take, zlen_drop. unfold zlen in *. lia. }
  rewrite zupd_is_Some by lia. cbn [mbind option_bind].
  rewrite zupd_is_Some by (rewrite zlen_insert; lia). cbn [mbind option_bind].
  set (p2 := <[_ := UINT32_MAX]> _).
  assert (Hp2 : take (Z.to_nat (cr_len cr1 + 2)) p2 = 0 :: cr_pts cr ++ [UINT32_MAX]).
  { subst p2. replace (cr_len cr1 + 2) with (cr_len cr1 + 1 + 1) by lia.
    rewrite take_insert_snoc by (rewrite zlen_insert; lia).
    rewrite app_comm_cons. f_equal. subst p1.
    destruct (cr_points cr1) as [|x l] eqn:Ex; [unfold zlen in *; cbn in *; lia|].
    replace (Z.to_nat (cr_len cr1 + 1)) with (S (Z.to_nat (cr_len cr1))) by lia.
    change (Z.to_nat 1) with 1%nat. change (Z.to_nat 0) with 0%nat.
    cbn [take app insert list_insert]. f_equal.
    rewrite take_0. cbn [app]. apply take_app_length'.
    unfold zlen in Hpl. lia. }
  destruct (cr_compress_spec {| cr_len := cr_len cr1 + 2; cr_size := cr_size cr1; cr_points := p2 |})
    as (cr2 & -> & Hwf2 & _ & Ep).
  { split; cbn; [lia|]. subst p2. rewrite !zlen_insert. done. }
  cbn [mbind option_bind]. exists cr2, 0. split; [done|]. left. split; [done|].
  unfold cr_pts at 2 in Ep. cbn [cr_len cr_points] in Ep. rewrite Hp2 in Ep.
  set (q := 0 :: cr_pts cr ++ [UINT32_MAX]) in Ep.
  assert (Hiq : increasing q).
  { subst q. constructor.
    - clear - Hi Hb. induction Hi as [|x l _ IH Hf]; cbn; [repeat constructor|].
      apply Forall_cons_1 in Hb as [Hx Hb]. constructor; [by apply IH|].
      apply Forall_app. split; [|repeat constructor; lia].
      revert Hf. apply Forall_impl. lia.
    - apply Forall_app. split; [|repeat constructor; by vm_compute].
      revert Hb. apply Forall_impl. lia. }
  assert (Heq : Nat.even (length q) = true).
  { subst q. cbn [length]. rewrite length_app. cbn [length].
    rewrite Nat.add_1_r. by cbn. }
  assert (Hql : (length q <= Z.to_nat (cr_len cr1 + 2))%nat).
  { subst q. cbn [length]. rewrite length_app. cbn [length]. unfold zlen in Hpl. lia. }
  destruct (squeeze_spec _ q Hql Hiq Heq) as (S1 & S2 & S3 & S4). rewrite <- Ep in *.
  split; [split; [|done]; split_and!; try done; [by apply strictly_increasing_intervals|]; intros c|].
  2:{ intros P P0 P1 HP. apply S3. subst q. constructor; [done|].
      apply Forall_app. split; [done|]. by constructor. }
  rewrite S4, cr_mem_parity by done.
  rewrite <- Hm, cr_mem_parity by done.
  subst q. cbn -[Z.leb]. clear - Hb Hi He.
  destruct (Z.leb_spec 0 c); cbn -[Z.leb]; [|done].
  rewrite (cr_parity_snoc true) by done. destruct (c <? UINT32_MAX); cbn [andb].
  - by rewrite <- (cr_parity_negb false).
  - by rewrite He.
Qed.

(** cr_invert complements the set of a range within the 32 bit code points below
    UINT32_MAX. *)
Theorem cr_invert_denotes cr set :
  cr_denotes cr set -> Forall (fun p => 0 <= p <= UINT32_MAX) (cr_pts cr) ->
  exists cr' r, cr_invert cr = Some (cr', r) /\
    ((r = 0 /\ cr_exact cr'
        (fun c => (0 <=? c) && (c <? UINT32_MAX) && negb (set c))) \/ r = -1).
Proof.
  intros Hcr Hb. destruct (cr_invert_spec cr set Hcr Hb) as (cr' & r & -> & Hr).
  exists cr', r. split; [done|]. destruct Hr as [(-> & ? & _)|]; [by left|by right].
Qed.

(** ** Valid ranges *)

Lemma cr_valid_init : cr_valid cr_init.
Proof.
  split; [|by constructor]. exists (cr_mem []). split_and!; [apply cr_init_wf| |done..].
  constructor.
Qed.

Lemma cr_points_len l lo :
  intervals l -> Forall cr_point l -> Forall (fun p => lo <= p) l ->
  0 <= lo <= 2 ^ 30 + 1 -> zlen l <= 2 * (2 ^ 30 + 2 - lo).
Proof.
  intros Hs. revert lo. induction Hs as [|x y l Hxy Hs IH Hy]; intros lo Hp Hlo Hr; [rewrite zlen_nil; lia|].
  apply Forall_cons_1 in Hp as [Hpx Hp]. apply Forall_cons_1 in Hp as [Hpy Hp].
  apply Forall_cons_1 in Hlo as [Hxlo _]. rewrite !zlen_cons.
  destruct Hpy as [Hpy|Hpy].
  - enough (zlen l <= 2 * (2 ^ 30 + 2 - y)) by lia. apply IH; [done|done|lia].
  - assert (l = []) as ->; [|rewrite zlen_nil; unfold cr_point, UINT32_MAX in *; lia].
    inversion Hs as [|a b l' Hab _ _]; subst; [done|].
    apply Forall_cons_1 in Hy as [Hya Hy]. apply Forall_cons_1 in Hy as [Hyb _].
    apply Forall_cons_1 in Hp as [_ Hp]. apply Forall_cons_1 in Hp as [Hpb _].
    unfold cr_point, UINT32_MAX in *. lia.
Qed.

Lemma cr_valid_len cr :
  cr_valid cr -> 0 <= cr_len cr <= 2 ^ 31 + 4 /\ cr_len cr <= zlen (cr_points cr) /\
    Z.even (cr_len cr) = true /\ zlen (cr_pts cr) = cr_len cr.
Proof.
  intros ((set & [Hl Hz] & Hi & He & _) & Hp).
  assert (zlen (cr_pts cr) = cr_len cr) as Hlen by (unfold cr_pts; zlen_lia).
  split; [|split; [lia|split; [|done]]].
  - split; [lia|]. rewrite <- Hlen. enough (zlen (cr_pts cr) <= 2 * (2 ^ 30 + 2 - 0)) by lia.
    apply cr_points_len; [done|done| |lia]. revert Hp. apply Forall_impl.
    unfold cr_point, UINT32_MAX. lia.
  - rewrite <- Hlen. unfold zlen. apply Nat.even_spec in He as [k ->].
    apply Z.even_spec. exists (Z.of_nat k). lia.
Qed.

(** The range functions of the parser on valid ranges. *)
Definition valid_result (o : option (CharRange * Z)) : Prop :=
  exists cr r, o = Some (cr, r) /\ (r = 0 /\ cr_valid cr \/ r = -1).

Lemma cr_union1_prefix_valid cr b_pt b_len :
  cr_valid cr -> 0 <= b_len <= zlen b_pt ->
  let pts := take (Z.to_nat b_len) b_pt in
  increasing pts -> Nat.even (length pts) = true -> Forall cr_point pts ->
  valid_result (cr_union1 cr b_pt b_len).
Proof.
  intros [[set Hd] Hp] Hb pts Hi He Hpt.
  destruct (cr_union1_prefix_spec cr b_pt b_len set Hd Hb Hi He) as (cr' & r & -> & Hr).
  exists cr', r. split; [done|]. destruct Hr as [(-> & [Hd' _] & HP)|]; [left|by right].
  split; [done|]. split; [by eexists|]. by apply HP.
Qed.

Lemma cr_union1_valid cr cr1 :
  cr_valid cr -> cr_valid cr1 -> valid_result (cr_union1 cr (cr_points cr1) (cr_len cr1)).
Proof.
  intros Hcr [[set ([Hl Hz] & Hi & He & _)] Hp]. apply cr_union1_prefix_valid; try done.
  - lia.
  - by apply intervals_increasing.
Qed.

Lemma cr_union_interval_valid cr c1 c2 :
  cr_valid cr -> 0 <= c1 <= c2 -> c2 < 2 ^ 30 -> valid_result (cr_union_interval cr c1 c2).
Proof.
  intros Hcr H1 H2. unfold cr_union_interval. rewrite u32_small by lia.
  apply cr_union1_prefix_valid; try done.
  - change (take (Z.to_nat 2) [c1; c2 + 1]) with [c1; c2 + 1].
    constructor; [|by constructor; [lia|constructor]]. constructor; [constructor|by constructor].
  - change (take (Z.to_nat 2) [c1; c2 + 1]) with [c1; c2 + 1].
    constructor; [|constructor; [|done]]; left; lia.
Qed.

Lemma cr_invert_valid cr : cr_valid cr -> valid_result (cr_invert cr).
Proof.
  intros [[set Hd] Hp]. destruct (cr_invert_spec cr set Hd) as (cr' & r & -> & Hr).
  { revert Hp. apply Forall_impl. unfold cr_point, UINT32_MAX. lia. }
  exists cr', r. split; [done|]. destruct Hr as [(-> & [Hd' _] & HP)|]; [left|by right].
  split; [done|]. split; [by eexists|]. apply HP; [by left|by right|done].
Qed.
End set_theorems.

(** ** Concrete ranges: digits and lower case letters, and [5] to [c]. *)

Definition cr_digits_lower : CharRange :=
  {| cr_len := 4; cr_size := 4; cr_points := [48; 58; 97; 123] |}.
Definition cr_five_to_c : CharRange :=
  {| cr_len := 2; cr_size := 2; cr_points := [53; 100] |}.

Ltac prove_denotes :=
  split_and!;
    [ split; vm_compute; [split; congruence|done]
    | repeat (constructor; [lia| |repeat (constructor; [lia|]); constructor]); constructor
    | done | done ].

Lemma cr_digits_lower_denotes : cr_denotes cr_digits_lower (cr_mem [48; 58; 97; 123]).
Proof. prove_denotes. Qed.

Lemma cr_five_to_c_denotes : cr_denotes cr_five_to_c (cr_mem [53; 100]).
Proof. prove_denotes. Qed.


Lemma cr_union_interval_denotes_witness :
  let A := limit_alloc 4096 in
  cr_denotes cr_digits_lower (cr_mem [48; 58; 97; 123]) /\
  exists cr, cr_union_interval (H := A) cr_digits_lower 58 96 = Some (cr, 0)
    /\ cr_pts cr = [48; 123].
Proof.
  intros A. split; [exact cr_digits_lower_denotes|].
  destruct (@cr_union_interval_denotes A limit_alloc_4096 _ _ 58 96 cr_digits_lower_denotes
    ltac:(lia) ltac:(by vm_compute)) as (cr & r & E & _).
  assert (E2 := E). vm_compute in E2. injection E2 as <- <-.
  eexists. split; [exact E|reflexivity].
Defined.

Lemma cr_invert_denotes_witness :
  let A := limit_alloc 4096 in
  cr_denotes cr_digits_lower (cr_mem [48; 58; 97; 123]) /\
  exists cr, cr_invert (H := A) cr_digits_lower = Some (cr, 0)
    /\ cr_pts cr = [0; 48; 58; 97; 123; 4294967295].
Proof.
  intros A. split; [exact cr_digits_lower_denotes|].
  destruct (@cr_invert_denotes A limit_alloc_4096 _ _ cr_digits_lower_denotes) as (cr & r & E & _).
  { repeat (constructor; [vm_compute; split; congruence|]). constructor. }
  assert (E2 := E). vm_compute in E2. injection E2 as <- <-.
  eexists. split; [exact E|reflexivity].
Defined.
