(* ===== verification/UnicodeProps.v ===== *)
(** * The ranges of the Unicode properties (libunicode.c)

    [unicode_script], [unicode_general_category] and [unicode_prop] fill a range with the
    characters of a named script, general category or property.  A pointer into a table is
    the list of the bytes that remain.  The result is 0, -1 when an allocation fails or -2 for
    an unknown name; [None] is undefined behaviour, a failed assertion or a loop that does not
    end. *)

From S2P Require Import Prelude CStr UnicodeTables CaseConv PropTables DynBuf CharRange.

(** ** Names *)

(** [strchr]: the index of the first [c] of a string. *)
Fixpoint strchr (s : list Z) (c : Z) : option (option Z) :=
  match s with
  | [] => None
  | x :: s' =>
      if x =? c then Some (Some 0)
      else if x =? 0 then Some None
      else r ← strchr s' c; Some (match r with Some i => Some (1 + i) | None => None end)
  end.

(** [!memcmp(p, q, n)] *)
Definition mem_equal (p q : list Z) (n : Z) : option bool :=
  a ← zslice p 0 n; b ← zslice q 0 n; Some (bool_decide (a = b)).

(** The inner loop: [inl tt] when the name is found, or else the string after this one. *)
Fixpoint find_in_names (fuel : nat) (p name : list Z) (name_len : Z) : option (unit + list Z) :=
  match fuel with
  | O => None
  | S fuel' =>
      r ← strchr p 44;
      len ← (match r with None => strlen p | Some r => Some r end);
      same ← (if len =? name_len then mem_equal p name name_len else Some false);
      if same : bool then Some (inl tt)
      else
        let p := drop (Z.to_nat (len + 1)) p in
        match r with
        | None => Some (inr p)
        | Some _ => find_in_names fuel' p name name_len
        end
  end.

Fixpoint find_name_loop (fuel : nat) (p name : list Z) (pos name_len : Z) : option Z :=
  match fuel with
  | O => None
  | S fuel' =>
      c ← head p;
      if c =? 0 then Some (-1)
      else
        r ← find_in_names (S (length p)) p name name_len;
        match r with
        | inl _ => Some pos
        | inr p => find_name_loop fuel' p name (pos + 1) name_len
        end
  end.

Definition unicode_find_name (name_table name : list Z) : option Z :=
  name_len ← strlen name;
  find_name_loop (S (length name_table)) name_table name 0 name_len.

(** ** Reading the tables *)

(** [*p++] *)
Definition next (p : list Z) : option (Z * list Z) :=
  match p with [] => None | b :: p' => Some (b, p') end.

(** A run of [unicode_gc_table]: [n], [v] and the rest. *)
Definition gc_run (p : list Z) : option (Z * Z * list Z) :=
  '(b, p) ← next p;
  let n := Z.shiftr b 5 in
  let v := Z.land b 0x1f in
  if n =? 7 then
    '(n, p) ← next p;
    if n <? 128 then Some (n + 7, v, p)
    else if n <? 128 + 64 then
      '(b1, p) ← next p;
      Some (Z.lor (Z.shiftl (n - 128) 8) b1 + (7 + 128), v, p)
    else
      '(b1, p) ← next p;
      '(b2, p) ← next p;
      Some (Z.lor (Z.lor (Z.shiftl (n - 128 - 64) 16) (Z.shiftl b1 8)) b2 + (7 + 128 + Z.shiftl 1 14), v, p)
  else Some (n, v, p).

(** A run of [unicode_script_table]. *)
Definition script_run (p : list Z) : option (Z * Z * list Z) :=
  '(b, p) ← next p;
  let type := Z.shiftr b 7 in
  let n := Z.land b 0x7f in
  '(n, p) ← (if n <? 96 then Some (n, p)
    else if n <? 112 then
      '(b1, p) ← next p;
      Some (Z.lor (Z.shiftl (n - 96) 8) b1 + 96, p)
    else
      '(b1, p) ← next p;
      '(b2, p) ← next p;
      Some (Z.lor (Z.lor (Z.shiftl (n - 112) 16) (Z.shiftl b1 8)) b2 + (96 + Z.shiftl 1 12), p));
  if type =? 0 then Some (n, 0, p)
  else '(v, p) ← next p; Some (n, v, p).

(** A run of [unicode_script_ext_table]: [n], the [v_len] scripts and the rest. *)
Definition script_ext_run (p : list Z) : option (Z * list Z * list Z) :=
  '(b, p) ← next p;
  '(n, p) ← (if b <? 128 then Some (b, p)
    else if b <? 128 + 64 then
      '(b1, p) ← next p;
      Some (Z.lor (Z.shiftl (b - 128) 8) b1 + 128, p)
    else
      '(b1, p) ← next p;
      '(b2, p) ← next p;
      Some (Z.lor (Z.lor (Z.shiftl (b - 128 - 64) 16) (Z.shiftl b1 8)) b2 + (128 + Z.shiftl 1 14), p));
  '(v_len, p) ← next p;
  vs ← zslice p 0 v_len;
  Some (n, vs, drop (Z.to_nat v_len) p).

(** [1U << UNICODE_GC_...] *)
Definition M (id : Z) : Z := Z.shiftl 1 id.
Definition Ms (ids : list Z) : Z := foldr (fun id m => Z.lor (M id) m) 0 ids.

Section ranges.
Context `{Allocator}.

(** [if (o) return -1;] and what follows. *)
Definition or_fail (o : option (CharRange * Z)) (k : CharRange -> option (CharRange * Z))
  : option (CharRange * Z) :=
  '(cr, r) ← o;
  if negb (r =? 0) then Some (cr, -1) else k cr.

(** ** General categories *)

(** [for(; c0 < c; c0 += 2)] *)
Fixpoint add_every_second (fuel : nat) (cr : CharRange) (c0 c : Z) : option (CharRange * Z) :=
  match fuel with
  | O => None
  | S fuel' =>
      if c0 <? c then
        or_fail (cr_add_interval cr c0 (u32 (c0 + 1))) (fun cr => add_every_second fuel' cr (u32 (c0 + 2)) c)
      else Some (cr, 0)
  end.

(** What the run of [v] from [c0] to [c] adds. *)
Definition add_gc_run (cr : CharRange) (gc_mask v c0 c : Z) : option (CharRange * Z) :=
  if v =? 31 then
    let b := Z.land gc_mask (Ms [UNICODE_GC_Lu; UNICODE_GC_Ll]) in
    if negb (b =? 0) then
      if b =? Ms [UNICODE_GC_Lu; UNICODE_GC_Ll] then cr_add_interval cr c0 c
      else
        let c0 := u32 (c0 + Z.b2z (negb (Z.land gc_mask (M UNICODE_GC_Ll) =? 0))) in
        add_every_second (S (Z.to_nat (c - c0))) cr c0 c
    else Some (cr, 0)
  else if negb (Z.land (Z.shiftr gc_mask v) 1 =? 0) then cr_add_interval cr c0 c
  else Some (cr, 0).

Fixpoint gc_loop (fuel : nat) (cr : CharRange) (gc_mask : Z) (p : list Z) (c : Z)
  : option (CharRange * Z) :=
  match fuel, p with
  | _, [] => Some (cr, 0)
  | O, _ => None
  | S fuel', _ =>
      '(n, v, p) ← gc_run p;
      let c0 := c in
      let c := u32 (c + (n + 1)) in
      or_fail (add_gc_run cr gc_mask v c0 c) (fun cr => gc_loop fuel' cr gc_mask p c)
  end.

Definition unicode_general_category1 (cr : CharRange) (gc_mask : Z) : option (CharRange * Z) :=
  gc_loop (length unicode_gc_table) cr gc_mask unicode_gc_table 0.

Definition unicode_gc_mask_table : list Z :=
  [Ms [UNICODE_GC_Lu; UNICODE_GC_Ll; UNICODE_GC_Lt];
   Ms [UNICODE_GC_Lu; UNICODE_GC_Ll; UNICODE_GC_Lt; UNICODE_GC_Lm; UNICODE_GC_Lo];
   Ms [UNICODE_GC_Mn; UNICODE_GC_Mc; UNICODE_GC_Me];
   Ms [UNICODE_GC_Nd; UNICODE_GC_Nl; UNICODE_GC_No];
   Ms [UNICODE_GC_Sm; UNICODE_GC_Sc; UNICODE_GC_Sk; UNICODE_GC_So];
   Ms [UNICODE_GC_Pc; UNICODE_GC_Pd; UNICODE_GC_Ps; UNICODE_GC_Pe; UNICODE_GC_Pi; UNICODE_GC_Pf; UNICODE_GC_Po];
   Ms [UNICODE_GC_Zs; UNICODE_GC_Zl; UNICODE_GC_Zp];
   Ms [UNICODE_GC_Cc; UNICODE_GC_Cf; UNICODE_GC_Cs; UNICODE_GC_Co; UNICODE_GC_Cn]].

Definition unicode_general_category (cr : CharRange) (gc_name : list Z) : option (CharRange * Z) :=
  gc_idx ← unicode_find_name unicode_gc_name_table gc_name;
  if gc_idx <? 0 then Some (cr, -2)
  else
    gc_mask ← (if gc_idx <=? UNICODE_GC_Co then Some (u32 (u64 (Z.shiftl 1 gc_idx)))
               else znth unicode_gc_mask_table (gc_idx - UNICODE_GC_LC));
    unicode_general_category1 cr gc_mask.

(** ** Scripts *)

Definition cond_add (b : bool) (cr : CharRange) (c c1 : Z) : option (CharRange * Z) :=
  if b then cr_add_interval cr c c1 else Some (cr, 0).

Fixpoint script_loop (fuel : nat) (cr : CharRange) (script_idx : Z) (p : list Z) (c : Z)
  : option (CharRange * Z) :=
  match fuel, p with
  | _, [] => Some (cr, 0)
  | O, _ => None
  | S fuel', _ =>
      '(n, v, p) ← script_run p;
      let c1 := u32 (c + n + 1) in
      or_fail (cond_add (v =? script_idx) cr c c1) (fun cr => script_loop fuel' cr script_idx p c1)
  end.

Fixpoint script_ext_loop (fuel : nat) (cr : CharRange) (is_common : bool) (script_idx : Z) (p : list Z) (c : Z)
  : option (CharRange * Z) :=
  match fuel, p with
  | _, [] => Some (cr, 0)
  | O, _ => None
  | S fuel', _ =>
      '(n, vs, p) ← script_ext_run p;
      let c1 := u32 (c + n + 1) in
      let add := if is_common then negb (zlen vs =? 0) else existsb (fun v => v =? script_idx) vs in
      or_fail (cond_add add cr c c1) (fun cr => script_ext_loop fuel' cr is_common script_idx p c1)
  end.

(** The label [fail] ends in a jump to itself: after a failed allocation the function frees
    the ranges again, or does nothing, for ever.  [Some None] is that it does not return. *)
Definition or_hang (o : option (CharRange * Z)) (k : CharRange -> option (option (CharRange * Z)))
  : option (option (CharRange * Z)) :=
  '(cr, r) ← o;
  if negb (r =? 0) then Some None else k cr.

Definition unicode_script (cr : CharRange) (script_name : list Z) (is_ext : bool)
  : option (option (CharRange * Z)) :=
  script_idx ← unicode_find_name unicode_script_name_table script_name;
  if script_idx <? 0 then Some (Some (cr, -2))
  else
    let script_idx := script_idx + (UNICODE_SCRIPT_Unknown + 1) in
    let is_common := (script_idx =? UNICODE_SCRIPT_Common) || (script_idx =? UNICODE_SCRIPT_Inherited) in
    let ok (cr : CharRange) := Some (Some (cr, 0)) in
    if negb is_ext then
      or_hang (script_loop (length unicode_script_table) cr script_idx unicode_script_table 0) ok
    else
      or_hang (script_loop (length unicode_script_table) cr_init script_idx unicode_script_table 0) (fun cr1 =>
      or_hang (script_ext_loop (length unicode_script_ext_table) cr_init is_common script_idx
                 unicode_script_ext_table 0) (fun cr2 =>
      if is_common then
        or_hang (cr_invert cr2) (fun cr2 =>
        or_hang (cr_op cr (cr_points cr1) (cr_len cr1) (cr_points cr2) (cr_len cr2) CR_OP_INTER) ok)
      else
        or_hang (cr_op cr (cr_points cr1) (cr_len cr1) (cr_points cr2) (cr_len cr2) CR_OP_UNION) ok)).

(** ** Properties *)

(** The runs are alternately outside and inside the property. *)
Fixpoint prop_loop (fuel : nat) (cr : CharRange) (p : list Z) (c : Z) (bit : bool) : option (CharRange * Z) :=
  match fuel, p with
  | _, [] => Some (cr, 0)
  | O, _ => None
  | S fuel', b :: p =>
      let last (cr : CharRange) (p : list Z) (c0 c : Z) (bit : bool) :=
        or_fail (cond_add bit cr c0 c) (fun cr => prop_loop fuel' cr p c (negb bit)) in
      let c0 := c in
      if b <? 64 then
        let c := u32 (c + (Z.shiftr b 3 + 1)) in
        or_fail (cond_add bit cr c0 c) (fun cr =>
          let bit := negb bit in
          let c0 := c in
          let c := u32 (c + (Z.land b 7 + 1)) in
          last cr p c0 c bit)
      else if b >=? 0x80 then last cr p c0 (u32 (c + (b - 0x80 + 1))) bit
      else if b <? 0x60 then
        '(b1, p) ← next p;
        last cr p c0 (u32 (c + (Z.lor (Z.shiftl (b - 0x40) 8) b1 + 1))) bit
      else
        '(b1, p) ← next p;
        '(b2, p) ← next p;
        last cr p c0 (u32 (c + (Z.lor (Z.lor (Z.shiftl (b - 0x60) 16) (Z.shiftl b1 8)) b2 + 1))) bit
  end.

Definition unicode_prop1 (cr : CharRange) (prop_idx : Z) : option (CharRange * Z) :=
  table ← znth unicode_prop_table prop_idx;
  len ← znth unicode_prop_len_table prop_idx;
  p ← zslice table 0 len;
  prop_loop (length p) cr p 0 false.

Definition CASE_U : Z := 1.
Definition CASE_L : Z := 2.
Definition CASE_F : Z := 4.

Definition MR (types : list Z) : Z := foldr (fun t m => Z.lor (Z.shiftl 1 t) m) 0 types.

Definition RUN_TYPE_U_EXT3 : Z := 13.

Definition tab_run_mask : list Z :=
  [MR [RUN_TYPE_U; RUN_TYPE_UF; RUN_TYPE_UL; RUN_TYPE_LSU; RUN_TYPE_U2L_399_EXT2; RUN_TYPE_UF_D20;
       RUN_TYPE_UF_D1_EXT; RUN_TYPE_U_EXT; RUN_TYPE_U_EXT2; RUN_TYPE_U_EXT3];
   MR [RUN_TYPE_L; RUN_TYPE_LF; RUN_TYPE_UL; RUN_TYPE_LSU; RUN_TYPE_U2L_399_EXT2; RUN_TYPE_LF_EXT;
       RUN_TYPE_L_EXT2];
   MR [RUN_TYPE_UF; RUN_TYPE_LF; RUN_TYPE_UL; RUN_TYPE_LSU; RUN_TYPE_U2L_399_EXT2; RUN_TYPE_LF_EXT;
       RUN_TYPE_UF_D20; RUN_TYPE_UF_D1_EXT; RUN_TYPE_LF_EXT]].

Definition has (case_mask bits : Z) : bool := negb (Z.land case_mask bits =? 0).

(** [for(i = 0; i < len; i += 2)] *)
Fixpoint add_pairs (fuel : nat) (cr : CharRange) (code i len : Z) : option (CharRange * Z) :=
  match fuel with
  | O => None
  | S fuel' =>
      if i <? len then
        or_fail (cr_add_interval cr (code + i) (code + i + 1)) (fun cr => add_pairs fuel' cr code (i + 2) len)
      else Some (cr, 0)
  end.

Definition add_case_run (cr : CharRange) (case_mask v : Z) : option (CharRange * Z) :=
  let type := run_type v in
  let code := run_code v in
  let len := run_len v in
  let both := has case_mask CASE_U && has case_mask (Z.lor CASE_L CASE_F) in
  if (type =? RUN_TYPE_UL) && negb both then
    add_pairs (S (Z.to_nat len)) cr (code + Z.b2z (has case_mask CASE_U)) 0 len
  else if (type =? RUN_TYPE_LSU) && negb both then
    or_fail (cond_add (negb (has case_mask CASE_U)) cr code (code + 1)) (fun cr =>
    or_fail (cr_add_interval cr (code + 1) (code + 2)) (fun cr =>
    cond_add (has case_mask CASE_U) cr (code + 2) (code + 3)))
  else cr_add_interval cr code (code + len).

Fixpoint case_loop (cr : CharRange) (case_mask mask : Z) (l : list Z) : option (CharRange * Z) :=
  match l with
  | [] => Some (cr, 0)
  | v :: l' =>
      or_fail (if negb (Z.land (Z.shiftr mask (run_type v)) 1 =? 0) then add_case_run cr case_mask v
               else Some (cr, 0))
        (fun cr => case_loop cr case_mask mask l')
  end.

(** The masks of the bits of [case_mask]. *)
Fixpoint run_masks (l : list Z) (case_mask i : Z) : Z :=
  match l with
  | [] => 0
  | m :: l' =>
      Z.lor (if Z.land (Z.shiftr case_mask i) 1 =? 0 then 0 else m) (run_masks l' case_mask (i + 1))
  end.

Definition unicode_case1 (cr : CharRange) (case_mask : Z) : option (CharRange * Z) :=
  if case_mask =? 0 then Some (cr, 0)
  else case_loop cr case_mask (run_masks tab_run_mask case_mask 0) case_conv_table1.

(** ** Operations on properties *)

(** The arguments up to [POP_END]. *)
Inductive PropOp :=
  | POP_GC (mask : Z)
  | POP_PROP (prop_idx : Z)
  | POP_CASE (case_mask : Z)
  | POP_UNION
  | POP_INTER
  | POP_XOR
  | POP_INVERT.

Definition POP_STACK_LEN_MAX : nat := 4.

(** The stack with its top first; an assertion that fails is [None]. *)
Definition prop_push (stack : list CharRange) (fill : CharRange -> option (CharRange * Z))
  : option (option (list CharRange)) :=
  if (length stack <? POP_STACK_LEN_MAX)%nat then
    '(cr, r) ← fill cr_init;
    Some (if negb (r =? 0) then None else Some (cr :: stack))
  else None.

Definition prop_binary (stack : list CharRange) (op : CharRangeOp) : option (option (list CharRange)) :=
  match stack with
  | cr2 :: cr1 :: stack' =>
      if (length stack <? POP_STACK_LEN_MAX)%nat then
        '(cr3, r) ← cr_op cr_init (cr_points cr1) (cr_len cr1) (cr_points cr2) (cr_len cr2) op;
        Some (if negb (r =? 0) then None else Some (cr3 :: stack'))
      else None
  | _ => None
  end.

Definition prop_op (op : PropOp) (stack : list CharRange) : option (option (list CharRange)) :=
  match op with
  | POP_GC a => prop_push stack (fun cr => unicode_general_category1 cr a)
  | POP_PROP a => prop_push stack (fun cr => unicode_prop1 cr a)
  | POP_CASE a => prop_push stack (fun cr => unicode_case1 cr a)
  | POP_UNION => prop_binary stack CR_OP_UNION
  | POP_INTER => prop_binary stack CR_OP_INTER
  | POP_XOR => prop_binary stack CR_OP_XOR
  | POP_INVERT =>
      match stack with
      | cr :: stack' =>
          '(cr, r) ← cr_invert cr;
          Some (if negb (r =? 0) then None else Some (cr :: stack'))
      | [] => None
      end
  end.

Fixpoint prop_ops (ops : list PropOp) (stack : list CharRange) : option (option (list CharRange)) :=
  match ops with
  | [] => Some (Some stack)
  | op :: ops' =>
      r ← prop_op op stack;
      match r with
      | None => Some None
      | Some stack => prop_ops ops' stack
      end
  end.

Definition unicode_prop_ops (cr : CharRange) (ops : list PropOp) : option (CharRange * Z) :=
  r ← prop_ops ops [];
  match r with
  | None => Some (cr, -1)
  | Some [cr0] => cr_copy cr cr0
  | Some _ => None
  end.

(** ** The properties by name *)

Definition LETTERS : list Z :=
  [UNICODE_GC_Lu; UNICODE_GC_Ll; UNICODE_GC_Lt; UNICODE_GC_Lm; UNICODE_GC_Lo; UNICODE_GC_Nl].

(** How a property is computed. *)
Inductive PropSource :=
  | FromInterval (c1 c2 : Z)
  | FromOps (ops : list PropOp)
  | FromCase (case_mask : Z)
  | FromTable.

Definition prop_source (prop_idx : Z) : PropSource :=
  if prop_idx =? UNICODE_PROP_ASCII then FromInterval 0x00 (0x7f + 1)
  else if prop_idx =? UNICODE_PROP_Any then FromInterval 0x00000 (0x10ffff + 1)
  else if prop_idx =? UNICODE_PROP_Assigned then FromOps [POP_GC (M UNICODE_GC_Cn); POP_INVERT]
  else if prop_idx =? UNICODE_PROP_Math then
    FromOps [POP_GC (M UNICODE_GC_Sm); POP_PROP UNICODE_PROP_Other_Math; POP_UNION]
  else if prop_idx =? UNICODE_PROP_Lowercase then
    FromOps [POP_GC (M UNICODE_GC_Ll); POP_PROP UNICODE_PROP_Other_Lowercase; POP_UNION]
  else if prop_idx =? UNICODE_PROP_Uppercase then
    FromOps [POP_GC (M UNICODE_GC_Lu); POP_PROP UNICODE_PROP_Other_Uppercase; POP_UNION]
  else if prop_idx =? UNICODE_PROP_Cased then
    FromOps [POP_GC (Ms [UNICODE_GC_Lu; UNICODE_GC_Ll; UNICODE_GC_Lt]);
             POP_PROP UNICODE_PROP_Other_Uppercase; POP_UNION;
             POP_PROP UNICODE_PROP_Other_Lowercase; POP_UNION]
  else if prop_idx =? UNICODE_PROP_Alphabetic then
    FromOps [POP_GC (Ms LETTERS);
             POP_PROP UNICODE_PROP_Other_Uppercase; POP_UNION;
             POP_PROP UNICODE_PROP_Other_Lowercase; POP_UNION;
             POP_PROP UNICODE_PROP_Other_Alphabetic; POP_UNION]
  else if prop_idx =? UNICODE_PROP_Grapheme_Base then
    FromOps [POP_GC (Ms [UNICODE_GC_Cc; UNICODE_GC_Cf; UNICODE_GC_Cs; UNICODE_GC_Co; UNICODE_GC_Cn;
                         UNICODE_GC_Zl; UNICODE_GC_Zp; UNICODE_GC_Me; UNICODE_GC_Mn]);
             POP_PROP UNICODE_PROP_Other_Grapheme_Extend; POP_UNION; POP_INVERT]
  else if prop_idx =? UNICODE_PROP_Grapheme_Extend then
    FromOps [POP_GC (Ms [UNICODE_GC_Me; UNICODE_GC_Mn]);
             POP_PROP UNICODE_PROP_Other_Grapheme_Extend; POP_UNION]
  else if prop_idx =? UNICODE_PROP_XID_Start then
    FromOps [POP_GC (Ms LETTERS); POP_PROP UNICODE_PROP_Other_ID_Start; POP_UNION;
             POP_PROP UNICODE_PROP_Pattern_Syntax; POP_PROP UNICODE_PROP_Pattern_White_Space; POP_UNION;
             POP_PROP UNICODE_PROP_XID_Start1; POP_UNION; POP_INVERT; POP_INTER]
  else if prop_idx =? UNICODE_PROP_XID_Continue then
    FromOps [POP_GC (Ms (LETTERS ++ [UNICODE_GC_Mn; UNICODE_GC_Mc; UNICODE_GC_Nd; UNICODE_GC_Pc]));
             POP_PROP UNICODE_PROP_Other_ID_Start; POP_UNION;
             POP_PROP UNICODE_PROP_Other_ID_Continue; POP_UNION;
             POP_PROP UNICODE_PROP_Pattern_Syntax; POP_PROP UNICODE_PROP_Pattern_White_Space; POP_UNION;
             POP_PROP UNICODE_PROP_XID_Continue1; POP_UNION; POP_INVERT; POP_INTER]
  else if prop_idx =? UNICODE_PROP_Changes_When_Uppercased then FromCase CASE_U
  else if prop_idx =? UNICODE_PROP_Changes_When_Lowercased then FromCase CASE_L
  else if prop_idx =? UNICODE_PROP_Changes_When_Casemapped then
    FromCase (Z.lor CASE_U (Z.lor CASE_L CASE_F))
  else if prop_idx =? UNICODE_PROP_Changes_When_Titlecased then
    FromOps [POP_CASE CASE_U; POP_PROP UNICODE_PROP_Changes_When_Titlecased1; POP_XOR]
  else if prop_idx =? UNICODE_PROP_Changes_When_Casefolded then
    FromOps [POP_CASE CASE_F; POP_PROP UNICODE_PROP_Changes_When_Casefolded1; POP_XOR]
  else if prop_idx =? UNICODE_PROP_Changes_When_NFKC_Casefolded then
    FromOps [POP_CASE CASE_F; POP_PROP UNICODE_PROP_Changes_When_NFKC_Casefolded1; POP_XOR]
  else if prop_idx =? UNICODE_PROP_ID_Continue then
    FromOps [POP_PROP UNICODE_PROP_ID_Start; POP_PROP UNICODE_PROP_ID_Continue1; POP_XOR]
  else FromTable.

Definition unicode_prop (cr : CharRange) (prop_name : list Z) : option (CharRange * Z) :=
  prop_idx ← unicode_find_name unicode_prop_name_table prop_name;
  if prop_idx <? 0 then Some (cr, -2)
  else
    let prop_idx := prop_idx + UNICODE_PROP_ASCII_Hex_Digit in
    match prop_source prop_idx with
    | FromInterval c1 c2 => or_fail (cr_add_interval cr c1 c2) (fun cr => Some (cr, 0))
    | FromOps ops => unicode_prop_ops cr ops
    | FromCase case_mask => unicode_case1 cr case_mask
    | FromTable =>
        if prop_idx >=? zlen unicode_prop_table then Some (cr, -2)
        else unicode_prop1 cr prop_idx
    end.
End ranges.
