(* ===== verification/UnicodePropsOk.v ===== *)
(** * The tables of the properties denote their runs

    The tables of the properties are sequences of runs, and the functions that read them add
    intervals to a range from left to right.  What a run adds is compared with the set that
    it stands for, once for all the tables.  Reference decoders read a table as a list of
    runs, each with its length; the functions that fill a range from the table are shown to
    add exactly the characters of the runs that are asked for. *)

From S2P Require Import Prelude CStr DynBuf UnicodeTables CharRange PropTables UnicodeProps.

(** ** Lists of intervals *)

Fixpoint flat (l : list (Z * Z)) : list Z :=
  match l with [] => [] | (a, b) :: l' => a :: b :: flat l' end.

Fixpoint in_intervals (l : list (Z * Z)) (x : Z) : bool :=
  match l with [] => false | (a, b) :: l' => ((a <=? x) && (x <? b)) || in_intervals l' x end.

(** Nonempty disjoint intervals in increasing order, all between [lo] and [hi]. *)
Inductive within : Z -> Z -> list (Z * Z) -> Prop :=
  | within_nil lo hi : lo <= hi -> within lo hi []
  | within_cons lo hi a b l : lo <= a -> a < b -> within b hi l -> within lo hi ((a, b) :: l).

Lemma flat_app l l' : flat (l ++ l') = flat l ++ flat l'.
Proof. induction l as [|[a b] l IH]; cbn; [done|]. by rewrite IH. Qed.

Lemma flat_even l : Nat.even (length (flat l)) = true.
Proof. by induction l as [|[a b] l IH]. Qed.

Lemma cr_mem_flat l x : cr_mem (flat l) x = in_intervals l x.
Proof. induction l as [|[a b] l IH]; cbn; [done|]. by rewrite IH. Qed.

Lemma in_intervals_app l l' x : in_intervals (l ++ l') x = in_intervals l x || in_intervals l' x.
Proof. induction l as [|[a b] l IH]; cbn; [done|]. by rewrite IH, orb_assoc. Qed.

Lemma within_le lo hi l : within lo hi l -> lo <= hi.
Proof. induction 1; lia. Qed.

Lemma within_app lo mid hi l l' : within lo mid l -> within mid hi l' -> within lo hi (l ++ l').
Proof.
  induction 1 as [lo mid Hle|lo mid a b l Ha Hab _ IH]; intros Hl'; cbn.
  - destruct Hl' as [lo' hi ?|lo' hi a b l ? ? ?]; constructor; (done || lia).
  - constructor; [done|done|by apply IH].
Qed.

Lemma within_mono lo lo' hi hi' l : within lo hi l -> lo' <= lo -> hi <= hi' -> within lo' hi' l.
Proof.
  intros Hw. revert lo'. induction Hw as [lo hi ?|lo hi a b l ? ? _ IH]; intros lo' Hlo Hhi;
    constructor; [lia..|]. apply IH; lia.
Qed.

Lemma within_bounds lo hi l : within lo hi l -> Forall (fun p => lo <= p <= hi) (flat l).
Proof.
  induction 1 as [|lo hi a b l Ha Hab Hw IH]; cbn; constructor; [pose proof (within_le _ _ _ Hw); lia|].
  constructor; [pose proof (within_le _ _ _ Hw); lia|]. revert IH. apply Forall_impl. lia.
Qed.

Lemma within_intervals lo hi l : within lo hi l -> intervals (flat l).
Proof.
  induction 1 as [|lo hi a b l Ha Hab Hw IH]; cbn; constructor; [done|done|].
  apply within_bounds in Hw. revert Hw. apply Forall_impl. lia.
Qed.

Lemma within_outside lo hi l x : within lo hi l -> x < lo \/ hi <= x -> in_intervals l x = false.
Proof.
  induction 1 as [|lo hi a b l Ha Hab Hw IH]; intros Hx; cbn; [done|].
  pose proof (within_le _ _ _ Hw). rewrite IH by lia.
  repeat destruct_cmp; cbn; lia.
Qed.

(** ** The sets of runs *)

Section runs.
Context {T : Type} (value : T -> Z -> bool).

(** The character at the offset [x - c] of the run that contains it. *)
Fixpoint member (c : Z) (runs : list (Z * T)) (x : Z) : bool :=
  match runs with
  | [] => false
  | (len, t) :: runs' => if x <? c + len then value t (x - c) else member (c + len) runs' x
  end.

(** The characters whose run and offset have the value [true]. *)
Definition run_set (runs : list (Z * T)) (x : Z) : bool := (0 <=? x) && member 0 runs x.

Fixpoint total_len (runs : list (Z * T)) : Z :=
  match runs with [] => 0 | (len, _) :: runs' => len + total_len runs' end.

(** The intervals [l] are the part of the set in the run [t] of [len] characters at [c]. *)
Definition covers (c len : Z) (t : T) (l : list (Z * Z)) : Prop :=
  within c (c + len) l /\ forall x, c <= x < c + len -> in_intervals l x = value t (x - c).

Inductive covers_runs : Z -> list (Z * T) -> list (Z * Z) -> Prop :=
  | covers_nil c : covers_runs c [] []
  | covers_cons c len t runs l l' :
      0 < len -> covers c len t l -> covers_runs (c + len) runs l' ->
      covers_runs c ((len, t) :: runs) (l ++ l').

Lemma covers_runs_ok c runs l : covers_runs c runs l ->
  within c (c + total_len runs) l /\ forall x, in_intervals l x = (c <=? x) && member c runs x.
Proof.
  induction 1 as [c|c len t runs l l' Hlen [Hw Hx] _ [IHw IHx]]; cbn [total_len member].
  - split; [constructor; lia|]. intros x. cbn. by rewrite andb_false_r.
  - split; [eapply within_app; [exact Hw|]; eapply within_mono; [exact IHw|lia..]|].
    intros x. rewrite in_intervals_app, IHx. destruct (Z.ltb_spec x (c + len)).
    + rewrite (proj2 (Z.leb_gt (c + len) x)) by done. cbn [andb]. rewrite orb_false_r.
      destruct (Z.leb_spec c x); cbn [andb]; [by apply Hx|]. apply (within_outside _ _ _ _ Hw). lia.
    + rewrite (within_outside _ _ _ _ Hw) by lia. cbn [orb].
      rewrite (proj2 (Z.leb_le (c + len) x)), (proj2 (Z.leb_le c x)) by lia. done.
Qed.

Lemma covers_whole c len t : 0 < len -> (forall x, 0 <= x < len -> value t x = true) ->
  covers c len t [(c, c + len)].
Proof.
  intros Hlen Ht. split; [repeat constructor; lia|]. intros x Hx. cbn. rewrite Ht by lia.
  repeat destruct_cmp; cbn; lia.
Qed.

Lemma covers_none c len t : 0 < len -> (forall x, 0 <= x < len -> value t x = false) -> covers c len t [].
Proof. intros Hlen Ht. split; [constructor; lia|]. intros x Hx. cbn. by rewrite Ht by lia. Qed.

(** The run is in the set as a whole or not at all. *)
Lemma covers_cond c len t (b : bool) : 0 < len -> (forall x, 0 <= x < len -> value t x = b) ->
  covers c len t (if b then [(c, c + len)] else []).
Proof. destruct b; [apply covers_whole|apply covers_none]. Qed.
End runs.

(** ** Adding intervals *)

Section emits.
Context `{AllocatorOk}.

(** The result has the intervals [l] behind those of [cr], unless an allocation failed. *)
Definition emits (cr : CharRange) (l : list (Z * Z)) (o : option (CharRange * Z)) : Prop :=
  exists cr' r, o = Some (cr', r) /\ (r = 0 /\ cr_wf cr' /\ cr_pts cr' = cr_pts cr ++ flat l \/ r = -1).

Lemma emits_nil cr : cr_wf cr -> emits cr [] (Some (cr, 0)).
Proof. intros Hcr. exists cr, 0. split; [done|]. left. by rewrite app_nil_r. Qed.

Lemma emits_or_fail cr l l' o k :
  emits cr l o -> (forall cr', cr_wf cr' -> emits cr' l' (k cr')) -> emits cr (l ++ l') (or_fail o k).
Proof.
  intros (cr1 & r1 & -> & H1) Hk. unfold or_fail. cbn [mbind option_bind].
  destruct H1 as [(-> & Hwf & Hp)| ->]; cbn [Z.eqb negb]; [|exists cr1, (-1); auto].
  destruct (Hk cr1 Hwf) as (cr2 & r2 & -> & H2). exists cr2, r2. split; [done|].
  destruct H2 as [(-> & ? & Hp2)| ->]; [left|by right]. split; [done|]. split; [done|].
  by rewrite Hp2, Hp, flat_app, app_assoc.
Qed.

Lemma emits_or_fail_nil cr l o k :
  emits cr [] o -> (forall cr', cr_wf cr' -> emits cr' l (k cr')) -> emits cr l (or_fail o k).
Proof. apply (emits_or_fail cr [] l). Qed.

Lemma cr_add_interval_emits cr c1 c2 : cr_wf cr -> emits cr [(c1, c2)] (cr_add_interval cr c1 c2).
Proof.
  intros Hwf. unfold cr_add_interval, emits. rewrite Z.gtb_ltb.
  assert (Hg : let '(cr', r) :=
      if cr_size cr <? cr_len cr + 2 then cr_realloc cr (cr_len cr + 2) else (cr, 0) in
    (r = 0 /\ cr_wf cr' /\ cr_len cr' = cr_len cr /\ cr_pts cr' = cr_pts cr
       /\ cr_len cr + 2 <= cr_size cr') \/ r = -1).
  { destruct (Z.ltb_spec (cr_size cr) (cr_len cr + 2)).
    - pose proof (cr_realloc_spec cr (cr_len cr + 2) Hwf) as Hr.
      destruct (cr_realloc _ _) as [cr' r]. destruct Hr as [(? & ? & ? & ? & ?)|[? _]]; auto 6.
    - left. split_and!; try done. }
  destruct (if _ <? _ then _ else _) as [cr' r].
  destruct Hg as [(-> & [Hl Hz] & Hlen & Hp & Hs)| ->]; cbn [Z.eqb negb]; [|eauto].
  rewrite zupd_is_Some by lia. cbn [mbind option_bind].
  rewrite zupd_is_Some by (rewrite zlen_insert; lia). cbn [mbind option_bind].
  eexists _, 0. split; [done|]. left.
  unfold cr_wf, cr_pts. cbn. rewrite !zlen_insert. split_and!; try done; try lia.
  replace (cr_len cr' + 2) with (cr_len cr' + 1 + 1) by lia.
  rewrite take_insert_snoc by (rewrite zlen_insert; lia). rewrite take_insert_snoc by lia.
  rewrite <- app_assoc. cbn. f_equal. exact Hp.
Qed.

Lemma cond_add_emits (b : bool) cr c1 c2 : cr_wf cr ->
  emits cr (if b then [(c1, c2)] else []) (cond_add b cr c1 c2).
Proof. intros Hwf. destruct b; cbn; [by apply cr_add_interval_emits|by apply emits_nil]. Qed.

(** The contract of a function that fills an empty range. *)
Definition fills (o : option (CharRange * Z)) (set : Z -> bool) : Prop :=
  exists cr r, o = Some (cr, r) /\
    (r = 0 /\ cr_denotes cr set /\ Forall cr_point (cr_pts cr) \/ r = -1).

Lemma emits_fills o l hi set : emits cr_init l o -> within 0 hi l -> hi <= 2 ^ 30 ->
  (forall x, in_intervals l x = set x) -> fills o set.
Proof.
  intros (cr & r & -> & Hr) Hw Hhi Hset. exists cr, r. split; [done|].
  destruct Hr as [(-> & Hwf & Hp)| ->]; [left|by right]. split; [done|].
  change (cr_pts cr_init) with (@nil Z) in Hp. cbn [app] in Hp. rewrite Hp. split.
  - split; [done|]. rewrite Hp. split_and!; [by eapply within_intervals|apply flat_even|].
    intros x. by rewrite cr_mem_flat.
  - apply within_bounds in Hw. revert Hw. apply Forall_impl. intros p Hpr. left. lia.
Qed.

(** A table whose runs are covered by what a function emits. *)
Lemma covers_fills {T} (value : T -> Z -> bool) runs o :
  (exists l, covers_runs value 0 runs l /\ emits cr_init l o) -> total_len runs <= 2 ^ 30 ->
  fills o (run_set value runs).
Proof.
  intros (l & Hl & He) Ht. destruct (covers_runs_ok _ _ _ _ Hl) as [Hw Hx].
  eapply emits_fills; [exact He|exact Hw|lia|]. done.
Qed.
End emits.

(** ** Reference decoders *)

Fixpoint gc_decode (fuel : nat) (p : list Z) : option (list (Z * Z)) :=
  match fuel, p with
  | _, [] => Some []
  | O, _ => None
  | S fuel', _ => '(n, v, p) ← gc_run p; l ← gc_decode fuel' p; Some ((n + 1, v) :: l)
  end.

Fixpoint script_decode (fuel : nat) (p : list Z) : option (list (Z * Z)) :=
  match fuel, p with
  | _, [] => Some []
  | O, _ => None
  | S fuel', _ => '(n, v, p) ← script_run p; l ← script_decode fuel' p; Some ((n + 1, v) :: l)
  end.

Fixpoint script_ext_decode (fuel : nat) (p : list Z) : option (list (Z * list Z)) :=
  match fuel, p with
  | _, [] => Some []
  | O, _ => None
  | S fuel', _ => '(n, vs, p) ← script_ext_run p; l ← script_ext_decode fuel' p; Some ((n + 1, vs) :: l)
  end.

(** The lengths of the runs of a property, which alternate. *)
Fixpoint prop_decode (fuel : nat) (p : list Z) (bit : bool) : option (list (Z * bool)) :=
  match fuel, p with
  | _, [] => Some []
  | O, _ => None
  | S fuel', b :: p =>
      if b <? 64 then
        l ← prop_decode fuel' p bit;
        Some ((Z.shiftr b 3 + 1, bit) :: (Z.land b 7 + 1, negb bit) :: l)
      else if b >=? 0x80 then
        l ← prop_decode fuel' p (negb bit); Some ((b - 0x80 + 1, bit) :: l)
      else if b <? 0x60 then
        '(b1, p) ← next p;
        l ← prop_decode fuel' p (negb bit);
        Some ((Z.lor (Z.shiftl (b - 0x40) 8) b1 + 1, bit) :: l)
      else
        '(b1, p) ← next p;
        '(b2, p) ← next p;
        l ← prop_decode fuel' p (negb bit);
        Some ((Z.lor (Z.lor (Z.shiftl (b - 0x60) 16) (Z.shiftl b1 8)) b2 + 1, bit) :: l)
  end.

(** The runs are not empty. *)
Definition runs_ok {T} (runs : list (Z * T)) : Prop := Forall (fun r => 0 < r.1) runs.
Definition runs_okb {T} (runs : list (Z * T)) : bool :=
  forallb (fun r => 0 <? r.1) runs && (total_len runs <=? 2 ^ 30).

Lemma runs_okb_ok {T} (runs : list (Z * T)) : runs_okb runs = true ->
  runs_ok runs /\ total_len runs <= 2 ^ 30.
Proof.
  unfold runs_okb. intros [Hf Hl%Z.leb_le]%andb_prop. split; [|done].
  apply List.Forall_forall. intros r Hr. rewrite forallb_forall in Hf. by apply Z.ltb_lt, Hf.
Qed.

Lemma runs_ok_cons {T} len (t : T) runs : runs_ok ((len, t) :: runs) -> 0 < len /\ runs_ok runs.
Proof. intros Hr. by inversion_clear Hr. Qed.

Lemma runs_total {T} (runs : list (Z * T)) : runs_ok runs -> 0 <= total_len runs.
Proof. induction 1 as [|[len t] runs Hlen _ IH]; cbn in *; lia. Qed.

(** The value of a run of a category: capital and small letters alternate in the runs of 31. *)
Definition gc_value (mask v off : Z) : bool :=
  if v =? 31 then Z.testbit mask (if Z.even off then UNICODE_GC_Lu else UNICODE_GC_Ll)
  else Z.testbit mask v.

Definition script_value (script_idx v off : Z) : bool := v =? script_idx.
Definition script_ext_value (is_common : bool) (script_idx : Z) (vs : list Z) (off : Z) : bool :=
  if is_common then negb (zlen vs =? 0) else existsb (fun v => v =? script_idx) vs.
Definition prop_value (bit : bool) (off : Z) : bool := bit.

(** ** Every second character *)

Fixpoint evens (n : nat) (a c : Z) : list (Z * Z) :=
  match n with
  | O => []
  | S n' => if a <? c then (a, a + 1) :: evens n' (a + 2) c else []
  end.

Lemma evens_within n a c lo : lo <= a -> lo <= c -> within lo c (evens n a c).
Proof.
  revert a lo. induction n as [|n IH]; intros a lo Ha Hc; cbn [evens]; [by constructor|].
  destruct (Z.ltb_spec a c); [|by constructor]. constructor; [done|lia|]. apply IH; lia.
Qed.

Lemma evens_mem n a c x : c - a < 2 * Z.of_nat n ->
  in_intervals (evens n a c) x = (a <=? x) && (x <? c) && Z.even (x - a).
Proof.
  revert a. induction n as [|n IH]; intros a Hn; cbn [evens].
  { repeat destruct_cmp; cbn; (done || lia). }
  destruct (Z.ltb_spec a c); [|repeat destruct_cmp; cbn; (done || lia)].
  cbn [in_intervals]. rewrite IH by lia. replace (x - (a + 2)) with (x - a + 2 * (-1)) by lia.
  rewrite Z.even_add_mul_2. destruct (Z.eq_dec x (a + 1)) as [->|Hne].
  - replace (a + 1 - a) with 1 by lia. cbn [Z.even]. rewrite !andb_false_r. repeat destruct_cmp; cbn; (done || lia).
  - destruct (Z.eq_dec x a) as [->|Hne'].
    + rewrite Z.sub_diag. cbn [Z.even]. rewrite !andb_true_r. repeat destruct_cmp; cbn; (done || lia).
    + destruct (Z.even (x - a)); rewrite ?andb_true_r, ?andb_false_r; repeat destruct_cmp; cbn; (done || lia).
Qed.

(** Decides the equations between constants. *)
Ltac eqb_closed :=
  repeat match goal with
  | |- context [?a =? ?b] =>
      let v := eval compute in (a =? b) in
      lazymatch v with
      | true => change (a =? b) with true
      | false => change (a =? b) with false
      end
  end; cbn [negb Z.b2z].

Section emits.
Context `{AllocatorOk}.

Lemma add_every_second_emits n cr a c : cr_wf cr -> 0 <= a -> c + 2 < 2 ^ 32 -> c - a < Z.of_nat n ->
  (0 < n)%nat -> emits cr (evens n a c) (add_every_second n cr a c).
Proof.
  revert cr a. induction n as [|n IH]; intros cr a Hwf Ha Hc Hn Hp; [lia|]. cbn [evens add_every_second].
  destruct (Z.ltb_spec a c); [|by apply emits_nil]. rewrite !u32_small by lia.
  apply (emits_or_fail _ [(a, a + 1)]); [by apply cr_add_interval_emits|]. intros cr' Hwf'.
  apply IH; done || lia.
Qed.

(** ** General categories *)

Lemma land_Lu_Ll mask : Z.land mask (Ms [UNICODE_GC_Lu; UNICODE_GC_Ll]) =
    2 * Z.b2z (Z.testbit mask 1) + 4 * Z.b2z (Z.testbit mask 2) /\
  Z.land mask (M UNICODE_GC_Ll) = 4 * Z.b2z (Z.testbit mask 2).
Proof.
  change (Ms [UNICODE_GC_Lu; UNICODE_GC_Ll]) with (Z.land (Z.ones 3) 6).
  change (M UNICODE_GC_Ll) with (Z.land (Z.ones 3) 4). rewrite !Z.land_assoc, !Z.land_ones by lia.
  rewrite <- (Z.mod_pow2_bits_low mask 3 1), <- (Z.mod_pow2_bits_low mask 3 2) by lia.
  pose proof (Z.mod_pos_bound mask (2 ^ 3) ltac:(lia)) as Hr. set (r := mask mod 2 ^ 3) in *. clearbody r.
  assert (r = 0 \/ r = 1 \/ r = 2 \/ r = 3 \/ r = 4 \/ r = 5 \/ r = 6 \/ r = 7) as Hcs by lia.
  by destruct Hcs as [-> |[-> |[-> |[-> |[-> |[-> |[-> | ->]]]]]]].
Qed.

(** [(mask >> v) & 1] *)
Lemma shiftr_land_1 mask v : 0 <= v -> negb (Z.land (Z.shiftr mask v) 1 =? 0) = Z.testbit mask v.
Proof. intros Hv. rewrite land_1_odd, <- Z.testbit_odd. by destruct (Z.testbit mask v). Qed.

Lemma add_gc_run_emits mask v c0 len : 0 <= c0 -> 0 < len -> c0 + len + 2 < 2 ^ 32 ->
  0 <= v -> exists l, covers (gc_value mask) c0 len v l /\ forall cr, cr_wf cr -> emits cr l (add_gc_run cr mask v c0 (c0 + len)).
Proof.
  intros Hc0 Hlen Hc Hv0. unfold add_gc_run. destruct (Z.eqb_spec v 31) as [->|Hv].
  - destruct (land_Lu_Ll mask) as [-> ->]. change (Ms [UNICODE_GC_Lu; UNICODE_GC_Ll]) with 6.
    destruct (Z.testbit mask 1) eqn:E1, (Z.testbit mask 2) eqn:E2; cbn [Z.b2z]; eqb_closed.
    + exists [(c0, c0 + len)]. split; [|intros; by apply cr_add_interval_emits]. apply covers_whole; [done|].
      intros x _. unfold gc_value, UNICODE_GC_Lu, UNICODE_GC_Ll. cbn. by destruct (Z.even x).
    + rewrite u32_small by lia. eexists. split; [|intros; apply add_every_second_emits; done || lia].
      split; [apply evens_within; lia|]. intros x Hx. rewrite evens_mem, Z.add_0_r by lia.
      unfold gc_value, UNICODE_GC_Lu, UNICODE_GC_Ll. cbn.
      destruct (Z.even (x - c0)); rewrite ?E1, ?E2; repeat destruct_cmp; cbn; (done || lia).
    + rewrite u32_small by lia. eexists. split; [|intros; apply add_every_second_emits; done || lia].
      split; [apply evens_within; lia|]. intros x Hx. rewrite evens_mem by lia.
      replace (x - (c0 + 1)) with (Z.pred (x - c0)) by lia. rewrite Z.even_pred, <- Z.negb_even.
      unfold gc_value, UNICODE_GC_Lu, UNICODE_GC_Ll. cbn.
      destruct (Z.even (x - c0)) eqn:Ee; rewrite ?E1, ?E2; repeat destruct_cmp; cbn; (done || lia || idtac).
      assert (x = c0) as -> by lia. rewrite Z.sub_diag in Ee. done.
    + exists []. split; [|intros; by apply emits_nil]. apply covers_none; [done|].
      intros x _. unfold gc_value, UNICODE_GC_Lu, UNICODE_GC_Ll. cbn. by destruct (Z.even x).
  - rewrite shiftr_land_1 by done. exists (if Z.testbit mask v then [(c0, c0 + len)] else []). split.
    + apply covers_cond; [done|]. intros x _. unfold gc_value. by rewrite (proj2 (Z.eqb_neq _ _) Hv).
    + intros. by apply cond_add_emits.
Qed.

(** The values of the runs are not negative. *)
Definition tags_ok (runs : list (Z * Z)) : Prop := Forall (fun r => 0 <= r.2) runs.

Lemma gc_loop_emits mask fuel p runs c : gc_decode fuel p = Some runs -> runs_ok runs -> tags_ok runs ->
  0 <= c -> c + total_len runs + 2 < 2 ^ 32 ->
  exists l, covers_runs (gc_value mask) c runs l /\
    forall cr, cr_wf cr -> emits cr l (gc_loop fuel cr mask p c).
Proof.
  revert p runs c. induction fuel as [|fuel IH]; intros [|b p] runs c; cbn [gc_decode gc_loop];
    try done; try (intros [= <-] _ _ _ _; exists []; split; [constructor|intros; by apply emits_nil]).
  destruct (gc_run (b :: p)) as [[[n v] p']|]; [|done]. cbn [mbind option_bind].
  destruct (gc_decode fuel p') as [l|] eqn:El; [|done]. cbn [mbind option_bind].
  intros [= <-] [Hn Hok]%runs_ok_cons Htags Hc Ht. inversion_clear Htags as [|? ? Hv Htags']. cbn [snd total_len] in *.
  pose proof (runs_total _ Hok). rewrite u32_small by lia.
  destruct (add_gc_run_emits mask v c (n + 1)) as (l1 & Hc1 & He1); [lia..|].
  destruct (IH p' l (c + (n + 1)) El Hok Htags' ltac:(lia) ltac:(lia)) as (l2 & Hc2 & He2).
  exists (l1 ++ l2). split; [by constructor|]. intros cr Hwf. apply emits_or_fail; [by apply He1|exact He2].
Qed.

(** ** Scripts *)

Lemma script_loop_emits idx fuel p runs c : script_decode fuel p = Some runs -> runs_ok runs ->
  0 <= c -> c + total_len runs < 2 ^ 32 ->
  exists l, covers_runs (script_value idx) c runs l /\
    forall cr, cr_wf cr -> emits cr l (script_loop fuel cr idx p c).
Proof.
  revert p runs c. induction fuel as [|fuel IH]; intros [|b p] runs c; cbn [script_decode script_loop];
    try done; try (intros [= <-] _ _ _; exists []; split; [constructor|intros; by apply emits_nil]).
  destruct (script_run (b :: p)) as [[[n v] p']|]; [|done]. cbn [mbind option_bind].
  destruct (script_decode fuel p') as [l|] eqn:El; [|done]. cbn [mbind option_bind].
  intros [= <-] [Hn Hok]%runs_ok_cons Hc Ht. cbn [total_len] in *.
  pose proof (runs_total _ Hok). replace (c + n + 1) with (c + (n + 1)) by lia. rewrite u32_small by lia.
  destruct (IH p' l (c + (n + 1)) El Hok ltac:(lia) ltac:(lia)) as (l2 & Hc2 & He2).
  exists ((if v =? idx then [(c, c + (n + 1))] else []) ++ l2). split.
  - constructor; [done| |done]. by apply covers_cond.
  - intros cr Hwf. apply emits_or_fail; [by apply cond_add_emits|exact He2].
Qed.

Lemma script_ext_loop_emits common idx fuel p runs c : script_ext_decode fuel p = Some runs -> runs_ok runs ->
  0 <= c -> c + total_len runs < 2 ^ 32 ->
  exists l, covers_runs (script_ext_value common idx) c runs l /\
    forall cr, cr_wf cr -> emits cr l (script_ext_loop fuel cr common idx p c).
Proof.
  revert p runs c. induction fuel as [|fuel IH]; intros [|b p] runs c; cbn [script_ext_decode script_ext_loop];
    try done; try (intros [= <-] _ _ _; exists []; split; [constructor|intros; by apply emits_nil]).
  destruct (script_ext_run (b :: p)) as [[[n vs] p']|]; [|done]. cbn [mbind option_bind].
  destruct (script_ext_decode fuel p') as [l|] eqn:El; [|done]. cbn [mbind option_bind].
  intros [= <-] [Hn Hok]%runs_ok_cons Hc Ht. cbn [total_len] in *.
  pose proof (runs_total _ Hok). replace (c + n + 1) with (c + (n + 1)) by lia. rewrite u32_small by lia.
  destruct (IH p' l (c + (n + 1)) El Hok ltac:(lia) ltac:(lia)) as (l2 & Hc2 & He2).
  set (add := if common then _ else _).
  exists ((if add then [(c, c + (n + 1))] else []) ++ l2). split.
  - constructor; [done| |done]. by apply covers_cond.
  - intros cr Hwf. apply emits_or_fail; [by apply cond_add_emits|exact He2].
Qed.

(** ** Properties *)

Lemma prop_loop_emits fuel p runs c bit : prop_decode fuel p bit = Some runs -> runs_ok runs ->
  0 <= c -> c + total_len runs < 2 ^ 32 ->
  exists l, covers_runs prop_value c runs l /\
    forall cr, cr_wf cr -> emits cr l (prop_loop fuel cr p c bit).
Proof.
  revert p runs c bit. induction fuel as [|fuel IH]; intros [|b p] runs c bit; cbn [prop_decode prop_loop];
    try done; try (intros [= <-] _ _ _; exists []; split; [constructor|intros; by apply emits_nil]).
  assert (Hlast : forall p' len l c bit, prop_decode fuel p' (negb bit) = Some l -> runs_ok ((len, bit) :: l) ->
    0 <= c -> c + total_len ((len, bit) :: l) < 2 ^ 32 ->
    exists l', covers_runs prop_value c ((len, bit) :: l) l' /\ forall cr, cr_wf cr ->
      emits cr l' (or_fail (cond_add bit cr c (u32 (c + len)))
        (fun cr => prop_loop fuel cr p' (u32 (c + len)) (negb bit)))).
  { clear p runs c bit. intros p' len l c bit El [Hn Hok]%runs_ok_cons Hc Ht. cbn [total_len] in *.
    pose proof (runs_total _ Hok). rewrite u32_small by lia.
    destruct (IH p' l (c + len) (negb bit) El Hok ltac:(lia) ltac:(lia)) as (l2 & Hc2 & He2).
    exists ((if bit then [(c, c + len)] else []) ++ l2). split.
    - constructor; [done| |done]. by apply covers_cond.
    - intros cr Hwf. apply emits_or_fail; [by apply cond_add_emits|exact He2]. }
  destruct (b <? 64).
  - destruct (prop_decode fuel p bit) as [l|] eqn:El; [|done]. cbn [mbind option_bind].
    intros [= <-] [Hn Hok]%runs_ok_cons Hc Ht. pose proof (runs_total _ Hok). cbn [total_len] in *.
    destruct (Hlast p (Z.land b 7 + 1) l (c + (Z.shiftr b 3 + 1)) (negb bit)) as (l2 & Hc2 & He2);
      [by rewrite negb_involutive|done|lia|cbn [total_len]; lia|].
    rewrite (u32_small (c + (Z.shiftr b 3 + 1))) by lia.
    exists ((if bit then [(c, c + (Z.shiftr b 3 + 1))] else []) ++ l2). split.
    + constructor; [done| |done]. by apply covers_cond.
    + intros cr Hwf. apply emits_or_fail; [by apply cond_add_emits|exact He2].
  - destruct (b >=? 0x80); [|destruct (b <? 0x60)];
      repeat (match goal with |- context [next ?p] => destruct (next p) as [[? ?]|] end; [|done]; cbn [mbind option_bind]);
      (match goal with |- context [prop_decode fuel ?p ?b] => destruct (prop_decode fuel p b) as [lr|] eqn:El end; [|done]);
      cbn [mbind option_bind]; intros [= <-] Hok Hc Ht; by apply Hlast.
Qed.
End emits.
