(* ===== verification/UnicodeCase.v ===== *)
(** * The characters that a case conversion changes

    [unicode_case1] reads the runs of the conversion table by their types; its set is compared
    with [lre_case_conv] itself. *)

From Stdlib Require Import Sorted.
From S2P Require Import Prelude CStr UnicodeTables RunSearch CaseConv PropTables DynBuf CharRange.
From S2P Require Import UnicodeProps UnicodePropsOk.

(** ** What is added *)

Fixpoint pairs (fuel : nat) (code i len : Z) : list (Z * Z) :=
  match fuel with
  | O => []
  | S fuel' => if i <? len then (code + i, code + i + 1) :: pairs fuel' code (i + 2) len else []
  end.

Definition run_intervals (m v : Z) : list (Z * Z) :=
  let code := run_code v in
  let len := run_len v in
  let both := has m CASE_U && has m (Z.lor CASE_L CASE_F) in
  if (run_type v =? RUN_TYPE_UL) && negb both then
    pairs (S (Z.to_nat len)) (code + Z.b2z (has m CASE_U)) 0 len
  else if (run_type v =? RUN_TYPE_LSU) && negb both then
    (if negb (has m CASE_U) then [(code, code + 1)] else []) ++ (code + 1, code + 2) ::
    (if has m CASE_U then [(code + 2, code + 3)] else [])
  else [(code, code + len)].

Definition masked_intervals (m mask v : Z) : list (Z * Z) :=
  if negb (Z.land (Z.shiftr mask (run_type v)) 1 =? 0) then run_intervals m v else [].

(** The set of the masks [m]. *)
Definition case_intervals (m : Z) : list (Z * Z) :=
  flat_map (masked_intervals m (run_masks tab_run_mask m 0)) case_conv_table1.

Section emits.
Context `{AllocatorOk}.

Lemma add_pairs_emits n cr code i len : cr_wf cr -> len - i < Z.of_nat n -> (0 < n)%nat ->
  emits cr (pairs n code i len) (add_pairs n cr code i len).
Proof.
  revert cr i. induction n as [|n IH]; intros cr i Hwf Hn Hp; [lia|]. cbn [pairs add_pairs].
  destruct (Z.ltb_spec i len); [|by apply emits_nil].
  apply (emits_or_fail _ [(code + i, code + i + 1)]); [by apply cr_add_interval_emits|].
  intros cr' Hwf'. apply IH; done || lia.
Qed.

Lemma add_case_run_emits cr m v : cr_wf cr -> emits cr (run_intervals m v) (add_case_run cr m v).
Proof.
  intros Hwf. unfold add_case_run, run_intervals. set (both := _ && has _ _).
  destruct ((run_type v =? RUN_TYPE_UL) && negb both); [apply add_pairs_emits; done || lia|].
  destruct ((run_type v =? RUN_TYPE_LSU) && negb both); [|by apply cr_add_interval_emits].
  apply emits_or_fail; [by apply cond_add_emits|]. intros cr1 Hwf1.
  apply (emits_or_fail _ [_]); [by apply cr_add_interval_emits|]. intros cr2 Hwf2. by apply cond_add_emits.
Qed.

Lemma case_loop_emits cr m mask l : cr_wf cr ->
  emits cr (flat_map (masked_intervals m mask) l) (case_loop cr m mask l).
Proof.
  revert cr. induction l as [|v l IH]; intros cr Hwf; cbn [case_loop flat_map]; [by apply emits_nil|].
  apply emits_or_fail; [|exact IH]. unfold masked_intervals.
  destruct (negb _); [by apply add_case_run_emits|by apply emits_nil].
Qed.
End emits.

(** ** The characters that change *)

Definition changes (c conv_type : Z) : bool :=
  match lre_case_conv c conv_type with Some l => negb (bool_decide (l = [c])) | None => false end.

(** The conversions of the bits of a mask. *)
Definition conversions (m : Z) : list Z :=
  (if has m CASE_U then [0] else []) ++ (if has m CASE_L then [1] else []) ++ (if has m CASE_F then [2] else []).

Definition case_set (m x : Z) : bool := (0 <=? x) && existsb (changes x) (conversions m).

(** *** The table, run by run *)

Definition run_changes (m idx v c : Z) : bool :=
  existsb (fun t => match case_conv_run idx v c t with Some l => negb (bool_decide (l = [c])) | None => false end)
    (conversions m).

Definition run_ok (m mask idx v : Z) : bool :=
  let l := masked_intervals m mask v in
  forallb (fun c => Bool.eqb (in_intervals l c) (run_changes m idx v c)) (seqZ (run_code v) (run_len v)).

Fixpoint withinb (lo hi : Z) (l : list (Z * Z)) : bool :=
  match l with
  | [] => lo <=? hi
  | (a, b) :: l' => (lo <=? a) && (a <? b) && withinb b hi l'
  end.

Lemma withinb_ok lo hi l : withinb lo hi l = true -> within lo hi l.
Proof.
  revert lo. induction l as [|[a b] l IH]; intros lo; cbn [withinb]; intros Hw; zify_bools; constructor; auto.
Qed.

Fixpoint runs_checked (m mask idx : Z) (l : list Z) : bool :=
  match l with
  | [] => true
  | v :: l' =>
      withinb (run_code v) (run_code v + run_len v) (masked_intervals m mask v) && run_ok m mask idx v &&
      runs_checked m mask (idx + 1) l'
  end.

Definition case_checked (m : Z) : bool :=
  runs_checked m (run_masks tab_run_mask m 0) 0 case_conv_table1 &&
  withinb 0 0x110000 (case_intervals m) &&
  forallb (fun c => Bool.eqb (in_intervals (case_intervals m) c) (case_set m c)) (seqZ 0 128).

Lemma runs_checked_nth m mask l idx k v : runs_checked m mask idx l = true -> znth l k = Some v ->
  within (run_code v) (run_code v + run_len v) (masked_intervals m mask v) /\ run_ok m mask (idx + k) v = true.
Proof.
  revert idx k. induction l as [|w l IH]; intros idx k Hc Hk.
  { apply znth_Some_range in Hk. unfold zlen in Hk. cbn in Hk. lia. }
  cbn [runs_checked] in Hc. zify_bools. pose proof (znth_Some_range _ _ _ Hk).
  destruct (decide (k = 0)) as [->|].
  - rewrite znth_cons_0 in Hk. injection Hk as <-. rewrite Z.add_0_r. split; [by apply withinb_ok|done].
  - rewrite znth_cons_S in Hk by lia. replace (idx + k) with (idx + 1 + (k - 1)) by lia. by apply IH.
Qed.

Lemma in_intervals_flat_map {A} (f : A -> list (Z * Z)) l x :
  in_intervals (flat_map f l) x = existsb (fun v => in_intervals (f v) x) l.
Proof. induction l as [|v l IH]; cbn; [done|]. by rewrite in_intervals_app, IH. Qed.

(** Only the run of a character can contain it. *)
Lemma case_intervals_run m x : case_checked m = true ->
  in_intervals (case_intervals m) x =
  match scan_run run_code run_len 0 case_conv_table1 x with
  | Some (k, v) => run_changes m k v x
  | None => false
  end.
Proof.
  unfold case_checked. intros [[Hruns _]%andb_prop _]%andb_prop. set (mask := run_masks tab_run_mask m 0) in *.
  assert (Hother : forall k v, znth case_conv_table1 k = Some v -> ~ in_run run_code run_len v x ->
    in_intervals (masked_intervals m mask v) x = false).
  { intros k v Hk Hin. destruct (runs_checked_nth _ _ _ _ _ _ Hruns Hk) as [Hw _].
    apply (within_outside _ _ _ _ Hw). unfold in_run in Hin. lia. }
  unfold case_intervals. fold mask. rewrite in_intervals_flat_map.
  pose proof (scan_run_spec run_code run_len case_conv_table1 x 0) as Hs.
  destruct (scan_run _ _ _ _ _) as [[k v]|].
  - destruct Hs as (_ & Hk & Hin). rewrite Z.sub_0_r in Hk.
    destruct (runs_checked_nth _ _ _ _ _ _ Hruns Hk) as [_ Hok]. rewrite Z.add_0_l in Hok.
    assert (Hv : in_intervals (masked_intervals m mask v) x = run_changes m k v x).
    { unfold run_ok in Hok. rewrite forallb_forall in Hok. apply eqb_prop, Hok.
      apply list_elem_of_In, elem_of_seqZ. unfold in_run in Hin. lia. }
    apply eq_true_iff_eq. rewrite existsb_exists, <- Hv. split.
    + intros (w & Hw & Hx). apply list_elem_of_In, list_elem_of_lookup in Hw as [j Hj].
      assert (Hj' : znth case_conv_table1 (Z.of_nat j) = Some w) by (rewrite znth_lookup, Nat2Z.id by lia; done).
      destruct (decide (w = v)) as [->|Hne]; [done|]. rewrite (Hother _ _ Hj') in Hx; [done|]. intros Hin'.
      pose proof (runs_disjoint _ _ _ _ _ _ _ _ case_conv_table1_sorted Hk Hj' Hin Hin'). congruence.
    + intros Hx. exists v. split; [|done]. rewrite znth_lookup in Hk by (apply znth_Some_range in Hk; lia).
      apply list_elem_of_In. by eapply list_elem_of_lookup_2.
  - apply not_true_iff_false. rewrite existsb_exists. intros (w & Hw & Hx).
    apply list_elem_of_In, list_elem_of_lookup in Hw as [j Hj].
    assert (Hj' : znth case_conv_table1 (Z.of_nat j) = Some w) by (rewrite znth_lookup, Nat2Z.id by lia; done).
    rewrite (Hother _ _ Hj') in Hx; [done|]. by eapply Hs.
Qed.

Lemma case_intervals_within m : case_checked m = true -> within 0 0x110000 (case_intervals m).
Proof. unfold case_checked. intros [[_ Hw]%andb_prop _]%andb_prop. by apply withinb_ok. Qed.

Lemma existsb_same {A} (f g : A -> bool) l : (forall x, f x = g x) -> existsb f l = existsb g l.
Proof. intros Hfg. induction l as [|x l IH]; cbn; [done|]. by rewrite Hfg, IH. Qed.

Lemma case_intervals_set m x : case_checked m = true -> in_intervals (case_intervals m) x = case_set m x.
Proof.
  intros Hc. destruct (Z.ltb_spec x 128) as [Hx|Hx].
  - destruct (Z.leb_spec 0 x) as [H0|H0].
    + unfold case_checked in Hc. apply andb_prop in Hc as [_ Hascii]. rewrite forallb_forall in Hascii.
      apply eqb_prop, Hascii. apply list_elem_of_In, elem_of_seqZ. lia.
    + unfold case_set. rewrite (proj2 (Z.leb_gt 0 x)) by done. cbn [andb].
      apply (within_outside _ _ _ _ (case_intervals_within m Hc)). lia.
  - rewrite case_intervals_run by done. unfold case_set. rewrite (proj2 (Z.leb_le 0 x)) by lia. cbn [andb].
    assert (Hconv : forall t, lre_case_conv x t = match scan_run run_code run_len 0 case_conv_table1 x with
      | Some (k, v) => case_conv_run k v x t | None => Some [x] end).
    { intros t. unfold lre_case_conv. rewrite (proj2 (Z.ltb_ge x 128)) by done. by rewrite find_case_run_scan. }
    unfold changes. destruct (scan_run _ _ _ _ _) as [[k v]|].
    + apply existsb_same. intros t. by rewrite Hconv.
    + symmetry. apply not_true_iff_false. rewrite existsb_exists. intros (t & _ & Ht).
      rewrite Hconv, bool_decide_eq_true_2 in Ht by done. done.
Qed.

Definition case_masks : list Z := [CASE_U; CASE_L; CASE_F; Z.lor CASE_U (Z.lor CASE_L CASE_F)].

Lemma case_masks_checked : forallb case_checked case_masks = true.
Proof. vm_compute. reflexivity. Qed.
