(* ===== verification/UnicodeSets.v ===== *)
(** * The properties as sets

    A table of names is a list of groups of synonyms; [unicode_find_name] gives the number of
    the first group with a name.  The sets of the names: of the general categories and
    scripts from the runs of their tables, of the derived properties as set expressions.  The
    functions of libunicode.c give ranges that denote them, or fail as they document. *)

From S2P Require Import Prelude CStr UnicodeTables CaseConv PropTables DynBuf CharRange.
From S2P Require Import UnicodeProps UnicodePropsOk UnicodeCase.

(** The names of a group, which commas separate. *)
Fixpoint split_comma (g : list Z) : list (list Z) :=
  match g with
  | [] => [[]]
  | c :: g' =>
      if c =? 44 then [] :: split_comma g'
      else match split_comma g' with a :: l => (c :: a) :: l | [] => [[c]] end
  end.

(** The first group with the name. *)
Definition name_index (groups : list (list Z)) (name : list Z) : option Z :=
  (fun p => Z.of_nat p.1) <$> list_find (fun g => name ∈ split_comma g) groups.

(** The bytes of the table: each group ends in a zero, and the table in another one. *)
Fixpoint name_table (groups : list (list Z)) : list Z :=
  match groups with [] => [0] | g :: groups' => g ++ 0 :: name_table groups' end.

Definition no_zero (s : list Z) : Prop := Forall (fun c => c <> 0) s.

Lemma c_names_table l : c_names l = name_table (map c_bytes l).
Proof. induction l as [|s l IH]; cbn; [done|]. by rewrite IH. Qed.

Lemma split_cases g :
  ~ (44 ∈ g) /\ split_comma g = [g] \/
  exists a b, g = a ++ 44 :: b /\ ~ (44 ∈ a) /\ split_comma g = a :: split_comma b.
Proof.
  induction g as [|c g IH]; cbn [split_comma]; [left; split; [by intros ?%elem_of_nil|done]|].
  destruct (Z.eqb_spec c 44) as [->|Hc].
  - right. exists [], g. split; [done|]. split; [by intros ?%elem_of_nil|done].
  - destruct IH as [[Hn ->]|(a & b & -> & Hn & ->)].
    + left. split; [|done]. rewrite not_elem_of_cons. done.
    + right. exists (c :: a), b. split; [done|]. split; [rewrite not_elem_of_cons; done|done].
Qed.

Lemma strlen_c_string g r : no_zero g -> strlen (g ++ 0 :: r) = Some (zlen g).
Proof.
  induction 1 as [|c g Hc _ IH]; cbn [app strlen]; [done|].
  rewrite (proj2 (Z.eqb_neq c 0)) by done. rewrite IH. cbn. by rewrite zlen_cons.
Qed.

Lemma strchr_none g r : no_zero g -> ~ (44 ∈ g) -> strchr (g ++ 0 :: r) 44 = Some None.
Proof.
  induction 1 as [|c g Hc _ IH]; intros Hn; cbn [app strchr]; [done|].
  apply not_elem_of_cons in Hn as [Hn1 Hn2].
  rewrite (proj2 (Z.eqb_neq c 44)), (proj2 (Z.eqb_neq c 0)) by congruence. by rewrite IH.
Qed.

Lemma strchr_some a r : no_zero a -> ~ (44 ∈ a) -> strchr (a ++ 44 :: r) 44 = Some (Some (zlen a)).
Proof.
  induction 1 as [|c g Hc _ IH]; intros Hn; cbn [app strchr]; [done|].
  apply not_elem_of_cons in Hn as [Hn1 Hn2].
  rewrite (proj2 (Z.eqb_neq c 44)), (proj2 (Z.eqb_neq c 0)) by congruence. rewrite IH by done. cbn.
  by rewrite zlen_cons.
Qed.

Lemma slice_front (a r : list Z) : zslice (a ++ r) 0 (zlen a) = Some a.
Proof.
  rewrite zslice_is_Some by zlen_lia. change (drop (Z.to_nat 0) (a ++ r)) with (a ++ r). f_equal.
  apply take_app_length'. unfold zlen. lia.
Qed.

(** The comparison of a name of the table. *)
Lemma same_name a r name t :
  (if zlen a =? zlen name then mem_equal (a ++ r) (name ++ 0 :: t) (zlen name) else Some false)
    = Some (bool_decide (name = a)).
Proof.
  destruct (Z.eqb_spec (zlen a) (zlen name)) as [E|E].
  - unfold mem_equal. rewrite <- E at 1. rewrite slice_front. cbn [mbind option_bind]. rewrite slice_front.
    cbn [mbind option_bind]. f_equal. by apply bool_decide_ext.
  - symmetry. f_equal. apply bool_decide_eq_false. by intros ->.
Qed.

Lemma drop_front (a r : list Z) x : drop (Z.to_nat (zlen a + 1)) (a ++ x :: r) = r.
Proof.
  unfold zlen. replace (Z.to_nat (Z.of_nat (length a) + 1)) with (S (length a)) by lia.
  rewrite drop_app_ge by lia. replace (S (length a) - length a)%nat with 1%nat by lia. done.
Qed.

Lemma find_in_names_spec fuel g r name t : no_zero g -> (length g < fuel)%nat ->
  find_in_names fuel (g ++ 0 :: r) (name ++ 0 :: t) (zlen name) =
    Some (if bool_decide (name ∈ split_comma g) then inl tt else inr r).
Proof.
  revert g. induction fuel as [|fuel IH]; intros g Hg Hf; [lia|]. cbn [find_in_names].
  destruct (split_cases g) as [[Hn ->]|(a & b & -> & Hn & ->)].
  - rewrite strchr_none by done. cbn [mbind option_bind]. rewrite strlen_c_string by done. cbn [mbind option_bind].
    rewrite same_name. cbn [mbind option_bind]. rewrite drop_front.
    rewrite (bool_decide_ext (name ∈ [g]) (name = g)) by apply list_elem_of_singleton.
    by destruct (bool_decide (name = g)).
  - apply Forall_app in Hg as [Ha Hg]. inversion_clear Hg as [|? ? _ Hb].
    rewrite <- app_assoc. cbn [app]. rewrite strchr_some by done. cbn [mbind option_bind].
    rewrite same_name. cbn [mbind option_bind]. rewrite drop_front.
    rewrite IH; [|done|rewrite length_app in Hf; cbn [length] in Hf; lia].
    rewrite (bool_decide_ext (name ∈ a :: split_comma b) (name = a \/ name ∈ split_comma b)) by apply elem_of_cons.
    rewrite bool_decide_or. by destruct (bool_decide (name = a)).
Qed.

Lemma name_index_cons g groups name : name_index (g :: groups) name =
  if bool_decide (name ∈ split_comma g) then Some 0 else Z.add 1 <$> name_index groups name.
Proof.
  unfold name_index. cbn [list_find]. case_bool_decide.
  - by rewrite decide_True.
  - rewrite decide_False by done. destruct (list_find _ groups) as [[i x]|]; cbn; [|done]. f_equal. lia.
Qed.

Lemma find_name_loop_spec fuel groups name pos t : Forall no_zero groups -> Forall (fun g => g <> []) groups ->
  (length (name_table groups) < fuel)%nat ->
  find_name_loop fuel (name_table groups) (name ++ 0 :: t) pos (zlen name) =
    Some (match name_index groups name with Some i => pos + i | None => -1 end).
Proof.
  revert groups pos. induction fuel as [|fuel IH]; intros groups pos Hz Hne Hf; [lia|].
  destruct groups as [|g groups]; [done|]. cbn [find_name_loop].
  apply Forall_cons_1 in Hz as [Hg Hz]. apply Forall_cons_1 in Hne as [Hg' Hne].
  destruct g as [|c g]; [done|]. cbn [name_table app head]. inversion_clear Hg as [|? ? Hc Hg2].
  cbn [mbind option_bind]. rewrite (proj2 (Z.eqb_neq c 0)) by done.
  change (c :: g ++ 0 :: name_table groups) with ((c :: g) ++ 0 :: name_table groups).
  cbn [name_table] in Hf. rewrite length_app in Hf. cbn [length] in Hf.
  rewrite find_in_names_spec; [|by constructor|rewrite length_app; cbn [length]; lia].
  cbn [mbind option_bind]. rewrite name_index_cons. case_bool_decide; [f_equal; lia|].
  rewrite IH by (done || lia). destruct (name_index groups name); cbn; [|done]. f_equal. lia.
Qed.

(** unicode_find_name returns the number of the first group of the table one of
    whose comma-separated synonyms is the whole name, and -1 when there is none,
    without reading outside either string. *)
Theorem unicode_find_name_index groups name t :
  Forall no_zero groups -> Forall (fun g => g <> []) groups -> no_zero name ->
  unicode_find_name (name_table groups) (name ++ 0 :: t) =
    Some (match name_index groups name with Some i => i | None => -1 end).
Proof.
  intros Hz Hne Hn. unfold unicode_find_name. rewrite (strlen_c_string name t) by done. cbn [mbind option_bind].
  rewrite find_name_loop_spec by (done || lia). by destruct (name_index groups name).
Qed.

(** ** The sets *)

Definition gc_runs : list (Z * Z) :=
  Eval vm_compute in default [] (gc_decode (length unicode_gc_table) unicode_gc_table).
Definition script_runs : list (Z * Z) :=
  Eval vm_compute in default [] (script_decode (length unicode_script_table) unicode_script_table).
Definition script_ext_runs : list (Z * list Z) :=
  Eval vm_compute in default [] (script_ext_decode (length unicode_script_ext_table) unicode_script_ext_table).
Definition prop_runs : list (list (Z * bool)) :=
  Eval vm_compute in map (fun t => default [] (prop_decode (length t) t false)) unicode_prop_table.

(** The characters whose category is in the mask. *)
Definition gc_set (mask : Z) : Z -> bool := run_set (gc_value mask) gc_runs.

Definition prop_table_set (idx : Z) : Z -> bool := run_set prop_value (default [] (znth prop_runs idx)).

Definition script_set (idx : Z) : Z -> bool := run_set (script_value idx) script_runs.

(** With the extensions: the characters of a script or with an extension to it; for Common
    and Inherited the characters without extensions. *)
Definition script_ext_set (idx : Z) (x : Z) : bool :=
  if (idx =? UNICODE_SCRIPT_Common) || (idx =? UNICODE_SCRIPT_Inherited) then
    script_set idx x && ((0 <=? x) && (x <? UINT32_MAX) && negb (run_set (script_ext_value true idx) script_ext_runs x))
  else script_set idx x || run_set (script_ext_value false idx) script_ext_runs x.

(** *** Set expressions *)

Definition binary_set (op : CharRangeOp) (stack : list (Z -> bool)) : option (list (Z -> bool)) :=
  match stack with
  | s2 :: s1 :: stack' =>
      if (length stack <? POP_STACK_LEN_MAX)%nat
      then Some ((fun x => op_bool op (s1 x) (s2 x)) :: stack') else None
  | _ => None
  end.

Definition push_set (s : Z -> bool) (stack : list (Z -> bool)) : option (list (Z -> bool)) :=
  if (length stack <? POP_STACK_LEN_MAX)%nat then Some (s :: stack) else None.

Definition op_set (op : PropOp) (stack : list (Z -> bool)) : option (list (Z -> bool)) :=
  match op with
  | POP_GC mask => push_set (gc_set mask) stack
  | POP_PROP idx => if (0 <=? idx) && (idx <? zlen unicode_prop_table) then push_set (prop_table_set idx) stack else None
  | POP_CASE m => if bool_decide (m ∈ case_masks) then push_set (case_set m) stack else None
  | POP_UNION => binary_set CR_OP_UNION stack
  | POP_INTER => binary_set CR_OP_INTER stack
  | POP_XOR => binary_set CR_OP_XOR stack
  | POP_INVERT =>
      match stack with
      | s :: stack' => Some ((fun x => (0 <=? x) && (x <? UINT32_MAX) && negb (s x)) :: stack')
      | [] => None
      end
  end.

Fixpoint ops_set (ops : list PropOp) (stack : list (Z -> bool)) : option (list (Z -> bool)) :=
  match ops with
  | [] => Some stack
  | op :: ops' => stack ← op_set op stack; ops_set ops' stack
  end.

(** The set of a property by its number; [None] for a number that has none. *)
Definition source_set (prop_idx : Z) (source : PropSource) : option (Z -> bool) :=
  match source with
  | FromInterval c1 c2 =>
      if (0 <=? c1) && (c1 <? c2) && (c2 <=? 2 ^ 30) then Some (fun x => (c1 <=? x) && (x <? c2)) else None
  | FromOps ops => match ops_set ops [] with Some [s] => Some s | _ => None end
  | FromCase m => if bool_decide (m ∈ case_masks) then Some (case_set m) else None
  | FromTable =>
      if (0 <=? prop_idx) && (prop_idx <? zlen unicode_prop_table) then Some (prop_table_set prop_idx) else None
  end.

Definition prop_set (prop_idx : Z) : option (Z -> bool) := source_set prop_idx (prop_source prop_idx).

(** ** The tables are read *)

Lemma gc_table_decoded : gc_decode (length unicode_gc_table) unicode_gc_table = Some gc_runs /\
  runs_okb gc_runs = true /\ forallb (fun r => 0 <=? r.2) gc_runs = true.
Proof. vm_compute. done. Qed.

Lemma script_table_decoded : script_decode (length unicode_script_table) unicode_script_table = Some script_runs /\
  runs_okb script_runs = true.
Proof. vm_compute. done. Qed.

Lemma script_ext_table_decoded :
  script_ext_decode (length unicode_script_ext_table) unicode_script_ext_table = Some script_ext_runs /\
  runs_okb script_ext_runs = true.
Proof. vm_compute. done. Qed.

Definition prop_decodedb (t : list Z) (len : Z) (runs : list (Z * bool)) : bool :=
  (zlen t =? len) && runs_okb runs &&
  bool_decide (prop_decode (length t) t false = Some runs).

Fixpoint all3 {A B C} (f : A -> B -> C -> bool) (l1 : list A) (l2 : list B) (l3 : list C) : bool :=
  match l1, l2, l3 with
  | [], [], [] => true
  | x :: l1, y :: l2, z :: l3 => f x y z && all3 f l1 l2 l3
  | _, _, _ => false
  end.

Lemma all3_nth {A B C} (f : A -> B -> C -> bool) l1 l2 l3 i x : all3 f l1 l2 l3 = true -> znth l1 i = Some x ->
  exists y z, znth l2 i = Some y /\ znth l3 i = Some z /\ f x y z = true.
Proof.
  revert l2 l3 i. induction l1 as [|a l1 IH]; intros [|b l2] [|c l3] i; cbn [all3]; try done; intros Hf Hi.
  { apply znth_Some_range in Hi. unfold zlen in Hi. cbn in Hi. lia. }
  zify_bools. pose proof (znth_Some_range _ _ _ Hi). destruct (decide (i = 0)) as [->|].
  - rewrite znth_cons_0 in Hi. injection Hi as <-. eauto.
  - rewrite znth_cons_S in Hi by lia. rewrite !znth_cons_S by lia. by apply IH.
Qed.

Lemma prop_tables_decoded : all3 prop_decodedb unicode_prop_table unicode_prop_len_table prop_runs = true.
Proof. vm_compute. reflexivity. Qed.

Section fills.
Context `{AllocatorOk}.

Lemma gc_fills mask : fills (unicode_general_category1 cr_init mask) (gc_set mask).
Proof.
  destruct gc_table_decoded as (Hd & [Hok Ht]%runs_okb_ok & Htags).
  apply covers_fills; [|done].
  destruct (gc_loop_emits mask _ _ _ 0 Hd Hok) as (l & Hl & He); [|lia|lia|].
  - apply List.Forall_forall. intros r Hr. rewrite forallb_forall in Htags. by apply Z.leb_le, Htags.
  - exists l. split; [done|]. apply He, cr_init_wf.
Qed.

Lemma prop_fills idx : 0 <= idx < zlen unicode_prop_table ->
  fills (unicode_prop1 cr_init idx) (prop_table_set idx).
Proof.
  intros Hidx. unfold unicode_prop1, prop_table_set.
  destruct (znth_is_Some unicode_prop_table idx Hidx) as [t Hti]. rewrite Hti. cbn [mbind option_bind].
  destruct (all3_nth _ _ _ _ _ _ prop_tables_decoded Hti) as (len & runs & -> & -> & Hf).
  unfold prop_decodedb in Hf. apply andb_prop in Hf as [[Hlen%Z.eqb_eq [Hok Ht]%runs_okb_ok]%andb_prop Hd].
  apply bool_decide_eq_true in Hd. subst len. cbn [mbind option_bind default].
  pose proof (zlen_nonneg t). rewrite zslice_is_Some by lia. cbn [mbind option_bind].
  change (drop (Z.to_nat 0) t) with t. rewrite (take_ge t) by (unfold zlen; lia).
  apply covers_fills; [|done].
  destruct (prop_loop_emits _ _ _ 0 _ Hd Hok) as (l & Hl & He); [lia|lia|].
  exists l. split; [done|]. apply He, cr_init_wf.
Qed.

Lemma case_fills m : m ∈ case_masks -> fills (unicode_case1 cr_init m) (case_set m).
Proof.
  intros Hm. assert (Hc : case_checked m = true).
  { pose proof case_masks_checked as Hc. rewrite forallb_forall in Hc. by apply Hc, list_elem_of_In. }
  unfold unicode_case1. destruct (Z.eqb_spec m 0) as [->|_].
  { assert (Hne : forallb (fun m => negb (m =? 0)) case_masks = true) by reflexivity.
    rewrite forallb_forall in Hne. apply list_elem_of_In in Hm. by specialize (Hne 0 Hm). }
  eapply (emits_fills _ (case_intervals m) 0x110000).
  - apply case_loop_emits, cr_init_wf.
  - by apply case_intervals_within.
  - lia.
  - intros x. by apply case_intervals_set.
Qed.

(** ** Set expressions *)

(** A range of the stack and its set. *)
Definition stands_for (cr : CharRange) (s : Z -> bool) : Prop :=
  cr_denotes cr s /\ Forall cr_point (cr_pts cr).

Lemma cr_op_fills cr1 cr2 s1 s2 op : stands_for cr1 s1 -> stands_for cr2 s2 ->
  fills (cr_op cr_init (cr_points cr1) (cr_len cr1) (cr_points cr2) (cr_len cr2) op)
    (fun x => op_bool op (s1 x) (s2 x)).
Proof.
  intros [D1 P1] [D2 P2]. pose proof D1 as ([Hl1 Hz1] & I1 & E1 & M1). pose proof D2 as ([Hl2 Hz2] & I2 & E2 & M2).
  destruct (cr_op_spec (cr_points cr1) (cr_len cr1) (cr_points cr2) (cr_len cr2) op) as (cr3 & r & -> & Hr);
    try done; try lia; [by apply intervals_increasing..|].
  exists cr3, r. split; [done|]. destruct Hr as [(-> & [(W3 & I3 & E3 & M3) _] & HP)| ->]; [left|by right].
  split; [done|]. split; [|by apply HP]. split_and!; try done. intros c. rewrite M3.
  fold (cr_pts cr1) (cr_pts cr2). by rewrite M1, M2.
Qed.

Lemma cr_invert_fills cr s : stands_for cr s ->
  fills (cr_invert cr) (fun x => (0 <=? x) && (x <? UINT32_MAX) && negb (s x)).
Proof.
  intros [Hd Hp]. destruct (cr_invert_spec cr s Hd) as (cr' & r & -> & Hr).
  { revert Hp. apply Forall_impl. unfold cr_point, UINT32_MAX. lia. }
  exists cr', r. split; [done|]. destruct Hr as [(-> & [Hd' _] & HP)| ->]; [left|by right].
  split; [done|]. split; [done|]. apply HP; [by left; lia|by right|done].
Qed.

(** The result of an operation on related stacks, unless an allocation failed. *)
Definition stack_result (o : option (option (list CharRange))) (sets : list (Z -> bool)) : Prop :=
  o = Some None \/ exists stack, o = Some (Some stack) /\ Forall2 stands_for stack sets.

Lemma prop_push_ok stack sets fill s sets' : Forall2 stands_for stack sets -> fills (fill cr_init) s ->
  push_set s sets = Some sets' -> stack_result (prop_push stack fill) sets'.
Proof.
  intros Hst (cr & r & E & Hr). unfold push_set, prop_push. rewrite (Forall2_length Hst).
  destruct (_ <? _)%nat; [|done]. intros [= <-]. rewrite E. cbn [mbind option_bind].
  destruct Hr as [(-> & Hd & Hp)| ->]; cbn [Z.eqb negb]; [right|by left].
  eexists. split; [done|]. by constructor.
Qed.

Lemma prop_binary_ok stack sets op sets' : Forall2 stands_for stack sets ->
  binary_set op sets = Some sets' -> stack_result (prop_binary stack op) sets'.
Proof.
  intros Hst. unfold binary_set, prop_binary. pose proof (Forall2_length Hst) as Hlen.
  destruct Hst as [|cr2 s2 stack sets H2 Hst]; [done|].
  destruct Hst as [|cr1 s1 stack sets H1 Hst]; [done|]. rewrite Hlen.
  destruct (_ <? _)%nat; [|done]. intros [= <-].
  destruct (cr_op_fills cr1 cr2 s1 s2 op) as (cr3 & r & -> & Hr); [done..|]. cbn [mbind option_bind].
  destruct Hr as [(-> & Hd & Hp)| ->]; cbn [Z.eqb negb]; [right|by left]. eexists. split; [done|]. by constructor.
Qed.

Lemma prop_op_ok op stack sets sets' : Forall2 stands_for stack sets -> op_set op sets = Some sets' ->
  stack_result (prop_op op stack) sets'.
Proof.
  intros Hst. destruct op; cbn [op_set prop_op].
  - apply prop_push_ok; [done|apply gc_fills].
  - destruct (_ && _) eqn:E; [|done]. zify_bools. apply prop_push_ok; [done|by apply prop_fills].
  - case_bool_decide; [|done]. apply prop_push_ok; [done|by apply case_fills].
  - by apply prop_binary_ok.
  - by apply prop_binary_ok.
  - by apply prop_binary_ok.
  - destruct Hst as [|cr s stack sets Hcr Hst]; [done|]. intros [= <-].
    destruct (cr_invert_fills cr s Hcr) as (cr' & r & -> & Hr). cbn [mbind option_bind].
    destruct Hr as [(-> & Hd & Hp)| ->]; cbn [Z.eqb negb]; [right|by left]. eexists. split; [done|]. by constructor.
Qed.

Lemma prop_ops_ok ops stack sets sets' : Forall2 stands_for stack sets -> ops_set ops sets = Some sets' ->
  stack_result (prop_ops ops stack) sets'.
Proof.
  revert stack sets. induction ops as [|op ops IH]; intros stack sets Hst; cbn [ops_set prop_ops].
  { intros [= <-]. right. by exists stack. }
  destruct (op_set op sets) as [sets1|] eqn:E; [|done]. cbn [mbind option_bind]. intros Hs.
  destruct (prop_op_ok op stack sets sets1 Hst E) as [->|(stack1 & -> & Hst1)]; cbn [mbind option_bind];
    [by left|by apply (IH stack1 sets1)].
Qed.

Lemma cr_copy_fills cr s : stands_for cr s -> fills (cr_copy cr_init cr) s.
Proof.
  intros [([Hl Hz] & Hi & He & Hm) Hp]. unfold cr_copy.
  pose proof (cr_realloc_spec cr_init (cr_len cr) cr_init_wf) as Hr.
  destruct (cr_realloc cr_init (cr_len cr)) as [cr1 r].
  destruct Hr as [(-> & [Hl1 Hz1] & Hlen & _ & Hs)|[-> ->]]; cbn [Z.eqb negb]; [|by exists cr_init, (-1); auto].
  rewrite zslice_is_Some by lia. cbn [mbind option_bind].
  change (drop (Z.to_nat 0) (cr_points cr)) with (cr_points cr). fold (cr_pts cr).
  assert (Hpl : zlen (cr_pts cr) = cr_len cr) by (unfold cr_pts; zlen_lia).
  rewrite zblit_is_Some by lia. cbn [mbind option_bind]. eexists _, 0. split; [done|]. left. split; [done|].
  change (take (Z.to_nat 0) (cr_points cr1)) with (@nil Z). cbn [app].
  set (cr' := mkCharRange _ _ _).
  assert (E : cr_pts cr' = cr_pts cr).
  { subst cr'. unfold cr_pts at 1. cbn. apply take_app_length'. unfold zlen in Hpl. lia. }
  split; [split_and!|by rewrite E]; [|by rewrite E..].
  split; cbn; [lia|]. rewrite zlen_app, zlen_drop. unfold zlen in *. lia.
Qed.

Lemma prop_ops_fills ops s : ops_set ops [] = Some [s] -> fills (unicode_prop_ops cr_init ops) s.
Proof.
  intros Hs. unfold unicode_prop_ops.
  destruct (prop_ops_ok ops [] [] [s] ltac:(constructor) Hs) as [->|(stack & -> & Hst)]; cbn [mbind option_bind].
  { exists cr_init, (-1). auto. }
  inversion_clear Hst as [|cr s' stack' sets Hcr Hst']. inversion_clear Hst'. by apply cr_copy_fills.
Qed.

(** ** The functions of the interface *)

Lemma table_names_ok names : forallb (fun g => negb (bool_decide (g = [])) && forallb (fun c => negb (c =? 0)) g)
    (map c_bytes names) = true ->
  Forall no_zero (map c_bytes names) /\ Forall (fun g => g <> []) (map c_bytes names).
Proof.
  intros Hn. rewrite forallb_forall in Hn. split; apply List.Forall_forall; intros g Hg;
    specialize (Hn g Hg); apply andb_prop in Hn as [Hne Hz].
  - apply List.Forall_forall. intros c Hc. rewrite forallb_forall in Hz. specialize (Hz c Hc).
    apply negb_true_iff in Hz. by apply Z.eqb_neq.
  - apply negb_true_iff, bool_decide_eq_false in Hne. done.
Qed.

Lemma find_name names name t : forallb (fun g => negb (bool_decide (g = [])) && forallb (fun c => negb (c =? 0)) g)
    (map c_bytes names) = true -> no_zero name ->
  unicode_find_name (c_names names) (name ++ 0 :: t) =
    Some (match name_index (map c_bytes names) name with Some i => i | None => -1 end).
Proof.
  intros [Hz Hne]%table_names_ok Hname. rewrite c_names_table. unfold unicode_find_name.
  rewrite (strlen_c_string name t) by done. cbn [mbind option_bind]. rewrite find_name_loop_spec by (done || lia).
  by destruct (name_index _ name).
Qed.

Lemma name_index_range groups name i : name_index groups name = Some i -> 0 <= i < zlen groups.
Proof.
  unfold name_index. destruct (list_find _ groups) as [[j x]|] eqn:E; [|done]. intros [= <-].
  apply list_find_Some in E as [E%lookup_lt_Some _]. unfold zlen. cbn. lia.
Qed.

(** The mask of the category [i]. *)
Definition gc_mask (i : Z) : Z :=
  if i <=? UNICODE_GC_Co then Z.shiftl 1 i else default 0 (znth unicode_gc_mask_table (i - UNICODE_GC_LC)).

Lemma category_fills name t : no_zero name ->
  match name_index (map c_bytes unicode_gc_name_table_names) name with
  | None => unicode_general_category cr_init (name ++ 0 :: t) = Some (cr_init, -2)
  | Some i => fills (unicode_general_category cr_init (name ++ 0 :: t)) (gc_set (gc_mask i))
  end.
Proof.
  intros Hname. unfold unicode_general_category.
  change unicode_gc_name_table with (c_names unicode_gc_name_table_names).
  rewrite find_name by (done || by vm_compute).
  destruct (name_index _ name) as [i|] eqn:E; [|done]. apply name_index_range in E as [H0 Hi].
  cbn [mbind option_bind]. rewrite (proj2 (Z.ltb_ge i 0)) by done. unfold gc_mask.
  change (zlen _) with 38 in Hi. destruct (Z.leb_spec i UNICODE_GC_Co).
  - cbn [mbind option_bind]. rewrite Z.shiftl_mul_pow2, Z.mul_1_l by done.
    assert (2 ^ i <= 2 ^ 29) by (apply Z.pow_le_mono_r; [lia|unfold UNICODE_GC_Co in *; lia]).
    assert (0 < 2 ^ i) by (apply Z.pow_pos_nonneg; lia).
    rewrite u64_small, u32_small by (change (2 ^ 29) with 536870912 in *; lia). apply gc_fills.
  - destruct (znth_is_Some unicode_gc_mask_table (i - UNICODE_GC_LC)) as [m ->].
    { unfold UNICODE_GC_Co, UNICODE_GC_LC in *. change (zlen unicode_gc_mask_table) with 8. lia. }
    apply gc_fills.
Qed.

(** C37: unicode_general_category returns -2 for an unknown name; for a category or a
    union of categories it decodes the run table to its end without reading outside it
    and returns ranges that denote the code points whose run has a category of the
    mask (a run of alternating Lu and Ll by the parity of the code point), or -1 when
    an allocation fails. *)
Theorem general_category_denotes name t : no_zero name ->
  match name_index (map c_bytes unicode_gc_name_table_names) name with
  | None => unicode_general_category cr_init (name ++ 0 :: t) = Some (cr_init, -2)
  | Some i => fills (unicode_general_category cr_init (name ++ 0 :: t)) (gc_set (gc_mask i))
  end.
Proof. exact (category_fills name t). Qed.

Lemma prop_sets_defined : forallb (fun i => match prop_set (i + UNICODE_PROP_ASCII_Hex_Digit) with
  Some _ => true | None => false end) (seqZ 0 (zlen unicode_prop_name_table_names)) = true.
Proof. vm_compute. reflexivity. Qed.

Lemma property_fills name t : no_zero name ->
  match name_index (map c_bytes unicode_prop_name_table_names) name with
  | None => unicode_prop cr_init (name ++ 0 :: t) = Some (cr_init, -2)
  | Some i => exists set, prop_set (i + UNICODE_PROP_ASCII_Hex_Digit) = Some set /\
      fills (unicode_prop cr_init (name ++ 0 :: t)) set
  end.
Proof.
  intros Hname. unfold unicode_prop.
  change unicode_prop_name_table with (c_names unicode_prop_name_table_names).
  rewrite find_name by (done || by vm_compute).
  destruct (name_index _ name) as [i|] eqn:E; [|done]. apply name_index_range in E as [H0 Hi].
  cbn [mbind option_bind]. rewrite (proj2 (Z.ltb_ge i 0)) by done.
  pose proof prop_sets_defined as Hd. rewrite forallb_forall in Hd. specialize (Hd i).
  destruct (prop_set (i + UNICODE_PROP_ASCII_Hex_Digit)) as [set|] eqn:Es.
  2: { discriminate Hd. apply list_elem_of_In, elem_of_seqZ. unfold zlen in *. rewrite length_map in Hi. lia. }
  clear Hd. exists set. split; [done|]. unfold prop_set in Es. set (idx := i + _) in *.
  destruct (prop_source idx) as [c1 c2|ops|m|]; cbn [source_set] in Es.
  - destruct (_ && _) eqn:E; [|done]. injection Es as <-. zify_bools.
    apply (emits_fills _ ([(c1, c2)] ++ []) c2); [|repeat constructor; lia|lia|].
    + apply emits_or_fail; [apply cr_add_interval_emits, cr_init_wf|intros; by apply emits_nil].
    + intros x. cbn. by rewrite orb_false_r.
  - apply prop_ops_fills. destruct (ops_set ops []) as [[|s [|? ?]]|]; [done| |done..]. by injection Es as <-.
  - case_bool_decide; [|done]. injection Es as <-. by apply case_fills.
  - destruct (_ && _) eqn:E; [|done]. injection Es as <-. zify_bools.
    rewrite Z.geb_leb, (proj2 (Z.leb_gt _ _)) by done. by apply prop_fills.
Qed.

(** C36: unicode_prop fails with -2 exactly on a name that is not in the table; for a
    known name the stack machine of unicode_prop_ops never trips an assertion,
    overflows its four slots or reads outside a table, and it either runs out of
    memory (-1) or leaves ranges that denote the set expression of the property
    (unions, intersections, symmetric differences and complements of the sets of the
    tables). *)
Theorem unicode_prop_denotes name t : no_zero name ->
  match name_index (map c_bytes unicode_prop_name_table_names) name with
  | None => unicode_prop cr_init (name ++ 0 :: t) = Some (cr_init, -2)
  | Some i => exists set, prop_set (i + UNICODE_PROP_ASCII_Hex_Digit) = Some set /\
      fills (unicode_prop cr_init (name ++ 0 :: t)) set
  end.
Proof. exact (property_fills name t). Qed.

(** *** Scripts *)

(** The function returns 0 with the set, or an allocation fails and it does not return. *)
Definition fills_or_hangs (o : option (option (CharRange * Z))) (set : Z -> bool) : Prop :=
  o = Some None \/ exists cr, o = Some (Some (cr, 0)) /\ stands_for cr set.

Lemma or_hang_fills o s k set : fills o s -> (forall cr, stands_for cr s -> fills_or_hangs (k cr) set) ->
  fills_or_hangs (or_hang o k) set.
Proof.
  intros (cr & r & -> & Hr) Hk. unfold or_hang. cbn [mbind option_bind].
  destruct Hr as [(-> & Hd & Hp)| ->]; cbn [Z.eqb negb]; [by apply Hk|by left].
Qed.

Lemma script_fills idx :
  fills (script_loop (length unicode_script_table) cr_init idx unicode_script_table 0) (script_set idx).
Proof.
  destruct script_table_decoded as [Hd [Hok Ht]%runs_okb_ok]. apply covers_fills; [|done].
  destruct (script_loop_emits idx _ _ _ 0 Hd Hok) as (l & Hl & He); [lia|lia|].
  exists l. split; [done|]. apply He, cr_init_wf.
Qed.

Lemma script_ext_fills common idx :
  fills (script_ext_loop (length unicode_script_ext_table) cr_init common idx unicode_script_ext_table 0)
    (run_set (script_ext_value common idx) script_ext_runs).
Proof.
  destruct script_ext_table_decoded as [Hd [Hok Ht]%runs_okb_ok]. apply covers_fills; [|done].
  destruct (script_ext_loop_emits common idx _ _ _ 0 Hd Hok) as (l & Hl & He); [lia|lia|].
  exists l. split; [done|]. apply He, cr_init_wf.
Qed.

Lemma stands_for_ext cr s s' : stands_for cr s -> (forall x, s x = s' x) -> stands_for cr s'.
Proof. intros [(? & ? & ? & Hm) Hp] Hs. split; [|done]. split_and!; try done. intros c. by rewrite Hm. Qed.

Lemma scripts_fill name t is_ext : no_zero name ->
  match name_index (map c_bytes unicode_script_name_table_names) name with
  | None => unicode_script cr_init (name ++ 0 :: t) is_ext = Some (Some (cr_init, -2))
  | Some i => fills_or_hangs (unicode_script cr_init (name ++ 0 :: t) is_ext)
                (if is_ext : bool then script_ext_set (i + 1) else script_set (i + 1))
  end.
Proof.
  intros Hname. unfold unicode_script.
  change unicode_script_name_table with (c_names unicode_script_name_table_names).
  rewrite find_name by (done || by vm_compute).
  destruct (name_index _ name) as [i|] eqn:E; [|done]. apply name_index_range in E as [H0 _].
  cbn [mbind option_bind]. rewrite (proj2 (Z.ltb_ge i 0)) by done.
  change (UNICODE_SCRIPT_Unknown + 1) with 1. set (idx := i + 1).
  destruct is_ext; cbn [negb].
  - eapply or_hang_fills; [apply script_fills|]. intros cr1 H1.
    eapply or_hang_fills; [apply script_ext_fills|]. intros cr2 H2.
    destruct ((idx =? UNICODE_SCRIPT_Common) || (idx =? UNICODE_SCRIPT_Inherited)) eqn:Ec.
    + eapply or_hang_fills; [by apply cr_invert_fills|]. intros cr3 H3.
      eapply or_hang_fills; [by apply cr_op_fills|]. intros cr4 H4. right. exists cr4. split; [done|].
      eapply stands_for_ext; [exact H4|]. intros x. unfold script_ext_set. by rewrite Ec.
    + eapply or_hang_fills; [by apply cr_op_fills|]. intros cr4 H4. right. exists cr4. split; [done|].
      eapply stands_for_ext; [exact H4|]. intros x. unfold script_ext_set. by rewrite Ec.
  - eapply or_hang_fills; [apply script_fills|]. intros cr1 H1. right. by exists cr1.
Qed.


(** C39: For the masks in use, the ranges unicode_case1 reads off the case conversion
    table denote exactly the code points that lre_case_conv changes under one of the
    conversions of the mask. *)
Theorem unicode_case1_changes m : m ∈ case_masks -> fills (unicode_case1 cr_init m) (case_set m).
Proof. apply case_fills. Qed.
End fills.

#[local] Ltac no_zero_name := by repeat constructor.

Lemma general_category_denotes_witness : let A := limit_alloc 65536 in
  exists cr r, unicode_general_category cr_init [76; 117; 0] = Some (cr, r) /\ (r = 0 -> cr_denotes cr (gc_set 2)).
Proof.
  intros A. assert (Hn : no_zero [76; 117]) by no_zero_name.
  pose proof (general_category_denotes (H := limit_alloc_ok 65536 eq_refl) [76; 117] [] Hn) as Hf.
  assert (E : name_index (map c_bytes unicode_gc_name_table_names) [76; 117] = Some 1) by (vm_compute; reflexivity).
  rewrite E in Hf. destruct Hf as (cr & r & E1 & Hr). exists cr, r. split; [exact E1|].
  intros ->. destruct Hr as [(_ & Hd & _)|[=]]. exact Hd.
Defined.

Lemma unicode_prop_denotes_witness : let A := limit_alloc 65536 in
  exists cr r, unicode_prop cr_init [77; 97; 116; 104; 0] = Some (cr, r) /\
    (r = 0 -> exists set, prop_set 65 = Some set /\ cr_denotes cr set).
Proof.
  intros A. assert (Hn : no_zero [77; 97; 116; 104]) by no_zero_name.
  pose proof (unicode_prop_denotes (H := limit_alloc_ok 65536 eq_refl) [77; 97; 116; 104] [] Hn) as Hf.
  assert (E : name_index (map c_bytes unicode_prop_name_table_names) [77; 97; 116; 104] = Some 49) by (vm_compute; reflexivity).
  rewrite E in Hf. destruct Hf as (set & Es & cr & r & E1 & Hr). exists cr, r. split; [exact E1|].
  intros ->. destruct Hr as [(_ & Hd & _)|[=]]. exists set. split; [exact Es|exact Hd].
Defined.


Lemma unicode_case1_changes_witness : let A := limit_alloc 65536 in
  exists cr r, unicode_case1 cr_init CASE_U = Some (cr, r) /\ (r = 0 -> cr_denotes cr (case_set CASE_U)).
Proof.
  intros A. assert (Hm : CASE_U ∈ case_masks) by (apply (bool_decide_unpack _); vm_compute; exact I).
  destruct (unicode_case1_changes (H := limit_alloc_ok 65536 eq_refl) CASE_U Hm) as (cr & r & E1 & Hr).
  exists cr, r. split; [exact E1|]. intros ->. destruct Hr as [(_ & Hd & _)|[=]]. exact Hd.
Defined.
