(* ===== verification/ReOpcode.v ===== *)
(** * Opcodes and byte code layout of the regular expressions (libregexp-opcode.h,
    libregexp.c, libregexp.h) *)

From S2P Require Import Prelude Bytes.

(** ** Opcodes, in the order of libregexp-opcode.h *)

Definition REOP_invalid : Z := 0.
Definition REOP_char : Z := 1.
Definition REOP_char32 : Z := 2.
Definition REOP_dot : Z := 3.
Definition REOP_any : Z := 4.
Definition REOP_line_start : Z := 5.
Definition REOP_line_end : Z := 6.
Definition REOP_goto : Z := 7.
Definition REOP_split_goto_first : Z := 8.
Definition REOP_split_next_first : Z := 9.
Definition REOP_match : Z := 10.
Definition REOP_save_start : Z := 11.
Definition REOP_save_end : Z := 12.
Definition REOP_save_reset : Z := 13.
Definition REOP_loop : Z := 14.
Definition REOP_push_i32 : Z := 15.
Definition REOP_drop : Z := 16.
Definition REOP_word_boundary : Z := 17.
Definition REOP_not_word_boundary : Z := 18.
Definition REOP_back_reference : Z := 19.
Definition REOP_backward_back_reference : Z := 20.
Definition REOP_range : Z := 21.
Definition REOP_range32 : Z := 22.
Definition REOP_lookahead : Z := 23.
Definition REOP_negative_lookahead : Z := 24.
Definition REOP_push_char_pos : Z := 25.
Definition REOP_bne_char_pos : Z := 26.
Definition REOP_prev : Z := 27.
Definition REOP_simple_greedy_quant : Z := 28.
Definition REOP_COUNT : Z := 29.

(** The sizes of the instructions, the variable part of the ranges excluded. *)
Definition reopcode_info : list Z :=
  [1; 3; 5; 1; 1; 1; 1; 5; 5; 5; 1; 2; 2; 3; 5; 5; 1; 1; 1; 2; 2; 3; 3; 5; 5; 1; 5; 1; 17].

Definition reopcode_size (opcode : Z) : option Z := znth reopcode_info opcode.

(** ** Limits, header and flags *)

Definition CAPTURE_COUNT_MAX : Z := 255.
Definition STACK_SIZE_MAX : Z := 255.
Definition TMP_BUF_SIZE : Z := 128.
Definition CP_LS : Z := 0x2028.
Definition CP_PS : Z := 0x2029.
Definition CLASS_RANGE_BASE : Z := 0x40000000.

Definition RE_HEADER_FLAGS : Z := 0.
Definition RE_HEADER_CAPTURE_COUNT : Z := 1.
Definition RE_HEADER_STACK_SIZE : Z := 2.
Definition RE_HEADER_LEN : Z := 7.

Definition LRE_FLAG_GLOBAL : Z := Z.shiftl 1 0.
Definition LRE_FLAG_IGNORECASE : Z := Z.shiftl 1 1.
Definition LRE_FLAG_MULTILINE : Z := Z.shiftl 1 2.
Definition LRE_FLAG_DOTALL : Z := Z.shiftl 1 3.
Definition LRE_FLAG_UTF16 : Z := Z.shiftl 1 4.
Definition LRE_FLAG_STICKY : Z := Z.shiftl 1 5.
Definition LRE_FLAG_NAMED_GROUPS : Z := Z.shiftl 1 7.

(** [(flags & f) != 0] *)
Definition has_flag (flags f : Z) : bool := negb (Z.land flags f =? 0).

(** ** Analyses of compiled code *)

(** The size of the instruction at [pos], variable part included. *)
Definition instr_len (bc_buf : list Z) (pos : Z) : option (Z * Z) :=
  opcode ← znth bc_buf pos;
  len ← reopcode_size opcode;
  if opcode =? REOP_range then
    val ← get_u16 bc_buf (pos + 1); Some (opcode, len + val * 4)
  else if opcode =? REOP_range32 then
    val ← get_u16 bc_buf (pos + 1); Some (opcode, len + val * 8)
  else Some (opcode, len).

(** Instructions that consume one character. *)
Definition is_simple_char (opcode : Z) : bool :=
  (opcode =? REOP_range) || (opcode =? REOP_range32) || (opcode =? REOP_char)
  || (opcode =? REOP_char32) || (opcode =? REOP_dot) || (opcode =? REOP_any).

(** [capture_bitmap\[val\] |= b] *)
Definition bitmap_or (m : list Z) (val b : Z) : option (list Z) :=
  x ← znth m val; zupd m val (Z.lor x b).

(** [while (val < last) capture_bitmap\[val++\] |= 1] *)
Fixpoint bitmap_or_range (n : nat) (m : list Z) (val : Z) : option (list Z) :=
  match n with
  | O => Some m
  | S n' => m ← bitmap_or m val 1; bitmap_or_range n' m (val + 1)
  end.

Fixpoint re_check_advance_loop (fuel : nat) (bc_buf : list Z) (bc_buf_len pos ret : Z)
    (has_back_reference : bool) (capture_bitmap : list Z) : option (Z * bool * list Z) :=
  match fuel with
  | O => None
  | S fuel' =>
      if pos <? bc_buf_len then
        '(opcode, len) ← instr_len bc_buf pos;
        let next := re_check_advance_loop fuel' bc_buf bc_buf_len (pos + len) in
        if is_simple_char opcode then
          next (if ret =? -2 then 1 else ret) has_back_reference capture_bitmap
        else if (opcode =? REOP_line_start) || (opcode =? REOP_line_end)
             || (opcode =? REOP_push_i32) || (opcode =? REOP_push_char_pos)
             || (opcode =? REOP_drop) || (opcode =? REOP_word_boundary)
             || (opcode =? REOP_not_word_boundary) || (opcode =? REOP_prev)
        then next ret has_back_reference capture_bitmap
        else if (opcode =? REOP_save_start) || (opcode =? REOP_save_end) then
          val ← znth bc_buf (pos + 1);
          m ← bitmap_or capture_bitmap val 1;
          next ret has_back_reference m
        else if opcode =? REOP_save_reset then
          val ← znth bc_buf (pos + 1);
          last ← znth bc_buf (pos + 2);
          m ← bitmap_or_range (Z.to_nat (last - val)) capture_bitmap val;
          next ret has_back_reference m
        else if (opcode =? REOP_back_reference) || (opcode =? REOP_backward_back_reference) then
          val ← znth bc_buf (pos + 1);
          m ← bitmap_or capture_bitmap val 2;
          next ret true m
        else next (if ret =? -2 then 0 else ret) has_back_reference capture_bitmap
      else Some (ret, has_back_reference, capture_bitmap)
  end.

(** 1: the code always advances; 0: it may not; -1: it may depend on side effects of
    its previous execution. *)
Definition re_check_advance (bc_buf : list Z) (bc_buf_len : Z) : option Z :=
  '(ret, has_back_reference, m) ←
    re_check_advance_loop (S (Z.to_nat bc_buf_len)) bc_buf bc_buf_len 0 (-2) false
      (replicate (Z.to_nat CAPTURE_COUNT_MAX) 0);
  if has_back_reference && existsb (fun b => b =? 3) m then Some (-1)
  else Some (if ret =? -2 then 0 else ret).

Fixpoint re_is_simple_quantifier_loop (fuel : nat) (bc_buf : list Z) (bc_buf_len pos count : Z)
  : option Z :=
  match fuel with
  | O => None
  | S fuel' =>
      if pos <? bc_buf_len then
        '(opcode, len) ← instr_len bc_buf pos;
        if is_simple_char opcode then
          re_is_simple_quantifier_loop fuel' bc_buf bc_buf_len (pos + len) (count + 1)
        else if (opcode =? REOP_line_start) || (opcode =? REOP_line_end)
             || (opcode =? REOP_word_boundary) || (opcode =? REOP_not_word_boundary)
        then re_is_simple_quantifier_loop fuel' bc_buf bc_buf_len (pos + len) count
        else Some (-1)
      else Some count
  end.

(** -1 if a simple quantifier cannot be used, otherwise the number of characters of
    the atom. *)
Definition re_is_simple_quantifier (bc_buf : list Z) (bc_buf_len : Z) : option Z :=
  re_is_simple_quantifier_loop (S (Z.to_nat bc_buf_len)) bc_buf bc_buf_len 0 0.

(** The asserts of the code are [None] when they fail. *)
Fixpoint compute_stack_size_loop (fuel : nat) (bc_buf : list Z)
    (bc_buf_len pos stack_size stack_size_max : Z) : option Z :=
  match fuel with
  | O => None
  | S fuel' =>
      if pos <? bc_buf_len then
        opcode ← znth bc_buf pos;
        len ← reopcode_size opcode;
        if pos + len <=? bc_buf_len then
          let next len :=
            compute_stack_size_loop fuel' bc_buf bc_buf_len (pos + len) in
          if (opcode =? REOP_push_i32) || (opcode =? REOP_push_char_pos) then
            let stack_size := stack_size + 1 in
            if stack_size >? stack_size_max then
              if stack_size >? STACK_SIZE_MAX then Some (-1)
              else next len stack_size stack_size
            else next len stack_size stack_size_max
          else if (opcode =? REOP_drop) || (opcode =? REOP_bne_char_pos) then
            if stack_size >? 0 then next len (stack_size - 1) stack_size_max else None
          else if opcode =? REOP_range then
            val ← get_u16 bc_buf (pos + 1);
            next (len + val * 4) stack_size stack_size_max
          else if opcode =? REOP_range32 then
            val ← get_u16 bc_buf (pos + 1);
            next (len + val * 8) stack_size stack_size_max
          else next len stack_size stack_size_max
        else None
      else Some stack_size_max
  end.

Definition compute_stack_size (bc_buf : list Z) (bc_buf_len : Z) : option Z :=
  compute_stack_size_loop (S (Z.to_nat bc_buf_len))
    (drop (Z.to_nat RE_HEADER_LEN) bc_buf) (bc_buf_len - RE_HEADER_LEN) 0 0 0.

(** ** Reading a compiled regular expression *)

Definition lre_get_capture_count (bc_buf : list Z) : option Z :=
  znth bc_buf RE_HEADER_CAPTURE_COUNT.

Definition lre_get_flags (bc_buf : list Z) : option Z := znth bc_buf RE_HEADER_FLAGS.

(** NULL ([Some None]) if there are no group names, otherwise what follows the code. *)
Definition lre_get_groupnames (bc_buf : list Z) : option (option (list Z)) :=
  flags ← lre_get_flags bc_buf;
  if negb (has_flag flags LRE_FLAG_NAMED_GROUPS) then Some None
  else re_bytecode_len ← get_u32 bc_buf 3;
       Some (Some (drop (Z.to_nat (7 + re_bytecode_len)) bc_buf)).
