(* ===== verification/ReCode.v ===== *)
(** * Structured byte code

    "The control flow is recursive so the analysis can be linear", says a comment of
    [compute_stack_size].  Here that structure is the inductive predicate [frag]: the
    code of a term is built by a few constructions, whose jumps stay inside and whose
    effect on the stack is balanced.  The linear analyses of the compiler are total and
    exact on such code, and every point of it that the matcher can reach is the start of
    an instruction with a known depth of the stack ([closed]). *)

From S2P Require Import Prelude Bytes ReOpcode.

(** ** Instructions *)

(** The operand of a jump over [off] bytes. *)
Definition jmp (off : Z) : list Z := le_bytes 4 off.

(** Instructions without jump and without effect on the stack; [cc] bounds the indices
    of the captures that are written. *)
Inductive plain (cc : Z) : list Z -> Prop :=
  | plain_op op :
      op ∈ [REOP_dot; REOP_any; REOP_line_start; REOP_line_end; REOP_word_boundary;
            REOP_not_word_boundary; REOP_prev] -> plain cc [op]
  | plain_char v : plain cc (REOP_char :: le_bytes 2 v)
  | plain_char32 v : plain cc (REOP_char32 :: le_bytes 4 v)
  | plain_save op i : op ∈ [REOP_save_start; REOP_save_end] -> 0 <= i < cc -> plain cc [op; i]
  | plain_ref op i :
      op ∈ [REOP_back_reference; REOP_backward_back_reference] -> 0 <= i < CAPTURE_COUNT_MAX ->
      plain cc [op; i]
  | plain_reset a b : 0 <= a -> 0 <= b < cc -> plain cc [REOP_save_reset; a; b]
  | plain_range n d :
      1 <= n < 65536 -> zlen d = 4 * n -> plain cc (REOP_range :: le_bytes 2 n ++ d)
  | plain_range32 n d :
      1 <= n < 65536 -> zlen d = 8 * n -> plain cc (REOP_range32 :: le_bytes 2 n ++ d).

(** All the instructions that the compiler emits, with their effect on the depth. *)
Inductive instr (cc : Z) : list Z -> Z -> Prop :=
  | instr_plain i : plain cc i -> instr cc i 0
  | instr_jump op off :
      op ∈ [REOP_goto; REOP_split_goto_first; REOP_split_next_first; REOP_loop; REOP_lookahead;
            REOP_negative_lookahead] -> instr cc (op :: jmp off) 0
  | instr_bne off : instr cc (REOP_bne_char_pos :: jmp off) (-1)
  | instr_match : instr cc [REOP_match] 0
  | instr_push_i32 v : instr cc (REOP_push_i32 :: le_bytes 4 v) 1
  | instr_push_char_pos : instr cc [REOP_push_char_pos] 1
  | instr_drop : instr cc [REOP_drop] (-1)
  | instr_greedy off mn mx n :
      instr cc (REOP_simple_greedy_quant
                :: jmp off ++ le_bytes 4 mn ++ le_bytes 4 mx ++ le_bytes 4 n) 0.

(** ** Linear code: from depth [d] to depth [d'], never above [m] *)

Inductive dlin (cc : Z) : Z -> list Z -> Z -> Z -> Prop :=
  | dlin_nil d : dlin cc d [] d d
  | dlin_cons d i e r d' m :
      instr cc i e -> 0 <= d + e -> dlin cc (d + e) r d' m ->
      dlin cc d (i ++ r) d' (Z.max d m).

(** ** Structured code *)

(** Code of exactly [n] characters, of instructions that have no other effect. *)
Inductive simple_body (cc : Z) : Z -> list Z -> Prop :=
  | simple_nil : simple_body cc 0 []
  | simple_char i op n r :
      plain cc i -> head i = Some op -> is_simple_char op = true -> simple_body cc n r ->
      simple_body cc (1 + n) (i ++ r)
  | simple_test op n r :
      op ∈ [REOP_line_start; REOP_line_end; REOP_word_boundary; REOP_not_word_boundary] ->
      simple_body cc n r -> simple_body cc n ([op] ++ r).

Definition is_split (op : Z) : Prop := op ∈ [REOP_split_goto_first; REOP_split_next_first].

(** [frag cc md c]: the balanced code [c] uses at most [md] cells of the stack. *)
Inductive frag (cc : Z) : Z -> list Z -> Prop :=
  | frag_nil : frag cc 0 []
  | frag_app m1 m2 a b : frag cc m1 a -> frag cc m2 b -> frag cc (Z.max m1 m2) (a ++ b)
  | frag_plain i : plain cc i -> frag cc 0 i
  (* a|b *)
  | frag_alt m1 m2 a b : frag cc m1 a -> frag cc m2 b ->
      frag cc (Z.max m1 m2)
        ((REOP_split_next_first :: jmp (zlen a + 5)) ++ a ++ (REOP_goto :: jmp (zlen b)) ++ b)
  (* (?=a) (?!a) (?<=a) (?<!a) *)
  | frag_look op m a : op ∈ [REOP_lookahead; REOP_negative_lookahead] -> frag cc m a ->
      frag cc m ((op :: jmp (zlen a + 1)) ++ a ++ [REOP_match])
  (* a simple quantifier *)
  | frag_greedy mn mx n a : simple_body cc n a -> 0 < n ->
      frag cc 0 ((REOP_simple_greedy_quant
                  :: jmp (zlen a + 1) ++ le_bytes 4 mn ++ le_bytes 4 mx ++ le_bytes 4 n)
                 ++ a ++ [REOP_match])
  (* a? *)
  | frag_opt op m a : is_split op -> frag cc m a -> frag cc m ((op :: jmp (zlen a)) ++ a)
  (* a* *)
  | frag_star op m a : is_split op -> frag cc m a ->
      frag cc m ((op :: jmp (zlen a + 5)) ++ a ++ (REOP_goto :: jmp (- (zlen a + 10))))
  (* a* where a may match the empty string *)
  | frag_star_check op m a : is_split op -> frag cc m a ->
      frag cc (m + 1)
        ((op :: jmp (zlen a + 6)) ++ [REOP_push_char_pos] ++ a
         ++ (REOP_bne_char_pos :: jmp (- (zlen a + 11))))
  (* a{0,n} *)
  | frag_upto op m a n : is_split op -> frag cc m a ->
      frag cc (m + 1)
        ((REOP_push_i32 :: le_bytes 4 n) ++ (op :: jmp (zlen a + 5)) ++ a
         ++ (REOP_loop :: jmp (- (zlen a + 10))) ++ [REOP_drop])
  (* a+ *)
  | frag_plus op m a : is_split op -> frag cc m a ->
      frag cc m (a ++ (op :: jmp (- (zlen a + 5))))
  (* a{n} *)
  | frag_times m a n : frag cc m a ->
      frag cc (m + 1)
        ((REOP_push_i32 :: le_bytes 4 n) ++ a ++ (REOP_loop :: jmp (- (zlen a + 5)))
         ++ [REOP_drop]).

(** ** Elementary facts *)

Lemma zlen_jmp off : zlen (jmp off) = 4.
Proof. apply (zlen_le_bytes 4). Qed.
#[export] Hint Rewrite zlen_jmp @zlen_le_bytes : zlen.

Ltac inv_elem H :=
  repeat (apply elem_of_cons in H as [H|H]; [try discriminate H; try subst|]);
  try by apply elem_of_nil in H.

Ltac in_list := apply list_elem_of_In; cbn; tauto.

Lemma plain_mono cc cc' i : cc <= cc' -> plain cc i -> plain cc' i.
Proof. intros Hle. destruct 1; econstructor; done || lia. Qed.

Lemma instr_mono cc cc' i e : cc <= cc' -> instr cc i e -> instr cc' i e.
Proof.
  intros Hle. destruct 1; try by constructor. constructor. by eapply plain_mono.
Qed.

Lemma simple_body_mono cc cc' n a : cc <= cc' -> simple_body cc n a -> simple_body cc' n a.
Proof. intros Hle. induction 1; econstructor; eauto using plain_mono. Qed.

Lemma frag_mono cc cc' m a : cc <= cc' -> frag cc m a -> frag cc' m a.
Proof.
  intros Hle. induction 1;
    [ apply frag_nil | apply frag_app | apply frag_plain | apply frag_alt | apply frag_look
    | apply frag_greedy | apply frag_opt | apply frag_star | apply frag_star_check
    | apply frag_upto | apply frag_plus | apply frag_times ];
    eauto using plain_mono, simple_body_mono.
Qed.

Lemma frag_md_nonneg cc m a : frag cc m a -> 0 <= m.
Proof. induction 1; lia. Qed.

(** The opcode and the length of an instruction, wherever it is. *)
Lemma plain_shape cc i :
  plain cc i -> exists op a, i = op :: a /\ 0 <= op < REOP_COUNT.
Proof.
  destruct 1; try inv_elem H; eauto; eexists _, _; (split; [reflexivity|]); vm_compute;
    (split; [done|]); done.
Qed.

(** ** Where code is *)

(** The bytes [i] are in [code] at [p]. *)
Definition code_at (code : list Z) (p : Z) (i : list Z) : Prop :=
  exists pre post, code = pre ++ i ++ post /\ zlen pre = p.

Lemma code_at_self code : code_at code 0 code.
Proof. exists [], []. by rewrite app_nil_r. Qed.

Lemma code_at_app code p a b : code_at code p (a ++ b) -> code_at code p a /\ code_at code (p + zlen a) b.
Proof.
  intros (pre & post & -> & <-). split.
  - exists pre, (b ++ post). by rewrite <- app_assoc.
  - exists (pre ++ a), post. rewrite <- !app_assoc, zlen_app. done.
Qed.

Lemma code_at_in code p a q i : code_at code p a -> code_at a q i -> code_at code (p + q) i.
Proof.
  intros (pre & post & -> & <-) (pre' & post' & -> & <-).
  exists (pre ++ pre'), (post' ++ post). by rewrite <- !app_assoc, zlen_app.
Qed.

Lemma code_at_range code p i : code_at code p i -> 0 <= p /\ p + zlen i <= zlen code.
Proof. intros (pre & post & -> & <-). zlen_lia. Qed.

Lemma code_at_znth code p x r : code_at code p (x :: r) -> znth code p = Some x.
Proof.
  intros (pre & post & -> & <-). rewrite znth_app_r by lia.
  by rewrite Z.sub_diag.
Qed.

Lemma code_at_u16 code p v r : code_at code p (le_bytes 2 v ++ r) -> get_u16 code p = Some (u16 v).
Proof. intros (pre & post & -> & <-). rewrite <- app_assoc. apply get_u16_app. Qed.

Lemma code_at_u32 code p v r : code_at code p (le_bytes 4 v ++ r) -> get_u32 code p = Some (u32 v).
Proof. intros (pre & post & -> & <-). rewrite <- app_assoc. apply get_u32_app. Qed.

Lemma code_at_tail code p x r : code_at code p (x :: r) -> code_at code (p + 1) r.
Proof. intros H. by apply (code_at_app _ _ [x]) in H as [_ ?]. Qed.

Lemma code_at_u16_1 code p x v r :
  code_at code p (x :: le_bytes 2 v ++ r) -> get_u16 code (p + 1) = Some (u16 v).
Proof. intros H%code_at_tail. by eapply code_at_u16. Qed.

Lemma code_at_u32_1 code p x v r :
  code_at code p (x :: le_bytes 4 v ++ r) -> get_u32 code (p + 1) = Some (u32 v).
Proof. intros H%code_at_tail. by eapply code_at_u32. Qed.

Lemma code_at_nil_r code p i : code_at code p i -> code_at code p (i ++ []).
Proof. by rewrite app_nil_r. Qed.

(** ** Decoding *)

(** What the decoders read at an instruction [op :: _] of [len] bytes. *)
Inductive decoded (code : list Z) (p : Z) (i : list Z) (op : Z) : Prop :=
  | decoded_fixed :
      op <> REOP_range -> op <> REOP_range32 -> reopcode_size op = Some (zlen i) ->
      decoded code p i op
  | decoded_range n :
      op = REOP_range -> get_u16 code (p + 1) = Some n -> zlen i = 3 + n * 4 ->
      decoded code p i op
  | decoded_range32 n :
      op = REOP_range32 -> get_u16 code (p + 1) = Some n -> zlen i = 3 + n * 8 ->
      decoded code p i op.

Ltac fixed_size := apply decoded_fixed; [done|done|]; rewrite ?zlen_cons; zlen_norm
with zlen_norm := autorewrite with zlen; reflexivity.

Lemma instr_decode cc i e code p :
  instr cc i e -> code_at code p i ->
  exists op r, i = op :: r /\ znth code p = Some op /\ decoded code p i op.
Proof.
  intros Hi Hat.
  assert (Hs : exists op r, i = op :: r /\ decoded code p i op).
  { destruct Hi as [i Hi|op off Hop|off| |v| | |off mn mx n]; cycle 1;
      try (eexists _, _; split; [reflexivity|]; try fixed_size).
    { inv_elem Hop; fixed_size. }
    destruct Hi as [op Hop|v|v|op i Hop Hi|op i Hop Hi|a b Ha Hb|n d Hn Hd|n d Hn Hd];
      eexists _, _; (split; [reflexivity|]); try fixed_size;
      try (inv_elem Hop; fixed_size).
    - apply (decoded_range _ _ _ _ (u16 n)); [done|by eapply code_at_u16_1|].
      rewrite u16_small by lia. autorewrite with zlen. lia.
    - apply (decoded_range32 _ _ _ _ (u16 n)); [done|by eapply code_at_u16_1|].
      rewrite u16_small by lia. autorewrite with zlen. lia. }
  destruct Hs as (op & r & -> & Hd). exists op, r. split_and!; [done| |done].
  by eapply code_at_znth.
Qed.

Lemma instr_len_at cc i e code p :
  instr cc i e -> code_at code p i ->
  exists op r, i = op :: r /\ znth code p = Some op /\ instr_len code p = Some (op, zlen i).
Proof.
  intros Hi Hat. destruct (instr_decode cc i e code p Hi Hat) as (op & r & -> & Ho & Hd).
  exists op, r. split_and!; [done..|]. unfold instr_len. rewrite Ho. cbn [mbind option_bind].
  destruct Hd as [H1 H2 ->|n -> -> ->|n -> -> ->]; [|done..].
  cbn [mbind option_bind]. apply Z.eqb_neq in H1, H2. by rewrite H1, H2.
Qed.

Lemma instr_pos cc i e : instr cc i e -> 0 < zlen i.
Proof.
  intros Hi. destruct (instr_decode cc i e i 0 Hi (code_at_self i)) as (op & r & -> & _).
  zlen_lia.
Qed.

(** ** The structure gives the linear view *)

Lemma dlin_app cc d a d1 m1 b d2 m2 :
  dlin cc d a d1 m1 -> dlin cc d1 b d2 m2 -> dlin cc d (a ++ b) d2 (Z.max m1 m2).
Proof.
  induction 1 as [d|d i e r d' m Hi He _ IH]; intros Hb.
  - assert (d <= m2) as Hle by (clear - Hb; induction Hb; lia).
    by rewrite Z.max_r by done.
  - rewrite <- app_assoc, <- Z.max_assoc. econstructor; eauto.
Qed.

Lemma dlin_max cc d a d' m : dlin cc d a d' m -> d <= m.
Proof. induction 1; lia. Qed.

Lemma dlin_one cc d i e : instr cc i e -> 0 <= d + e -> dlin cc d i (d + e) (Z.max d (d + e)).
Proof.
  intros. rewrite <- (app_nil_r i). econstructor; [done..|]. constructor.
Qed.

Lemma dlin_eq cc d a d1 d1' m m' :
  dlin cc d a d1 m -> d1 = d1' -> m = m' -> dlin cc d a d1' m'.
Proof. by intros ? -> ->. Qed.

Lemma simple_body_dlin cc n a d : 0 <= d -> simple_body cc n a -> dlin cc d a d d.
Proof.
  intros Hd. induction 1 as [|i op n r Hi _ _ _ IH|op n r Hop _ IH]; [constructor| |].
  - eapply dlin_eq; [apply (dlin_cons _ d i 0); [by constructor|lia|]|done|apply Z.max_id].
    by rewrite Z.add_0_r.
  - eapply dlin_eq; [apply (dlin_cons _ d [op] 0); [|lia|]|done|apply Z.max_id].
    + constructor. constructor. inv_elem Hop; in_list.
    + by rewrite Z.add_0_r.
Qed.

Lemma split_jump op : is_split op ->
  op ∈ [REOP_goto; REOP_split_goto_first; REOP_split_next_first; REOP_loop; REOP_lookahead;
        REOP_negative_lookahead].
Proof. unfold is_split. intros H. inv_elem H; in_list. Qed.

Lemma look_jump op : op ∈ [REOP_lookahead; REOP_negative_lookahead] ->
  op ∈ [REOP_goto; REOP_split_goto_first; REOP_split_next_first; REOP_loop; REOP_lookahead;
        REOP_negative_lookahead].
Proof. intros H. inv_elem H; in_list. Qed.

(** Chains [dlin_app] over the parts of a construction; [part] solves the sub terms. *)
Ltac dlin_parts part :=
  repeat eapply dlin_app;
  lazymatch goal with
  | |- dlin _ _ (_ :: jmp _) _ _ =>
      eapply dlin_one;
      [first [ apply instr_bne
             | apply instr_jump; first [by apply split_jump | by apply look_jump | in_list] ]
      | lia]
  | |- dlin _ _ [REOP_match] _ _ => eapply dlin_one; [apply instr_match|lia]
  | |- dlin _ _ [REOP_push_char_pos] _ _ => eapply dlin_one; [apply instr_push_char_pos|lia]
  | |- dlin _ _ [REOP_drop] _ _ => eapply dlin_one; [apply instr_drop|lia]
  | |- dlin _ _ (REOP_push_i32 :: _) _ _ => eapply dlin_one; [apply instr_push_i32|lia]
  | |- dlin _ _ (REOP_simple_greedy_quant :: _) _ _ => eapply dlin_one; [apply instr_greedy|lia]
  | |- _ => part
  end.

Lemma frag_dlin cc m a d : 0 <= d -> frag cc m a -> dlin cc d a d (d + m).
Proof.
  intros Hd H. revert d Hd.
  induction H as [|m1 m2 a b Ha IHa Hb IHb|i Hi|m1 m2 a b Ha IHa Hb IHb|op m a Hop Ha IH
    |mn mx n a Ha Hn|op m a Hop Ha IH|op m a Hop Ha IH|op m a Hop Ha IH|op m a n Hop Ha IH
    |op m a Hop Ha IH|m a n Ha IH]; intros d Hd;
    repeat match goal with H : frag _ _ _ |- _ => apply frag_md_nonneg in H end.
  - rewrite Z.add_0_r. constructor.
  - eapply dlin_eq; [eapply dlin_app; [by apply IHa|by apply IHb]|done|lia].
  - eapply dlin_eq; [apply (dlin_one cc d i 0); [by constructor|lia]|lia|lia].
  - eapply dlin_eq; [dlin_parts ltac:(first [apply IHa; lia|apply IHb; lia])|lia|lia].
  - eapply dlin_eq; [dlin_parts ltac:(apply IH; lia)|lia|lia].
  - eapply dlin_eq; [dlin_parts ltac:(eapply simple_body_dlin; [lia|exact Ha])|lia|lia].
  - eapply dlin_eq; [dlin_parts ltac:(apply IH; lia)|lia|lia].
  - eapply dlin_eq; [dlin_parts ltac:(apply IH; lia)|lia|lia].
  - eapply dlin_eq; [dlin_parts ltac:(apply IH; lia)|lia|lia].
  - eapply dlin_eq; [dlin_parts ltac:(apply IH; lia)|lia|lia].
  - eapply dlin_eq; [dlin_parts ltac:(apply IH; lia)|lia|lia].
  - eapply dlin_eq; [dlin_parts ltac:(apply IH; lia)|lia|lia].
Qed.

(** ** The analyses on linear code *)

Lemma length_lt_zlen {A} (l : list A) n : zlen l < Z.of_nat n -> (length l < n)%nat.
Proof. unfold zlen. lia. Qed.

Lemma instr_test cc i e op r :
  instr cc i e -> i = op :: r ->
  op ∈ [REOP_line_start; REOP_line_end; REOP_word_boundary; REOP_not_word_boundary] -> i = [op].
Proof.
  intros Hi E Hop.
  destruct Hi as [i Hi|op' off Hop'|off| |v| | |off mn mx n]; cycle 1;
    try (injection E as <- <-; by inv_elem Hop).
  { injection E as <- <-. by inv_elem Hop; inv_elem Hop'. }
  destruct Hi as [op' Hop'|v|v|op' i Hop' Hi|op' i Hop' Hi|a b Ha Hb|n d Hn Hd|n d Hn Hd];
    injection E as <- <-; try done; try (by inv_elem Hop); by inv_elem Hop; inv_elem Hop'.
Qed.

Lemma instr_simple cc i e op r :
  instr cc i e -> i = op :: r -> is_simple_char op = true -> plain cc i.
Proof.
  intros Hi E Hop.
  destruct Hi as [i Hi|op' off Hop'|off| |v| | |off mn mx n]; [done|..];
    injection E as <- <-; try done. by inv_elem Hop'.
Qed.

(** [re_is_simple_quantifier]: total, and a positive result is the number of characters
    of a simple body. *)
Lemma re_is_simple_quantifier_loop_spec cc d a d' m code p fuel count :
  dlin cc d a d' m -> code_at code p a -> zlen a < Z.of_nat fuel -> 0 <= count ->
  exists r, re_is_simple_quantifier_loop fuel code (p + zlen a) p count = Some r /\
    (r = -1 \/ exists n, simple_body cc n a /\ 0 <= n /\ r = count + n).
Proof.
  intros Ha. revert p fuel count.
  induction Ha as [d|d i e r d' m Hi He Hr IH]; intros p fuel count Hat Hf Hc;
    (destruct fuel as [|fuel]; [zlen_lia|]); cbn [re_is_simple_quantifier_loop].
  { rewrite zlen_nil, Z.add_0_r, Z.ltb_irrefl. exists count. split; [done|]. right.
    exists 0. split_and!; [constructor|lia..]. }
  apply code_at_app in Hat as [Hi1 Hr1].
  destruct (instr_len_at _ _ _ _ _ Hi Hi1) as (op & t & Ei & _ & Hlen).
  pose proof (instr_pos _ _ _ Hi) as Hpos. rewrite zlen_app in *. pose proof (zlen_nonneg r).
  rewrite (proj2 (Z.ltb_lt _ _)) by lia. rewrite Hlen. cbn [mbind option_bind].
  rewrite (Z.add_assoc p (zlen i) (zlen r)).
  destruct (is_simple_char op) eqn:Es.
  { destruct (IH (p + zlen i) fuel (count + 1) Hr1 ltac:(lia) ltac:(lia)) as (x & -> & Hx).
    exists x. split; [done|]. destruct Hx as [->|(n & Hn & Hn0 & ->)]; [by left|right].
    exists (1 + n). split_and!; [|lia..]. eapply simple_char; [|by rewrite Ei|done..].
    by eapply instr_simple. }
  destruct (_ || _) eqn:Et; [|by eexists; eauto].
  assert (Hop : op ∈ [REOP_line_start; REOP_line_end; REOP_word_boundary; REOP_not_word_boundary]).
  { rewrite !orb_true_iff, !Z.eqb_eq in Et. destruct Et as [[[->| ->]| ->]| ->]; in_list. }
  destruct (IH (p + zlen i) fuel count Hr1 ltac:(lia) ltac:(lia)) as (x & -> & Hx).
  exists x. split; [done|]. destruct Hx as [->|(n & Hn & Hn0 & ->)]; [by left|right].
  exists n. split_and!; [|lia..]. rewrite (instr_test _ _ _ _ _ Hi Ei Hop).
  by apply simple_test.
Qed.

(** [re_check_advance] is total. *)
Lemma bitmap_or_ok m val b :
  zlen m = CAPTURE_COUNT_MAX -> 0 <= val < CAPTURE_COUNT_MAX ->
  exists m', bitmap_or m val b = Some m' /\ zlen m' = CAPTURE_COUNT_MAX.
Proof.
  intros Hm Hv. unfold bitmap_or. destruct (znth_is_Some m val) as [x ->]; [lia|].
  cbn [mbind option_bind]. rewrite zupd_is_Some by lia. eexists. split; [done|].
  by rewrite zlen_insert.
Qed.

Lemma bitmap_or_range_ok n m val :
  zlen m = CAPTURE_COUNT_MAX -> 0 <= val -> val + Z.of_nat n <= CAPTURE_COUNT_MAX ->
  exists m', bitmap_or_range n m val = Some m' /\ zlen m' = CAPTURE_COUNT_MAX.
Proof.
  revert m val. induction n as [|n IH]; intros m val Hm Hv Hn; cbn [bitmap_or_range]; [by eauto|].
  destruct (bitmap_or_ok m val 1 Hm ltac:(lia)) as (m' & -> & Hm').
  cbn [mbind option_bind]. apply IH; done || lia.
Qed.

(** The operands that [re_check_advance] reads. *)
Lemma instr_capture_operand cc i e op r code p :
  cc <= CAPTURE_COUNT_MAX -> instr cc i e -> i = op :: r -> code_at code p i ->
  op ∈ [REOP_save_start; REOP_save_end; REOP_back_reference; REOP_backward_back_reference] ->
  exists val, znth code (p + 1) = Some val /\ 0 <= val < CAPTURE_COUNT_MAX.
Proof.
  intros Hcc Hi E Hat Hop.
  destruct Hi as [i Hi|op' off Hop'|off| |v| | |off mn mx n]; cycle 1;
    try (injection E as <- <-; by inv_elem Hop).
  { injection E as <- <-. by inv_elem Hop; inv_elem Hop'. }
  destruct Hi as [op' Hop'|v|v|op' i Hop' Hi|op' i Hop' Hi|a b Ha Hb|n d Hn Hd|n d Hn Hd];
    try (injection E as <- <-; by inv_elem Hop); injection E as <- <-.
  1: by inv_elem Hop; inv_elem Hop'.
  all: exists i; split; [|lia]; apply code_at_tail in Hat; by eapply code_at_znth.
Qed.

Lemma instr_reset_operands cc i e r code p :
  instr cc i e -> i = REOP_save_reset :: r -> code_at code p i ->
  exists a b, znth code (p + 1) = Some a /\ znth code (p + 2) = Some b /\ 0 <= a /\ 0 <= b < cc.
Proof.
  intros Hi E Hat.
  destruct Hi as [i Hi|op' off Hop'|off| |v| | |off mn mx n]; cycle 1; try done.
  { injection E as -> <-. by inv_elem Hop'. }
  destruct Hi as [op' Hop'|v|v|op' i Hop' Hi|op' i Hop' Hi|a b Ha Hb|n d Hn Hd|n d Hn Hd];
    try done; try (injection E as -> <-; by inv_elem Hop').
  exists a, b. apply code_at_tail in Hat as H1. split_and!; [by eapply code_at_znth| |lia..].
  apply code_at_tail in H1. replace (p + 2) with (p + 1 + 1) by lia. by eapply code_at_znth.
Qed.

Lemma re_check_advance_loop_ok cc d a d' m code p fuel ret br bm :
  cc <= CAPTURE_COUNT_MAX -> dlin cc d a d' m -> code_at code p a -> zlen a < Z.of_nat fuel ->
  zlen bm = CAPTURE_COUNT_MAX ->
  is_Some (re_check_advance_loop fuel code (p + zlen a) p ret br bm).
Proof.
  intros Hcc Ha. revert p fuel ret br bm.
  induction Ha as [d|d i e r d' m Hi He Hr IH]; intros p fuel ret br bm Hat Hf Hbm;
    (destruct fuel as [|fuel]; [zlen_lia|]); cbn [re_check_advance_loop].
  { rewrite zlen_nil, Z.add_0_r, Z.ltb_irrefl. eauto. }
  apply code_at_app in Hat as [Hi1 Hr1].
  destruct (instr_len_at _ _ _ _ _ Hi Hi1) as (op & t & Ei & _ & Hlen).
  pose proof (instr_pos _ _ _ Hi) as Hpos. rewrite zlen_app in *. pose proof (zlen_nonneg r).
  rewrite (proj2 (Z.ltb_lt _ _)) by lia. rewrite Hlen. cbn [mbind option_bind].
  rewrite (Z.add_assoc p (zlen i) (zlen r)). cbv zeta.
  assert (IH' : forall ret br bm, zlen bm = CAPTURE_COUNT_MAX ->
    is_Some (re_check_advance_loop fuel code (p + zlen i + zlen r) (p + zlen i) ret br bm)).
  { intros. apply IH; done || lia. }
  destruct (is_simple_char op); [by apply IH'|].
  destruct (_ || _ || _); [by apply IH'|].
  destruct ((op =? REOP_save_start) || _) eqn:E1.
  { destruct (instr_capture_operand cc i e op t code p) as (val & -> & Hv); try done.
    { rewrite orb_true_iff, !Z.eqb_eq in E1. destruct E1 as [-> | ->]; in_list. }
    cbn [mbind option_bind]. destruct (bitmap_or_ok bm val 1 Hbm Hv) as (bm' & -> & ?). by apply IH'. }
  destruct (op =? REOP_save_reset) eqn:E2.
  { apply Z.eqb_eq in E2 as ->.
    destruct (instr_reset_operands cc i e t code p) as (x & y & -> & -> & Hx & Hy); try done.
    cbn [mbind option_bind].
    destruct (decide (x <= y)) as [Hxy|Hxy].
    - destruct (bitmap_or_range_ok (Z.to_nat (y - x)) bm x Hbm) as (bm' & -> & ?); [lia..|]. by apply IH'.
    - replace (Z.to_nat (y - x)) with O by lia. by apply IH'. }
  destruct ((op =? REOP_back_reference) || _) eqn:E3; [|by apply IH'].
  destruct (instr_capture_operand cc i e op t code p) as (val & -> & Hv); try done.
  { rewrite orb_true_iff, !Z.eqb_eq in E3. destruct E3 as [-> | ->]; in_list. }
  cbn [mbind option_bind]. destruct (bitmap_or_ok bm val 2 Hbm Hv) as (bm' & -> & ?). by apply IH'.
Qed.

(** The effect on the depth, as [compute_stack_size] sees it. *)
Lemma instr_effect cc i e op r :
  instr cc i e -> i = op :: r ->
  e = if (op =? REOP_push_i32) || (op =? REOP_push_char_pos) then 1
      else if (op =? REOP_drop) || (op =? REOP_bne_char_pos) then -1 else 0.
Proof.
  intros Hi E.
  destruct Hi as [i Hi|op' off Hop'|off| |v| | |off mn mx n]; cycle 1;
    try (injection E as <- <-; done).
  { injection E as <- <-. by inv_elem Hop'. }
  destruct Hi as [op' Hop'|v|v|op' i Hop' Hi|op' i Hop' Hi|a b Ha Hb|n d Hn Hd|n d Hn Hd];
    injection E as <- <-; try done; by inv_elem Hop'.
Qed.

(** [compute_stack_size] is exact, and none of its asserts fails. *)
Lemma compute_stack_size_loop_spec cc d a d' m code p fuel mx :
  dlin cc d a d' m -> code_at code p a -> zlen a < Z.of_nat fuel ->
  0 <= d <= mx -> mx <= STACK_SIZE_MAX ->
  compute_stack_size_loop fuel code (p + zlen a) p d mx
  = Some (if m <=? STACK_SIZE_MAX then Z.max mx m else -1).
Proof.
  intros Ha. revert p fuel mx.
  induction Ha as [d|d i e r d' m Hi He Hr IH]; intros p fuel mx Hat Hf Hd Hmx;
    (destruct fuel as [|fuel]; [zlen_lia|]); cbn [compute_stack_size_loop].
  { rewrite zlen_nil, Z.add_0_r, Z.ltb_irrefl. destruct (Z.leb_spec d STACK_SIZE_MAX); f_equal; lia. }
  apply code_at_app in Hat as [Hi1 Hr1].
  destruct (instr_decode _ _ _ _ _ Hi Hi1) as (op & t & Ei & Ho & Hdec).
  pose proof (instr_pos _ _ _ Hi) as Hpos. rewrite zlen_app in *. pose proof (zlen_nonneg r).
  rewrite (proj2 (Z.ltb_lt _ _)) by lia. rewrite Ho. cbn [mbind option_bind].
  pose proof (instr_effect _ _ _ _ _ Hi Ei) as Ee.
  pose proof (dlin_max _ _ _ _ _ Hr) as Hm.
  assert (IH' : forall mx', d + e <= mx' <= STACK_SIZE_MAX ->
    compute_stack_size_loop fuel code (p + (zlen i + zlen r)) (p + zlen i) (d + e) mx'
    = Some (if m <=? STACK_SIZE_MAX then Z.max mx' m else -1)).
  { intros mx' Hmx'. rewrite Z.add_assoc. apply IH; done || lia. }
  destruct Hdec as [H1 H2 ->|n -> -> Hz|n -> -> Hz].
  2,3: cbn in Ee; subst e; vm_compute reopcode_size; cbn [mbind option_bind];
    rewrite (proj2 (Z.leb_le _ _)) by lia; cbn -[compute_stack_size_loop Z.add Z.mul Z.max STACK_SIZE_MAX];
    rewrite <- Hz; rewrite (Z.add_0_r d) in IH'; rewrite IH' by lia;
    destruct (Z.leb_spec m STACK_SIZE_MAX), (Z.leb_spec (Z.max d m) STACK_SIZE_MAX); f_equal; lia.
  cbn [mbind option_bind]. rewrite (proj2 (Z.leb_le _ _)) by lia. cbv zeta.
  destruct ((op =? REOP_push_i32) || _).
  { subst e. rewrite !Z.gtb_ltb. destruct (Z.ltb_spec mx (d + 1)).
    - destruct (Z.ltb_spec STACK_SIZE_MAX (d + 1)).
      + destruct (Z.leb_spec (Z.max d m) STACK_SIZE_MAX); [lia|done].
      + rewrite IH' by lia.
        destruct (Z.leb_spec m STACK_SIZE_MAX), (Z.leb_spec (Z.max d m) STACK_SIZE_MAX); f_equal; lia.
    - rewrite IH' by lia.
      destruct (Z.leb_spec m STACK_SIZE_MAX), (Z.leb_spec (Z.max d m) STACK_SIZE_MAX); f_equal; lia. }
  destruct ((op =? REOP_drop) || _).
  { subst e. rewrite Z.gtb_ltb, (proj2 (Z.ltb_lt _ _)) by lia. change (d - 1) with (d + -1).
    rewrite IH' by lia.
    destruct (Z.leb_spec m STACK_SIZE_MAX), (Z.leb_spec (Z.max d m) STACK_SIZE_MAX); f_equal; lia. }
  subst e. rewrite Z.add_0_r in IH'. apply Z.eqb_neq in H1, H2. rewrite H1, H2.
  rewrite IH' by lia.
  destruct (Z.leb_spec m STACK_SIZE_MAX), (Z.leb_spec (Z.max d m) STACK_SIZE_MAX); f_equal; lia.
Qed.
