(* ===== verification/RePoints.v ===== *)
(** * The control flow of structured byte code

    [closed cc md c P]: [P] is a set of points of the code [c], an offset and a depth of
    the stack each, that contains the entry and the exit and is closed under the control
    flow of the matcher; every point before the exit is the start of an instruction and
    no depth is negative or above [md].  Every fragment is closed ([frag_closed]). *)

From S2P Require Import Prelude Bytes ReOpcode ReCode.

(** The instruction at [p] and where it leads, with the depth [d] of the stack. *)
Inductive flow (cc : Z) (c : list Z) (P : Z -> Z -> Prop) (p d : Z) : Prop :=
  | flow_plain i : plain cc i -> code_at c p i -> P (p + zlen i) d -> flow cc c P p d
  | flow_goto off :
      code_at c p (REOP_goto :: jmp off) -> P (p + 5 + off) d -> flow cc c P p d
  | flow_split op off :
      is_split op -> code_at c p (op :: jmp off) -> P (p + 5) d -> P (p + 5 + off) d ->
      flow cc c P p d
  | flow_look op off :
      op ∈ [REOP_lookahead; REOP_negative_lookahead] -> code_at c p (op :: jmp off) ->
      P (p + 5) d -> P (p + 5 + off) d -> flow cc c P p d
  | flow_match : code_at c p [REOP_match] -> flow cc c P p d
  | flow_push_i32 v :
      code_at c p (REOP_push_i32 :: le_bytes 4 v) -> P (p + 5) (d + 1) -> flow cc c P p d
  | flow_push_char_pos :
      code_at c p [REOP_push_char_pos] -> P (p + 1) (d + 1) -> flow cc c P p d
  | flow_drop : code_at c p [REOP_drop] -> 0 < d -> P (p + 1) (d - 1) -> flow cc c P p d
  | flow_loop off :
      code_at c p (REOP_loop :: jmp off) -> 0 < d -> P (p + 5) d -> P (p + 5 + off) d ->
      flow cc c P p d
  | flow_bne off :
      code_at c p (REOP_bne_char_pos :: jmp off) -> 0 < d -> P (p + 5) (d - 1) ->
      P (p + 5 + off) (d - 1) -> flow cc c P p d
  | flow_greedy mn mx n b :
      code_at c p ((REOP_simple_greedy_quant
                    :: jmp (zlen b + 1) ++ le_bytes 4 mn ++ le_bytes 4 mx ++ le_bytes 4 n)
                   ++ b ++ [REOP_match]) ->
      simple_body cc n b -> 0 < n -> P (p + 17 + (zlen b + 1)) d -> flow cc c P p d.

Record closed (cc md : Z) (c : list Z) (P : Z -> Z -> Prop) : Prop := {
  closed_entry : P 0 0;
  closed_exit : P (zlen c) 0;
  closed_exit_depth d : P (zlen c) d -> d = 0;
  closed_range p d : P p d -> 0 <= p <= zlen c /\ 0 <= d <= md;
  closed_flow p d : P p d -> p < zlen c -> flow cc c P p d
}.

(** The same code at [q] in [c'], [k] levels deeper. *)
Lemma flow_lift cc c c' (P Q : Z -> Z -> Prop) p d q k :
  code_at c' q c -> 0 <= k -> (forall p d, P p d -> Q (q + p) (k + d)) ->
  flow cc c P p d -> flow cc c' Q (q + p) (k + d).
Proof.
  intros Hat Hk HPQ Hf.
  assert (HQ : forall p' d' q' k', P p' d' -> q' = q + p' -> k' = k + d' -> Q q' k')
    by (intros ???? ? -> ->; auto).
  destruct Hf as [i Hi Hc H1|off Hc H1|op off Ho Hc H1 H2|op off Ho Hc H1 H2|Hc|v Hc H1|Hc H1
    |Hc H0 H1|off Hc H0 H1 H2|off Hc H0 H1 H2|mn mx n b Hc Hb Hn H1];
    apply (code_at_in _ _ _ _ _ Hat) in Hc.
  - eapply flow_plain; [done..|]. eapply HQ; [exact H1|lia..].
  - eapply flow_goto; [done|]. eapply HQ; [exact H1|lia..].
  - eapply flow_split; [done..| |]; [eapply HQ; [exact H1|lia..]|eapply HQ; [exact H2|lia..]].
  - eapply flow_look; [done..| |]; [eapply HQ; [exact H1|lia..]|eapply HQ; [exact H2|lia..]].
  - by eapply flow_match.
  - eapply flow_push_i32; [done..|]. eapply HQ; [exact H1|lia..].
  - eapply flow_push_char_pos; [done..|]. eapply HQ; [exact H1|lia..].
  - eapply flow_drop; [done|lia|]. eapply HQ; [exact H1|lia..].
  - eapply flow_loop; [done|lia| |]; [eapply HQ; [exact H1|lia..]|eapply HQ; [exact H2|lia..]].
  - eapply flow_bne; [done|lia| |]; [eapply HQ; [exact H1|lia..]|eapply HQ; [exact H2|lia..]].
  - eapply flow_greedy; [done..|]. eapply HQ; [exact H1|lia..].
Qed.

(** ** Constructions around one sub term *)

(** The points of a sub term at [q], [k] levels deep, and others. *)
Definition join (own : list (Z * Z)) (q k : Z) (P : Z -> Z -> Prop) (p d : Z) : Prop :=
  (p, d) ∈ own \/ exists p0 d0, P p0 d0 /\ p = q + p0 /\ d = k + d0.

Lemma closed_wrap cc m md a c (P : Z -> Z -> Prop) own q k :
  let Q := join own q k P in
  closed cc m a P -> code_at c q a -> 0 <= k -> k + m <= md ->
  Q 0 0 -> Q (zlen c) 0 -> (q + zlen a = zlen c -> k = 0) ->
  Forall (fun '(p, d) => 0 <= p <= zlen c /\ 0 <= d <= md /\ (p = zlen c -> d = 0)
                         /\ (p < zlen c -> flow cc c Q p d)) own ->
  (q + zlen a < zlen c -> flow cc c Q (q + zlen a) k) ->
  closed cc md c Q.
Proof.
  intros Q Hc Hat Hk Hm He Hx Hz Hown Hex. pose proof (code_at_range _ _ _ Hat) as Hq.
  pose proof (proj1 (Forall_forall _ _) Hown) as Hall. clear Hown.
  split; [done|done| | |].
  - intros d [Hin%list_elem_of_In|(p0 & d0 & Hp & E & ->)];
      [by apply Hall in Hin as (_ & _ & ? & _); auto|].
    destruct (closed_range _ _ _ _ Hc _ _ Hp) as [Hr _].
    assert (p0 = zlen a) as -> by lia.
    rewrite (closed_exit_depth _ _ _ _ Hc _ Hp). rewrite Hz; lia.
  - intros p d [Hin%list_elem_of_In|(p0 & d0 & Hp & -> & ->)].
    + apply Hall in Hin as (? & ? & _). done.
    + destruct (closed_range _ _ _ _ Hc _ _ Hp) as [Hr Hd]. lia.
  - intros p d [Hin%list_elem_of_In|(p0 & d0 & Hp & -> & ->)] Hlt.
    + apply Hall in Hin as (_ & _ & _ & ?). auto.
    + destruct (closed_range _ _ _ _ Hc _ _ Hp) as [Hr _].
      destruct (decide (p0 = zlen a)) as [->|Hne].
      * rewrite (closed_exit_depth _ _ _ _ Hc _ Hp), Z.add_0_r. auto.
      * eapply flow_lift; [done|done| |].
        { intros p d Hpd. right. eauto. }
        apply (closed_flow _ _ _ _ Hc); [done|lia].
Qed.

(** The points that the constructions mention. *)
Lemma join_own own q k P p d : (p, d) ∈ own -> join own q k P p d.
Proof. by left. Qed.

Lemma join_entry cc m a own q k P p d :
  closed cc m a P -> p = q -> d = k -> join own q k P p d.
Proof. intros Hc -> ->. right. exists 0, 0. split; [apply Hc|lia]. Qed.

Lemma join_exit cc m a own q k P p d :
  closed cc m a P -> p = q + zlen a -> d = k -> join own q k P p d.
Proof. intros Hc -> ->. right. exists (zlen a), 0. split; [apply Hc|lia]. Qed.

(** Finds a point: one of the own ones, up to arithmetic, or an end of the sub term. *)
Lemma elem_of_pair_eq (p d p' d' : Z) (l : list (Z * Z)) : (p', d') ∈ l -> p = p' -> d = d' -> (p, d) ∈ l.
Proof. by intros ? -> ->. Qed.

Ltac own_point :=
  left; first
    [ eapply elem_of_pair_eq; [apply list_elem_of_In; cbn; left; reflexivity|zlen_lia|zlen_lia]
    | eapply elem_of_pair_eq; [apply list_elem_of_In; cbn; right; left; reflexivity|zlen_lia|zlen_lia]
    | eapply elem_of_pair_eq; [apply list_elem_of_In; cbn; right; right; left; reflexivity|zlen_lia|zlen_lia]
    | eapply elem_of_pair_eq; [apply list_elem_of_In; cbn; right; right; right; left; reflexivity|zlen_lia|zlen_lia] ].

(** The conditions on the own points, but for the flow of those that are not the exit. *)
Ltac own_points :=
  repeat apply List.Forall_cons; try apply List.Forall_nil; split_and!; try lia;
  try (intros ?; exfalso; lia); intros _.

Ltac point Hc :=
  first [ eapply join_entry; [exact Hc|zlen_lia|zlen_lia]
        | eapply join_exit; [exact Hc|zlen_lia|zlen_lia]
        | own_point ].

(** Positions of the parts of a concatenation. *)
Ltac split_code H :=
  repeat lazymatch type of H with
  | code_at _ _ (_ ++ _) =>
      let H1 := fresh "Hat" in apply code_at_app in H as [H1 H]
  end.

Lemma code_at_eq c p q i : code_at c p i -> p = q -> code_at c q i.
Proof. by intros ? <-. Qed.

Ltac at_part := eapply code_at_eq; [eassumption|zlen_lia].

Lemma closed_nil cc : closed cc 0 [] (fun p d => p = 0 /\ d = 0).
Proof. split; try done; intros; autorewrite with zlen in *; lia. Qed.

(** An instruction alone. *)
Lemma closed_plain cc i : plain cc i -> closed cc 0 i (fun p d => (p = 0 \/ p = zlen i) /\ d = 0).
Proof.
  intros Hi. pose proof (zlen_nonneg i). split; try lia.
  intros p d [[-> | ->] ->] Hp; [|lia].
  eapply flow_plain; [done|apply code_at_self|lia].
Qed.

Lemma closed_app cc m1 m2 a b P1 P2 :
  closed cc m1 a P1 -> closed cc m2 b P2 ->
  closed cc (Z.max m1 m2) (a ++ b) (fun p d => P1 p d \/ exists p0, P2 p0 d /\ p = zlen a + p0).
Proof.
  intros H1 H2. pose proof (zlen_nonneg a). pose proof (zlen_nonneg b).
  assert (Hat := code_at_self (a ++ b)). apply code_at_app in Hat as [Ha Hb]. rewrite Z.add_0_l in Hb.
  split.
  - left. apply H1.
  - right. exists (zlen b). split; [apply H2|apply zlen_app].
  - intros d. rewrite zlen_app. intros [Hp|(p0 & Hp & E)].
    + destruct (closed_range _ _ _ _ H1 _ _ Hp) as [Hr _].
      replace (zlen a + zlen b) with (zlen a) in Hp by lia. by apply H1 in Hp.
    + replace p0 with (zlen b) in Hp by lia. by apply H2 in Hp.
  - intros p d [Hp|(p0 & Hp & ->)]; rewrite zlen_app.
    + apply H1 in Hp. lia.
    + apply H2 in Hp. lia.
  - set (Q := fun p d => P1 p d \/ _).
    assert (Hq : forall p d, P2 p d -> p < zlen b -> flow cc (a ++ b) Q (zlen a + p) (0 + d)).
    { intros p d Hp Hlt. eapply (flow_lift cc b); [exact Hb|lia| |by eapply closed_flow].
      intros p1 d1 Hp1. right. exists p1. done. }
    intros p d [Hp|(p0 & Hp & ->)]; rewrite zlen_app; intros Hlt.
    + destruct (closed_range _ _ _ _ H1 _ _ Hp) as [Hr _].
      destruct (decide (p = zlen a)) as [->|Hne].
      * apply H1 in Hp as ->. rewrite <- (Z.add_0_r (zlen a)). apply Hq; [apply H2|lia].
      * apply (flow_lift cc a (a ++ b) P1 Q p d 0 0); [done|lia|by left|].
        apply (closed_flow _ _ _ _ H1); [done|lia].
    + apply (Hq p0 d Hp). lia.
Qed.

Section wrap.
Variables (cc m : Z) (a : list Z) (P : Z -> Z -> Prop).
Hypothesis Hc : closed cc m a P.
Variables (op : Z).
Hypothesis Hm : 0 <= m.

Lemma closed_look : op ∈ [REOP_lookahead; REOP_negative_lookahead] ->
  exists Q, closed cc m ((op :: jmp (zlen a + 1)) ++ a ++ [REOP_match]) Q.
Proof using Hc Hm.
  intros Hop. pose proof (zlen_nonneg a). eexists.
  set (c := _ ++ _ ++ _). assert (Hat := code_at_self c).
  unfold c in Hat at 2. split_code Hat.
  assert (Hz : zlen c = zlen a + 6) by (subst c; zlen_lia).
  apply (closed_wrap cc m m a c P [(0, 0); (zlen c, 0)] 5 0);
    [exact Hc|at_part|lia|lia|point Hc|point Hc|lia| |].
  - own_points.
    eapply flow_look; [exact Hop|at_part| |]; point Hc.
  - intros _. eapply flow_match. at_part.
Qed.

Lemma closed_opt : is_split op -> exists Q, closed cc m ((op :: jmp (zlen a)) ++ a) Q.
Proof using Hc Hm.
  intros Hop. pose proof (zlen_nonneg a). eexists.
  set (c := _ ++ _). assert (Hat := code_at_self c).
  unfold c in Hat at 2. split_code Hat.
  assert (Hz : zlen c = zlen a + 5) by (subst c; zlen_lia).
  apply (closed_wrap cc m m a c P [(0, 0)] 5 0);
    [exact Hc|at_part|lia|lia|point Hc|point Hc|lia| |].
  - own_points.
    eapply flow_split; [exact Hop|at_part| |]; point Hc.
  - lia.
Qed.

Lemma closed_star : is_split op -> exists Q,
  closed cc m ((op :: jmp (zlen a + 5)) ++ a ++ (REOP_goto :: jmp (- (zlen a + 10)))) Q.
Proof using Hc Hm.
  intros Hop. pose proof (zlen_nonneg a). eexists.
  set (c := _ ++ _ ++ _). assert (Hat := code_at_self c).
  unfold c in Hat at 2. split_code Hat.
  assert (Hz : zlen c = zlen a + 10) by (subst c; zlen_lia).
  apply (closed_wrap cc m m a c P [(0, 0); (zlen c, 0)] 5 0);
    [exact Hc|at_part|lia|lia|point Hc|point Hc|lia| |].
  - own_points.
    eapply flow_split; [exact Hop|at_part| |]; point Hc.
  - intros _. eapply flow_goto; [at_part|]. point Hc.
Qed.

Lemma closed_star_check : is_split op -> exists Q,
  closed cc (m + 1) ((op :: jmp (zlen a + 6)) ++ [REOP_push_char_pos] ++ a
                     ++ (REOP_bne_char_pos :: jmp (- (zlen a + 11)))) Q.
Proof using Hc Hm.
  intros Hop. pose proof (zlen_nonneg a). eexists.
  set (c := _ ++ _ ++ _ ++ _). assert (Hat := code_at_self c).
  unfold c in Hat at 2. split_code Hat.
  assert (Hz : zlen c = zlen a + 11) by (subst c; zlen_lia).
  apply (closed_wrap cc m (m + 1) a c P [(0, 0); (5, 0); (zlen c, 0)] 6 1);
    [exact Hc|at_part|lia|lia|point Hc|point Hc|lia| |].
  - own_points.
    + eapply flow_split; [exact Hop|at_part| |]; point Hc.
    + eapply flow_push_char_pos; [at_part|]. point Hc.
  - intros _. eapply flow_bne; [at_part|lia| |]; point Hc.
Qed.

Lemma closed_upto n : is_split op -> exists Q,
  closed cc (m + 1) ((REOP_push_i32 :: le_bytes 4 n) ++ (op :: jmp (zlen a + 5)) ++ a
                     ++ (REOP_loop :: jmp (- (zlen a + 10))) ++ [REOP_drop]) Q.
Proof using Hc Hm.
  intros Hop. pose proof (zlen_nonneg a). eexists.
  set (c := _ ++ _ ++ _ ++ _). assert (Hat := code_at_self c).
  unfold c in Hat at 2. split_code Hat.
  assert (Hz : zlen c = zlen a + 16) by (subst c; zlen_lia).
  apply (closed_wrap cc m (m + 1) a c P [(0, 0); (5, 1); (zlen c - 1, 1); (zlen c, 0)] 10 1);
    [exact Hc|at_part|lia|lia|point Hc|point Hc|lia| |].
  - own_points.
    + eapply flow_push_i32; [at_part|]. point Hc.
    + eapply flow_split; [exact Hop|at_part| |]; point Hc.
    + eapply flow_drop; [at_part|lia|]. point Hc.
  - intros _. eapply flow_loop; [at_part|lia| |]; point Hc.
Qed.

Lemma closed_plus : is_split op -> exists Q,
  closed cc m (a ++ (op :: jmp (- (zlen a + 5)))) Q.
Proof using Hc Hm.
  intros Hop. pose proof (zlen_nonneg a). eexists.
  set (c := _ ++ _). assert (Hat := code_at_self c).
  unfold c in Hat at 2. split_code Hat.
  assert (Hz : zlen c = zlen a + 5) by (subst c; zlen_lia).
  apply (closed_wrap cc m m a c P [(zlen c, 0)] 0 0);
    [exact Hc|at_part|lia|lia|point Hc|point Hc|lia| |].
  - own_points.
  - intros _. eapply flow_split; [exact Hop|at_part| |]; point Hc.
Qed.

Lemma closed_times n : exists Q,
  closed cc (m + 1) ((REOP_push_i32 :: le_bytes 4 n) ++ a
                     ++ (REOP_loop :: jmp (- (zlen a + 5))) ++ [REOP_drop]) Q.
Proof using Hc Hm.
  pose proof (zlen_nonneg a). eexists.
  set (c := _ ++ _ ++ _). assert (Hat := code_at_self c).
  unfold c in Hat at 2. split_code Hat.
  assert (Hz : zlen c = zlen a + 11) by (subst c; zlen_lia).
  apply (closed_wrap cc m (m + 1) a c P [(0, 0); (zlen c - 1, 1); (zlen c, 0)] 5 1);
    [exact Hc|at_part|lia|lia|point Hc|point Hc|lia| |].
  - own_points.
    + eapply flow_push_i32; [at_part|]. point Hc.
    + eapply flow_drop; [at_part|lia|]. point Hc.
  - intros _. eapply flow_loop; [at_part|lia| |]; point Hc.
Qed.
End wrap.

Lemma closed_greedy cc mn mx n a :
  simple_body cc n a -> 0 < n ->
  exists Q, closed cc 0
    ((REOP_simple_greedy_quant :: jmp (zlen a + 1) ++ le_bytes 4 mn ++ le_bytes 4 mx ++ le_bytes 4 n)
     ++ a ++ [REOP_match]) Q.
Proof.
  intros Ha Hn. set (c := _ ++ _ ++ _). pose proof (zlen_nonneg a).
  assert (Hz : zlen c = zlen a + 18) by (subst c; zlen_lia).
  exists (fun p d => (p = 0 \/ p = zlen c) /\ d = 0). split; cbn beta; try lia.
  intros p d [[-> | ->] ->] Hlt; [|lia].
  eapply flow_greedy; [apply code_at_self|done|done|lia].
Qed.

Lemma closed_alt cc m1 m2 a b P1 P2 :
  closed cc m1 a P1 -> closed cc m2 b P2 -> 0 <= m1 -> 0 <= m2 ->
  exists Q, closed cc (Z.max m1 m2)
    ((REOP_split_next_first :: jmp (zlen a + 5)) ++ a ++ (REOP_goto :: jmp (zlen b)) ++ b) Q.
Proof.
  intros H1 H2 Hm1 Hm2. pose proof (zlen_nonneg a). pose proof (zlen_nonneg b).
  set (c := _ ++ _ ++ _ ++ _). assert (Hat := code_at_self c).
  unfold c in Hat at 2. split_code Hat.
  assert (Hz : zlen c = zlen a + zlen b + 10) by (subst c; zlen_lia).
  assert (Ha : code_at c 5 a) by at_part.
  assert (Hb : code_at c (10 + zlen a) b) by at_part.
  set (Q p d := join [(0, 0)] 5 0 P1 p d \/ join [] (10 + zlen a) 0 P2 p d).
  assert (Q1 : forall p d, P1 p d -> Q (5 + p) (0 + d)) by (intros; left; right; eauto).
  assert (Q2 : forall p d, P2 p d -> Q (10 + zlen a + p) (0 + d)) by (intros; right; right; eauto).
  exists Q. split.
  - left. own_point.
  - right. point H2.
  - intros d [[Hin|(p0 & d0 & Hp & E & ->)]|[Hin|(p0 & d0 & Hp & E & ->)]].
    + apply list_elem_of_singleton in Hin. injection Hin as ? ?. lia.
    + apply H1 in Hp. lia.
    + by apply elem_of_nil in Hin.
    + replace p0 with (zlen b) in Hp by lia. apply H2 in Hp. lia.
  - intros p d [[Hin|(p0 & d0 & Hp & -> & ->)]|[Hin|(p0 & d0 & Hp & -> & ->)]].
    + apply list_elem_of_singleton in Hin as [= -> ->]. lia.
    + apply H1 in Hp. lia.
    + by apply elem_of_nil in Hin.
    + apply H2 in Hp. lia.
  - intros p d [[Hin|(p0 & d0 & Hp & -> & ->)]|[Hin|(p0 & d0 & Hp & -> & ->)]] Hlt.
    + apply list_elem_of_singleton in Hin as [= -> ->].
      eapply (flow_split _ _ _ _ _ REOP_split_next_first);
        [|exact Hat0|left; point H1|right; point H2]. unfold is_split. in_list.
    + destruct (closed_range _ _ _ _ H1 _ _ Hp) as [Hr _].
      destruct (decide (p0 = zlen a)) as [->|Hne].
      * apply H1 in Hp as ->. eapply flow_goto; [at_part|]. right. point H2.
      * eapply flow_lift; [exact Ha|lia|exact Q1|]. apply (closed_flow _ _ _ _ H1); [done|lia].
    + by apply elem_of_nil in Hin.
    + eapply flow_lift; [exact Hb|lia|exact Q2|]. apply (closed_flow _ _ _ _ H2); [done|lia].
Qed.

(** Structured code is closed under the control flow of the matcher. *)
Lemma frag_closed cc m a : frag cc m a -> exists P, closed cc m a P.
Proof.
  induction 1 as [|m1 m2 a b Ha [P1 H1] Hb [P2 H2]|i Hi|m1 m2 a b Ha [P1 H1] Hb [P2 H2]
    |op m a Hop Ha [P HP]|mn mx n a Ha Hn|op m a Hop Ha [P HP]|op m a Hop Ha [P HP]
    |op m a Hop Ha [P HP]|op m a n Hop Ha [P HP]|op m a Hop Ha [P HP]|m a n Ha [P HP]];
    repeat match goal with H : frag _ _ _ |- _ => apply frag_md_nonneg in H end.
  - eexists. apply closed_nil.
  - eexists. by apply closed_app.
  - eexists. by apply closed_plain.
  - by eapply closed_alt.
  - by eapply closed_look.
  - by apply closed_greedy.
  - by eapply closed_opt.
  - by eapply closed_star.
  - by eapply closed_star_check.
  - by eapply closed_upto.
  - by eapply closed_plus.
  - by eapply closed_times.
Qed.

(** The whole program: structured code and the final match. *)
Record program (cc md : Z) (c : list Z) (P : Z -> Z -> Prop) : Prop := {
  program_entry : P 0 0;
  program_range p d : P p d -> 0 <= p < zlen c /\ 0 <= d <= md;
  program_flow p d : P p d -> flow cc c P p d
}.

Lemma frag_program cc m a : frag cc m a -> exists P, program cc m (a ++ [REOP_match]) P.
Proof.
  intros Hf. destruct (frag_closed _ _ _ Hf) as [P HP]. exists P.
  assert (Hat := code_at_self (a ++ [REOP_match])). apply code_at_app in Hat as [Ha Hm].
  rewrite Z.add_0_l in Hm. split.
  - apply HP.
  - intros p d Hp. apply HP in Hp. zlen_lia.
  - intros p d Hp. destruct (closed_range _ _ _ _ HP _ _ Hp) as [Hr _].
    destruct (decide (p = zlen a)) as [->|Hne].
    + by apply flow_match.
    + apply (flow_lift cc a (a ++ [REOP_match]) P P p d 0 0); [done|lia|done|].
      apply (closed_flow _ _ _ _ HP); [done|lia].
Qed.
