(* ===== verification/ReState.v ===== *)
(** * The state of the regular expression parser (libregexp.c)

    [REParseState], the monad of the parser functions, the emission of byte code and
    the error reports.  The services the parser takes from libunicode.c and from its
    host are interfaces ([UnicodeDb], [ReHost]). *)

From Stdlib Require Import Ascii String.
From S2P Require Import Prelude CStr Bytes DynBuf CharRange ReOpcode.

(** ** Interfaces *)

(** What the regular expressions use of libunicode.c.  A name is a C string without
    its terminator; the functions on ranges return 0, -1 (no memory) or -2 (unknown
    name). *)
Class UnicodeDb := {
  lre_case_conv : Z -> Z -> list Z;
  lre_is_id_start : Z -> bool;
  lre_is_id_continue : Z -> bool;
  unicode_script : CharRange -> list Z -> bool -> CharRange * Z;
  unicode_general_category : CharRange -> list Z -> CharRange * Z;
  unicode_prop : CharRange -> list Z -> CharRange * Z
}.

(** What the regular expressions rely on: a conversion has a result, and the ranges of
    the properties are well formed. *)
Class UnicodeDbOk (U : UnicodeDb) : Prop := {
  lre_case_conv_result c conv_type : lre_case_conv c conv_type <> [];
  unicode_script_valid name ext cr :
    unicode_script cr_init name ext = (cr, 0) -> cr_valid cr;
  unicode_general_category_valid name cr :
    unicode_general_category cr_init name = (cr, 0) -> cr_valid cr;
  unicode_general_category_unknown name cr r :
    unicode_general_category cr_init name = (cr, r) -> r <> 0 -> r <> -1 ->
    cr = cr_init /\ r < 0;
  unicode_prop_valid name cr : unicode_prop cr_init name = (cr, 0) -> cr_valid cr
}.

(** [lre_check_stack_overflow], "must be provided by the user": here a function of the
    depth of the recursion. *)
Class ReHost := lre_check_stack_overflow : nat -> bool.

(** ** State *)

(** The pattern is an array of bytes that ends with a zero at [buf_end]; the pointers
    [buf_ptr], [buf_end] and the [p] of the functions are indices in it, and
    [buf_start] is 0.  [u] is the union of [error_msg] and [tmp_buf]. *)
Record REParseState := mkREParseState {
  byte_code : DynBuf;
  pat : list Z;
  buf_ptr : Z;
  buf_end : Z;
  re_flags : Z;
  is_utf16 : bool;
  ignore_case : bool;
  dotall : bool;
  capture_count : Z;
  total_capture_count : Z;
  has_named_captures : Z;
  group_names : DynBuf;
  u : list Z
}.

Definition set_byte_code (b : DynBuf) (s : REParseState) : REParseState :=
  mkREParseState b (pat s) (buf_ptr s) (buf_end s) (re_flags s) (is_utf16 s) (ignore_case s)
    (dotall s) (capture_count s) (total_capture_count s) (has_named_captures s)
    (group_names s) (u s).
Definition set_buf_ptr (p : Z) (s : REParseState) : REParseState :=
  mkREParseState (byte_code s) (pat s) p (buf_end s) (re_flags s) (is_utf16 s) (ignore_case s)
    (dotall s) (capture_count s) (total_capture_count s) (has_named_captures s)
    (group_names s) (u s).
Definition set_capture_count (n : Z) (s : REParseState) : REParseState :=
  mkREParseState (byte_code s) (pat s) (buf_ptr s) (buf_end s) (re_flags s) (is_utf16 s)
    (ignore_case s) (dotall s) n (total_capture_count s) (has_named_captures s)
    (group_names s) (u s).
Definition set_captures (total named : Z) (s : REParseState) : REParseState :=
  mkREParseState (byte_code s) (pat s) (buf_ptr s) (buf_end s) (re_flags s) (is_utf16 s)
    (ignore_case s) (dotall s) (capture_count s) total named (group_names s) (u s).
Definition set_group_names (b : DynBuf) (s : REParseState) : REParseState :=
  mkREParseState (byte_code s) (pat s) (buf_ptr s) (buf_end s) (re_flags s) (is_utf16 s)
    (ignore_case s) (dotall s) (capture_count s) (total_capture_count s)
    (has_named_captures s) b (u s).
Definition set_u (m : list Z) (s : REParseState) : REParseState :=
  mkREParseState (byte_code s) (pat s) (buf_ptr s) (buf_end s) (re_flags s) (is_utf16 s)
    (ignore_case s) (dotall s) (capture_count s) (total_capture_count s)
    (has_named_captures s) (group_names s) m.

(** ** The monad of the parser functions

    [Ok] is a return value, [Err] the return of -1 (the message is in [u]), [Undef]
    undefined behaviour in the given state, such as an access outside an object or a
    failing [assert],
    [NoFuel] the end of the fuel. *)
Inductive outcome (A : Type) : Type :=
  | Ok (x : A) (s : REParseState)
  | Err (s : REParseState)
  | Undef (s : REParseState)
  | NoFuel.
Arguments Ok {A} _ _.
Arguments Err {A} _.
Arguments Undef {A} _.
Arguments NoFuel {A}.

Definition M (A : Type) : Type := REParseState -> outcome A.

#[export] Instance M_ret : MRet M := fun A x s => Ok x s.
#[export] Instance M_bind : MBind M := fun A B f m s =>
  match m s with
  | Ok x s' => f x s'
  | Err s' => Err s'
  | Undef s' => Undef s'
  | NoFuel => NoFuel
  end.

(** The result of a computation that may be undefined. *)
Definition lift {A} (o : option A) : M A := fun s =>
  match o with Some x => Ok x s | None => Undef s end.
Definition gets {A} (f : REParseState -> A) : M A := fun s => Ok (f s) s.
Definition modify (f : REParseState -> REParseState) : M unit := fun s => Ok tt (f s).
Definition fail {A} : M A := fun s => Err s.

(** [*p] *)
Definition rd (p : Z) : M Z := fun s => lift (znth (pat s) p) s.

(** ** Errors *)

(** [vsnprintf(s->u.error_msg, sizeof(s->u.error_msg), ...)] for a formatted text. *)
Definition format_error (msg u : list Z) : list Z :=
  let m := take (Z.to_nat (TMP_BUF_SIZE - 1)) msg ++ [0] in
  m ++ drop (length m) u.

Definition re_parse_error {A} (msg : list Z) : M A :=
  modify (fun s => set_u (format_error msg (u s)) s);; fail.

(** The messages, as bytes. *)
Definition bytes_of (s : string) : list Z :=
  map (fun c => Z.of_nat (nat_of_ascii c)) (list_ascii_of_string s).
#[global] Arguments bytes_of _%_string_scope.
Definition re_parse_out_of_memory {A} : M A := re_parse_error (bytes_of "out of memory").

(** ** Emission of byte code

    The emitting functions ignore the result of the buffer, as the code does: its
    error flag is tested later. *)
Section emit.
Context `{Allocator}.

Definition emit (f : DynBuf -> option (DynBuf * Z)) : M unit := fun s =>
  match f (byte_code s) with
  | Some (b, _) => Ok tt (set_byte_code b s)
  | None => Undef s
  end.

(** The same, with the result of the buffer function. *)
Definition emit_ret (f : DynBuf -> option (DynBuf * Z)) : M Z := fun s =>
  match f (byte_code s) with
  | Some (b, r) => Ok r (set_byte_code b s)
  | None => Undef s
  end.

Definition code_size : M Z := gets (fun s => size (byte_code s)).

Definition re_emit_op (op : Z) : M unit := emit (fun b => dbuf_putc b op).

Definition re_emit_op_u32 (op val : Z) : M Z :=
  emit (fun b => dbuf_putc b op);;
  pos ← code_size;
  emit (fun b => dbuf_put_u32 b (u32 val));;
  mret pos.

Definition re_emit_goto (op val : Z) : M Z :=
  emit (fun b => dbuf_putc b op);;
  pos ← code_size;
  emit (fun b => dbuf_put_u32 b (u32 (val - (pos + 4))));;
  mret pos.

Definition re_emit_op_u8 (op val : Z) : M unit :=
  emit (fun b => dbuf_putc b op);; emit (fun b => dbuf_putc b val).

Definition re_emit_op_u16 (op val : Z) : M unit :=
  emit (fun b => dbuf_putc b op);; emit (fun b => dbuf_put_u16 b (u16 val)).

(** [dbuf_insert(&s->byte_code, pos, len)], out of memory if it fails. *)
Definition insert_code (pos len : Z) : M unit :=
  r ← emit_ret (fun b => dbuf_insert b pos len);
  if r =? 0 then mret tt else re_parse_out_of_memory.

(** [s->byte_code.buf\[pos\] = v] and [put_u32(s->byte_code.buf + pos, v)] *)
Definition poke (pos v : Z) : M unit :=
  emit (fun b => l ← zupd (buf b) pos (u8 v); Some (set_buf b l (size b), 0)).
Definition poke_u32 (pos v : Z) : M unit :=
  emit (fun b => l ← put_u32 (buf b) pos (u32 v); Some (set_buf b l (size b), 0)).

Definition code_error : M bool := gets (fun s => dbuf_error (byte_code s)).
End emit.
