(* ===== verification/UnicodeInst.v ===== *)
(** * The interface of the regular expressions to Unicode, from the tables

    The conversions and the tests of identifiers of [CaseConv] and the ranges of the
    properties of [UnicodeProps] implement [UnicodeDb]. *)

From S2P Require Import Prelude CStr UnicodeTables CaseConv PropTables DynBuf CharRange.
From S2P Require Import UnicodeProps UnicodeSets ReState UnicodePropsOk.

(** The allocator of the tables: every range of code points fits. *)
#[local] Instance table_alloc : Allocator := limit_alloc (2 ^ 40).

#[local] Instance table_alloc_ok : AllocatorOk table_alloc.
Proof. by apply limit_alloc_ok. Qed.

(** The conversions and the tests never fail on code points
    ([CaseConv.lre_case_conv_ok], [CaseConv.lre_is_properties]), the ranges always have a
    result ([UnicodeSets]); [unicode_script], which does not return when an allocation
    fails, stands for a failure there. *)
Definition unicode_tables : UnicodeDb := {|
  lre_case_conv c conv_type := default [c] (CaseConv.lre_case_conv c conv_type);
  lre_is_id_start c := default false (CaseConv.lre_is_id_start c);
  lre_is_id_continue c := default false (CaseConv.lre_is_id_continue c);
  unicode_script cr name is_ext :=
    match UnicodeProps.unicode_script cr (name ++ [0]) is_ext with
    | Some (Some p) => p
    | _ => (cr, -1)
    end;
  unicode_general_category cr name :=
    default (cr, -1) (UnicodeProps.unicode_general_category cr (name ++ [0]));
  unicode_prop cr name := default (cr, -1) (UnicodeProps.unicode_prop cr (name ++ [0]))
|}.

(** A conversion writes at least one character. *)
Definition nonempty_result (o : option (list Z)) : Prop :=
  match o with Some [] => False | _ => True end.

Lemma nonempty_bind {A} (o : option A) f :
  (forall x, nonempty_result (f x)) -> nonempty_result (o ≫= f).
Proof. intros Hf. destruct o; [apply Hf|done]. Qed.

Lemma nonempty_if (b : bool) x y : nonempty_result x -> nonempty_result y ->
  nonempty_result (if b then x else y).
Proof. by destruct b. Qed.

Lemma case_conv_nonempty c conv_type : nonempty_result (CaseConv.lre_case_conv c conv_type).
Proof.
  unfold CaseConv.lre_case_conv, case_conv_run.
  repeat first [ apply nonempty_if | apply nonempty_bind; intros | done ].
  destruct x as [[idx v]|]; [|done].
  repeat first [ apply nonempty_if | apply nonempty_bind; intros | done ].
Qed.

(** A C string ends at its first zero. *)
Lemma c_string_split (name : list Z) : exists s t, name ++ [0] = s ++ 0 :: t /\ no_zero s.
Proof.
  induction name as [|c name (s & t & E & Hs)]; [exists [], []; by repeat constructor|].
  destruct (decide (c = 0)) as [->|Hc]; [exists [], (name ++ [0]); by repeat constructor|].
  exists (c :: s), t. cbn [app]. rewrite E. split; [done|]. by constructor.
Qed.

Lemma fills_valid o set cr : fills o set -> o = Some (cr, 0) -> cr_valid cr.
Proof.
  intros (cr1 & r & -> & Hr) [= -> ->]. destruct Hr as [(_ & Hd & Hp)|[=]]. split; [by exists set|done].
Qed.

Lemma fills_default o set (cr0 cr : CharRange) r : fills o set -> default (cr0, -1) o = (cr, r) -> o = Some (cr, r).
Proof. intros (cr1 & r1 & -> & _) [= -> ->]. done. Qed.

Lemma fills_codes o set cr r : fills o set -> o = Some (cr, r) -> r = 0 \/ r = -1.
Proof. intros (cr1 & r1 & -> & Hr) [= -> ->]. tauto. Qed.

#[export] Instance unicode_tables_ok : UnicodeDbOk unicode_tables.
Proof.
  split; cbn [lre_case_conv unicode_script unicode_general_category unicode_prop unicode_tables].
  - intros c t. pose proof (case_conv_nonempty c t) as Hn.
    destruct (CaseConv.lre_case_conv c t) as [[|x l]|]; done.
  - intros name ext cr. destruct (c_string_split name) as (s & t & -> & Hs).
    pose proof (scripts_fill s t ext Hs) as Hf. destruct (name_index _ s) as [i|].
    + destruct Hf as [->|(cr1 & -> & Hd & Hp)]; [done|]. intros [= ->]. split; [by eexists|done].
    + by rewrite Hf.
  - intros name cr. destruct (c_string_split name) as (s & t & -> & Hs).
    pose proof (category_fills s t Hs) as Hf. destruct (name_index _ s) as [i|]; [|by rewrite Hf].
    intros E. by eapply fills_valid, fills_default.
  - intros name cr r. destruct (c_string_split name) as (s & t & -> & Hs).
    pose proof (category_fills s t Hs) as Hf. destruct (name_index _ s) as [i|].
    + intros E H0 H1. destruct (fills_codes _ _ cr r Hf); [by eapply fills_default|done..].
    + rewrite Hf. cbn. intros [= <- <-] _ _. done.
  - intros name cr. destruct (c_string_split name) as (s & t & -> & Hs).
    pose proof (property_fills s t Hs) as Hf. destruct (name_index _ s) as [i|]; [|by rewrite Hf].
    destruct Hf as (set & _ & Hf). intros E. by eapply fills_valid, fills_default.
Qed.

(** A host whose stack is never exhausted. *)
Definition deep_stack : ReHost := fun _ => false.
