(* ===== verification/ReLex.v ===== *)
(** * Lexical functions of the regular expression parser (libregexp.c)

    Numbers, escapes, identifiers, group names and the prescan for captures.  The
    functions read the pattern [pat] at an index; a read outside the array is [None].
    A pointer argument that the code updates is an extra result. *)

From S2P Require Import Prelude CStr Utf8 ReOpcode ReState.

(** ** Identifiers (libregexp.h, libregexp.c) *)

Definition lre_id_start_table_ascii : list Z := [0x00000000; 0x00000010; 0x87FFFFFE; 0x07FFFFFE].
Definition lre_id_continue_table_ascii : list Z := [0x00000000; 0x03FF0010; 0x87FFFFFE; 0x07FFFFFE].

(** [(table\[c >> 5\] >> (c & 31)) & 1] *)
Definition ascii_table_bit (table : list Z) (c : Z) : option bool :=
  w ← znth table (Z.shiftr c 5);
  Some (Z.land (Z.shiftr w (Z.land c 31)) 1 =? 1).

Definition lre_js_is_ident_first `{UnicodeDb} (c : Z) : option bool :=
  if u32 c <? 128 then ascii_table_bit lre_id_start_table_ascii c
  else Some (lre_is_id_start c).

Definition lre_js_is_ident_next `{UnicodeDb} (c : Z) : option bool :=
  if u32 c <? 128 then ascii_table_bit lre_id_continue_table_ascii c
  else Some (lre_is_id_continue c || (c =? 0x200C) || (c =? 0x200D)).

(** ** Numbers *)

(** The loop of [parse_digits]: [str] is the pattern from [p] on; [None] inside is the
    early return of -1. *)
Fixpoint parse_digits_loop (str : list Z) (p v : Z) (allow_overflow : bool)
  : option (option (Z * Z)) :=
  match str with
  | [] => None
  | c :: str' =>
      if (c <? 48) || (c >? 57) then Some (Some (p, v))
      else
        let v := u64 (v * 10 + c - 48) in
        if v >=? INT32_MAX then
          if allow_overflow then parse_digits_loop str' (p + 1) INT32_MAX allow_overflow
          else Some None
        else parse_digits_loop str' (p + 1) v allow_overflow
  end.

(** The value and the new [*pp]. *)
Definition parse_digits (pat : list Z) (p : Z) (allow_overflow : bool) : option (Z * Z) :=
  r ← parse_digits_loop (drop (Z.to_nat p) pat) p 0 allow_overflow;
  match r with
  | Some (p', v) => Some (v, p')
  | None => Some (-1, p)
  end.

(** ** Escapes *)

(** The loop that reads [n] hexadecimal digits; [None] inside when one is missing. *)
Fixpoint hex_digits (n : nat) (pat : list Z) (p c : Z) : option (option (Z * Z)) :=
  match n with
  | O => Some (Some (c, p))
  | S n' =>
      x ← znth pat p;
      let h := from_hex x in
      if h <? 0 then Some None
      else hex_digits n' pat (p + 1) (Z.lor (u32 (Z.shiftl c 4)) h)
  end.

(** The digits of [\u\{...\}], up to the closing brace. *)
Fixpoint hex_braces (str : list Z) (p c : Z) : option (option (Z * Z)) :=
  match str with
  | [] => None
  | x :: str' =>
      let h := from_hex x in
      if h <? 0 then Some None
      else
        let c := Z.lor (u32 (Z.shiftl c 4)) h in
        if c >? 0x10FFFF then Some None
        else
          y ← head str';
          if y =? 125 then Some (Some (c, p + 1)) else hex_braces str' (p + 1) c
  end.

(** The cases ['x'] and ['u']: [c] is the letter, [p] points after it. *)
Definition parse_hex_escape (pat : list Z) (p c allow_utf16 : Z) : option (option (Z * Z)) :=
  x ← znth pat p;
  if (x =? 123) && negb (allow_utf16 =? 0) then
    r ← hex_braces (drop (Z.to_nat (p + 1)) pat) (p + 1) 0;
    Some (match r with Some (c, p) => Some (c, p + 1) | None => None end)
  else
    r ← hex_digits (if c =? 120 then 2 else 4) pat p 0;
    match r with
    | None => Some None
    | Some (c, p) =>
        if (c >=? 0xd800) && (c <? 0xdc00) && (allow_utf16 =? 2) then
          x0 ← znth pat p;
          if x0 =? 92 then
            x1 ← znth pat (p + 1);
            if x1 =? 117 then
              (* an escaped surrogate pair is one character *)
              r1 ← hex_digits 4 pat (p + 2) 0;
              match r1 with
              | Some (c1, _) =>
                  if (c1 >=? 0xdc00) && (c1 <? 0xe000)
                  then Some (Some (Z.lor (Z.shiftl (Z.land c 0x3ff) 10) (Z.land c1 0x3ff)
                                   + 0x10000, p + 6))
                  else Some (Some (c, p))
              | None => Some (Some (c, p))
              end
            else Some (Some (c, p))
          else Some (Some (c, p))
        else Some (Some (c, p))
    end.

(** The cases ['0'] to ['7']. *)
Definition parse_octal_escape (pat : list Z) (p c allow_utf16 : Z) : option (option (Z * Z)) :=
  let c := c - 48 in
  if allow_utf16 =? 2 then
    if negb (c =? 0) then Some None
    else x ← znth pat p; Some (if is_digit x then None else Some (c, p))
  else
    x ← znth pat p;
    let v := u32 (x - 48) in
    if v >? 7 then Some (Some (c, p))
    else
      let c := Z.lor (Z.shiftl c 3) v in
      let p := p + 1 in
      if c >=? 32 then Some (Some (c, p))
      else
        x ← znth pat p;
        let v := u32 (x - 48) in
        if v >? 7 then Some (Some (c, p))
        else Some (Some (Z.lor (Z.shiftl c 3) v, p + 1)).

(** The result (the character, -1 or -2) and the new [*pp]; [p0] points after the
    backslash. *)
Definition lre_parse_escape (pat : list Z) (p0 allow_utf16 : Z) : option (Z * Z) :=
  c ← znth pat p0;
  let p := p0 + 1 in
  let finish (r : option (option (Z * Z))) :=
    x ← r; Some (match x with Some cp => cp | None => (-1, p0) end) in
  if c =? 98 then Some (8, p)
  else if c =? 102 then Some (12, p)
  else if c =? 110 then Some (10, p)
  else if c =? 114 then Some (13, p)
  else if c =? 116 then Some (9, p)
  else if c =? 118 then Some (11, p)
  else if (c =? 120) || (c =? 117) then finish (parse_hex_escape pat p c allow_utf16)
  else if (48 <=? c) && (c <=? 55) then finish (parse_octal_escape pat p c allow_utf16)
  else Some (-2, p0).

(** [unicode_from_utf8(p, UTF8_CHAR_LEN_MAX, &p)]: the result and the new [p]. *)
Definition utf8_at (pat : list Z) (p : Z) : option (Z * Z) :=
  r ← unicode_from_utf8 (drop (Z.to_nat p) pat) UTF8_CHAR_LEN_MAX;
  Some (match r with
        | Some (c, rest) => (c, zlen pat - zlen rest)
        | None => (-1, p)
        end).

(** ** Group names *)

(** The loop of [re_parse_group_name]: [None] inside is -1, otherwise the final [p] (at
    the closing bracket) and [q]. *)
Fixpoint re_parse_group_name_loop `{UnicodeDb} (fuel : nat) (buf : list Z) (buf_size : Z)
    (pat : list Z) (p q : Z) (is_utf16 : bool) : option (option (Z * Z) * list Z) :=
  match fuel with
  | O => None
  | S fuel' =>
      c ← znth pat p;
      let continue c p :=
        if u32 c >? 0x10FFFF then Some (None, buf)
        else
          ok ← (if q =? 0 then lre_js_is_ident_first c else lre_js_is_ident_next c);
          if negb ok then Some (None, buf)
          else if q + UTF8_CHAR_LEN_MAX + 1 >? buf_size then Some (None, buf)
          else
            let d := if c <? 128 then [c] else unicode_to_utf8 c in
            buf' ← zblit buf q d;
            re_parse_group_name_loop fuel' buf' buf_size pat p (q + zlen d) is_utf16 in
      if c =? 92 then
        x ← znth pat (p + 1);
        if negb (x =? 117) then Some (None, buf)
        else '(c, p) ← lre_parse_escape pat (p + 1) (if is_utf16 then 2 else 0); continue c p
      else if c =? 62 then Some (Some (p, q), buf)
      else if c >=? 128 then '(c, p) ← utf8_at pat p; continue c p
      else continue c (p + 1)
  end.

(** The result (0 or -1), the buffer with the zero terminated name and the new [*pp]. *)
Definition re_parse_group_name `{UnicodeDb} (buf : list Z) (buf_size : Z) (pat : list Z)
    (p0 : Z) (is_utf16 : bool) : option (Z * list Z * Z) :=
  '(r, buf) ← re_parse_group_name_loop (S (length pat)) buf buf_size pat p0 0 is_utf16;
  match r with
  | None => Some (-1, buf, p0)
  | Some (p, q) =>
      if q =? 0 then Some (-1, buf, p0)
      else buf ← zupd buf q 0; Some (0, buf, p + 1)
  end.

(** [strcmp(a, b) == 0] *)
Fixpoint strcmp_eq (a b : list Z) : option bool :=
  match a, b with
  | x :: a', y :: b' =>
      if x =? y then if x =? 0 then Some true else strcmp_eq a' b' else Some false
  | _, _ => None
  end.

(** The loop that skips a class, up to its closing bracket. *)
Fixpoint skip_class (fuel : nat) (pat : list Z) (p buf_end : Z) : option Z :=
  match fuel with
  | O => None
  | S fuel' =>
      if p <? buf_end then
        c ← znth pat p;
        if c =? 93 then Some p
        else skip_class fuel' pat (if c =? 92 then p + 2 else p + 1) buf_end
      else Some p
  end.

(** The result and [*phas_named_captures]; [capture_name] is [None] for NULL. *)
Fixpoint re_parse_captures_loop `{UnicodeDb} (fuel : nat) (pat : list Z) (p buf_end : Z)
    (is_utf16 : bool) (capture_name : option (list Z)) (capture_index has_named : Z)
  : option (Z * Z) :=
  match fuel with
  | O => None
  | S fuel' =>
      let done := Some (match capture_name with Some _ => -1 | None => capture_index end,
                        has_named) in
      let next p := re_parse_captures_loop fuel' pat (p + 1) buf_end is_utf16 capture_name in
      if p <? buf_end then
        c ← znth pat p;
        if c =? 40 then
          let count p capture_index has_named :=
            let capture_index := capture_index + 1 in
            if capture_index >=? CAPTURE_COUNT_MAX
            then Some (match capture_name with Some _ => -1 | None => capture_index end,
                       has_named)
            else next p capture_index has_named in
          c1 ← znth pat (p + 1);
          if c1 =? 63 then
            c2 ← znth pat (p + 2);
            if c2 =? 60 then
              c3 ← znth pat (p + 3);
              if negb (c3 =? 61) && negb (c3 =? 33) then
                match capture_name with
                | Some cname =>
                    '(r, name, p) ← re_parse_group_name (replicate (Z.to_nat TMP_BUF_SIZE) 0)
                                      TMP_BUF_SIZE pat (p + 3) is_utf16;
                    if r =? 0 then
                      eq ← strcmp_eq name cname;
                      if eq : bool then Some (capture_index, 1) else count p capture_index 1
                    else count p capture_index 1
                | None => count p capture_index 1
                end
              else next p capture_index has_named
            else next p capture_index has_named
          else count p capture_index has_named
        else if c =? 92 then next (p + 1) capture_index has_named
        else if c =? 91 then
          p' ← skip_class (S (length pat)) pat (p + 1) buf_end;
          next p' capture_index has_named
        else next p capture_index has_named
      else done
  end.

Definition re_parse_captures `{UnicodeDb} (pat : list Z) (buf_end : Z) (is_utf16 : bool)
    (capture_name : option (list Z)) : option (Z * Z) :=
  re_parse_captures_loop (S (length pat)) pat 0 buf_end is_utf16 capture_name 1 0.

(** The names are stored one after the other, zero terminated; [p] is an index in the
    buffer. *)
Fixpoint find_group_name_loop (fuel : nat) (names : list Z) (p size : Z) (name : list Z)
    (capture_index : Z) : option Z :=
  match fuel with
  | O => None
  | S fuel' =>
      if p <? size then
        len ← strlen (drop (Z.to_nat p) names);
        name_len ← strlen name;
        a ← zslice name 0 name_len;
        if len =? name_len then
          b ← zslice names p name_len;
          if memcmp_eq a b then Some capture_index
          else find_group_name_loop fuel' names (p + len + 1) size name (capture_index + 1)
        else find_group_name_loop fuel' names (p + len + 1) size name (capture_index + 1)
      else Some (-1)
  end.

Definition find_group_name (names : list Z) (size : Z) (name : list Z) : option Z :=
  find_group_name_loop (S (Z.to_nat size)) names 0 size name 1.
