(* ===== verification/ReClass.v ===== *)
(** * Characters and character classes of the regular expressions (libregexp.c)

    Canonicalization, the predefined ranges, class atoms and the parsing and emission
    of character classes. *)

From Stdlib Require Import Ascii String.
From S2P Require Import Prelude CStr Bytes DynBuf Utf8 CharRange ReOpcode ReState ReLex.

(** ** Canonicalization *)

(** [None]: [res\[0\]] is not written by [lre_case_conv]. *)
Definition lre_canonicalize `{UnicodeDb} (c : Z) (is_utf16 : bool) : option Z :=
  if is_utf16 then
    if c <? 128 then
      Some (if (c >=? 65) && (c <=? 90) then c - 65 + 97 else c)
    else head (lre_case_conv c 2)
  else
    if c <? 128 then
      Some (if (c >=? 97) && (c <=? 122) then c - 97 + 65 else c)
    else
      (* legacy regexp: to upper case if single char >= 128 *)
      let res := lre_case_conv c 0 in
      if zlen res =? 1 then
        r ← head res; Some (if r >=? 128 then r else c)
      else Some c.

(** ** Predefined ranges: the number of intervals and their points *)

Definition char_range_d : list Z := [1; 0x0030; 0x0039 + 1].

Definition char_range_s : list Z :=
  [10;
   0x0009; 0x000D + 1;
   0x0020; 0x0020 + 1;
   0x00A0; 0x00A0 + 1;
   0x1680; 0x1680 + 1;
   0x2000; 0x200A + 1;
   0x2028; 0x2029 + 1;
   0x202F; 0x202F + 1;
   0x205F; 0x205F + 1;
   0x3000; 0x3000 + 1;
   0xFEFF; 0xFEFF + 1].

Definition char_range_w : list Z :=
  [4; 0x0030; 0x0039 + 1; 0x0041; 0x005A + 1; 0x005F; 0x005F + 1; 0x0061; 0x007A + 1].

Definition char_range_table : list (list Z) := [char_range_d; char_range_s; char_range_w].

Definition CHAR_RANGE_d : Z := 0.
Definition CHAR_RANGE_D : Z := 1.
Definition CHAR_RANGE_s : Z := 2.
Definition CHAR_RANGE_S : Z := 3.
Definition CHAR_RANGE_w : Z := 4.
Definition CHAR_RANGE_W : Z := 5.

Fixpoint lre_is_space_loop (k : nat) (i c : Z) : option bool :=
  match k with
  | O => Some false
  | S k' =>
      low ← znth char_range_s (2 * i + 1);
      if c <? low then Some false
      else
        high ← znth char_range_s (2 * i + 2);
        if c <? high then Some true else lre_is_space_loop k' (i + 1) c
  end.

Definition lre_is_space (c : Z) : option bool :=
  lre_is_space_loop (Z.to_nat ((zlen char_range_s - 1) / 2)) 0 c.

Section re_class.
Context `{Allocator} `{UnicodeDb}.

Fixpoint cr_add_points (cr : CharRange) (c_pt : list Z) : option (CharRange * Z) :=
  match c_pt with
  | [] => Some (cr, 0)
  | v :: c_pt' =>
      '(cr, r) ← cr_add_point cr v;
      if r =? 0 then cr_add_points cr c_pt' else Some (cr, -1)
  end.

Definition cr_init_char_range (c : Z) : option (CharRange * Z) :=
  let invert := Z.land c 1 =? 1 in
  c_pt ← znth char_range_table (Z.shiftr c 1);
  len ← head c_pt;
  pts ← zslice c_pt 1 (len * 2);
  '(cr, r) ← cr_add_points cr_init pts;
  if negb (r =? 0) then Some (cr_free cr, -1)
  else if invert then
    '(cr, r) ← cr_invert cr;
    if negb (r =? 0) then Some (cr_free cr, -1) else Some (cr, 0)
  else Some (cr, 0).

(** The points of [a] are shifted to the upper case letters. *)
Definition cr_canonicalize (cr : CharRange) : option (CharRange * Z) :=
  '(a, r) ← cr_op cr_init (cr_points cr) (cr_len cr) [97; 122 + 1] 2 CR_OP_INTER;
  if negb (r =? 0) then Some (cr, r)
  else
    let pts := map (fun x => u32 (x + (65 - 97))) (take (Z.to_nat (cr_len a)) (cr_points a)) in
    cr_union1 cr (pts ++ drop (Z.to_nat (cr_len a)) (cr_points a)) (cr_len a).

(** A range function that fails means that there is no memory. *)
Definition cr_call (o : option (CharRange * Z)) : M CharRange :=
  '(cr, r) ← lift o;
  if r =? 0 then mret cr else re_parse_out_of_memory.

(** ** Unicode properties *)

Definition is_unicode_char (c : Z) : bool :=
  ((c >=? 48) && (c <=? 57)) || ((c >=? 65) && (c <=? 90)) || ((c >=? 97) && (c <=? 122))
  || (c =? 95).

(** The characters of a name or a value, at most [room] of them ([None] inside), and
    the new [p]. *)
Fixpoint unicode_chars (str : list Z) (p : Z) (room : nat) : option (option (list Z * Z)) :=
  match str with
  | [] => None
  | c :: str' =>
      if is_unicode_char c then
        match room with
        | O => Some None
        | S room' =>
            r ← unicode_chars str' (p + 1) room';
            Some (match r with Some (n, p') => Some (c :: n, p') | None => None end)
        end
      else Some (Some ([], p))
  end.

Definition unknown_property_name {A} : M A :=
  re_parse_error (bytes_of "unknown unicode property name").

(** The range of the property [name], [value]. *)
Definition unicode_property_range (name value : list Z) : M CharRange :=
  let script (script_ext : bool) : M CharRange :=
    let '(cr, r) := unicode_script cr_init value script_ext in
    if r =? 0 then mret cr
    else if r =? -2 then re_parse_error (bytes_of "unknown unicode script")
    else re_parse_out_of_memory in
  if bool_decide (name = bytes_of "Script") || bool_decide (name = bytes_of "sc")
  then script false
  else if bool_decide (name = bytes_of "Script_Extensions") || bool_decide (name = bytes_of "scx")
  then script true
  else if bool_decide (name = bytes_of "General_Category") || bool_decide (name = bytes_of "gc")
  then
    let '(cr, r) := unicode_general_category cr_init value in
    if r =? 0 then mret cr
    else if r =? -2 then re_parse_error (bytes_of "unknown unicode general category")
    else re_parse_out_of_memory
  else if bool_decide (value = [])
  then
    let '(cr, r) := unicode_general_category cr_init name in
    if r =? -1 then re_parse_out_of_memory
    else if r <? 0 then
      let '(cr, r) := unicode_prop cr name in
      if r =? 0 then mret cr
      else if r =? -2 then unknown_property_name
      else re_parse_out_of_memory
    else mret cr
  else unknown_property_name.

(** [p] points after the letter; the range and the new [p]. *)
Definition parse_unicode_property (p : Z) (is_inv : bool) : M (CharRange * Z) :=
  x ← rd p;
  if negb (x =? 123) then re_parse_error (bytes_of "expecting '{' after \p")
  else
    pat ← gets pat;
    r ← lift (unicode_chars (drop (Z.to_nat (p + 1)) pat) (p + 1) 63);
    match r with
    | None => unknown_property_name
    | Some (name, p) =>
        x ← rd p;
        '(value, p) ←
          (if x =? 61 then
             r ← lift (unicode_chars (drop (Z.to_nat (p + 1)) pat) (p + 1) 63);
             match r with
             | None => re_parse_error (bytes_of "unknown unicode property value")
             | Some vp => mret vp
             end
           else mret ([], p));
        x ← rd p;
        if negb (x =? 125) then re_parse_error (bytes_of "expecting '}'")
        else
          cr ← unicode_property_range name value;
          if is_inv then
            '(cr, r) ← lift (cr_invert cr);
            if r =? 0 then mret (cr, p + 1) else fail
          else mret (cr, p + 1)
    end.

(** ** Class atoms *)

(** The characters that may always be escaped. *)
Definition syntax_chars : list Z := bytes_of "^$\.*+?()[]{}|/".

(** The label [normal_char]: [c] is the byte at [p]. *)
Definition class_normal_char (c p : Z) : M (Z * option CharRange * Z) :=
  if c >=? 128 then
    s ← gets id;
    '(c, p) ← lift (utf8_at (pat s) p);
    if (u32 c >? 0xffff) && negb (is_utf16 s)
    then re_parse_error (bytes_of "malformed unicode char")
    else if c <? 0 then fail else mret (c, None, p)
  else mret (c, None, p + 1).

Definition invalid_escape {A} : M A :=
  re_parse_error (bytes_of "invalid escape sequence in regular expression").

(** The label [class_range] *)
Definition class_range (c p : Z) : M (Z * option CharRange * Z) :=
  '(cr, r) ← lift (cr_init_char_range c);
  if negb (r =? 0) then fail else mret (CLASS_RANGE_BASE, Some cr, p).

(** An escape other than a class, [c], [p] the character after the backslash. *)
Definition class_escape (c p : Z) : M (Z * option CharRange * Z) :=
  s ← gets id;
  '(r, p') ← lift (lre_parse_escape (pat s) p (if is_utf16 s then 2 else 0));
  if r >=? 0 then mret (r, None, p')
  else
    x ← (if r =? -2 then rd p' else mret 0);
    if (r =? -2) && negb (x =? 0) && bool_decide (x ∈ syntax_chars)
    then class_normal_char c p'
    else if is_utf16 s then invalid_escape
    else class_normal_char c p'.

(** The character, or [CLASS_RANGE_BASE] with its range, and the new [p].  The code
    returns a negative value where this is an [Err].  The range is [None] where the code
    leaves [*cr] uninitialized: a use of it is undefined behaviour, which a character
    from [CLASS_RANGE_BASE] on reaches, as the callers take it for a range. *)
Definition get_class_atom (p : Z) (inclass : bool) : M (Z * option CharRange * Z) :=
  s ← gets id;
  c ← rd p;
  if c =? 92 then
    let p := p + 1 in
    if p >=? buf_end s then re_parse_error (bytes_of "unexpected end")
    else
      c ← rd p;
      let p := p + 1 in
      if c =? 100 then class_range CHAR_RANGE_d p
      else if c =? 68 then class_range CHAR_RANGE_D p
      else if c =? 115 then class_range CHAR_RANGE_s p
      else if c =? 83 then class_range CHAR_RANGE_S p
      else if c =? 119 then class_range CHAR_RANGE_w p
      else if c =? 87 then class_range CHAR_RANGE_W p
      else if c =? 99 then
        c ← rd p;
        if ((c >=? 97) && (c <=? 122)) || ((c >=? 65) && (c <=? 90))
           || ((((c >=? 48) && (c <=? 57)) || (c =? 95)) && inclass && negb (is_utf16 s))
        then mret (Z.land c 0x1f, None, p + 1)
        else if is_utf16 s then invalid_escape
        else mret (92, None, p - 1)
      else if ((c =? 112) || (c =? 80)) && is_utf16 s then
        '(cr, p) ← parse_unicode_property p (c =? 80);
        mret (CLASS_RANGE_BASE, Some cr, p)
      else class_escape c (p - 1)
  else if (c =? 0) && (p >=? buf_end s) then re_parse_error (bytes_of "unexpected end")
  else class_normal_char c p.

(** ** Emission of ranges

    [for(i = 0; i < cr->len; i += 2)], [n] iterations. *)

Fixpoint emit_points16 (n : nat) (pts : list Z) (i : Z) : M unit :=
  match n with
  | O => mret tt
  | S n' =>
      a ← lift (znth pts i);
      emit (fun b => dbuf_put_u16 b (u16 a));;
      b ← lift (znth pts (i + 1));
      let high := u32 (b - 1) in
      let high := if high =? UINT32_MAX - 1 then 0xffff else high in
      emit (fun b => dbuf_put_u16 b (u16 high));;
      emit_points16 n' pts (i + 2)
  end.

Fixpoint emit_points32 (n : nat) (pts : list Z) (i : Z) : M unit :=
  match n with
  | O => mret tt
  | S n' =>
      a ← lift (znth pts i);
      emit (fun b => dbuf_put_u32 b a);;
      b ← lift (znth pts (i + 1));
      emit (fun d => dbuf_put_u32 d (u32 (b - 1)));;
      emit_points32 n' pts (i + 2)
  end.

Definition re_emit_range (cr : CharRange) : M unit :=
  let len := u32 (cr_len cr) / 2 in
  if len >=? 65535 then re_parse_error (bytes_of "too many ranges")
  else if len =? 0 then _ ← re_emit_op_u32 REOP_char32 (-1); mret tt
  else
    high ← lift (znth (cr_points cr) (cr_len cr - 1));
    high ← (if high =? UINT32_MAX then lift (znth (cr_points cr) (cr_len cr - 2))
            else mret high);
    if high <=? 0xffff then
      re_emit_op_u16 REOP_range len;;
      emit_points16 (Z.to_nat ((cr_len cr + 1) / 2)) (cr_points cr) 0
    else
      re_emit_op_u16 REOP_range32 len;;
      emit_points32 (Z.to_nat ((cr_len cr + 1) / 2)) (cr_points cr) 0.

(** ** Character classes *)

Definition invalid_class_range {A} : M A := re_parse_error (bytes_of "invalid class range").

(** The label [class_atom]: add the atom to the class. *)
Definition add_class_atom (cr : CharRange) (c1 : Z) (cr1 : option CharRange) : M CharRange :=
  if c1 >=? CLASS_RANGE_BASE then
    cr1 ← lift cr1; cr_call (cr_union1 cr (cr_points cr1) (cr_len cr1))
  else cr_call (cr_union_interval cr c1 c1).

(** The class items from [p] to the closing bracket. *)
Fixpoint re_parse_class_items (fuel : nat) (cr : CharRange) (p : Z) : M (CharRange * Z) :=
  match fuel with
  | O => fun _ => NoFuel
  | S fuel' =>
      x ← rd p;
      if x =? 93 then mret (cr, p)
      else
        s ← gets id;
        '(c1, cr1, p) ← get_class_atom p true;
        x ← rd p;
        dash ← (if x =? 45 then y ← rd (p + 1); mret (negb (y =? 93)) else mret false);
        if dash : bool then
          if c1 >=? CLASS_RANGE_BASE then
            if is_utf16 s then _ ← lift cr1; invalid_class_range
            else cr ← add_class_atom cr c1 cr1; re_parse_class_items fuel' cr p
          else
            '(c2, cr2, p0) ← get_class_atom (p + 1) true;
            if c2 >=? CLASS_RANGE_BASE then
              _ ← lift cr2;
              if is_utf16 s then invalid_class_range
              else cr ← add_class_atom cr c1 cr2; re_parse_class_items fuel' cr p
            else if c2 <? c1 then invalid_class_range
            else cr ← cr_call (cr_union_interval cr c1 c2); re_parse_class_items fuel' cr p0
        else cr ← add_class_atom cr c1 cr1; re_parse_class_items fuel' cr p
  end.

(** The new [*pp]. *)
Definition re_parse_char_class (p : Z) : M Z :=
  let p := p + 1 in
  x ← rd p;
  let '(invert, p) := if x =? 94 then (true, p + 1) else (false, p) in
  s ← gets id;
  '(cr, p) ← re_parse_class_items (S (length (pat s))) cr_init p;
  cr ← (if ignore_case s then cr_call (cr_canonicalize cr) else mret cr);
  cr ← (if invert : bool then cr_call (cr_invert cr) else mret cr);
  re_emit_range cr;;
  mret (p + 1).
End re_class.
