(* ===== verification/ReParse.v ===== *)
(** * The regular expression parser and compiler (libregexp.c)

    Terms, quantifiers, alternatives, disjunctions and [lre_compile].  The functions of
    the code are mutually recursive through [re_parse_disjunction]; here the atoms take
    it as the argument [disj], and [re_parse_disjunction] ties the knot with fuel.  The
    loops over the pattern advance at every iteration, so their fuel is the length of
    the pattern. *)

From Stdlib Require Import Ascii String.
From S2P Require Import Prelude CStr Bytes DynBuf Utf8 CharRange ReOpcode ReState ReLex.
From S2P Require Import ReClass.

Definition when (b : bool) (m : M unit) : M unit := if b then m else mret tt.
Definition if_Z (b : bool) (x y : Z) : Z := if b then x else y.
Abbreviation bZ b := (if_Z b 1 0).

Section re_parse.
Context `{Allocator} `{UnicodeDb} `{ReHost}.

(** ** Captures *)

Definition re_count_captures : M Z :=
  s ← gets id;
  if total_capture_count s <? 0 then
    '(n, h) ← lift (re_parse_captures (pat s) (buf_end s) (is_utf16 s) None);
    modify (set_captures n h);;
    mret n
  else mret (total_capture_count s).

Definition re_has_named_captures : M bool :=
  s ← gets id;
  when (has_named_captures s <? 0) (_ ← re_count_captures; mret tt);;
  s ← gets id;
  mret (negb (has_named_captures s =? 0)).

(** [re_parse_group_name(s->u.tmp_buf, sizeof(s->u.tmp_buf), &p, s->is_utf16)] *)
Definition parse_tmp_name (p : Z) : M (Z * Z) :=
  s ← gets id;
  '(r, u', p) ← lift (re_parse_group_name (u s) TMP_BUF_SIZE (pat s) p (is_utf16 s));
  modify (set_u u');;
  mret (r, p).

(** [find_group_name(s, s->u.tmp_buf)] *)
Definition find_tmp_name : M Z :=
  s ← gets id;
  lift (find_group_name (buf (group_names s)) (size (group_names s)) (u s)).

Definition group_names_put (d : list Z) : M unit := fun s =>
  match dbuf_put (group_names s) d with
  | Some (b, _) => Ok tt (set_group_names b s)
  | None => Undef s
  end.

(** ** Atoms

    The result of an atom is the new [p], [last_atom_start] (-1 for none) and
    [last_capture_count]. *)

Definition re_parse_expect (p c : Z) : M Z :=
  x ← rd p;
  if negb (x =? c) then re_parse_error (bytes_of "expecting '" ++ [c] ++ bytes_of "'")
  else mret (p + 1).

(** [last_atom_start = s->byte_code.size; last_capture_count = s->capture_count;] *)
Definition atom_start : M (Z * Z) := gets (fun s => (size (byte_code s), capture_count s)).

(** The label [normal_char]; [cr] is [None] when it is not initialized. *)
Definition term_normal_char (c : Z) (cr : option CharRange) (p : Z) (is_backward_dir : bool)
  : M (Z * Z * Z) :=
  '(start, cc) ← atom_start;
  when is_backward_dir (re_emit_op REOP_prev);;
  s ← gets id;
  (if c >=? CLASS_RANGE_BASE then cr ← lift cr; re_emit_range cr
   else
     c ← (if ignore_case s then lift (lre_canonicalize c (is_utf16 s)) else mret c);
     if c <=? 0xffff then re_emit_op_u16 REOP_char c
     else _ ← re_emit_op_u32 REOP_char32 c; mret tt);;
  when is_backward_dir (re_emit_op REOP_prev);;
  mret (p, start, cc).

(** The label [parse_class_atom] *)
Definition term_class_atom (p : Z) (is_backward_dir : bool) : M (Z * Z * Z) :=
  '(c, cr, p) ← get_class_atom p false;
  term_normal_char c cr p is_backward_dir.

(** The label [emit_back_reference] *)
Definition term_back_reference (c p : Z) (is_backward_dir : bool) : M (Z * Z * Z) :=
  '(start, cc) ← atom_start;
  re_emit_op_u8 (REOP_back_reference + bZ is_backward_dir) c;;
  mret (p, start, cc).

Definition term_dot (p : Z) (is_backward_dir : bool) : M (Z * Z * Z) :=
  '(start, cc) ← atom_start;
  when is_backward_dir (re_emit_op REOP_prev);;
  s ← gets id;
  re_emit_op (if dotall s then REOP_any else REOP_dot);;
  when is_backward_dir (re_emit_op REOP_prev);;
  mret (p + 1, start, cc).

Definition nothing_to_repeat {A} : M A := re_parse_error (bytes_of "nothing to repeat").

(** Annex B: an opening brace that is not a repetition count is a normal atom. *)
Definition term_brace (p : Z) (is_backward_dir : bool) : M (Z * Z * Z) :=
  s ← gets id;
  if is_utf16 s then re_parse_error (bytes_of "syntax error")
  else
    x ← rd (p + 1);
    if negb (is_digit x) then term_class_atom p is_backward_dir
    else
      '(_, p1) ← lift (parse_digits (pat s) (p + 1) true);
      x ← rd p1;
      p1 ← (if x =? 44 then
              y ← rd (p1 + 1);
              if is_digit y
              then '(_, p2) ← lift (parse_digits (pat s) (p1 + 1) true); mret p2
              else mret (p1 + 1)
            else mret p1);
      x ← rd p1;
      if negb (x =? 125) then term_class_atom p is_backward_dir else nothing_to_repeat.

(** The disjunction between the parentheses, from [p]; the result points after the
    closing one. *)
Definition group_body (disj : bool -> M unit) (p : Z) (is_backward_dir : bool) : M Z :=
  modify (set_buf_ptr p);;
  disj is_backward_dir;;
  p ← gets buf_ptr;
  re_parse_expect p 41.

(** The label [lookahead] *)
Definition term_lookahead (disj : bool -> M unit) (p : Z)
    (is_neg is_backward_lookahead : bool) : M (Z * Z * Z) :=
  s ← gets id;
  '(start, cc) ← (if negb (is_utf16 s) && negb is_backward_lookahead
                  then atom_start else mret (-1, 0));
  pos ← re_emit_op_u32 (REOP_lookahead + bZ is_neg) 0;
  p ← group_body disj p is_backward_lookahead;
  re_emit_op REOP_match;;
  err ← code_error;
  if err : bool then fail
  else
    sz ← code_size;
    poke_u32 pos (sz - (pos + 4));;
    mret (p, start, cc).

(** The label [parse_capture] *)
Definition term_capture (disj : bool -> M unit) (p : Z) (is_backward_dir : bool)
  : M (Z * Z * Z) :=
  s ← gets id;
  if capture_count s >=? CAPTURE_COUNT_MAX then re_parse_error (bytes_of "too many captures")
  else
    '(start, cc) ← atom_start;
    let capture_index := capture_count s in
    modify (set_capture_count (capture_index + 1));;
    re_emit_op_u8 (REOP_save_start + bZ is_backward_dir) capture_index;;
    modify (set_buf_ptr p);;
    disj is_backward_dir;;
    p ← gets buf_ptr;
    re_emit_op_u8 (REOP_save_start + 1 - bZ is_backward_dir) capture_index;;
    p ← re_parse_expect p 41;
    mret (p, start, cc).

(** The named group whose name starts at [p]. *)
Definition term_named_capture (disj : bool -> M unit) (p : Z) (is_backward_dir : bool)
  : M (Z * Z * Z) :=
  '(r, p) ← parse_tmp_name p;
  if negb (r =? 0) then re_parse_error (bytes_of "invalid group name")
  else
    i ← find_tmp_name;
    if i >? 0 then re_parse_error (bytes_of "duplicate group name")
    else
      s ← gets id;
      len ← lift (strlen (u s));
      name ← lift (zslice (u s) 0 (len + 1));
      group_names_put name;;
      modify (fun s => set_captures (total_capture_count s) 1 s);;
      term_capture disj p is_backward_dir.

Definition term_group (disj : bool -> M unit) (p : Z) (is_backward_dir : bool)
  : M (Z * Z * Z) :=
  x ← rd (p + 1);
  if x =? 63 then
    x2 ← rd (p + 2);
    if x2 =? 58 then
      '(start, cc) ← atom_start;
      p ← group_body disj (p + 3) is_backward_dir;
      mret (p, start, cc)
    else if (x2 =? 61) || (x2 =? 33) then term_lookahead disj (p + 3) (x2 =? 33) false
    else if x2 =? 60 then
      x3 ← rd (p + 3);
      if (x3 =? 61) || (x3 =? 33) then term_lookahead disj (p + 4) (x3 =? 33) true
      else term_named_capture disj (p + 3) is_backward_dir
    else re_parse_error (bytes_of "invalid group")
  else
    group_names_put [0];;
    term_capture disj (p + 1) is_backward_dir.

(** A reference by name, [p] at the backslash.  In the non unicode mode without named
    groups an invalid reference is a normal atom. *)
Definition term_named_reference (p : Z) (is_backward_dir : bool) : M (Z * Z * Z) :=
  s ← gets id;
  let invalid (msg : list Z) : M (Z * Z * Z) :=
    named ← (if is_utf16 s then mret true else re_has_named_captures);
    if named : bool then re_parse_error msg else term_class_atom p is_backward_dir in
  x ← rd (p + 2);
  if negb (x =? 60) then invalid (bytes_of "expecting group name")
  else
    '(r, p1) ← parse_tmp_name (p + 3);
    if negb (r =? 0) then invalid (bytes_of "invalid group name")
    else
      c ← find_tmp_name;
      if c <? 0 then
        s1 ← gets id;
        '(c, _) ← lift (re_parse_captures (pat s1) (buf_end s1) (is_utf16 s1) (Some (u s1)));
        if c <? 0 then invalid (bytes_of "group name not defined")
        else term_back_reference c p1 is_backward_dir
      else term_back_reference c p1 is_backward_dir.

(** [p] at the character after the backslash and the zero. *)
Definition term_zero_escape (p : Z) (is_backward_dir : bool) : M (Z * Z * Z) :=
  s ← gets id;
  x ← rd p;
  if is_utf16 s then
    if is_digit x
    then re_parse_error (bytes_of "invalid decimal escape in regular expression")
    else term_normal_char 0 None p is_backward_dir
  else if (x >=? 48) && (x <=? 55) then
    let c := x - 48 in
    y ← rd (p + 1);
    if (y >=? 48) && (y <=? 55)
    then term_normal_char (Z.shiftl c 3 + y - 48) None (p + 2) is_backward_dir
    else term_normal_char c None (p + 1) is_backward_dir
  else term_normal_char 0 None p is_backward_dir.

(** Annex B.1.4: a legacy octal escape, or the digit 8 or 9 itself. *)
Definition legacy_octal (q : Z) : M (Z * Z) :=
  x ← rd q;
  if x <=? 55 then
    let '(c, p) := if x <=? 51 then (x - 48, q + 1) else (0, q) in
    y ← rd p;
    if (y >=? 48) && (y <=? 55) then
      let c := Z.shiftl c 3 + y - 48 in
      z ← rd (p + 1);
      if (z >=? 48) && (z <=? 55) then mret (Z.shiftl c 3 + z - 48, p + 2)
      else mret (c, p + 1)
    else mret (c, p)
  else mret (x, q + 1).

(** [q] at the first digit. *)
Definition term_decimal_escape (q : Z) (is_backward_dir : bool) : M (Z * Z * Z) :=
  s ← gets id;
  '(c, p) ← lift (parse_digits (pat s) q false);
  out_of_range ←
    (if c <? 0 then mret true
     else if c >=? capture_count s then n ← re_count_captures; mret (c >=? n)
     else mret false);
  if out_of_range : bool then
    if is_utf16 s
    then re_parse_error (bytes_of "back reference out of range in regular expression")
    else '(c, p) ← legacy_octal q; term_normal_char c None p is_backward_dir
  else term_back_reference c p is_backward_dir.

(** [p] at the backslash. *)
Definition term_escape (p : Z) (is_backward_dir : bool) : M (Z * Z * Z) :=
  x ← rd (p + 1);
  if (x =? 98) || (x =? 66) then
    re_emit_op (REOP_word_boundary + bZ (negb (x =? 98)));;
    mret (p + 2, -1, 0)
  else if x =? 107 then term_named_reference p is_backward_dir
  else if x =? 48 then term_zero_escape (p + 2) is_backward_dir
  else if (49 <=? x) && (x <=? 57) then term_decimal_escape (p + 1) is_backward_dir
  else term_class_atom p is_backward_dir.

Definition term_class (p : Z) (is_backward_dir : bool) : M (Z * Z * Z) :=
  '(start, cc) ← atom_start;
  when is_backward_dir (re_emit_op REOP_prev);;
  p ← re_parse_char_class p;
  when is_backward_dir (re_emit_op REOP_prev);;
  mret (p, start, cc).

Definition re_parse_atom (disj : bool -> M unit) (is_backward_dir : bool) : M (Z * Z * Z) :=
  p ← gets buf_ptr;
  c ← rd p;
  if c =? 94 then re_emit_op REOP_line_start;; mret (p + 1, -1, 0)
  else if c =? 36 then re_emit_op REOP_line_end;; mret (p + 1, -1, 0)
  else if c =? 46 then term_dot p is_backward_dir
  else if c =? 123 then term_brace p is_backward_dir
  else if (c =? 42) || (c =? 43) || (c =? 63) then nothing_to_repeat
  else if c =? 40 then term_group disj p is_backward_dir
  else if c =? 92 then term_escape p is_backward_dir
  else if c =? 91 then term_class p is_backward_dir
  else if (c =? 93) || (c =? 125) then
    s ← gets id;
    if is_utf16 s then re_parse_error (bytes_of "syntax error")
    else term_class_atom p is_backward_dir
  else term_class_atom p is_backward_dir.

(** ** Quantifiers *)

(** The quantifier at [p]: [Some (quant_min, quant_max)] and the position after it, or
    [None] and the position to continue from. *)
Definition parse_quant (p : Z) : M (option (Z * Z) * Z) :=
  s ← gets id;
  c ← rd p;
  if c =? 42 then mret (Some (0, INT32_MAX), p + 1)
  else if c =? 43 then mret (Some (1, INT32_MAX), p + 1)
  else if c =? 63 then mret (Some (0, 1), p + 1)
  else if c =? 123 then
    x ← rd (p + 1);
    if negb (is_digit x) then
      if is_utf16 s then re_parse_error (bytes_of "invalid repetition count")
      else mret (None, p)
    else
      '(quant_min, p1) ← lift (parse_digits (pat s) (p + 1) true);
      x ← rd p1;
      '(quant_max, p1) ←
        (if x =? 44 then
           y ← rd (p1 + 1);
           if is_digit y then
             '(m, p2) ← lift (parse_digits (pat s) (p1 + 1) true);
             if m <? quant_min then re_parse_error (bytes_of "invalid repetition count")
             else mret (m, p2)
           else mret (INT32_MAX, p1 + 1)
         else mret (quant_min, p1));
      x ← rd p1;
      if negb (x =? 125) && negb (is_utf16 s) then mret (None, p)
      else p1 ← re_parse_expect p1 125; mret (Some (quant_min, quant_max), p1)
  else mret (None, p).

(** [s->byte_code.buf + last_atom_start] as an array. *)
Definition atom_code (start : Z) : M (list Z * Z) :=
  gets (fun s => (drop (Z.to_nat start) (buf (byte_code s)), size (byte_code s) - start)).

(** The optimization for simple quantifiers. *)
Definition emit_simple_quant (start quant_min quant_max len : Z) : M unit :=
  re_emit_op REOP_match;;
  insert_code start 17;;
  poke start REOP_simple_greedy_quant;;
  sz ← code_size;
  poke_u32 (start + 1) (sz - start - 17);;
  poke_u32 (start + 5) quant_min;;
  poke_u32 (start + 9) quant_max;;
  poke_u32 (start + 13) len.

(** [quant_min == 0]; the code of the atom starts at [start]. *)
Definition emit_quant_zero (start len quant_max : Z) (greedy add_zero_advance_check : bool)
  : M unit :=
  if quant_max =? 0 then emit (fun b => Some (set_buf b (buf b) start, 0))
  else if quant_max =? 1 then
    insert_code start 5;;
    poke start (REOP_split_goto_first + bZ greedy);;
    poke_u32 (start + 1) len
  else if quant_max =? INT32_MAX then
    insert_code start (5 + bZ add_zero_advance_check);;
    poke start (REOP_split_goto_first + bZ greedy);;
    poke_u32 (start + 1) (len + 5 + bZ add_zero_advance_check);;
    if add_zero_advance_check then
      poke (start + 1 + 4) REOP_push_char_pos;;
      _ ← re_emit_goto REOP_bne_char_pos start; mret tt
    else _ ← re_emit_goto REOP_goto start; mret tt
  else
    insert_code start 10;;
    poke start REOP_push_i32;;
    poke_u32 (start + 1) quant_max;;
    poke (start + 5) (REOP_split_goto_first + bZ greedy);;
    poke_u32 (start + 6) (len + 5);;
    _ ← re_emit_goto REOP_loop (start + 5);
    re_emit_op REOP_drop.

(** The reset of the captures of an atom that may not be executed; the new start. *)
Definition emit_save_reset (start last_capture_count : Z) : M Z :=
  s ← gets id;
  if negb (last_capture_count =? capture_count s) then
    insert_code start 3;;
    poke start REOP_save_reset;;
    poke (start + 1) last_capture_count;;
    poke (start + 2) (capture_count s - 1);;
    mret (start + 3)
  else mret start.

(** [quant_min > 0], the general case. *)
Definition emit_quant_min (start len quant_min quant_max : Z)
    (greedy add_zero_advance_check : bool) : M unit :=
  start ←
    (if quant_min =? 1 then mret start
     else
       insert_code start 5;;
       poke start REOP_push_i32;;
       poke_u32 (start + 1) quant_min;;
       _ ← re_emit_goto REOP_loop (start + 5);
       re_emit_op REOP_drop;;
       mret (start + 5));
  if quant_max =? INT32_MAX then
    pos ← code_size;
    _ ← re_emit_op_u32 (REOP_split_goto_first + bZ greedy) (len + 5 + bZ add_zero_advance_check);
    when add_zero_advance_check (re_emit_op REOP_push_char_pos);;
    emit (fun b => dbuf_put_self b start len);;
    _ ← re_emit_goto (if add_zero_advance_check then REOP_bne_char_pos else REOP_goto) pos;
    mret tt
  else if quant_max >? quant_min then
    _ ← re_emit_op_u32 REOP_push_i32 (quant_max - quant_min);
    pos ← code_size;
    _ ← re_emit_op_u32 (REOP_split_goto_first + bZ greedy) (len + 5);
    emit (fun b => dbuf_put_self b start len);;
    _ ← re_emit_goto REOP_loop pos;
    re_emit_op REOP_drop
  else mret tt.

(** The code of a quantified atom. *)
Definition emit_quant (start last_capture_count quant_min quant_max : Z) (greedy : bool)
  : M unit :=
  simple ←
    (if greedy && (quant_max >? 0) then
       err ← code_error;
       if err : bool then re_parse_out_of_memory
       else '(bc, bc_len) ← atom_code start; lift (re_is_simple_quantifier bc bc_len)
     else mret 0);
  if simple >? 0 then emit_simple_quant start quant_min quant_max simple
  else
    check ←
      (if greedy then
         err ← code_error;
         if err : bool then re_parse_out_of_memory
         else '(bc, bc_len) ← atom_code start;
              r ← lift (re_check_advance bc bc_len); mret (r =? 0)
       else mret false);
    sz ← code_size;
    let len := sz - start in
    if quant_min =? 0 then
      start ← emit_save_reset start last_capture_count;
      emit_quant_zero start len quant_max greedy check
    else if (quant_min =? 1) && (quant_max =? INT32_MAX) && negb check then
      _ ← re_emit_goto (REOP_split_next_first - bZ greedy) start; mret tt
    else emit_quant_min start len quant_min quant_max greedy check.

(** The quantifier of the atom that starts at [start], if any; the new [p]. *)
Definition re_parse_quantifier (p start last_capture_count : Z) : M Z :=
  '(q, p) ← parse_quant p;
  match q with
  | None => mret p
  | Some (quant_min, quant_max) =>
      x ← rd p;
      let '(greedy, p) := if x =? 63 then (false, p + 1) else (true, p) in
      emit_quant start last_capture_count quant_min quant_max greedy;;
      mret p
  end.

(** ** Terms, alternatives, disjunctions *)

Definition re_parse_term (disj : bool -> M unit) (is_backward_dir : bool) : M unit :=
  '(p, start, cc) ← re_parse_atom disj is_backward_dir;
  p ← (if start >=? 0 then re_parse_quantifier p start cc else mret p);
  modify (set_buf_ptr p).

(** The code of the last term, which starts at [term_start], moves before that of the
    terms since [start]. *)
Definition reverse_term (start term_start : Z) : M unit :=
  end_ ← code_size;
  let term_size := end_ - term_start in
  r ← emit_ret (fun b => Some (dbuf_realloc b (end_ + term_size)));
  if negb (r =? 0) then fail
  else
    emit (fun b =>
      l ← zslice (buf b) start (end_ - start);
      b1 ← zblit (buf b) (start + term_size) l;
      t ← zslice b1 end_ term_size;
      b2 ← zblit b1 start t;
      Some (set_buf b b2 (size b), 0)).

Fixpoint re_parse_alternative_loop (fuel : nat) (disj : bool -> M unit) (start : Z)
    (is_backward_dir : bool) : M unit :=
  match fuel with
  | O => fun _ => NoFuel
  | S fuel' =>
      s ← gets id;
      if buf_ptr s >=? buf_end s then mret tt
      else
        c ← rd (buf_ptr s);
        if (c =? 124) || (c =? 41) then mret tt
        else
          term_start ← code_size;
          re_parse_term disj is_backward_dir;;
          when is_backward_dir (reverse_term start term_start);;
          re_parse_alternative_loop fuel' disj start is_backward_dir
  end.

Definition re_parse_alternative (disj : bool -> M unit) (is_backward_dir : bool) : M unit :=
  start ← code_size;
  s ← gets id;
  re_parse_alternative_loop (S (length (pat s))) disj start is_backward_dir.

(** The alternatives after the first, each after a bar. *)
Fixpoint re_parse_bars (fuel : nat) (disj : bool -> M unit) (start : Z)
    (is_backward_dir : bool) : M unit :=
  match fuel with
  | O => fun _ => NoFuel
  | S fuel' =>
      p ← gets buf_ptr;
      c ← rd p;
      if c =? 124 then
        modify (set_buf_ptr (p + 1));;
        sz ← code_size;
        let len := sz - start in
        insert_code start 5;;
        poke start REOP_split_next_first;;
        poke_u32 (start + 1) (len + 5);;
        pos ← re_emit_op_u32 REOP_goto 0;
        re_parse_alternative disj is_backward_dir;;
        sz ← code_size;
        poke_u32 pos (sz - (pos + 4));;
        re_parse_bars fuel' disj start is_backward_dir
      else mret tt
  end.

(** [depth] is the depth of the recursion, for the check of the stack. *)
Fixpoint re_parse_disjunction (fuel depth : nat) (is_backward_dir : bool) : M unit :=
  match fuel with
  | O => fun _ => NoFuel
  | S fuel' =>
      if lre_check_stack_overflow depth then re_parse_error (bytes_of "stack overflow")
      else
        let disj := re_parse_disjunction fuel' (S depth) in
        start ← code_size;
        re_parse_alternative disj is_backward_dir;;
        s ← gets id;
        re_parse_bars (S (length (pat s))) disj start is_backward_dir
  end.

(** ** The compiler *)

Definition lre_init (pattern : list Z) (buf_len flags : Z) : REParseState := {|
  byte_code := dbuf_init;
  pat := pattern;
  buf_ptr := 0;
  buf_end := buf_len;
  re_flags := flags;
  is_utf16 := has_flag flags LRE_FLAG_UTF16;
  ignore_case := has_flag flags LRE_FLAG_IGNORECASE;
  dotall := has_flag flags LRE_FLAG_DOTALL;
  capture_count := 1;
  total_capture_count := -1;
  has_named_captures := -1;
  group_names := dbuf_init;
  u := replicate (Z.to_nat TMP_BUF_SIZE) 0
|}.

(** Header, search loop and start of the whole match. *)
Definition lre_prologue (flags : Z) : M unit :=
  re_emit_op flags;;
  re_emit_op 0;;
  re_emit_op 0;;
  emit (fun b => dbuf_put_u32 b 0);;
  when (negb (has_flag flags LRE_FLAG_STICKY))
    (_ ← re_emit_op_u32 REOP_split_goto_first (1 + 5);
     re_emit_op REOP_any;;
     _ ← re_emit_op_u32 REOP_goto (-(5 + 1 + 5));
     mret tt);;
  re_emit_op_u8 REOP_save_start 0.

(** End of the match, checks, header. *)
Definition lre_epilogue : M unit :=
  re_emit_op_u8 REOP_save_end 0;;
  re_emit_op REOP_match;;
  p ← gets buf_ptr;
  c ← rd p;
  if negb (c =? 0) then re_parse_error (bytes_of "extraneous characters at the end")
  else
    err ← code_error;
    if err : bool then re_parse_out_of_memory
    else
      s ← gets id;
      stack_size ← lift (compute_stack_size (buf (byte_code s)) (size (byte_code s)));
      if stack_size <? 0 then re_parse_error (bytes_of "too many imbricated quantifiers")
      else
        poke RE_HEADER_CAPTURE_COUNT (capture_count s);;
        poke RE_HEADER_STACK_SIZE stack_size;;
        poke_u32 3 (size (byte_code s) - RE_HEADER_LEN);;
        when (size (group_names s) >? capture_count s - 1)
          (names ← lift (zslice (buf (group_names s)) 0 (size (group_names s)));
           emit (fun b => dbuf_put b names);;
           flags ← (s ← gets id; lift (znth (buf (byte_code s)) RE_HEADER_FLAGS));
           poke RE_HEADER_FLAGS (Z.lor flags LRE_FLAG_NAMED_GROUPS)).

Definition lre_compile_body (fuel : nat) (flags : Z) : M unit :=
  lre_prologue flags;;
  re_parse_disjunction fuel 0 false;;
  lre_epilogue.

(** What [lre_compile] returns: the byte code and [*plen] with the emptied [error_msg],
    or NULL with the message. *)
Inductive compile_result :=
  | Compiled (bc_buf : list Z) (plen : Z) (error_msg : list Z)
  | CompileError (error_msg : list Z)
  | CompileUndef
  | CompileNoFuel.

(** [pattern] is the zero terminated string, [error_msg] the buffer of the caller. *)
Definition lre_compile (fuel : nat) (error_msg : list Z) (error_msg_size : Z)
    (pattern : list Z) (buf_len flags : Z) : compile_result :=
  match lre_compile_body fuel flags (lre_init pattern buf_len flags) with
  | Ok _ s =>
      match zupd error_msg 0 0 with
      | Some m => Compiled (buf (byte_code s)) (size (byte_code s)) m
      | None => CompileUndef
      end
  | Err s =>
      match pstrcpy error_msg error_msg_size (u s) with
      | Some m => CompileError m
      | None => CompileUndef
      end
  | Undef _ => CompileUndef
  | NoFuel => CompileNoFuel
  end.
End re_parse.
