(* ===== verification/ReExec.v ===== *)
(** * The backtracking matcher of the regular expressions (libregexp.c)

    The input is an array of code units (bytes for [cbuf_type] 0, 16 bit units
    otherwise); the pointers into it are indices.  The program counter is an index in
    the compiled code, header included.  Undefined behaviour (an access outside an
    array, a failing [assert], [abort]) is [None] or [Undefined]. *)

From S2P Require Import Prelude Bytes ReOpcode ReState ReClass.

(** ** Characters *)

Definition is_line_terminator (c : Z) : bool :=
  (c =? 10) || (c =? 13) || (c =? CP_LS) || (c =? CP_PS).

Definition is_word_char (c : Z) : bool :=
  ((c >=? 48) && (c <=? 57)) || ((c >=? 97) && (c <=? 122)) || ((c >=? 65) && (c <=? 90))
  || (c =? 95).

Definition is_hi (c : Z) : bool := (c >=? 0xd800) && (c <? 0xdc00).
Definition is_lo (c : Z) : bool := (c >=? 0xdc00) && (c <? 0xe000).
Definition from_surrogates (hi lo : Z) : Z :=
  Z.lor (Z.shiftl (Z.land hi 0x3ff) 10) (Z.land lo 0x3ff) + 0x10000.

Section chars.
Variables (cbuf_type : Z) (cbuf : list Z).

(** The character and the new [cptr]. *)
Definition GET_CHAR (cptr cbuf_end : Z) : option (Z * Z) :=
  c ← znth cbuf cptr;
  let cptr := cptr + 1 in
  if cbuf_type =? 0 then Some (c, cptr)
  else if is_hi c && (cbuf_type =? 2) && (cptr <? cbuf_end) then
    c1 ← znth cbuf cptr;
    Some (if is_lo c1 then (from_surrogates c c1, cptr + 1) else (c, cptr))
  else Some (c, cptr).

Definition PEEK_CHAR (cptr cbuf_end : Z) : option Z :=
  c ← znth cbuf cptr;
  if cbuf_type =? 0 then Some c
  else if is_hi c && (cbuf_type =? 2) && (cptr + 1 <? cbuf_end) then
    c1 ← znth cbuf (cptr + 1);
    Some (if is_lo c1 then from_surrogates c c1 else c)
  else Some c.

Definition PEEK_PREV_CHAR (cptr cbuf_start : Z) : option Z :=
  c ← znth cbuf (cptr - 1);
  if cbuf_type =? 0 then Some c
  else if is_lo c && (cbuf_type =? 2) && (cptr - 2 >=? cbuf_start) then
    c1 ← znth cbuf (cptr - 2);
    Some (if is_hi c1 then from_surrogates c1 c else c)
  else Some c.

Definition GET_PREV_CHAR (cptr cbuf_start : Z) : option (Z * Z) :=
  let cptr := cptr - 1 in
  c ← znth cbuf cptr;
  if cbuf_type =? 0 then Some (c, cptr)
  else if is_lo c && (cbuf_type =? 2) && (cptr >? cbuf_start) then
    c1 ← znth cbuf (cptr - 1);
    Some (if is_hi c1 then (from_surrogates c1 c, cptr - 1) else (c, cptr))
  else Some (c, cptr).

Definition PREV_CHAR (cptr cbuf_start : Z) : option Z :=
  let cptr := cptr - 1 in
  if cbuf_type =? 0 then Some cptr
  else if cbuf_type =? 2 then
    c ← znth cbuf cptr;
    if is_lo c && (cptr >? cbuf_start) then
      c1 ← znth cbuf (cptr - 1);
      Some (if is_hi c1 then cptr - 1 else cptr)
    else Some cptr
  else Some cptr.

(** [for(i = 0; i < n; i++) PREV_CHAR(cptr, s->cbuf)] *)
Fixpoint prev_chars (n : nat) (cptr : Z) : option Z :=
  match n with
  | O => Some cptr
  | S n' => cptr ← PREV_CHAR cptr 0; prev_chars n' cptr
  end.
End chars.

(** ** State *)

Inductive REExecStateEnum :=
  | RE_EXEC_STATE_SPLIT
  | RE_EXEC_STATE_LOOKAHEAD
  | RE_EXEC_STATE_NEGATIVE_LOOKAHEAD
  | RE_EXEC_STATE_GREEDY_QUANT.

(** [rs_capture] and [rs_stack] are the two parts of [buf]; a capture is [None] for
    NULL. *)
Record REExecState := mkREExecState {
  rs_type : REExecStateEnum;
  rs_stack_len : Z;
  rs_count : Z;
  rs_cptr : Z;
  rs_pc : Z;
  rs_capture : list (option Z);
  rs_stack : list Z
}.

(** The constant part of [REExecContext]; [cbuf_addr] is the address of [cbuf]. *)
Record REExecContext := mkREExecContext {
  cbuf : list Z;
  cbuf_addr : Z;
  cbuf_end : Z;
  cbuf_type : Z;
  ctx_capture_count : Z;
  stack_size_max : Z;
  multi_line : bool;
  ctx_ignore_case : bool;
  ctx_is_utf16 : bool
}.

(** The variable part: the arrays [capture] and [stack] of the caller, the local
    variables of [lre_exec_backtrack] and the stack of states, its top first. *)
Record REExecMachine := mkREExecMachine {
  capture : list (option Z);
  stack : list Z;
  stack_len : Z;
  pc : Z;
  cptr : Z;
  state_stack : list REExecState;
  state_stack_size : Z
}.

Definition set_pc (p : Z) (m : REExecMachine) : REExecMachine :=
  mkREExecMachine (capture m) (stack m) (stack_len m) p (cptr m) (state_stack m)
    (state_stack_size m).
Definition set_cptr (p : Z) (m : REExecMachine) : REExecMachine :=
  mkREExecMachine (capture m) (stack m) (stack_len m) (pc m) p (state_stack m)
    (state_stack_size m).
Definition set_capture (c : list (option Z)) (m : REExecMachine) : REExecMachine :=
  mkREExecMachine c (stack m) (stack_len m) (pc m) (cptr m) (state_stack m)
    (state_stack_size m).
Definition set_stack (st : list Z) (n : Z) (m : REExecMachine) : REExecMachine :=
  mkREExecMachine (capture m) st n (pc m) (cptr m) (state_stack m) (state_stack_size m).
Definition set_states (st : list REExecState) (n : Z) (m : REExecMachine) : REExecMachine :=
  mkREExecMachine (capture m) (stack m) (stack_len m) (pc m) (cptr m) st n.

(** The place an instruction leads to. *)
Inductive step_result :=
  | Next (m : REExecMachine)
  | Match_ (m : REExecMachine)
  | NoMatch (m : REExecMachine)
  | Error (m : REExecMachine)
  | Undefined
  | StepNoFuel.

(** Undefined behaviour of a computation inside an instruction. *)
Definition try {A} (o : option A) (f : A -> step_result) : step_result :=
  match o with Some x => f x | None => Undefined end.

Declare Scope exec_scope.
Notation "'let?' x := m 'in' k" := (try m (fun x => k))
  (at level 10, x pattern, m at level 100, k at level 200) : exec_scope.
#[global] Open Scope exec_scope.

(** [lre_realloc] for the stack of states, provided by the user: whether a block of
    that many bytes can be had. *)
Class StateAlloc := state_alloc : Z -> bool.

Section exec.
Context `{UnicodeDb} `{StateAlloc}.
Variable s : REExecContext.
Variable bc_buf : list Z.

(** [sizeof(REExecState)] and the pointers and integers of [buf]. *)
Definition state_size : Z := 32 + ctx_capture_count s * 8 * 2 + stack_size_max s * 8.

(** The new machine and the result, 0 or -1. *)
Definition push_state (m : REExecMachine) (new_pc new_cptr : Z) (type : REExecStateEnum)
    (count : Z) : option (REExecMachine * Z) :=
  let len := zlen (state_stack m) in
  let push (size : Z) :=
    caps ← zslice (capture m) 0 (2 * ctx_capture_count s);
    st ← zslice (stack m) 0 (stack_len m);
    Some (set_states ({| rs_type := type; rs_stack_len := u8 (stack_len m); rs_count := count;
                         rs_cptr := new_cptr; rs_pc := new_pc; rs_capture := caps;
                         rs_stack := st |} :: state_stack m) size m, 0) in
  if len + 1 >? state_stack_size m then
    let new_size := state_stack_size m * 3 / 2 in
    let new_size := if new_size <? 8 then 8 else new_size in
    if state_alloc (new_size * state_size) then push new_size else Some (m, -1)
  else push (state_stack_size m).

(** [pop_state]'s restoration of the captures. *)
Definition restore_capture (rs : REExecState) (m : REExecMachine) : option REExecMachine :=
  c ← zblit (capture m) 0 (rs_capture rs); Some (set_capture c m).

Definition restore_stack (rs : REExecState) (m : REExecMachine) : option REExecMachine :=
  d ← zslice (rs_stack rs) 0 (rs_stack_len rs);
  st ← zblit (stack m) 0 d;
  Some (set_stack st (rs_stack_len rs) m).

(** The label [pop_state1], for the state [rs] on the top of [rest]. *)
Definition pop_state1 (rs : REExecState) (rest : list REExecState) (m : REExecMachine)
  : option REExecMachine :=
  m ← restore_stack rs (set_cptr (rs_cptr rs) (set_pc (rs_pc rs) m));
  Some (set_states rest (state_stack_size m) m).

(** The label [pop_state] *)
Definition pop_state (rs : REExecState) (rest : list REExecState) (m : REExecMachine)
  : option REExecMachine :=
  m ← restore_capture rs m; pop_state1 rs rest m.

(** The failure of a [RE_EXEC_STATE_GREEDY_QUANT] state: one character group less. *)
Definition retry_greedy (rs : REExecState) (rest : list REExecState) (m : REExecMachine)
  : option REExecMachine :=
  m ← restore_capture rs m;
  m ← restore_stack rs m;
  char_count ← get_u32 bc_buf (rs_pc rs + 12);
  cptr ← prev_chars (cbuf_type s) (cbuf s) (Z.to_nat char_count) (rs_cptr rs);
  off ← get_u32 bc_buf (rs_pc rs);
  let count := rs_count rs - 1 in
  let rs' := mkREExecState (rs_type rs) (rs_stack_len rs) count cptr (rs_pc rs)
               (rs_capture rs) (rs_stack rs) in
  Some (set_states (if count =? 0 then rest else rs' :: rest) (state_stack_size m)
          (set_cptr cptr (set_pc (rs_pc rs + 16 + s32 off) m))).

(** The label [recurse]: [inl] resumes the execution, [inr] returns. *)
Fixpoint recurse (st : list REExecState) (m : REExecMachine) (ret : bool)
  : option (REExecMachine + bool * REExecMachine) :=
  match st with
  | [] => Some (inr (ret, set_states [] (state_stack_size m) m))
  | rs :: rest =>
      match rs_type rs with
      | RE_EXEC_STATE_SPLIT =>
          if negb ret then inl <$> pop_state rs rest m else recurse rest m ret
      | RE_EXEC_STATE_GREEDY_QUANT =>
          if negb ret then inl <$> retry_greedy rs rest m else recurse rest m ret
      | RE_EXEC_STATE_LOOKAHEAD =>
          if ret then inl <$> pop_state1 rs rest m else recurse rest m false
      | RE_EXEC_STATE_NEGATIVE_LOOKAHEAD =>
          if negb ret then inl <$> pop_state rs rest m else recurse rest m false
      end
  end.

(** ** Instructions

    [m] is the machine with [pc] after the opcode. *)

(** [if (s->ignore_case) c = lre_canonicalize(c, s->is_utf16)] *)
Definition canonicalize (c : Z) : option Z :=
  if ctx_ignore_case s then lre_canonicalize c (ctx_is_utf16 s) else Some c.

Definition get_char (m : REExecMachine) : option (Z * REExecMachine) :=
  '(c, p) ← GET_CHAR (cbuf_type s) (cbuf s) (cptr m) (cbuf_end s);
  Some (c, set_cptr p m).

(** The label [test_char] *)
Definition exec_char (val : Z) (m : REExecMachine) : step_result :=
  if cptr m >=? cbuf_end s then NoMatch m
  else
    let? (c, m) := get_char m in
    let? c := canonicalize c in
    if negb (val =? c) then NoMatch m else Next m.

Definition pushed (o : option (REExecMachine * Z)) (m_next : REExecMachine -> REExecMachine)
  : step_result :=
  let? (m, ret) := o in
  if ret <? 0 then Error m else Next (m_next m).

Definition exec_split (opcode : Z) (m : REExecMachine) : step_result :=
  let? val := get_u32 bc_buf (pc m) in
  let pc := pc m + 4 in
  let '(pc1, pc) :=
    if opcode =? REOP_split_next_first then (pc + s32 val, pc) else (pc, pc + s32 val) in
  pushed (push_state m pc1 (cptr m) RE_EXEC_STATE_SPLIT 0) (set_pc pc).

Definition exec_lookahead (opcode : Z) (m : REExecMachine) : step_result :=
  let? val := get_u32 bc_buf (pc m) in
  let pc := pc m + 4 in
  pushed (push_state m (pc + s32 val) (cptr m)
            (if opcode =? REOP_lookahead then RE_EXEC_STATE_LOOKAHEAD
             else RE_EXEC_STATE_NEGATIVE_LOOKAHEAD) 0)
    (set_pc pc).

Definition exec_line_start (m : REExecMachine) : step_result :=
  if cptr m =? 0 then Next m
  else if negb (multi_line s) then NoMatch m
  else
    let? c := PEEK_PREV_CHAR (cbuf_type s) (cbuf s) (cptr m) 0 in
    if negb (is_line_terminator c) then NoMatch m else Next m.

Definition exec_line_end (m : REExecMachine) : step_result :=
  if cptr m =? cbuf_end s then Next m
  else if negb (multi_line s) then NoMatch m
  else
    let? c := PEEK_CHAR (cbuf_type s) (cbuf s) (cptr m) (cbuf_end s) in
    if negb (is_line_terminator c) then NoMatch m else Next m.

Definition exec_dot (m : REExecMachine) : step_result :=
  if cptr m =? cbuf_end s then NoMatch m
  else let? (c, m) := get_char m in if is_line_terminator c then NoMatch m else Next m.

Definition exec_any (m : REExecMachine) : step_result :=
  if cptr m =? cbuf_end s then NoMatch m
  else let? (c, m) := get_char m in Next m.

Definition exec_save (opcode : Z) (m : REExecMachine) : step_result :=
  let? val := znth bc_buf (pc m) in
  if val <? ctx_capture_count s then
    let? c := zupd (capture m) (2 * val + opcode - REOP_save_start) (Some (cptr m)) in
    Next (set_capture c (set_pc (pc m + 1) m))
  else Undefined.

(** [while (val <= val2)], [n] iterations. *)
Fixpoint reset_captures (n : nat) (val : Z) (c : list (option Z)) : option (list (option Z)) :=
  match n with
  | O => Some c
  | S n' =>
      c ← zupd c (2 * val) None;
      c ← zupd c (2 * val + 1) None;
      reset_captures n' (val + 1) c
  end.

Definition exec_save_reset (m : REExecMachine) : step_result :=
  let? val := znth bc_buf (pc m) in
  let? val2 := znth bc_buf (pc m + 1) in
  if val2 <? ctx_capture_count s then
    let? c := reset_captures (Z.to_nat (val2 - val + 1)) val (capture m) in
    Next (set_capture c (set_pc (pc m + 2) m))
  else Undefined.

(** [stack\[stack_len++\] = v] *)
Definition push_int (v : Z) (m : REExecMachine) : step_result :=
  let? st := zupd (stack m) (stack_len m) v in Next (set_stack st (stack_len m + 1) m).

Definition exec_push_i32 (m : REExecMachine) : step_result :=
  let? val := get_u32 bc_buf (pc m) in push_int val (set_pc (pc m + 4) m).

Definition exec_loop (m : REExecMachine) : step_result :=
  let? val := get_u32 bc_buf (pc m) in
  let pc := pc m + 4 in
  let? top := znth (stack m) (stack_len m - 1) in
  let top := u64 (top - 1) in
  let? st := zupd (stack m) (stack_len m - 1) top in
  Next (set_pc (if negb (top =? 0) then pc + s32 val else pc) (set_stack st (stack_len m) m)).

(** [(uintptr_t)cptr] *)
Definition char_addr (cptr : Z) : Z :=
  u64 (cbuf_addr s + Z.shiftl cptr (if cbuf_type s =? 0 then 0 else 1)).

Definition exec_bne_char_pos (m : REExecMachine) : step_result :=
  let? val := get_u32 bc_buf (pc m) in
  let pc := pc m + 4 in
  let? top := znth (stack m) (stack_len m - 1) in
  Next (set_pc (if negb (top =? char_addr (cptr m)) then pc + s32 val else pc)
          (set_stack (stack m) (stack_len m - 1) m)).

(** [v1 ^ v2 ^ (REOP_not_word_boundary - opcode)] *)
Definition exec_word_boundary (opcode : Z) (m : REExecMachine) : step_result :=
  let? v1 := (if cptr m =? 0 then Some false
              else is_word_char <$> PEEK_PREV_CHAR (cbuf_type s) (cbuf s) (cptr m) 0) in
  let? v2 := (if cptr m >=? cbuf_end s then Some false
              else is_word_char <$> PEEK_CHAR (cbuf_type s) (cbuf s) (cptr m) (cbuf_end s)) in
  if xorb (xorb v1 v2) (REOP_not_word_boundary - opcode =? 1) then NoMatch m else Next m.

(** The comparison loop of [REOP_back_reference]: [None] inside is a mismatch. *)
Fixpoint back_ref_loop (fuel : nat) (cptr1 cptr1_end cptr : Z) : option (option Z) :=
  match fuel with
  | O => None
  | S fuel' =>
      if cptr1 <? cptr1_end then
        if cptr >=? cbuf_end s then Some None
        else
          '(c1, cptr1) ← GET_CHAR (cbuf_type s) (cbuf s) cptr1 cptr1_end;
          '(c2, cptr) ← GET_CHAR (cbuf_type s) (cbuf s) cptr (cbuf_end s);
          c1 ← canonicalize c1;
          c2 ← canonicalize c2;
          if negb (c1 =? c2) then Some None else back_ref_loop fuel' cptr1 cptr1_end cptr
      else Some (Some cptr)
  end.

Fixpoint backward_ref_loop (fuel : nat) (cptr1 cptr1_start cptr : Z) : option (option Z) :=
  match fuel with
  | O => None
  | S fuel' =>
      if cptr1 >? cptr1_start then
        if cptr =? 0 then Some None
        else
          '(c1, cptr1) ← GET_PREV_CHAR (cbuf_type s) (cbuf s) cptr1 cptr1_start;
          '(c2, cptr) ← GET_PREV_CHAR (cbuf_type s) (cbuf s) cptr 0;
          c1 ← canonicalize c1;
          c2 ← canonicalize c2;
          if negb (c1 =? c2) then Some None else backward_ref_loop fuel' cptr1 cptr1_start cptr
      else Some (Some cptr)
  end.

Definition exec_back_reference (opcode : Z) (m : REExecMachine) : step_result :=
  let? val := znth bc_buf (pc m) in
  let m := set_pc (pc m + 1) m in
  if val >=? ctx_capture_count s then NoMatch m
  else
    let? start := znth (capture m) (2 * val) in
    let? end_ := znth (capture m) (2 * val + 1) in
    match start, end_ with
    | Some cptr1_start, Some cptr1_end =>
        let fuel := S (Z.to_nat (cptr1_end - cptr1_start)) in
        let? r := (if opcode =? REOP_back_reference
                   then back_ref_loop fuel cptr1_start cptr1_end (cptr m)
                   else backward_ref_loop fuel cptr1_end cptr1_start (cptr m)) in
        match r with
        | Some p => Next (set_cptr p m)
        | None => NoMatch m
        end
    | _, _ => Next m
    end.

(** The binary search of the ranges; [get] reads a bound at an index of units of half
    an interval. *)
Fixpoint range_search (fuel : nat) (get : Z -> option Z) (c idx_min idx_max : Z) : option bool :=
  match fuel with
  | O => None
  | S fuel' =>
      if idx_min <=? idx_max then
        let idx := u32 (idx_min + idx_max) / 2 in
        low ← get (2 * idx);
        high ← get (2 * idx + 1);
        if c <? low then range_search fuel' get c idx_min (u32 (idx - 1))
        else if c >? high then range_search fuel' get c (u32 (idx + 1)) idx_max
        else Some true
      else Some false
  end.

(** Is [c] in the [n] ranges at [pc]? *)
Definition range_match (pc n c : Z) : option bool :=
  let get i := get_u16 bc_buf (pc + 2 * i) in
  low ← get 0;
  if c <? low then Some false
  else
    let idx_max := u32 (n - 1) in
    high ← get (2 * idx_max + 1);
    (* 0xffff in the last value means +infinity *)
    if (c >=? 0xffff) && (high =? 0xffff) then Some true
    else if c >? high then Some false
    else range_search (S (Z.to_nat n)) get c 0 idx_max.

Definition range32_match (pc n c : Z) : option bool :=
  let get i := get_u32 bc_buf (pc + 4 * i) in
  low ← get 0;
  if c <? low then Some false
  else
    let idx_max := u32 (n - 1) in
    high ← get (2 * idx_max + 1);
    if c >? high then Some false
    else range_search (S (Z.to_nat n)) get c 0 idx_max.

(** [width] is the size of an interval, [test] one of the above. *)
Definition exec_range (width : Z) (test : Z -> Z -> Z -> option bool) (m : REExecMachine)
  : step_result :=
  let? n := get_u16 bc_buf (pc m) in
  let pc := pc m + 2 in
  if cptr m >=? cbuf_end s then NoMatch m
  else
    let? (c, m) := get_char m in
    let? c := canonicalize c in
    let? b := test pc n c in
    if b : bool then Next (set_pc (pc + width * n) m) else NoMatch m.

Definition exec_prev (m : REExecMachine) : step_result :=
  if cptr m =? 0 then NoMatch m
  else let? p := PREV_CHAR (cbuf_type s) (cbuf s) (cptr m) 0 in Next (set_cptr p m).

(** What a call of [lre_exec_backtrack] returns. *)
Inductive exec_result :=
  | Returns (matched : bool) (m : REExecMachine)
  | Fails (m : REExecMachine)
  | ExecUndef
  | ExecNoFuel.

(** The loop of [REOP_simple_greedy_quant]: [run] is the call with [no_recurse], which
    works on the same arrays; [m0] keeps the local variables of the caller. *)
Fixpoint quant_loop (fuel : nat) (run : REExecMachine -> exec_result) (pc1 q quant_max : Z)
    (m : REExecMachine) : step_result * Z :=
  match fuel with
  | O => (StepNoFuel, q)
  | S fuel' =>
      match run (set_pc pc1 m) with
      | Returns matched m1 =>
          let m1 := set_stack (stack m1) (stack_len m) (set_pc (pc m) m1) in
          if matched then
            let q := q + 1 in
            if (q >=? quant_max) && negb (quant_max =? INT32_MAX) then (Next m1, q)
            else quant_loop fuel' run pc1 q quant_max m1
          else (Next (set_cptr (cptr m) m1), q)
      | Fails m1 => (Error m1, q)
      | ExecUndef => (Undefined, q)
      | ExecNoFuel => (StepNoFuel, q)
      end
  end.

Definition exec_simple_greedy_quant (fuel : nat) (run : REExecMachine -> exec_result)
    (m : REExecMachine) : step_result :=
  let? next_pos := get_u32 bc_buf (pc m) in
  let? quant_min := get_u32 bc_buf (pc m + 4) in
  let? quant_max := get_u32 bc_buf (pc m + 8) in
  let pc1 := pc m + 16 in
  match quant_loop fuel run pc1 0 quant_max (set_pc (pc1 + s32 next_pos) m) with
  | (Next m, q) =>
      if q <? quant_min then NoMatch m
      else if q >? quant_min then
        pushed (push_state m (pc1 - 16) (cptr m) RE_EXEC_STATE_GREEDY_QUANT (q - quant_min)) id
      else Next m
  | (r, _) => r
  end.

(** One iteration of the loop of [lre_exec_backtrack]. *)
Definition exec_step (fuel : nat) (run : REExecMachine -> exec_result) (m : REExecMachine)
  : step_result :=
  let? opcode := znth bc_buf (pc m) in
  let m := set_pc (pc m + 1) m in
  if opcode =? REOP_match then Match_ m
  else if opcode =? REOP_char32 then
    let? val := get_u32 bc_buf (pc m) in exec_char val (set_pc (pc m + 4) m)
  else if opcode =? REOP_char then
    let? val := get_u16 bc_buf (pc m) in exec_char val (set_pc (pc m + 2) m)
  else if (opcode =? REOP_split_goto_first) || (opcode =? REOP_split_next_first)
  then exec_split opcode m
  else if (opcode =? REOP_lookahead) || (opcode =? REOP_negative_lookahead)
  then exec_lookahead opcode m
  else if opcode =? REOP_goto then
    let? val := get_u32 bc_buf (pc m) in Next (set_pc (pc m + (4 + s32 val)) m)
  else if opcode =? REOP_line_start then exec_line_start m
  else if opcode =? REOP_line_end then exec_line_end m
  else if opcode =? REOP_dot then exec_dot m
  else if opcode =? REOP_any then exec_any m
  else if (opcode =? REOP_save_start) || (opcode =? REOP_save_end) then exec_save opcode m
  else if opcode =? REOP_save_reset then exec_save_reset m
  else if opcode =? REOP_push_i32 then exec_push_i32 m
  else if opcode =? REOP_drop then Next (set_stack (stack m) (stack_len m - 1) m)
  else if opcode =? REOP_loop then exec_loop m
  else if opcode =? REOP_push_char_pos then push_int (char_addr (cptr m)) m
  else if opcode =? REOP_bne_char_pos then exec_bne_char_pos m
  else if (opcode =? REOP_word_boundary) || (opcode =? REOP_not_word_boundary)
  then exec_word_boundary opcode m
  else if (opcode =? REOP_back_reference) || (opcode =? REOP_backward_back_reference)
  then exec_back_reference opcode m
  else if opcode =? REOP_range then exec_range 4 range_match m
  else if opcode =? REOP_range32 then exec_range 8 range32_match m
  else if opcode =? REOP_prev then exec_prev m
  else if opcode =? REOP_simple_greedy_quant then exec_simple_greedy_quant fuel run m
  else Undefined.

Fixpoint lre_exec_backtrack (fuel : nat) (m : REExecMachine) (no_recurse : bool)
  : exec_result :=
  match fuel with
  | O => ExecNoFuel
  | S fuel' =>
      let finish (ret : bool) (m : REExecMachine) :=
        if no_recurse then Returns ret m
        else match recurse (state_stack m) m ret with
             | Some (inl m) => lre_exec_backtrack fuel' m no_recurse
             | Some (inr (ret, m)) => Returns ret m
             | None => ExecUndef
             end in
      match exec_step fuel' (fun m => lre_exec_backtrack fuel' m true) m with
      | Next m => lre_exec_backtrack fuel' m no_recurse
      | Match_ m => finish true m
      | NoMatch m => finish false m
      | Error m => Fails m
      | Undefined => ExecUndef
      | StepNoFuel => ExecNoFuel
      end
  end.
End exec.

(** ** The entry point *)

(** The context of a call; the input is the array [cbuf] of [clen] units at the address
    [cbuf_addr]. *)
Definition lre_exec_context (bc_buf : list Z) (cbuf : list Z) (cbuf_addr clen cbuf_type : Z)
  : option REExecContext :=
  re_flags ← znth bc_buf RE_HEADER_FLAGS;
  capture_count ← znth bc_buf RE_HEADER_CAPTURE_COUNT;
  stack_size_max ← znth bc_buf RE_HEADER_STACK_SIZE;
  let is_utf16 := has_flag re_flags LRE_FLAG_UTF16 in
  Some {| cbuf := cbuf; cbuf_addr := cbuf_addr; cbuf_end := clen;
          cbuf_type := if (cbuf_type =? 1) && is_utf16 then 2 else cbuf_type;
          ctx_capture_count := capture_count; stack_size_max := stack_size_max;
          multi_line := has_flag re_flags LRE_FLAG_MULTILINE;
          ctx_ignore_case := has_flag re_flags LRE_FLAG_IGNORECASE;
          ctx_is_utf16 := is_utf16 |}.

(** [for(i = 0; i < n; i++) capture\[i\] = NULL] *)
Fixpoint clear_captures (n : nat) (i : Z) (c : list (option Z)) : option (list (option Z)) :=
  match n with
  | O => Some c
  | S n' => c ← zupd c i None; clear_captures n' (i + 1) c
  end.

(** [capture] is the array of the caller and [stack_buf] the block of [alloca], whose
    contents are indeterminate.  [cbuf_type] is 0 or 1. *)
Definition lre_exec `{UnicodeDb} `{StateAlloc} (fuel : nat) (capture : list (option Z))
    (bc_buf cbuf : list Z) (cbuf_addr cindex clen cbuf_type : Z) (stack_buf : list Z)
  : exec_result :=
  match lre_exec_context bc_buf cbuf cbuf_addr clen cbuf_type with
  | None => ExecUndef
  | Some s =>
      match clear_captures (Z.to_nat (ctx_capture_count s * 2)) 0 capture with
      | None => ExecUndef
      | Some c =>
          lre_exec_backtrack s bc_buf fuel
            {| capture := c; stack := stack_buf; stack_len := 0; pc := RE_HEADER_LEN;
               cptr := cindex; state_stack := []; state_stack_size := 0 |} false
      end
  end.
