(* ===== verification/ReExecSafe.v ===== *)
(** * Memory safety of the matcher

    The character accessors stay inside the input, and reading backward undoes reading
    forward, except that a reader started in the middle of a surrogate pair goes back to
    its start.  On a program of structured code the matcher never reads outside the byte
    code, the input, the captures or its stacks, never fails an [assert] and never meets an
    unknown opcode, and the captures it returns lie inside the input. *)

From S2P Require Import Prelude Bytes ReOpcode ReCode RePoints ReState ReClass ReExec.

Section chars.
Context (ty : Z) (buf : list Z).

Lemma GET_CHAR_ok p e :
  0 <= p < e -> e <= zlen buf ->
  exists c p', GET_CHAR ty buf p e = Some (c, p') /\ p < p' <= e.
Proof.
  intros Hp He. unfold GET_CHAR. destruct (znth_is_Some buf p ltac:(lia)) as [c ->].
  cbn [mbind option_bind]. destruct (ty =? 0); [eexists _, _; split; [done|lia]|].
  destruct (_ && _ && _) eqn:E; [|eexists _, _; split; [done|lia]].
  zify_bools. destruct (znth_is_Some buf (p + 1) ltac:(lia)) as [c1 ->].
  cbn [mbind option_bind]. destruct (is_lo c1); eexists _, _; (split; [done|lia]).
Qed.

Lemma PEEK_CHAR_ok p e :
  0 <= p < e -> e <= zlen buf -> is_Some (PEEK_CHAR ty buf p e).
Proof.
  intros Hp He. unfold PEEK_CHAR. destruct (znth_is_Some buf p ltac:(lia)) as [c ->].
  cbn [mbind option_bind]. destruct (ty =? 0); [by eauto|].
  destruct (_ && _ && _) eqn:E; [|by eauto].
  zify_bools. destruct (znth_is_Some buf (p + 1) ltac:(lia)) as [c1 ->]. cbn. eauto.
Qed.

Lemma PEEK_PREV_CHAR_ok p :
  0 < p <= zlen buf -> is_Some (PEEK_PREV_CHAR ty buf p 0).
Proof.
  intros Hp. unfold PEEK_PREV_CHAR. destruct (znth_is_Some buf (p - 1) ltac:(lia)) as [c ->].
  cbn [mbind option_bind]. destruct (ty =? 0); [by eauto|].
  destruct (_ && _ && _) eqn:E; [|by eauto].
  rewrite Z.geb_leb in E. zify_bools.
  destruct (znth_is_Some buf (p - 2) ltac:(lia)) as [c1 ->]. cbn. eauto.
Qed.

Lemma GET_PREV_CHAR_ok p s :
  0 <= s < p -> p <= zlen buf ->
  exists c p', GET_PREV_CHAR ty buf p s = Some (c, p') /\ s <= p' < p.
Proof.
  intros Hp He. unfold GET_PREV_CHAR. destruct (znth_is_Some buf (p - 1) ltac:(lia)) as [c ->].
  cbn [mbind option_bind]. destruct (ty =? 0); [eexists _, _; split; [done|lia]|].
  destruct (_ && _ && _) eqn:E; [|eexists _, _; split; [done|lia]].
  rewrite Z.gtb_ltb in E. zify_bools.
  destruct (znth_is_Some buf (p - 1 - 1) ltac:(lia)) as [c1 ->].
  cbn [mbind option_bind]. destruct (is_hi c1); eexists _, _; (split; [done|lia]).
Qed.

Lemma PREV_CHAR_ok p :
  0 < p <= zlen buf -> exists p', PREV_CHAR ty buf p 0 = Some p' /\ 0 <= p' < p.
Proof.
  intros Hp. unfold PREV_CHAR. destruct (ty =? 0); [eexists; split; [done|lia]|].
  destruct (ty =? 2); [|eexists; split; [done|lia]].
  destruct (znth_is_Some buf (p - 1) ltac:(lia)) as [c ->]. cbn [mbind option_bind].
  destruct (_ && _) eqn:E; [|eexists; split; [done|lia]].
  rewrite Z.gtb_ltb in E. zify_bools.
  destruct (znth_is_Some buf (p - 1 - 1) ltac:(lia)) as [c1 ->].
  cbn [mbind option_bind]. destruct (is_hi c1); eexists; (split; [done|lia]).
Qed.

(** ** Going back *)

(** [p] is between the two units of a surrogate pair. *)
Definition mid_pair (p : Z) : Prop :=
  ty <> 0 /\ ty = 2 /\ exists hi lo, znth buf (p - 1) = Some hi /\ is_hi hi = true /\
    znth buf p = Some lo /\ is_lo lo = true.

Lemma is_hi_lo c : is_hi c = true -> is_lo c = true -> False.
Proof.
  unfold is_hi, is_lo. rewrite !Z.geb_leb. intros. zify_bools. lia.
Qed.

(** After a character the position is not inside a pair. *)
Lemma GET_CHAR_not_mid p c p' :
  0 <= p -> GET_CHAR ty buf p (zlen buf) = Some (c, p') -> ~ mid_pair p'.
Proof.
  intros Hp E (_ & -> & hi & lo & Hhi & Hh & Hlo & Hl).
  pose proof (znth_Some_range _ _ _ Hlo) as Hr. unfold GET_CHAR in E.
  destruct (znth buf p) as [x|] eqn:Ex; [|done]. cbn -[znth] in E.
  destruct (is_hi x) eqn:Eh; cbn [andb] in E.
  2:{ injection E as <- <-. replace (p + 1 - 1) with p in Hhi by lia. congruence. }
  destruct (Z.ltb_spec (p + 1) (zlen buf)).
  2:{ injection E as <- <-. lia. }
  destruct (znth buf (p + 1)) as [y|] eqn:Ey; [|done]. cbn -[znth] in E.
  destruct (is_lo y) eqn:El; injection E as <- <-.
  - replace (p + 1 + 1 - 1) with (p + 1) in Hhi by lia. assert (y = hi) as -> by congruence.
    by eapply is_hi_lo.
  - congruence.
Qed.

(** [PREV_CHAR] undoes [GET_CHAR], as does [GET_PREV_CHAR], which finds the same
    character. *)
Lemma PREV_GET_CHAR p c p' :
  0 <= p -> ~ mid_pair p -> GET_CHAR ty buf p (zlen buf) = Some (c, p') ->
  PREV_CHAR ty buf p' 0 = Some p /\ GET_PREV_CHAR ty buf p' 0 = Some (c, p).
Proof.
  intros Hp Hm E. unfold GET_CHAR in E.
  destruct (znth buf p) as [x|] eqn:Ex; [|done]. cbn [mbind option_bind] in E.
  unfold PREV_CHAR, GET_PREV_CHAR.
  destruct (Z.eqb_spec ty 0) as [Ht|Ht].
  { injection E as <- <-. replace (p + 1 - 1) with p by lia. by rewrite Ex. }
  destruct (is_hi x && (ty =? 2) && (p + 1 <? zlen buf)) eqn:Ec.
  - zify_bools. destruct (znth buf (p + 1)) as [y|] eqn:Ey; [|done]. cbn [mbind option_bind] in E.
    match goal with H : ty = 2 |- _ => rewrite (proj2 (Z.eqb_eq _ _) H) end.
    destruct (is_lo y) eqn:El; injection E as <- <-.
    + replace (p + 1 + 1 - 1) with (p + 1) by lia. rewrite Ey. cbn [mbind option_bind].
      rewrite El. rewrite Z.gtb_ltb, (proj2 (Z.ltb_lt 0 (p + 1))) by lia. cbn [andb].
      replace (p + 1 - 1) with p by lia. rewrite Ex. cbn [mbind option_bind].
      match goal with H : is_hi x = true |- _ => rewrite H end. done.
    + replace (p + 1 - 1) with p by lia. rewrite Ex. cbn [mbind option_bind].
      destruct (is_lo x) eqn:Elx; [exfalso; by eapply is_hi_lo|]. done.
  - injection E as <- <-. replace (p + 1 - 1) with p by lia. rewrite Ex.
    cbn [mbind option_bind]. destruct (Z.eqb_spec ty 2) as [Ht2|Ht2].
    2:{ by rewrite !andb_false_r. }
    destruct (is_lo x) eqn:Elx; cbn [andb]; [|done].
    rewrite Z.gtb_ltb. destruct (Z.ltb_spec 0 p); [|done].
    destruct (znth_is_Some buf (p - 1)) as [h Eh].
    { apply znth_Some_range in Ex. lia. }
    rewrite Eh. cbn [mbind option_bind]. destruct (is_hi h) eqn:Ehh; [|done].
    exfalso. apply Hm. split; [done|]. split; [done|]. eauto 10.
Qed.

(** Inside a pair [PREV_CHAR] goes back to the start of the pair. *)
Lemma PREV_GET_CHAR_mid p c p' :
  0 <= p -> mid_pair p -> GET_CHAR ty buf p (zlen buf) = Some (c, p') ->
  PREV_CHAR ty buf p' 0 = Some (p - 1) /\ 1 <= p.
Proof.
  intros Hp (Ht & -> & hi & lo & Hhi & Hh & Hlo & Hl) E.
  pose proof (znth_Some_range _ _ _ Hhi).
  unfold GET_CHAR in E. rewrite Hlo in E. cbn [mbind option_bind] in E.
  cbn [Z.eqb] in E.
  assert (is_hi lo = false) as Ehl.
  { destruct (is_hi lo) eqn:E1; [|done]. exfalso. by eapply is_hi_lo. }
  rewrite Ehl in E. cbn [andb] in E. injection E as <- <-.
  split; [|lia]. unfold PREV_CHAR. cbn [Z.eqb Pos.eqb].
  replace (p + 1 - 1) with p by lia. rewrite Hlo. cbn [mbind option_bind]. rewrite Hl.
  rewrite Z.gtb_ltb, (proj2 (Z.ltb_lt 0 p)) by lia. cbn [andb]. rewrite Hhi.
  cbn [mbind option_bind]. by rewrite Hh.
Qed.

(** [n] characters forward from [p] lead to [q]. *)
Inductive forward : nat -> Z -> Z -> Prop :=
  | forward_O p : forward 0 p p
  | forward_S n p c p' q :
      GET_CHAR ty buf p (zlen buf) = Some (c, p') -> forward n p' q -> forward (S n) p q.

Lemma forward_app n m p q r : forward n p q -> forward m q r -> forward (n + m) p r.
Proof. induction 1; [done|]. intros. econstructor; eauto. Qed.

Lemma GET_CHAR_forward p c p' e : GET_CHAR ty buf p e = Some (c, p') -> p < p'.
Proof.
  unfold GET_CHAR. destruct (znth buf p); [|done]. cbn [mbind option_bind].
  destruct (ty =? 0); [intros [= <- <-]; lia|].
  destruct (_ && _ && _); [|intros [= <- <-]; lia].
  destruct (znth buf (p + 1)); [|done]. cbn [mbind option_bind].
  destruct (is_lo _); intros [= <- <-]; lia.
Qed.

Lemma forward_le n p q : forward n p q -> p + Z.of_nat n <= q.
Proof.
  induction 1 as [|n p c p' q E _ IH]; [lia|]. apply GET_CHAR_forward in E. lia.
Qed.

Lemma prev_chars_snoc n p :
  prev_chars ty buf (S n) p = q ← prev_chars ty buf n p; PREV_CHAR ty buf q 0.
Proof.
  revert p. induction n as [|n IH]; intros p.
  - cbn. by destruct (PREV_CHAR ty buf p 0).
  - cbn [prev_chars]. cbn [prev_chars] in IH.
    destruct (PREV_CHAR ty buf p 0) as [q|]; [|done]. cbn [mbind option_bind]. apply IH.
Qed.

Lemma prev_chars_add n m p :
  prev_chars ty buf (n + m) p = q ← prev_chars ty buf n p; prev_chars ty buf m q.
Proof.
  revert p. induction n as [|n IH]; intros p; [done|]. cbn [Nat.add prev_chars].
  destruct (PREV_CHAR ty buf p 0) as [q|]; [|done]. cbn [mbind option_bind]. apply IH.
Qed.

Lemma PREV_CHAR_lt p q : PREV_CHAR ty buf p 0 = Some q -> q < p.
Proof.
  unfold PREV_CHAR. destruct (ty =? 0); [intros [= <-]; lia|].
  destruct (ty =? 2); [|intros [= <-]; lia].
  destruct (znth buf (p - 1)); [|done]. cbn [mbind option_bind].
  destruct (_ && _); [|intros [= <-]; lia].
  destruct (znth buf (p - 1 - 1)); [|done]. cbn [mbind option_bind].
  destruct (is_hi _); intros [= <-]; lia.
Qed.

Lemma prev_chars_le n p q : prev_chars ty buf n p = Some q -> q <= p.
Proof.
  revert p. induction n as [|n IH]; intros p; cbn [prev_chars]; [intros [= <-]; lia|].
  destruct (PREV_CHAR ty buf p 0) as [p'|] eqn:E; [|done]. cbn [mbind option_bind].
  intros Hq%IH. apply PREV_CHAR_lt in E. lia.
Qed.

(** As many characters backward lead to [p], or to the start of the pair around it. *)
Lemma prev_chars_forward n p q :
  0 <= p -> forward n p q ->
  prev_chars ty buf n q = Some p \/ (mid_pair p /\ 1 <= p /\ prev_chars ty buf n q = Some (p - 1)).
Proof.
  intros Hp H. revert Hp. induction H as [p|n p c p' q E H IH]; intros Hp; [by left|].
  pose proof (GET_CHAR_forward _ _ _ _ E). pose proof (GET_CHAR_not_mid _ _ _ Hp E) as Hm.
  destruct IH as [IH|(? & _)]; [lia| |done].
  rewrite prev_chars_snoc, IH. cbn [mbind option_bind].
  destruct (znth buf p) as [x|] eqn:Ex.
  2:{ unfold GET_CHAR in E. by rewrite Ex in E. }
  assert (Hdec : mid_pair p \/ ~ mid_pair p).
  { destruct (decide (ty <> 0 /\ ty = 2)) as [[Ht1 Ht2]|Ht].
    2:{ right. intros (? & ? & _). apply Ht. done. }
    destruct (znth buf (p - 1)) as [h|] eqn:Eh.
    2:{ right. intros (_ & _ & hi & lo & ? & _). congruence. }
    destruct (is_hi h) eqn:E1, (is_lo x) eqn:E2.
    { left. split; [done|]. split; [done|]. eauto 10. }
    all: right; intros (_ & _ & hi & lo & ? & ? & ? & ?); congruence. }
  destruct Hdec as [Hd|Hd].
  - destruct (PREV_GET_CHAR_mid _ _ _ Hp Hd E) as [-> ?]. by right.
  - destruct (PREV_GET_CHAR _ _ _ Hp Hd E) as [-> _]. by left.
Qed.
End chars.

Ltac mcbn := cbn [capture stack stack_len pc cptr state_stack state_stack_size
                  set_pc set_cptr set_capture set_stack set_states
                  rs_type rs_stack_len rs_count rs_cptr rs_pc rs_capture rs_stack
                  mbind option_bind try] in *.

(** Evaluates the tests on concrete opcodes. *)
Ltac eval_tests :=
  repeat match goal with
  | |- context [Z.eqb ?a ?b] =>
      let v := eval cbv in (Z.eqb a b) in
      match v with true => idtac | false => idtac end;
      change (Z.eqb a b) with v
  end; cbn [orb andb negb].

Section safe.
Context `{HU : UnicodeDb} `{!UnicodeDbOk HU} `{HA : StateAlloc}.
Variables (s : REExecContext) (bc_buf : list Z).
Variables (cc md : Z) (c : list Z) (P : Z -> Z -> Prop).
Hypothesis Hcode : code_at bc_buf RE_HEADER_LEN c.
Hypothesis Hprog : program cc md c P.
Hypothesis Hsize : RE_HEADER_LEN + zlen c < 2 ^ 31.
Hypothesis Hcc : ctx_capture_count s = cc /\ 0 <= cc.
Hypothesis Hmax : md <= stack_size_max s <= 255.
Hypothesis Hend : zlen (cbuf s) = cbuf_end s.

(** ** Invariants *)

Definition pos_ok (p : Z) : Prop := 0 <= p <= cbuf_end s.

Definition caps_ok (caps : list (option Z)) : Prop :=
  2 * cc <= zlen caps /\
  forall i, 0 <= i < 2 * cc -> exists p, znth caps i = Some p /\ default True (pos_ok <$> p).

(** A point of the byte code with the depth of the stack. *)
Definition point_ok (p d : Z) : Prop := P (p - RE_HEADER_LEN) d.

(** [n] characters can be taken back from [p]. *)
Definition back_ok (n : Z) (p : Z) : Prop :=
  exists q, prev_chars (cbuf_type s) (cbuf s) (Z.to_nat n) p = Some q /\ 0 <= q.

Definition state_ok (rs : REExecState) : Prop :=
  caps_ok (rs_capture rs) /\ zlen (rs_capture rs) = 2 * cc /\
  0 <= rs_stack_len rs <= md /\ zlen (rs_stack rs) = rs_stack_len rs /\
  pos_ok (rs_cptr rs) /\
  match rs_type rs with
  | RE_EXEC_STATE_GREEDY_QUANT =>
      exists mn mx n b,
        code_at bc_buf (rs_pc rs - 1)
          ((REOP_simple_greedy_quant
            :: jmp (zlen b + 1) ++ le_bytes 4 mn ++ le_bytes 4 mx ++ le_bytes 4 n)
           ++ b ++ [REOP_match]) /\
        zlen b + 1 < 2 ^ 31 /\ 0 < n <= zlen b /\ 1 <= rs_count rs /\
        point_ok (rs_pc rs + 16 + (zlen b + 1)) (rs_stack_len rs) /\
        back_ok (rs_count rs * n) (rs_cptr rs)
  | _ => point_ok (rs_pc rs) (rs_stack_len rs)
  end.

Definition base_ok (m : REExecMachine) : Prop :=
  caps_ok (capture m) /\ zlen (stack m) = stack_size_max s /\ Forall state_ok (state_stack m).

Definition machine_ok (m : REExecMachine) : Prop :=
  base_ok m /\ point_ok (pc m) (stack_len m) /\ pos_ok (cptr m).

(** What an instruction leads to. *)
Definition step_ok (r : step_result) : Prop :=
  match r with
  | Next m => machine_ok m
  | Match_ m | NoMatch m | Error m => base_ok m
  | Undefined => False
  | StepNoFuel => True
  end.

(** ** Instructions without effect on the stack *)

Lemma canonicalize_ok x : is_Some (canonicalize s x).
Proof.
  unfold canonicalize. destruct (ctx_ignore_case s); [|by eauto]. unfold lre_canonicalize.
  assert (Hh : forall t, exists y, head (lre_case_conv x t) = Some y).
  { intros t. pose proof (lre_case_conv_result x t).
    destruct (lre_case_conv x t); [done|]. by eauto. }
  destruct (ctx_is_utf16 s), (x <? 128); try (by eauto); [apply Hh|].
  destruct (zlen _ =? 1); [|by eauto]. destruct (Hh 0) as [y ->]. by eexists.
Qed.

(** The machine after an instruction that only reads, before [npc]: everything but
    [pc], [cptr] and the captures is kept. *)
Definition same_stacks (m m' : REExecMachine) : Prop :=
  stack m' = stack m /\ stack_len m' = stack_len m /\ state_stack m' = state_stack m /\
  state_stack_size m' = state_stack_size m.

Definition plain_ok (m : REExecMachine) (npc : Z) (r : step_result) : Prop :=
  match r with
  | Next m' => same_stacks m m' /\ caps_ok (capture m') /\ pc m' = npc /\ pos_ok (cptr m')
  | NoMatch m' => same_stacks m m' /\ caps_ok (capture m')
  | _ => False
  end.

(** The step of one character: the captures are kept too. *)
Definition char_ok (m : REExecMachine) (npc : Z) (r : step_result) : Prop :=
  match r with
  | Next m' => same_stacks m m' /\ capture m' = capture m /\ pc m' = npc /\
      pos_ok (cptr m') /\
      exists ch, GET_CHAR (cbuf_type s) (cbuf s) (cptr m) (zlen (cbuf s)) = Some (ch, cptr m')
  | NoMatch m' => same_stacks m m' /\ capture m' = capture m
  | _ => False
  end.

Lemma char_plain_ok m npc r : caps_ok (capture m) -> char_ok m npc r -> plain_ok m npc r.
Proof.
  intros Hc. destruct r; cbn; try done.
  - intros (? & -> & ? & ? & _). done.
  - intros (? & ->). done.
Qed.

Lemma get_char_ok m :
  pos_ok (cptr m) -> cptr m < cbuf_end s ->
  exists ch p, get_char s m = Some (ch, set_cptr p m) /\ pos_ok p /\
    GET_CHAR (cbuf_type s) (cbuf s) (cptr m) (zlen (cbuf s)) = Some (ch, p).
Proof.
  intros [Hp _] Hlt. unfold get_char.
  destruct (GET_CHAR_ok (cbuf_type s) (cbuf s) (cptr m) (cbuf_end s)) as (ch & p & E & Hr); [lia..|].
  rewrite E. cbn. exists ch, p. rewrite Hend, E. split_and!; unfold pos_ok; done || lia.
Qed.

Lemma exec_char_ok val m :
  pos_ok (cptr m) -> char_ok m (pc m) (exec_char s val m).
Proof.
  intros Hp. unfold exec_char. rewrite Z.geb_leb. destruct (Z.leb_spec (cbuf_end s) (cptr m)); [done|].
  destruct (get_char_ok m Hp ltac:(lia)) as (ch & p & -> & Hp' & Hg). mcbn.
  destruct (canonicalize_ok ch) as [ch' ->]. mcbn.
  destruct (negb _); cbn; [done|]. split; [done|]. split_and!; eauto.
Qed.

Lemma exec_range_ok (width : Z) test n m :
  pos_ok (cptr m) -> get_u16 bc_buf (pc m) = Some n ->
  (forall x, is_Some (test (pc m + 2) n x)) ->
  char_ok m (pc m + 2 + width * n) (exec_range s bc_buf width test m).
Proof.
  intros Hp Hn Ht. unfold exec_range. rewrite Hn. mcbn. rewrite Z.geb_leb.
  destruct (Z.leb_spec (cbuf_end s) (cptr m)); [done|].
  destruct (get_char_ok m Hp ltac:(lia)) as (ch & p & -> & Hp' & Hg). mcbn.
  destruct (canonicalize_ok ch) as [ch' ->]. mcbn.
  destruct (Ht ch') as [b ->]. mcbn.
  destruct b; cbn; [|done]. split; [done|]. split_and!; eauto.
Qed.

(** The binary search stays inside the bounds and ends. *)
Lemma range_search_ok fuel get x lo hi n low0 :
  (forall i, 0 <= i < 2 * n -> is_Some (get i)) -> get 0 = Some low0 -> low0 <= x ->
  n < 2 ^ 16 -> 0 <= lo -> hi <= n - 1 -> lo <= hi + 1 -> hi - lo + 1 < Z.of_nat fuel ->
  is_Some (range_search fuel get x lo hi).
Proof.
  intros Hget H0 Hx Hn. revert lo hi.
  induction fuel as [|fuel IH]; intros lo hi Hlo Hhi Hle Hf; [lia|]. cbn [range_search].
  destruct (Z.leb_spec lo hi); [|by eauto].
  rewrite (u32_small (lo + hi)) by lia. cbv zeta.
  assert (lo <= (lo + hi) / 2 <= hi) as Hm by divlia.
  set (idx := (lo + hi) / 2) in *. clearbody idx.
  destruct (Hget (2 * idx)) as [l El]; [lia|]. destruct (Hget (2 * idx + 1)) as [h Eh]; [lia|].
  rewrite El, Eh. cbn [mbind option_bind].
  destruct (Z.ltb_spec x l).
  - assert (idx <> 0) by (intros ->; change (2 * 0) with 0 in El; rewrite H0 in El; injection El as ->; lia).
    rewrite u32_small by lia. apply IH; lia.
  - destruct (x >? h) eqn:E; [|by eauto]. rewrite u32_small by lia. apply IH; lia.
Qed.

Lemma get_le_in n p d (k : nat) :
  code_at bc_buf p d -> 0 <= n -> n + Z.of_nat k <= zlen d ->
  is_Some (le_value <$> zslice bc_buf (p + n) (Z.of_nat k)).
Proof.
  intros Hd%code_at_range H0 Hk. rewrite zslice_is_Some by lia. by eexists.
Qed.

Lemma range_match_ok p n d x :
  code_at bc_buf p d -> zlen d = 4 * n -> 1 <= n < 2 ^ 16 -> is_Some (range_match bc_buf p n x).
Proof.
  intros Hd Hz Hn.
  assert (Hget : forall i, 0 <= i < 2 * n -> is_Some (get_u16 bc_buf (p + 2 * i))).
  { intros i Hi. apply (get_le_in (2 * i) p d 2); [done|lia..]. }
  unfold range_match. destruct (Hget 0) as [l El]; [lia|]. rewrite El. cbn [mbind option_bind].
  destruct (Z.ltb_spec x l); [by eauto|]. rewrite u32_small by lia. cbv zeta.
  destruct (Hget (2 * (n - 1) + 1)) as [h Eh]; [lia|]. rewrite Eh. cbn [mbind option_bind].
  destruct (_ && _); [by eauto|]. destruct (x >? h); [by eauto|].
  eapply range_search_ok with (n := n); [done|exact El|lia..].
Qed.

Lemma range32_match_ok p n d x :
  code_at bc_buf p d -> zlen d = 8 * n -> 1 <= n < 2 ^ 16 -> is_Some (range32_match bc_buf p n x).
Proof.
  intros Hd Hz Hn.
  assert (Hget : forall i, 0 <= i < 2 * n -> is_Some (get_u32 bc_buf (p + 4 * i))).
  { intros i Hi. apply (get_le_in (4 * i) p d 4); [done|lia..]. }
  unfold range32_match. destruct (Hget 0) as [l El]; [lia|]. rewrite El. cbn [mbind option_bind].
  destruct (Z.ltb_spec x l); [by eauto|]. rewrite u32_small by lia. cbv zeta.
  destruct (Hget (2 * (n - 1) + 1)) as [h Eh]; [lia|]. rewrite Eh. cbn [mbind option_bind].
  destruct (x >? h); [by eauto|].
  eapply range_search_ok with (n := n); [done|exact El|lia..].
Qed.

(** The instruction at [pc]: the opcode, and the machine that executes it. *)
Ltac start_step Hat :=
  unfold exec_step; rewrite (code_at_znth _ _ _ _ Hat); cbn [try]; cbv zeta;
  apply code_at_tail in Hat; mcbn; eval_tests.

Lemma exec_dot_ok m : pos_ok (cptr m) -> char_ok m (pc m) (exec_dot s m).
Proof.
  intros Hp. unfold exec_dot. destruct (Z.eqb_spec (cptr m) (cbuf_end s)); [done|].
  destruct (get_char_ok m Hp) as (ch & p & -> & Hp' & Hg); [unfold pos_ok in Hp; lia|]. mcbn.
  destruct (is_line_terminator ch); cbn; [done|]. split; [done|]. split_and!; eauto.
Qed.

Lemma exec_any_ok m : pos_ok (cptr m) -> char_ok m (pc m) (exec_any s m).
Proof.
  intros Hp. unfold exec_any. destruct (Z.eqb_spec (cptr m) (cbuf_end s)); [done|].
  destruct (get_char_ok m Hp) as (ch & p & -> & Hp' & Hg); [unfold pos_ok in Hp; lia|].
  cbn. split; [done|]. split_and!; eauto.
Qed.

Lemma exec_step_char fuel run m i op :
  plain cc i -> head i = Some op -> is_simple_char op = true -> code_at bc_buf (pc m) i ->
  pos_ok (cptr m) -> char_ok m (pc m + zlen i) (exec_step s bc_buf fuel run m).
Proof.
  intros Hi Eop Hs Hat Hp.
  assert (Hto : forall k p r, char_ok (set_pc p m) k r -> char_ok m k r) by (by intros k p []).
  destruct Hi as [op' Hop|v|v|op' i Hop Hi|op' i Hop Hi|a b Ha Hb|n d Hn Hd|n d Hn Hd];
    injection Eop as <-; try done; try (by inv_elem Hop).
  - inv_elem Hop; try done; start_step Hat; eapply Hto.
    + by apply (exec_dot_ok (set_pc (pc m + 1) m)).
    + by apply (exec_any_ok (set_pc (pc m + 1) m)).
  - start_step Hat. rewrite (code_at_u16 _ _ _ _ (code_at_nil_r _ _ _ Hat)). mcbn.
    eapply Hto. replace (pc m + _) with (pc m + 1 + 2) by zlen_lia.
    by apply (exec_char_ok _ (set_pc (pc m + 1 + 2) m)).
  - start_step Hat. rewrite (code_at_u32 _ _ _ _ (code_at_nil_r _ _ _ Hat)). mcbn.
    eapply Hto. replace (pc m + _) with (pc m + 1 + 4) by zlen_lia.
    by apply (exec_char_ok _ (set_pc (pc m + 1 + 4) m)).
  - start_step Hat. eapply Hto.
    replace (pc m + _) with (pc (set_pc (pc m + 1) m) + 2 + 4 * n) by (cbn; zlen_lia).
    apply exec_range_ok; cbn.
    + done.
    + rewrite (code_at_u16 _ _ _ _ Hat), u16_small; [done|lia].
    + intros x. apply code_at_app in Hat as [_ Hat]. rewrite zlen_le_bytes in Hat.
      by eapply range_match_ok.
  - start_step Hat. eapply Hto.
    replace (pc m + _) with (pc (set_pc (pc m + 1) m) + 2 + 8 * n) by (cbn; zlen_lia).
    apply exec_range_ok; cbn.
    + done.
    + rewrite (code_at_u16 _ _ _ _ Hat), u16_small; [done|lia].
    + intros x. apply code_at_app in Hat as [_ Hat]. rewrite zlen_le_bytes in Hat.
      by eapply range32_match_ok.
Qed.

(** The tests of the position. *)
Definition test_ok (m : REExecMachine) (npc : Z) (r : step_result) : Prop :=
  match r with
  | Next m' => same_stacks m m' /\ capture m' = capture m /\ pc m' = npc /\ cptr m' = cptr m
  | NoMatch m' => same_stacks m m' /\ capture m' = capture m
  | _ => False
  end.

Lemma exec_word_boundary_ok op m :
  pos_ok (cptr m) -> test_ok m (pc m) (exec_word_boundary s op m).
Proof.
  intros [Hp1 Hp2]. unfold exec_word_boundary.
  assert (exists v1, (if cptr m =? 0 then Some false
    else is_word_char <$> PEEK_PREV_CHAR (cbuf_type s) (cbuf s) (cptr m) 0) = Some v1) as [v1 ->].
  { destruct (Z.eqb_spec (cptr m) 0); [by eauto|].
    destruct (PEEK_PREV_CHAR_ok (cbuf_type s) (cbuf s) (cptr m)) as [x ->]; [lia|]. by eexists. }
  cbn [try]. rewrite Z.geb_leb.
  assert (exists v2, (if cbuf_end s <=? cptr m then Some false
    else is_word_char <$> PEEK_CHAR (cbuf_type s) (cbuf s) (cptr m) (cbuf_end s)) = Some v2)
    as [v2 ->].
  { destruct (Z.leb_spec (cbuf_end s) (cptr m)); [by eauto|].
    destruct (PEEK_CHAR_ok (cbuf_type s) (cbuf s) (cptr m) (cbuf_end s)) as [x ->]; [lia..|].
    by eexists. }
  cbn [try]. by destruct (xorb _ _).
Qed.

Lemma exec_step_test fuel run m op :
  op ∈ [REOP_line_start; REOP_line_end; REOP_word_boundary; REOP_not_word_boundary] ->
  code_at bc_buf (pc m) [op] -> pos_ok (cptr m) ->
  test_ok m (pc m + 1) (exec_step s bc_buf fuel run m).
Proof.
  intros Hop Hat Hp. pose proof Hp as [Hp1 Hp2].
  assert (Hpeek : cptr m <> cbuf_end s ->
    is_Some (PEEK_CHAR (cbuf_type s) (cbuf s) (cptr m) (cbuf_end s))).
  { intros. apply PEEK_CHAR_ok; lia. }
  assert (Hprev : cptr m <> 0 -> is_Some (PEEK_PREV_CHAR (cbuf_type s) (cbuf s) (cptr m) 0)).
  { intros. apply PEEK_PREV_CHAR_ok. lia. }
  inv_elem Hop; start_step Hat.
  - unfold exec_line_start. mcbn. destruct (Z.eqb_spec (cptr m) 0); [done|].
    destruct (negb _); [done|]. destruct Hprev as [x ->]; [done|]. mcbn. by destruct (negb _).
  - unfold exec_line_end. mcbn. destruct (Z.eqb_spec (cptr m) (cbuf_end s)); [done|].
    destruct (negb _); [done|]. destruct Hpeek as [x ->]; [done|]. mcbn. by destruct (negb _).
  - by apply (exec_word_boundary_ok _ (set_pc (pc m + 1) m)).
  - by apply (exec_word_boundary_ok _ (set_pc (pc m + 1) m)).
Qed.

(** ** Captures *)

Lemma caps_upd caps i p caps' :
  caps_ok caps -> default True (pos_ok <$> p) -> zupd caps i p = Some caps' -> caps_ok caps'.
Proof.
  intros [Hl Hc] Hp (Hi & ->)%zupd_Some. split; [by rewrite zlen_insert|].
  intros j Hj. destruct (decide (j = i)) as [->|Hne].
  - exists p. split; [|done]. rewrite znth_lookup by lia.
    apply list_lookup_insert_eq. unfold zlen in *. lia.
  - destruct (Hc j Hj) as (q & Hq & ?). exists q. split; [|done].
    by rewrite znth_insert_ne by lia.
Qed.

Lemma reset_captures_ok n val caps :
  caps_ok caps -> 0 <= val -> val + Z.of_nat n <= cc ->
  exists caps', reset_captures n val caps = Some caps' /\ caps_ok caps'.
Proof.
  revert val caps. induction n as [|n IH]; intros val caps Hc Hv Hn; cbn [reset_captures]; [by eauto|].
  destruct (zupd caps (2 * val) None) as [c1|] eqn:E1.
  2:{ rewrite zupd_is_Some in E1; [done|]. destruct Hc. lia. }
  cbn [mbind option_bind]. apply caps_upd in E1; [|done|done].
  destruct (zupd c1 (2 * val + 1) None) as [c2|] eqn:E2.
  2:{ rewrite zupd_is_Some in E2; [done|]. destruct E1. lia. }
  cbn [mbind option_bind]. apply caps_upd in E2; [|done|done]. apply IH; done || lia.
Qed.

(** ** Back references *)

Lemma back_ref_loop_ok fuel p1 e1 p :
  0 <= p1 -> e1 <= cbuf_end s -> Z.max 0 (e1 - p1) < Z.of_nat fuel -> pos_ok p ->
  exists r, back_ref_loop s fuel p1 e1 p = Some r /\ default True (pos_ok <$> r).
Proof.
  revert p1 p. induction fuel as [|fuel IH]; intros p1 p H1 He Hf Hp; cbn [back_ref_loop].
  { lia. }
  destruct (Z.ltb_spec p1 e1); [|eexists; split; [done|exact Hp]].
  rewrite Z.geb_leb. destruct (Z.leb_spec (cbuf_end s) p); [by exists None|].
  destruct (GET_CHAR_ok (cbuf_type s) (cbuf s) p1 e1) as (c1 & q1 & -> & Hq1); [lia..|].
  cbn [mbind option_bind]. destruct Hp as [Hp0 _].
  destruct (GET_CHAR_ok (cbuf_type s) (cbuf s) p (cbuf_end s)) as (c2 & q & -> & Hq); [lia..|].
  cbn [mbind option_bind]. destruct (canonicalize_ok c1) as [x ->], (canonicalize_ok c2) as [y ->].
  cbn [mbind option_bind]. destruct (negb _); [by exists None|].
  apply IH; try lia. split; lia.
Qed.

Lemma backward_ref_loop_ok fuel p1 s1 p :
  0 <= s1 -> p1 <= cbuf_end s -> Z.max 0 (p1 - s1) < Z.of_nat fuel -> pos_ok p ->
  exists r, backward_ref_loop s fuel p1 s1 p = Some r /\ default True (pos_ok <$> r).
Proof.
  revert p1 p. induction fuel as [|fuel IH]; intros p1 p H1 He Hf Hp; cbn [backward_ref_loop].
  { lia. }
  rewrite Z.gtb_ltb. destruct (Z.ltb_spec s1 p1); [|eexists; split; [done|exact Hp]].
  destruct (Z.eqb_spec p 0); [by exists None|]. destruct Hp as [Hp0 Hpe].
  destruct (GET_PREV_CHAR_ok (cbuf_type s) (cbuf s) p1 s1) as (c1 & q1 & -> & Hq1); [lia..|].
  cbn [mbind option_bind].
  destruct (GET_PREV_CHAR_ok (cbuf_type s) (cbuf s) p 0) as (c2 & q & -> & Hq); [lia..|].
  cbn [mbind option_bind]. destruct (canonicalize_ok c1) as [x ->], (canonicalize_ok c2) as [y ->].
  cbn [mbind option_bind]. destruct (negb _); [by exists None|].
  apply IH; try lia. split; lia.
Qed.

Lemma exec_back_reference_ok op m val :
  znth bc_buf (pc m) = Some val -> 0 <= val -> caps_ok (capture m) -> pos_ok (cptr m) ->
  plain_ok m (pc m + 1) (exec_back_reference s bc_buf op m).
Proof.
  intros Hv H0 Hcap Hp. unfold exec_back_reference. rewrite Hv. cbn [try]. cbv zeta. mcbn.
  destruct Hcc as [-> ?]. rewrite Z.geb_leb. destruct (Z.leb_spec cc val); [done|].
  destruct (proj2 Hcap (2 * val) ltac:(lia)) as (st & Est & Hst).
  destruct (proj2 Hcap (2 * val + 1) ltac:(lia)) as (en & Een & Hen).
  rewrite Est, Een. cbn [try]. destruct st as [st|]; [|done]. destruct en as [en|]; [|done].
  destruct Hst as [? ?], Hen as [? ?].
  assert (exists r, (if op =? REOP_back_reference
    then back_ref_loop s (S (Z.to_nat (en - st))) st en (cptr m)
    else backward_ref_loop s (S (Z.to_nat (en - st))) en st (cptr m)) = Some r
    /\ default True (pos_ok <$> r)) as (r & -> & Hr).
  { destruct (_ =? _); [apply back_ref_loop_ok|apply backward_ref_loop_ok]; done || lia. }
  cbn [try]. destruct r as [r|]; [|done]. done.
Qed.

(** Every instruction without effect on the stack. *)
Lemma exec_step_plain fuel run m i :
  plain cc i -> code_at bc_buf (pc m) i -> caps_ok (capture m) -> pos_ok (cptr m) ->
  plain_ok m (pc m + zlen i) (exec_step s bc_buf fuel run m).
Proof.
  intros Hi Hat Hcap Hp.
  assert (Hchar : forall op, head i = Some op -> is_simple_char op = true ->
    plain_ok m (pc m + zlen i) (exec_step s bc_buf fuel run m)).
  { intros. apply char_plain_ok; [done|]. by eapply exec_step_char. }
  assert (Htest : forall op, i = [op] ->
    op ∈ [REOP_line_start; REOP_line_end; REOP_word_boundary; REOP_not_word_boundary] ->
    plain_ok m (pc m + zlen i) (exec_step s bc_buf fuel run m)).
  { intros op -> Hop. change (zlen [op]) with 1.
    pose proof (exec_step_test fuel run m op Hop Hat Hp) as Ht.
    destruct (exec_step _ _ _ _ _); cbn in *; try done.
    - destruct Ht as (? & -> & -> & ->). done.
    - by destruct Ht as (? & ->). }
  destruct Hi as [op Hop|v|v|op i Hop Hi|op i Hop Hi|a b Ha Hb|n d Hn Hd|n d Hn Hd];
    try (by eapply Hchar).
  - inv_elem Hop; try (by eapply Hchar); try (eapply Htest; [done|in_list]).
    start_step Hat. unfold exec_prev. mcbn. destruct (Z.eqb_spec (cptr m) 0); [done|].
    destruct Hp as [? ?].
    destruct (PREV_CHAR_ok (cbuf_type s) (cbuf s) (cptr m)) as (q & -> & Hq); [lia|]. cbn [try].
    split; [done|]. split_and!; try done; cbn; unfold pos_ok; lia.
  - assert (Hop2 : exec_step s bc_buf fuel run m = exec_save s bc_buf op (set_pc (pc m + 1) m)).
    { inv_elem Hop; by start_step Hat. }
    rewrite Hop2. apply code_at_tail in Hat. unfold exec_save. mcbn.
    rewrite (code_at_znth _ _ _ _ Hat). cbn [try]. destruct Hcc as [Ec ?]. rewrite Ec.
    rewrite (proj2 (Z.ltb_lt _ _)) by lia.
    assert (0 <= op - REOP_save_start <= 1) as Ho by (inv_elem Hop; vm_compute; split; congruence).
    destruct (zupd (capture m) _ _) as [caps'|] eqn:E.
    2:{ rewrite zupd_is_Some in E; [done|]. destruct Hcap. lia. }
    cbn [try]. apply caps_upd in E; [|done|done]. split; [done|]. split; [done|].
    split; [|done]. cbn. change (zlen [op; i]) with 2. lia.
  - assert (Hop2 : exec_step s bc_buf fuel run m
                   = exec_back_reference s bc_buf op (set_pc (pc m + 1) m)).
    { inv_elem Hop; by start_step Hat. }
    rewrite Hop2. apply code_at_tail in Hat. change (zlen [op; i]) with 2.
    pose proof (exec_back_reference_ok op (set_pc (pc m + 1) m) i
      (code_at_znth _ _ _ _ Hat) ltac:(lia) Hcap Hp) as Hr.
    replace (pc m + 2) with (pc (set_pc (pc m + 1) m) + 1) by (cbn; lia). exact Hr.
  - start_step Hat. unfold exec_save_reset. mcbn. rewrite (code_at_znth _ _ _ _ Hat).
    rewrite (code_at_znth _ _ _ _ (code_at_tail _ _ _ _ Hat)). cbn [try].
    destruct Hcc as [Ec ?]. rewrite Ec. rewrite (proj2 (Z.ltb_lt _ _)) by lia.
    assert (exists caps', reset_captures (Z.to_nat (b - a + 1)) a (capture m) = Some caps'
                          /\ caps_ok caps') as (caps' & -> & Hc').
    { destruct (decide (a <= b + 1)).
      - apply reset_captures_ok; done || lia.
      - replace (Z.to_nat (b - a + 1)) with O by lia. by exists (capture m). }
    cbn [try]. split; [done|]. split; [done|]. split; [|done]. cbn.
    change (zlen [REOP_save_reset; a; b]) with 3. lia.
Qed.

(** ** Simple quantifiers *)

Lemma simple_body_len cc' n b : simple_body cc' n b -> 0 <= n <= zlen b.
Proof.
  induction 1 as [|i op n r Hi Eop _ _ IH|op n r _ _ IH]; [zlen_lia| |].
  - destruct i; [done|]. rewrite zlen_app, zlen_cons. pose proof (zlen_nonneg i). lia.
  - zlen_lia.
Qed.

Lemma same_stacks_trans m1 m2 m3 : same_stacks m1 m2 -> same_stacks m2 m3 -> same_stacks m1 m3.
Proof. unfold same_stacks. intuition congruence. Qed.

(** A nested run of the body ends, and a match has consumed [n] characters. *)
Lemma simple_run fuel n b m :
  code_at bc_buf (pc m) (b ++ [REOP_match]) -> simple_body cc n b -> pos_ok (cptr m) ->
  match lre_exec_backtrack s bc_buf fuel m true with
  | Returns matched m' =>
      same_stacks m m' /\ capture m' = capture m /\
      (matched = true -> pos_ok (cptr m') /\
         forward (cbuf_type s) (cbuf s) (Z.to_nat n) (cptr m) (cptr m'))
  | ExecNoFuel => Z.of_nat fuel <= zlen b
  | _ => False
  end.
Proof.
  intros Hat Hb. revert fuel m Hat.
  induction Hb as [|i op n r Hi Eop Hs Hr IH|op n r Hop Hr IH]; intros fuel m Hat Hp;
    (destruct fuel as [|fuel]; [cbn; zlen_lia|]); cbn [lre_exec_backtrack].
  - start_step Hat. split; [done|]. split; [done|]. intros _. split; [done|constructor].
  - rewrite <- app_assoc in Hat. apply code_at_app in Hat as [Hi1 Hr1].
    pose proof (exec_step_char fuel (fun m => lre_exec_backtrack s bc_buf fuel m true)
      m i op Hi Eop Hs Hi1 Hp) as Hstep.
    destruct (exec_step _ _ _ _ _) as [m'| |m'| | |]; cbn in Hstep; try done.
    2:{ destruct Hstep as (? & ?). done. }
    destruct Hstep as (Hst & Hcap & Hpc & Hp' & ch & Hg).
    specialize (IH fuel m'). rewrite Hpc in IH. specialize (IH Hr1 Hp').
    apply simple_body_len in Hr as Hn.
    destruct (lre_exec_backtrack _ _ _ m' _) as [matched m''| | |]; try done.
    + destruct IH as (Hst' & Hcap' & Hm). split_and!.
      * by eapply same_stacks_trans.
      * congruence.
      * intros Hmt. destruct (Hm Hmt) as [? Hf]. split; [done|].
        replace (Z.to_nat (1 + n)) with (S (Z.to_nat n)) by lia. by econstructor.
    + destruct i; [done|]. rewrite zlen_app, zlen_cons. pose proof (zlen_nonneg i). lia.
  - rewrite <- app_assoc in Hat. apply code_at_app in Hat as [Hi1 Hr1].
    pose proof (exec_step_test fuel (fun m => lre_exec_backtrack s bc_buf fuel m true)
      m op Hop Hi1 Hp) as Hstep.
    destruct (exec_step _ _ _ _ _) as [m'| |m'| | |]; cbn in Hstep; try done.
    2:{ destruct Hstep as (? & ?). done. }
    destruct Hstep as (Hst & Hcap & Hpc & Hp').
    specialize (IH fuel m'). rewrite Hpc in IH. rewrite <- Hp' in Hp. specialize (IH Hr1 Hp).
    destruct (lre_exec_backtrack _ _ _ m' _) as [matched m''| | |]; try done.
    + destruct IH as (Hst' & Hcap' & Hm). split_and!.
      * by eapply same_stacks_trans.
      * congruence.
      * intros Hmt. destruct (Hm Hmt) as [? Hf]. split; [done|]. by rewrite Hp' in Hf.
    + zlen_lia.
Qed.

Lemma quant_loop_ok fuel fuel' pc1 q qmax m n b :
  code_at bc_buf pc1 (b ++ [REOP_match]) -> simple_body cc n b -> 0 <= n -> pos_ok (cptr m) ->
  match quant_loop fuel (fun m => lre_exec_backtrack s bc_buf fuel' m true) pc1 q qmax m with
  | (Next m', q') =>
      same_stacks m m' /\ capture m' = capture m /\ pc m' = pc m /\ pos_ok (cptr m') /\
      q <= q' /\
      forward (cbuf_type s) (cbuf s) (Z.to_nat ((q' - q) * n)) (cptr m) (cptr m')
  | (StepNoFuel, _) => True
  | _ => False
  end.
Proof.
  intros Hat Hb Hn. revert q m. induction fuel as [|fuel IH]; intros q m Hp; cbn [quant_loop]; [done|].
  pose proof (simple_run fuel' n b (set_pc pc1 m) Hat Hb Hp) as Hrun.
  destruct (lre_exec_backtrack _ _ _ _ _) as [matched m1|m1| |]; cbn in Hrun; try done.
  destruct Hrun as ((S1 & S2 & S3 & S4) & Hcap & Hm). cbn in S1, S2, S3, S4, Hcap, Hm.
  destruct matched.
  2:{ cbn. split; [done|]. split_and!; try done.
      replace (Z.to_nat ((q - q) * n)) with O by lia. constructor. }
  destruct (Hm eq_refl) as [Hp1 Hf]. cbv zeta.
  set (m2 := set_stack (stack m1) (stack_len m) (set_pc (pc m) m1)).
  assert (Hst : same_stacks m m2) by done.
  destruct (_ && _).
  - split_and!; try done; [lia|]. by replace ((q + 1 - q) * n) with n by lia.
  - specialize (IH (q + 1) m2 Hp1).
    destruct (quant_loop _ _ _ _ _ _) as [r q'], r as [m'| | | | |]; try done.
    destruct IH as (Hst' & Hcap' & Hpc' & Hp' & Hq & Hf'). split_and!.
    + by eapply same_stacks_trans.
    + cbn in Hcap'. congruence.
    + done.
    + done.
    + lia.
    + replace (Z.to_nat ((q' - q) * n)) with (Z.to_nat n + Z.to_nat ((q' - (q + 1)) * n))%nat by nia.
      eapply forward_app; [exact Hf|exact Hf'].
Qed.

Lemma forward_back_ok n p q :
  0 <= p -> forward (cbuf_type s) (cbuf s) (Z.to_nat n) p q -> back_ok n q.
Proof.
  intros Hp Hf. destruct (prev_chars_forward _ _ _ _ _ Hp Hf) as [E|(_ & ? & E)];
    eexists; (split; [exact E|lia]).
Qed.

(** ** Saved states *)

Lemma push_state_ok m npc ncptr type count :
  caps_ok (capture m) -> zlen (stack m) = stack_size_max s -> 0 <= stack_len m <= md ->
  exists m' r, push_state s m npc ncptr type count = Some (m', r) /\
    (r = -1 /\ m' = m \/
     r = 0 /\ exists rs size, m' = set_states (rs :: state_stack m) size m /\
       caps_ok (rs_capture rs) /\ zlen (rs_capture rs) = 2 * cc /\
       rs_stack_len rs = stack_len m /\ zlen (rs_stack rs) = stack_len m /\
       rs_cptr rs = ncptr /\ rs_type rs = type /\ rs_pc rs = npc /\ rs_count rs = count).
Proof.
  intros [Hc1 Hc2] Hst Hlen. unfold push_state. destruct Hcc as [Ec ?]. rewrite Ec.
  rewrite (zslice_is_Some (capture m)), (zslice_is_Some (stack m)) by lia.
  cbn [mbind option_bind]. cbv zeta.
  assert (Hcap : caps_ok (take (Z.to_nat (2 * cc)) (drop (Z.to_nat 0) (capture m)))
                 /\ zlen (take (Z.to_nat (2 * cc)) (drop (Z.to_nat 0) (capture m))) = 2 * cc).
  { change (Z.to_nat 0) with O. rewrite drop_0, zlen_take. split; [|lia].
    split; [rewrite zlen_take; lia|]. intros i Hi. rewrite znth_take by lia. auto. }
  destruct Hcap as [Hcap1 Hcap2].
  assert (Hsl : zlen (take (Z.to_nat (stack_len m)) (drop (Z.to_nat 0) (stack m))) = stack_len m).
  { change (Z.to_nat 0) with O. rewrite drop_0, zlen_take. lia. }
  rewrite u8_small by lia.
  destruct (_ >? _); [|eexists _, _; split; [done|]; right; split; [done|];
    eexists _, _; split; [done|]; split_and!; done].
  destruct (state_alloc _); eexists _, _; (split; [done|]); [right|by left].
  split; [done|]. eexists _, _. split; [done|]. split_and!; done.
Qed.

Lemma caps_blit caps d caps' :
  caps_ok caps -> caps_ok d -> zlen d = 2 * cc -> zblit caps 0 d = Some caps' -> caps_ok caps'.
Proof.
  intros [Hl Hc] [_ Hd] Hz E. pose proof (zblit_len _ _ _ _ E) as Hlen.
  apply zblit_Some in E as (_ & _ & ->). change (Z.to_nat 0) with O in *. rewrite take_0 in *.
  cbn [app] in *. split; [lia|]. intros i Hi. rewrite znth_app_l by lia. auto.
Qed.

Lemma restore_capture_ok rs m :
  caps_ok (capture m) -> caps_ok (rs_capture rs) -> zlen (rs_capture rs) = 2 * cc ->
  exists caps', restore_capture rs m = Some (set_capture caps' m) /\ caps_ok caps'.
Proof.
  intros Hc Hd Hz. unfold restore_capture.
  destruct (zblit (capture m) 0 (rs_capture rs)) as [caps'|] eqn:E.
  - cbn. exists caps'. split; [done|]. exact (caps_blit _ _ _ Hc Hd Hz E).
  - rewrite zblit_is_Some in E; [done|lia|]. destruct Hc. lia.
Qed.

Lemma restore_stack_ok rs m :
  zlen (stack m) = stack_size_max s -> 0 <= rs_stack_len rs <= md ->
  zlen (rs_stack rs) = rs_stack_len rs ->
  exists st, restore_stack rs m = Some (set_stack st (rs_stack_len rs) m) /\
    zlen st = stack_size_max s.
Proof.
  intros Hst Hl Hz. unfold restore_stack. rewrite zslice_is_Some by lia. cbn [mbind option_bind].
  destruct (zblit (stack m) 0 _) as [st|] eqn:E.
  - cbn. exists st. split; [done|]. apply zblit_len in E. lia.
  - rewrite zblit_is_Some in E; [done|lia|]. change (Z.to_nat 0) with O.
    rewrite drop_0, zlen_take. lia.
Qed.

Lemma pop_state1_ok rs rest m :
  caps_ok (capture m) -> zlen (stack m) = stack_size_max s ->
  state_ok rs -> rs_type rs <> RE_EXEC_STATE_GREEDY_QUANT -> Forall state_ok rest ->
  exists m', pop_state1 rs rest m = Some m' /\ machine_ok m'.
Proof.
  intros Hc Hst (Hrc & Hrz & Hrl & Hrs & Hp & Hty) Hne Hrest. unfold pop_state1.
  destruct (restore_stack_ok rs (set_cptr (rs_cptr rs) (set_pc (rs_pc rs) m)) Hst Hrl Hrs)
    as (st & -> & Hz). cbn [mbind option_bind]. eexists. split; [done|].
  split; [by split_and!|]. cbn. split; [|done]. by destruct (rs_type rs).
Qed.

Lemma pop_state_ok rs rest m :
  caps_ok (capture m) -> zlen (stack m) = stack_size_max s ->
  state_ok rs -> rs_type rs <> RE_EXEC_STATE_GREEDY_QUANT -> Forall state_ok rest ->
  exists m', pop_state rs rest m = Some m' /\ machine_ok m'.
Proof.
  intros Hc Hst Hrs Hne Hrest. unfold pop_state.
  destruct (restore_capture_ok rs m Hc) as (caps' & -> & Hc'); [apply Hrs..|].
  cbn [mbind option_bind]. by apply pop_state1_ok.
Qed.

(** The operands of a simple quantifier, at [p] after its opcode. *)
Lemma greedy_operands p mn mx n b :
  code_at bc_buf (p - 1)
    ((REOP_simple_greedy_quant
      :: jmp (zlen b + 1) ++ le_bytes 4 mn ++ le_bytes 4 mx ++ le_bytes 4 n)
     ++ b ++ [REOP_match]) ->
  get_u32 bc_buf p = Some (u32 (zlen b + 1)) /\ get_u32 bc_buf (p + 4) = Some (u32 mn) /\
  get_u32 bc_buf (p + 8) = Some (u32 mx) /\ get_u32 bc_buf (p + 12) = Some (u32 n) /\
  code_at bc_buf (p + 16) (b ++ [REOP_match]).
Proof.
  intros Hat. apply code_at_app in Hat as [Hh Hb]. apply code_at_tail in Hh.
  replace (p - 1 + 1) with p in Hh by lia.
  assert (Hb' : code_at bc_buf (p + 16) (b ++ [REOP_match])).
  { eapply code_at_eq; [exact Hb|]. rewrite zlen_cons, !zlen_app, zlen_jmp, !zlen_le_bytes. lia. }
  pose proof (code_at_u32 _ _ _ _ Hh) as E1. apply code_at_app in Hh as [_ Hh].
  rewrite zlen_jmp in Hh.
  pose proof (code_at_u32 _ _ _ _ Hh) as E2. apply code_at_app in Hh as [_ Hh].
  rewrite zlen_le_bytes in Hh.
  pose proof (code_at_u32 _ _ _ _ Hh) as E3. apply code_at_app in Hh as [_ Hh].
  rewrite zlen_le_bytes in Hh.
  pose proof (code_at_u32 _ _ _ _ (code_at_nil_r _ _ _ Hh)) as E4.
  replace (p + 4 + Z.of_nat 4) with (p + 8) in * by lia.
  replace (p + 8 + Z.of_nat 4) with (p + 12) in * by lia. done.
Qed.

Lemma retry_greedy_ok rs rest m :
  caps_ok (capture m) -> zlen (stack m) = stack_size_max s ->
  state_ok rs -> rs_type rs = RE_EXEC_STATE_GREEDY_QUANT -> Forall state_ok rest ->
  exists m', retry_greedy s bc_buf rs rest m = Some m' /\ machine_ok m'.
Proof.
  intros Hc Hst (Hrc & Hrz & Hrl & Hrs & Hp & Hty) Heq Hrest. rewrite Heq in Hty.
  destruct Hty as (mn & mx & n & b & Hat & Hzb & Hn & Hcount & Hpt & q & Hq & Hq0).
  destruct (greedy_operands _ _ _ _ _ Hat) as (E1 & _ & _ & E4 & _).
  unfold retry_greedy. destruct (restore_capture_ok rs m Hc Hrc Hrz) as (caps' & -> & Hc').
  cbn [mbind option_bind].
  destruct (restore_stack_ok rs (set_capture caps' m) Hst Hrl Hrs) as (st & -> & Hz).
  cbn [mbind option_bind]. rewrite E4. cbn [mbind option_bind]. rewrite (u32_small n) by lia.
  replace (Z.to_nat (rs_count rs * n))
    with (Z.to_nat n + Z.to_nat ((rs_count rs - 1) * n))%nat in Hq by nia.
  rewrite prev_chars_add in Hq.
  destruct (prev_chars _ _ (Z.to_nat n) (rs_cptr rs)) as [q1|] eqn:Eq1; [|done].
  cbn [mbind option_bind] in Hq |- *. rewrite E1. cbn [mbind option_bind].
  rewrite s32_u32 by lia. cbv zeta. eexists. split; [done|].
  pose proof (prev_chars_le _ _ _ _ _ Eq1). pose proof (prev_chars_le _ _ _ _ _ Hq).
  assert (Hp1 : pos_ok q1) by (destruct Hp; split; lia).
  split; [split_and!; [done|done|]|by split].
  cbn [state_stack set_states set_cptr set_pc set_stack set_capture].
  destruct (Z.eqb_spec (rs_count rs - 1) 0); [done|]. constructor; [|done].
  split_and!; try done; cbn; try lia. rewrite Heq.
  exists mn, mx, n, b. split_and!; try done; try lia. by exists q.
Qed.

Lemma recurse_ok st m ret :
  caps_ok (capture m) -> zlen (stack m) = stack_size_max s -> Forall state_ok st ->
  match recurse s bc_buf st m ret with
  | Some (inl m') => machine_ok m'
  | Some (inr (_, m')) => base_ok m'
  | None => False
  end.
Proof.
  intros Hc Hst Hall. revert ret. induction Hall as [|rs rest Hrs Hrest IH]; intros ret;
    cbn [recurse]; [by split_and!|].
  destruct (rs_type rs) eqn:Hty.
  - destruct ret; cbn [negb]; [apply IH|].
    destruct (pop_state_ok rs rest m) as (m' & -> & ?); [done..|by rewrite Hty|done|done].
  - destruct ret; [|apply IH].
    destruct (pop_state1_ok rs rest m) as (m' & -> & ?); [done..|by rewrite Hty|done|done].
  - destruct ret; cbn [negb]; [apply IH|].
    destruct (pop_state_ok rs rest m) as (m' & -> & ?); [done..|by rewrite Hty|done|done].
  - destruct ret; cbn [negb]; [apply IH|].
    destruct (retry_greedy_ok rs rest m) as (m' & -> & ?); done.
Qed.

(** ** Every instruction *)

(** A state pushed on a machine leaves it in order. *)
Lemma pushed_ok m npc ncptr type count next :
  base_ok m -> 0 <= stack_len m <= md ->
  (forall rs, caps_ok (rs_capture rs) -> zlen (rs_capture rs) = 2 * cc ->
     rs_stack_len rs = stack_len m -> zlen (rs_stack rs) = stack_len m ->
     rs_cptr rs = ncptr -> rs_type rs = type -> rs_pc rs = npc -> rs_count rs = count ->
     state_ok rs) ->
  (forall m', base_ok m' -> stack_len m' = stack_len m -> cptr m' = cptr m -> pc m' = pc m ->
     machine_ok (next m')) ->
  step_ok (pushed (push_state s m npc ncptr type count) next).
Proof.
  intros (Hc & Hst & Hstates) Hl Hrs Hnext.
  destruct (push_state_ok m npc ncptr type count Hc Hst Hl)
    as (m' & r & -> & [[-> ->]|(-> & rs & size & -> & ? & ? & ? & ? & ? & ? & ? & ?)]).
  - cbn. by split_and!.
  - cbn. apply Hnext; try done. split_and!; try done. cbn. constructor; auto.
Qed.

Lemma machine_of_plain m npc r d :
  base_ok m -> stack_len m = d -> plain_ok m npc r -> point_ok npc d -> step_ok r.
Proof.
  intros (Hc & Hst & Hs) Hd Hr Hp. destruct r as [m'| |m'| | |]; cbn in *; try done.
  - destruct Hr as ((E1 & E2 & E3 & E4) & Hc' & Hpc & Hpos).
    split; [|split; [|done]].
    + split_and!; [done|congruence|by rewrite E3].
    + congruence.
  - destruct Hr as ((E1 & E2 & E3 & E4) & Hc').
    split_and!; [done|congruence|by rewrite E3].
Qed.

Lemma point_range p d : point_ok p d -> RE_HEADER_LEN <= p < RE_HEADER_LEN + zlen c /\ 0 <= d <= md.
Proof. intros Hp. apply (program_range _ _ _ _ Hprog) in Hp. lia. Qed.

Lemma point_at x q d d' : P x d' -> x = q - RE_HEADER_LEN -> d = d' -> point_ok q d.
Proof. by intros Hp -> ->. Qed.

(** A jump between two points of the program. *)
Lemma jump_back p d off :
  point_ok p d -> point_ok (p + 5 + off) d -> s32 (u32 off) = off.
Proof. intros H1%point_range H2%point_range. apply s32_u32. unfold RE_HEADER_LEN in *. lia. Qed.

Lemma stack_top_ok m :
  zlen (stack m) = stack_size_max s -> 0 < stack_len m <= md -> is_Some (znth (stack m) (stack_len m - 1)).
Proof. intros. apply znth_is_Some. lia. Qed.

Lemma push_int_ok v m npc :
  base_ok m -> pos_ok (cptr m) -> 0 <= stack_len m -> pc m = npc ->
  point_ok npc (stack_len m + 1) -> step_ok (push_int v m).
Proof.
  intros (Hc & Hst & Hs) Hp Hl <- Hpt. pose proof (point_range _ _ Hpt).
  unfold push_int. rewrite zupd_is_Some by lia. cbn. split; [|done].
  split_and!; [done| |done]. cbn. by rewrite zlen_insert.
Qed.

Lemma exec_greedy_ok fuel fuel' m mn mx n b :
  base_ok m -> pos_ok (cptr m) -> 0 <= stack_len m <= md ->
  code_at bc_buf (pc m - 1)
    ((REOP_simple_greedy_quant
      :: jmp (zlen b + 1) ++ le_bytes 4 mn ++ le_bytes 4 mx ++ le_bytes 4 n)
     ++ b ++ [REOP_match]) ->
  simple_body cc n b -> 0 < n -> zlen b + 1 < 2 ^ 31 ->
  point_ok (pc m + 16 + (zlen b + 1)) (stack_len m) ->
  step_ok (exec_simple_greedy_quant s bc_buf fuel
             (fun m => lre_exec_backtrack s bc_buf fuel' m true) m).
Proof.
  intros Hbase Hp Hl Hat Hb Hn Hz Hpt. pose proof (simple_body_len _ _ _ Hb) as Hnb.
  destruct (greedy_operands _ _ _ _ _ Hat) as (E1 & E2 & E3 & _ & Hbody).
  unfold exec_simple_greedy_quant. rewrite E1, E2, E3. cbn [try]. cbv zeta.
  rewrite s32_u32 by lia. set (m0 := set_pc _ m).
  pose proof (quant_loop_ok fuel fuel' (pc m + 16) 0 (u32 mx) m0 n b Hbody Hb ltac:(lia) Hp) as Hq.
  destruct (quant_loop _ _ _ _ _ _) as [r q], r as [m1| | | | |]; try done.
  destruct Hq as ((S1 & S2 & S3 & S4) & Hcap & Hpc & Hp1 & Hq & Hf).
  cbn in S1, S2, S3, S4, Hcap, Hpc, Hf.
  assert (Hb1 : base_ok m1).
  { destruct Hbase as (H1 & H2 & H3). split_and!; [by rewrite Hcap|congruence|by rewrite S3]. }
  destruct (q <? u32 mn) eqn:Elt; [done|].
  assert (Hm1 : machine_ok m1).
  { split; [done|]. split; [|done]. by rewrite Hpc, S2. }
  destruct (q >? u32 mn) eqn:Egt; [|done].
  rewrite Z.gtb_ltb in Egt. zify_bools. pose proof (u32_range mn).
  apply pushed_ok; [done|by rewrite S2| |].
  2:{ intros m' Hb' E4 E5 E6. split; [done|]. cbn. by rewrite E6, E4, E5, Hpc, S2. }
  intros rs Hrc Hrz Hrl Hrs Hrp Hty Hrpc Hcnt. split_and!; try done; try lia.
  { by rewrite Hrp. }
  rewrite Hty. exists mn, mx, n, b. rewrite Hrpc, Hcnt.
  replace (pc m + 16 - 16) with (pc m) by lia. split_and!; try done; try lia.
  { by rewrite Hrl, S2. }
  rewrite Hrp. destruct Hp as [Hp0 _].
  assert (Hback : back_ok ((q - 0) * n) (cptr m1)) by (eapply forward_back_ok; [exact Hp0|exact Hf]).
  destruct Hback as (x & Hx & Hx0).
  replace (Z.to_nat ((q - 0) * n))
    with (Z.to_nat ((q - u32 mn) * n) + Z.to_nat (u32 mn * n))%nat in Hx by nia.
  rewrite prev_chars_add in Hx.
  destruct (prev_chars _ _ (Z.to_nat ((q - u32 mn) * n)) _) as [y|] eqn:Ey; [|done].
  exists y. split; [done|]. cbn [mbind option_bind] in Hx. apply prev_chars_le in Hx. lia.
Qed.

(** The saved states of the splits and of the lookaheads. *)
Lemma push_plain_ok m npc type next_pc :
  base_ok m -> pos_ok (cptr m) -> type <> RE_EXEC_STATE_GREEDY_QUANT ->
  point_ok npc (stack_len m) -> point_ok next_pc (stack_len m) ->
  step_ok (pushed (push_state s m npc (cptr m) type 0) (set_pc next_pc)).
Proof.
  intros Hb Hp Hty Hpt Hn. pose proof (point_range _ _ Hpt) as [_ Hl].
  apply pushed_ok; [done|done| |].
  - intros rs Hrc Hrz Hrl Hrs Hrp Ht Hpc _. split_and!; try done; try lia.
    { by rewrite Hrp. }
    rewrite Ht, Hpc, Hrl. by destruct type.
  - intros m' Hb' E1 E2 E3. split; [done|]. cbn. by rewrite E1, E2.
Qed.

Lemma exec_step_ok fuel fuel' m :
  machine_ok m ->
  step_ok (exec_step s bc_buf fuel (fun m => lre_exec_backtrack s bc_buf fuel' m true) m).
Proof.
  intros (Hbase & Hpt & Hp). pose proof (point_range _ _ Hpt) as [_ Hl].
  pose proof (proj1 (proj2 Hbase)) as Hst.
  assert (Hat : forall i, code_at c (pc m - RE_HEADER_LEN) i -> code_at bc_buf (pc m) i).
  { intros i Hi. eapply code_at_eq; [by eapply code_at_in|lia]. }
  destruct (program_flow _ _ _ _ Hprog _ _ Hpt)
    as [i Hi Hc1 H1|off Hc1 H1|op off Ho Hc1 H1 H2|op off Ho Hc1 H1 H2|Hc1|v Hc1 H1|Hc1 H1
      |Hc1 H0 H1|off Hc1 H0 H1 H2|off Hc1 H0 H1 H2|mn mx n b Hc1 Hb Hn H1];
    apply Hat in Hc1.
  - pose proof (exec_step_plain fuel (fun m => lre_exec_backtrack s bc_buf fuel' m true)
      m i Hi Hc1 (proj1 Hbase) Hp) as Hr.
    eapply machine_of_plain; [exact Hbase|done|exact Hr|]. eapply point_at; [exact H1|lia|done].
  - assert (Hto : point_ok (pc m + 5 + off) (stack_len m)) by (eapply point_at; [exact H1|lia|done]).
    start_step Hc1. rewrite (code_at_u32 _ _ _ _ (code_at_nil_r _ _ _ Hc1)). cbn [try].
    rewrite (jump_back _ _ _ Hpt Hto). split; [done|]. split; [|done]. cbn.
    by replace (pc m + 1 + (4 + off)) with (pc m + 5 + off) by lia.
  - assert (Hto : point_ok (pc m + 5 + off) (stack_len m)) by (eapply point_at; [exact H2|lia|done]).
    assert (Hnext : point_ok (pc m + 5) (stack_len m)) by (eapply point_at; [exact H1|lia|done]).
    assert (Eop : exec_step s bc_buf fuel (fun m => lre_exec_backtrack s bc_buf fuel' m true) m
                  = exec_split s bc_buf op (set_pc (pc m + 1) m))
      by (unfold is_split in Ho; inv_elem Ho; by start_step Hc1).
    rewrite Eop. apply code_at_tail in Hc1. unfold exec_split. mcbn.
    rewrite (code_at_u32 _ _ _ _ (code_at_nil_r _ _ _ Hc1)). cbn [try]. cbv zeta.
    rewrite (jump_back _ _ _ Hpt Hto).
    replace (pc m + 1 + 4 + off) with (pc m + 5 + off) by lia.
    replace (pc m + 1 + 4) with (pc m + 5) by lia.
    destruct (op =? REOP_split_next_first); by apply (push_plain_ok (set_pc (pc m + 1) m)).
  - assert (Hto : point_ok (pc m + 5 + off) (stack_len m)) by (eapply point_at; [exact H2|lia|done]).
    assert (Hnext : point_ok (pc m + 5) (stack_len m)) by (eapply point_at; [exact H1|lia|done]).
    assert (Eop : exec_step s bc_buf fuel (fun m => lre_exec_backtrack s bc_buf fuel' m true) m
                  = exec_lookahead s bc_buf op (set_pc (pc m + 1) m))
      by (inv_elem Ho; by start_step Hc1).
    rewrite Eop. apply code_at_tail in Hc1. unfold exec_lookahead. mcbn.
    rewrite (code_at_u32 _ _ _ _ (code_at_nil_r _ _ _ Hc1)). cbn [try]. cbv zeta.
    rewrite (jump_back _ _ _ Hpt Hto).
    replace (pc m + 1 + 4 + off) with (pc m + 5 + off) by lia.
    replace (pc m + 1 + 4) with (pc m + 5) by lia.
    apply (push_plain_ok (set_pc (pc m + 1) m)); try done. by destruct (_ =? _).
  - start_step Hc1. done.
  - start_step Hc1. unfold exec_push_i32. mcbn.
    rewrite (code_at_u32 _ _ _ _ (code_at_nil_r _ _ _ Hc1)). cbn [try].
    eapply push_int_ok; [done|done|cbn; lia|done|]. eapply point_at; [exact H1|cbn; lia|done].
  - start_step Hc1. eapply push_int_ok; [done|done|cbn; lia|done|].
    eapply point_at; [exact H1|cbn; lia|done].
  - start_step Hc1. split; [done|]. split; [|done]. cbn.
    eapply point_at; [exact H1|lia|done].
  - assert (Hto : point_ok (pc m + 5 + off) (stack_len m)) by (eapply point_at; [exact H2|lia|done]).
    start_step Hc1. unfold exec_loop. mcbn.
    rewrite (code_at_u32 _ _ _ _ (code_at_nil_r _ _ _ Hc1)). cbn [try]. cbv zeta.
    destruct (stack_top_ok m Hst) as [top ->]; [lia|]. cbn [try]. rewrite zupd_is_Some by lia.
    cbn [try]. rewrite (jump_back _ _ _ Hpt Hto). split; [|split; [|done]].
    + destruct Hbase as (? & ? & ?). split_and!; [done| |done]. cbn. by rewrite zlen_insert.
    + cbn. destruct (negb _).
      * by replace (pc m + 1 + 4 + off) with (pc m + 5 + off) by lia.
      * eapply point_at; [exact H1|lia|done].
  - assert (Hto : P (pc m - RE_HEADER_LEN + 5 + off) (stack_len m - 1)) by done.
    start_step Hc1. unfold exec_bne_char_pos. mcbn.
    rewrite (code_at_u32 _ _ _ _ (code_at_nil_r _ _ _ Hc1)). cbn [try]. cbv zeta.
    destruct (stack_top_ok m Hst) as [top ->]; [lia|]. cbn [try].
    assert (Eoff : s32 (u32 off) = off).
    { pose proof (point_range _ _ Hpt). apply (program_range _ _ _ _ Hprog) in H2.
      apply s32_u32. unfold RE_HEADER_LEN in *. lia. }
    rewrite Eoff. split; [done|split; [|done]]. cbn. destruct (negb _).
    + eapply point_at; [exact H2|lia|done].
    + eapply point_at; [exact H1|lia|done].
  - assert (Hz : RE_HEADER_LEN + zlen b < 2 ^ 31).
    { apply (program_range _ _ _ _ Hprog) in H1. pose proof (point_range _ _ Hpt). lia. }
    assert (Estep : exec_step s bc_buf fuel (fun m => lre_exec_backtrack s bc_buf fuel' m true) m
      = exec_simple_greedy_quant s bc_buf fuel (fun m => lre_exec_backtrack s bc_buf fuel' m true)
          (set_pc (pc m + 1) m)).
    { assert (Hc2 := Hc1). by start_step Hc2. }
    rewrite Estep.
    apply (exec_greedy_ok fuel fuel' (set_pc (pc m + 1) m) mn mx n b); try done.
    + eapply code_at_eq; [exact Hc1|]. cbn [pc set_pc]. lia.
    + unfold RE_HEADER_LEN in *. lia.
    + eapply point_at; [exact H1|cbn [pc set_pc]; lia|done].
Qed.

(** ** The matcher *)

(** Whatever the fuel, a run from a machine in order has no undefined behaviour, and
    what it leaves is in order. *)
Theorem lre_exec_backtrack_safe fuel m :
  machine_ok m ->
  match lre_exec_backtrack s bc_buf fuel m false with
  | Returns _ m' | Fails m' => base_ok m'
  | ExecUndef => False
  | ExecNoFuel => True
  end.
Proof.
  revert m. induction fuel as [|fuel IH]; intros m Hm; cbn [lre_exec_backtrack]; [done|].
  pose proof (exec_step_ok fuel fuel m Hm) as Hstep.
  destruct (exec_step _ _ _ _ _) as [m'|m'|m'|m'| |]; cbn [step_ok] in Hstep; try done.
  - by apply IH.
  - destruct Hstep as (Hc & Hst & Hs).
    pose proof (recurse_ok (state_stack m') m' true Hc Hst Hs) as Hr.
    destruct (recurse _ _ _ _ _) as [[m1|[b m1]]|]; [by apply IH|done|done].
  - destruct Hstep as (Hc & Hst & Hs).
    pose proof (recurse_ok (state_stack m') m' false Hc Hst Hs) as Hr.
    destruct (recurse _ _ _ _ _) as [[m1|[b m1]]|]; [by apply IH|done|done].
Qed.
End safe.
