(* ===== verification/ReLexSafe.v ===== *)
(** * The lexical functions stay inside the pattern and make progress *)

From S2P Require Import Prelude CStr Bytes Utf8 ReOpcode ReState ReLex.

(** [pat] is a string of bytes that ends with a zero at [e].  The bytes from 0xfd on,
    which no encoding of a code point has, start the characters that the parser takes
    for class ranges ([CLASS_RANGE_BASE]). *)
Record pat_ok (pat : list Z) (e : Z) : Prop := {
  pat_len : zlen pat = e + 1;
  pat_end : znth pat e = Some 0;
  pat_bytes : Forall (fun b => 0 <= b < 0xfd) pat
}.

Lemma pat_read pat e p :
  pat_ok pat e -> 0 <= p <= e ->
  exists c, znth pat p = Some c /\ 0 <= c < 256 /\ (c <> 0 -> p < e).
Proof.
  intros [Hl He Hb] Hp. destruct (znth_is_Some pat p ltac:(lia)) as [c Hc].
  exists c. split; [done|]. split.
  - rewrite znth_lookup in Hc by lia. apply list_elem_of_lookup_2 in Hc.
    rewrite Forall_forall in Hb. apply list_elem_of_In, Hb in Hc. lia.
  - intros Hne. destruct (decide (p = e)); [congruence|lia].
Qed.

(** The pattern as seen from a pointer. *)
Lemma pat_drop pat e p :
  pat_ok pat e -> 0 <= p <= e ->
  exists c, znth pat p = Some c /\ drop (Z.to_nat p) pat = c :: drop (Z.to_nat (p + 1)) pat.
Proof. intros [Hl _ _] Hp. apply drop_znth. lia. Qed.

Ltac pat_rd H c Hc :=
  let E := fresh "E" in let R := fresh "R" in
  lazymatch goal with
  | |- context [znth ?pat ?p ≫= _] =>
      destruct (pat_read pat _ p H ltac:(lia)) as (c & E & R & Hc);
      rewrite E; cbn [mbind option_bind]
  end.

(** ** Numbers *)

Lemma parse_digits_loop_ok pat e p v allow :
  pat_ok pat e -> 0 <= p <= e -> 0 <= v <= INT32_MAX ->
  exists r, parse_digits_loop (drop (Z.to_nat p) pat) p v allow = Some r /\
    match r with
    | Some (p', v') => p <= p' <= e /\ 0 <= v' <= INT32_MAX
    | None => True
    end.
Proof.
  intros Hpat. remember (Z.to_nat (e - p)) as k eqn:Ek. revert p v Ek.
  induction k as [|k IH]; intros p v Ek Hp Hv;
    destruct (pat_read pat e p Hpat Hp) as (c & E & R & Hc);
    destruct (pat_drop pat e p Hpat Hp) as (c' & E' & ->);
    rewrite E in E'; injection E' as <-; cbn [parse_digits_loop];
    (destruct ((c <? 48) || (c >? 57)) eqn:Ed; [eexists; split; [done|]; cbn; lia|]).
  { rewrite Z.gtb_ltb in Ed. zify_bools. assert (p < e) by (apply Hc; lia). lia. }
  rewrite Z.gtb_ltb in Ed. zify_bools. assert (p < e) by (apply Hc; lia).
  cbv zeta. unfold INT32_MAX in *. rewrite u64_small by lia. rewrite Z.geb_leb.
  destruct (Z.leb_spec 2147483647 (v * 10 + c - 48)).
  - destruct allow; [|by eexists].
    destruct (IH (p + 1) 2147483647) as (r & -> & Hr); [lia..|].
    exists r. split; [done|]. destruct r as [[p' v']|]; [|done]. lia.
  - destruct (IH (p + 1) (v * 10 + c - 48)) as (r & -> & Hr); [lia..|].
    exists r. split; [done|]. destruct r as [[p' v']|]; [|done]. lia.
Qed.

Lemma parse_digits_ok pat e p allow :
  pat_ok pat e -> 0 <= p <= e ->
  exists v p', parse_digits pat p allow = Some (v, p') /\ p <= p' <= e /\ -1 <= v <= INT32_MAX.
Proof.
  intros Hpat Hp. unfold parse_digits.
  destruct (parse_digits_loop_ok pat e p 0 allow Hpat Hp ltac:(by vm_compute)) as (r & -> & Hr).
  cbn [mbind option_bind]. destruct r as [[p' v]|]; eexists _, _; (split; [done|]); cbn in *;
    unfold INT32_MAX in *; lia.
Qed.

(** ** Escapes *)

Lemma from_hex_zero : from_hex 0 = -1.
Proof. done. Qed.

Lemma hex_digits_ok n pat e p c :
  pat_ok pat e -> 0 <= p <= e -> 0 <= c < 2 ^ (32 - 4 * Z.of_nat n) -> (n <= 4)%nat ->
  exists r, hex_digits n pat p c = Some r /\
    match r with
    | Some (c', p') => p' = p + Z.of_nat n /\ p' <= e /\ 0 <= c' < (c + 1) * 16 ^ Z.of_nat n
    | None => True
    end.
Proof.
  intros Hpat. revert p c. induction n as [|n IH]; intros p c Hp Hc Hn; cbn [hex_digits].
  { eexists. split; [done|]. cbn. lia. }
  pat_rd Hpat x Hx. cbv zeta. pose proof (from_hex_range x) as Hh.
  destruct (Z.ltb_spec (from_hex x) 0); [by eexists|].
  assert (p < e) by (apply Hx; intros ->; rewrite from_hex_zero in *; lia).
  assert (Hpow : 2 ^ (32 - 4 * Z.of_nat n) = 16 * 2 ^ (32 - 4 * Z.of_nat (S n))).
  { change 16 with (2 ^ 4). rewrite <- Z.pow_add_r by lia. f_equal. lia. }
  assert (H32 : 2 ^ (32 - 4 * Z.of_nat n) <= 2 ^ 32) by (apply Z.pow_le_mono_r; lia).
  change (2 ^ 32) with 4294967296 in H32.
  rewrite Z.shiftl_mul_pow2 by lia. change (2 ^ 4) with 16.
  rewrite u32_small by lia. change 16 with (2 ^ 4) at 1. rewrite lor_mul_add by lia.
  change (2 ^ 4) with 16.
  destruct (IH (p + 1) (c * 16 + from_hex x)) as (r & -> & Hr); [lia..|].
  exists r. split; [done|]. destruct r as [[c' p']|]; [|done].
  destruct Hr as (-> & ? & ?). split; [lia|]. split; [lia|]. split; [lia|].
  replace (Z.of_nat (S n)) with (1 + Z.of_nat n) by lia. rewrite Z.pow_add_r by lia.
  change (16 ^ 1) with 16. assert (0 < 16 ^ Z.of_nat n) by (apply Z.pow_pos_nonneg; lia). nia.
Qed.

Lemma hex_braces_ok pat e p c :
  pat_ok pat e -> 0 <= p <= e -> 0 <= c <= 0x10FFFF ->
  exists r, hex_braces (drop (Z.to_nat p) pat) p c = Some r /\
    match r with
    | Some (c', p') => p < p' < e /\ 0 <= c' <= 0x10FFFF
    | None => True
    end.
Proof.
  intros Hpat. remember (Z.to_nat (e - p)) as k eqn:Ek. revert p c Ek.
  induction k as [|k IH]; intros p c Ek Hp Hc;
    destruct (pat_read pat e p Hpat Hp) as (x & E & R & Hx);
    destruct (pat_drop pat e p Hpat Hp) as (x' & E' & ->);
    rewrite E in E'; injection E' as <-; cbn [hex_braces]; cbv zeta;
    pose proof (from_hex_range x) as Hh;
    (destruct (Z.ltb_spec (from_hex x) 0); [by eexists|]);
    assert (p < e) by (apply Hx; intros ->; rewrite from_hex_zero in *; lia); [lia|].
  rewrite Z.shiftl_mul_pow2, u32_small by lia. rewrite lor_mul_add by lia.
  rewrite Z.gtb_ltb. destruct (Z.ltb_spec 0x10FFFF (c * 2 ^ 4 + from_hex x)); [by eexists|].
  destruct (pat_read pat e (p + 1) Hpat ltac:(lia)) as (y & Ey & Ry & Hy).
  destruct (pat_drop pat e (p + 1) Hpat ltac:(lia)) as (y' & Ey' & Edrop).
  rewrite Ey in Ey'. injection Ey' as <-. rewrite Edrop. cbn [head mbind option_bind].
  destruct (Z.eqb_spec y 125).
  - eexists. split; [done|]. cbn. assert (p + 1 < e) by (apply Hy; lia). lia.
  - rewrite <- Edrop. destruct (IH (p + 1) (c * 2 ^ 4 + from_hex x)) as (r & -> & Hr); [lia..|].
    exists r. split; [done|]. destruct r as [[c' p']|]; [|done]. lia.
Qed.

Lemma parse_hex_escape_ok pat e p c allow_utf16 :
  pat_ok pat e -> 0 <= p <= e ->
  exists r, parse_hex_escape pat p c allow_utf16 = Some r /\
    match r with
    | Some (c', p') => p < p' <= e /\ 0 <= c' <= 0x10FFFF
    | None => True
    end.
Proof.
  intros Hpat Hp. unfold parse_hex_escape. pat_rd Hpat x Hx.
  destruct ((x =? 123) && _) eqn:Eb.
  - zify_bools. assert (p < e) by (apply Hx; lia).
    destruct (hex_braces_ok pat e (p + 1) 0 Hpat ltac:(lia) ltac:(lia)) as (r & -> & Hr).
    cbn [mbind option_bind]. destruct r as [[c' p']|]; eexists; (split; [done|]); cbn; [lia|done].
  - destruct (hex_digits_ok (if c =? 120 then 2 else 4) pat e p 0) as (r & -> & Hr);
      [done|done| |destruct (c =? 120); lia|].
    { destruct (c =? 120); cbn; lia. }
    cbn [mbind option_bind]. destruct r as [[c' p']|]; [|by eexists].
    assert (p < p' <= e /\ 0 <= c' < 65536) as [Hp' Hc'].
    { destruct (c =? 120); cbn in Hr; lia. }
    assert (Hdone : exists r, Some (Some (c', p')) = Some r /\
      match r with Some (c', p') => p < p' <= e /\ 0 <= c' <= 0x10FFFF | None => True end).
    { eexists. split; [done|]. cbn. lia. }
    destruct (_ && _ && _); [|done]. pat_rd Hpat x0 Hx0.
    destruct (Z.eqb_spec x0 92); [|done]. assert (p' < e) by (apply Hx0; lia).
    pat_rd Hpat x1 Hx1. destruct (Z.eqb_spec x1 117); [|done].
    assert (p' + 1 < e) by (apply Hx1; lia).
    destruct (hex_digits_ok 4 pat e (p' + 2) 0) as (r & -> & Hr'); [done|lia|cbn; lia|lia|].
    cbn [mbind option_bind]. destruct r as [[c1 p1]|]; [|done].
    destruct ((c1 >=? 0xdc00) && _); [|done].
    eexists. split; [done|]. cbn in Hr'. split; [lia|].
    rewrite !(land_mask _ 0x3ff 10) by lia. rewrite lor_shiftl_add by (lia || apply Z.mod_pos_bound; lia).
    pose proof (Z.mod_pos_bound c' (2 ^ 10)). pose proof (Z.mod_pos_bound c1 (2 ^ 10)).
    change (2 ^ 10) with 1024 in *. lia.
Qed.

Lemma octal_value c v : 0 <= c < 32 -> 0 <= v <= 7 -> Z.lor (Z.shiftl c 3) v = c * 8 + v.
Proof. intros. rewrite lor_shiftl_add by (change (2 ^ 3) with 8; lia). done. Qed.

Lemma octal_digit x : 0 <= x < 256 -> (u32 (x - 48) >? 7) = false -> 48 <= x <= 55 /\ u32 (x - 48) = x - 48.
Proof.
  intros Hx E. rewrite Z.gtb_ltb in E. zify_bools. unfold u32 in *.
  destruct (decide (x < 48)).
  - rewrite <- (Z.mod_unique (x - 48) (2 ^ 32) (-1) (x - 48 + 2 ^ 32)) in E by lia. lia.
  - rewrite Z.mod_small in * by lia. lia.
Qed.

Lemma parse_octal_escape_ok pat e p c allow_utf16 :
  pat_ok pat e -> 0 <= p <= e -> 48 <= c <= 55 ->
  exists r, parse_octal_escape pat p c allow_utf16 = Some r /\
    match r with
    | Some (c', p') => p <= p' <= e /\ 0 <= c' <= 255
    | None => True
    end.
Proof.
  intros Hpat Hp Hc. unfold parse_octal_escape. cbv zeta. destruct (allow_utf16 =? 2).
  { destruct (negb _) eqn:En; [by eexists|]. zify_bools. pat_rd Hpat x Hx.
    destruct (is_digit x); eexists; (split; [done|]); cbn; [done|lia]. }
  pat_rd Hpat x Hx. destruct (u32 (x - 48) >? 7) eqn:E1.
  { eexists. split; [done|]. cbn. lia. }
  apply octal_digit in E1 as [Hx7 Ex]; [|lia]. rewrite Ex. assert (p < e) by (apply Hx; lia).
  rewrite octal_value by lia. rewrite Z.geb_leb.
  destruct (Z.leb_spec 32 ((c - 48) * 8 + (x - 48))).
  { eexists. split; [done|]. cbn. lia. }
  pat_rd Hpat y Hy. destruct (u32 (y - 48) >? 7) eqn:E2.
  { eexists. split; [done|]. cbn. lia. }
  apply octal_digit in E2 as [Hy7 Ey]; [|lia]. rewrite Ey. assert (p + 1 < e) by (apply Hy; lia).
  rewrite octal_value by lia. eexists. split; [done|]. cbn. lia.
Qed.

(** The result is a code point, -1 or -2; a pointer that is updated advances. *)
Lemma lre_parse_escape_ok pat e p allow_utf16 :
  pat_ok pat e -> 0 <= p <= e ->
  exists r p', lre_parse_escape pat p allow_utf16 = Some (r, p') /\ -2 <= r <= 0x10FFFF /\
    (0 <= r -> p < p' <= e) /\ (r < 0 -> p' = p).
Proof.
  intros Hpat Hp. unfold lre_parse_escape. pat_rd Hpat c Hc. cbv zeta.
  assert (Hsimple : forall v, c <> 0 -> 0 <= v <= 0x10FFFF ->
    exists r p', Some (v, p + 1) = Some (r, p') /\ -2 <= r <= 0x10FFFF /\
      (0 <= r -> p < p' <= e) /\ (r < 0 -> p' = p)).
  { intros v Hne Hv. eexists _, _. split; [done|]. specialize (Hc Hne). lia. }
  do 6 (lazymatch goal with |- context [if c =? ?k then _ else _] =>
    destruct (Z.eqb_spec c k); [apply Hsimple; lia|] end).
  assert (Hfinish : forall o, c <> 0 ->
    (exists r, o = Some r /\ match r with
       | Some (c', p') => p + 1 <= p' <= e /\ 0 <= c' <= 0x10FFFF | None => True end) ->
    exists r p', (x ← o; Some (match x with Some cp => cp | None => (-1, p) end)) = Some (r, p')
      /\ -2 <= r <= 0x10FFFF /\ (0 <= r -> p < p' <= e) /\ (r < 0 -> p' = p)).
  { intros o Hne (r & -> & Hr). cbn [mbind option_bind].
    destruct r as [[c' p']|]; eexists _, _; (split; [done|]); lia. }
  destruct (_ || _) eqn:Exu.
  - assert (c <> 0) as Hne by (intros ->; done). apply Hfinish; [done|].
    specialize (Hc Hne).
    destruct (parse_hex_escape_ok pat e (p + 1) c allow_utf16 Hpat ltac:(lia)) as (r & -> & Hr).
    exists r. split; [done|]. destruct r as [[c' p']|]; [|done]. lia.
  - destruct (_ && _) eqn:Eo.
    + zify_bools. apply Hfinish; [lia|]. assert (p < e) by (apply Hc; lia).
      destruct (parse_octal_escape_ok pat e (p + 1) c allow_utf16 Hpat ltac:(lia) ltac:(lia))
        as (r & -> & Hr).
      exists r. split; [done|]. destruct r as [[c' p']|]; [|done]. lia.
    + eexists _, _. split; [done|]. lia.
Qed.

(** ** UTF-8 *)

Lemma pat_tail_zero pat e p :
  pat_ok pat e -> 0 <= p < e -> 0 ∈ tail (drop (Z.to_nat p) pat).
Proof.
  intros Hpat Hp. destruct (pat_drop pat e p Hpat ltac:(lia)) as (c & _ & ->). cbn.
  destruct Hpat as [Hl He _]. apply list_elem_of_lookup.
  exists (Z.to_nat (e - (p + 1))). rewrite lookup_drop.
  rewrite znth_lookup in He by lia. rewrite <- He. f_equal. lia.
Qed.

Lemma pat_is_byte pat e : pat_ok pat e -> Forall is_byte pat.
Proof. intros [_ _ Hb]. revert Hb. apply Forall_impl. unfold is_byte. lia. Qed.

Lemma utf8_first_30 c : 2 ^ 30 <= c < 2 ^ 31 -> exists r, unicode_to_utf8 c = 0xfd :: r.
Proof.
  intros Hc. unfold unicode_to_utf8. repeat (destruct_cmp; [lia|]).
  destruct_cmp; [|lia]. assert (Z.shiftr c 30 = 1) as ->; [|by eexists].
  rewrite Z.shiftr_div_pow2 by lia. divlia.
Qed.

Lemma utf8_at_ok pat e p :
  pat_ok pat e -> 0 <= p < e ->
  exists c p', utf8_at pat p = Some (c, p') /\
    (c = -1 /\ p' = p \/ 0 <= c < 2 ^ 30 /\ p < p' <= e).
Proof.
  intros Hpat Hp. pose proof (pat_tail_zero pat e p Hpat Hp) as Hz. unfold utf8_at.
  destruct (unicode_from_utf8_safe (drop (Z.to_nat p) pat) UTF8_CHAR_LEN_MAX) as [r Er].
  { destruct (drop (Z.to_nat p) pat); [done|]. apply elem_of_cons; by right. }
  rewrite Er. cbn [mbind option_bind]. destruct r as [[c rest]|].
  2:{ exists (-1), p. split; [done|]. by left. }
  eexists _, _. split; [done|]. right.
  pose proof (unicode_from_utf8_rest _ _ _ _ Hz Er) as [Hr Hlt].
  apply unicode_from_utf8_inv in Er as [Hc Henc].
  2:{ apply Forall_drop. by eapply pat_is_byte. }
  assert (c < 2 ^ 30) as Hc30.
  { destruct (decide (c < 2 ^ 30)); [done|]. destruct (utf8_first_30 c) as [r Er]; [lia|].
    destruct Hpat as [_ _ Hb]. apply (Forall_drop _ (Z.to_nat p)) in Hb.
    rewrite Henc, Er in Hb. apply Forall_cons_1 in Hb as [Hb _]. lia. }
  rewrite zlen_drop in Hlt. destruct Hpat as [Hl _ _].
  destruct rest; [by apply elem_of_nil in Hr|]. zlen_lia.
Qed.

(** ** Group names *)

Lemma ascii_table_ok table c :
  zlen table = 4 -> 0 <= c < 128 -> is_Some (ascii_table_bit table c).
Proof.
  intros Ht Hc. unfold ascii_table_bit. rewrite Z.shiftr_div_pow2 by lia.
  destruct (znth_is_Some table (c / 2 ^ 5)) as [w ->]; [change (2 ^ 5) with 32; divlia|].
  by eexists.
Qed.

Section idents.
Context `{UnicodeDb}.

Lemma ident_first_ok c : 0 <= c <= 0x10FFFF -> is_Some (lre_js_is_ident_first c).
Proof.
  intros Hc. unfold lre_js_is_ident_first. rewrite u32_small by lia.
  destruct (Z.ltb_spec c 128); [|by eexists]. apply ascii_table_ok; [done|lia].
Qed.

Lemma ident_next_ok c : 0 <= c <= 0x10FFFF -> is_Some (lre_js_is_ident_next c).
Proof.
  intros Hc. unfold lre_js_is_ident_next. rewrite u32_small by lia.
  destruct (Z.ltb_spec c 128); [|by eexists]. apply ascii_table_ok; [done|lia].
Qed.

(** The temporary buffer: 128 bytes, the last of which stays zero. *)
Definition tmp_ok (u : list Z) : Prop := zlen u = TMP_BUF_SIZE /\ znth u (TMP_BUF_SIZE - 1) = Some 0.

Lemma tmp_blit u q d u' :
  tmp_ok u -> q + zlen d < TMP_BUF_SIZE -> zblit u q d = Some u' -> tmp_ok u'.
Proof.
  intros [Hl Hz] Hq E. pose proof (zblit_len _ _ _ _ E). split; [lia|].
  apply zblit_Some in E as (Hq0 & Hle & ->). pose proof (zlen_nonneg d).
  rewrite znth_app_r by zlen_lia. rewrite znth_app_r by zlen_lia.
  rewrite zlen_take. unfold zlen in *. unfold TMP_BUF_SIZE in *.
  rewrite znth_lookup in Hz |- * by lia. rewrite lookup_drop. rewrite <- Hz. f_equal. lia.
Qed.

Lemma zlen_to_utf8 c : 0 <= c <= 0x10FFFF -> 1 <= zlen (unicode_to_utf8 c) <= 4.
Proof.
  intros Hc. unfold unicode_to_utf8. repeat (destruct_cmp; [vm_compute; by split|]); lia.
Qed.

(** What a step of [re_parse_group_name_loop] does with a character. *)
Lemma group_name_char_ok u q c' (k : list Z -> Z -> option (option (Z * Z) * list Z)) (Q : _ -> Prop) :
  tmp_ok u -> 0 <= q < TMP_BUF_SIZE - 1 -> -2 <= c' < 2 ^ 30 ->
  Q (None, u) ->
  (forall u' q', 0 <= c' -> tmp_ok u' -> q <= q' < TMP_BUF_SIZE - 1 ->
     exists r, k u' q' = Some r /\ Q r) ->
  exists r,
    (if u32 c' >? 0x10FFFF then Some (None, u)
     else ok ← (if q =? 0 then lre_js_is_ident_first c' else lre_js_is_ident_next c');
          if negb ok then Some (None, u)
          else if q + UTF8_CHAR_LEN_MAX + 1 >? TMP_BUF_SIZE then Some (None, u)
          else
            let d := if c' <? 128 then [c'] else unicode_to_utf8 c' in
            buf' ← zblit u q d; k buf' (q + zlen d)) = Some r /\ Q r.
Proof.
  intros Hu Hq Hc HQ Hk. rewrite Z.gtb_ltb.
  destruct (Z.ltb_spec 0x10FFFF (u32 c')) as [|Hsmall]; [by eexists|].
  assert (0 <= c' <= 0x10FFFF) as Hc'.
  { destruct (decide (0 <= c')); [rewrite u32_small in Hsmall by lia; lia|].
    unfold u32 in Hsmall.
    rewrite <- (Z.mod_unique c' (2 ^ 32) (-1) (c' + 2 ^ 32)) in Hsmall by lia. lia. }
  assert (is_Some (if q =? 0 then lre_js_is_ident_first c' else lre_js_is_ident_next c')) as [ok ->].
  { destruct (q =? 0); [by apply ident_first_ok|by apply ident_next_ok]. }
  cbn [mbind option_bind]. destruct (negb ok); [by eexists|]. rewrite Z.gtb_ltb.
  destruct (Z.ltb_spec TMP_BUF_SIZE (q + UTF8_CHAR_LEN_MAX + 1)) as [|Hfit]; [by eexists|].
  unfold UTF8_CHAR_LEN_MAX, TMP_BUF_SIZE in *. cbv zeta.
  assert (1 <= zlen (if c' <? 128 then [c'] else unicode_to_utf8 c') <= 4).
  { destruct (c' <? 128); [by vm_compute|by apply zlen_to_utf8]. }
  destruct (zblit u q _) as [u'|] eqn:E.
  2:{ rewrite zblit_is_Some in E; [done|lia|]. destruct Hu as [Hu _]. unfold TMP_BUF_SIZE in Hu. lia. }
  cbn [mbind option_bind]. apply Hk; [lia| |lia].
  eapply tmp_blit; [done| |done]. unfold TMP_BUF_SIZE. lia.
Qed.

(** The name is written inside the buffer. *)
Lemma group_name_loop_ok fuel u pat e p q utf16 :
  pat_ok pat e -> 0 <= p <= e -> tmp_ok u -> 0 <= q < TMP_BUF_SIZE - 1 -> e - p < Z.of_nat fuel ->
  exists r, re_parse_group_name_loop fuel u TMP_BUF_SIZE pat p q utf16 = Some r /\
    tmp_ok r.2 /\
    match r.1 with
    | Some (p', q') => p <= p' < e /\ q <= q' < TMP_BUF_SIZE - 1
    | None => True
    end.
Proof.
  intros Hpat. revert u p q. induction fuel as [|fuel IH]; intros u p q Hp Hu Hq Hf; [lia|].
  cbn [re_parse_group_name_loop]. pat_rd Hpat c Hc. cbv zeta.
  assert (Hchar : forall c' p', -2 <= c' < 2 ^ 30 -> (0 <= c' -> p < p' <= e) ->
    exists r,
      (if u32 c' >? 0x10FFFF then Some (None, u)
       else ok ← (if q =? 0 then lre_js_is_ident_first c' else lre_js_is_ident_next c');
            if negb ok then Some (None, u)
            else if q + UTF8_CHAR_LEN_MAX + 1 >? TMP_BUF_SIZE then Some (None, u)
            else buf' ← zblit u q (if c' <? 128 then [c'] else unicode_to_utf8 c');
                 re_parse_group_name_loop fuel buf' TMP_BUF_SIZE pat p'
                   (q + zlen (if c' <? 128 then [c'] else unicode_to_utf8 c')) utf16)
      = Some r /\ tmp_ok r.2 /\
      match r.1 with
      | Some (p', q') => p <= p' < e /\ q <= q' < TMP_BUF_SIZE - 1
      | None => True
      end).
  { intros c' p' Hc' Hp'.
    apply (group_name_char_ok u q c'
      (fun u' q' => re_parse_group_name_loop fuel u' TMP_BUF_SIZE pat p' q' utf16)); try done.
    intros u' q' Hc0 Hu' Hq'. specialize (Hp' Hc0).
    destruct (IH u' p' q' ltac:(lia) Hu' ltac:(lia) ltac:(lia)) as (r & -> & Hr & Hpq).
    exists r. split; [done|]. split; [done|]. destruct (r.1) as [[p2 q2]|]; [|done]. lia. }
  destruct (Z.eqb_spec c 92).
  { assert (p < e) by (apply Hc; lia).
    pat_rd Hpat x Hx. destruct (negb (x =? 117)) eqn:Ex; [by eexists|]. zify_bools.
    destruct (lre_parse_escape_ok pat e (p + 1) (if utf16 then 2 else 0) Hpat ltac:(lia))
      as (r & p' & -> & Hr & Hr1 & Hr2).
    cbn [mbind option_bind]. apply Hchar; lia. }
  destruct (Z.eqb_spec c 62).
  { eexists. split; [done|]. split; [done|]. cbn. assert (p < e) by (apply Hc; lia). lia. }
  rewrite Z.geb_leb. destruct (Z.leb_spec 128 c).
  { assert (p < e) by (apply Hc; lia).
    destruct (utf8_at_ok pat e p Hpat ltac:(lia)) as (c' & p' & -> & Hc').
    cbn [mbind option_bind]. apply Hchar; lia. }
  destruct (decide (c = 0)) as [->|].
  - (* the terminator is not an identifier character *)
    cbn -[re_parse_group_name_loop]. destruct (q =? 0); by eexists.
  - apply Hchar; [lia|]. intros _. assert (p < e) by (apply Hc; lia). lia.
Qed.

Lemma re_parse_group_name_ok u pat e p utf16 :
  pat_ok pat e -> 0 <= p <= e -> tmp_ok u ->
  exists r u' p', re_parse_group_name u TMP_BUF_SIZE pat p utf16 = Some (r, u', p') /\
    tmp_ok u' /\ (r = -1 /\ p' = p \/ r = 0 /\ p < p' <= e).
Proof.
  intros Hpat Hp Hu. unfold re_parse_group_name.
  destruct (group_name_loop_ok (S (length pat)) u pat e p 0 utf16) as ([r u'] & -> & Hu' & Hr);
    [done..|by vm_compute|destruct Hpat as [Hl _ _]; unfold zlen in Hl; lia|].
  cbn [mbind option_bind]. cbn in Hu', Hr. destruct r as [[p' q']|].
  2:{ eexists _, _, _. split; [done|]. split; [done|]. by left. }
  destruct (q' =? 0). { eexists _, _, _. split; [done|]. split; [done|]. by left. }
  destruct Hr as [Hp' Hq']. pose proof Hu' as [Hl Hz]. rewrite zupd_is_Some by lia.
  cbn [mbind option_bind]. eexists _, _, _. split; [done|]. split; [|right; split; [done|lia]].
  split; [by rewrite zlen_insert|]. rewrite znth_insert_ne by lia. done.
Qed.

(** ** Names in memory *)

Lemma strlen_zero l k : znth l k = Some 0 -> exists n, strlen l = Some n /\ 0 <= n <= k.
Proof.
  revert k. induction l as [|x l IH]; intros k Hk.
  { apply znth_Some_range in Hk. change (zlen (@nil Z)) with 0 in Hk. lia. }
  pose proof (znth_Some_range _ _ _ Hk) as Hr. cbn [strlen].
  destruct (Z.eqb_spec x 0) as [->|Hx]; [exists 0; split; [done|lia]|].
  destruct (decide (k = 0)) as [->|Hk0].
  { rewrite znth_cons_0 in Hk. congruence. }
  rewrite znth_cons_S in Hk by lia. destruct (IH (k - 1) Hk) as (n & -> & Hn).
  cbn. exists (1 + n). split; [done|lia].
Qed.

Lemma tmp_strlen u : tmp_ok u -> exists n, strlen u = Some n /\ 0 <= n < TMP_BUF_SIZE.
Proof.
  intros [_ Hz]. destruct (strlen_zero _ _ Hz) as (n & -> & Hn). exists n. split; [done|lia].
Qed.

Lemma strcmp_eq_ok a b : is_Some (strlen a) -> is_Some (strlen b) -> is_Some (strcmp_eq a b).
Proof.
  revert b. induction a as [|x a IH]; intros b Ha Hb; [by destruct Ha|].
  destruct b as [|y b]; [by destruct Hb|]. cbn [strcmp_eq strlen] in *.
  destruct (Z.eqb_spec x y) as [->|]; [|by eexists].
  destruct (y =? 0); [by eexists|]. apply IH.
  - destruct (strlen a); [by eexists|by destruct Ha].
  - destruct (strlen b); [by eexists|by destruct Hb].
Qed.

(** ** Captures *)

Lemma skip_class_ok fuel pat e p :
  pat_ok pat e -> 0 <= p -> e - p < Z.of_nat fuel -> (0 < fuel)%nat ->
  exists p', skip_class fuel pat p e = Some p' /\ p <= p'.
Proof.
  intros Hpat. revert p. induction fuel as [|fuel IH]; intros p Hp Hf H0; [lia|].
  cbn [skip_class]. destruct (Z.ltb_spec p e); [|eexists; split; [done|lia]].
  pat_rd Hpat c Hc. destruct (c =? 93); [eexists; split; [done|lia]|].
  destruct (IH (if c =? 92 then p + 2 else p + 1)) as (p' & -> & Hp');
    [destruct (c =? 92); lia..|lia|]. exists p'. split; [done|]. destruct (c =? 92); lia.
Qed.

(** The number of captures plus one, or an index. *)
Definition captures_result (capture_name : option (list Z)) (n : Z) : Prop :=
  match capture_name with
  | None => 1 <= n <= CAPTURE_COUNT_MAX
  | Some _ => n = -1 \/ 1 <= n < CAPTURE_COUNT_MAX
  end.

Lemma re_parse_captures_loop_ok fuel pat e p utf16 name ci hn :
  pat_ok pat e -> 0 <= p -> e - p < Z.of_nat fuel -> (0 < fuel)%nat ->
  1 <= ci < CAPTURE_COUNT_MAX -> 0 <= hn <= 1 ->
  match name with Some n => is_Some (strlen n) | None => True end ->
  exists n h, re_parse_captures_loop fuel pat p e utf16 name ci hn = Some (n, h) /\
    captures_result name n /\ 0 <= h <= 1.
Proof.
  intros Hpat Hp Hf H0 Hci Hhn Hname. revert p ci hn Hp Hf Hci Hhn H0.
  induction fuel as [|fuel IH]; intros p ci hn Hp Hf Hci Hhn H0; [lia|].
  assert (Hdone : forall ci hn, 1 <= ci <= CAPTURE_COUNT_MAX -> 0 <= hn <= 1 ->
    exists n h, Some (match name with Some _ => -1 | None => ci end, hn) = Some (n, h) /\
      captures_result name n /\ 0 <= h <= 1).
  { intros ci' hn' ??. eexists _, _. split; [done|]. split; [|done]. destruct name; [by left|done]. }
  cbn [re_parse_captures_loop]. cbv zeta.
  destruct (Z.ltb_spec p e); [|by apply Hdone; lia].
  assert (Hnext : forall p' ci hn, p <= p' -> 1 <= ci < CAPTURE_COUNT_MAX -> 0 <= hn <= 1 ->
    exists n h, re_parse_captures_loop fuel pat (p' + 1) e utf16 name ci hn = Some (n, h) /\
      captures_result name n /\ 0 <= h <= 1).
  { intros p' ci' hn' Hp' ??. destruct fuel as [|fuel'].
    - lia.
    - apply IH; done || lia. }
  assert (Hcount : forall p' hn', p <= p' -> 0 <= hn' <= 1 ->
    exists n h,
      (if ci + 1 >=? CAPTURE_COUNT_MAX
       then Some (match name with Some _ => -1 | None => ci + 1 end, hn')
       else re_parse_captures_loop fuel pat (p' + 1) e utf16 name (ci + 1) hn') = Some (n, h) /\
      captures_result name n /\ 0 <= h <= 1).
  { intros p' hn' Hp' Hh. rewrite Z.geb_leb. destruct (Z.leb_spec CAPTURE_COUNT_MAX (ci + 1)).
    - apply Hdone; lia.
    - apply Hnext; lia. }
  pat_rd Hpat c Hc. destruct (Z.eqb_spec c 40).
  { assert (p < e) by lia. pat_rd Hpat c1 Hc1. destruct (Z.eqb_spec c1 63); [|by apply Hcount; lia].
    assert (p + 1 < e) by (apply Hc1; lia). pat_rd Hpat c2 Hc2.
    destruct (Z.eqb_spec c2 60); [|by apply Hnext; lia].
    assert (p + 2 < e) by (apply Hc2; lia). pat_rd Hpat c3 Hc3.
    destruct (_ && _); [|by apply Hnext; lia].
    destruct name as [cname|]; [|by apply Hcount; lia].
    destruct (re_parse_group_name_ok (replicate (Z.to_nat TMP_BUF_SIZE) 0) pat e (p + 3) utf16)
      as (r & u' & p' & -> & Hu' & Hr); [done|lia|by vm_compute|].
    cbn [mbind option_bind].
    destruct (r =? 0); [|apply Hcount; lia].
    destruct (tmp_strlen _ Hu') as (n1 & En1 & _).
    destruct (strcmp_eq_ok u' cname) as [eq ->]; [by eexists|done|]. cbn [mbind option_bind].
    destruct eq; [|apply Hcount; lia].
    eexists _, _. split; [done|]. split; [right; lia|lia]. }
  destruct (c =? 92); [apply Hnext; lia|].
  destruct (c =? 91); [|apply Hnext; lia].
  destruct (skip_class_ok (S (length pat)) pat e (p + 1)) as (p' & -> & Hp');
    [done|lia|destruct Hpat as [Hl _ _]; unfold zlen in Hl; lia|lia|].
  cbn [mbind option_bind]. apply Hnext; lia.
Qed.

Lemma re_parse_captures_ok pat e utf16 name :
  pat_ok pat e -> 0 <= e -> match name with Some n => is_Some (strlen n) | None => True end ->
  exists n h, re_parse_captures pat e utf16 name = Some (n, h) /\
    captures_result name n /\ 0 <= h <= 1.
Proof.
  intros Hpat He Hname. apply re_parse_captures_loop_ok; try done; try lia.
  destruct Hpat as [Hl _ _]. unfold zlen in Hl. lia.
Qed.
End idents.

(** The group names: zero terminated strings one after the other. *)
Definition pack_names (ns : list (list Z)) : list Z := concat (map (fun n => n ++ [0]) ns).

Definition names_ok (l : list Z) (k : nat) : Prop :=
  exists ns, l = pack_names ns /\ length ns = k /\ Forall (Forall (fun c => c <> 0)) ns.

Lemma names_ok_nil : names_ok [] 0.
Proof. by exists []. Qed.

Lemma names_ok_snoc l k n :
  names_ok l k -> Forall (fun c => c <> 0) n -> names_ok (l ++ n ++ [0]) (S k).
Proof.
  intros (ns & -> & <- & Hns) Hn. exists (ns ++ [n]). unfold pack_names. split_and!.
  - rewrite map_app, concat_app. cbn. by rewrite app_nil_r.
  - rewrite length_app. cbn. lia.
  - apply Forall_app. split; [done|]. by constructor.
Qed.

Lemma find_group_name_loop_ok fuel pre ns post name nl ci :
  Forall (Forall (fun c => c <> 0)) ns -> strlen name = Some nl -> 0 <= nl <= zlen name ->
  zlen (pack_names ns) < Z.of_nat fuel ->
  exists r, find_group_name_loop fuel (pre ++ pack_names ns ++ post) (zlen pre)
              (zlen pre + zlen (pack_names ns)) name ci = Some r /\
    (r = -1 \/ ci <= r < ci + zlen ns).
Proof.
  intros Hns Hname Hnl. revert fuel pre ci.
  induction Hns as [|n ns Hn Hns IH]; intros fuel pre ci Hf; (destruct fuel as [|fuel]; [zlen_lia|]);
    cbn [find_group_name_loop].
  { rewrite (proj2 (Z.ltb_ge _ _)) by (cbn; zlen_lia). eexists. split; [done|]. by left. }
  change (pack_names (n :: ns)) with ((n ++ [0]) ++ pack_names ns) in *.
  rewrite (proj2 (Z.ltb_lt _ _)) by zlen_lia.
  assert (Hdrop : drop (Z.to_nat (zlen pre)) (pre ++ ((n ++ [0]) ++ pack_names ns) ++ post)
                  = n ++ 0 :: pack_names ns ++ post).
  { unfold zlen. rewrite Nat2Z.id, drop_app_length. by rewrite <- !app_assoc. }
  rewrite Hdrop. rewrite (strlen_cstr (n ++ 0 :: pack_names ns ++ post) n) by (split; [done|by exists (pack_names ns ++ post)]).
  cbn [mbind option_bind]. rewrite Hname. cbn [mbind option_bind].
  rewrite (zslice_is_Some name 0 nl) by lia. cbn [mbind option_bind].
  assert (Hrec : exists r, find_group_name_loop fuel (pre ++ ((n ++ [0]) ++ pack_names ns) ++ post)
    (zlen pre + zlen n + 1) (zlen pre + zlen ((n ++ [0]) ++ pack_names ns)) name (ci + 1) = Some r /\
    (r = -1 \/ ci <= r < ci + zlen (n :: ns))).
  { destruct (IH fuel (pre ++ n ++ [0]) (ci + 1)) as (r & Er & Hr); [zlen_lia|].
    exists r. split; [|zlen_lia]. rewrite <- Er. f_equal.
    - by rewrite <- !app_assoc.
    - zlen_lia.
    - zlen_lia. }
  destruct (Z.eqb_spec (zlen n) nl) as [<-|]; [|done].
  rewrite zslice_is_Some by zlen_lia. cbn [mbind option_bind].
  destruct (memcmp_eq _ _); [|done]. eexists. split; [done|]. right. zlen_lia.
Qed.

Lemma find_group_name_ok names size k name :
  names_ok (take (Z.to_nat size) names) k -> 0 <= size <= zlen names -> tmp_ok name ->
  exists r, find_group_name names size name = Some r /\ (r = -1 \/ 1 <= r < 1 + Z.of_nat k).
Proof.
  intros (ns & E & <- & Hns) Hz Hu. destruct (tmp_strlen _ Hu) as (nl & Hnl & Hr).
  unfold find_group_name.
  assert (Hlen : zlen (pack_names ns) = size) by (rewrite <- E, zlen_take; lia).
  destruct (find_group_name_loop_ok (S (Z.to_nat size)) [] ns (drop (Z.to_nat size) names) name nl 1)
    as (r & Er & Hr'); [done|done|destruct Hu; lia|lia|].
  change (zlen (@nil Z)) with 0 in Er. cbn [app] in Er. rewrite Hlen, Z.add_0_l in Er.
  rewrite <- E, take_drop in Er. exists r. split; [exact Er|]. done.
Qed.
