(* ===== verification/ReHoare.v ===== *)
(** * A program logic for the functions of the parser

    [wp m Q s]: from the state [s] the computation [m] ends, it accesses nothing outside
    the objects unless an allocation for the byte code has failed before (the code tests
    the error flag of the buffer late), it leaves the temporary buffer a string when it
    reports an error, and otherwise its result and state satisfy [Q].  The rules for the
    emission describe the byte code as a list that is known unless the flag is set. *)

From Stdlib Require Import Ascii String.
From S2P Require Import Prelude CStr Bytes DynBuf Utf8 CharRange ReOpcode ReCode ReState.
From S2P Require Import ReLex ReClass ReParse ReLexSafe.

(** ** Weakest preconditions *)

Definition wp {A} (m : M A) (Q : A -> REParseState -> Prop) (s : REParseState) : Prop :=
  match m s with
  | Ok x s' => Q x s'
  | Err s' => tmp_ok (u s')
  | Undef s' => error (byte_code s') = true
  | NoFuel => False
  end.

Lemma wp_ret {A} (x : A) Q s : Q x s -> wp (mret x) Q s.
Proof. done. Qed.

Lemma wp_bind {A B} (m : M A) (f : A -> M B) Q s :
  wp m (fun x s' => wp (f x) Q s') s -> wp (m ≫= f) Q s.
Proof. unfold wp, mbind, M_bind. by destruct (m s). Qed.

Lemma wp_mono {A} (m : M A) (Q Q' : A -> REParseState -> Prop) s :
  wp m Q s -> (forall x s', Q x s' -> Q' x s') -> wp m Q' s.
Proof. unfold wp. destruct (m s); auto. Qed.

Lemma wp_gets {A} (f : REParseState -> A) Q s : Q (f s) s -> wp (gets f) Q s.
Proof. done. Qed.

Lemma wp_state Q s : Q s s -> wp (gets id) Q s.
Proof. done. Qed.

Lemma wp_modify f Q s : Q tt (f s) -> wp (modify f) Q s.
Proof. done. Qed.

Lemma wp_fail {A} (Q : A -> _) s : tmp_ok (u s) -> wp fail Q s.
Proof. done. Qed.

Lemma wp_lift {A} (o : option A) x Q s : o = Some x -> Q x s -> wp (lift o) Q s.
Proof. by intros ->. Qed.

Lemma wp_rd p c Q s : znth (pat s) p = Some c -> Q c s -> wp (rd p) Q s.
Proof. intros E. by apply (wp_lift _ c). Qed.

Lemma format_error_ok msg u : tmp_ok u -> tmp_ok (format_error msg u).
Proof.
  intros [Hl Hz]. unfold format_error. set (m := _ ++ [0]).
  assert (Hm : 1 <= zlen m <= TMP_BUF_SIZE).
  { subst m. unfold TMP_BUF_SIZE. zlen_lia. }
  change TMP_BUF_SIZE with 128 in *.
  assert (Hd : drop (length m) u = drop (Z.to_nat (zlen m)) u) by (unfold zlen; f_equal; lia).
  unfold tmp_ok. change TMP_BUF_SIZE with 128. rewrite Hd.
  split; [clearbody m; clear Hd; zlen_lia|]. destruct (decide (zlen m = 128)) as [E|E].
  - rewrite znth_app_l by lia. subst m. rewrite znth_app_r by zlen_lia.
    autorewrite with zlen in *. replace (128 - 1 - _) with 0 by lia. done.
  - rewrite znth_app_r by lia. rewrite znth_lookup in * by lia. rewrite lookup_drop.
    rewrite <- Hz. f_equal. lia.
Qed.

Lemma wp_error {A} msg (Q : A -> _) s : tmp_ok (u s) -> wp (re_parse_error msg) Q s.
Proof. intros. apply wp_bind, wp_modify, wp_fail. by apply format_error_ok. Qed.

Lemma wp_if {A} (b : bool) (m n : M A) Q s :
  (b = true -> wp m Q s) -> (b = false -> wp n Q s) -> wp (if b then m else n) Q s.
Proof. by destruct b; auto. Qed.

(** ** The byte code *)

(** The bytes of the buffer are [l], unless an allocation failed. *)
Definition bhas (b : DynBuf) (l : list Z) : Prop := error b = false -> dbuf_wf b /\ content b = l.

(** The flag of [b] is still set in [b']. *)
Definition bto (b b' : DynBuf) : Prop := error b' = false -> error b = false.

Lemma bto_refl b : bto b b.
Proof. unfold bto. auto. Qed.

Lemma bto_trans b1 b2 b3 : bto b1 b2 -> bto b2 b3 -> bto b1 b3.
Proof. unfold bto. auto. Qed.

(** Chains [bto] through the states of a sequence of emissions. *)
Ltac bchain :=
  cbn [byte_code set_byte_code set_buf_ptr set_capture_count set_captures set_group_names
       set_u] in *;
  try (lazymatch goal with |- bto _ _ => intros ? end);
  repeat match goal with
  | T : bto ?a ?b, E : error ?b = false |- _ => specialize (T E); cbv beta in T
  end;
  assumption.

Lemma set_byte_code_id s : set_byte_code (byte_code s) s = s.
Proof. by destruct s. Qed.

Lemma bhas_size b l : bhas b l -> error b = false -> size b = zlen l.
Proof. intros Hb He. destruct (Hb He) as [Hwf <-]. by rewrite zlen_content. Qed.

Lemma bhas_eq b l l' : bhas b l -> l = l' -> bhas b l'.
Proof. by intros ? ->. Qed.

Lemma le_bytes_mod n v : le_bytes n (v mod 256 ^ Z.of_nat n) = le_bytes n v.
Proof.
  revert v. induction n as [|n IH]; intros v; [done|]. cbn [le_bytes].
  rewrite Nat2Z.inj_succ, Z.pow_succ_r by lia.
  assert (0 < 256 ^ Z.of_nat n) by (apply Z.pow_pos_nonneg; lia).
  f_equal.
  - rewrite Z.rem_mul_r by lia. rewrite (Z.mul_comm 256 (_ mod _)), Z.mod_add by lia.
    by rewrite Z.mod_mod by lia.
  - rewrite <- (IH (v / 256)). f_equal.
    rewrite Z.rem_mul_r by lia. rewrite (Z.mul_comm 256 (_ mod _)), Z.div_add by lia.
    rewrite (Z.div_small (v mod 256)) by (apply Z.mod_pos_bound; lia). lia.
Qed.

Lemma le_bytes_u32 v : le_bytes 4 (u32 v) = le_bytes 4 v.
Proof. apply (le_bytes_mod 4). Qed.

Lemma le_bytes_u16 v : le_bytes 2 (u16 v) = le_bytes 2 v.
Proof. apply (le_bytes_mod 2). Qed.

Section emission.
Context `{AllocatorOk}.

Lemma realloc_sticky b n : error b = true -> error (dbuf_realloc b n).1 = true.
Proof. intros E. unfold dbuf_realloc. rewrite E. by destruct (_ >? _). Qed.

(** The effect of a buffer function: it is the list function [f] on [l], or it sets the
    flag. *)
Definition buf_effect (o : option (DynBuf * Z)) (b : DynBuf) (l' : list Z) : Prop :=
  match o with
  | Some (b', r) => bto b b' /\ bhas b' l' /\ (error b' = false -> r = 0 \/ r = -1)
  | None => error b = true
  end.

Lemma put_effect b l d : bhas b l -> zlen d < 2 ^ 63 -> buf_effect (dbuf_put b d) b (l ++ d).
Proof.
  intros Hb Hd. unfold buf_effect. destruct (error b) eqn:E.
  - destruct (dbuf_put b d) as [[b' r]|] eqn:Ep; [|done].
    assert (error b' = true) as Eb; [|unfold bto, bhas; rewrite Eb; done].
    unfold dbuf_put in Ep. set (n := u64 _) in Ep.
    assert (Hs := realloc_sticky b n E).
    destruct (if n >? allocated_size b then dbuf_realloc b n else (b, 0)) as [b1 r1] eqn:Eg.
    assert (error b1 = true).
    { destruct (n >? _); [by rewrite Eg in Hs|by injection Eg as <- <-]. }
    destruct (negb (r1 =? 0)); [by injection Ep as <- <-|].
    destruct (zblit _ _ _); [|done]. by injection Ep as <- <-.
  - destruct (Hb E) as [Hwf Hc].
    destruct (dbuf_put_spec b d Hwf Hd) as (b' & r & -> & Hwf' & Hr). subst l.
    destruct Hr as [(-> & Hc' & He)|(-> & _ & He)].
    + split; [by intros _|]. split; [by intros _|]. by left.
    + unfold bto, bhas. rewrite He. done.
Qed.

Lemma put_self_effect b l off len :
  bhas b l -> (error b = false -> 0 <= off /\ 0 <= len /\ off + len <= zlen l) ->
  buf_effect (dbuf_put_self b off len) b (l ++ take (Z.to_nat len) (drop (Z.to_nat off) l)).
Proof.
  intros Hb Hr. unfold buf_effect. destruct (error b) eqn:E.
  - destruct (dbuf_put_self b off len) as [[b' r]|] eqn:Ep; [|done].
    assert (error b' = true) as Eb; [|unfold bto, bhas; rewrite Eb; done].
    unfold dbuf_put_self in Ep. set (n := u64 _) in Ep.
    assert (Hs := realloc_sticky b n E).
    destruct (if n >? allocated_size b then dbuf_realloc b n else (b, 0)) as [b1 r1] eqn:Eg.
    assert (error b1 = true).
    { destruct (n >? _); [by rewrite Eg in Hs|by injection Eg as <- <-]. }
    destruct (negb (r1 =? 0)); [by injection Ep as <- <-|].
    destruct (_ || _); [|done]. destruct (zslice _ _ _); [|done]. cbn in Ep.
    destruct (zblit _ _ _); [|done]. by injection Ep as <- <-.
  - destruct (Hb E) as [Hwf Hc]. specialize (Hr eq_refl). subst l. rewrite zlen_content in Hr by done.
    destruct (dbuf_put_self_spec b off len Hwf) as (b' & r & -> & Hwf' & Hs); [lia..|].
    destruct Hs as [(-> & Hc' & He)|(-> & _ & He)].
    + split; [by intros _|]. split; [by intros _|]. by left.
    + unfold bto, bhas. rewrite He. done.
Qed.

Lemma content_buf b : dbuf_wf b -> buf b = content b ++ drop (Z.to_nat (size b)) (buf b).
Proof. intros _. symmetry. apply take_drop. Qed.

(** A change of the bytes of the buffer in place. *)
Lemma blit_effect b l1 x l2 d :
  dbuf_wf b -> content b = l1 ++ x ++ l2 -> zlen d = zlen x ->
  exists b', zblit (buf b) (zlen l1) d = Some b' /\
    bhas (set_buf b b' (size b)) (l1 ++ d ++ l2).
Proof.
  intros Hwf Hc Hd. pose proof (content_buf b Hwf) as Hb. rewrite Hc in Hb.
  rewrite <- !app_assoc in Hb.
  assert (Hz := zblit_app l1 x (l2 ++ drop (Z.to_nat (size b)) (buf b)) d Hd).
  rewrite <- Hb in Hz. eexists. split; [exact Hz|]. intros _.
  apply zblit_len in Hz as Hl. destruct Hwf as (H1 & H2 & H3).
  split; [by split_and!; cbn [buf size allocated_size set_buf]; lia|].
  unfold content. cbn [buf size set_buf]. rewrite !app_assoc. apply take_app_length'.
  assert (zlen (content b) = size b) as Hs by by apply zlen_content.
  rewrite Hc in Hs. unfold zlen in *. rewrite !length_app in *. lia.
Qed.

(** ** Rules of the emission *)

Lemma wp_emit_effect f l' Q s :
  buf_effect (f (byte_code s)) (byte_code s) l' ->
  (forall b, bto (byte_code s) b -> bhas b l' -> Q tt (set_byte_code b s)) -> wp (emit f) Q s.
Proof.
  unfold wp, emit, buf_effect. destruct (f (byte_code s)) as [[b r]|]; [|done].
  intros (? & ? & _). auto.
Qed.

Lemma wp_put l d Q s :
  bhas (byte_code s) l -> zlen d < 2 ^ 63 ->
  (forall b, bto (byte_code s) b -> bhas b (l ++ d) -> Q tt (set_byte_code b s)) ->
  wp (emit (fun b => dbuf_put b d)) Q s.
Proof. intros Hb Hd. apply wp_emit_effect. by apply put_effect. Qed.

Lemma wp_put_u16 l v Q s :
  bhas (byte_code s) l ->
  (forall b, bto (byte_code s) b -> bhas b (l ++ le_bytes 2 v) -> Q tt (set_byte_code b s)) ->
  wp (emit (fun b => dbuf_put_u16 b v)) Q s.
Proof. intros Hb. apply wp_put; [done|]. by rewrite zlen_le_bytes. Qed.

Lemma wp_put_u32 l v Q s :
  bhas (byte_code s) l ->
  (forall b, bto (byte_code s) b -> bhas b (l ++ le_bytes 4 v) -> Q tt (set_byte_code b s)) ->
  wp (emit (fun b => dbuf_put_u32 b v)) Q s.
Proof. intros Hb. apply wp_put; [done|]. by rewrite zlen_le_bytes. Qed.

Lemma wp_emit_op l op Q s :
  bhas (byte_code s) l -> 0 <= op < 256 ->
  (forall b, bto (byte_code s) b -> bhas b (l ++ [op]) -> Q tt (set_byte_code b s)) ->
  wp (re_emit_op op) Q s.
Proof. intros Hb Ho HQ. apply (wp_put l [u8 op]); [done..|]. by rewrite u8_small. Qed.

Lemma wp_emit_op_u8 l op v Q s :
  bhas (byte_code s) l -> 0 <= op < 256 -> 0 <= v < 256 ->
  (forall b, bto (byte_code s) b -> bhas b (l ++ [op; v]) -> Q tt (set_byte_code b s)) ->
  wp (re_emit_op_u8 op v) Q s.
Proof.
  intros Hb Ho Hv HQ. apply wp_bind. apply (wp_emit_op l op); [done..|]. intros b1 T1 B1.
  apply (wp_emit_op (l ++ [op]) v); [done..|]. intros b2 T2 B2.
  apply (HQ b2); [by eapply bto_trans|]. by rewrite <- app_assoc in B2.
Qed.

Lemma wp_emit_op_u16 l op v Q s :
  bhas (byte_code s) l -> 0 <= op < 256 ->
  (forall b, bto (byte_code s) b -> bhas b (l ++ op :: le_bytes 2 v) -> Q tt (set_byte_code b s)) ->
  wp (re_emit_op_u16 op v) Q s.
Proof.
  intros Hb Ho HQ. apply wp_bind. apply (wp_emit_op l op); [done..|]. intros b1 T1 B1.
  apply (wp_put_u16 (l ++ [op])); [done..|]. intros b2 T2 B2.
  apply (HQ b2); [by eapply bto_trans|]. by rewrite <- app_assoc, le_bytes_u16 in B2.
Qed.

(** The position returned is that of the operand. *)
Lemma wp_emit_op_u32 l op v Q s :
  bhas (byte_code s) l -> 0 <= op < 256 ->
  (forall b pos, bto (byte_code s) b -> bhas b (l ++ op :: le_bytes 4 v) ->
    (error b = false -> pos = zlen l + 1) -> Q pos (set_byte_code b s)) ->
  wp (re_emit_op_u32 op v) Q s.
Proof.
  intros Hb Ho HQ. apply wp_bind. apply (wp_emit_op l op); [done..|]. intros b1 T1 B1.
  apply wp_bind, wp_gets. apply wp_bind.
  apply (wp_put_u32 (l ++ [op])); [done..|]. intros b2 T2 B2. apply wp_ret.
  apply (HQ b2); [by eapply bto_trans| |].
  - by rewrite <- app_assoc, le_bytes_u32 in B2.
  - intros E. cbn. rewrite (bhas_size _ _ B1) by auto. zlen_lia.
Qed.

Lemma wp_emit_goto l op v off Q s :
  bhas (byte_code s) l -> 0 <= op < 256 ->
  (error (byte_code s) = false -> v - (zlen l + 5) = off) ->
  (forall b pos, bto (byte_code s) b -> bhas b (l ++ op :: jmp off) -> Q pos (set_byte_code b s)) ->
  wp (re_emit_goto op v) Q s.
Proof.
  intros Hb Ho Hoff HQ. apply wp_bind. apply (wp_emit_op l op); [done..|]. intros b1 T1 B1.
  apply wp_bind, wp_gets. apply wp_bind.
  apply (wp_put_u32 (l ++ [op])); [done..|]. intros b2 T2 B2. apply wp_ret.
  apply (HQ b2); [by eapply bto_trans|]. intros E. destruct (B2 E) as [Hwf Hc]. split; [done|].
  assert (v - (size (byte_code (set_byte_code b1 s)) + 4) = off) as Eo.
  { rewrite <- Hoff by auto. cbn. rewrite (bhas_size _ _ B1) by auto. zlen_lia. }
  by rewrite Hc, <- app_assoc, le_bytes_u32, Eo.
Qed.

Lemma insert_sticky b pos len b' r :
  error b = true -> dbuf_insert b pos len = Some (b', r) -> error b' = true.
Proof.
  intros E Ei. unfold dbuf_insert in Ei. set (n := u64 _) in Ei.
  assert (Hs := realloc_sticky b n E). destruct (dbuf_realloc b n) as [b1 r1]. cbn in Hs.
  destruct (negb (r1 =? 0)); [by injection Ei as <- <-|].
  destruct (zslice _ _ _); [|done]. cbn in Ei. destruct (zblit _ _ _); [|done].
  by injection Ei as <- <-.
Qed.

Lemma wp_insert l1 l2 pos len Q s :
  bhas (byte_code s) (l1 ++ l2) -> (error (byte_code s) = false -> pos = zlen l1) ->
  0 <= len < 2 ^ 63 -> tmp_ok (u s) ->
  (forall b hole, bto (byte_code s) b -> zlen hole = len -> bhas b (l1 ++ hole ++ l2) ->
    Q tt (set_byte_code b s)) ->
  wp (insert_code pos len) Q s.
Proof.
  intros Hb Hpos Hlen Hu HQ. apply wp_bind. unfold wp at 1, emit_ret.
  assert (zlen (replicate (Z.to_nat len) 0) = len) as Hr by zlen_lia.
  destruct (error (byte_code s)) eqn:E.
  - destruct (dbuf_insert _ _ _) as [[b r]|] eqn:Ei; [|done].
    pose proof (insert_sticky _ _ _ _ _ E Ei) as Eb.
    apply wp_if; intros _; [|by apply wp_error].
    apply wp_ret, (HQ b _ ltac:(by unfold bto; rewrite Eb) Hr). unfold bhas. by rewrite Eb.
  - specialize (Hpos eq_refl). destruct (Hb E) as [Hwf Hc]. subst pos.
    pose proof (zlen_content _ Hwf) as Hsz. rewrite Hc, zlen_app in Hsz.
    pose proof (zlen_nonneg l1). pose proof (zlen_nonneg l2).
    destruct (dbuf_insert_spec (byte_code s) (zlen l1) len Hwf) as (b & r & -> & Hwf' & Hi); [lia..|].
    destruct Hi as [(-> & He & hole & Hh & Hc')|(-> & _ & He)]; [|by apply wp_error].
    apply wp_ret, (HQ b hole); [by unfold bto|done|]. intros _. split; [done|].
    rewrite Hc', Hc. unfold zlen. rewrite Nat2Z.id, take_app_length, drop_app_length. done.
Qed.

(** A store does not touch the flag. *)
Lemma wp_blit l1 x l2 pos d f Q s :
  bhas (byte_code s) (l1 ++ x ++ l2) -> (error (byte_code s) = false -> pos = zlen l1) ->
  zlen d = zlen x ->
  (forall b, f b = (l ← zblit (buf b) pos d; Some (set_buf b l (size b), 0))) ->
  (forall b, error b = error (byte_code s) -> bhas b (l1 ++ d ++ l2) -> Q tt (set_byte_code b s)) ->
  wp (emit f) Q s.
Proof.
  intros Hb Hpos Hd Hf HQ. unfold wp, emit. rewrite Hf.
  destruct (error (byte_code s)) eqn:E.
  - destruct (zblit _ _ _) as [l|]; [|done]. cbn [mbind option_bind].
    apply HQ; [done|]. unfold bhas. cbn. by rewrite E.
  - rewrite (Hpos eq_refl). destruct (Hb E) as [Hwf Hc].
    destruct (blit_effect _ _ _ _ _ Hwf Hc Hd) as (l & -> & Hl). by apply HQ.
Qed.

Lemma wp_poke_keep l1 x l2 pos v Q s :
  bhas (byte_code s) (l1 ++ x :: l2) -> (error (byte_code s) = false -> pos = zlen l1) ->
  0 <= v < 256 ->
  (forall b, error b = error (byte_code s) -> bhas b (l1 ++ v :: l2) -> Q tt (set_byte_code b s)) ->
  wp (poke pos v) Q s.
Proof.
  intros Hb Hpos Hv. apply (wp_blit l1 [x] l2 pos [v]); [done..|].
  intros b. rewrite u8_small by done. unfold zupd, zblit. change (zlen [v]) with 1.
  destruct (Z.leb_spec 0 pos), (Z.ltb_spec pos (zlen (buf b))), (Z.leb_spec (pos + 1) (zlen (buf b)));
    cbn [andb]; try done; try lia. cbn [mbind option_bind].
  do 3 f_equal. rewrite insert_take_drop by (unfold zlen in *; lia). cbn. do 3 f_equal. lia.
Qed.

Lemma wp_poke_u32_keep l1 x l2 pos v Q s :
  bhas (byte_code s) (l1 ++ x ++ l2) -> (error (byte_code s) = false -> pos = zlen l1) ->
  zlen x = 4 ->
  (forall b, error b = error (byte_code s) -> bhas b (l1 ++ le_bytes 4 v ++ l2) ->
    Q tt (set_byte_code b s)) ->
  wp (poke_u32 pos v) Q s.
Proof.
  intros Hb Hpos Hx. apply (wp_blit l1 x l2 pos (le_bytes 4 v)); [done..| |].
  - rewrite zlen_le_bytes. lia.
  - intros b. unfold put_u32. by rewrite le_bytes_u32.
Qed.

Lemma wp_poke l1 x l2 pos v Q s :
  bhas (byte_code s) (l1 ++ x :: l2) -> (error (byte_code s) = false -> pos = zlen l1) ->
  0 <= v < 256 ->
  (forall b, bto (byte_code s) b -> bhas b (l1 ++ v :: l2) -> Q tt (set_byte_code b s)) ->
  wp (poke pos v) Q s.
Proof.
  intros Hb Hpos Hv HQ. apply (wp_poke_keep l1 x l2); [done..|]. intros b E.
  apply HQ. unfold bto. congruence.
Qed.

Lemma wp_poke_u32 l1 x l2 pos v Q s :
  bhas (byte_code s) (l1 ++ x ++ l2) -> (error (byte_code s) = false -> pos = zlen l1) ->
  zlen x = 4 ->
  (forall b, bto (byte_code s) b -> bhas b (l1 ++ le_bytes 4 v ++ l2) -> Q tt (set_byte_code b s)) ->
  wp (poke_u32 pos v) Q s.
Proof.
  intros Hb Hpos Hx HQ. apply (wp_poke_u32_keep l1 x l2); [done..|]. intros b E.
  apply HQ. unfold bto. congruence.
Qed.
End emission.
