(* ===== verification/ReClassSafe.v ===== *)
(** * The parsing of character classes is safe

    The ranges of the classes stay valid, the class functions stay inside the pattern
    and make progress, and what [re_emit_range] emits is a well formed instruction. *)

From Stdlib Require Import Ascii String.
From S2P Require Import Prelude CStr Bytes DynBuf Utf8 CharRange ReOpcode ReCode ReState.
From S2P Require Import ReLex ReClass ReLexSafe ReHoare.

(** ** Predefined ranges *)

Fixpoint increasingb (l : list Z) : bool :=
  match l with
  | x :: (y :: _) as l' => (x <? y) && increasingb l'
  | _ => true
  end.

Lemma increasingb_ok l : increasingb l = true -> strictly_increasing l.
Proof.
  induction l as [|x [|y l] IH]; intros Hl; [constructor|repeat constructor|].
  cbn [increasingb] in Hl. zify_bools. specialize (IH ltac:(done)).
  constructor; [done|]. inversion_clear IH as [|? ? Hs Hy].
  constructor; [done|]. revert Hy. apply Forall_impl. lia.
Qed.

Section ranges.
Context `{AllocatorOk}.

Lemma cr_add_points_spec pts cr :
  cr_wf cr ->
  exists cr' r, cr_add_points cr pts = Some (cr', r) /\
    (r = 0 /\ cr_wf cr' /\ cr_pts cr' = cr_pts cr ++ pts \/ r = -1).
Proof.
  revert cr. induction pts as [|v pts IH]; intros cr Hwf; cbn [cr_add_points].
  { exists cr, 0. rewrite app_nil_r. auto. }
  destruct (cr_add_point_spec cr v Hwf) as (cr1 & r1 & -> & Hr1). cbn [mbind option_bind].
  destruct Hr1 as [(-> & Hwf1 & _ & Hp1)| ->]; cbn [Z.eqb]; [|by eauto].
  destruct (IH cr1 Hwf1) as (cr' & r & -> & Hr). exists cr', r. split; [done|].
  destruct Hr as [(-> & ? & Hp)|]; [left|by right]. by rewrite Hp, Hp1, <- app_assoc.
Qed.

Lemma cr_init_char_range_valid c : 0 <= c <= 5 -> valid_result (cr_init_char_range c).
Proof.
  intros Hc. unfold cr_init_char_range.
  assert (exists len pts, znth char_range_table (Z.shiftr c 1) = Some (len :: pts) /\
    zslice (len :: pts) 1 (len * 2) = Some pts /\
    increasingb pts = true /\ Nat.even (length pts) = true /\ Forall cr_point pts)
    as (len & pts & -> & Hs & Hi & He & Hp).
  { assert (c = 0 \/ c = 1 \/ c = 2 \/ c = 3 \/ c = 4 \/ c = 5) as Hcs by lia.
    destruct Hcs as [-> |[-> |[-> |[-> |[-> | ->]]]]];
      (eexists _, _; split; [reflexivity|]; split; [reflexivity|]; split; [reflexivity|];
       split; [reflexivity|]; repeat (constructor; [left; lia|]); constructor). }
  cbn [mbind option_bind head]. rewrite Hs. cbn [mbind option_bind].
  destruct (cr_add_points_spec pts cr_init cr_init_wf) as (cr & r & -> & Hr).
  cbn [mbind option_bind]. destruct Hr as [(-> & Hwf & Hpts)| ->]; cbn [Z.eqb negb].
  2:{ eexists _, _. split; [done|]. by right. }
  assert (cr_valid cr) as Hv.
  { split; [exists (cr_mem pts)|by rewrite Hpts].
    split; [done|]. rewrite Hpts. split; [|by split].
    apply strictly_increasing_intervals; [by apply increasingb_ok|done]. }
  destruct (Z.land c 1 =? 1).
  - destruct (cr_invert_valid cr Hv) as (cr' & r & -> & Hr). cbn [mbind option_bind].
    destruct Hr as [[-> ?]| ->]; cbn [Z.eqb negb]; eexists _, _; (split; [done|]); auto.
  - eexists _, _. split; [done|]. auto.
Qed.

Lemma interval_points pts lo hi :
  strictly_increasing pts -> Nat.even (length pts) = true ->
  (forall c, cr_mem pts c = true -> lo <= c < hi) -> Forall (fun p => lo <= p <= hi) pts.
Proof.
  induction pts as [|x|a b r IH] using pair_ind; intros Hs He Hm; [constructor|done|].
  inversion_clear Hs as [|? ? Hs' Ha]. inversion_clear Hs' as [|? ? Hr Hb].
  apply Forall_cons_1 in Ha as [Hab _]. cbn [cr_mem] in Hm.
  pose proof (Hm a) as H1. rewrite Z.leb_refl, (proj2 (Z.ltb_lt a b)) in H1 by lia.
  pose proof (Hm (b - 1)) as H2.
  rewrite (proj2 (Z.leb_le a (b - 1))), (proj2 (Z.ltb_lt (b - 1) b)) in H2 by lia.
  cbn [andb orb] in *. specialize (H1 eq_refl). specialize (H2 eq_refl).
  constructor; [lia|]. constructor; [lia|]. apply IH; [done|done|].
  intros c Hc. apply Hm. rewrite Hc. apply orb_true_r.
Qed.

Lemma cr_canonicalize_valid cr : cr_valid cr -> valid_result (cr_canonicalize cr).
Proof.
  intros Hv. pose proof Hv as [[set ([Hl Hz] & Hi & He & Hm)] Hp]. unfold cr_canonicalize.
  change (122 + 1) with 123.
  destruct (cr_op_spec (cr_points cr) (cr_len cr) [97; 123] 2 CR_OP_INTER)
    as (a & r & -> & Hr); [lia|done|by apply intervals_increasing| |done|done|].
  { apply strictly_increasing_weak. by apply increasingb_ok. }
  cbn [mbind option_bind]. destruct Hr as [(-> & (([Hla Hza] & _ & Hea & Hma) & Hia) & _)| ->];
    cbn [Z.eqb negb].
  2:{ eexists _, _. split; [done|]. by right. }
  fold (cr_pts a).
  assert (Hr : Forall (fun p => 97 <= p <= 123) (cr_pts a)).
  { apply interval_points; [done..|]. intros c. rewrite Hma.
    change (take (Z.to_nat 2) [97; 123]) with [97; 123]. cbn [op_bool cr_mem].
    rewrite orb_false_r, !andb_true_iff, Z.leb_le, Z.ltb_lt. lia. }
  assert (map (fun x => u32 (x + (65 - 97))) (cr_pts a) = map (fun x => x - 32) (cr_pts a)) as ->.
  { apply map_ext_in. intros x Hx. rewrite List.Forall_forall in Hr.
    specialize (Hr x Hx). rewrite u32_small by (cbn in Hr; lia). lia. }
  assert (zlen (cr_pts a) = cr_len a) as Hal by (unfold cr_pts; zlen_lia).
  apply cr_union1_prefix_valid; [done|zlen_lia|..];
    (rewrite take_app_length' by (rewrite length_map; unfold zlen in Hal; lia)).
  - clear - Hia. induction Hia as [|x l _ IH Hf]; cbn; constructor; [done|].
    apply Forall_map. revert Hf. apply Forall_impl. cbn. lia.
  - by rewrite length_map.
  - apply Forall_map. revert Hr. apply Forall_impl. unfold cr_point. cbn. lia.
Qed.
End ranges.

(** ** Functions that only read the pattern *)

(** What the lexical functions need of a state. *)
Definition lexical (s : REParseState) : Prop := pat_ok (pat s) (buf_end s) /\ tmp_ok (u s).

(** [m] does not change the state, and its result satisfies [R]. *)
Definition reads {A} (m : M A) (s : REParseState) (R : A -> Prop) : Prop :=
  wp m (fun x s' => s' = s /\ R x) s.

Lemma wp_reads {A} (m : M A) (R : A -> Prop) Q s :
  reads m s R -> (forall x, R x -> Q x s) -> wp m Q s.
Proof. intros Hm HQ. apply (wp_mono _ _ _ _ Hm). intros x s' [-> ?]. auto. Qed.

Lemma reads_mono {A} (m : M A) s (R R' : A -> Prop) :
  reads m s R -> (forall x, R x -> R' x) -> reads m s R'.
Proof. intros Hm HR. apply (wp_mono _ _ _ _ Hm). intros x s' []. auto. Qed.

Lemma reads_ret {A} (x : A) s (R : A -> Prop) : R x -> reads (mret x) s R.
Proof. done. Qed.

Lemma reads_bind {A B} (m : M A) (f : A -> M B) (R : A -> Prop) (R' : B -> Prop) s :
  reads m s R -> (forall x, R x -> reads (f x) s R') -> reads (m ≫= f) s R'.
Proof. intros Hm Hf. apply wp_bind. by apply (wp_reads m R). Qed.

Lemma reads_rd p s :
  pat_ok (pat s) (buf_end s) -> 0 <= p <= buf_end s ->
  reads (rd p) s (fun c => znth (pat s) p = Some c /\ 0 <= c < 256 /\ (c <> 0 -> p < buf_end s)).
Proof.
  intros Hpat Hp. destruct (pat_read _ _ p Hpat Hp) as (c & Hc & ? & ?). by apply (wp_rd _ c).
Qed.

Lemma reads_error {A} msg s (R : A -> Prop) : tmp_ok (u s) -> reads (re_parse_error msg) s R.
Proof. apply wp_error. Qed.

Lemma reads_gets {A} (f : REParseState -> A) s (R : A -> Prop) : R (f s) -> reads (gets f) s R.
Proof. done. Qed.

Lemma reads_lift {A} (o : option A) x s (R : A -> Prop) : o = Some x -> R x -> reads (lift o) s R.
Proof. by intros ->. Qed.

Lemma reads_cr_call o s : tmp_ok (u s) -> valid_result o -> reads (cr_call o) s cr_valid.
Proof.
  intros Hu (cr & r & -> & Hr). apply wp_bind, (wp_lift _ (cr, r)); [done|].
  destruct Hr as [[-> Hv]| ->]; cbn; [done|by apply wp_error].
Qed.

(** Runs the next reading of a computation. *)
Ltac rd_step c E R H :=
  eapply reads_bind; [apply reads_rd; [done|lia]|]; intros c (E & R & H).

Section atoms.
Context `{AllocatorOk} {U : UnicodeDb} {HU : UnicodeDbOk U}.

Lemma unicode_chars_ok room pat e p :
  pat_ok pat e -> 0 <= p <= e ->
  exists r, unicode_chars (drop (Z.to_nat p) pat) p room = Some r /\
    match r with Some (_, p') => p <= p' <= e | None => True end.
Proof.
  intros Hpat. remember (Z.to_nat (e - p)) as k eqn:Ek. revert p room Ek.
  induction k as [|k IH]; intros p room Ek Hp;
    destruct (pat_read pat e p Hpat Hp) as (c & E & R & Hc);
    destruct (pat_drop pat e p Hpat Hp) as (c' & E' & ->);
    rewrite E in E'; injection E' as <-; cbn [unicode_chars];
    (destruct (is_unicode_char c) eqn:Eu; [|eexists; split; [done|]; cbn; lia]);
    (assert (p < e) by (apply Hc; intros ->; done)); [lia|].
  destruct room as [|room]; [by eexists|].
  destruct (IH (p + 1) room) as (r & -> & Hr); [lia..|]. cbn [mbind option_bind].
  eexists. split; [done|]. destruct r as [[n p']|]; [lia|done].
Qed.

Lemma unicode_property_range_ok name value s :
  tmp_ok (u s) -> reads (unicode_property_range name value) s cr_valid.
Proof.
  intros Hu. unfold unicode_property_range.
  assert (Hscript : forall ext, reads (let '(cr, r) := unicode_script cr_init value ext in
    if r =? 0 then mret cr
    else if r =? -2 then re_parse_error (bytes_of "unknown unicode script")
    else re_parse_out_of_memory) s cr_valid).
  { intros ext. destruct (unicode_script cr_init value ext) as [cr r] eqn:E.
    destruct (Z.eqb_spec r 0) as [->|].
    - apply reads_ret. by eapply unicode_script_valid.
    - destruct (r =? -2); by apply reads_error. }
  do 2 (destruct (_ || _); [apply Hscript|]). destruct (_ || _).
  { destruct (unicode_general_category cr_init value) as [cr r] eqn:E.
    destruct (Z.eqb_spec r 0) as [->|].
    - apply reads_ret. by eapply unicode_general_category_valid.
    - destruct (r =? -2); by apply reads_error. }
  destruct (bool_decide _); [|by apply reads_error].
  destruct (unicode_general_category cr_init name) as [cr r] eqn:E.
  destruct (Z.eqb_spec r (-1)) as [->|]; [by apply reads_error|].
  destruct (decide (r = 0)) as [->|].
  { cbn. apply reads_ret. by eapply unicode_general_category_valid. }
  destruct (unicode_general_category_unknown _ _ _ E) as [-> Hneg]; [done..|].
  rewrite (proj2 (Z.ltb_lt _ _)) by done.
  destruct (unicode_prop cr_init name) as [cr2 r2] eqn:E2.
  destruct (Z.eqb_spec r2 0) as [->|].
  - apply reads_ret. by eapply unicode_prop_valid.
  - destruct (r2 =? -2); by apply reads_error.
Qed.

Lemma parse_unicode_property_ok p is_inv s :
  lexical s -> 0 <= p <= buf_end s ->
  reads (parse_unicode_property p is_inv) s (fun r => cr_valid r.1 /\ p < r.2 <= buf_end s).
Proof.
  intros [Hpat Hu] Hp. unfold parse_unicode_property. rd_step x E R Hx.
  destruct (Z.eqb_spec x 123) as [->|]; cbn [negb]; [|by apply reads_error].
  eapply reads_bind; [by apply reads_gets with (R := fun y => y = pat s)|]. intros ? ->.
  destruct (unicode_chars_ok 63 (pat s) (buf_end s) (p + 1)) as (r & Hr & Hrp); [done|lia|].
  eapply reads_bind; [by apply (reads_lift _ r _ (fun y => y = r))|]. intros ? ->.
  destruct r as [[name p1]|]; [|by apply reads_error].
  rd_step x E1 R1 Hx1.
  eapply reads_bind with (R := fun vp => p < vp.2 <= buf_end s).
  { destruct (Z.eqb_spec x 61) as [->|]; [|apply reads_ret; cbn; lia].
    destruct (unicode_chars_ok 63 (pat s) (buf_end s) (p1 + 1)) as (r & Hr1 & Hrp1); [done|lia|].
    eapply reads_bind; [by apply (reads_lift _ r _ (fun y => y = r))|]. intros ? ->.
    destruct r as [[v p2]|]; [apply reads_ret; cbn; lia|by apply reads_error]. }
  intros [value p2] Hp2. cbn in Hp2. rd_step x2 E2 R2 Hx2.
  destruct (Z.eqb_spec x2 125) as [->|]; cbn [negb]; [|by apply reads_error].
  eapply reads_bind; [by apply unicode_property_range_ok|]. intros cr Hcr.
  destruct is_inv; [|apply reads_ret; cbn; split; [done|lia]].
  destruct (cr_invert_valid cr Hcr) as (cr' & r & Er & Hcr').
  eapply reads_bind; [by apply (reads_lift _ (cr', r) _ (fun y => y = (cr', r)))|]. intros ? ->.
  destruct Hcr' as [[-> ?]| ->]; cbn [Z.eqb]; [|done].
  apply reads_ret. cbn. split; [done|lia].
Qed.

(** An atom: a character, or a class with its range. *)
Definition atom_ok (e p : Z) (r : Z * option CharRange * Z) : Prop :=
  let '(c, cr, p') := r in
  p < p' <= e /\
  (0 <= c < CLASS_RANGE_BASE \/ c = CLASS_RANGE_BASE /\ exists cr0, cr = Some cr0 /\ cr_valid cr0).

Lemma class_normal_char_ok c p s :
  lexical s -> 0 <= p < buf_end s -> znth (pat s) p = Some c ->
  reads (class_normal_char c p) s (atom_ok (buf_end s) p).
Proof.
  intros [Hpat Hu] Hp Hc. unfold class_normal_char. rewrite Z.geb_leb.
  destruct (pat_read _ _ p Hpat ltac:(lia)) as (c' & Hc' & Hr & _).
  rewrite Hc in Hc'. injection Hc' as <-.
  destruct (Z.leb_spec 128 c).
  - eapply reads_bind; [by apply reads_gets with (R := fun y => y = s)|]. intros ? ->.
    destruct (utf8_at_ok _ _ p Hpat Hp) as (c1 & p1 & E & H1).
    eapply reads_bind; [by apply (reads_lift _ (c1, p1) _ (fun y => y = (c1, p1)))|]. intros ? ->.
    destruct (_ && _); [by apply reads_error|].
    destruct (Z.ltb_spec c1 0); [done|]. apply reads_ret. cbn. unfold CLASS_RANGE_BASE. lia.
  - apply reads_ret. cbn. unfold CLASS_RANGE_BASE. lia.
Qed.

Lemma class_range_ok c p0 p s :
  tmp_ok (u s) -> 0 <= c <= 5 -> p0 < p <= buf_end s ->
  reads (class_range c p) s (atom_ok (buf_end s) p0).
Proof.
  intros Hu Hc Hp. destruct (cr_init_char_range_valid c Hc) as (cr & r & E & Hr).
  eapply reads_bind; [by apply (reads_lift _ (cr, r) _ (fun y => y = (cr, r)))|]. intros ? ->.
  destruct Hr as [[-> Hv]| ->]; cbn [Z.eqb negb]; [|done]. apply reads_ret.
  split; [done|]. right. eauto.
Qed.

Lemma class_escape_ok c p s :
  lexical s -> 0 <= p < buf_end s -> znth (pat s) p = Some c ->
  reads (class_escape c p) s (atom_ok (buf_end s) p).
Proof.
  intros [Hpat Hu] Hp Hc. unfold class_escape.
  eapply reads_bind; [by apply reads_gets with (R := fun y => y = s)|]. intros ? ->.
  set (mode := if is_utf16 s then 2 else 0).
  destruct (lre_parse_escape_ok _ _ p mode Hpat ltac:(lia)) as (r & p' & E & Hr & H1 & H2).
  eapply reads_bind; [by apply (reads_lift _ (r, p') _ (fun y => y = (r, p')))|]. intros ? ->.
  rewrite Z.geb_leb. destruct (Z.leb_spec 0 r).
  { apply reads_ret. cbn. unfold CLASS_RANGE_BASE. lia. }
  rewrite H2 by lia. eapply reads_bind with (R := fun _ => True).
  { destruct (r =? -2); [|done]. eapply reads_mono; [apply reads_rd; [done|lia]|done]. }
  intros x _. destruct (_ && _); [by apply class_normal_char_ok|].
  destruct (is_utf16 s); [by apply reads_error|by apply class_normal_char_ok].
Qed.

Lemma atom_ok_weaken e p p' r : p' <= p -> atom_ok e p r -> atom_ok e p' r.
Proof. destruct r as [[c cr] q]. cbn. intros ? [? ?]. split; [lia|done]. Qed.

Lemma get_class_atom_ok p inclass s :
  lexical s -> 0 <= p <= buf_end s ->
  reads (get_class_atom p inclass) s (atom_ok (buf_end s) p).
Proof.
  intros Hs Hp. pose proof Hs as [Hpat Hu]. unfold get_class_atom.
  eapply reads_bind; [by apply reads_gets with (R := fun y => y = s)|]. intros ? ->.
  rd_step c E R Hc. destruct (Z.eqb_spec c 92) as [->|].
  - rewrite Z.geb_leb. destruct (Z.leb_spec (buf_end s) (p + 1)); [by apply reads_error|].
    rd_step c E1 R1 Hc1.
    do 6 (destruct (_ =? _); [apply class_range_ok; [done|by vm_compute|lia]|]).
    destruct (_ =? _).
    { rd_step c2 E2 R2 Hc2. destruct (_ || _) eqn:Ec.
      - apply reads_ret. rewrite (land_mask _ _ 5) by done. cbn -[Z.pow].
        assert (p + 1 + 1 < buf_end s).
        { apply Hc2. intros ->. by cbn in Ec. }
        pose proof (Z.mod_pos_bound c2 (2 ^ 5)). unfold CLASS_RANGE_BASE. lia.
      - destruct (is_utf16 s); [by apply reads_error|]. apply reads_ret. cbn.
        unfold CLASS_RANGE_BASE. lia. }
    destruct (_ && _).
    { eapply reads_bind; [apply parse_unicode_property_ok; [done|lia]|]. intros [cr q] [Hv Hq].
      apply reads_ret. cbn in *. split; [lia|]. right. eauto. }
    replace (p + 1 + 1 - 1) with (p + 1) by lia. eapply reads_mono.
    + by apply class_escape_ok; [|lia|].
    + intros r. apply atom_ok_weaken. lia.
  - rewrite Z.geb_leb. destruct ((c =? 0) && (buf_end s <=? p)) eqn:Ez; [by apply reads_error|].
    apply class_normal_char_ok; [done| |done]. split; [lia|].
    destruct (decide (c = 0)) as [->|]; [|by apply Hc]. cbn in Ez. zify_bools. lia.
Qed.

(** ** Classes *)

Lemma add_class_atom_ok cr c1 cr1 s :
  tmp_ok (u s) -> cr_valid cr ->
  (0 <= c1 < CLASS_RANGE_BASE \/
   c1 = CLASS_RANGE_BASE /\ exists cr0, cr1 = Some cr0 /\ cr_valid cr0) ->
  reads (add_class_atom cr c1 cr1) s cr_valid.
Proof.
  intros Hu Hcr Hc. unfold add_class_atom. rewrite Z.geb_leb.
  destruct (Z.leb_spec CLASS_RANGE_BASE c1).
  - destruct Hc as [?|(_ & cr0 & -> & Hv)]; [lia|].
    eapply reads_bind; [by apply (reads_lift _ cr0 _ (fun y => y = cr0))|]. intros ? ->.
    apply reads_cr_call; [done|]. by apply cr_union1_valid.
  - destruct Hc as [Hc|[-> _]]; [|lia]. apply reads_cr_call; [done|].
    unfold CLASS_RANGE_BASE in *. apply cr_union_interval_valid; [done|lia..].
Qed.

Lemma re_parse_class_items_ok fuel cr p s :
  lexical s -> 0 <= p <= buf_end s -> cr_valid cr -> buf_end s - p < Z.of_nat fuel ->
  reads (re_parse_class_items fuel cr p) s (fun r => cr_valid r.1 /\ p <= r.2 < buf_end s).
Proof.
  intros Hs. revert cr p. induction fuel as [|fuel IH]; intros cr p Hp Hcr Hf; [lia|].
  pose proof Hs as [Hpat Hu]. cbn [re_parse_class_items]. rd_step x E R Hx.
  destruct (Z.eqb_spec x 93) as [->|].
  { apply reads_ret. cbn. split; [done|]. split; [lia|]. by apply Hx. }
  eapply reads_bind; [by apply reads_gets with (R := fun y => y = s)|]. intros ? ->.
  eapply reads_bind; [apply get_class_atom_ok; [done|lia]|].
  intros [[c1 cr1] p1] (Hp1 & Hc1).
  assert (Hloop : forall (m : M CharRange) q, reads m s cr_valid -> p < q <= buf_end s ->
    reads (cr ← m; re_parse_class_items fuel cr q) s
      (fun r => cr_valid r.1 /\ p <= r.2 < buf_end s)).
  { intros m q Hm Hq. eapply reads_bind; [exact Hm|]. intros cr' Hcr'.
    eapply reads_mono; [apply IH; [lia|done|lia]|]. intros r [? ?]. split; [done|lia]. }
  pose proof (add_class_atom_ok cr c1 cr1 s Hu Hcr Hc1) as Hadd.
  rd_step x1 E1 R1 Hx1.
  eapply reads_bind with (R := fun dash : bool => dash = true -> p1 + 1 <= buf_end s).
  { destruct (Z.eqb_spec x1 45) as [->|]; [|done]. rd_step y E2 R2 Hy. apply reads_ret. lia. }
  intros [|] Hdash; [|by apply Hloop]. specialize (Hdash eq_refl).
  rewrite !Z.geb_leb. destruct (Z.leb_spec CLASS_RANGE_BASE c1).
  { destruct (is_utf16 s); [|by apply Hloop]. destruct Hc1 as [?|(_ & cr0 & -> & _)]; [lia|].
    eapply reads_bind; [by apply (reads_lift _ cr0 _ (fun y => y = cr0))|]. intros ? ->.
    by apply reads_error. }
  eapply reads_bind; [apply get_class_atom_ok; [done|lia]|].
  intros [[c2 cr2] p2] (Hp2 & Hc2). rewrite !Z.geb_leb. destruct (Z.leb_spec CLASS_RANGE_BASE c2).
  { destruct Hc2 as [?|(_ & cr0 & -> & _)]; [lia|].
    eapply reads_bind; [by apply (reads_lift _ cr0 _ (fun y => y = cr0))|]. intros ? ->.
    destruct (is_utf16 s); [by apply reads_error|]. apply Hloop; [|lia].
    apply add_class_atom_ok; [done..|]. left. lia. }
  destruct (Z.ltb_spec c2 c1); [by apply reads_error|]. apply Hloop; [|lia].
  apply reads_cr_call; [done|]. unfold CLASS_RANGE_BASE in *.
  apply cr_union_interval_valid; [done|lia..].
Qed.

(** ** Emission *)

Lemma emit_points16_ok n pts i l Q s :
  bhas (byte_code s) l -> 0 <= i -> i + 2 * Z.of_nat n <= zlen pts ->
  (forall b d, bto (byte_code s) b -> bhas b (l ++ d) -> zlen d = 4 * Z.of_nat n ->
    Q tt (set_byte_code b s)) ->
  wp (emit_points16 n pts i) Q s.
Proof.
  revert i l s Q. induction n as [|n IH]; intros i l s Q Hb Hi Hn HQ; cbn [emit_points16].
  { apply wp_ret. replace s with (set_byte_code (byte_code s) s) by by destruct s.
    apply (HQ _ []); [apply bto_refl|by rewrite app_nil_r|done]. }
  destruct (znth_is_Some pts i) as [a Ha]; [lia|].
  destruct (znth_is_Some pts (i + 1)) as [c Hc]; [lia|].
  apply wp_bind, (wp_lift _ a); [done|]. apply wp_bind.
  apply (wp_put_u16 l); [done|]. intros b1 T1 B1.
  apply wp_bind, (wp_lift _ c); [done|]. cbv zeta. apply wp_bind.
  eapply wp_put_u16; [exact B1|]. intros b2 T2 B2.
  eapply IH; [exact B2|lia|lia|]. intros b3 d T3 B3 Hd.
  rewrite <- !app_assoc in B3. eapply (HQ b3); [bchain|exact B3|zlen_lia].
Qed.

Lemma emit_points32_ok n pts i l Q s :
  bhas (byte_code s) l -> 0 <= i -> i + 2 * Z.of_nat n <= zlen pts ->
  (forall b d, bto (byte_code s) b -> bhas b (l ++ d) -> zlen d = 8 * Z.of_nat n ->
    Q tt (set_byte_code b s)) ->
  wp (emit_points32 n pts i) Q s.
Proof.
  revert i l s Q. induction n as [|n IH]; intros i l s Q Hb Hi Hn HQ; cbn [emit_points32].
  { apply wp_ret. replace s with (set_byte_code (byte_code s) s) by by destruct s.
    apply (HQ _ []); [apply bto_refl|by rewrite app_nil_r|done]. }
  destruct (znth_is_Some pts i) as [a Ha]; [lia|].
  destruct (znth_is_Some pts (i + 1)) as [c Hc]; [lia|].
  apply wp_bind, (wp_lift _ a); [done|]. apply wp_bind.
  apply (wp_put_u32 l); [done|]. intros b1 T1 B1.
  apply wp_bind, (wp_lift _ c); [done|]. apply wp_bind.
  eapply wp_put_u32; [exact B1|]. intros b2 T2 B2.
  eapply IH; [exact B2|lia|lia|]. intros b3 d T3 B3 Hd.
  rewrite <- !app_assoc in B3. eapply (HQ b3); [bchain|exact B3|zlen_lia].
Qed.

(** What is emitted for a range is one instruction. *)
Lemma re_emit_range_ok cr l Q s :
  bhas (byte_code s) l -> tmp_ok (u s) -> cr_valid cr ->
  (forall b i, bto (byte_code s) b -> bhas b (l ++ i) -> (forall cc, plain cc i) ->
    Q tt (set_byte_code b s)) ->
  wp (re_emit_range cr) Q s.
Proof.
  intros Hb Hu Hv HQ. destruct (cr_valid_len cr Hv) as (Hl & Hz & [k Hk]%Z.even_spec & _).
  unfold re_emit_range. rewrite u32_small by lia.
  replace (cr_len cr / 2) with k by (rewrite Hk, Z.mul_comm; symmetry; apply Z.div_mul; lia).
  replace ((cr_len cr + 1) / 2) with k by (rewrite Hk; divlia).
  rewrite Z.geb_leb. destruct (Z.leb_spec 65535 k); [by apply wp_error|].
  destruct (Z.eqb_spec k 0).
  { apply wp_bind, (wp_emit_op_u32 l); [done..|]. intros b pos T B _. apply wp_ret.
    apply (HQ _ _ T B). intros cc. apply plain_char32. }
  destruct (znth_is_Some (cr_points cr) (cr_len cr - 1)) as [h Hh]; [lia|].
  destruct (znth_is_Some (cr_points cr) (cr_len cr - 2)) as [h' Hh']; [lia|].
  apply wp_bind, (wp_lift _ h); [done|]. apply wp_bind.
  assert (forall high, wp
    (if high <=? 0xffff then
       re_emit_op_u16 REOP_range k;; emit_points16 (Z.to_nat k) (cr_points cr) 0
     else
       re_emit_op_u16 REOP_range32 k;; emit_points32 (Z.to_nat k) (cr_points cr) 0) Q s) as Hemit.
  { intros high. destruct (high <=? 0xffff); apply wp_bind, (wp_emit_op_u16 l);
      try done; intros b1 T1 B1.
    - eapply emit_points16_ok; [exact B1|lia|lia|]. intros b2 d T2 B2 Hd.
      rewrite <- app_assoc in B2. eapply (HQ b2); [bchain|exact B2|]. intros cc. apply plain_range; lia.
    - eapply emit_points32_ok; [exact B1|lia|lia|]. intros b2 d T2 B2 Hd.
      rewrite <- app_assoc in B2. eapply (HQ b2); [bchain|exact B2|]. intros cc. apply plain_range32; lia. }
  destruct (h =? UINT32_MAX); [apply (wp_lift _ h'); [done|]|apply wp_ret]; apply Hemit.
Qed.

Lemma re_parse_char_class_ok p l Q s :
  lexical s -> 0 <= p < buf_end s -> bhas (byte_code s) l ->
  (forall b i p', bto (byte_code s) b -> bhas b (l ++ i) -> (forall cc, plain cc i) ->
    p < p' <= buf_end s -> Q p' (set_byte_code b s)) ->
  wp (re_parse_char_class p) Q s.
Proof.
  intros Hs Hp Hb HQ. pose proof Hs as [Hpat Hu]. unfold re_parse_char_class. apply wp_bind.
  eapply wp_reads; [apply reads_rd; [done|lia]|]. intros x (E & R & Hx).
  assert (exists (invert : bool) (q : Z),
    (if x =? 94 then (true, p + 1 + 1) else (false, p + 1)) = (invert, q) /\
    p < q <= buf_end s) as (invert & q & -> & Hq).
  { destruct (Z.eqb_spec x 94) as [->|]; (eexists _, _; split; [reflexivity|lia]). }
  apply wp_bind, wp_state. apply wp_bind. eapply wp_reads.
  { apply re_parse_class_items_ok; [done|lia|apply cr_valid_init|].
    destruct Hpat as [Hl _ _]. unfold zlen in Hl. cbn. lia. }
  intros [cr p1] [Hv Hp1]. cbn in Hv, Hp1. apply wp_bind.
  eapply wp_reads with (R := cr_valid).
  { destruct (ignore_case s); [|done]. apply reads_cr_call; [done|]. by apply cr_canonicalize_valid. }
  intros cr2 Hv2. apply wp_bind. eapply wp_reads with (R := cr_valid).
  { destruct invert; [|done]. apply reads_cr_call; [done|]. by apply cr_invert_valid. }
  intros cr3 Hv3. apply wp_bind. apply (re_emit_range_ok cr3 l); [done..|].
  intros b i T B Hi. apply wp_ret. apply (HQ b i (p1 + 1) T B Hi). lia.
Qed.
End atoms.
