(* ===== verification/ReQuantSafe.v ===== *)
(** * The code of a quantified atom is structured

    [emit_quant] turns the structured code of an atom into structured code, whatever the
    bounds and the analyses decide. *)

From S2P Require Import Prelude Bytes DynBuf ReOpcode ReCode ReState ReParse ReLexSafe.
From S2P Require Import ReHoare.

(** Equality of lists up to the association of concatenations. *)
Ltac applist := repeat (rewrite <- app_assoc || rewrite app_nil_r || cbn [app]); reflexivity.

(** The known bytes, up to association. *)
Ltac bsame B := apply (bhas_eq _ _ _ B); applist.

Lemma zlen_split {A} (h : list A) n m :
  zlen h = n + m -> 0 <= n -> 0 <= m -> exists a b, h = a ++ b /\ zlen a = n /\ zlen b = m.
Proof.
  intros Hh Hn Hm. exists (take (Z.to_nat n) h), (drop (Z.to_nat n) h).
  rewrite take_drop. split; [done|]. zlen_lia.
Qed.

Lemma zlen_1 {A} (h : list A) : zlen h = 1 -> exists x, h = [x].
Proof. destruct h as [|x [|y h]]; unfold zlen; cbn; try lia. by eexists. Qed.

Lemma zlen_uncons {A} (h : list A) n : zlen h = 1 + n -> 0 <= n -> exists x r, h = x :: r /\ zlen r = n.
Proof.
  intros Hh Hn. destruct (zlen_split h 1 n Hh) as (a & b & -> & [x ->]%zlen_1 & Hb); [lia..|].
  by exists x, b.
Qed.

Lemma split_op (b : bool) : is_split (REOP_split_goto_first + bZ b).
Proof. destruct b; vm_compute; in_list. Qed.

Lemma split_byte op : is_split op -> 0 <= op < 256.
Proof. unfold is_split. intros Hop. inv_elem Hop; by vm_compute. Qed.

Section quantifiers.
Context `{AllocatorOk}.

(** ** The constructions *)

(** An instruction of one operand put before the code [f]. *)
Lemma wp_insert_op32_then {X} l f op start v (k : M X) Q s :
  bhas (byte_code s) (l ++ f) -> (error (byte_code s) = false -> start = zlen l) ->
  0 <= op < 256 -> tmp_ok (u s) ->
  (forall b, bto (byte_code s) b -> bhas b (l ++ (op :: le_bytes 4 v) ++ f) ->
    wp k Q (set_byte_code b s)) ->
  wp (insert_code start 5;; poke start op;; poke_u32 (start + 1) v;; k) Q s.
Proof.
  intros Hb Hst Hop Hu HQ. apply wp_bind, (wp_insert l f); [done|done|lia|done|].
  intros b1 hole T1 Hh B1. destruct (zlen_uncons hole 4 Hh) as (x & h & -> & Hx); [lia|].
  apply wp_bind, (wp_poke l x (h ++ f)); [done| |done|].
  { intros E. apply Hst. by apply T1. }
  intros b2 T2 B2. apply wp_bind, (wp_poke_u32 (l ++ [op]) h f); [bsame B2| |done|].
  { intros E. rewrite Hst by bchain. zlen_lia. }
  intros b3 T3 B3. apply (HQ b3); [bchain|bsame B3].
Qed.

Lemma wp_insert_op32 l f op start v Q s :
  bhas (byte_code s) (l ++ f) -> (error (byte_code s) = false -> start = zlen l) ->
  0 <= op < 256 -> tmp_ok (u s) ->
  (forall b, bto (byte_code s) b -> bhas b (l ++ (op :: le_bytes 4 v) ++ f) ->
    Q tt (set_byte_code b s)) ->
  wp (insert_code start 5;; poke start op;; poke_u32 (start + 1) v) Q s.
Proof.
  intros Hb Hst Hop Hu HQ.
  pose proof (wp_insert_op32_then l f op start v (mret tt) Q s Hb Hst Hop Hu HQ) as Hw.
  unfold wp, mbind, M_bind, mret, M_ret in *. destruct (insert_code start 5 s) as [? s1| | |]; try done.
  destruct (poke start op s1) as [? s2| | |]; try done.
  by destruct (poke_u32 (start + 1) v s2) as [[] s3| | |].
Qed.

Lemma emit_simple_quant_ok l f n start qmin qmax Q s :
  bhas (byte_code s) (l ++ f) -> (error (byte_code s) = false -> start = zlen l) ->
  simple_body (capture_count s) n f -> 0 < n -> tmp_ok (u s) ->
  (forall b f' md, bto (byte_code s) b -> frag (capture_count s) md f' -> bhas b (l ++ f') ->
    Q tt (set_byte_code b s)) ->
  wp (emit_simple_quant start qmin qmax n) Q s.
Proof.
  intros Hb Hst Hf Hn Hu HQ. apply wp_bind, (wp_emit_op (l ++ f)); [done|done|]. intros b1 T1 B1.
  apply wp_bind, (wp_insert l (f ++ [REOP_match])); [bsame B1| |lia|done|].
  { intros E. apply Hst. by apply T1. }
  intros b2 hole T2 Hh B2.
  destruct (zlen_uncons hole 16 Hh) as (x & h & -> & Hx); [lia|].
  destruct (zlen_split h 4 12 Hx) as (h1 & r1 & -> & Hh1 & Hr1); [lia..|].
  destruct (zlen_split r1 4 8 Hr1) as (h2 & r2 & -> & Hh2 & Hr2); [lia..|].
  destruct (zlen_split r2 4 4 Hr2) as (h3 & h4 & -> & Hh3 & Hh4); [lia..|].
  apply wp_bind, (wp_poke l x (h1 ++ h2 ++ h3 ++ h4 ++ f ++ [REOP_match])); [bsame B2| |done|].
  { intros E. apply Hst. bchain. }
  intros b3 T3 B3. apply wp_bind, wp_gets. apply wp_bind.
  set (off := size (byte_code (set_byte_code b3 _)) - start - 17).
  assert (Hoff : error b3 = false -> off = zlen f + 1).
  { intros E. subst off. cbn. rewrite (bhas_size _ _ B3), Hst by bchain. zlen_lia. }
  clearbody off.
  apply (wp_poke_u32 (l ++ [REOP_simple_greedy_quant]) h1 (h2 ++ h3 ++ h4 ++ f ++ [REOP_match]));
    [bsame B3| |done|].
  { intros E. rewrite Hst by bchain. zlen_lia. }
  intros b4 T4 B4. apply wp_bind.
  apply (wp_poke_u32 (l ++ [REOP_simple_greedy_quant] ++ le_bytes 4 off) h2
    (h3 ++ h4 ++ f ++ [REOP_match])); [bsame B4| |done|].
  { intros E. rewrite Hst by bchain. zlen_lia. }
  intros b5 T5 B5. apply wp_bind.
  apply (wp_poke_u32 (l ++ [REOP_simple_greedy_quant] ++ le_bytes 4 off ++ le_bytes 4 qmin) h3
    (h4 ++ f ++ [REOP_match])); [bsame B5| |done|].
  { intros E. rewrite Hst by bchain. zlen_lia. }
  intros b6 T6 B6.
  apply (wp_poke_u32 (l ++ [REOP_simple_greedy_quant] ++ le_bytes 4 off ++ le_bytes 4 qmin
    ++ le_bytes 4 qmax) h4 (f ++ [REOP_match])); [bsame B6| |done|].
  { intros E. rewrite Hst by bchain. zlen_lia. }
  intros b7 T7 B7. eapply (HQ b7); [bchain|by apply (frag_greedy _ qmin qmax n f)|].
  intros E. destruct (B7 E) as [Hwf Hc]. split; [done|]. rewrite Hc, Hoff by bchain. applist.
Qed.

Lemma emit_quant_zero_ok l f md len start qmax greedy check Q s :
  bhas (byte_code s) (l ++ f) -> (error (byte_code s) = false -> start = zlen l) ->
  (error (byte_code s) = false -> len = zlen f) ->
  frag (capture_count s) md f -> tmp_ok (u s) ->
  (forall b f' md', bto (byte_code s) b -> frag (capture_count s) md' f' -> bhas b (l ++ f') ->
    Q tt (set_byte_code b s)) ->
  wp (emit_quant_zero start len qmax greedy check) Q s.
Proof.
  intros Hb Hst Hlen Hf Hu HQ. unfold emit_quant_zero. pose proof (split_op greedy) as Hop.
  set (op := REOP_split_goto_first + bZ greedy) in *. clearbody op.
  pose proof (split_byte op Hop) as Hop8.
  destruct (qmax =? 0).
  { apply (wp_emit_effect _ l); [|intros b T B; eapply (HQ b []); [done|constructor|by rewrite app_nil_r]].
    cbn. unfold bto, bhas. cbn. split; [done|]. split; [|by left].
    intros E. destruct (Hb E) as [Hwf Hc]. rewrite Hst by done.
    pose proof (zlen_content _ Hwf) as Hz. rewrite Hc in Hz. destruct Hwf as (H1 & H2 & H3).
    split; [split_and!; cbn; [done|zlen_lia|zlen_lia|done]|].
    unfold content in *. cbn. rewrite <- (take_app_length l f) at 2. rewrite <- Hc, take_take.
    f_equal. unfold zlen in *. rewrite length_app in Hz. lia. }
  destruct (qmax =? 1).
  { apply (wp_insert_op32 l f); [done..|]. intros b T B.
    apply (HQ b ((op :: jmp (zlen f)) ++ f) md); [done|by apply frag_opt|].
    intros E. destruct (B E) as [Hwf Hc]. by rewrite Hc, Hlen by bchain. }
  destruct (qmax =? INT32_MAX).
  { apply wp_bind, (wp_insert l f); [done|done|destruct check; cbn; lia|done|].
    intros b1 hole T1 Hh B1.
    destruct (zlen_split hole 5 (bZ check) Hh) as (h5 & hc & -> & H5 & Hc); [lia|by destruct check|].
    destruct (zlen_uncons h5 4 H5) as (x & h & -> & Hx); [lia|].
    apply wp_bind, (wp_poke l x (h ++ hc ++ f)); [bsame B1| |done|].
    { intros E. rewrite Hst by bchain. done. }
    intros b2 T2 B2. apply wp_bind, (wp_poke_u32 (l ++ [op]) h (hc ++ f)); [bsame B2| |done|].
    { intros E. rewrite Hst by bchain. zlen_lia. }
    intros b3 T3 B3. set (v := len + 5 + bZ check) in *.
    destruct check; cbn in Hc.
    - destruct (zlen_1 hc Hc) as [y ->]. apply wp_bind.
      apply (wp_poke ((l ++ [op]) ++ le_bytes 4 v) y f); [bsame B3| |by vm_compute|].
      { intros E. rewrite Hst by bchain. zlen_lia. }
      intros b4 T4 B4. apply wp_bind.
      eapply (wp_emit_goto _ REOP_bne_char_pos start (- (zlen f + 11))); [exact B4|done| |].
      { intros E. rewrite Hst by bchain. zlen_lia. }
      intros b5 pos T5 B5. apply wp_ret. eapply (HQ b5); [bchain|by apply (frag_star_check _ op md f)|].
      intros E. destruct (B5 E) as [Hwf Hc']. split; [done|]. rewrite Hc'.
      subst v. rewrite Hlen by bchain. change (bZ true) with 1.
      replace (zlen f + 5 + 1) with (zlen f + 6) by lia. applist.
    - apply wp_bind. destruct hc as [|y hc]; [|unfold zlen in Hc; cbn in Hc; lia].
      eapply (wp_emit_goto _ REOP_goto start (- (zlen f + 10))); [exact B3|done| |].
      { intros E. rewrite Hst by bchain. zlen_lia. }
      intros b5 pos T5 B5. apply wp_ret. eapply (HQ b5); [bchain|by apply (frag_star _ op md f)|].
      intros E. destruct (B5 E) as [Hwf Hc']. split; [done|]. rewrite Hc'.
      subst v. rewrite Hlen by bchain. change (bZ false) with 0.
      replace (zlen f + 5 + 0) with (zlen f + 5) by lia. applist. }
  apply wp_bind, (wp_insert l f); [done|done|lia|done|]. intros b1 hole T1 Hh B1.
  destruct (zlen_uncons hole 9 Hh) as (x & h & -> & Hx); [lia|].
  destruct (zlen_split h 4 5 Hx) as (h1 & h2 & -> & Hh1 & Hh2); [lia..|].
  destruct (zlen_uncons h2 4 Hh2) as (y & h3 & -> & Hh3); [lia|].
  apply wp_bind, (wp_poke l x (h1 ++ y :: h3 ++ f)); [bsame B1| |by vm_compute|].
  { intros E. rewrite Hst by bchain. done. }
  intros b2 T2 B2.
  apply wp_bind, (wp_poke_u32 (l ++ [REOP_push_i32]) h1 (y :: h3 ++ f)); [bsame B2| |done|].
  { intros E. rewrite Hst by bchain. zlen_lia. }
  intros b3 T3 B3. apply wp_bind.
  apply (wp_poke ((l ++ [REOP_push_i32]) ++ le_bytes 4 qmax) y (h3 ++ f)); [bsame B3| |done|].
  { intros E. rewrite Hst by bchain. zlen_lia. }
  intros b4 T4 B4. apply wp_bind.
  apply (wp_poke_u32 (((l ++ [REOP_push_i32]) ++ le_bytes 4 qmax) ++ [op]) h3 f); [bsame B4| |done|].
  { intros E. rewrite Hst by bchain. zlen_lia. }
  intros b5 T5 B5. apply wp_bind.
  eapply (wp_emit_goto _ REOP_loop (start + 5) (- (zlen f + 10))); [exact B5|done| |].
  { intros E. rewrite Hst by bchain. zlen_lia. }
  intros b6 pos T6 B6. eapply wp_emit_op; [exact B6|done|]. intros b7 T7 B7.
  eapply (HQ b7); [bchain|by apply (frag_upto _ op md f qmax)|].
  intros E. destruct (B7 E) as [Hwf Hc']. split; [done|]. rewrite Hc', Hlen by bchain. applist.
Qed.

Lemma emit_save_reset_ok l f start lcc Q s :
  bhas (byte_code s) (l ++ f) -> (error (byte_code s) = false -> start = zlen l) ->
  0 <= lcc < 256 -> 1 <= capture_count s <= CAPTURE_COUNT_MAX -> tmp_ok (u s) ->
  (forall b g start', bto (byte_code s) b -> frag (capture_count s) 0 g -> bhas b (l ++ g ++ f) ->
    (error b = false -> start' = zlen (l ++ g)) -> Q start' (set_byte_code b s)) ->
  wp (emit_save_reset start lcc) Q s.
Proof.
  intros Hb Hst Hlcc Hcc Hu HQ. change CAPTURE_COUNT_MAX with 255 in Hcc.
  unfold emit_save_reset. apply wp_bind, wp_state.
  destruct (negb _).
  2:{ apply wp_ret. rewrite <- (set_byte_code_id s).
      apply (HQ _ []); [apply bto_refl|constructor|done|by rewrite app_nil_r]. }
  apply wp_bind, (wp_insert l f); [done|done|lia|done|]. intros b1 hole T1 Hh B1.
  destruct (zlen_uncons hole 2 Hh) as (x & h & -> & Hx); [lia|].
  destruct (zlen_uncons h 1 Hx) as (y & h' & -> & Hy); [lia|]. destruct (zlen_1 h' Hy) as [z ->].
  apply wp_bind, (wp_poke l x ([y; z] ++ f)); [bsame B1| |by vm_compute|].
  { intros E. rewrite Hst by bchain. done. }
  intros b2 T2 B2.
  apply wp_bind, (wp_poke (l ++ [REOP_save_reset]) y ([z] ++ f)); [bsame B2| |done|].
  { intros E. rewrite Hst by bchain. zlen_lia. }
  intros b3 T3 B3.
  apply wp_bind, (wp_poke (l ++ [REOP_save_reset; lcc]) z f); [bsame B3| |lia|].
  { intros E. rewrite Hst by bchain. zlen_lia. }
  intros b4 T4 B4. apply wp_ret.
  apply (HQ b4 [REOP_save_reset; lcc; capture_count s - 1]); [bchain| |bsame B4|].
  - apply frag_plain, plain_reset; lia.
  - intros E. rewrite Hst by bchain. zlen_lia.
Qed.

(** A copy of the code of the atom at the end. *)
Lemma wp_put_copy l1 f l2 start len Q s :
  bhas (byte_code s) (l1 ++ f ++ l2) -> (error (byte_code s) = false -> start = zlen l1) ->
  (error (byte_code s) = false -> len = zlen f) ->
  (forall b, bto (byte_code s) b -> bhas b ((l1 ++ f ++ l2) ++ f) -> Q tt (set_byte_code b s)) ->
  wp (emit (fun b => dbuf_put_self b start len)) Q s.
Proof.
  intros Hb Hst Hlen HQ.
  eapply wp_emit_effect; [apply (put_self_effect _ _ _ _ Hb)|].
  { intros E. rewrite Hst, Hlen by done. zlen_lia. }
  intros b T B. apply (HQ b T). intros E. destruct (B E) as [Hwf Hc]. split; [done|].
  rewrite Hc, Hst, Hlen by bchain. unfold zlen. rewrite !Nat2Z.id, drop_app_length.
  by rewrite take_app_length.
Qed.

(** [a{n}], or [a] alone for 1. *)
Lemma emit_times_ok l f md start qmin Q s :
  bhas (byte_code s) (l ++ f) -> (error (byte_code s) = false -> start = zlen l) ->
  frag (capture_count s) md f -> tmp_ok (u s) ->
  (forall b start' l1 l2 md', bto (byte_code s) b -> bhas b (l ++ (l1 ++ f ++ l2)) ->
    frag (capture_count s) md' (l1 ++ f ++ l2) ->
    (error b = false -> start' = zlen (l ++ l1)) -> Q start' (set_byte_code b s)) ->
  wp (if qmin =? 1 then mret start
      else
        insert_code start 5;;
        poke start REOP_push_i32;;
        poke_u32 (start + 1) qmin;;
        _ ← re_emit_goto REOP_loop (start + 5);
        re_emit_op REOP_drop;;
        mret (start + 5)) Q s.
Proof.
  intros Hb Hst Hf Hu HQ. destruct (qmin =? 1).
  { apply wp_ret. rewrite <- (set_byte_code_id s).
    apply (HQ _ start [] [] md); [apply bto_refl|by rewrite app_nil_r|by rewrite app_nil_r|].
    by rewrite app_nil_r. }
  apply (wp_insert_op32_then l f); [done|done|by vm_compute|done|]. intros b3 T3 B3.
  apply wp_bind. eapply (wp_emit_goto _ REOP_loop (start + 5) (- (zlen f + 5))); [exact B3|done| |].
  { intros E. rewrite Hst by bchain. zlen_lia. }
  intros b4 pos T4 B4. apply wp_bind. eapply wp_emit_op; [exact B4|done|]. intros b5 T5 B5.
  apply wp_ret.
  apply (HQ b5 _ (REOP_push_i32 :: le_bytes 4 qmin)
    ((REOP_loop :: jmp (- (zlen f + 5))) ++ [REOP_drop]) (md + 1)); [bchain|bsame B5|by apply frag_times|].
  intros E. rewrite Hst by bchain. zlen_lia.
Qed.

Lemma emit_quant_min_ok l f md len start qmin qmax greedy check Q s :
  bhas (byte_code s) (l ++ f) -> (error (byte_code s) = false -> start = zlen l) ->
  (error (byte_code s) = false -> len = zlen f) ->
  frag (capture_count s) md f -> tmp_ok (u s) ->
  (forall b f' md', bto (byte_code s) b -> frag (capture_count s) md' f' -> bhas b (l ++ f') ->
    Q tt (set_byte_code b s)) ->
  wp (emit_quant_min start len qmin qmax greedy check) Q s.
Proof.
  intros Hb Hst Hlen Hf Hu HQ. unfold emit_quant_min. pose proof (split_op greedy) as Hop.
  set (op := REOP_split_goto_first + bZ greedy) in *. clearbody op.
  pose proof (split_byte op Hop) as Hop8.
  apply wp_bind. eapply emit_times_ok; [exact Hb|done|exact Hf|done|].
  intros b1 start' l1 l2 md1 T1 B1 Hf1 Hst1.
  set (t := l1 ++ f ++ l2) in *.
  assert (Hst2 : forall b, bto b1 b -> error b = false -> start' = zlen (l ++ l1))
    by (intros b T E; apply Hst1; bchain).
  destruct (qmax =? INT32_MAX).
  - apply wp_bind, wp_gets. apply wp_bind.
    set (pos0 := size (byte_code (set_byte_code b1 s))).
    assert (Hpos0 : error b1 = false -> pos0 = zlen (l ++ t)).
    { intros E. by apply (bhas_size _ _ B1). }
    clearbody pos0.
    eapply wp_emit_op_u32; [exact B1|done|]. intros b2 p2 T2 B2 _. apply wp_bind.
    set (v := len + 5 + bZ check) in *.
    apply (wp_mono _ (fun _ s' => exists b g, s' = set_byte_code b s /\ bto b1 b /\
      bhas b (l ++ t ++ (op :: le_bytes 4 v) ++ g) /\
      g = (if check then [REOP_push_char_pos] else []))).
    { destruct check; cbn [when].
      - eapply wp_emit_op; [exact B2|done|]. intros b3 T3 B3.
        exists b3, [REOP_push_char_pos]. split; [done|]. split; [bchain|]. split; [bsame B3|done].
      - apply wp_ret. exists b2, []. split; [done|]. split; [bchain|]. split; [bsame B2|done]. }
    intros _ s3 (b3 & g & -> & T3 & B3 & Hg). apply wp_bind.
    assert (Hgl : zlen g = bZ check) by (subst g; by destruct check).
    apply (wp_put_copy (l ++ l1) f (l2 ++ (op :: le_bytes 4 v) ++ g)).
    { subst t. bsame B3. }
    { by apply Hst2. }
    { intros E. apply Hlen. bchain. }
    intros b4 T4 B4. apply wp_bind.
    eapply (wp_emit_goto (l ++ t ++ (op :: le_bytes 4 v) ++ g ++ f) _ pos0
      (- (zlen f + 10 + bZ check))).
    { subst t. bsame B4. }
    { by destruct check. }
    { intros E. rewrite Hpos0 by bchain. clearbody t v. clear - Hgl. zlen_lia. }
    intros b5 pos T5 B5. apply wp_ret.
    eapply (HQ b5); [bchain|..].
    + apply (frag_app _ md1 (if check then md + 1 else md) t
        ((op :: jmp (zlen f + 5 + bZ check)) ++ g ++ f
         ++ ((if check then REOP_bne_char_pos else REOP_goto) :: jmp (- (zlen f + 10 + bZ check))))).
      * done.
      * subst g. destruct check.
        -- change (bZ true) with 1. replace (zlen f + 5 + 1) with (zlen f + 6) by lia.
           replace (zlen f + 10 + 1) with (zlen f + 11) by lia. by apply (frag_star_check _ op md f).
        -- change (bZ false) with 0. rewrite !Z.add_0_r. by apply (frag_star _ op md f).
    + intros E. destruct (B5 E) as [Hwf Hc]. split; [done|]. rewrite Hc. subst v.
      rewrite Hlen by bchain. applist.
  - destruct (qmax >? qmin).
    2:{ apply wp_ret. by apply (HQ b1 t md1). }
    apply wp_bind. eapply wp_emit_op_u32; [exact B1|done|]. intros b2 p2 T2 B2 _.
    apply wp_bind, wp_gets. apply wp_bind.
    set (pos0 := size (byte_code (set_byte_code b2 _))).
    assert (Hpos0 : error b2 = false -> pos0 = zlen (l ++ t) + 5).
    { intros E. subst pos0. cbn. rewrite (bhas_size _ _ B2) by done. zlen_lia. }
    clearbody pos0.
    eapply wp_emit_op_u32; [exact B2|done|]. intros b3 p3 T3 B3 _. apply wp_bind.
    apply (wp_put_copy (l ++ l1) f
      (l2 ++ (REOP_push_i32 :: le_bytes 4 (qmax - qmin)) ++ (op :: le_bytes 4 (len + 5)))).
    { subst t. bsame B3. }
    { apply Hst2. bchain. }
    { intros E. apply Hlen. bchain. }
    intros b4 T4 B4. apply wp_bind.
    eapply (wp_emit_goto (l ++ t ++ (REOP_push_i32 :: le_bytes 4 (qmax - qmin))
      ++ (op :: le_bytes 4 (len + 5)) ++ f) REOP_loop pos0 (- (zlen f + 10))).
    { subst t. bsame B4. }
    { done. }
    { intros E. rewrite Hpos0 by bchain. zlen_lia. }
    intros b5 pos T5 B5. eapply wp_emit_op; [exact B5|done|]. intros b6 T6 B6.
    eapply (HQ b6); [bchain|..].
    + eapply (frag_app _ md1 (md + 1) t); [done|]. by apply (frag_upto _ op md f (qmax - qmin)).
    + intros E. destruct (B6 E) as [Hwf Hc]. split; [done|]. rewrite Hc, Hlen by bchain. applist.
Qed.

(** ** The analyses of the atom *)

Lemma wp_code_error Q s :
  (error (byte_code s) = true -> Q true s) -> (error (byte_code s) = false -> Q false s) ->
  wp code_error Q s.
Proof. intros H1 H2. apply wp_gets. unfold dbuf_error. by destruct (error (byte_code s)); auto. Qed.

(** The code of the atom, as the analyses see it. *)
Lemma atom_code_at l f start s :
  bhas (byte_code s) (l ++ f) -> error (byte_code s) = false -> start = zlen l ->
  code_at (drop (Z.to_nat start) (buf (byte_code s))) 0 f /\ size (byte_code s) - start = zlen f.
Proof.
  intros Hb E ->. destruct (Hb E) as [Hwf Hc]. split.
  - rewrite (content_buf _ Hwf), Hc. unfold zlen. rewrite Nat2Z.id, <- app_assoc, drop_app_length.
    by exists [], (drop (Z.to_nat (size (byte_code s))) (buf (byte_code s))).
  - rewrite (bhas_size _ _ Hb E). zlen_lia.
Qed.

Lemma emit_quant_ok l f md start lcc qmin qmax greedy Q s :
  bhas (byte_code s) (l ++ f) -> (error (byte_code s) = false -> start = zlen l) ->
  0 <= lcc < 256 -> 1 <= capture_count s <= CAPTURE_COUNT_MAX ->
  frag (capture_count s) md f -> tmp_ok (u s) ->
  (forall b f' md', bto (byte_code s) b -> frag (capture_count s) md' f' -> bhas b (l ++ f') ->
    Q tt (set_byte_code b s)) ->
  wp (emit_quant start lcc qmin qmax greedy) Q s.
Proof.
  intros Hb Hst Hlcc Hcc Hf Hu HQ.
  assert (Hdl := frag_dlin _ _ _ 0 ltac:(lia) Hf).
  assert (Hfuel : forall n, n = zlen f -> zlen f < Z.of_nat (S (Z.to_nat n))) by lia.
  unfold emit_quant. apply wp_bind.
  apply (wp_mono _ (fun n s' => s' = s /\ (0 < n -> simple_body (capture_count s) n f))).
  { destruct (greedy && (qmax >? 0)); [|apply wp_ret; split; [done|lia]].
    apply wp_bind, wp_code_error; intros E; [by apply wp_error|].
    destruct (atom_code_at l f start s Hb E (Hst E)) as [Hat Hlen].
    apply wp_bind, wp_gets. rewrite Hlen.
    destruct (re_is_simple_quantifier_loop_spec _ _ _ _ _ _ 0 (S (Z.to_nat (zlen f))) 0
      Hdl Hat (Hfuel _ eq_refl)) as (r & Hr & Hr'); [done|].
    apply (wp_lift _ r); [exact Hr|]. split; [done|]. intros Hpos.
    destruct Hr' as [->|(n & Hn & _ & ->)]; [done|]. by rewrite Z.add_0_l. }
  intros n s' [-> Hn]. rewrite Z.gtb_ltb. destruct (Z.ltb_spec 0 n).
  { eapply emit_simple_quant_ok; eauto. }
  apply wp_bind.
  apply (wp_mono _ (fun _ s' => s' = s)).
  { destruct greedy; [|by apply wp_ret].
    apply wp_bind, wp_code_error; intros E; [by apply wp_error|].
    destruct (atom_code_at l f start s Hb E (Hst E)) as [Hat Hlen].
    apply wp_bind, wp_gets. rewrite Hlen. apply wp_bind. unfold re_check_advance.
    destruct (re_check_advance_loop_ok (capture_count s) _ _ _ _
      (drop (Z.to_nat start) (buf (byte_code s))) 0 (S (Z.to_nat (zlen f))) (-2) false
      (replicate (Z.to_nat CAPTURE_COUNT_MAX) 0) ltac:(lia) Hdl Hat (Hfuel _ eq_refl))
      as [[[ret br] m] Hr]; [done|].
    rewrite Z.add_0_l in Hr. rewrite Hr. cbn [mbind option_bind].
    destruct (br && _); (eapply wp_lift; [reflexivity|]; by apply wp_ret). }
  intros check s' ->. apply wp_bind, wp_gets. cbv zeta.
  assert (Hlen : error (byte_code s) = false -> size (byte_code s) - start = zlen f).
  { intros E. rewrite (bhas_size _ _ Hb E), Hst by done. zlen_lia. }
  set (len := size (byte_code s) - start) in *. clearbody len.
  destruct (qmin =? 0).
  { apply wp_bind. apply (emit_save_reset_ok l f); [done..|].
    intros b g start' T Hg B Hst'.
    apply (emit_quant_zero_ok (l ++ g) f md); [by rewrite <- app_assoc|done| |done|done|].
    { intros E. apply Hlen. bchain. }
    intros b' f' md' T' Hf' B'. apply (HQ b' (g ++ f') (Z.max 0 md')); [bchain| |].
    - by apply frag_app.
    - by rewrite app_assoc. }
  destruct (_ && _).
  { apply wp_bind. eapply (wp_emit_goto (l ++ f) _ start (- (zlen f + 5))); [exact Hb| | |].
    - by destruct greedy.
    - intros E. rewrite Hst by done. zlen_lia.
    - intros b pos T B. apply wp_ret.
      apply (HQ b (f ++ ((REOP_split_next_first - bZ greedy) :: jmp (- (zlen f + 5)))) md);
        [done| |bsame B]. apply (frag_plus _ _ md f); [|done]. destruct greedy; vm_compute; in_list. }
  by apply (emit_quant_min_ok l f md).
Qed.
End quantifiers.
