(* ===== verification/ReParseSafe.v ===== *)
(** * The parser is safe

    Every function of the parser ends, reads inside the pattern, keeps the state well
    formed, and emits structured code, unless an allocation fails. *)

From Stdlib Require Import Ascii String.
From S2P Require Import Prelude CStr Bytes DynBuf Utf8 CharRange ReOpcode ReCode ReState.
From S2P Require Import ReLex ReClass ReParse ReLexSafe ReHoare ReClassSafe ReQuantSafe.

(** ** Invariant of the parser state *)

(** The names stored so far: at most one for each capture, and [d] more. *)
Definition names_inv (d : Z) (s : REParseState) : Prop :=
  dbuf_wf (group_names s) /\
  exists k, names_ok (content (group_names s)) k /\ Z.of_nat k <= capture_count s - 1 + d.

Definition inv_names (d : Z) (s : REParseState) : Prop :=
  lexical s /\ 0 <= buf_ptr s <= buf_end s /\ 1 <= capture_count s <= CAPTURE_COUNT_MAX /\
  total_capture_count s <= CAPTURE_COUNT_MAX /\ names_inv d s.

Abbreviation inv := (inv_names 0).

(** What does not change, or only grows. *)
Definition kept (s s' : REParseState) : Prop :=
  pat s' = pat s /\ buf_end s' = buf_end s /\ is_utf16 s' = is_utf16 s /\
  capture_count s <= capture_count s' /\ bto (byte_code s) (byte_code s').

Lemma kept_refl s : kept s s.
Proof. split_and!; [done..|lia|apply bto_refl]. Qed.

(** Solves [kept] between states that differ in other fields. *)
Ltac solve_kept := split_and!; [done..|cbn; lia|first [assumption | apply bto_refl]].

Lemma kept_trans s1 s2 s3 : kept s1 s2 -> kept s2 s3 -> kept s1 s3.
Proof.
  intros (? & ? & ? & ? & ?) (? & ? & ? & ? & ?).
  split_and!; [congruence..|lia|by eapply bto_trans].
Qed.

(** From [s], whose byte code was [l], to [s']: structured code was appended. *)
Definition emitted (l : list Z) (s s' : REParseState) : Prop :=
  inv s' /\ kept s s' /\
  exists md f, frag (capture_count s') md f /\ bhas (byte_code s') (l ++ f).

(** Only the temporary buffer and the count of the captures changed. *)
Definition same (s s' : REParseState) : Prop :=
  inv s' /\ kept s s' /\ byte_code s' = byte_code s /\ capture_count s' = capture_count s /\
  buf_ptr s' = buf_ptr s /\ ignore_case s' = ignore_case s /\ dotall s' = dotall s.

Lemma same_refl s : inv s -> same s s.
Proof. intros. split; [done|]. split; [apply kept_refl|done]. Qed.

Lemma same_trans s1 s2 s3 : same s1 s2 -> same s2 s3 -> same s1 s3.
Proof.
  intros (_ & K1 & E1 & E2 & E3 & E4 & E5) (? & K2 & F1 & F2 & F3 & F4 & F5).
  split_and!; try congruence. by eapply kept_trans.
Qed.

Lemma emitted_nil l s : inv s -> bhas (byte_code s) l -> emitted l s s.
Proof.
  intros Hi Hb. split; [done|]. split; [apply kept_refl|]. exists 0, [].
  split; [constructor|]. by rewrite app_nil_r.
Qed.

Lemma emitted_code l md f b s :
  inv s -> bto (byte_code s) b -> frag (capture_count s) md f -> bhas b (l ++ f) ->
  emitted l s (set_byte_code b s).
Proof.
  intros Hi T Hf B. split; [exact Hi|]. split; [solve_kept|].
  by exists md, f.
Qed.

Lemma emitted_from l s s1 s2 : kept s s1 -> emitted l s1 s2 -> emitted l s s2.
Proof. intros K (Hi & K' & He). split; [done|]. split; [by eapply kept_trans|done]. Qed.

Lemma frag_app0 cc a b : frag cc 0 a -> frag cc 0 b -> frag cc 0 (a ++ b).
Proof. intros Ha Hb. by apply (frag_app cc 0 0). Qed.

Lemma capture_max : CAPTURE_COUNT_MAX = 255.
Proof. reflexivity. Qed.

Lemma strlen_split l n :
  strlen l = Some n ->
  exists t r, l = t ++ 0 :: r /\ zlen t = n /\ Forall (fun c => c <> 0) t.
Proof.
  revert n. induction l as [|c l IH]; intros n; [done|]. cbn.
  destruct (Z.eqb_spec c 0) as [->|].
  - intros [= <-]. by exists [], l.
  - destruct (strlen l) as [m|]; [|done]. intros [= <-].
    destruct (IH m) as (t & r & -> & <- & Ht); [done|]. exists (c :: t), r.
    split; [done|]. split; [zlen_lia|]. by constructor.
Qed.

Section parser.
Context `{AllocatorOk} {U : UnicodeDb} {HU : UnicodeDbOk U} {Host : ReHost}.

(** ** Captures *)

Lemma inv_tmp d s : inv_names d s -> tmp_ok (u s).
Proof. intros ([_ ?] & _). done. Qed.

Lemma inv_pat d s : inv_names d s -> pat_ok (pat s) (buf_end s).
Proof. intros ([? _] & _). done. Qed.

Lemma wp_count_captures Q s :
  inv s -> (forall n s', same s s' -> n <= CAPTURE_COUNT_MAX -> Q n s') ->
  wp re_count_captures Q s.
Proof.
  intros Hi HQ. apply wp_bind, wp_state. pose proof Hi as ([Hpat Hu] & Hp & Hc & Ht & Hn).
  destruct (Z.ltb_spec (total_capture_count s) 0).
  - destruct (re_parse_captures_ok _ _ (is_utf16 s) None Hpat) as (n & h & E & Hr & _); [lia|done|].
    apply wp_bind, (wp_lift _ (n, h)); [done|]. apply wp_bind, wp_modify, wp_ret.
    cbn in Hr. apply HQ; [|lia]. split; [|split; [solve_kept|done]].
    split; [done|]. split; [done|]. split; [done|]. by split; [cbn; lia|].
  - apply wp_ret, HQ; [by apply same_refl|done].
Qed.

Lemma wp_has_named_captures Q s :
  inv s -> (forall n s', same s s' -> Q n s') -> wp re_has_named_captures Q s.
Proof.
  intros Hi HQ. apply wp_bind, wp_state. apply wp_bind.
  apply (wp_mono _ (fun _ s' => same s s')).
  - destruct (_ <? 0); [|apply wp_ret; by apply same_refl].
    apply wp_bind, wp_count_captures; [done|]. intros n s' Hs _. by apply wp_ret.
  - intros _ s' Hs. apply wp_bind, wp_state. apply wp_ret. by apply HQ.
Qed.

Lemma wp_parse_tmp_name p d Q s :
  inv_names d s -> 0 <= p <= buf_end s ->
  (forall r u' p', tmp_ok u' -> (r = -1 \/ r = 0 /\ p < p' <= buf_end s) ->
    Q (r, p') (set_u u' s)) ->
  wp (parse_tmp_name p) Q s.
Proof.
  intros Hi Hp HQ. apply wp_bind, wp_state.
  destruct (re_parse_group_name_ok (u s) _ _ p (is_utf16 s) (inv_pat _ _ Hi) Hp (inv_tmp _ _ Hi))
    as (r & u' & p' & E & Hu' & Hr).
  apply wp_bind, (wp_lift _ (r, u', p')); [done|]. apply wp_bind, wp_modify, wp_ret.
  apply HQ; [done|]. destruct Hr as [[-> _]|[-> ?]]; auto.
Qed.

Lemma wp_find_tmp_name d Q s :
  inv_names d s ->
  (forall r, (r = -1 \/ 1 <= r < CAPTURE_COUNT_MAX + d) -> Q r s) -> wp find_tmp_name Q s.
Proof.
  intros Hi HQ. apply wp_bind, wp_state. pose proof Hi as ([_ Hu] & _ & Hc & _ & Hwf & k & Hk & Hkc).
  destruct (find_group_name_ok (buf (group_names s)) (size (group_names s)) k (u s))
    as (r & E & Hr); [done| |done|].
  { destruct Hwf as (? & ? & ?). lia. }
  apply (wp_lift _ r); [done|]. apply HQ. lia.
Qed.

Lemma wp_group_names_put n d Q s :
  inv_names d s -> Forall (fun c => c <> 0) n -> zlen n < 2 ^ 62 ->
  (forall b, let s' := set_group_names b s in inv_names (d + 1) s' -> Q tt s') ->
  wp (group_names_put (n ++ [0])) Q s.
Proof.
  intros Hi Hn Hl HQ. pose proof Hi as (Hs & Hp & Hc & Ht & Hwf & k & Hk & Hkc).
  destruct (dbuf_put_spec (group_names s) (n ++ [0]) Hwf) as (b & r & E & Hwf' & Hr); [zlen_lia|].
  unfold wp, group_names_put. rewrite E. apply HQ. split_and!; try done; cbn; try lia.
  split; [done|]. destruct Hr as [(_ & Hc' & _)|(_ & Hc' & _)]; cbn; rewrite Hc'.
  - exists (S k). split; [by apply names_ok_snoc|cbn; lia].
  - exists k. split; [done|cbn; lia].
Qed.

(** ** Atoms *)

(** The result of an atom that starts at [p0]: the position after it and, unless it
    cannot be repeated, where its code starts and the number of captures before it. *)
Definition atom_post (l : list Z) (p0 : Z) (s : REParseState) (r : Z * Z * Z)
    (s' : REParseState) : Prop :=
  let '(p, start, cc) := r in
  emitted l s s' /\ p0 < p <= buf_end s /\
  (start = -1 \/ (error (byte_code s') = false -> start = zlen l) /\ cc = capture_count s).

Lemma atom_post_code l p0 s b md f p start cc :
  inv s -> bto (byte_code s) b -> frag (capture_count s) md f -> bhas b (l ++ f) ->
  p0 < p <= buf_end s ->
  (start = -1 \/ (error (byte_code s) = false -> start = zlen l) /\ cc = capture_count s) ->
  atom_post l p0 s (p, start, cc) (set_byte_code b s).
Proof.
  intros Hi T Hf B Hp Hst. split; [by eapply emitted_code|]. split; [done|].
  destruct Hst as [?|[Hst ?]]; [by left|right]. split; [|done]. intros E. apply Hst. bchain.
Qed.

Lemma atom_post_from l p0 s s1 r s2 :
  kept s s1 -> capture_count s1 = capture_count s -> atom_post l p0 s1 r s2 -> atom_post l p0 s r s2.
Proof.
  intros K E. destruct r as [[p start] cc]. intros (He & Hp & Hst). split; [by eapply emitted_from|].
  destruct K as (_ & K & _). rewrite <- K, <- E. done.
Qed.

Lemma wp_atom_start l Q s :
  bhas (byte_code s) l ->
  (forall start, (error (byte_code s) = false -> start = zlen l) -> Q (start, capture_count s) s) ->
  wp atom_start Q s.
Proof. intros Hb HQ. apply wp_gets, HQ. by apply bhas_size. Qed.

Lemma wp_when_prev l b0 Q s :
  bhas (byte_code s) l ->
  (forall b i, bto (byte_code s) b -> (forall cc, frag cc 0 i) -> bhas b (l ++ i) ->
    Q tt (set_byte_code b s)) ->
  wp (when b0 (re_emit_op REOP_prev)) Q s.
Proof.
  intros Hb HQ. destruct b0; cbn [when].
  - apply (wp_emit_op l); [done|done|]. intros b T B. apply (HQ b [REOP_prev] T); [|done].
    intros cc. apply frag_plain, plain_op. in_list.
  - apply wp_ret. rewrite <- (set_byte_code_id s). apply (HQ _ []); [apply bto_refl| |].
    + intros cc. constructor.
    + by rewrite app_nil_r.
Qed.

Lemma lre_canonicalize_some c utf16 : is_Some (lre_canonicalize c utf16).
Proof.
  unfold lre_canonicalize. destruct utf16, (c <? 128); try by eexists.
  - pose proof (lre_case_conv_result c 2). by destruct (lre_case_conv c 2).
  - destruct (zlen (lre_case_conv c 0) =? 1); [|by eexists].
    pose proof (lre_case_conv_result c 0). by destruct (lre_case_conv c 0).
Qed.

Lemma term_normal_char_ok c cr p p0 bwd l s :
  inv s -> bhas (byte_code s) l -> p0 < p <= buf_end s ->
  (0 <= c < CLASS_RANGE_BASE \/ c = CLASS_RANGE_BASE /\ exists cr0, cr = Some cr0 /\ cr_valid cr0) ->
  wp (term_normal_char c cr p bwd) (atom_post l p0 s) s.
Proof.
  intros Hi Hb Hp Hc. apply wp_bind, (wp_atom_start l); [done|]. intros start Hst.
  apply wp_bind, (wp_when_prev l); [done|]. intros b1 i1 T1 F1 B1.
  apply wp_bind, wp_state. apply wp_bind. rewrite Z.geb_leb.
  apply (wp_mono _ (fun _ s' => exists b i, s' = set_byte_code b s /\ bto (byte_code s) b /\
    (forall cc, frag cc 0 i) /\ bhas b ((l ++ i1) ++ i))).
  { destruct (Z.leb_spec CLASS_RANGE_BASE c).
    - destruct Hc as [?|(_ & cr0 & -> & Hv)]; [lia|]. apply wp_bind, (wp_lift _ cr0); [done|].
      apply (re_emit_range_ok cr0 (l ++ i1)); [done|apply Hi|done|]. intros b2 i T2 B2 Hpl.
      exists b2, i. split; [done|]. split; [bchain|]. split; [|done]. intros cc. by apply frag_plain.
    - apply wp_bind. apply (wp_mono _ (fun _ s' => s' = set_byte_code b1 s)).
      { destruct (ignore_case _); [|by apply wp_ret].
        destruct (lre_canonicalize_some c (is_utf16 (set_byte_code b1 s))) as [v Hv].
        by apply (wp_lift _ v). }
      intros v s' ->. destruct (v <=? 0xffff).
      + apply (wp_emit_op_u16 (l ++ i1)); [done|done|]. intros b2 T2 B2.
        exists b2, (REOP_char :: le_bytes 2 v). split; [done|]. split; [bchain|]. split; [|done].
        intros cc. apply frag_plain, plain_char.
      + apply wp_bind, (wp_emit_op_u32 (l ++ i1)); [done|done|]. intros b2 pos T2 B2 _. apply wp_ret.
        exists b2, (REOP_char32 :: le_bytes 4 v). split; [done|]. split; [bchain|]. split; [|done].
        intros cc. apply frag_plain, plain_char32. }
  intros _ s' (b2 & i2 & -> & T2 & F2 & B2).
  apply wp_bind, (wp_when_prev ((l ++ i1) ++ i2)); [done|]. intros b3 i3 T3 F3 B3. apply wp_ret.
  apply (atom_post_code l p0 s b3 0 (i1 ++ i2 ++ i3)); [done|bchain| |bsame B3|done|by right].
  auto using frag_app0.
Qed.

Lemma term_class_atom_ok p bwd l s :
  inv s -> bhas (byte_code s) l -> 0 <= p <= buf_end s ->
  wp (term_class_atom p bwd) (atom_post l p s) s.
Proof.
  intros Hi Hb Hp. apply wp_bind. eapply wp_reads; [apply get_class_atom_ok; [apply Hi|done]|].
  intros [[c cr] p'] [Hp' Hc]. by apply term_normal_char_ok.
Qed.

Lemma term_back_reference_ok c p p0 bwd l s :
  inv s -> bhas (byte_code s) l -> p0 < p <= buf_end s -> 0 <= c < CAPTURE_COUNT_MAX ->
  wp (term_back_reference c p bwd) (atom_post l p0 s) s.
Proof.
  intros Hi Hb Hp Hc. rewrite capture_max in Hc.
  apply wp_bind, (wp_atom_start l); [done|]. intros start Hst.
  apply wp_bind, (wp_emit_op_u8 l); [done|by destruct bwd|lia|]. intros b T B. apply wp_ret.
  apply (atom_post_code l p0 s b 0 [REOP_back_reference + bZ bwd; c]); [done|done| |done|done|by right].
  apply frag_plain, plain_ref; [|by rewrite capture_max]. destruct bwd; in_list.
Qed.

Lemma term_dot_ok p bwd l s :
  inv s -> bhas (byte_code s) l -> 0 <= p < buf_end s ->
  wp (term_dot p bwd) (atom_post l p s) s.
Proof.
  intros Hi Hb Hp. apply wp_bind, (wp_atom_start l); [done|]. intros start Hst.
  apply wp_bind, (wp_when_prev l); [done|]. intros b1 i1 T1 F1 B1. apply wp_bind, wp_state.
  set (op := if dotall _ then REOP_any else REOP_dot).
  apply wp_bind, (wp_emit_op (l ++ i1)); [done|by subst op; destruct (dotall _)|]. intros b2 T2 B2.
  apply wp_bind, (wp_when_prev ((l ++ i1) ++ [op])); [done|]. intros b3 i3 T3 F3 B3. apply wp_ret.
  apply (atom_post_code l p s b3 0 (i1 ++ [op] ++ i3)); [done|bchain| |bsame B3|lia|by right].
  apply frag_app0; [done|]. apply frag_app0; [|done]. apply frag_plain, plain_op.
  subst op. destruct (dotall _); in_list.
Qed.

Lemma term_class_ok p bwd l s :
  inv s -> bhas (byte_code s) l -> 0 <= p < buf_end s ->
  wp (term_class p bwd) (atom_post l p s) s.
Proof.
  intros Hi Hb Hp. apply wp_bind, (wp_atom_start l); [done|]. intros start Hst.
  apply wp_bind, (wp_when_prev l); [done|]. intros b1 i1 T1 F1 B1.
  apply wp_bind, (re_parse_char_class_ok p (l ++ i1)); [apply Hi|done|done|].
  intros b2 i2 p' T2 B2 Hpl Hp'.
  apply wp_bind, (wp_when_prev ((l ++ i1) ++ i2)); [done|]. intros b3 i3 T3 F3 B3. apply wp_ret.
  apply (atom_post_code l p s b3 0 (i1 ++ i2 ++ i3)); [done|bchain| |bsame B3|done|by right].
  auto using frag_app0, frag_plain.
Qed.

(** The start and the end of the code of an instruction that cannot be repeated. *)
Lemma term_assertion_ok op p p0 l s :
  inv s -> bhas (byte_code s) l -> p0 < p <= buf_end s ->
  op ∈ [REOP_line_start; REOP_line_end; REOP_word_boundary; REOP_not_word_boundary] ->
  wp (re_emit_op op;; mret (p, -1, 0)) (atom_post l p0 s) s.
Proof.
  intros Hi Hb Hp Hop. apply wp_bind, (wp_emit_op l); [done|inv_elem Hop; by vm_compute|].
  intros b T B. apply wp_ret.
  apply (atom_post_code l p0 s b 0 [op]); [done|done| |done|done|by left].
  apply frag_plain, plain_op. inv_elem Hop; in_list.
Qed.

Lemma wp_nothing_to_repeat {X} (Q : X -> _) s : inv s -> wp nothing_to_repeat Q s.
Proof. intros Hi. apply wp_error, Hi. Qed.

Lemma term_brace_ok p bwd l s :
  inv s -> bhas (byte_code s) l -> 0 <= p < buf_end s ->
  wp (term_brace p bwd) (atom_post l p s) s.
Proof.
  intros Hi Hb Hp. pose proof (inv_pat _ _ Hi) as Hpat. pose proof (inv_tmp _ _ Hi) as Hu.
  assert (Hcl := term_class_atom_ok p bwd l s Hi Hb ltac:(lia)).
  apply wp_bind, wp_state. destruct (is_utf16 s); [by apply wp_error|].
  apply wp_bind. eapply wp_reads; [apply reads_rd; [done|lia]|]. intros x (E & R & Hx).
  destruct (is_digit x); cbn [negb]; [|done].
  destruct (parse_digits_ok _ _ (p + 1) true Hpat) as (v & p1 & Ed & Hp1 & _); [lia|].
  apply wp_bind, (wp_lift _ (v, p1)); [done|].
  apply wp_bind. eapply wp_reads; [apply reads_rd; [done|lia]|]. intros x1 (E1 & R1 & Hx1).
  apply wp_bind. eapply (wp_reads _ (fun p2 => 0 <= p2 <= buf_end s)).
  { destruct (Z.eqb_spec x1 44) as [->|]; [|apply reads_ret; lia].
    eapply reads_bind; [apply reads_rd; [done|lia]|]. intros y (Ey & Ry & Hy).
    destruct (is_digit y); [|apply reads_ret; lia].
    destruct (parse_digits_ok _ _ (p1 + 1) true Hpat) as (v2 & p2 & Ed2 & Hp2 & _); [lia|].
    eapply reads_bind; [by apply (reads_lift _ (v2, p2) _ (fun y => y = (v2, p2)))|].
    intros ? ->. apply reads_ret. lia. }
  intros p2 Hp2. apply wp_bind. eapply wp_reads; [apply reads_rd; [done|lia]|].
  intros x2 (E2 & R2 & Hx2). destruct (negb _); [done|]. by apply wp_nothing_to_repeat.
Qed.

(** ** Numeric and named escapes *)

Lemma term_zero_escape_ok p p0 bwd l s :
  inv s -> bhas (byte_code s) l -> p0 < p -> 0 <= p <= buf_end s ->
  wp (term_zero_escape p bwd) (atom_post l p0 s) s.
Proof.
  intros Hi Hb Hp Hpe. pose proof (inv_pat _ _ Hi) as Hpat. pose proof (inv_tmp _ _ Hi) as Hu.
  assert (Hnc : forall c q, 0 <= c < 128 -> p <= q <= buf_end s ->
    wp (term_normal_char c None q bwd) (atom_post l p0 s) s).
  { intros c q Hc Hq. apply term_normal_char_ok; [done|done|lia|]. unfold CLASS_RANGE_BASE. lia. }
  apply wp_bind, wp_state. apply wp_bind.
  eapply wp_reads; [apply reads_rd; [done|lia]|]. intros x (E & R & Hx).
  destruct (is_utf16 s).
  { destruct (is_digit x); [by apply wp_error|]. apply Hnc; lia. }
  rewrite Z.geb_leb. destruct ((48 <=? x) && (x <=? 55)) eqn:Ex; [|apply Hnc; lia].
  zify_bools. apply wp_bind. eapply wp_reads; [apply reads_rd; [done|lia]|].
  intros y (Ey & Ry & Hy). rewrite Z.geb_leb.
  destruct ((48 <=? y) && (y <=? 55)) eqn:Ey'; [|apply Hnc; lia].
  zify_bools. rewrite Z.shiftl_mul_pow2 by lia. apply Hnc; lia.
Qed.

Lemma legacy_octal_ok q x s :
  pat_ok (pat s) (buf_end s) -> 0 <= q < buf_end s -> znth (pat s) q = Some x -> 49 <= x <= 57 ->
  reads (legacy_octal q) s (fun r => 0 <= r.1 < 512 /\ q <= r.2 <= buf_end s).
Proof.
  intros Hpat Hq Ex Hx. eapply reads_bind; [by apply (reads_lift _ x _ (fun y => y = x))|].
  intros ? ->. destruct (Z.leb_spec x 55); [|apply reads_ret; cbn; lia].
  assert (exists c p, (if x <=? 51 then (x - 48, q + 1) else (0, q)) = (c, p) /\
    0 <= c < 4 /\ q <= p <= q + 1) as (c & p & -> & Hc & Hp).
  { destruct (Z.leb_spec x 51); eexists _, _; (split; [reflexivity|lia]). }
  eapply reads_bind; [apply reads_rd; [done|lia]|]. intros y (Ey & Ry & Hy). rewrite Z.geb_leb.
  destruct ((48 <=? y) && (y <=? 55)) eqn:Ey'; [|apply reads_ret; cbn; lia].
  zify_bools. cbv zeta. eapply reads_bind; [apply reads_rd; [done|lia]|]. intros z (Ez & Rz & Hz).
  rewrite Z.geb_leb. rewrite !Z.shiftl_mul_pow2 by lia.
  destruct ((48 <=? z) && (z <=? 55)) eqn:Ez'; zify_bools; apply reads_ret; cbn [fst snd]; lia.
Qed.

(** Continues from a state in which only the temporary buffer or the count of captures
    has changed. *)
Lemma wp_same (m : M (Z * Z * Z)) l p0 s s1 :
  same s s1 -> bhas (byte_code s) l ->
  (inv s1 -> bhas (byte_code s1) l -> wp m (atom_post l p0 s1) s1) -> wp m (atom_post l p0 s) s1.
Proof.
  intros (Hi & K & E & Ec & _) Hb Hm. eapply wp_mono; [apply Hm; [done|by rewrite E]|].
  intros r s2. by apply atom_post_from.
Qed.

Lemma same_end s s1 : same s s1 -> buf_end s1 = buf_end s /\ pat s1 = pat s.
Proof. intros (_ & (-> & -> & _) & _). done. Qed.

Lemma term_decimal_escape_ok q p0 x bwd l s :
  inv s -> bhas (byte_code s) l -> p0 < q -> 0 <= q < buf_end s -> znth (pat s) q = Some x ->
  49 <= x <= 57 -> wp (term_decimal_escape q bwd) (atom_post l p0 s) s.
Proof.
  intros Hi Hb Hp Hq Ex Hx. pose proof (inv_pat _ _ Hi) as Hpat.
  pose proof Hi as (_ & _ & Hcc & _).
  apply wp_bind, wp_state.
  destruct (parse_digits_ok _ _ q false Hpat) as (c & p1 & Ed & Hp1 & Hc); [lia|].
  apply wp_bind, (wp_lift _ (c, p1)); [done|]. apply wp_bind.
  apply (wp_mono _ (fun b s1 => same s s1 /\ (b = false -> 0 <= c < CAPTURE_COUNT_MAX))).
  { destruct (Z.ltb_spec c 0); [apply wp_ret; split; [by apply same_refl|done]|].
    rewrite Z.geb_leb. destruct (Z.leb_spec (capture_count s) c).
    - apply wp_bind, wp_count_captures; [done|]. intros n s1 Hs Hn. apply wp_ret. split; [done|].
      rewrite Z.geb_leb. intros Hlt. zify_bools. lia.
    - apply wp_ret. split; [by apply same_refl|lia]. }
  intros [|] s1 [Hs Hlt]; apply (wp_same _ l p0 s s1 Hs Hb); intros Hi1 Hb1;
    destruct (same_end _ _ Hs) as [Ee Ep].
  - destruct (is_utf16 s); [apply wp_error, Hi1|]. apply wp_bind.
    eapply wp_reads; [apply (legacy_octal_ok q x); [apply Hi1|lia|by rewrite Ep|done]|].
    intros [c2 p2] [Hc2 Hp2]. cbn in *.
    assert (q < p2 \/ q = p2) as [?|<-] by lia; apply term_normal_char_ok; try done; try lia;
      left; unfold CLASS_RANGE_BASE; lia.
  - apply term_back_reference_ok; [done|done|lia|auto].
Qed.

Lemma term_named_reference_ok p bwd l s :
  inv s -> bhas (byte_code s) l -> 0 <= p -> p + 2 <= buf_end s ->
  wp (term_named_reference p bwd) (atom_post l p s) s.
Proof.
  intros Hi Hb Hp Hpe. pose proof (inv_pat _ _ Hi) as Hpat.
  apply wp_bind, wp_state. cbv zeta.
  assert (Hinv : forall msg s1, same s s1 ->
    wp (named ← (if is_utf16 s then mret true else re_has_named_captures);
        if named : bool then re_parse_error msg else term_class_atom p bwd) (atom_post l p s) s1).
  { intros msg s1 Hs1. apply wp_bind. apply (wp_mono _ (fun _ s2 => same s s2)).
    - destruct (is_utf16 s); [by apply wp_ret|].
      apply wp_has_named_captures; [apply Hs1|]. intros n s2 Hs2. by eapply same_trans.
    - intros [|] s2 Hs2; [apply wp_error, (inv_tmp 0), Hs2|].
      apply (wp_same _ l p s s2 Hs2 Hb). intros Hi2 Hb2. apply term_class_atom_ok; [done..|].
      destruct (same_end _ _ Hs2) as [-> _]. lia. }
  apply wp_bind. eapply wp_reads; [apply reads_rd; [done|lia]|]. intros x (E & R & Hx).
  destruct (Z.eqb_spec x 60) as [->|]; cbn [negb]; [|by apply Hinv, same_refl].
  apply wp_bind, (wp_parse_tmp_name _ 0); [done|lia|]. intros r u' p1 Hu' Hr.
  assert (Hs1 : same s (set_u u' s)).
  { split; [|split; [solve_kept|done]]. destruct Hi as ([? ?] & ?). by split. }
  destruct (Z.eqb_spec r 0) as [->|]; cbn [negb]; [|by apply Hinv].
  destruct Hr as [?|[_ Hp1]]; [done|].
  apply wp_bind, (wp_find_tmp_name 0); [apply Hs1|]. intros c Hc.
  destruct (Z.ltb_spec c 0).
  - apply wp_bind, wp_state.
    destruct (tmp_strlen _ Hu') as (n & Hn & _).
    destruct (re_parse_captures_ok _ _ (is_utf16 s) (Some u') Hpat) as (c2 & h & E2 & Hc2 & _);
      [lia|by eexists|].
    apply wp_bind, (wp_lift _ (c2, h)); [done|].
    destruct (Z.ltb_spec c2 0); [by apply Hinv|]. cbn in Hc2.
    apply (wp_same _ l p s _ Hs1 Hb). intros Hi1 Hb1.
    apply term_back_reference_ok; [done|done|cbn; lia|lia].
  - apply (wp_same _ l p s _ Hs1 Hb). intros Hi1 Hb1.
    apply term_back_reference_ok; [done|done|cbn; lia|lia].
Qed.

Lemma term_escape_ok p bwd l s :
  inv s -> bhas (byte_code s) l -> 0 <= p < buf_end s ->
  wp (term_escape p bwd) (atom_post l p s) s.
Proof.
  intros Hi Hb Hp. pose proof (inv_pat _ _ Hi) as Hpat. apply wp_bind.
  eapply wp_reads; [apply reads_rd; [done|lia]|]. intros x (E & R & Hx).
  destruct ((x =? 98) || (x =? 66)) eqn:Eb.
  { assert (p + 1 < buf_end s) by (apply Hx; intros ->; done).
    apply term_assertion_ok; [done|done|lia|]. destruct (x =? 98); in_list. }
  destruct (Z.eqb_spec x 107) as [->|].
  { apply term_named_reference_ok; [done|done|lia|]. assert (p + 1 < buf_end s) by by apply Hx. lia. }
  destruct (Z.eqb_spec x 48) as [->|].
  { assert (p + 1 < buf_end s) by by apply Hx. apply term_zero_escape_ok; [done|done|lia|lia]. }
  destruct ((49 <=? x) && (x <=? 57)) eqn:Ed; [|by apply term_class_atom_ok; [| |lia]].
  zify_bools. assert (p + 1 < buf_end s) by (apply Hx; lia).
  apply (term_decimal_escape_ok _ _ x); [done|done|lia|lia|done|lia].
Qed.

(** ** Groups *)

(** What the atoms rely on for the disjunctions inside the parentheses, which have less
    than [n] characters left. *)
Definition disj_ok (n : Z) (disj : bool -> M unit) : Prop :=
  forall s l b, inv s -> bhas (byte_code s) l -> buf_end s - buf_ptr s < n ->
    wp (disj b) (fun _ s' => emitted l s s' /\ buf_ptr s <= buf_ptr s') s.

Lemma wp_expect p c Q s :
  pat_ok (pat s) (buf_end s) -> tmp_ok (u s) -> 0 <= p <= buf_end s -> c <> 0 ->
  (p < buf_end s -> Q (p + 1) s) -> wp (re_parse_expect p c) Q s.
Proof.
  intros Hpat Hu Hp Hc HQ. apply wp_bind. eapply wp_reads; [apply reads_rd; [done|lia]|].
  intros x (E & R & Hx). destruct (Z.eqb_spec x c) as [->|]; cbn [negb]; [|by apply wp_error].
  apply wp_ret. auto.
Qed.

Lemma inv_set_ptr d p s : inv_names d s -> 0 <= p <= buf_end s -> inv_names d (set_buf_ptr p s).
Proof. intros (? & _ & ?) Hp. by split. Qed.

Lemma group_body_ok n disj p bwd l s Q :
  disj_ok n disj -> inv s -> bhas (byte_code s) l -> 0 <= p <= buf_end s -> buf_end s - p < n ->
  (forall s' p', emitted l s s' -> p < p' <= buf_end s -> Q p' s') ->
  wp (group_body disj p bwd) Q s.
Proof.
  intros Hd Hi Hb Hp Hn HQ. apply wp_bind, wp_modify, wp_bind.
  eapply wp_mono; [apply (Hd (set_buf_ptr p s) l bwd)|].
  { by apply inv_set_ptr. } { done. } { done. }
  intros _ s1 [He Hp1]. cbn in Hp1. apply wp_bind, wp_gets.
  assert (emitted l s s1) as He1 by (eapply (emitted_from l s (set_buf_ptr p s)); [solve_kept|done]).
  destruct He as (Hi1 & (_ & Ee & _) & _). cbn in Ee. pose proof Hi1 as ([Hpat1 Hu1] & Hr1 & _).
  apply wp_expect; [done|done|done|done|]. intros Hlt. apply HQ; [done|lia].
Qed.

Lemma emitted_frag l cc0 s s' :
  emitted l s s' -> cc0 = capture_count s ->
  inv s' /\ kept s s' /\ cc0 <= capture_count s' /\
  exists md f, frag (capture_count s') md f /\ bhas (byte_code s') (l ++ f).
Proof. intros (? & K & ?) ->. split; [done|]. split; [done|]. split; [apply K|done]. Qed.

Lemma term_lookahead_ok n disj p p0 is_neg back l s :
  disj_ok n disj -> inv s -> bhas (byte_code s) l -> 0 <= p0 < p -> p <= buf_end s ->
  buf_end s - p < n -> wp (term_lookahead disj p is_neg back) (atom_post l p0 s) s.
Proof.
  intros Hd Hi Hb Hp Hpe Hn. apply wp_bind, wp_state. apply wp_bind.
  apply (wp_mono _ (fun r s' => s' = s /\
    (r.1 = -1 \/ (error (byte_code s) = false -> r.1 = zlen l) /\ r.2 = capture_count s))).
  { destruct (_ && _); [|apply wp_ret; by auto].
    apply (wp_atom_start l); [done|]. intros start Hst. by auto. }
  intros [start cc] s' [-> Hst]. cbn in Hst.
  assert (REOP_lookahead + bZ is_neg ∈ [REOP_lookahead; REOP_negative_lookahead]) as Hop
    by (destruct is_neg; in_list).
  set (op := REOP_lookahead + bZ is_neg) in *. clearbody op.
  apply wp_bind, (wp_emit_op_u32 l); [done|inv_elem Hop; by vm_compute|]. intros b1 pos T1 B1 Hpos.
  apply wp_bind, (group_body_ok n disj p back (l ++ op :: le_bytes 4 0)); [done|exact Hi|done|cbn; lia|cbn; lia|].
  intros s2 p2 He2 Hp2. pose proof He2 as (Hi2 & K2 & md & f & Hf & B2).
  apply wp_bind, (wp_emit_op ((l ++ op :: le_bytes 4 0) ++ f)); [done|done|]. intros b3 T3 B3.
  apply wp_bind, wp_code_error; intros E3; [apply wp_fail, Hi2|].
  apply wp_bind, wp_gets. apply wp_bind.
  assert (T12 : bto b1 (byte_code s2)) by apply K2.
  apply (wp_poke_u32 (l ++ [op]) (le_bytes 4 0) (f ++ [REOP_match])); [bsame B3| |done|].
  { intros E. rewrite Hpos by bchain. zlen_lia. }
  intros b4 T4 B4. apply wp_ret.
  assert (Hsz : size (byte_code (set_byte_code b3 s2)) - (pos + 4) = zlen f + 1).
  { cbn [byte_code set_byte_code]. rewrite (bhas_size _ _ B3 E3), Hpos by bchain. zlen_lia. }
  rewrite Hsz in B4. cbn in Hp2.
  split; [|split; [lia|]].
  - split; [exact Hi2|]. split.
    + eapply (kept_trans _ (set_byte_code b1 s)); [solve_kept|].
      eapply (kept_trans _ s2); [done|]. split_and!; [done..|cbn; lia|bchain].
    + exists md, ((op :: jmp (zlen f + 1)) ++ f ++ [REOP_match]). split; [by apply frag_look|].
      bsame B4.
  - destruct Hst as [?|[Hst ?]]; [by left|right]. split; [|done]. intros E. apply Hst. bchain.
Qed.

Lemma term_capture_ok n disj p p0 bwd l s :
  disj_ok n disj -> inv_names 1 s -> bhas (byte_code s) l -> 0 <= p0 < p -> p <= buf_end s ->
  buf_end s - p < n -> wp (term_capture disj p bwd) (atom_post l p0 s) s.
Proof.
  intros Hd Hi Hb Hp Hpe Hn. pose proof Hi as (Hlex & Hptr & Hcc & Htot & Hnames).
  rewrite capture_max in Hcc. apply wp_bind, wp_state. rewrite Z.geb_leb, capture_max.
  destruct (Z.leb_spec 255 (capture_count s)); [apply wp_error, Hi|].
  apply wp_bind, (wp_atom_start l); [done|]. intros start Hst. cbv zeta.
  apply wp_bind, wp_modify. apply wp_bind.
  set (op := REOP_save_start + bZ bwd). set (op2 := REOP_save_start + 1 - bZ bwd).
  assert (Hop : op ∈ [REOP_save_start; REOP_save_end]) by (subst op; destruct bwd; in_list).
  assert (Hop2 : op2 ∈ [REOP_save_start; REOP_save_end]) by (subst op2; destruct bwd; in_list).
  clearbody op op2.
  apply (wp_emit_op_u8 l); [done|inv_elem Hop; by vm_compute|lia|]. intros b1 T1 B1.
  apply wp_bind, wp_modify, wp_bind.
  set (s1 := set_buf_ptr p _).
  assert (Hi1 : inv s1).
  { split; [done|]. split; [cbn; lia|]. rewrite capture_max. split; [cbn; lia|]. split; [done|].
    destruct Hnames as (Hwf & k & Hk & Hkc). split; [done|]. exists k. split; [done|]. cbn. lia. }
  eapply wp_mono; [apply (Hd s1 (l ++ [op; capture_count s]) bwd); [done|done|done]|].
  intros _ s2 [He Hp2]. cbn in Hp2. destruct He as (Hi2 & K2 & md & f & Hf & B2).
  assert (K12 : kept s s2).
  { eapply (kept_trans _ s1); [|done]. split_and!; [done..|cbn; lia|done]. }
  assert (Hcc2 : capture_count s + 1 <= capture_count s2) by apply K2.
  apply wp_bind, wp_gets. apply wp_bind.
  apply (wp_emit_op_u8 ((l ++ [op; capture_count s]) ++ f)); [done|inv_elem Hop2; by vm_compute|lia|].
  intros b3 T3 B3. apply wp_bind. destruct K12 as (Ep & Ee & Eu & Ec & T12).
  pose proof Hi2 as ([Hpat2 Hu2] & Hr2 & _).
  apply wp_expect; [done|done|done|done|]. intros Hlt. apply wp_ret. cbn in Hlt.
  split; [|split; [lia|right; split; [intros E; apply Hst; bchain|done]]].
  split; [exact Hi2|]. split; [split_and!; [done..|bchain]|].
  exists md, ([op; capture_count s] ++ f ++ [op2; capture_count s]). split; [|bsame B3].
  pose proof (frag_md_nonneg _ _ _ Hf). cbn [capture_count set_byte_code].
  replace md with (Z.max 0 (Z.max md 0)) by lia.
  apply frag_app; [|apply frag_app; [done|]]; apply frag_plain, plain_save; done || lia.
Qed.

Lemma term_named_capture_ok n disj p p0 bwd l s :
  disj_ok n disj -> inv s -> bhas (byte_code s) l -> 0 <= p0 < p -> p <= buf_end s ->
  buf_end s - p < n -> wp (term_named_capture disj p bwd) (atom_post l p0 s) s.
Proof.
  intros Hd Hi Hb Hp Hpe Hn. apply wp_bind, (wp_parse_tmp_name _ 0); [done|lia|].
  intros r u' p1 Hu' Hr. set (s1 := set_u u' s).
  assert (Hi1 : inv s1). { destruct Hi as ([? ?] & ?). by split. }
  destruct (Z.eqb_spec r 0) as [->|]; cbn [negb]; [|by apply wp_error].
  destruct Hr as [?|[_ Hp1]]; [done|].
  apply wp_bind, (wp_find_tmp_name 0); [done|]. intros i _.
  destruct (i >? 0); [by apply wp_error|]. apply wp_bind, wp_state.
  destruct (tmp_strlen _ Hu') as (len & Hlen & Hlr). apply wp_bind, (wp_lift _ len); [done|].
  destruct (strlen_split _ _ Hlen) as (t & rest & Eu & Ht & Hnz).
  apply wp_bind, (wp_lift _ (t ++ [0])).
  { cbn. rewrite Eu, zslice_is_Some by zlen_lia. change (Z.to_nat 0) with 0%nat. rewrite drop_0.
    rewrite <- Ht. f_equal. change (t ++ 0 :: rest) with (t ++ [0] ++ rest).
    rewrite app_assoc. apply take_app_length'. unfold zlen. rewrite length_app. cbn. lia. }
  apply wp_bind, (wp_group_names_put t 0); [done|done|change TMP_BUF_SIZE with 128 in *; lia|].
  intros b s2 Hi2. apply wp_bind, wp_modify.
  eapply wp_mono; [apply (term_capture_ok n disj p1 p0 bwd l)|].
  { done. } { exact Hi2. } { exact Hb. } { lia. } { cbn; lia. } { cbn. lia. }
  intros q s3. apply atom_post_from; [solve_kept|done].
Qed.

Lemma term_group_ok n disj p bwd l s :
  disj_ok n disj -> inv s -> bhas (byte_code s) l -> 0 <= p < buf_end s ->
  buf_end s - p <= n -> wp (term_group disj p bwd) (atom_post l p s) s.
Proof.
  intros Hd Hi Hb Hp Hn. pose proof (inv_pat _ _ Hi) as Hpat. pose proof (inv_tmp _ _ Hi) as Hu.
  apply wp_bind. eapply wp_reads; [apply reads_rd; [done|lia]|]. intros x (E & R & Hx).
  destruct (Z.eqb_spec x 63) as [->|].
  - assert (p + 1 < buf_end s) by by apply Hx.
    apply wp_bind. eapply wp_reads; [apply reads_rd; [done|lia]|]. intros x2 (E2 & R2 & Hx2).
    destruct (Z.eqb_spec x2 58) as [->|].
    { assert (p + 2 < buf_end s) by by apply Hx2.
      apply wp_bind, (wp_atom_start l); [done|]. intros start Hst. apply wp_bind.
      apply (group_body_ok n disj (p + 3) bwd l); [done..|lia|lia|]. intros s' p' He Hp'.
      apply wp_ret. split; [done|]. split; [lia|]. right. split; [|done].
      destruct He as (_ & (_ & _ & _ & _ & T) & _). auto. }
    destruct ((x2 =? 61) || (x2 =? 33)) eqn:El.
    { assert (p + 2 < buf_end s) by (apply Hx2; intros ->; done).
      by apply (term_lookahead_ok n); [done..|lia|lia|lia]. }
    destruct (Z.eqb_spec x2 60) as [->|]; [|by apply wp_error].
    assert (p + 2 < buf_end s) by by apply Hx2.
    apply wp_bind. eapply wp_reads; [apply reads_rd; [done|lia]|]. intros x3 (E3 & R3 & Hx3).
    destruct ((x3 =? 61) || (x3 =? 33)) eqn:El3.
    { assert (p + 3 < buf_end s) by (apply Hx3; intros ->; done).
      by apply (term_lookahead_ok n); [done..|lia|lia|lia]. }
    by apply (term_named_capture_ok n); [done..|lia|lia|lia].
  - apply wp_bind, (wp_group_names_put [] 0); [done|done|done|]. intros b s2 Hi2.
    eapply wp_mono; [apply (term_capture_ok n disj (p + 1) p bwd l)|].
    { done. } { exact Hi2. } { exact Hb. } { lia. } { cbn; lia. } { cbn. lia. }
    intros q s3. apply atom_post_from; [solve_kept|done].
Qed.

Lemma re_parse_atom_ok n disj bwd l s :
  disj_ok n disj -> inv s -> bhas (byte_code s) l -> buf_ptr s < buf_end s ->
  buf_end s - buf_ptr s <= n ->
  wp (re_parse_atom disj bwd) (atom_post l (buf_ptr s) s) s.
Proof.
  intros Hd Hi Hb Hp Hn. pose proof (inv_pat _ _ Hi) as Hpat.
  pose proof Hi as (_ & Hr & _). apply wp_bind, wp_gets. apply wp_bind.
  eapply wp_reads; [apply reads_rd; [done|lia]|]. intros c (E & R & Hc).
  destruct (c =? 94); [apply term_assertion_ok; [done|done|lia|in_list]|].
  destruct (c =? 36); [apply term_assertion_ok; [done|done|lia|in_list]|].
  destruct (c =? 46); [by apply term_dot_ok; [| |lia]|].
  destruct (c =? 123); [by apply term_brace_ok; [| |lia]|].
  destruct (_ || _); [by apply wp_nothing_to_repeat|].
  destruct (c =? 40); [by apply (term_group_ok n); [| | |lia|]|].
  destruct (c =? 92); [by apply term_escape_ok; [| |lia]|].
  destruct (c =? 91); [by apply term_class_ok; [| |lia]|].
  assert (Hcl := term_class_atom_ok (buf_ptr s) bwd l s Hi Hb ltac:(lia)).
  destruct (_ || _); [|done]. apply wp_bind, wp_state.
  destruct (is_utf16 s); [by apply wp_error, Hi|done].
Qed.

(** ** Quantifiers and terms *)

Lemma parse_quant_ok p s :
  lexical s -> 0 <= p <= buf_end s ->
  reads (parse_quant p) s (fun r => p <= r.2 <= buf_end s).
Proof.
  intros [Hpat Hu] Hp.
  eapply reads_bind; [by apply reads_gets with (R := fun y => y = s)|]. intros ? ->.
  rd_step c E R Hc.
  destruct (Z.eqb_spec c 42) as [->|]; [apply reads_ret; cbn; lia|].
  destruct (Z.eqb_spec c 43) as [->|]; [apply reads_ret; cbn; lia|].
  destruct (Z.eqb_spec c 63) as [->|]; [apply reads_ret; cbn; lia|].
  destruct (Z.eqb_spec c 123) as [->|]; [|apply reads_ret; cbn; lia].
  rd_step x E1 R1 Hx. destruct (is_digit x); cbn [negb].
  2:{ destruct (is_utf16 s); [by apply reads_error|apply reads_ret; cbn; lia]. }
  destruct (parse_digits_ok _ _ (p + 1) true Hpat) as (qmin & p1 & Ed & Hp1 & _); [lia|].
  eapply reads_bind; [by apply (reads_lift _ (qmin, p1) _ (fun y => y = (qmin, p1)))|]. intros ? ->.
  rd_step x1 E2 R2 Hx1.
  eapply (reads_bind _ _ (fun r => p1 <= r.2 <= buf_end s)).
  { destruct (Z.eqb_spec x1 44) as [->|]; [|apply reads_ret; cbn; lia].
    rd_step y Ey Ry Hy. destruct (is_digit y); [|apply reads_ret; cbn; lia].
    destruct (parse_digits_ok _ _ (p1 + 1) true Hpat) as (m & p2 & Em & Hp2 & _); [lia|].
    eapply reads_bind; [by apply (reads_lift _ (m, p2) _ (fun y => y = (m, p2)))|]. intros ? ->.
    destruct (m <? qmin); [by apply reads_error|]. apply reads_ret. cbn. lia. }
  intros [qmax p2] Hp2. cbn in Hp2. rd_step x2 E3 R3 Hx2.
  destruct (_ && _); [apply reads_ret; cbn; lia|].
  apply wp_bind, wp_expect; [done|done|lia|done|]. intros Hlt. apply reads_ret. cbn. lia.
Qed.

Lemma re_parse_quantifier_ok p start lcc l f md s Q :
  inv s -> bhas (byte_code s) (l ++ f) -> frag (capture_count s) md f ->
  (error (byte_code s) = false -> start = zlen l) -> 0 <= lcc < 256 -> 0 <= p <= buf_end s ->
  (forall b f' md' p', bto (byte_code s) b -> frag (capture_count s) md' f' -> bhas b (l ++ f') ->
    p <= p' <= buf_end s -> Q p' (set_byte_code b s)) ->
  wp (re_parse_quantifier p start lcc) Q s.
Proof.
  intros Hi Hb Hf Hst Hlcc Hp HQ. pose proof Hi as (Hlex & _ & Hcc & _).
  apply wp_bind. eapply wp_reads; [by apply parse_quant_ok|]. intros [q p1] Hp1. cbn in Hp1.
  destruct q as [[qmin qmax]|].
  2:{ apply wp_ret. rewrite <- (set_byte_code_id s).
      apply (HQ _ f md); [apply bto_refl|done..]. }
  apply wp_bind. eapply wp_reads; [apply reads_rd; [apply Hlex|lia]|]. intros x (E & R & Hx).
  assert (exists (greedy : bool) p2, (if x =? 63 then (false, p1 + 1) else (true, p1)) = (greedy, p2) /\
    (p1 <= p2 <= buf_end s)) as (greedy & p2 & -> & Hp2).
  { destruct (Z.eqb_spec x 63) as [->|]; eexists _, _; (split; [reflexivity|]); [|lia].
    specialize (Hx ltac:(done)). lia. }
  apply wp_bind, (emit_quant_ok l f md); [done..|apply Hlex|]. intros b f' md' T Hf' B.
  apply wp_ret. apply (HQ b f' md'); [done..|lia].
Qed.

Lemma re_parse_term_ok n disj bwd l s :
  disj_ok n disj -> inv s -> bhas (byte_code s) l -> buf_ptr s < buf_end s ->
  buf_end s - buf_ptr s <= n ->
  wp (re_parse_term disj bwd) (fun _ s' => emitted l s s' /\ buf_ptr s < buf_ptr s') s.
Proof.
  intros Hd Hi Hb Hp Hn. apply wp_bind.
  eapply wp_mono; [by apply (re_parse_atom_ok n disj bwd l)|].
  intros [[p start] cc] s1 (He & Hpr & Hst). pose proof He as (Hi1 & K1 & md & f & Hf & B1).
  pose proof Hi as (_ & Hptr & Hcc & _). rewrite capture_max in Hcc.
  assert (Hend : buf_end s1 = buf_end s) by apply K1.
  apply wp_bind. apply (wp_mono _ (fun p' s' => emitted l s s' /\ p <= p' <= buf_end s')).
  - rewrite Z.geb_leb. destruct (Z.leb_spec 0 start); [|apply wp_ret; split; [done|lia]].
    destruct Hst as [->|[Hst ->]]; [lia|].
    eapply (re_parse_quantifier_ok p start _ l f md); [done|done|done|done|lia|lia|].
    intros b f' md' p' T Hf' B Hp'. split; [|cbn; lia].
    eapply emitted_from; [exact K1|]. by eapply emitted_code.
  - intros p' s2 [He2 Hp'] . apply wp_modify.
    assert (Hend2 : buf_end s2 = buf_end s) by apply He2.
    split; [|cbn; lia]. destruct He2 as (Hi2 & K2 & Hf2). split; [|split; [|exact Hf2]].
    + apply inv_set_ptr; [done|lia].
    + exact K2.
Qed.

(** ** Alternatives *)

Lemma dbuf_realloc_effect b l n :
  bhas b l ->
  let '(b', r) := dbuf_realloc b n in
  bto b b' /\ bhas b' l /\
  (error b' = false -> r = 0 -> n <= allocated_size b').
Proof.
  intros Hb. destruct (error b) eqn:E.
  - pose proof (realloc_sticky b n E) as Hs. destruct (dbuf_realloc b n) as [b' r]. cbn in Hs.
    unfold bto, bhas. rewrite Hs. done.
  - destruct (dbuf_realloc b n) as [b' r] eqn:Er. destruct (Hb E) as [Hwf <-].
    destruct (dbuf_realloc_spec b n b' r Hwf Er) as (Hwf' & _ & Hc & Hcase).
    split; [by unfold bto|]. split; [by intros _|]. intros He Hr.
    destruct Hcase as [(_ & ? & _)|(-> & _)]; done.
Qed.

(** The two moves of the bytes: the terms [g f] over the room [h], then the term over the
    place it leaves. *)
Lemma move_term (l g f h rest : list Z) :
  zlen h = zlen f ->
  (a ← zslice ((l ++ g ++ f) ++ h ++ rest) (zlen l) (zlen (l ++ g ++ f) - zlen l);
   b1 ← zblit ((l ++ g ++ f) ++ h ++ rest) (zlen l + zlen f) a;
   t ← zslice b1 (zlen (l ++ g ++ f)) (zlen f);
   zblit b1 (zlen l) t) = Some (l ++ f ++ (g ++ f) ++ rest).
Proof.
  intros Hh. pose proof (zlen_nonneg l). pose proof (zlen_nonneg f). pose proof (zlen_nonneg g).
  assert (zslice ((l ++ g ++ f) ++ h ++ rest) (zlen l) (zlen (l ++ g ++ f) - zlen l)
    = Some (g ++ f)) as ->.
  { rewrite zslice_is_Some by zlen_lia. f_equal. rewrite <- app_assoc. unfold zlen.
    rewrite Nat2Z.id, drop_app_length. apply take_app_length'. rewrite !length_app. lia. }
  cbn [mbind option_bind].
  assert (exists h', zblit ((l ++ g ++ f) ++ h ++ rest) (zlen l + zlen f) (g ++ f)
    = Some (l ++ h' ++ (g ++ f) ++ rest) /\ zlen h' = zlen f) as (h' & -> & Hh').
  { destruct (zlen_split (g ++ f ++ h) (zlen f) (zlen g + zlen f)) as (h1 & h2 & E & Hh1 & Hh2);
      [zlen_lia|lia|lia|].
    exists h1. split; [|done].
    replace ((l ++ g ++ f) ++ h ++ rest) with ((l ++ h1) ++ h2 ++ rest)
      by (rewrite <- (app_assoc l h1), (app_assoc h1 h2), <- E; applist).
    replace (zlen l + zlen f) with (zlen (l ++ h1)) by zlen_lia.
    rewrite zblit_app by zlen_lia. f_equal. applist. }
  cbn [mbind option_bind].
  assert (zslice (l ++ h' ++ (g ++ f) ++ rest) (zlen (l ++ g ++ f)) (zlen f) = Some f) as ->.
  { rewrite zslice_is_Some by zlen_lia. f_equal.
    replace (l ++ h' ++ (g ++ f) ++ rest) with ((l ++ h' ++ g) ++ f ++ rest) by applist.
    rewrite drop_app_length' by (unfold zlen in *; rewrite !length_app in *; lia).
    apply take_app_length'. unfold zlen. lia. }
  cbn [mbind option_bind]. by rewrite zblit_app.
Qed.

(** The moves in a buffer with enough room. *)
Lemma move_term_effect b l g f :
  error b = false -> bhas b (l ++ g ++ f) -> zlen (l ++ g ++ f) + zlen f <= allocated_size b ->
  exists b', (a ← zslice (buf b) (zlen l) (zlen (l ++ g ++ f) - zlen l);
   b1 ← zblit (buf b) (zlen l + zlen f) a;
   t ← zslice b1 (zlen (l ++ g ++ f)) (zlen f);
   zblit b1 (zlen l) t) = Some b' /\ bhas (set_buf b b' (size b)) (l ++ f ++ g).
Proof.
  intros E Hb Hal. destruct (Hb E) as [Hwf Hc]. pose proof (content_buf _ Hwf) as Hbuf.
  rewrite Hc in Hbuf. pose proof (zlen_content _ Hwf) as Hzc. rewrite Hc in Hzc.
  pose proof Hwf as (Hlen & Hs1 & Hs2). set (rest := drop _ (buf b)) in Hbuf. clearbody rest.
  pose proof (f_equal zlen Hbuf) as Hz. rewrite zlen_app in Hz.
  destruct (zlen_split rest (zlen f) (zlen rest - zlen f)) as (h & rest' & -> & Hh & _);
    [lia|zlen_lia|lia|].
  rewrite Hbuf, move_term by done. eexists. split; [done|]. intros _. split.
  - split_and!; cbn [buf size allocated_size set_buf]; [|lia..].
    rewrite <- Hlen, Hbuf. autorewrite with zlen. lia.
  - unfold content. cbn [buf size set_buf].
    replace (l ++ f ++ (g ++ f) ++ rest') with ((l ++ f ++ g) ++ f ++ rest') by applist.
    apply take_app_length'. rewrite <- Hzc. unfold zlen. rewrite !length_app. lia.
Qed.

(** The term [f] moves before the terms [g]. *)
Lemma reverse_term_ok l g f start term_start Q s :
  bhas (byte_code s) (l ++ g ++ f) -> tmp_ok (u s) ->
  (error (byte_code s) = false -> start = zlen l) ->
  (error (byte_code s) = false -> term_start = zlen (l ++ g)) ->
  (forall b, bto (byte_code s) b -> bhas b (l ++ f ++ g) -> Q tt (set_byte_code b s)) ->
  wp (reverse_term start term_start) Q s.
Proof.
  intros Hb Hu Hst Htm HQ. apply wp_bind, wp_gets. cbv zeta. apply wp_bind.
  set (end_ := size (byte_code s)). set (term_size := end_ - term_start).
  assert (Hend : error (byte_code s) = false -> end_ = zlen (l ++ g ++ f))
    by (intros E; by apply bhas_size).
  assert (Hsz : error (byte_code s) = false -> term_size = zlen f).
  { intros E. subst term_size. rewrite Hend, Htm by done. zlen_lia. }
  clearbody term_size end_. unfold wp at 1, emit_ret.
  pose proof (dbuf_realloc_effect (byte_code s) _ (end_ + term_size) Hb) as Hr.
  destruct (dbuf_realloc (byte_code s) (end_ + term_size)) as [b1 r].
  destruct Hr as (T1 & B1 & Hal). apply wp_if; intros Er; [by apply wp_fail|].
  zify_bools. subst r. apply (wp_emit_effect _ (l ++ f ++ g)).
  2:{ intros b T B. apply HQ; [bchain|done]. }
  unfold buf_effect. cbn [byte_code set_byte_code]. destruct (error b1) eqn:E1.
  { destruct (_ ≫= _) as [[b' r']|] eqn:Eb; [|done].
    repeat (inv_bind Eb). injection Eb as <- <-. unfold bto, bhas. cbn. by rewrite E1. }
  specialize (T1 E1). rewrite (Hst T1) in *. rewrite (Hend T1), (Hsz T1) in *.
  destruct (move_term_effect b1 l g f E1 B1) as (b' & Hmove & Hb'); [by apply Hal|].
  repeat (inv_bind Hmove; cbn [mbind option_bind]). rewrite Hmove. cbn [mbind option_bind].
  split; [by intros _|]. split; [done|by left].
Qed.

(** The progress of a function that parses a sequence from [s0]; [l] is the byte code
    before it. *)
Definition progress (l : list Z) (s0 s s' : REParseState) : Prop :=
  emitted l s0 s' /\ buf_ptr s <= buf_ptr s'.

Lemma re_parse_alternative_loop_ok n disj start bwd l s0 fuel s md g :
  disj_ok n disj -> inv s -> kept s0 s -> bhas (byte_code s) (l ++ g) ->
  frag (capture_count s) md g -> (error (byte_code s) = false -> start = zlen l) ->
  buf_end s - buf_ptr s <= n -> buf_end s - buf_ptr s < Z.of_nat fuel ->
  wp (re_parse_alternative_loop fuel disj start bwd) (fun _ s' => progress l s0 s s') s.
Proof.
  intros Hd. revert s md g. induction fuel as [|fuel IH]; intros s md g Hi K Hb Hg Hst Hn Hf.
  { destruct Hi as (_ & ? & _). lia. }
  cbn [re_parse_alternative_loop]. apply wp_bind, wp_state. rewrite Z.geb_leb.
  assert (progress l s0 s s) as Hdone.
  { split; [|done]. split; [done|]. split; [done|]. by exists md, g. }
  pose proof Hi as ([Hpat Hu] & Hptr & _).
  destruct (Z.leb_spec (buf_end s) (buf_ptr s)); [by apply wp_ret|].
  apply wp_bind. eapply wp_reads; [apply reads_rd; [done|lia]|]. intros c (E & R & Hc).
  destruct (_ || _); [by apply wp_ret|].
  apply wp_bind, wp_gets. apply wp_bind.
  assert (Hts : error (byte_code s) = false -> size (byte_code s) = zlen (l ++ g)).
  { intros Er. by apply bhas_size. }
  eapply wp_mono; [by apply (re_parse_term_ok n disj bwd (l ++ g))|].
  intros _ s1 [(Hi1 & K1 & md1 & f & Hf1 & B1) Hp1].
  pose proof K1 as (_ & Ee & _ & Ecc & T1).
  apply wp_bind. apply (wp_mono _ (fun _ s2 => exists b g', s2 = set_byte_code b s1 /\
    bto (byte_code s1) b /\ bhas b (l ++ g') /\ frag (capture_count s1) (Z.max md md1) g')).
  { destruct bwd; cbn [when].
    - apply (reverse_term_ok l g f); [bsame B1|apply Hi1|intros; apply Hst; bchain|
        intros; apply Hts; bchain|].
      intros b T B. exists b, (f ++ g). split; [done|]. split; [done|]. split; [done|].
      rewrite Z.max_comm. apply frag_app; [done|]. by eapply frag_mono.
    - apply wp_ret. exists (byte_code s1), (g ++ f). split; [by rewrite set_byte_code_id|].
      split; [apply bto_refl|]. split; [bsame B1|]. apply frag_app; [by eapply frag_mono|done]. }
  intros _ s2 (b & g' & -> & T2 & B2 & Hg').
  eapply wp_mono; [eapply (IH (set_byte_code b s1) _ g'); [done| |done|exact Hg'| |cbn; lia|cbn; lia]|].
  - eapply kept_trans; [exact K|]. eapply kept_trans; [exact K1|]. solve_kept.
  - intros Er. apply Hst. bchain.
  - intros _ s3 [He Hp3]. cbn in Hp3. split; [done|lia].
Qed.

Lemma re_parse_alternative_ok n disj bwd l s :
  disj_ok n disj -> inv s -> bhas (byte_code s) l -> buf_end s - buf_ptr s <= n ->
  wp (re_parse_alternative disj bwd) (fun _ s' => progress l s s s') s.
Proof.
  intros Hd Hi Hb Hn. apply wp_bind, wp_gets. apply wp_bind, wp_state.
  apply (re_parse_alternative_loop_ok n disj _ bwd l s _ s 0 []); try done.
  - apply kept_refl.
  - by rewrite app_nil_r.
  - constructor.
  - by apply bhas_size.
  - destruct Hi as ([[Hl _ _] _] & ? & _). unfold zlen in Hl. lia.
Qed.

(** ** Disjunctions *)

Lemma re_parse_bars_ok n disj start bwd l s0 fuel s md a :
  disj_ok n disj -> inv s -> kept s0 s -> bhas (byte_code s) (l ++ a) ->
  frag (capture_count s) md a -> (error (byte_code s) = false -> start = zlen l) ->
  buf_end s - buf_ptr s <= n -> buf_end s - buf_ptr s < Z.of_nat fuel ->
  wp (re_parse_bars fuel disj start bwd) (fun _ s' => progress l s0 s s') s.
Proof.
  intros Hd. revert s md a. induction fuel as [|fuel IH]; intros s md a Hi K Hb Ha Hst Hn Hf.
  { destruct Hi as (_ & ? & _). lia. }
  pose proof Hi as ([Hpat Hu] & Hptr & _). cbn [re_parse_bars]. apply wp_bind, wp_gets, wp_bind.
  eapply wp_reads; [apply reads_rd; [done|lia]|]. intros c (E & R & Hc).
  destruct (Z.eqb_spec c 124) as [->|].
  2:{ apply wp_ret. split; [|done]. split; [done|]. split; [done|]. by exists md, a. }
  specialize (Hc ltac:(done)). apply wp_bind, wp_modify. set (s1 := set_buf_ptr _ s).
  apply wp_bind, wp_gets. cbv zeta.
  assert (Hlen : error (byte_code s) = false -> size (byte_code s) - start = zlen a).
  { intros Er. rewrite (bhas_size _ _ Hb Er), Hst by done. zlen_lia. }
  change (size (byte_code s1)) with (size (byte_code s)).
  set (len := size (byte_code s) - start) in *. clearbody len.
  apply (wp_insert_op32_then l a); [done|done|by vm_compute|done|]. intros b3 T3 B3.
  set (sp := REOP_split_next_first :: le_bytes 4 (len + 5)).
  apply wp_bind, (wp_emit_op_u32 (l ++ sp ++ a)); [bsame B3|done|]. intros b4 pos T4 B4 Hpos.
  apply wp_bind. set (s4 := set_byte_code b4 _).
  assert (T04 : bto (byte_code s) b4) by bchain.
  eapply wp_mono; [apply (re_parse_alternative_ok n disj bwd
    ((l ++ sp ++ a) ++ REOP_goto :: le_bytes 4 0) s4)|].
  { done. } { by apply inv_set_ptr; [|lia]. } { done. } { cbn. lia. }
  intros _ s5 [(Hi5 & K5 & md5 & b & Hb5 & B5) Hp5]. cbn in Hp5.
  pose proof K5 as (Ep5 & Ee5 & Eu5 & Ecc5 & T5). cbn in Ep5, Ee5, Eu5, Ecc5, T5.
  apply wp_bind, wp_gets. apply wp_bind.
  assert (Hsz : error (byte_code s5) = false -> size (byte_code s5) - (pos + 4) = zlen b).
  { intros Er. rewrite (bhas_size _ _ B5 Er), Hpos by bchain. zlen_lia. }
  apply (wp_poke_u32 ((l ++ sp ++ a) ++ [REOP_goto]) (le_bytes 4 0) b); [bsame B5| |done|].
  { intros Er. rewrite Hpos by bchain. zlen_lia. }
  intros b6 T6 B6.
  eapply wp_mono; [eapply (IH (set_byte_code b6 s5) _
    ((REOP_split_next_first :: jmp (zlen a + 5)) ++ a ++ (REOP_goto :: jmp (zlen b)) ++ b))|].
  - exact Hi5.
  - eapply kept_trans; [exact K|]. split_and!; [done..|bchain].
  - intros Er. destruct (B6 Er) as [Hwf Hcont]. split; [done|].
    cbn [byte_code set_byte_code]. rewrite Hcont. subst sp.
    rewrite Hlen, Hsz by bchain. applist.
  - apply frag_alt; [|exact Hb5]. cbn. by eapply frag_mono.
  - intros Er. apply Hst. bchain.
  - cbn. lia.
  - cbn. lia.
  - intros _ s7 [He Hp7]. cbn in Hp7. split; [done|lia].
Qed.

Lemma re_parse_disjunction_ok fuel depth : disj_ok (Z.of_nat fuel) (re_parse_disjunction fuel depth).
Proof.
  revert depth. induction fuel as [|fuel IH]; intros depth s l bwd Hi Hb Hn.
  { destruct Hi as (_ & ? & _). lia. }
  cbn [re_parse_disjunction]. destruct (lre_check_stack_overflow depth); [by apply wp_error, Hi|].
  apply wp_bind, wp_gets. apply wp_bind.
  assert (Hst := bhas_size _ _ Hb). set (start := size (byte_code s)) in *. clearbody start.
  eapply wp_mono; [apply (re_parse_alternative_ok (Z.of_nat fuel) _ bwd l s (IH (S depth)) Hi Hb); lia|].
  intros _ s1 [(Hi1 & K1 & md & a & Ha & B1) Hp1]. pose proof K1 as (_ & Ee & _ & _ & T1).
  apply wp_bind, wp_state.
  eapply wp_mono; [eapply (re_parse_bars_ok (Z.of_nat fuel) _ start bwd l s _ s1 md a (IH (S depth)) Hi1 K1 B1 Ha)|].
  - intros Er. apply Hst. bchain.
  - lia.
  - destruct Hi1 as ([[Hl _ _] _] & ? & _). unfold zlen in Hl. lia.
  - intros _ s2 [He Hp2]. split; [done|lia].
Qed.
End parser.
