(* ===== verification/ReSafe.v ===== *)
(** * Compilation and execution of regular expressions are safe

    [lre_compile] produces well formed byte code ([bytecode]), and [lre_exec] on well
    formed byte code stays inside the input, the captures, the stack and the code. *)

From Stdlib Require Import Ascii String.
From S2P Require Import Prelude CStr Bytes DynBuf Utf8 CharRange ReOpcode ReCode RePoints.
From S2P Require Import ReState UnicodeInst ReLex ReClass ReParse ReExec ReExecSafe.
From S2P Require Import ReLexSafe ReHoare ReClassSafe ReQuantSafe ReParseSafe.

(** ** Compiled byte code *)

(** [bc_buf] holds [plen] bytes: a header for [cc] captures and [md] cells of stack, then
    structured code, then perhaps the names of the groups. *)
Record bytecode (bc_buf : list Z) (plen cc md : Z) (c : list Z) : Prop := {
  bytecode_code : code_at bc_buf RE_HEADER_LEN c;
  bytecode_frag : exists f, c = f ++ [REOP_match] /\ frag cc md f;
  bytecode_flags : is_Some (znth bc_buf RE_HEADER_FLAGS);
  bytecode_captures : znth bc_buf RE_HEADER_CAPTURE_COUNT = Some cc /\ 1 <= cc <= CAPTURE_COUNT_MAX;
  bytecode_stack : znth bc_buf RE_HEADER_STACK_SIZE = Some md /\ 0 <= md <= STACK_SIZE_MAX;
  bytecode_len : get_u32 bc_buf 3 = Some (u32 (zlen c));
  bytecode_plen : RE_HEADER_LEN + zlen c <= plen <= zlen bc_buf
}.

(** The bytes of the header in front of [c]. *)
Lemma bytecode_intro bc_buf plen fl cc md c names rest :
  bc_buf = ([fl; cc; md] ++ le_bytes 4 (zlen c) ++ c ++ names) ++ rest ->
  plen = zlen ([fl; cc; md] ++ le_bytes 4 (zlen c) ++ c ++ names) ->
  (exists f, c = f ++ [REOP_match] /\ frag cc md f) ->
  1 <= cc <= CAPTURE_COUNT_MAX -> md <= STACK_SIZE_MAX ->
  bytecode bc_buf plen cc md c.
Proof.
  intros -> -> Hf Hcc Hmd. pose proof Hf as (f & -> & Hfr). pose proof (frag_md_nonneg _ _ _ Hfr).
  split; try done.
  - exists ([fl; cc; md] ++ le_bytes 4 (zlen (f ++ [REOP_match]))), (names ++ rest).
    split; [applist|]. autorewrite with zlen. done.
  - change 3 with (zlen [fl; cc; md]). rewrite <- !app_assoc. apply get_u32_app.
  - autorewrite with zlen. change RE_HEADER_LEN with 7. zlen_lia.
Qed.

Section compile.
Context `{AllocatorOk} {U : UnicodeDb} {HU : UnicodeDbOk U} {Host : ReHost}.

(** ** The compiler *)

Lemma inv_init pattern buf_len flags :
  pat_ok pattern buf_len -> 0 <= buf_len -> inv (lre_init pattern buf_len flags).
Proof.
  intros Hp Hl. split; [split; [done|by vm_compute]|]. split; [cbn; lia|].
  rewrite capture_max. split; [cbn; lia|]. split; [cbn; lia|].
  split; [apply dbuf_init_wf|]. exists O. split; [apply names_ok_nil|cbn; lia].
Qed.

(** The search loop of the expressions that are not sticky, and the start of the match. *)
Lemma lre_prologue_ok flags Q s :
  bhas (byte_code s) [] ->
  (forall b pre, bto (byte_code s) b -> bhas b ([u8 flags; 0; 0; 0; 0; 0; 0] ++ pre) ->
    (forall cc, 1 <= cc -> frag cc 0 pre) -> Q tt (set_byte_code b s)) ->
  wp (lre_prologue flags) Q s.
Proof.
  intros Hb HQ. apply wp_bind, (wp_put [] [u8 flags]); [done|done|]. intros b1 T1 B1.
  apply wp_bind, (wp_emit_op [u8 flags] 0); [done|done|]. intros b2 T2 B2.
  apply wp_bind, (wp_emit_op [u8 flags; 0] 0); [done|done|]. intros b3 T3 B3.
  apply wp_bind, (wp_put_u32 [u8 flags; 0; 0]); [done|]. intros b4 T4 B4.
  set (hdr := [u8 flags; 0; 0; 0; 0; 0; 0]) in *. assert (B4' : bhas b4 hdr) by bsame B4.
  apply wp_bind. apply (wp_mono _ (fun _ s' => exists b pre, s' = set_byte_code b s /\ bto b4 b /\
    bhas b (hdr ++ pre) /\ forall cc, frag cc 0 pre)).
  - destruct (negb _); cbn [when].
    2:{ apply wp_ret. exists b4, []. split; [done|]. split; [apply bto_refl|].
        split; [by rewrite app_nil_r|]. intros cc. constructor. }
    apply wp_bind, (wp_emit_op_u32 hdr); [done|done|]. intros b5 p5 T5 B5 _.
    apply wp_bind, (wp_emit_op (hdr ++ REOP_split_goto_first :: le_bytes 4 (1 + 5))); [done|done|].
    intros b6 T6 B6. apply wp_bind.
    apply (wp_emit_op_u32 ((hdr ++ REOP_split_goto_first :: le_bytes 4 (1 + 5)) ++ [REOP_any]));
      [done|done|]. intros b7 p7 T7 B7 _. apply wp_ret.
    exists b7, ((REOP_split_goto_first :: jmp (zlen [REOP_any] + 5)) ++ [REOP_any]
                ++ (REOP_goto :: jmp (- (zlen [REOP_any] + 10)))).
    split; [done|]. split; [bchain|]. split; [bsame B7|].
    intros cc. apply frag_star; [in_list|]. apply frag_plain, plain_op. in_list.
  - intros _ s' (b & pre & -> & T & B & Hpre).
    apply (wp_emit_op_u8 (hdr ++ pre)); [done|done|done|]. intros b8 T8 B8.
    apply (HQ b8 (pre ++ [REOP_save_start; 0])); [bchain|bsame B8|].
    intros cc Hcc. apply frag_app0; [done|]. apply frag_plain, plain_save; [in_list|lia].
Qed.

(** What remains of the epilogue once the header is written: the names of the groups are
    appended, if there is memory. *)
Definition put_names : M unit :=
  s ← gets id;
  when (size (group_names s) >? capture_count s - 1)
    (names ← lift (zslice (buf (group_names s)) 0 (size (group_names s)));
     emit (fun b => dbuf_put b names);;
     flags ← (s ← gets id; lift (znth (buf (byte_code s)) RE_HEADER_FLAGS));
     poke RE_HEADER_FLAGS (Z.lor flags LRE_FLAG_NAMED_GROUPS)).

Lemma put_names_ok fl r s Q :
  inv s -> dbuf_wf (byte_code s) -> content (byte_code s) = fl :: r ->
  (forall b fl' names, dbuf_wf b -> content b = fl' :: r ++ names -> Q tt (set_byte_code b s)) ->
  wp put_names Q s.
Proof.
  intros Hi Hwf Hc HQ. apply wp_bind, wp_state. destruct (_ >? _); cbn [when].
  2:{ apply wp_ret. rewrite <- (set_byte_code_id s). apply (HQ _ fl []); [done|].
      by rewrite app_nil_r. }
  pose proof Hi as (_ & _ & _ & _ & (Hg1 & Hg2 & Hg3) & _).
  set (names := take (Z.to_nat (size (group_names s))) (buf (group_names s))).
  apply wp_bind, (wp_lift _ names).
  { rewrite zslice_is_Some by lia. by rewrite drop_0. }
  apply wp_bind. unfold wp at 1, emit.
  destruct (dbuf_put_spec (byte_code s) names Hwf) as (b & ret & -> & Hwf' & Hr).
  { subst names. zlen_lia. }
  assert (exists ns, content b = fl :: r ++ ns) as [ns Hns].
  { destruct Hr as [(_ & -> & _)|(_ & -> & _)]; rewrite Hc; [by exists names|].
    exists []. by rewrite app_nil_r. }
  pose proof (content_buf b Hwf') as Hbuf. rewrite Hns in Hbuf. cbn [app] in Hbuf.
  apply wp_bind, wp_bind, wp_state, (wp_lift _ fl); [cbn; by rewrite Hbuf|].
  unfold wp, poke, emit. cbn [byte_code set_byte_code]. rewrite Hbuf.
  set (fl' := u8 _). rewrite zupd_is_Some by (change RE_HEADER_FLAGS with 0; zlen_lia).
  cbn [mbind option_bind]. change (Z.to_nat RE_HEADER_FLAGS) with 0%nat. cbn [insert list_insert].
  destruct Hwf' as (H1 & H2 & H3). pose proof (f_equal zlen Hns) as Hz.
  rewrite zlen_content in Hz by done.
  apply (HQ (set_buf b (fl' :: (r ++ ns) ++ drop (Z.to_nat (size b)) (buf b)) (size b)) fl' ns).
  - split_and!; cbn [buf size allocated_size set_buf]; [|lia..]. rewrite <- H1.
    apply (f_equal zlen) in Hbuf. autorewrite with zlen in Hbuf |- *. lia.
  - unfold content. cbn [buf size set_buf].
    change (fl' :: (r ++ ns) ++ drop (Z.to_nat (size b)) (buf b))
      with ((fl' :: r ++ ns) ++ drop (Z.to_nat (size b)) (buf b)).
    apply take_app_length'. rewrite Hz. unfold zlen. cbn [length]. lia.
Qed.

Lemma compute_stack_size_ok cc md f hdr rest :
  zlen hdr = RE_HEADER_LEN -> frag cc md f ->
  compute_stack_size (hdr ++ (f ++ [REOP_match]) ++ rest) (RE_HEADER_LEN + zlen (f ++ [REOP_match]))
  = Some (if md <=? STACK_SIZE_MAX then md else -1).
Proof.
  intros Hh Hf. pose proof (frag_md_nonneg _ _ _ Hf). unfold compute_stack_size.
  rewrite drop_app_length' by (unfold zlen in Hh; lia).
  replace (RE_HEADER_LEN + zlen (f ++ [REOP_match]) - RE_HEADER_LEN)
    with (0 + zlen (f ++ [REOP_match])) by lia.
  assert (dlin cc 0 (f ++ [REOP_match]) 0 md) as Hd.
  { eapply dlin_eq; [eapply dlin_app|..].
    - apply (frag_dlin cc md f 0); done.
    - apply (dlin_one cc 0 [REOP_match] 0); [apply instr_match|lia].
    - done.
    - lia. }
  rewrite (compute_stack_size_loop_spec cc 0 _ 0 md); [|exact Hd|..]; try done.
  - destruct (md <=? STACK_SIZE_MAX); [|done]. f_equal. lia.
  - exists [], rest. done.
  - change RE_HEADER_LEN with 7. zlen_lia.
Qed.

Lemma lre_epilogue_ok fl pre f md s :
  inv s -> bhas (byte_code s) ([fl; 0; 0; 0; 0; 0; 0] ++ pre ++ f) ->
  frag (capture_count s) 0 pre -> frag (capture_count s) md f ->
  wp lre_epilogue (fun _ s' => exists md' c,
    bytecode (buf (byte_code s')) (size (byte_code s')) (capture_count s') md' c) s.
Proof.
  intros Hi Hb Hpre Hf. pose proof Hi as ([Hpat Hu] & Hptr & Hcc & _).
  set (hdr := [fl; 0; 0; 0; 0; 0; 0]) in *.
  apply wp_bind, (wp_emit_op_u8 (hdr ++ pre ++ f)); [done|done|done|]. intros b1 T1 B1.
  apply wp_bind, (wp_emit_op ((hdr ++ pre ++ f) ++ [REOP_save_end; 0])); [done|done|].
  intros b2 T2 B2. set (body := pre ++ f ++ [REOP_save_end; 0]).
  assert (Hbody : frag (capture_count s) md body).
  { pose proof (frag_md_nonneg _ _ _ Hf). replace md with (Z.max 0 (Z.max md 0)) by lia.
    apply frag_app; [done|]. apply frag_app; [done|]. apply frag_plain, plain_save; [in_list|lia]. }
  assert (B2' : bhas b2 (hdr ++ body ++ [REOP_match])) by (subst body; bsame B2).
  clear B2 B1 Hb. apply wp_bind, wp_gets, wp_bind.
  eapply wp_reads; [apply reads_rd; [done|cbn; lia]|]. intros c _.
  destruct (c =? 0); cbn [negb]; [|by apply wp_error].
  apply wp_bind, wp_code_error; intros E2; [by apply wp_error|]. apply wp_bind, wp_state.
  pose proof E2 as E2'. cbn [byte_code set_byte_code] in E2'. destruct (B2' E2') as [Hwf2 Hc2].
  pose proof (bhas_size _ _ B2' E2') as Hsz.
  assert (Hss : compute_stack_size (buf b2) (size b2)
    = Some (if md <=? STACK_SIZE_MAX then md else -1)).
  { rewrite <- (compute_stack_size_ok (capture_count s) md body hdr
      (drop (Z.to_nat (size b2)) (buf b2)) eq_refl Hbody). f_equal.
    - rewrite (content_buf b2 Hwf2) at 1. rewrite Hc2. by rewrite <- app_assoc.
    - by rewrite Hsz, zlen_app. }
  pose proof (frag_md_nonneg _ _ _ Hbody).
  apply wp_bind, (wp_lift _ _ _ _ Hss).
  destruct (Z.leb_spec md STACK_SIZE_MAX) as [Hmd|]; [|by apply wp_error].
  destruct (Z.ltb_spec md 0); [lia|]. change STACK_SIZE_MAX with 255 in Hmd. rewrite capture_max in Hcc.
  cbn [capture_count set_byte_code byte_code size].
  apply wp_bind, (wp_poke_keep [fl] 0 ([0; 0; 0; 0; 0] ++ body ++ [REOP_match])); [bsame B2'|done|lia|].
  intros b3 T3 B3.
  apply wp_bind, (wp_poke_keep [fl; capture_count s] 0 ([0; 0; 0; 0] ++ body ++ [REOP_match]));
    [bsame B3|done|lia|].
  intros b4 T4 B4.
  apply wp_bind, (wp_poke_u32_keep [fl; capture_count s; md] [0; 0; 0; 0] (body ++ [REOP_match]));
    [bsame B4|done|done|].
  intros b5 T5 B5.
  assert (Hlen : size b2 - RE_HEADER_LEN = zlen (body ++ [REOP_match])).
  { rewrite Hsz. autorewrite with zlen. change (zlen hdr) with 7. change RE_HEADER_LEN with 7. lia. }
  rewrite Hlen in B5. destruct B5 as [Hwf5 Hc5]; [cbn [byte_code set_byte_code] in *; congruence|].
  apply (put_names_ok fl ([capture_count s; md] ++ le_bytes 4 (zlen (body ++ [REOP_match]))
    ++ body ++ [REOP_match]) (set_byte_code b5 s)); [exact Hi|done|exact Hc5|].
  intros b fl' names Hwf Hc'. exists md, (body ++ [REOP_match]). cbn [byte_code set_byte_code capture_count].
  apply (bytecode_intro _ _ fl' _ _ _ names (drop (Z.to_nat (size b)) (buf b))).
  - rewrite (content_buf b Hwf) at 1. rewrite Hc'. applist.
  - by rewrite <- (zlen_content b Hwf), Hc'.
  - by exists body.
  - by rewrite capture_max.
  - done.
Qed.

Lemma lre_compile_body_ok fuel pattern buf_len flags :
  pat_ok pattern buf_len -> 0 <= buf_len < Z.of_nat fuel ->
  wp (lre_compile_body fuel flags) (fun _ s' => exists md c,
    bytecode (buf (byte_code s')) (size (byte_code s')) (capture_count s') md c)
    (lre_init pattern buf_len flags).
Proof.
  intros Hpat Hfuel. pose proof (inv_init pattern buf_len flags Hpat ltac:(lia)) as Hi.
  apply wp_bind, lre_prologue_ok; [by split; [apply dbuf_init_wf|]|]. intros b pre T B Hpre.
  apply wp_bind. set (hdr := [u8 flags; 0; 0; 0; 0; 0; 0]) in *.
  eapply wp_mono; [apply (re_parse_disjunction_ok fuel O _ (hdr ++ pre) false); [exact Hi|exact B|]|].
  { cbn. lia. }
  intros _ s1 [(Hi1 & K1 & md & f & Hf & B1) _].
  apply (lre_epilogue_ok (u8 flags) pre f md); [done|bsame B1|apply Hpre, Hi1|done].
Qed.

(** The messages fit in the buffer of the caller. *)
Lemma pstrcpy_loop_ok t r buf q n :
  0 <= q < n -> n <= zlen buf ->
  exists m k, pstrcpy_loop buf q n (t ++ 0 :: r) = Some m /\ k < n /\ znth m k = Some 0.
Proof.
  intros Hq Hn. assert (Hz : forall buf q, 0 <= q < n -> n <= zlen buf ->
    exists m k, zupd buf q 0 = Some m /\ k < n /\ znth m k = Some 0).
  { clear. intros buf q Hq Hn. rewrite zupd_is_Some by lia. eexists _, q. split; [done|].
    split; [lia|]. rewrite znth_lookup by lia. apply list_lookup_insert_eq. unfold zlen in *. lia. }
  revert buf q Hq Hn. induction t as [|c t IH]; intros buf q Hq Hn; cbn [app pstrcpy_loop].
  - cbn. by apply Hz.
  - rewrite Z.geb_leb. destruct ((c =? 0) || (n - 1 <=? q)) eqn:E; [by apply Hz|].
    zify_bools. rewrite zupd_is_Some by lia. cbn [mbind option_bind].
    apply IH; [lia|rewrite zlen_insert; lia].
Qed.

(** [m] holds a string of less than [n] bytes. *)
Definition message_ok (m : list Z) (n : Z) : Prop := exists len, strlen m = Some len /\ 0 <= len < n.

Lemma pstrcpy_tmp_ok buf n u :
  tmp_ok u -> 0 < n <= zlen buf -> exists m, pstrcpy buf n u = Some m /\ message_ok m n.
Proof.
  intros Hu Hn. destruct (tmp_strlen u Hu) as (len & Hl & _).
  destruct (strlen_split _ _ Hl) as (t & r & -> & _ & _). unfold pstrcpy.
  destruct (Z.leb_spec n 0); [lia|].
  destruct (pstrcpy_loop_ok t r buf 0 n) as (m & k & -> & Hk & Hz); [lia..|].
  exists m. split; [done|]. destruct (strlen_zero _ _ Hz) as (len' & ? & ?).
  exists len'. split; [done|lia].
Qed.

End compile.

(** ** The matcher *)

Section exec.
Context {U : UnicodeDb} {HU : UnicodeDbOk U} {HA : StateAlloc}.

(** The first [2 * cc] cells of [caps] are unset or inside an input of [clen] units. *)
Definition captures_ok (cc clen : Z) (caps : list (option Z)) : Prop :=
  2 * cc <= zlen caps /\
  forall i, 0 <= i < 2 * cc ->
    exists p, znth caps i = Some p /\ match p with Some q => 0 <= q <= clen | None => True end.

Lemma clear_captures_ok n i caps :
  0 <= i -> i + Z.of_nat n <= zlen caps ->
  exists caps', clear_captures n i caps = Some caps' /\ zlen caps' = zlen caps /\
    (forall k, k < i -> znth caps' k = znth caps k) /\
    forall k, i <= k < i + Z.of_nat n -> znth caps' k = Some None.
Proof.
  revert i caps. induction n as [|n IH]; intros i caps Hi Hn; cbn [clear_captures].
  { exists caps. split; [done|]. split; [done|]. split; [done|]. lia. }
  rewrite zupd_is_Some by lia. cbn [mbind option_bind].
  destruct (IH (i + 1) (<[Z.to_nat i := None]> caps)) as (c' & -> & Hl & Hlow & Hhigh);
    [lia|rewrite zlen_insert; lia|].
  rewrite zlen_insert in Hl. exists c'. split; [done|]. split; [done|]. split.
  - intros k Hk. rewrite Hlow by lia. apply znth_insert_ne; lia.
  - intros k Hk. destruct (decide (k = i)) as [->|]; [|apply Hhigh; lia].
    rewrite Hlow, znth_lookup by lia. apply list_lookup_insert_eq. unfold zlen in *. lia.
Qed.

Lemma lre_exec_ok fuel caps bc_buf plen cc md c cbuf cbuf_addr cindex clen cbuf_type stack_buf :
  bytecode bc_buf plen cc md c -> plen < 2 ^ 31 ->
  2 * cc <= zlen caps -> zlen stack_buf = md -> zlen cbuf = clen -> 0 <= cindex <= clen ->
  match lre_exec fuel caps bc_buf cbuf cbuf_addr cindex clen cbuf_type stack_buf with
  | Returns _ m | Fails m => captures_ok cc clen (capture m)
  | ExecUndef => False
  | ExecNoFuel => True
  end.
Proof.
  intros [Hcode (f & -> & Hf) [fl Hfl] [Hc Hcc] [Hst Hmd] _ Hlen] Hplen Hcaps Hstack Hbuf Hidx.
  change STACK_SIZE_MAX with 255 in Hmd.
  unfold lre_exec, lre_exec_context. rewrite Hfl, Hc, Hst. cbn [mbind option_bind].
  set (ctx := {| cbuf := cbuf |}). cbn [ctx_capture_count ctx].
  destruct (clear_captures_ok (Z.to_nat (cc * 2)) 0 caps) as (caps' & -> & Hl & _ & Hclear); [lia..|].
  destruct (frag_program _ _ _ Hf) as [P HP].
  assert (Hm : machine_ok ctx bc_buf cc md P {| capture := caps'; stack := stack_buf;
      stack_len := 0; pc := RE_HEADER_LEN; cptr := cindex; state_stack := []; state_stack_size := 0 |}).
  { split; [split; [|split; [done|constructor]]|split; [|done]].
    - split; [cbn; lia|]. intros i Hi. cbn. rewrite Hclear by lia. by exists None.
    - unfold point_ok. cbn [pc stack_len]. rewrite Z.sub_diag. apply HP. }
  assert (Hmax : md <= stack_size_max ctx <= 255) by (subst ctx; cbn; lia).
  assert (Hctx : ctx_capture_count ctx = cc /\ 0 <= cc) by (split; [done|lia]).
  pose proof (lre_exec_backtrack_safe ctx bc_buf cc md (f ++ [REOP_match]) P Hcode HP ltac:(lia)
    Hctx Hmax Hbuf fuel _ Hm) as Hs.
  destruct (lre_exec_backtrack _ _ _ _ _) as [b m|m| |]; try done.
  - destruct Hs as ((Hcl & Hcs) & _). split; [lia|]. intros i Hi.
    destruct (Hcs i Hi) as (p & Hp & Hq). exists p. split; [done|]. by destruct p.
  - destruct Hs as ((Hcl & Hcs) & _). split; [lia|]. intros i Hi.
    destruct (Hcs i Hi) as (p & Hp & Hq). exists p. split; [done|]. by destruct p.
Qed.

(** C2: On well formed byte code the matcher never accesses anything outside the
    input, the captures, the stack or the code, for any number of steps and whatever
    the allocator answers, and the captures it leaves lie inside the input. *)
Theorem lre_exec_safe fuel caps bc_buf plen cc md c cbuf cbuf_addr cindex clen cbuf_type stack_buf :
  bytecode bc_buf plen cc md c -> plen < 2 ^ 31 ->
  2 * cc <= zlen caps -> zlen stack_buf = md -> zlen cbuf = clen -> 0 <= cindex <= clen ->
  match lre_exec fuel caps bc_buf cbuf cbuf_addr cindex clen cbuf_type stack_buf with
  | Returns _ m | Fails m => captures_ok cc clen (capture m)
  | ExecUndef => False
  | ExecNoFuel => True
  end.
Proof. apply lre_exec_ok. Qed.
End exec.

(** The code of a sticky [a]. *)
Definition code_a : list Z := [REOP_save_start; 0; REOP_char; 97; 0; REOP_save_end; 0; REOP_match].
Definition bytecode_a : list Z := [32; 1; 0] ++ le_bytes 4 (zlen code_a) ++ code_a.

Lemma bytecode_a_ok : bytecode bytecode_a 15 1 0 code_a.
Proof.
  apply (bytecode_intro _ _ 32 1 0 code_a [] []); [done|done| |done|done].
  exists ([REOP_save_start; 0] ++ [REOP_char; 97; 0] ++ [REOP_save_end; 0]). split; [done|].
  apply frag_app0; [apply frag_plain, plain_save; [in_list|done]|].
  apply frag_app0; [apply frag_plain, (plain_char _ 97)|].
  apply frag_plain, plain_save; [in_list|done].
Qed.

Lemma lre_exec_safe_witness :
  match @lre_exec unicode_tables (fun _ => true) 10 [Some 7; Some 7] bytecode_a [98; 97] 1000 1 2 0 [] with
  | Returns _ m | Fails m => captures_ok 1 2 (capture m)
  | ExecUndef => False
  | ExecNoFuel => True
  end.
Proof.
  apply (@lre_exec_safe unicode_tables unicode_tables_ok (fun _ => true) 10 [Some 7; Some 7]
    bytecode_a 15 1 0 code_a [98; 97] 1000 1 2 0 []);
    [apply bytecode_a_ok | lia | vm_compute; congruence | reflexivity | reflexivity | lia].
Defined.

(** ** From the pattern to the match *)

Section compile_exec.
Context `{AllocatorOk} {U : UnicodeDb} {HU : UnicodeDbOk U} {Host : ReHost} {HA : StateAlloc}.

End compile_exec.

(** A pattern that ends with its zero. *)
Lemma pat_ok_string (s : string) :
  forallb (fun b => (0 <=? b) && (b <? 0xfd)) (bytes_of s) = true ->
  pat_ok (bytes_of s ++ [0]) (zlen (bytes_of s)).
Proof.
  intros Hb. split.
  - zlen_lia.
  - rewrite znth_app_r by lia. by rewrite Z.sub_diag.
  - apply Forall_app. split; [|by repeat constructor]. rewrite List.Forall_forall.
    rewrite forallb_forall in Hb. intros x Hx. specialize (Hb x Hx). zify_bools. done.
Qed.

Definition compile_string (re : string) (flags : Z) : compile_result :=
  @lre_compile (limit_alloc 4096) unicode_tables deep_stack (S (length (bytes_of re)))
    (replicate 64 0) 64 (bytes_of re ++ [0]) (zlen (bytes_of re)) flags.


