(* ===== verification/ReFindings.v ===== *)
(** * Runs of the regexp engine that differ from what it means to do

    Each theorem evaluates the model of libregexp.c on one pattern.  They document
    defects of the code; the safety theorems of [ReSafe] are stated so that they hold
    beside them. *)

From Stdlib Require Import Ascii String.
From S2P Require Import Prelude CStr Bytes DynBuf CharRange ReOpcode ReState ReParse ReExec.
From S2P Require Import UnicodeInst ReSafe.

(** ** Runs *)

(** [lre_compile] with an allocator that refuses blocks of more than [limit] bytes. *)
Definition compile_limit (limit : Z) (re : list Z) (flags : Z) : compile_result :=
  @lre_compile (limit_alloc limit) unicode_tables deep_stack (S (length re))
    (replicate 64 0) 64 (re ++ [0]) (zlen re) flags.

(** [lre_exec] on 8 bit or 16 bit input with enough memory. *)
Definition exec_bytes (fuel : nat) (bc : list Z) (caps : Z) (input : list Z) (cindex type : Z)
  : exec_result :=
  @lre_exec unicode_tables (fun _ => true) fuel (replicate (Z.to_nat (2 * caps)) None) bc
    input 1000 cindex (zlen input) type (replicate 8 0).

Definition code_of (r : compile_result) : list Z :=
  match r with Compiled bc n _ => take (Z.to_nat n) bc | _ => [] end.

Definition captures_of (r : exec_result) : option (list (option Z)) :=
  match r with Returns true m => Some (capture m) | _ => None end.

(** ** The numbering of named groups *)

(** In [\k<b>(?<a>(x))(?<b>y)] the group [b] is the third one.  The prescan of
    [re_parse_captures] steps over the character after a group name, here the open
    parenthesis of the group nested in [a], and so the forward reference is compiled
    to group 2. *)
Theorem named_group_miscounted :
  let code := code_of (compile_string "\k<b>(?<a>(x))(?<b>y)" 0) in
  znth code RE_HEADER_CAPTURE_COUNT = Some 4 /\
  zslice code 20 2 = Some [REOP_back_reference; 2] /\
  zslice code 33 5 = Some [REOP_save_start; 3; REOP_char; 121; 0].
Proof. vm_compute. done. Qed.

(** Written as a backward reference the same group is number 3. *)
Theorem named_group_counted :
  znth (code_of (compile_string "(?<a>(x))(?<b>y)\k<b>" 0)) 39 = Some 3.
Proof. vm_compute. done. Qed.

(** ** Lazy repetition of an empty atom *)

(** [(?:)*?b] after the first [b] that does not match: the state of the loop is popped,
    the empty atom advances nothing, and the machine is at the head of the loop again.
    The byte code has no test for the progress of the match since it is only emitted
    for greedy quantifiers. *)
Definition lazy_code : list Z := code_of (compile_string "(?:)*?b" LRE_FLAG_STICKY).

Definition lazy_context : REExecContext :=
  mkREExecContext [97] 1000 1 0 1 0 false false false.

Definition lazy_head : REExecMachine :=
  mkREExecMachine [Some 0; None] (replicate 8 0) 0 9 0 [] 8.

Definition lazy_start : REExecMachine :=
  mkREExecMachine [None; None] (replicate 8 0) 0 7 0 [] 0.

Definition lazy_run (fuel : nat) : exec_result :=
  @lre_exec_backtrack unicode_tables (fun _ => true) lazy_context lazy_code fuel lazy_head false.

Definition lazy_step (fuel : nat) (m : REExecMachine) : step_result :=
  @exec_step unicode_tables (fun _ => true) lazy_context lazy_code fuel
    (fun m => @lre_exec_backtrack unicode_tables (fun _ => true) lazy_context lazy_code fuel m true)
    m.

Definition lazy_from (fuel : nat) (m : REExecMachine) : exec_result :=
  @lre_exec_backtrack unicode_tables (fun _ => true) lazy_context lazy_code fuel m false.

Lemma lazy_from_next fuel m m' :
  lazy_step fuel m = Next m' -> lazy_from (S fuel) m = lazy_from fuel m'.
Proof.
  intros E. unfold lazy_from, lazy_step in *. cbn [lre_exec_backtrack]. by rewrite E.
Qed.

Lemma lazy_from_nomatch fuel m m1 m2 :
  lazy_step fuel m = NoMatch m1 -> recurse lazy_context lazy_code (state_stack m1) m1 false = Some (inl m2) ->
  lazy_from (S fuel) m = lazy_from fuel m2.
Proof.
  intros E Er. unfold lazy_from, lazy_step in *. cbn [lre_exec_backtrack]. by rewrite E, Er.
Qed.

Lemma lazy_run_cycle fuel : lazy_run (3 + fuel) = lazy_run fuel.
Proof.
  change (lazy_from (S (S (S fuel))) lazy_head = lazy_from fuel lazy_head).
  erewrite lazy_from_next; [|vm_compute; reflexivity].
  erewrite lazy_from_nomatch; [|vm_compute; reflexivity..].
  erewrite lazy_from_next; [|vm_compute; reflexivity]. done.
Qed.

Lemma lazy_run_stuck fuel : lazy_run fuel = ExecNoFuel.
Proof.
  induction fuel as [fuel IH] using lt_wf_ind.
  destruct fuel as [|[|[|fuel]]]; [vm_compute; done..|].
  change (S (S (S fuel))) with (3 + fuel)%nat. rewrite lazy_run_cycle. apply IH. lia.
Qed.

Lemma lazy_exec fuel : exec_bytes fuel lazy_code 1 [97] 0 0 = lazy_from fuel lazy_start.
Proof.
  unfold exec_bytes, lre_exec.
  replace (lre_exec_context _ _ _ _ _) with (Some lazy_context) by (vm_compute; reflexivity).
  replace (clear_captures _ _ _) with (Some [@None Z; None]) by (vm_compute; reflexivity).
  reflexivity.
Qed.

(** The match of [(?:)*?b] against [a] does not end, however long it runs. *)
Theorem lazy_empty_loop fuel : exec_bytes fuel lazy_code 1 [97] 0 0 = ExecNoFuel.
Proof.
  rewrite lazy_exec. destruct fuel as [|[|[|[|fuel]]]]; [vm_compute; done..|].
  erewrite lazy_from_next; [|vm_compute; reflexivity].
  erewrite lazy_from_next; [|vm_compute; reflexivity].
  erewrite lazy_from_nomatch; [|vm_compute; reflexivity..].
  erewrite lazy_from_next; [|vm_compute; reflexivity]. apply lazy_run_stuck.
Qed.

(** ** A match that starts inside a surrogate pair *)

(** With the flags [UTF16] and [sticky], a match that [lastIndex] starts between the
    two halves of a surrogate pair moves back over the whole pair: the end of the
    match is before its start. *)
Theorem capture_end_before_start :
  captures_of (exec_bytes 100 (code_of (compile_string ".?(?=.)" (LRE_FLAG_UTF16 + LRE_FLAG_STICKY)))
    1 [0xd83d; 0xde00] 1 1) = Some [Some 1; Some 0].
Proof. vm_compute. done. Qed.

(** ** Captures of an earlier iteration *)

(** The captures of a repeated atom are only reset when the minimum count is 0: after
    [(?:(a)|b){3}] has matched [aab] the last iteration took the branch [b], and the
    group still holds the second [a]. *)
Theorem captures_not_reset :
  captures_of (exec_bytes 200 (code_of (compile_string "(?:(a)|b){3}" 0)) 2 [97; 97; 98] 0 0)
  = Some [Some 0; Some 3; Some 1; Some 2].
Proof. vm_compute. done. Qed.

(** ** Failed allocations *)

(** When the [goto] at the end of an alternative cannot be emitted the code writes its
    operand all the same, outside the buffer. *)
Theorem disjunction_writes_after_failure : compile_limit 36 [97; 97; 124; 98] 0 = CompileUndef.
Proof. vm_compute. done. Qed.

(** When the names of the groups cannot be appended the byte code is returned with the
    flag that announces them and no name behind it. *)
Theorem group_names_lost :
  exists bc, compile_limit 95 (replicate 14 97 ++ bytes_of "(?<ab>c)") 0
             = Compiled bc 72 (replicate 64 0) /\
    lre_get_flags bc = Some LRE_FLAG_NAMED_GROUPS /\
    lre_get_groupnames bc = Some (Some (drop 72 bc)).
Proof. eexists. vm_compute. done. Qed.

(** ** Characters beyond 0x3fffffff *)

(** A pattern byte 0xfd starts a sequence of 6 bytes; its code point is taken for the
    mark of a character class, and the class, which was never initialised, is used. *)
Theorem class_mark_collision :
  compile_limit 4096 [0xfd; 0x80; 0x80; 0x80; 0x80; 0x80] LRE_FLAG_UTF16 = CompileUndef.
Proof. vm_compute. done. Qed.
