(* ===== verification/ListHead.v ===== *)
(** * Intrusive doubly linked lists (list.h)

    A [struct list_head] lives inside the structure it links.  The model is a store of list
    heads; an address that is not in the store, or NULL, cannot be followed.  The store
    represents sequences ([is_list]), on which the functions of list.h are insertions and
    removals that leave every other list alone. *)

From stdpp Require Import gmap.
From S2P Require Import Prelude.

Record list_head (K : Type) := mk_list_head { prev : option K; next : option K }.
Arguments mk_list_head {K}.
Arguments prev {K}.
Arguments next {K}.

Abbreviation store K := (gmap K (list_head K)).

Section lists.
Context {K : Type} `{Countable K}.

(** ** Operations *)

Definition get_next (σ : store K) (x : K) : option K := el ← σ !! x; next el.
Definition get_prev (σ : store K) (x : K) : option K := el ← σ !! x; prev el.

(** The assignments [x->next = y] and [x->prev = y]. *)
Definition set_next (σ : store K) (x : K) (y : option K) : option (store K) :=
  el ← σ !! x; Some (<[x := mk_list_head (prev el) y]> σ).
Definition set_prev (σ : store K) (x : K) (y : option K) : option (store K) :=
  el ← σ !! x; Some (<[x := mk_list_head y (next el)]> σ).

Definition init_list_head (σ : store K) (head : K) : option (store K) :=
  σ ← set_prev σ head (Some head);
  set_next σ head (Some head).

(** [__list_add] *)
Definition list_add_between (σ : store K) (el prev next : K) : option (store K) :=
  σ ← set_next σ prev (Some el);
  σ ← set_prev σ el (Some prev);
  σ ← set_next σ el (Some next);
  set_prev σ next (Some el).

Definition list_add (σ : store K) (el head : K) : option (store K) :=
  next ← get_next σ head;
  list_add_between σ el head next.

Definition list_add_tail (σ : store K) (el head : K) : option (store K) :=
  prev ← get_prev σ head;
  list_add_between σ el prev head.

Definition list_del (σ : store K) (el : K) : option (store K) :=
  prev ← get_prev σ el;
  next ← get_next σ el;
  σ ← set_next σ prev (Some next);
  σ ← set_prev σ next (Some prev);
  σ ← set_prev σ el None;
  set_next σ el None.

Definition list_empty (σ : store K) (el : K) : option bool :=
  next ← get_next σ el;
  Some (bool_decide (next = el)).

(** ** The sequence of a list *)

(** From [p], the nodes [l] follow each other and lead to [q]. *)
Fixpoint chain (σ : store K) (p : K) (l : list K) (q : K) : Prop :=
  match l with
  | [] => True
  | x :: l' => σ !! x = Some (mk_list_head (Some p) (Some (hd q l'))) /\ chain σ x l' q
  end.

(** The list at [head] links the nodes [l]. *)
Definition is_list (σ : store K) (head : K) (l : list K) : Prop :=
  NoDup (head :: l) /\
  σ !! head = Some (mk_list_head (Some (List.last l head)) (Some (hd head l))) /\
  chain σ head l head.

Lemma last_cons (x p : K) l : List.last (x :: l) p = List.last l x.
Proof.
  revert x p. induction l as [|y l IH]; intros x p; [done|].
  change (List.last (y :: l) p = List.last (y :: l) x). by rewrite !IH.
Qed.

Lemma last_app (l1 l2 : list K) p : List.last (l1 ++ l2) p = List.last l2 (List.last l1 p).
Proof. revert p. induction l1 as [|x l1 IH]; intros p; cbn [app]; [done|]. by rewrite !last_cons, IH. Qed.

Lemma last_in (l : list K) p : l <> [] -> List.last l p ∈ l.
Proof.
  revert p. induction l as [|x l IH]; intros p; [done|]. intros _. rewrite last_cons.
  destruct l as [|y l]; [by left|]. right. by apply IH.
Qed.

Lemma hd_in (l : list K) q : l <> [] -> hd q l ∈ l.
Proof. destruct l; [done|]. by left. Qed.

Lemma hd_app (l1 l2 : list K) q : hd q (l1 ++ l2) = hd (hd q l2) l1.
Proof. by destruct l1. Qed.

Lemma chain_frame σ σ' p l q : (forall x, x ∈ l -> σ' !! x = σ !! x) -> chain σ p l q -> chain σ' p l q.
Proof.
  revert p. induction l as [|x l IH]; intros p Hf; cbn [chain]; [done|]. intros [Hx Hl].
  rewrite Hf by (by left). split; [done|]. apply IH; [|done]. intros y Hy. apply Hf. by right.
Qed.

Lemma is_list_frame σ σ' head l : (forall x, x ∈ head :: l -> σ' !! x = σ !! x) ->
  is_list σ head l -> is_list σ' head l.
Proof.
  intros Hf (Hn & Hh & Hc). split; [done|]. split.
  - rewrite Hf by (by left). done.
  - eapply chain_frame; [|exact Hc]. intros x Hx. apply Hf. by right.
Qed.

Lemma chain_app σ p l1 l2 q : chain σ p (l1 ++ l2) q <-> chain σ p l1 (hd q l2) /\ chain σ (List.last l1 p) l2 q.
Proof.
  revert p. induction l1 as [|x l1 IH]; intros p; cbn [app chain]; [tauto|].
  rewrite IH, hd_app, last_cons. tauto.
Qed.

Lemma chain_lookup σ p l1 x l2 q : chain σ p (l1 ++ x :: l2) q ->
  σ !! x = Some (mk_list_head (Some (List.last l1 p)) (Some (hd q l2))).
Proof. rewrite chain_app. cbn [chain]. tauto. Qed.

(** The last node of a segment gets another successor, the first another predecessor. *)
Lemma chain_new_next σ σ' p l q n : NoDup l -> chain σ p l q ->
  (forall x h, x ∈ l -> σ !! x = Some h ->
     σ' !! x = Some (mk_list_head (prev h) (if bool_decide (x = List.last l p) then Some n else next h))) ->
  chain σ' p l n.
Proof.
  revert p. induction l as [|x l IH]; intros p; [done|]. intros [Hx Hn]%list.NoDup_cons [Hh Hc] Hf. cbn [chain].
  rewrite last_cons in Hf. rewrite (Hf x _ ltac:(by left) Hh). split.
  - destruct l as [|y l]; [by rewrite bool_decide_eq_true_2|]. rewrite bool_decide_eq_false_2; [done|].
    intros E. apply Hx. rewrite E. by apply last_in.
  - apply IH; [done..|]. intros y h Hy. apply Hf. by right.
Qed.

Lemma chain_new_prev σ σ' p p' l q : NoDup l -> chain σ p l q ->
  (forall x h, x ∈ l -> σ !! x = Some h ->
     σ' !! x = Some (mk_list_head (if bool_decide (x = hd q l) then Some p' else prev h) (next h))) ->
  chain σ' p' l q.
Proof.
  destruct l as [|x l]; [done|]. intros [Hx Hn]%list.NoDup_cons [Hh Hc] Hf. cbn [chain hd] in *.
  rewrite (Hf x _ ltac:(by left) Hh), bool_decide_eq_true_2 by done. split; [done|].
  assert (Hs : forall y h, y ∈ l -> σ !! y = Some h -> σ' !! y = Some h).
  { intros y h Hy E. rewrite (Hf y h ltac:(by right) E), bool_decide_eq_false_2 by (by intros ->). by destruct h. }
  clear Hf Hh Hn Hx. revert x Hc. induction l as [|y l IH]; intros x; [done|]. intros [Hh Hc]. split.
  - apply Hs; [by left|done].
  - apply IH; [|done]. intros z h Hz. apply Hs. by right.
Qed.

(** ** Insertion *)

Lemma list_add_between_lookup σ el p n : is_Some (σ !! el) -> is_Some (σ !! p) -> is_Some (σ !! n) ->
  p <> el -> n <> el ->
  exists σ', list_add_between σ el p n = Some σ' /\
    σ' !! el = Some (mk_list_head (Some p) (Some n)) /\
    (forall x h, x <> el -> σ !! x = Some h -> σ' !! x =
       Some (mk_list_head (if bool_decide (x = n) then Some el else prev h)
                          (if bool_decide (x = p) then Some el else next h))) /\
    (forall x, x <> el -> x <> p -> x <> n -> σ' !! x = σ !! x).
Proof.
  intros [he He] [hp Hp] [hn Hn] Hpe Hne. unfold list_add_between, set_next, set_prev.
  rewrite Hp. cbn [mbind option_bind]. rewrite lookup_insert_ne, He by done. cbn [mbind option_bind].
  rewrite lookup_insert_eq. cbn [mbind option_bind].
  assert (Hn' : <[el := mk_list_head (Some p) (Some n)]>
    (<[el := mk_list_head (Some p) (next he)]> (<[p := mk_list_head (prev hp) (Some el)]> σ)) !! n =
    Some (mk_list_head (prev hn) (if bool_decide (n = p) then Some el else next hn))).
  { rewrite !lookup_insert_ne by done. case_bool_decide as E.
    - subst p. rewrite lookup_insert_eq. congruence.
    - rewrite lookup_insert_ne by done. rewrite Hn. by destruct hn. }
  cbn [prev next] in *. rewrite Hn'. clear Hn'. cbn [mbind option_bind prev next]. eexists. split; [done|]. split_and!.
  - rewrite lookup_insert_ne by done. by rewrite lookup_insert_eq.
  - intros x h Hx E. destruct (decide (x = n)) as [->|Hxn].
    + rewrite lookup_insert_eq, (bool_decide_eq_true_2 (n = n)) by done. by simplify_eq.
    + rewrite !lookup_insert_ne, (bool_decide_eq_false_2 (x = n)) by done. case_bool_decide as Ep.
      * subst x. rewrite lookup_insert_eq. by simplify_eq.
      * rewrite lookup_insert_ne, E by done. by destruct h.
  - intros x ? ? ?. by rewrite !lookup_insert_ne by done.
Qed.

Lemma is_list_lookup σ head l x : is_list σ head l -> x ∈ head :: l -> is_Some (σ !! x).
Proof.
  intros (_ & Hh & Hc) [->|Hx]%elem_of_cons; [by eexists|].
  apply list_elem_of_split in Hx as (l1 & l2 & ->). rewrite (chain_lookup _ _ _ _ _ _ Hc). by eexists.
Qed.

(** What every insertion in the list at [head] achieves. *)
Definition inserts (σ : store K) (head el : K) (l l' : list K) (o : option (store K)) : Prop :=
  exists σ', o = Some σ' /\ is_list σ' head l' /\
    forall x, ~ (x ∈ head :: el :: l) -> σ' !! x = σ !! x.

Lemma insert_between σ head el l1 l2 : is_list σ head (l1 ++ l2) -> is_Some (σ !! el) ->
  ~ (el ∈ head :: l1 ++ l2) ->
  inserts σ head el (l1 ++ l2) (l1 ++ el :: l2)
    (list_add_between σ el (List.last l1 head) (hd head l2)).
Proof.
  intros Hl Hel He. pose proof Hl as (Hnd & Hh & Hc).
  assert (Hp : List.last l1 head ∈ head :: l1 ++ l2).
  { destruct l1 as [|x l1]; [by left|]. right. apply elem_of_app. left. by apply last_in. }
  assert (Hn : hd head l2 ∈ head :: l1 ++ l2).
  { destruct l2 as [|x l2]; [by left|]. right. apply elem_of_app. right. by left. }
  destruct (list_add_between_lookup σ el (List.last l1 head) (hd head l2)) as (σ' & -> & Ee & Ex & Ef); try done.
  1,2: by eapply is_list_lookup.
  1,2: by intros E; apply He; rewrite <- E.
  exists σ'. split; [done|]. apply list.NoDup_cons in Hnd as [Hhd Hnd].
  pose proof Hnd as (Hnd1 & Hd & Hnd2)%list.NoDup_app.
  rewrite chain_app in Hc. destruct Hc as [Hc1 Hc2].
  rewrite elem_of_cons, elem_of_app in He. rewrite elem_of_app in Hhd. split; [split; [|split]|].
  - apply list.NoDup_cons. split; [rewrite elem_of_app, elem_of_cons; intuition congruence|].
    apply list.NoDup_app. split; [done|]. split.
    + intros x Hx1 [->|Hx2]%elem_of_cons; [tauto|]. by apply (Hd x).
    + apply list.NoDup_cons. tauto.
  - rewrite (Ex head _ ltac:(intuition congruence) Hh). cbn [prev next]. rewrite !last_app, !hd_app, last_cons. cbn [hd]. do 2 f_equal.
    + destruct l2 as [|y l2]; [by rewrite bool_decide_eq_true_2|].
      rewrite bool_decide_eq_false_2; [by rewrite !last_cons|]. intros E. apply Hhd. right. rewrite E. by left.
    + destruct l1 as [|y l1]; [by rewrite bool_decide_eq_true_2|].
      rewrite bool_decide_eq_false_2; [done|]. intros E. apply Hhd. left. rewrite E. by apply last_in.
  - apply chain_app. cbn [chain hd]. split; [|split; [done|]].
    + apply (chain_new_next σ σ' _ _ _ _ Hnd1 Hc1). intros x h Hx E. rewrite (Ex x h) by (done || intros ->; tauto).
      rewrite (bool_decide_eq_false_2 (x = hd head l2)); [done|]. intros ->.
      destruct l2 as [|y l2]; [tauto|]. apply (Hd y Hx). by left.
    + apply (chain_new_prev σ σ' _ _ _ _ Hnd2 Hc2). intros x h Hx E. rewrite (Ex x h) by (done || intros ->; tauto).
      rewrite (bool_decide_eq_false_2 (x = List.last l1 head)); [done|]. intros ->.
      destruct l1 as [|y l1]; [tauto|]. eapply (Hd _); [by apply last_in|done].
  - intros x Hx. rewrite elem_of_cons, elem_of_cons in Hx. apply Ef; [tauto|..].
    + intros ->. rewrite elem_of_cons in Hp. tauto.
    + intros ->. rewrite elem_of_cons in Hn. tauto.
Qed.

Lemma list_add_inserts σ head el l : is_list σ head l -> is_Some (σ !! el) -> ~ (el ∈ head :: l) ->
  inserts σ head el l (el :: l) (list_add σ el head).
Proof.
  intros Hl Hel He. unfold list_add, get_next. pose proof Hl as (_ & -> & _). cbn [mbind option_bind next].
  by apply (insert_between σ head el [] l).
Qed.

Lemma list_add_tail_inserts σ head el l : is_list σ head l -> is_Some (σ !! el) -> ~ (el ∈ head :: l) ->
  inserts σ head el l (l ++ [el]) (list_add_tail σ el head).
Proof.
  intros Hl Hel He. unfold list_add_tail, get_prev. pose proof Hl as (_ & -> & _). cbn [mbind option_bind prev].
  pose proof (insert_between σ head el l []) as Hi. rewrite app_nil_r in Hi. by apply Hi.
Qed.

(** ** Removal *)

Lemma list_del_lookup σ el p n : σ !! el = Some (mk_list_head (Some p) (Some n)) ->
  is_Some (σ !! p) -> is_Some (σ !! n) -> p <> el -> n <> el ->
  exists σ', list_del σ el = Some σ' /\
    σ' !! el = Some (mk_list_head None None) /\
    (forall x h, x <> el -> σ !! x = Some h -> σ' !! x =
       Some (mk_list_head (if bool_decide (x = n) then Some p else prev h)
                          (if bool_decide (x = p) then Some n else next h))) /\
    (forall x, x <> el -> x <> p -> x <> n -> σ' !! x = σ !! x).
Proof.
  intros He [hp Hp] [hn Hn] Hpe Hne. unfold list_del, get_prev, get_next, set_next, set_prev.
  rewrite He. cbn [mbind option_bind prev next]. rewrite Hp. cbn [mbind option_bind].
  assert (Hn' : <[p := mk_list_head (prev hp) (Some n)]> σ !! n =
    Some (mk_list_head (prev hn) (if bool_decide (n = p) then Some n else next hn))).
  { case_bool_decide as E.
    - subst p. rewrite lookup_insert_eq. congruence.
    - rewrite lookup_insert_ne by done. rewrite Hn. by destruct hn. }
  rewrite Hn'. clear Hn'. cbn [mbind option_bind prev next]. rewrite !lookup_insert_ne, He by done. cbn [mbind option_bind next].
  rewrite lookup_insert_eq. cbn [mbind option_bind prev]. eexists. split; [done|]. split_and!.
  - by rewrite lookup_insert_eq.
  - intros x h Hx E. rewrite !(lookup_insert_ne _ el) by done. destruct (decide (x = n)) as [->|Hxn].
    + rewrite lookup_insert_eq, (bool_decide_eq_true_2 (n = n)) by done. by simplify_eq.
    + rewrite !lookup_insert_ne, (bool_decide_eq_false_2 (x = n)) by done. case_bool_decide as Ep.
      * subst x. rewrite lookup_insert_eq. by simplify_eq.
      * rewrite lookup_insert_ne, E by done. by destruct h.
  - intros x ? ? ?. by rewrite !lookup_insert_ne by done.
Qed.

(** What the removal of a node from the list at [head] achieves. *)
Definition removes (σ : store K) (head el : K) (l l' : list K) (o : option (store K)) : Prop :=
  exists σ', o = Some σ' /\ is_list σ' head l' /\ σ' !! el = Some (mk_list_head None None) /\
    forall x, ~ (x ∈ head :: l) -> σ' !! x = σ !! x.

Lemma list_del_removes σ head el l1 l2 : is_list σ head (l1 ++ el :: l2) ->
  removes σ head el (l1 ++ el :: l2) (l1 ++ l2) (list_del σ el).
Proof.
  intros Hl. pose proof Hl as (Hnd & Hh & Hc). pose proof (chain_lookup _ _ _ _ _ _ Hc) as Ee.
  assert (Hp : List.last l1 head ∈ head :: l1 ++ el :: l2).
  { destruct l1 as [|x l1]; [by left|]. right. apply elem_of_app. left. by apply last_in. }
  assert (Hn : hd head l2 ∈ head :: l1 ++ el :: l2).
  { destruct l2 as [|x l2]; [by left|]. right. apply elem_of_app. right. right. by left. }
  apply list.NoDup_cons in Hnd as [Hhd Hnd]. rewrite elem_of_app, elem_of_cons in Hhd.
  apply list.NoDup_app in Hnd as (Hnd1 & Hd & [He2 Hnd2]%list.NoDup_cons).
  assert (He1 : ~ (el ∈ l1)) by (intros Hx; apply (Hd el Hx); by left).
  destruct (list_del_lookup σ el (List.last l1 head) (hd head l2)) as (σ' & -> & Ee' & Ex & Ef); try done.
  1,2: by eapply is_list_lookup.
  { intros E. destruct l1 as [|x l1]; [cbn in E; tauto|]. apply He1. rewrite <- E. by apply last_in. }
  { intros E. destruct l2 as [|x l2]; [cbn in E; tauto|]. apply He2. rewrite <- E. by left. }
  exists σ'. split; [done|]. rewrite chain_app in Hc. destruct Hc as (Hc1 & _ & Hc2). cbn [hd] in Hc1.
  split; [split; [|split]|split; [done|]].
  - apply list.NoDup_cons. split; [rewrite elem_of_app; tauto|]. apply list.NoDup_app. split; [done|]. split; [|done].
    intros x Hx Hx2. apply (Hd x Hx). by right.
  - rewrite (Ex head _ ltac:(intuition congruence) Hh). cbn [prev next]. rewrite !last_app, !hd_app, last_cons.
    cbn [hd]. do 2 f_equal.
    + destruct l2 as [|y l2]; [by rewrite bool_decide_eq_true_2|].
      rewrite bool_decide_eq_false_2; [by rewrite !last_cons|]. intros E. apply Hhd. right. right. rewrite E. by left.
    + destruct l1 as [|y l1]; [by rewrite bool_decide_eq_true_2|].
      rewrite bool_decide_eq_false_2; [done|]. intros E. apply Hhd. left. rewrite E. by apply last_in.
  - apply chain_app. split.
    + apply (chain_new_next σ σ' _ _ _ _ Hnd1 Hc1). intros x h Hx E. rewrite (Ex x h) by (done || intros ->; tauto).
      rewrite (bool_decide_eq_false_2 (x = hd head l2)); [done|]. intros ->.
      destruct l2 as [|y l2]; [tauto|]. apply (Hd y Hx). right. by left.
    + apply (chain_new_prev σ σ' _ _ _ _ Hnd2 Hc2). intros x h Hx E. rewrite (Ex x h) by (done || intros ->; tauto).
      rewrite (bool_decide_eq_false_2 (x = List.last l1 head)); [done|]. intros ->.
      destruct l1 as [|y l1]; [tauto|]. eapply (Hd _); [by apply last_in|by right].
  - intros x Hx. rewrite elem_of_cons in Hx. apply Ef.
    + intros ->. apply Hx. right. apply elem_of_app. right. by left.
    + intros ->. rewrite elem_of_cons in Hp. tauto.
    + intros ->. rewrite elem_of_cons in Hn. tauto.
Qed.

(** ** The empty list *)

Lemma init_list_head_empty σ head : is_Some (σ !! head) ->
  exists σ', init_list_head σ head = Some σ' /\ is_list σ' head [] /\
    forall x, x <> head -> σ' !! x = σ !! x.
Proof.
  intros [h Hh]. unfold init_list_head, set_prev, set_next. rewrite Hh. cbn [mbind option_bind].
  rewrite lookup_insert_eq. cbn [mbind option_bind prev]. eexists. split; [done|]. split.
  - split; [apply list.NoDup_singleton|]. split; [by rewrite lookup_insert_eq|done].
  - intros x Hx. by rewrite !lookup_insert_ne by done.
Qed.

Lemma list_empty_nil σ head l : is_list σ head l -> list_empty σ head = Some (bool_decide (l = [])).
Proof.
  intros (Hn & Hh & _). unfold list_empty, get_next. rewrite Hh. cbn [mbind option_bind next]. f_equal.
  apply bool_decide_ext. destruct l as [|x l]; cbn [hd]; [done|]. apply list.NoDup_cons in Hn as [Hx _].
  split; [|done]. intros ->. destruct Hx. by left.
Qed.

(** The node after [x] in the list. *)
Lemma get_next_list σ head l1 x l2 : is_list σ head (l1 ++ x :: l2) -> get_next σ x = Some (hd head l2).
Proof. intros (_ & _ & Hc). unfold get_next. by rewrite (chain_lookup _ _ _ _ _ _ Hc). Qed.

Lemma get_next_head σ head l : is_list σ head l -> get_next σ head = Some (hd head l).
Proof. intros (_ & Hh & _). unfold get_next. by rewrite Hh. Qed.

Lemma is_list_NoDup σ head l : is_list σ head l -> NoDup (head :: l).
Proof. by intros [? _]. Qed.

(** ** Histories of a list *)

Inductive list_op := Add (el : K) | AddTail (el : K) | Del (el : K).

Definition list_step (head : K) (σ : store K) (op : list_op) : option (store K) :=
  match op with
  | Add el => list_add σ el head
  | AddTail el => list_add_tail σ el head
  | Del el => list_del σ el
  end.

Fixpoint list_run (head : K) (σ : store K) (ops : list list_op) : option (store K) :=
  match ops with [] => Some σ | op :: ops => σ ← list_step head σ op; list_run head σ ops end.

(** The operations on sequences without repetition: a linked node is not linked again, and
    only a linked one leaves. *)
Definition seq_step (l : list K) (op : list_op) : option (list K) :=
  match op with
  | Add el => if decide (el ∈ l) then None else Some (el :: l)
  | AddTail el => if decide (el ∈ l) then None else Some (l ++ [el])
  | Del el => if decide (el ∈ l) then Some (filter (fun x => x <> el) l) else None
  end.

Fixpoint seq_run (l : list K) (ops : list list_op) : option (list K) :=
  match ops with [] => Some l | op :: ops => l ← seq_step l op; seq_run l ops end.

Definition op_node (op : list_op) : K := match op with Add el | AddTail el | Del el => el end.

Lemma filter_absent (el : K) (l : list K) : ~ (el ∈ l) -> filter (fun x => x <> el) l = l.
Proof.
  induction l as [|x l IH]; intros Hl; [done|]. rewrite elem_of_cons in Hl.
  rewrite filter_cons_True by (intros ->; tauto). f_equal. tauto.
Qed.

Lemma filter_out (el : K) l1 l2 : NoDup (l1 ++ el :: l2) -> filter (fun x => x <> el) (l1 ++ el :: l2) = l1 ++ l2.
Proof.
  intros (_ & Hd & [Hl2 _]%list.NoDup_cons)%list.NoDup_app. rewrite list.filter_app, filter_cons_False by (by intros []).
  rewrite !filter_absent; [done|done|]. intros Hx. apply (Hd el Hx). by left.
Qed.

Lemma list_step_refines σ head l l' op : is_list σ head l -> is_Some (σ !! op_node op) -> op_node op <> head ->
  seq_step l op = Some l' -> exists σ', list_step head σ op = Some σ' /\ is_list σ' head l' /\
    (forall x, is_Some (σ !! x) -> is_Some (σ' !! x)) /\
    forall x, x <> head -> x <> op_node op -> ~ (x ∈ l) -> σ' !! x = σ !! x.
Proof.
  intros Hl Hel Hh.
  assert (Hadd : forall el l2 o, inserts σ head el l l2 o -> (forall x, x ∈ el :: l -> x ∈ l2) ->
    exists σ', o = Some σ' /\ is_list σ' head l2 /\ (forall x, is_Some (σ !! x) -> is_Some (σ' !! x)) /\
      forall x, x <> head -> x <> el -> ~ (x ∈ l) -> σ' !! x = σ !! x).
  { intros el l2 o (σ' & -> & Hl' & Hf) Hin. exists σ'. split; [done|]. split; [done|]. split.
    - intros x Hx. destruct (decide (x ∈ head :: el :: l)) as [Hi|Hi]; [|by rewrite Hf].
      eapply is_list_lookup; [exact Hl'|]. apply elem_of_cons in Hi as [->|Hi]; [by left|right; by apply Hin].
    - intros x H1 H2 H3. apply Hf. rewrite !elem_of_cons. tauto. }
  destruct op as [el|el|el]; cbn [seq_step list_step op_node] in *; destruct (decide (el ∈ l)) as [Hi|Hi]; try done; intros [= <-].
  - eapply Hadd; [apply list_add_inserts; try done|done]. rewrite elem_of_cons. tauto.
  - eapply Hadd; [apply list_add_tail_inserts; try done|]; [rewrite elem_of_cons; tauto|].
    intros x. rewrite elem_of_cons, elem_of_app, list_elem_of_singleton. tauto.
  - apply list_elem_of_split in Hi as (l1 & l2 & ->).
    destruct (list_del_removes σ head el l1 l2 Hl) as (σ' & -> & Hl' & He & Hf). exists σ'. split; [done|].
    split; [|split].
    + rewrite filter_out; [done|]. destruct Hl as [Hn _]. by apply list.NoDup_cons in Hn as [_ Hn].
    + intros x Hx. destruct (decide (x = el)) as [->|Hxe]; [by eexists|].
      destruct (decide (x ∈ head :: l1 ++ el :: l2)) as [Hi|Hi]; [|by rewrite Hf].
      eapply is_list_lookup; [exact Hl'|]. revert Hi. rewrite !elem_of_cons, !elem_of_app, elem_of_cons. tauto.
    + intros x H1 H2 H3. apply Hf. rewrite elem_of_cons. tauto.
Qed.

(** C20: Any sequence of list_add, list_add_tail and list_del on a circular list never
    follows a dangling pointer and acts as insertion in front, insertion at the end
    and removal on the sequence of its nodes, leaving every node outside the list and
    the operations as it was. *)
Theorem list_run_refines σ head l l' ops : is_list σ head l ->
  (forall op, op ∈ ops -> is_Some (σ !! op_node op) /\ op_node op <> head) -> seq_run l ops = Some l' ->
  exists σ', list_run head σ ops = Some σ' /\ is_list σ' head l' /\
    (forall x, x <> head -> ~ (x ∈ l) -> (forall op, op ∈ ops -> x <> op_node op) -> σ' !! x = σ !! x).
Proof.
  revert σ l. induction ops as [|op ops IH]; intros σ l Hl Hops; cbn [seq_run list_run].
  { intros [= <-]. exists σ. by split_and!. }
  destruct (seq_step l op) as [l1|] eqn:E1; [|done]. cbn [mbind option_bind]. intros E2.
  destruct (Hops op ltac:(by left)) as [Hel Hh].
  destruct (list_step_refines σ head l l1 op Hl Hel Hh E1) as (σ1 & -> & Hl1 & Hk & Hf). cbn [mbind option_bind].
  destruct (IH σ1 l1 Hl1) as (σ' & E & Hl' & Hf'); [|done|].
  { intros op' Hop. destruct (Hops op' ltac:(by right)) as [? ?]. split; [by apply Hk|done]. }
  exists σ'. split; [done|]. split; [done|]. intros x Hx Hxl Hxo. rewrite Hf', Hf; try done.
  - apply Hxo. by left.
  - intros Hx1. apply (Hxo op ltac:(by left)). destruct op as [el|el|el]; cbn [seq_step op_node] in *; case_decide; try done;
      injection E1 as <-.
    + by apply elem_of_cons in Hx1 as [?|?].
    + apply elem_of_app in Hx1 as [?|?%list_elem_of_singleton]; done.
    + by apply list_elem_of_filter in Hx1 as [_ ?].
  - intros op' Hop. apply Hxo. by right.
Qed.
End lists.

Lemma list_run_refines_witness : exists σ', list_run 0%nat
    {[0 := mk_list_head (Some 0) (Some 0); 1 := mk_list_head None None; 2 := mk_list_head None None]}%nat
    [Add 1; AddTail 2; Del 1]%nat = Some σ' /\ is_list σ' 0%nat [2%nat].
Proof.
  set (σ := {[_ := _; _ := _; _ := _]}).
  destruct (list_run_refines σ 0%nat [] [2%nat] [Add 1; AddTail 2; Del 1]%nat) as (σ' & E & Hl & _).
  - split; [apply list.NoDup_singleton|]. split; [vm_compute; reflexivity|done].
  - intros op Hop. repeat (apply elem_of_cons in Hop as [->|Hop]); [split; [by eexists|done]..|]. by apply elem_of_nil in Hop.
  - vm_compute. reflexivity.
  - exists σ'. split; [exact E|exact Hl].
Defined.
