(* ===== verification/GcHeap.v ===== *)
(** * The objects of the garbage collector (quickjs.c)

    Every structure with a [JSGCObjectHeader]: objects, function byte code, shapes, variable
    references, running async functions and contexts.  [mark_children] gives the pointers on
    which it calls its [mark_func], in the order of the calls; the structures themselves do
    not change while they are marked. *)

From stdpp Require Import gmap.
From S2P Require Import Prelude ListHead.

(** ** Values *)

Definition JS_TAG_FIRST : Z := -11.
Definition JS_TAG_FUNCTION_BYTECODE : Z := -2.
Definition JS_TAG_OBJECT : Z := -1.
Definition JS_TAG_UNDEFINED : Z := 3.

(** A value with a reference count points to its structure; NULL is 0. *)
Record JSValue := JS_MKPTR { value_tag : Z; value_ptr : Z }.

Definition JS_VALUE_HAS_REF_COUNT (v : JSValue) : bool := u32 (value_tag v) >=? u32 JS_TAG_FIRST.

(** ** Structures *)

Definition JS_PROP_TMASK : Z := 48.
Definition JS_PROP_NORMAL : Z := 0.
Definition JS_PROP_GETSET : Z := 16.
Definition JS_PROP_VARREF : Z := 32.
Definition JS_PROP_AUTOINIT : Z := 48.

Definition JS_ATOM_NULL : Z := 0.

(** The union of [JSProperty]: which member is in use depends on the flags in the shape. *)
Inductive JSProperty :=
  | u_value (value : JSValue)
  | u_getset (getter setter : Z)
  | u_var_ref (var_ref : Z)
  | u_init (realm_and_id : Z).

Record JSShapeProperty := mk_shape_property { hash_next : Z; prop_flags : Z; prop_atom : Z }.

(** [prop] has [prop_size] elements, [prop_hash] the table of size [prop_hash_mask + 1]
    that lies before the structure. *)
Record JSShape := mk_shape {
  is_hashed : bool;
  has_small_array_index : bool;
  sh_hash : Z;
  prop_hash_mask : Z;
  prop_size : Z;
  prop_count : Z;
  deleted_prop_count : Z;
  shape_hash_next : Z;
  proto : Z;
  shape_prop : list JSShapeProperty;
  prop_hash : list Z
}.

(** The frame of a generator; [cur_sp] is an index in [arg_buf], and NULL in a running one. *)
Record JSAsyncFunctionState := mk_async_state {
  cur_func : JSValue;
  this_val : JSValue;
  arg_buf : list JSValue;
  cur_sp : option Z
}.

Inductive JSGeneratorStateEnum :=
  | JS_GENERATOR_STATE_SUSPENDED_START
  | JS_GENERATOR_STATE_SUSPENDED_YIELD
  | JS_GENERATOR_STATE_SUSPENDED_YIELD_STAR
  | JS_GENERATOR_STATE_EXECUTING
  | JS_GENERATOR_STATE_COMPLETED.

#[export] Instance JSGeneratorStateEnum_eq_dec : EqDecision JSGeneratorStateEnum.
Proof. solve_decision. Defined.

(** The union of [JSObject], for the classes whose callbacks are translated below. *)
Inductive JSObjectData :=
  | u_opaque (opaque : Z)
  | u_array (values : list JSValue) (count : Z)
  | u_object_data (object_data : JSValue)
  | u_cfunc (realm : Z)
  | u_func (function_bytecode : Z) (var_refs : option (list Z)) (home_object : Z)
  | u_bound_function (func_obj bound_this : JSValue) (argv : list JSValue) (argc : Z)
  | u_for_in_iterator (obj : JSValue)
  | u_generator (generator_data : option (JSGeneratorStateEnum * JSAsyncFunctionState)).

Record JSObject := mk_object {
  class_id : Z;
  obj_shape : Z;
  obj_prop : list JSProperty;
  obj_u : JSObjectData
}.

Record JSFunctionBytecode := mk_bytecode {
  cpool : list JSValue;
  cpool_count : Z;
  closure_var_count : Z;
  bytecode_realm : Z
}.

(** [pvalue] is the address of [value] ([None]) once the reference is detached. *)
Record JSVarRef := mk_var_ref { is_detached : bool; pvalue : option Z; var_value : JSValue }.

Record JSAsyncFunctionData := mk_async_data {
  is_active : bool;
  func_state : JSAsyncFunctionState;
  resolving_funcs : JSValue * JSValue
}.

(** An export of kind [JS_EXPORT_TYPE_LOCAL] holds a variable reference. *)
Record JSExportEntry := mk_export { export_local : bool; export_var_ref : Z }.

Record JSModuleDef := mk_module {
  export_entries : list JSExportEntry;
  module_ns : JSValue;
  module_func_obj : JSValue;
  eval_exception : JSValue;
  meta_obj : JSValue
}.

Record JSContext := mk_context {
  loaded_modules : list JSModuleDef;
  global_obj : JSValue;
  global_var_obj : JSValue;
  throw_type_error : JSValue;
  eval_obj : JSValue;
  array_proto_values : JSValue;
  native_error_proto : list JSValue;
  class_proto : list JSValue;
  iterator_proto : JSValue;
  async_iterator_proto : JSValue;
  promise_ctor : JSValue;
  array_ctor : JSValue;
  regexp_ctor : JSValue;
  function_ctor : JSValue;
  function_proto : JSValue;
  array_shape : Z
}.

Definition JS_NATIVE_ERROR_COUNT : Z := 8.

Inductive GCObject :=
  | GC_object (p : JSObject)
  | GC_function_bytecode (b : JSFunctionBytecode)
  | GC_shape (sh : JSShape)
  | GC_var_ref (var_ref : JSVarRef)
  | GC_async_function (s : JSAsyncFunctionData)
  | GC_context (ctx : JSContext).

(** ** The runtime *)

Inductive JSGCObjectTypeEnum :=
  | JS_GC_OBJ_TYPE_JS_OBJECT
  | JS_GC_OBJ_TYPE_FUNCTION_BYTECODE
  | JS_GC_OBJ_TYPE_SHAPE
  | JS_GC_OBJ_TYPE_VAR_REF
  | JS_GC_OBJ_TYPE_ASYNC_FUNCTION
  | JS_GC_OBJ_TYPE_JS_CONTEXT.

#[export] Instance JSGCObjectTypeEnum_eq_dec : EqDecision JSGCObjectTypeEnum.
Proof. solve_decision. Defined.

(** The header without its link, which is in the store of the lists. *)
Record JSGCObjectHeader := mk_header { ref_count : Z; gc_obj_type : JSGCObjectTypeEnum; mark : Z }.

(** The list heads of the runtime and the links of the headers. *)
Inductive Link := gc_obj_list | gc_zero_ref_count_list | tmp_obj_list | link (p : Z).

#[export] Instance Link_eq_dec : EqDecision Link.
Proof. solve_decision. Defined.

#[export] Instance Link_countable : Countable Link.
Proof.
  refine (inj_countable'
    (fun l => match l with gc_obj_list => inl 0 | gc_zero_ref_count_list => inl 1 | tmp_obj_list => inl 2 | link p => inr p end)
    (fun s => match s with inl 0 => gc_obj_list | inl 1 => gc_zero_ref_count_list | inl _ => tmp_obj_list | inr p => link p end) _).
  by intros [].
Defined.

Inductive JSGCPhaseEnum := JS_GC_PHASE_NONE | JS_GC_PHASE_DECREF | JS_GC_PHASE_REMOVE_CYCLES.

(** What the collector uses of the runtime; [stack_values] is the memory of the stack
    frames, [objects] the structures behind the headers. *)
Record JSRuntime := mk_runtime {
  headers : gmap Z JSGCObjectHeader;
  links : store Link;
  objects : gmap Z GCObject;
  stack_values : gmap Z JSValue;
  class_count : Z;
  gc_phase : JSGCPhaseEnum
}.

Definition set_headers (h : gmap Z JSGCObjectHeader) (rt : JSRuntime) : JSRuntime :=
  mk_runtime h (links rt) (objects rt) (stack_values rt) (class_count rt) (gc_phase rt).
Definition set_links (l : store Link) (rt : JSRuntime) : JSRuntime :=
  mk_runtime (headers rt) l (objects rt) (stack_values rt) (class_count rt) (gc_phase rt).
Definition set_header (p : Z) (h : JSGCObjectHeader) (rt : JSRuntime) : JSRuntime :=
  set_headers (<[p := h]> (headers rt)) rt.

(** [list_entry(el, JSGCObjectHeader, link)]: the head of a list is in no header. *)
Definition list_entry (el : Link) : option Z := match el with link p => Some p | _ => None end.

(** ** Marking *)

Definition JS_MarkValue (v : JSValue) : list Z :=
  if JS_VALUE_HAS_REF_COUNT v then
    if (value_tag v =? JS_TAG_OBJECT) || (value_tag v =? JS_TAG_FUNCTION_BYTECODE) then [value_ptr v] else []
  else [].

(** [for(i = 0; i < count; i++) JS_MarkValue(rt, values[i], mark_func)] *)
Definition mark_values (values : list JSValue) (count : Z) : option (list Z) :=
  values ← zslice values 0 (Z.max 0 count);
  Some (concat (map JS_MarkValue values)).

(** [if (p) mark_func(rt, &p->header)] *)
Definition mark_pointer (p : Z) : list Z := if p =? 0 then [] else [p].

Definition async_func_mark (s : JSAsyncFunctionState) : option (list Z) :=
  stack ← match cur_sp s with Some sp => mark_values (arg_buf s) sp | None => Some [] end;
  Some (JS_MarkValue (cur_func s) ++ JS_MarkValue (this_val s) ++ stack).

Definition get_var_ref (objs : gmap Z GCObject) (p : Z) : option JSVarRef :=
  match objs !! p with Some (GC_var_ref v) => Some v | _ => None end.
Definition get_bytecode (objs : gmap Z GCObject) (p : Z) : option JSFunctionBytecode :=
  match objs !! p with Some (GC_function_bytecode b) => Some b | _ => None end.
Definition get_shape (objs : gmap Z GCObject) (p : Z) : option JSShape :=
  match objs !! p with Some (GC_shape sh) => Some sh | _ => None end.

Definition js_autoinit_get_realm (realm_and_id : Z) : Z := Z.land realm_and_id (Z.lnot 3).

(** A field of an object, by the flags of its shape. *)
Definition mark_property (objs : gmap Z GCObject) (prs : JSShapeProperty) (pr : JSProperty) : option (list Z) :=
  if prop_atom prs =? JS_ATOM_NULL then Some []
  else
    let t := Z.land (prop_flags prs) JS_PROP_TMASK in
    if t =? JS_PROP_NORMAL then
      match pr with u_value v => Some (JS_MarkValue v) | _ => None end
    else if t =? JS_PROP_GETSET then
      match pr with u_getset getter setter => Some (mark_pointer getter ++ mark_pointer setter) | _ => None end
    else if t =? JS_PROP_VARREF then
      match pr with
      | u_var_ref p => v ← get_var_ref objs p; Some (if is_detached v then [p] else [])
      | _ => None
      end
    else
      match pr with u_init r => Some [js_autoinit_get_realm r] | _ => None end.

Fixpoint mark_properties (objs : gmap Z GCObject) (prs : list JSShapeProperty) (pr : list JSProperty) : option (list Z) :=
  match prs, pr with
  | [], _ => Some []
  | a :: prs, b :: pr => l ← mark_property objs a b; l' ← mark_properties objs prs pr; Some (l ++ l')
  | _ :: _, [] => None
  end.

(** *** Callbacks of the classes *)

Definition js_array_mark (u : JSObjectData) : option (list Z) :=
  match u with u_array values count => mark_values values count | _ => None end.

Definition js_object_data_mark (u : JSObjectData) : option (list Z) :=
  match u with u_object_data v => Some (JS_MarkValue v) | _ => None end.

Definition js_c_function_mark (u : JSObjectData) : option (list Z) :=
  match u with u_cfunc realm => Some (mark_pointer realm) | _ => None end.

Fixpoint mark_var_refs (objs : gmap Z GCObject) (var_refs : list Z) : option (list Z) :=
  match var_refs with
  | [] => Some []
  | p :: var_refs =>
      l ← (if p =? 0 then Some [] else v ← get_var_ref objs p; Some (if is_detached v then [p] else []));
      l' ← mark_var_refs objs var_refs;
      Some (l ++ l')
  end.

Definition js_bytecode_function_mark (objs : gmap Z GCObject) (u : JSObjectData) : option (list Z) :=
  match u with
  | u_func b var_refs home_object =>
      let home := if home_object =? 0 then [] else JS_MarkValue (JS_MKPTR JS_TAG_OBJECT home_object) in
      if b =? 0 then Some home
      else
        refs ← match var_refs with
               | Some var_refs =>
                   fb ← get_bytecode objs b;
                   var_refs ← zslice var_refs 0 (Z.max 0 (closure_var_count fb));
                   mark_var_refs objs var_refs
               | None => Some []
               end;
        Some (home ++ refs ++ JS_MarkValue (JS_MKPTR JS_TAG_FUNCTION_BYTECODE b))
  | _ => None
  end.

Definition js_bound_function_mark (u : JSObjectData) : option (list Z) :=
  match u with
  | u_bound_function func_obj this_val argv argc =>
      args ← mark_values argv argc;
      Some (JS_MarkValue func_obj ++ JS_MarkValue this_val ++ args)
  | _ => None
  end.

Definition js_for_in_iterator_mark (u : JSObjectData) : option (list Z) :=
  match u with u_for_in_iterator v => Some (JS_MarkValue v) | _ => None end.

Definition js_generator_mark (u : JSObjectData) : option (list Z) :=
  match u with
  | u_generator None => Some []
  | u_generator (Some (state, s)) =>
      if decide (state = JS_GENERATOR_STATE_COMPLETED) then Some [] else async_func_mark s
  | _ => None
  end.

(** The class array of the runtime: the callback [gc_mark] of a class, if it has one, calls
    [mark_func] on a list of pointers that it reads off the object. *)
Class JSClasses := class_gc_mark : Z -> option (gmap Z GCObject -> JSObjectData -> option (list Z)).

Definition JS_CLASS_OBJECT : Z := 1.
Definition JS_CLASS_ARRAY : Z := 2.
Definition JS_CLASS_ERROR : Z := 3.
Definition JS_CLASS_NUMBER : Z := 4.
Definition JS_CLASS_STRING : Z := 5.
Definition JS_CLASS_BOOLEAN : Z := 6.
Definition JS_CLASS_SYMBOL : Z := 7.
Definition JS_CLASS_ARGUMENTS : Z := 8.
Definition JS_CLASS_DATE : Z := 10.
Definition JS_CLASS_C_FUNCTION : Z := 12.
Definition JS_CLASS_BYTECODE_FUNCTION : Z := 13.
Definition JS_CLASS_BOUND_FUNCTION : Z := 14.
Definition JS_CLASS_GENERATOR_FUNCTION : Z := 16.
Definition JS_CLASS_FOR_IN_ITERATOR : Z := 17.

(** The first classes of [js_std_class_def]; [others] has the rest. *)
Definition js_std_class_def (others : JSClasses) : JSClasses := fun class_id =>
  if class_id =? JS_CLASS_ARRAY then Some (fun _ => js_array_mark)
  else if class_id =? JS_CLASS_NUMBER then Some (fun _ => js_object_data_mark)
  else if class_id =? JS_CLASS_STRING then Some (fun _ => js_object_data_mark)
  else if class_id =? JS_CLASS_BOOLEAN then Some (fun _ => js_object_data_mark)
  else if class_id =? JS_CLASS_SYMBOL then Some (fun _ => js_object_data_mark)
  else if class_id =? JS_CLASS_ARGUMENTS then Some (fun _ => js_array_mark)
  else if class_id =? JS_CLASS_DATE then Some (fun _ => js_object_data_mark)
  else if class_id =? JS_CLASS_C_FUNCTION then Some (fun _ => js_c_function_mark)
  else if class_id =? JS_CLASS_BYTECODE_FUNCTION then Some js_bytecode_function_mark
  else if class_id =? JS_CLASS_BOUND_FUNCTION then Some (fun _ => js_bound_function_mark)
  else if class_id =? JS_CLASS_GENERATOR_FUNCTION then Some js_bytecode_function_mark
  else if class_id =? JS_CLASS_FOR_IN_ITERATOR then Some (fun _ => js_for_in_iterator_mark)
  else if class_id <=? 18 then None
  else others class_id.

(** *** Contexts *)

Definition js_mark_module_def (m : JSModuleDef) : list Z :=
  concat (map (fun me => if export_local me then mark_pointer (export_var_ref me) else []) (export_entries m))
    ++ JS_MarkValue (module_ns m) ++ JS_MarkValue (module_func_obj m)
    ++ JS_MarkValue (eval_exception m) ++ JS_MarkValue (meta_obj m).

Definition JS_MarkContext (rt : JSRuntime) (ctx : JSContext) : option (list Z) :=
  errors ← mark_values (native_error_proto ctx) JS_NATIVE_ERROR_COUNT;
  protos ← mark_values (class_proto ctx) (class_count rt);
  Some (concat (map js_mark_module_def (loaded_modules ctx))
    ++ JS_MarkValue (global_obj ctx) ++ JS_MarkValue (global_var_obj ctx)
    ++ JS_MarkValue (throw_type_error ctx) ++ JS_MarkValue (eval_obj ctx)
    ++ JS_MarkValue (array_proto_values ctx) ++ errors ++ protos
    ++ JS_MarkValue (iterator_proto ctx) ++ JS_MarkValue (async_iterator_proto ctx)
    ++ JS_MarkValue (promise_ctor ctx) ++ JS_MarkValue (array_ctor ctx)
    ++ JS_MarkValue (regexp_ctor ctx) ++ JS_MarkValue (function_ctor ctx)
    ++ JS_MarkValue (function_proto ctx) ++ mark_pointer (array_shape ctx)).

(** *** All structures *)

Section marking.
Context {classes : JSClasses}.

Definition object_marks (objs : gmap Z GCObject) (p : JSObject) : option (list Z) :=
  sh ← get_shape objs (obj_shape p);
  prs ← zslice (shape_prop sh) 0 (Z.max 0 (prop_count sh));
  fields ← mark_properties objs prs (obj_prop p);
  data ← (if class_id p =? JS_CLASS_OBJECT then Some []
          else match class_gc_mark (class_id p) with
               | Some gc_mark => gc_mark objs (obj_u p)
               | None => Some []
               end);
  Some (obj_shape p :: fields ++ data).

(** The pointers that [mark_children(rt, gp, mark_func)] gives to [mark_func]. *)
Definition marked_children (rt : JSRuntime) (gp : Z) : option (list Z) :=
  h ← headers rt !! gp;
  o ← objects rt !! gp;
  match gc_obj_type h, o with
  | JS_GC_OBJ_TYPE_JS_OBJECT, GC_object p => object_marks (objects rt) p
  | JS_GC_OBJ_TYPE_FUNCTION_BYTECODE, GC_function_bytecode b =>
      l ← mark_values (cpool b) (cpool_count b);
      Some (l ++ mark_pointer (bytecode_realm b))
  | JS_GC_OBJ_TYPE_VAR_REF, GC_var_ref v =>
      if is_detached v then
        value ← (match pvalue v with None => Some (var_value v) | Some sp => stack_values rt !! sp end);
        Some (JS_MarkValue value)
      else None
  | JS_GC_OBJ_TYPE_ASYNC_FUNCTION, GC_async_function s =>
      l ← (if is_active s then async_func_mark (func_state s) else Some []);
      Some (l ++ JS_MarkValue (resolving_funcs s).1 ++ JS_MarkValue (resolving_funcs s).2)
  | JS_GC_OBJ_TYPE_SHAPE, GC_shape sh => Some (mark_pointer (proto sh))
  | JS_GC_OBJ_TYPE_JS_CONTEXT, GC_context ctx => JS_MarkContext rt ctx
  | _, _ => None
  end.

Fixpoint mark_all (mark_func : JSRuntime -> Z -> option JSRuntime) (l : list Z) (rt : JSRuntime) : option JSRuntime :=
  match l with
  | [] => Some rt
  | p :: l => rt ← mark_func rt p; mark_all mark_func l rt
  end.

Definition mark_children (rt : JSRuntime) (gp : Z) (mark_func : JSRuntime -> Z -> option JSRuntime) : option JSRuntime :=
  l ← marked_children rt gp;
  mark_all mark_func l rt.

(** ** Trial deletion *)

(** [list_del(&p->link); list_add_tail(&p->link, head);] *)
Definition move_to_tail (rt : JSRuntime) (p : Z) (head : Link) : option JSRuntime :=
  σ ← list_del (links rt) (link p);
  σ ← list_add_tail σ (link p) head;
  Some (set_links σ rt).

Definition gc_decref_child (rt : JSRuntime) (p : Z) : option JSRuntime :=
  h ← headers rt !! p;
  if ref_count h >? 0 then
    let h := mk_header (ref_count h - 1) (gc_obj_type h) (mark h) in
    let rt := set_header p h rt in
    if (ref_count h =? 0) && (mark h =? 1) then move_to_tail rt p tmp_obj_list else Some rt
  else None.

(** [list_for_each_safe(el, el1, &rt->gc_obj_list)] *)
Fixpoint gc_decref_loop (fuel : nat) (rt : JSRuntime) (el el1 : Link) : option JSRuntime :=
  match fuel with
  | O => None
  | S fuel' =>
      if decide (el = gc_obj_list) then Some rt
      else
        p ← list_entry el;
        h ← headers rt !! p;
        if mark h =? 0 then
          rt ← mark_children rt p gc_decref_child;
          h ← headers rt !! p;
          let rt := set_header p (mk_header (ref_count h) (gc_obj_type h) 1) rt in
          rt ← (if ref_count h =? 0 then move_to_tail rt p tmp_obj_list else Some rt);
          el2 ← get_next (links rt) el1;
          gc_decref_loop fuel' rt el1 el2
        else None
  end.

Definition gc_decref (rt : JSRuntime) : option JSRuntime :=
  σ ← init_list_head (links rt) tmp_obj_list;
  let rt := set_links σ rt in
  el ← get_next (links rt) gc_obj_list;
  el1 ← get_next (links rt) el;
  gc_decref_loop (S (size (headers rt))) rt el el1.

Definition gc_scan_incref_child (rt : JSRuntime) (p : Z) : option JSRuntime :=
  h ← headers rt !! p;
  let h := mk_header (ref_count h + 1) (gc_obj_type h) (mark h) in
  let rt := set_header p h rt in
  if ref_count h =? 1 then
    rt ← move_to_tail rt p gc_obj_list;
    Some (set_header p (mk_header (ref_count h) (gc_obj_type h) 0) rt)
  else Some rt.

Definition gc_scan_incref_child2 (rt : JSRuntime) (p : Z) : option JSRuntime :=
  h ← headers rt !! p;
  Some (set_header p (mk_header (ref_count h + 1) (gc_obj_type h) (mark h)) rt).

(** [list_for_each(el, &rt->gc_obj_list)]: the list grows while it is scanned. *)
Fixpoint gc_scan_loop (fuel : nat) (rt : JSRuntime) (el : Link) : option JSRuntime :=
  match fuel with
  | O => None
  | S fuel' =>
      if decide (el = gc_obj_list) then Some rt
      else
        p ← list_entry el;
        h ← headers rt !! p;
        if ref_count h >? 0 then
          let rt := set_header p (mk_header (ref_count h) (gc_obj_type h) 0) rt in
          rt ← mark_children rt p gc_scan_incref_child;
          el ← get_next (links rt) el;
          gc_scan_loop fuel' rt el
        else None
  end.

(** [list_for_each(el, &rt->tmp_obj_list)] *)
Fixpoint gc_restore_loop (fuel : nat) (rt : JSRuntime) (el : Link) : option JSRuntime :=
  match fuel with
  | O => None
  | S fuel' =>
      if decide (el = tmp_obj_list) then Some rt
      else
        p ← list_entry el;
        rt ← mark_children rt p gc_scan_incref_child2;
        el ← get_next (links rt) el;
        gc_restore_loop fuel' rt el
  end.

Definition gc_scan (rt : JSRuntime) : option JSRuntime :=
  el ← get_next (links rt) gc_obj_list;
  rt ← gc_scan_loop (S (size (headers rt))) rt el;
  el ← get_next (links rt) tmp_obj_list;
  gc_restore_loop (S (size (headers rt))) rt el.
End marking.
