(* ===== verification/GcOk.v ===== *)
(** * The collector finds the garbage

    [gc_decref] and [gc_scan] separate the structures that can be reached from a reference
    outside the heap from the others, which they leave in [tmp_obj_list], and restore the
    reference counts. *)

From stdpp Require Import gmap relations.
From S2P Require Import Prelude ListHead GcHeap.
#[local] Open Scope Z_scope.

(** Permutations, by counting. *)
Ltac perm := apply (Permutation_count_occ Z.eq_dec); intros; rewrite ?count_occ_app; cbn [count_occ];
  rewrite ?count_occ_app; cbn [count_occ]; rewrite ?count_occ_app; repeat case_match; lia.

(** ** Counting references *)

Fixpoint cnt (a : Z) (l : list Z) : Z :=
  match l with [] => 0 | b :: l => Z.b2z (bool_decide (b = a)) + cnt a l end.

Lemma cnt_nonneg a l : 0 <= cnt a l.
Proof. induction l as [|b l IH]; cbn [cnt]; [done|]. case_bool_decide; cbn [Z.b2z]; lia. Qed.

Lemma cnt_app a l1 l2 : cnt a (l1 ++ l2) = cnt a l1 + cnt a l2.
Proof. induction l1 as [|b l1 IH]; cbn [cnt app]; [done|]. lia. Qed.

Lemma cnt_pos a l : 0 < cnt a l <-> a ∈ l.
Proof.
  induction l as [|b l IH]; cbn [cnt]; [split; [lia|by intros ?%elem_of_nil]|].
  rewrite elem_of_cons. pose proof (cnt_nonneg a l). case_bool_decide; cbn [Z.b2z]; [split; [by left|lia]|].
  rewrite <- IH. split; [intros ?; right; lia|intros [?|?]; [congruence|lia]].
Qed.

Lemma cnt_not_in a l : ~ (a ∈ l) -> cnt a l = 0.
Proof. rewrite <- cnt_pos. pose proof (cnt_nonneg a l). lia. Qed.

#[export] Instance cnt_permutation a : Proper ((≡ₚ) ==> (=)) (cnt a).
Proof. induction 1; cbn [cnt]; lia. Qed.

(** ** Moves between the two lists *)

(** The list at [gc_obj_list] and the one at [tmp_obj_list]. *)
Definition two_lists (σ : store Link) (l1 l2 : list Z) : Prop :=
  is_list σ gc_obj_list (link <$> l1) /\ is_list σ tmp_obj_list (link <$> l2) /\ NoDup (l1 ++ l2).

Lemma head_not_link (h : Link) (l : list Z) : (forall p, h <> link p) -> ~ (h ∈ link <$> l).
Proof. intros Hh (p & E & _)%list_elem_of_fmap. by apply (Hh p). Qed.

Lemma link_in p (l : list Z) : link p ∈ link <$> l <-> p ∈ l.
Proof. rewrite list_elem_of_fmap. split; [intros (q & [= ->] & ?); done|by exists p]. Qed.

Lemma move_lists σ (h1 h2 : Link) a p b l2 : (forall q, h1 <> link q) -> (forall q, h2 <> link q) -> h1 <> h2 ->
  is_list σ h1 (link <$> a ++ p :: b) -> is_list σ h2 (link <$> l2) -> NoDup ((a ++ p :: b) ++ l2) ->
  exists σ1 σ2, list_del σ (link p) = Some σ1 /\ list_add_tail σ1 (link p) h2 = Some σ2 /\
    is_list σ2 h1 (link <$> a ++ b) /\ is_list σ2 h2 (link <$> l2 ++ [p]) /\
    forall x, x <> h1 -> x <> h2 -> (forall q, q ∈ (a ++ p :: b) ++ l2 -> x <> link q) -> σ2 !! x = σ !! x.
Proof.
  intros Hh1 Hh2 Hh H1 H2 Hnd. rewrite fmap_app in H1. cbn [fmap list_fmap] in H1.
  destruct (list_del_removes σ h1 (link p) (link <$> a) (link <$> b) H1) as (σ1 & E1 & L1 & Ep & F1).
  rewrite <- fmap_app in L1.
  assert (Hp : ~ (p ∈ l2) /\ ~ (p ∈ a ++ b) /\ forall q, q ∈ l2 -> ~ (q ∈ a ++ p :: b)).
  { assert (E : (a ++ p :: b) ++ l2 ≡ₚ p :: (a ++ b) ++ l2) by perm. rewrite E in Hnd. clear E.
    apply list.NoDup_cons in Hnd as [Hp Hnd]. rewrite elem_of_app in Hp.
    apply list.NoDup_app in Hnd as (_ & Hd & _). split_and!; [tauto..|]. intros q Hq.
    rewrite elem_of_app, elem_of_cons. intros [Hqa|[->|Hqb]]; [|tauto|];
      by apply (Hd q ltac:(rewrite elem_of_app; tauto)). }
  destruct Hp as (Hp2 & Hpab & Hd).
  assert (L2 : is_list σ1 h2 (link <$> l2)).
  { eapply is_list_frame; [|exact H2]. intros x Hx. apply F1. intros Hx1.
    rewrite <- (fmap_cons link p b), <- fmap_app in Hx1. apply elem_of_cons in Hx as [->|Hx].
    - apply elem_of_cons in Hx1 as [?|Hx1]; [congruence|]. by apply head_not_link in Hx1.
    - apply list_elem_of_fmap in Hx as (q & -> & Hq). apply elem_of_cons in Hx1 as [?|Hx1].
      + by destruct (Hh1 q).
      + rewrite link_in in Hx1. by apply (Hd q). }
  destruct (list_add_tail_inserts σ1 h2 (link p) (link <$> l2) L2) as (σ2 & E2 & L3 & F2).
  { by eexists. }
  { rewrite elem_of_cons, link_in. intros [E|?]; [by destruct (Hh2 p)|done]. }
  exists σ1, σ2. split_and!; [done..| |by rewrite fmap_app|].
  2: { intros x Hx1 Hx2 Hx. rewrite F2, F1; [done|..].
    - rewrite <- (fmap_cons link p b), <- fmap_app, elem_of_cons. intros [?|(q & -> & Hq)%list_elem_of_fmap]; [done|].
      apply (Hx q); [|done]. rewrite elem_of_app. by left.
    - rewrite !elem_of_cons. intros [?|[->|(q & -> & Hq)%list_elem_of_fmap]]; [done|..].
      + apply (Hx p); [|done]. rewrite !elem_of_app, elem_of_cons. tauto.
      + apply (Hx q); [|done]. rewrite elem_of_app. by right. }
  eapply is_list_frame; [|exact L1]. intros x Hx. apply F2. rewrite !elem_of_cons.
  apply elem_of_cons in Hx as [->|Hx].
  - intros [?|[?|Hx]]; [done|by destruct (Hh1 p)|by apply head_not_link in Hx].
  - apply list_elem_of_fmap in Hx as (q & -> & Hq). rewrite link_in.
    intros [?|[[= ->]|Hx]]; [by destruct (Hh2 q)|done|]. apply (Hd q Hx).
    rewrite elem_of_app, elem_of_cons. apply elem_of_app in Hq. tauto.
Qed.

Lemma move_to_tmp rt a p b l2 : two_lists (links rt) (a ++ p :: b) l2 ->
  exists σ, move_to_tail rt p tmp_obj_list = Some (set_links σ rt) /\ two_lists σ (a ++ b) (l2 ++ [p]) /\
    forall x, x <> gc_obj_list -> x <> tmp_obj_list -> (forall q, q ∈ (a ++ p :: b) ++ l2 -> x <> link q) ->
      σ !! x = links rt !! x.
Proof.
  intros (H1 & H2 & Hnd).
  destruct (move_lists (links rt) gc_obj_list tmp_obj_list a p b l2) as (σ1 & σ2 & E1 & E2 & L1 & L2 & F); try done.
  exists σ2. unfold move_to_tail. rewrite E1. cbn [mbind option_bind]. rewrite E2. split; [done|]. split; [|done].
  split_and!; try done. assert (E : (a ++ b) ++ l2 ++ [p] ≡ₚ (a ++ p :: b) ++ l2) by perm. by rewrite E.
Qed.

Lemma move_to_live rt l1 a p b : two_lists (links rt) l1 (a ++ p :: b) ->
  exists σ, move_to_tail rt p gc_obj_list = Some (set_links σ rt) /\ two_lists σ (l1 ++ [p]) (a ++ b) /\
    forall x, x <> gc_obj_list -> x <> tmp_obj_list -> (forall q, q ∈ (a ++ p :: b) ++ l1 -> x <> link q) ->
      σ !! x = links rt !! x.
Proof.
  intros (H1 & H2 & Hnd).
  destruct (move_lists (links rt) tmp_obj_list gc_obj_list a p b l1) as (σ1 & σ2 & E1 & E2 & L1 & L2 & F); try done.
  { assert (E : (a ++ p :: b) ++ l1 ≡ₚ l1 ++ a ++ p :: b) by perm. by rewrite E. }
  exists σ2. unfold move_to_tail. rewrite E1. cbn [mbind option_bind]. rewrite E2. split; [done|]. split; [|by auto].
  split_and!; try done. assert (E : (l1 ++ [p]) ++ a ++ b ≡ₚ l1 ++ a ++ p :: b) by perm. by rewrite E.
Qed.

(** ** The heap *)

Section collector.
Context {classes : JSClasses}.

(** The pointers that a structure holds, and the references to [a] from the structures [l]. *)
Definition children (rt : JSRuntime) (p : Z) : list Z := default [] (marked_children rt p).
Definition refs (rt : JSRuntime) (l : list Z) (a : Z) : Z := cnt a (concat (map (children rt) l)).

(** The references to [a] that no structure of the list holds: the stack, the C code. *)
Definition external (rt : JSRuntime) (l : list Z) (a : Z) : Z :=
  match headers rt !! a with Some h => ref_count h - refs rt l a | None => 0 end.

(** A heap with the structures [l], between two collections. *)
Record gc_heap (rt : JSRuntime) (l : list Z) : Prop := {
  heap_list : is_list (links rt) gc_obj_list (link <$> l);
  heap_tmp : is_Some (links rt !! tmp_obj_list);
  heap_headers p : p ∈ l <-> is_Some (headers rt !! p);
  heap_marks p h : headers rt !! p = Some h -> mark h = 0;
  heap_children p : p ∈ l -> exists cs, marked_children rt p = Some cs /\ cs ⊆ l;
  heap_counts p : 0 <= external rt l p
}.

(** [x] can be reached from a structure that the program itself refers to. *)
Definition gc_live (rt : JSRuntime) (l : list Z) (x : Z) : Prop :=
  exists r, r ∈ l /\ 0 < external rt l r /\ rtc (fun a b => b ∈ children rt a) r x.

Lemma refs_cons rt p l a : refs rt (p :: l) a = cnt a (children rt p) + refs rt l a.
Proof. unfold refs. cbn [map concat]. apply cnt_app. Qed.

Lemma refs_app rt l1 l2 a : refs rt (l1 ++ l2) a = refs rt l1 a + refs rt l2 a.
Proof. unfold refs. by rewrite map_app, concat_app, cnt_app. Qed.

Lemma refs_nonneg rt l a : 0 <= refs rt l a.
Proof. apply cnt_nonneg. Qed.

#[export] Instance refs_permutation rt : Proper ((≡ₚ) ==> (=) ==> (=)) (refs rt).
Proof. intros l l' Hl a a' ->. induction Hl; rewrite ?refs_cons in *; lia. Qed.

Lemma refs_child rt p l a : p ∈ l -> a ∈ children rt p -> 0 < refs rt l a.
Proof.
  intros (l1 & l2 & ->)%list_elem_of_split Ha%cnt_pos. rewrite refs_app, refs_cons.
  pose proof (refs_nonneg rt l1 a). pose proof (refs_nonneg rt l2 a). lia.
Qed.

Section run.
Context (rt0 : JSRuntime) (l0 : list Z) (Hheap : gc_heap rt0 l0).

#[local] Abbreviation ext := (external rt0 l0).

(** The collector at work: only the counts, the marks and the lists differ from [rt0]. *)
Record gstate (rt : JSRuntime) (l1 l2 : list Z) (rc mk : Z -> Z) : Prop := {
  gs_objects : objects rt = objects rt0;
  gs_stack : stack_values rt = stack_values rt0;
  gs_classes : class_count rt = class_count rt0;
  gs_phase : gc_phase rt = gc_phase rt0;
  gs_headers p : headers rt !! p = (fun h => mk_header (rc p) (gc_obj_type h) (mk p)) <$> headers rt0 !! p;
  gs_lists : two_lists (links rt) l1 l2;
  gs_all : l1 ++ l2 ≡ₚ l0;
  gs_frame x : x <> gc_obj_list -> x <> tmp_obj_list -> (forall p, p ∈ l0 -> x <> link p) ->
    links rt !! x = links rt0 !! x
}.

Lemma gstate_children rt l1 l2 rc mk p : gstate rt l1 l2 rc mk -> marked_children rt p = marked_children rt0 p.
Proof.
  intros [Ho Hs Hc _ Hh _ _ _]. unfold marked_children, JS_MarkContext. rewrite Hh, Ho, Hs, Hc.
  by destruct (headers rt0 !! p).
Qed.

Lemma gstate_ext rt l1 l2 rc mk rc' mk' : gstate rt l1 l2 rc mk -> (forall p, p ∈ l0 -> rc p = rc' p /\ mk p = mk' p) ->
  gstate rt l1 l2 rc' mk'.
Proof.
  intros [Ho Hs Hc Hph Hh Hl Ha Hf] He. split; try done. intros p. rewrite Hh.
  destruct (headers rt0 !! p) as [h|] eqn:E; [|done]. cbn [fmap option_fmap option_map].
  destruct (He p) as [-> ->]; [|done]. by apply (heap_headers _ _ Hheap).
Qed.

Lemma gstate_header rt l1 l2 rc mk p : gstate rt l1 l2 rc mk -> p ∈ l0 ->
  exists t, headers rt !! p = Some (mk_header (rc p) t (mk p)).
Proof.
  intros Hg [h Hh]%(heap_headers _ _ Hheap). rewrite (gs_headers _ _ _ _ _ Hg), Hh. by eexists.
Qed.

Definition upd (f : Z -> Z) (p v : Z) (a : Z) : Z := if decide (a = p) then v else f a.

Lemma upd_eq f p v : upd f p v p = v.
Proof. unfold upd. by rewrite decide_True. Qed.

Lemma upd_ne f p v a : a <> p -> upd f p v a = f a.
Proof. intros Ha. unfold upd. by rewrite decide_False. Qed.

Lemma upd_add f p d a : upd f p (f p + d) a = f a + d * Z.b2z (bool_decide (p = a)).
Proof.
  unfold upd. case_decide; [subst|]; rewrite ?bool_decide_eq_true_2, ?bool_decide_eq_false_2 by congruence; cbn; lia.
Qed.

Lemma gstate_set rt l1 l2 rc mk p t c m : gstate rt l1 l2 rc mk ->
  headers rt !! p = Some (mk_header (rc p) t (mk p)) ->
  gstate (set_header p (mk_header c t m) rt) l1 l2 (upd rc p c) (upd mk p m).
Proof.
  intros [Ho Hs Hc Hph Hh Hl Ha Hf] Hp. split; try done. intros a. cbn [headers set_header set_headers].
  destruct (decide (a = p)) as [->|Hne].
  - rewrite lookup_insert_eq, !upd_eq. specialize (Hh p). rewrite Hp in Hh.
    destruct (headers rt0 !! p) as [h|]; [|done]. cbn in *. by injection Hh as ->.
  - rewrite lookup_insert_ne, !upd_ne by done. apply Hh.
Qed.

Lemma gstate_to_tmp rt a p b l2 rc mk : gstate rt (a ++ p :: b) l2 rc mk ->
  exists rt', move_to_tail rt p tmp_obj_list = Some rt' /\ gstate rt' (a ++ b) (l2 ++ [p]) rc mk.
Proof.
  intros [Ho Hs Hc Hph Hh Hl Ha Hf]. destruct (move_to_tmp rt a p b l2 Hl) as (σ & E & Hl' & F).
  eexists. split; [exact E|]. split; try done.
  - rewrite <- Ha. perm.
  - intros x H1 H2 H3. cbn [links set_links]. rewrite F; [by apply Hf|done..|]. intros q Hq. apply H3. by rewrite <- Ha.
Qed.

Lemma gstate_to_live rt l1 a p b rc mk : gstate rt l1 (a ++ p :: b) rc mk ->
  exists rt', move_to_tail rt p gc_obj_list = Some rt' /\ gstate rt' (l1 ++ [p]) (a ++ b) rc mk.
Proof.
  intros [Ho Hs Hc Hph Hh Hl Ha Hf]. destruct (move_to_live rt l1 a p b Hl) as (σ & E & Hl' & F).
  eexists. split; [exact E|]. split; try done.
  - rewrite <- Ha. perm.
  - intros x H1 H2 H3. cbn [links set_links]. rewrite F; [by apply Hf|done..|]. intros q Hq. apply H3.
    rewrite <- Ha. rewrite elem_of_app in *. tauto.
Qed.

Lemma gstate_in rt l1 l2 rc mk p : gstate rt l1 l2 rc mk -> p ∈ l0 <-> p ∈ l1 \/ p ∈ l2.
Proof. intros Hg. rewrite <- (gs_all _ _ _ _ _ Hg). apply elem_of_app. Qed.

Lemma gstate_disjoint rt l1 l2 rc mk p : gstate rt l1 l2 rc mk -> p ∈ l1 -> p ∈ l2 -> False.
Proof. intros Hg H1 H2. destruct (gs_lists _ _ _ _ _ Hg) as (_ & _ & (_ & Hd & _)%list.NoDup_app). by apply (Hd p). Qed.

Lemma gstate_NoDup rt l1 l2 rc mk : gstate rt l1 l2 rc mk -> NoDup (l1 ++ l2).
Proof. intros Hg. by destruct (gs_lists _ _ _ _ _ Hg) as (_ & _ & ?). Qed.

(** ** Decrementing *)

(** [a] has been visited, [b] not yet; the structures whose count fell to 0 are in [l2]. *)
Definition decref_inv (a b l2 : list Z) (rc mk : Z -> Z) : Prop :=
  (forall q, q ∈ a -> mk q = 1 /\ 0 < rc q) /\ (forall q, q ∈ b -> mk q = 0) /\
  (forall q, q ∈ l2 -> mk q = 1 /\ rc q = 0).

Lemma decref_child rt a b l2 rc mk c : gstate rt (a ++ b) l2 rc mk -> decref_inv a b l2 rc mk ->
  c ∈ l0 -> 0 < rc c ->
  exists rt' a' l2', gc_decref_child rt c = Some rt' /\
    gstate rt' (a' ++ b) l2' (upd rc c (rc c - 1)) mk /\ decref_inv a' b l2' (upd rc c (rc c - 1)) mk.
Proof.
  intros Hg (Ha & Hb & H2) Hc Hrc. destruct (gstate_header _ _ _ _ _ _ Hg Hc) as [t Ht].
  unfold gc_decref_child. rewrite Ht. cbn [mbind option_bind ref_count gc_obj_type mark].
  rewrite Z.gtb_ltb, (proj2 (Z.ltb_lt _ _)) by done.
  pose proof (gstate_set _ _ _ _ _ _ _ (rc c - 1) (mk c) Hg Ht) as Hg'.
  assert (Hg2 : gstate (set_header c (mk_header (rc c - 1) t (mk c)) rt) (a ++ b) l2 (upd rc c (rc c - 1)) mk).
  { eapply gstate_ext; [exact Hg'|]. intros q _. split; [done|]. unfold upd. by case_decide as E; [rewrite E|]. }
  clear Hg'. assert (Hc2 : ~ (c ∈ l2)) by (intros Hx; apply H2 in Hx as [_ ?]; lia).
  assert (Hin2 : forall q, q ∈ l2 -> mk q = 1 /\ upd rc c (rc c - 1) q = 0).
  { intros q Hq. rewrite upd_ne by (by intros ->). by apply H2. }
  destruct ((rc c - 1 =? 0) && (mk c =? 1)) eqn:E.
  - zify_bools. apply (gstate_in _ _ _ _ _ _ Hg) in Hc as [[Hca|Hcb]%elem_of_app|?]; [|by apply Hb in Hcb; lia|done].
    apply list_elem_of_split in Hca as (a1 & a2 & ->). rewrite <- app_assoc in Hg2. cbn [app] in Hg2.
    destruct (gstate_to_tmp _ _ _ _ _ _ _ Hg2) as (rt' & -> & Hg3).
    exists rt', (a1 ++ a2), (l2 ++ [c]). split; [done|]. split; [by rewrite <- app_assoc|].
    assert (Hn : ~ (c ∈ a1 ++ a2)).
    { pose proof (gstate_NoDup _ _ _ _ _ Hg3) as Hnd. rewrite app_assoc in Hnd.
      assert (Ep : ((a1 ++ a2 ++ b) ++ l2) ++ [c] ≡ₚ c :: (a1 ++ a2) ++ b ++ l2) by perm. rewrite Ep in Hnd.
      apply list.NoDup_cons in Hnd as [Hnd _]. rewrite elem_of_app in Hnd. tauto. }
    split_and!.
    + intros q Hq. rewrite upd_ne by (by intros ->). apply Ha. rewrite elem_of_app, elem_of_cons.
      apply elem_of_app in Hq. tauto.
    + done.
    + intros q [Hq| ->%list_elem_of_singleton]%elem_of_app; [by apply Hin2|]. rewrite upd_eq. lia.
  - exists (set_header c (mk_header (rc c - 1) t (mk c)) rt), a, l2. split; [done|]. split; [done|]. split_and!; try done.
    intros q Hq. destruct (Ha q Hq) as [Hm Hr]. split; [done|]. destruct (decide (q = c)) as [->|?].
    + rewrite upd_eq. rewrite Hm, andb_true_r in E. zify_bools. lia.
    + by rewrite upd_ne.
Qed.

Lemma decref_children rt a b l2 rc mk l : gstate rt (a ++ b) l2 rc mk -> decref_inv a b l2 rc mk ->
  l ⊆ l0 -> (forall q, cnt q l <= rc q) ->
  exists rt' a' l2' rc', mark_all gc_decref_child l rt = Some rt' /\
    gstate rt' (a' ++ b) l2' rc' mk /\ decref_inv a' b l2' rc' mk /\ forall q, rc' q = rc q - cnt q l.
Proof.
  revert rt a l2 rc. induction l as [|c l IH]; intros rt a l2 rc Hg Hi Hl Hrc; cbn [mark_all].
  { exists rt, a, l2, rc. split_and!; [done..|]. intros q. cbn. lia. }
  assert (Hc : c ∈ l0) by (apply Hl; by left). assert (Hl' : l ⊆ l0) by (intros q Hq; apply Hl; by right).
  assert (0 < rc c).
  { specialize (Hrc c). cbn [cnt] in Hrc. rewrite bool_decide_eq_true_2 in Hrc by done. cbn [Z.b2z] in Hrc.
    pose proof (cnt_nonneg c l). lia. }
  destruct (decref_child rt a b l2 rc mk c) as (rt1 & a1 & l21 & -> & Hg1 & Hi1); [done..|]. cbn [mbind option_bind].
  destruct (IH rt1 a1 l21 (upd rc c (rc c - 1))) as (rt2 & a2 & l22 & rc2 & -> & Hg2 & Hi2 & Hrc2); [done..| |].
  { intros q. specialize (Hrc q). cbn [cnt] in Hrc. rewrite (upd_add rc c (-1)). lia. }
  exists rt2, a2, l22, rc2. split_and!; [done..|]. intros q. rewrite Hrc2. cbn [cnt]. rewrite (upd_add rc c (-1)). lia.
Qed.

(** ** The loop of [gc_decref] *)

Lemma gstate_children0 rt l1 l2 rc mk p : gstate rt l1 l2 rc mk -> p ∈ l0 ->
  marked_children rt p = Some (children rt0 p) /\ children rt0 p ⊆ l0.
Proof.
  intros Hg Hp. rewrite (gstate_children _ _ _ _ _ _ Hg). unfold children.
  by destruct (heap_children _ _ Hheap p Hp) as (cs & -> & Hcs).
Qed.

Lemma link_hd h (l : list Z) : hd h (link <$> l) = match l with [] => h | p :: _ => link p end.
Proof. by destruct l. Qed.

Lemma next_live rt l1 l2 rc mk a p b : gstate rt l1 l2 rc mk -> l1 = a ++ p :: b ->
  get_next (links rt) (link p) = Some (hd gc_obj_list (link <$> b)).
Proof.
  intros Hg ->. destruct (gs_lists _ _ _ _ _ Hg) as (H1 & _ & _). rewrite fmap_app in H1. cbn in H1.
  by eapply get_next_list.
Qed.

Lemma next_tmp rt l1 l2 rc mk a p b : gstate rt l1 l2 rc mk -> l2 = a ++ p :: b ->
  get_next (links rt) (link p) = Some (hd tmp_obj_list (link <$> b)).
Proof.
  intros Hg ->. destruct (gs_lists _ _ _ _ _ Hg) as (_ & H1 & _). rewrite fmap_app in H1. cbn in H1.
  by eapply get_next_list.
Qed.

Lemma next_head rt l1 l2 rc mk : gstate rt l1 l2 rc mk ->
  get_next (links rt) gc_obj_list = Some (hd gc_obj_list (link <$> l1)) /\
  get_next (links rt) tmp_obj_list = Some (hd tmp_obj_list (link <$> l2)).
Proof. intros Hg. destruct (gs_lists _ _ _ _ _ Hg) as (H1 & H2 & _). split; by apply get_next_head. Qed.

(** The successor of the first node of [b], or of the head when [b] is empty. *)
Lemma next_after rt a b l2 rc mk : gstate rt (a ++ b) l2 rc mk ->
  exists el, get_next (links rt) (hd gc_obj_list (link <$> b)) = Some el /\
    match b with [] => True | _ :: b' => el = hd gc_obj_list (link <$> b') end.
Proof.
  intros Hg. destruct b as [|p b]; cbn [fmap list_fmap hd].
  - destruct (next_head _ _ _ _ _ Hg) as [-> _]. by eexists.
  - rewrite (next_live _ _ _ _ _ _ _ _ Hg eq_refl). by eexists.
Qed.

Lemma decref_loop fuel : forall rt a b l2 rc mk el1, gstate rt (a ++ b) l2 rc mk -> decref_inv a b l2 rc mk ->
  (forall q, q ∈ l0 -> rc q = ext q + refs rt0 b q) -> (length b < fuel)%nat ->
  match b with [] => True | _ :: b' => el1 = hd gc_obj_list (link <$> b') end ->
  exists rt' l1' l2' rc' mk', gc_decref_loop fuel rt (hd gc_obj_list (link <$> b)) el1 = Some rt' /\
    gstate rt' l1' l2' rc' mk' /\ decref_inv l1' [] l2' rc' mk' /\ forall q, q ∈ l0 -> rc' q = ext q.
Proof.
  induction fuel as [|fuel IH]; intros rt a b l2 rc mk el1 Hg Hi Hrc Hf Hel; [lia|]. cbn [gc_decref_loop].
  destruct b as [|p b]; cbn [fmap list_fmap hd].
  { rewrite decide_True by done. rewrite app_nil_r in Hg. exists rt, a, l2, rc, mk. split_and!; try done.
    intros q Hq. rewrite Hrc by done. cbn. lia. }
  rewrite decide_False by done. cbn [list_entry mbind option_bind]. subst el1.
  assert (Hp : p ∈ l0) by (apply (gstate_in _ _ _ _ _ _ Hg); left; rewrite elem_of_app; right; by left).
  destruct (gstate_header _ _ _ _ _ _ Hg Hp) as [t Ht]. rewrite Ht. cbn [mbind option_bind mark].
  pose proof Hi as (Ha & Hb & H2). rewrite (Hb p) by (by left). cbn [Z.eqb].
  destruct (gstate_children0 _ _ _ _ _ _ Hg Hp) as [Hc Hcl]. unfold mark_children. rewrite Hc. cbn [mbind option_bind].
  pose proof (gs_all _ _ _ _ _ Hg) as Hall.
  assert (Hrc' : forall q, cnt q (children rt0 p) <= (if decide (q ∈ l0) then rc q else 0)).
  { intros q. case_decide as Hq.
    - rewrite Hrc, refs_cons by done. pose proof (heap_counts _ _ Hheap q). pose proof (refs_nonneg rt0 b q). lia.
    - rewrite cnt_not_in; [lia|]. intros Hx. by apply Hq, Hcl. }
  set (rc0 := fun q => if decide (q ∈ l0) then rc q else 0) in *.
  assert (Hg0 : gstate rt (a ++ p :: b) l2 rc0 mk).
  { eapply gstate_ext; [exact Hg|]. intros q Hq. unfold rc0. by rewrite decide_True. }
  assert (Hin : forall q, q ∈ a \/ q ∈ l2 -> rc0 q = rc q).
  { intros q Hq. unfold rc0. rewrite decide_True; [done|]. rewrite <- Hall, !elem_of_app. tauto. }
  assert (Hi0 : decref_inv a (p :: b) l2 rc0 mk).
  { split_and!; [|done|]; intros q Hq; rewrite Hin by tauto; [by apply Ha|by apply H2]. }
  destruct (decref_children rt a (p :: b) l2 rc0 mk (children rt0 p) Hg0 Hi0 Hcl Hrc')
    as (rt1 & a1 & l21 & rc1 & -> & Hg1 & (Ha1 & Hb1 & H21) & Hrc1). cbn [mbind option_bind].
  destruct (gstate_header _ _ _ _ _ _ Hg1 Hp) as [t1 Ht1]. rewrite Ht1. cbn [mbind option_bind ref_count gc_obj_type].
  pose proof (gstate_set _ _ _ _ _ _ _ (rc1 p) 1 Hg1 Ht1) as Hg2.
  assert (Hg3 : gstate (set_header p (mk_header (rc1 p) t1 1) rt1) (a1 ++ p :: b) l21 rc1 (upd mk p 1)).
  { eapply gstate_ext; [exact Hg2|]. intros q _. split; [|done]. unfold upd. by case_decide as E; [rewrite E|]. }
  clear Hg2. assert (Hpn : ~ (p ∈ a1) /\ ~ (p ∈ b) /\ ~ (p ∈ l21)).
  { pose proof (gstate_NoDup _ _ _ _ _ Hg3) as Hnd.
    assert (Ep : (a1 ++ p :: b) ++ l21 ≡ₚ p :: a1 ++ b ++ l21) by perm. rewrite Ep in Hnd.
    apply list.NoDup_cons in Hnd as [Hnd _]. rewrite !elem_of_app in Hnd. tauto. }
  assert (Hrc2 : forall q, q ∈ l0 -> rc1 q = ext q + refs rt0 b q).
  { intros q Hq. rewrite Hrc1. unfold rc0. rewrite decide_True, Hrc, refs_cons by done. lia. }
  assert (Hm : forall q, q ∈ a1 \/ q ∈ b \/ q ∈ l21 -> upd mk p 1 q = mk q).
  { intros q Hq. apply upd_ne. intros ->. tauto. }
  destruct (Z.eqb_spec (rc1 p) 0) as [Hz|Hz].
  - destruct (gstate_to_tmp _ _ _ _ _ _ _ Hg3) as (rt2 & -> & Hg4). cbn [mbind option_bind].
    destruct (next_after _ _ _ _ _ _ Hg4) as (el2 & -> & Hel2). cbn [mbind option_bind].
    cbn [length] in Hf. eapply (IH rt2 a1 b (l21 ++ [p])); try done; [|lia]. split_and!.
    + intros q Hq. rewrite Hm by tauto. by apply Ha1.
    + intros q Hq. rewrite Hm by tauto. apply Hb1. by right.
    + intros q [Hq| ->%list_elem_of_singleton]%elem_of_app; [rewrite Hm by tauto; by apply H21|].
      by rewrite upd_eq.
  - cbn [mbind option_bind]. assert (Hg4 : gstate (set_header p (mk_header (rc1 p) t1 1) rt1) ((a1 ++ [p]) ++ b) l21 rc1 (upd mk p 1))
      by (by rewrite <- app_assoc).
    destruct (next_after _ _ _ _ _ _ Hg4) as (el2 & -> & Hel2). cbn [mbind option_bind].
    cbn [length] in Hf. eapply (IH _ (a1 ++ [p]) b l21); try done; [|lia]. split_and!.
    + intros q [Hq| ->%list_elem_of_singleton]%elem_of_app; [rewrite Hm by tauto; by apply Ha1|].
      rewrite upd_eq. split; [done|]. specialize (Hrc2 p Hp). pose proof (heap_counts _ _ Hheap p).
      pose proof (refs_nonneg rt0 b p). lia.
    + intros q Hq. rewrite Hm by tauto. apply Hb1. by right.
    + intros q Hq. rewrite Hm by tauto. by apply H21.
Qed.

Definition rc_start (q : Z) : Z := match headers rt0 !! q with Some h => ref_count h | None => 0 end.

Lemma start_external q : q ∈ l0 -> rc_start q = ext q + refs rt0 l0 q.
Proof. intros [h Hh]%(heap_headers _ _ Hheap). unfold rc_start, external. rewrite Hh. lia. Qed.

Lemma headers_size : size (headers rt0) = length l0.
Proof.
  assert (E : (map_to_list (headers rt0)).*1 ≡ₚ l0).
  { apply NoDup_Permutation; [apply NoDup_fst_map_to_list| |].
    - pose proof (is_list_NoDup _ _ _ (heap_list _ _ Hheap)) as [_ Hnd]%list.NoDup_cons. by apply NoDup_fmap_1 in Hnd.
    - intros q. rewrite (heap_headers _ _ Hheap). rewrite list_elem_of_fmap. split.
      + intros ([q' h] & -> & Hh%elem_of_map_to_list). by exists h.
      + intros [h Hh%elem_of_map_to_list]. by exists (q, h). }
  rewrite <- E, length_fmap. by rewrite length_map_to_list.
Qed.

Lemma gstate_size rt l1 l2 rc mk : gstate rt l1 l2 rc mk -> size (headers rt) = length l0.
Proof.
  intros Hg. rewrite <- headers_size, <- !(size_dom (D := gset Z)). f_equal. apply set_eq. intros q.
  rewrite !elem_of_dom, (gs_headers _ _ _ _ _ Hg), fmap_is_Some. done.
Qed.

Lemma gc_decref_ok : exists rt l1 l2 rc mk, gc_decref rt0 = Some rt /\ gstate rt l1 l2 rc mk /\
  decref_inv l1 [] l2 rc mk /\ forall q, q ∈ l0 -> rc q = ext q.
Proof.
  unfold gc_decref.
  destruct (init_list_head_empty (links rt0) tmp_obj_list (heap_tmp _ _ Hheap)) as (σ & -> & H2 & F).
  cbn [mbind option_bind].
  assert (H1 : is_list σ gc_obj_list (link <$> l0)).
  { eapply is_list_frame; [|apply (heap_list _ _ Hheap)]. intros x Hx. apply F.
    apply elem_of_cons in Hx as [->|(q & -> & _)%list_elem_of_fmap]; done. }
  assert (Hg : gstate (set_links σ rt0) ([] ++ l0) [] rc_start (fun _ => 0)).
  { split; try done.
    - intros q. cbn [headers set_links]. unfold rc_start. destruct (headers rt0 !! q) as [h|] eqn:E; [|done].
      cbn. f_equal. rewrite <- (heap_marks _ _ Hheap q h E). by destruct h.
    - split_and!; try done. cbn [app]. rewrite app_nil_r.
      pose proof (is_list_NoDup _ _ _ H1) as [_ Hnd]%list.NoDup_cons. by apply NoDup_fmap_1 in Hnd.
    - by rewrite app_nil_r.
    - intros x Hx1 Hx2 _. cbn [links set_links]. by apply F. }
  destruct (next_head _ _ _ _ _ Hg) as [-> _]. cbn [mbind option_bind app].
  destruct (next_after _ _ _ _ _ _ Hg) as (el1 & -> & Hel). cbn [mbind option_bind].
  rewrite (gstate_size _ _ _ _ _ Hg).
  destruct (decref_loop (S (length l0)) _ [] l0 [] rc_start (fun _ => 0) el1 Hg) as (rt & l1 & l2 & rc & mk & E & ?);
    [|intros; by apply start_external|lia|done|].
  - by split_and!; intros q; [intros ?%elem_of_nil| |intros ?%elem_of_nil].
  - by exists rt, l1, l2, rc, mk.
Qed.

(** ** Scanning *)

(** What holds while [s] has been scanned and [t] is waiting: exactly the structures of the
    first list have references, all of them are live, and the mark of the scanned ones is reset. *)
Definition scan_inv (s t l2 : list Z) (rc mk : Z -> Z) : Prop :=
  (forall q, q ∈ s ++ t -> 0 < rc q /\ gc_live rt0 l0 q) /\ (forall q, q ∈ s -> mk q = 0) /\
  (forall q, q ∈ l2 -> mk q = 1 /\ rc q = 0).

Lemma incref_child rt s t l2 rc mk c : gstate rt (s ++ t) l2 rc mk -> scan_inv s t l2 rc mk ->
  c ∈ l0 -> gc_live rt0 l0 c ->
  exists rt' t' l2' mk', gc_scan_incref_child rt c = Some rt' /\
    gstate rt' (s ++ t ++ t') l2' (upd rc c (rc c + 1)) mk' /\ scan_inv s (t ++ t') l2' (upd rc c (rc c + 1)) mk'.
Proof.
  intros Hg (Hs & Hm & H2) Hc Hlive. destruct (gstate_header _ _ _ _ _ _ Hg Hc) as [ty Ht].
  unfold gc_scan_incref_child. rewrite Ht. cbn [mbind option_bind ref_count gc_obj_type mark].
  pose proof (gstate_set _ _ _ _ _ _ _ (rc c + 1) (mk c) Hg Ht) as Hg1.
  assert (Hg2 : gstate (set_header c (mk_header (rc c + 1) ty (mk c)) rt) (s ++ t) l2 (upd rc c (rc c + 1)) mk).
  { eapply gstate_ext; [exact Hg1|]. intros q _. split; [done|]. unfold upd. by case_decide as E; [rewrite E|]. }
  clear Hg1. assert (Hin : c ∈ s ++ t \/ c ∈ l2) by (by apply (gstate_in _ _ _ _ _ _ Hg)).
  destruct (Z.eqb_spec (rc c + 1) 1) as [E|E].
  - destruct Hin as [Hx|Hx]; [apply Hs in Hx as [? _]; lia|].
    apply list_elem_of_split in Hx as (a & b & ->).
    destruct (gstate_to_live _ _ _ _ _ _ _ Hg2) as (rt1 & -> & Hg3). cbn [mbind option_bind].
    destruct (gstate_header _ _ _ _ _ _ Hg3 Hc) as [ty1 Ht1].
    assert (ty1 = ty) as ->.
    { pose proof (gs_headers _ _ _ _ _ Hg c) as E1. pose proof (gs_headers _ _ _ _ _ Hg3 c) as E2.
      rewrite Ht in E1. rewrite Ht1 in E2. destruct (headers rt0 !! c); [|done]. cbn in *. congruence. }
    pose proof (gstate_set _ _ _ _ _ _ _ (rc c + 1) 0 Hg3 Ht1) as Hg4.
    exists (set_header c (mk_header (rc c + 1) ty 0) rt1), [c], (a ++ b), (upd mk c 0). split; [done|].
    assert (Hg5 : gstate (set_header c (mk_header (rc c + 1) ty 0) rt1) (s ++ t ++ [c]) (a ++ b)
      (upd rc c (rc c + 1)) (upd mk c 0)).
    { rewrite app_assoc. eapply gstate_ext; [exact Hg4|]. intros q _. split; [|done]. unfold upd. by case_decide. }
    split; [done|]. clear Hg4.
    assert (Hcn : ~ (c ∈ a ++ b)).
    { intros Hx. eapply (gstate_disjoint _ _ _ _ _ c Hg5); [|done]. rewrite !elem_of_app. right. right. by left. }
    split_and!.
    + intros q. rewrite app_assoc. intros [Hq| ->%list_elem_of_singleton]%elem_of_app.
      * destruct (Hs q Hq) as [? ?]. split; [|done]. unfold upd. case_decide; lia.
      * rewrite upd_eq. split; [lia|done].
    + intros q Hq. unfold upd. case_decide; [done|by apply Hm].
    + intros q Hq. rewrite !upd_ne by (by intros ->). apply H2. rewrite elem_of_app, elem_of_cons.
      apply elem_of_app in Hq. tauto.
  - exists (set_header c (mk_header (rc c + 1) ty (mk c)) rt), [], l2, mk. split; [done|]. rewrite app_nil_r.
    split; [done|]. split_and!; try done.
    + intros q Hq. destruct (Hs q Hq) as [? ?]. split; [|done]. unfold upd. case_decide as Eq; [subst|]; lia.
    + intros q Hq. rewrite upd_ne; [by apply H2|]. intros ->. apply H2 in Hq as [_ ?]. lia.
Qed.

Lemma incref_children rt s t l2 rc mk l : gstate rt (s ++ t) l2 rc mk -> scan_inv s t l2 rc mk ->
  l ⊆ l0 -> (forall c, c ∈ l -> gc_live rt0 l0 c) ->
  exists rt' t' l2' rc' mk', mark_all gc_scan_incref_child l rt = Some rt' /\
    gstate rt' (s ++ t ++ t') l2' rc' mk' /\ scan_inv s (t ++ t') l2' rc' mk' /\ forall q, rc' q = rc q + cnt q l.
Proof.
  revert rt t l2 rc mk. induction l as [|c l IH]; intros rt t l2 rc mk Hg Hi Hl Hlive; cbn [mark_all].
  { exists rt, [], l2, rc, mk. rewrite app_nil_r. split_and!; [done..|]. intros q. cbn. lia. }
  assert (Hc : c ∈ l0) by (apply Hl; by left). assert (Hl' : l ⊆ l0) by (intros q Hq; apply Hl; by right).
  destruct (incref_child rt s t l2 rc mk c) as (rt1 & t1 & l21 & mk1 & -> & Hg1 & Hi1); [done..|apply Hlive; by left|].
  cbn [mbind option_bind].
  destruct (IH rt1 (t ++ t1) l21 _ mk1 Hg1 Hi1 Hl') as (rt2 & t2 & l22 & rc2 & mk2 & -> & Hg2 & Hi2 & Hrc).
  { intros q Hq. apply Hlive. by right. }
  exists rt2, (t1 ++ t2), l22, rc2, mk2. rewrite <- app_assoc in Hg2, Hi2. split_and!; [done..|].
  intros q. rewrite Hrc, upd_add. cbn [cnt]. lia.
Qed.

Lemma live_child p c : gc_live rt0 l0 p -> c ∈ children rt0 p -> gc_live rt0 l0 c.
Proof. intros (r & Hr & He & Hp) Hc. exists r. split_and!; [done..|]. by eapply rtc_r. Qed.

Lemma scan_loop fuel : forall rt s t l2 rc mk, gstate rt (s ++ t) l2 rc mk -> scan_inv s t l2 rc mk ->
  (forall q, q ∈ l0 -> rc q = ext q + refs rt0 s q) -> (length t + length l2 < fuel)%nat ->
  exists rt' s' l2' rc' mk', gc_scan_loop fuel rt (hd gc_obj_list (link <$> t)) = Some rt' /\
    gstate rt' s' l2' rc' mk' /\ scan_inv s' [] l2' rc' mk' /\ forall q, q ∈ l0 -> rc' q = ext q + refs rt0 s' q.
Proof.
  induction fuel as [|fuel IH]; intros rt s t l2 rc mk Hg Hi Hrc Hf; [lia|]. cbn [gc_scan_loop].
  destruct t as [|p t]; cbn [fmap list_fmap hd].
  { rewrite decide_True by done. rewrite app_nil_r in Hg. by exists rt, s, l2, rc, mk. }
  rewrite decide_False by done. cbn [list_entry mbind option_bind].
  assert (Hpi : p ∈ s ++ p :: t) by (rewrite elem_of_app; right; by left).
  assert (Hp : p ∈ l0) by (apply (gstate_in _ _ _ _ _ _ Hg); by left).
  destruct (gstate_header _ _ _ _ _ _ Hg Hp) as [ty Ht]. rewrite Ht. cbn [mbind option_bind ref_count gc_obj_type].
  pose proof Hi as (Hs & Hm & H2). destruct (Hs p Hpi) as [Hpos Hlive].
  rewrite Z.gtb_ltb, (proj2 (Z.ltb_lt _ _)) by done.
  pose proof (gstate_set _ _ _ _ _ _ _ (rc p) 0 Hg Ht) as Hg1. set (rt1 := set_header _ _ _) in *.
  assert (Hg2 : gstate rt1 ((s ++ [p]) ++ t) l2 rc (upd mk p 0)).
  { rewrite <- app_assoc. eapply gstate_ext; [exact Hg1|]. intros q _. split; [|done]. unfold upd. by case_decide as E; [rewrite E|]. }
  clear Hg1. destruct (gstate_children0 _ _ _ _ _ _ Hg2 Hp) as [Hc Hcl]. unfold mark_children. rewrite Hc.
  cbn [mbind option_bind].
  assert (Hi2 : scan_inv (s ++ [p]) t l2 rc (upd mk p 0)).
  { split_and!.
    - rewrite <- app_assoc. exact Hs.
    - intros q [Hq| ->%list_elem_of_singleton]%elem_of_app; [|by rewrite upd_eq]. unfold upd. case_decide; [done|by apply Hm].
    - intros q Hq. rewrite upd_ne; [by apply H2|]. intros ->. by apply (gstate_disjoint _ _ _ _ _ p Hg). }
  destruct (incref_children rt1 (s ++ [p]) t l2 rc _ (children rt0 p) Hg2 Hi2 Hcl)
    as (rt2 & t2 & l22 & rc2 & mk2 & -> & Hg3 & Hi3 & Hrc2).
  { intros c Hc'. by eapply live_child. }
  cbn [mbind option_bind]. assert (Hg4 : gstate rt2 (s ++ p :: t ++ t2) l22 rc2 mk2) by (by rewrite <- app_assoc in Hg3).
  rewrite (next_live _ _ _ _ _ _ _ _ Hg4 eq_refl). cbn [mbind option_bind].
  apply (IH rt2 (s ++ [p]) (t ++ t2) l22 rc2 mk2 Hg3 Hi3).
  - intros q Hq. rewrite Hrc2, Hrc, refs_app, refs_cons by done. unfold refs at 3. cbn. lia.
  - pose proof (Permutation_length (gs_all _ _ _ _ _ Hg)) as E1. pose proof (Permutation_length (gs_all _ _ _ _ _ Hg4)) as E2.
    rewrite !length_app in *. cbn [length] in *. rewrite length_app in E2. lia.
Qed.

(** ** Restoring the counts *)

Lemma restore_children rt l1 l2 rc mk l : gstate rt l1 l2 rc mk -> l ⊆ l0 ->
  exists rt' rc', mark_all gc_scan_incref_child2 l rt = Some rt' /\ gstate rt' l1 l2 rc' mk /\
    forall q, rc' q = rc q + cnt q l.
Proof.
  revert rt rc. induction l as [|c l IH]; intros rt rc Hg Hl; cbn [mark_all].
  { exists rt, rc. split_and!; [done..|]. intros q. cbn. lia. }
  assert (Hc : c ∈ l0) by (apply Hl; by left).
  destruct (gstate_header _ _ _ _ _ _ Hg Hc) as [ty Ht].
  assert (E : gc_scan_incref_child2 rt c = Some (set_header c (mk_header (rc c + 1) ty (mk c)) rt)).
  { unfold gc_scan_incref_child2. by rewrite Ht. }
  rewrite E. cbn [mbind option_bind]. clear E.
  pose proof (gstate_set _ _ _ _ _ _ _ (rc c + 1) (mk c) Hg Ht) as Hg1.
  destruct (IH (set_header c (mk_header (rc c + 1) ty (mk c)) rt) (upd rc c (rc c + 1))) as (rt2 & rc2 & -> & Hg2 & Hrc).
  - eapply gstate_ext; [exact Hg1|]. intros q _. split; [done|]. unfold upd. by case_decide as E; [rewrite E|].
  - intros q Hq. apply Hl. by right.
  - exists rt2, rc2. split_and!; [done..|]. intros q. rewrite Hrc, upd_add. cbn [cnt]. lia.
Qed.

Lemma restore_loop fuel : forall rt l1 a b rc mk, gstate rt l1 (a ++ b) rc mk -> (length b < fuel)%nat ->
  exists rt' rc', gc_restore_loop fuel rt (hd tmp_obj_list (link <$> b)) = Some rt' /\
    gstate rt' l1 (a ++ b) rc' mk /\ forall q, rc' q = rc q + refs rt0 b q.
Proof.
  induction fuel as [|fuel IH]; intros rt l1 a b rc mk Hg Hf; [lia|]. cbn [gc_restore_loop].
  destruct b as [|p b]; cbn [fmap list_fmap hd].
  { rewrite decide_True by done. exists rt, rc. split_and!; [done..|]. intros q. cbn. lia. }
  rewrite decide_False by done. cbn [list_entry mbind option_bind].
  assert (Hp : p ∈ l0) by (apply (gstate_in _ _ _ _ _ _ Hg); right; rewrite elem_of_app; right; by left).
  destruct (gstate_children0 _ _ _ _ _ _ Hg Hp) as [Hc Hcl]. unfold mark_children. rewrite Hc. cbn [mbind option_bind].
  destruct (restore_children rt l1 (a ++ p :: b) rc mk (children rt0 p) Hg Hcl) as (rt1 & rc1 & -> & Hg1 & Hrc1).
  cbn [mbind option_bind]. rewrite (next_tmp _ _ _ _ _ _ _ _ Hg1 eq_refl). cbn [mbind option_bind].
  cbn [length] in Hf. destruct (IH rt1 l1 (a ++ [p]) b rc1 mk) as (rt2 & rc2 & -> & Hg2 & Hrc2); [|lia|].
  { by rewrite <- app_assoc. }
  exists rt2, rc2. split; [done|]. split; [by rewrite <- app_assoc in Hg2|]. intros q. rewrite Hrc2, Hrc1, refs_cons. lia.
Qed.

(** ** The two lists *)

Lemma live_in_heap x : gc_live rt0 l0 x -> x ∈ l0.
Proof.
  intros (r & Hr & _ & Hp). induction Hp as [|a b c Hab _ IH]; [done|]. apply IH.
  destruct (heap_children _ _ Hheap a Hr) as (cs & E & Hcs). unfold children in Hab. rewrite E in Hab. by apply Hcs.
Qed.

(** Closed lists with counts are exactly the live structures. *)
Lemma scanned_live rt s l2 rc mk : gstate rt s l2 rc mk -> scan_inv s [] l2 rc mk ->
  (forall q, q ∈ l0 -> rc q = ext q + refs rt0 s q) -> forall x, gc_live rt0 l0 x -> x ∈ s.
Proof.
  intros Hg (Hs & Hm & H2) Hrc.
  assert (Hpos : forall q, q ∈ l0 -> 0 < rc q -> q ∈ s).
  { intros q Hq Hp. apply (gstate_in _ _ _ _ _ _ Hg) in Hq as [?|Hq]; [done|]. apply H2 in Hq. lia. }
  intros x (r & Hr & He & Hp).
  assert (Hrs : r ∈ s). { apply Hpos; [done|]. rewrite Hrc by done. pose proof (refs_nonneg rt0 s r). lia. }
  clear Hr He. induction Hp as [|a b c Hab _ IH]; [done|]. apply IH.
  assert (Ha : a ∈ l0) by (apply (gstate_in _ _ _ _ _ _ Hg); by left).
  assert (Hb : b ∈ l0) by (by apply (gstate_children0 _ _ _ _ _ _ Hg Ha)).
  apply Hpos; [done|]. rewrite Hrc by done. pose proof (refs_child rt0 a s b Hrs Hab).
  pose proof (heap_counts _ _ Hheap b). lia.
Qed.

Lemma gc_partition : exists rt live dead rc mk, (gc_decref rt0 ≫= gc_scan) = Some rt /\ gstate rt live dead rc mk /\
  (forall q, q ∈ l0 -> rc q = rc_start q) /\ (forall q, q ∈ live <-> gc_live rt0 l0 q) /\
  (forall q, q ∈ live -> mk q = 0) /\ (forall q, q ∈ dead -> mk q = 1).
Proof.
  destruct gc_decref_ok as (rt1 & l1 & l2 & rc1 & mk1 & -> & Hg1 & (H1 & _ & H2) & Hrc1). cbn [mbind option_bind].
  unfold gc_scan. destruct (next_head _ _ _ _ _ Hg1) as [-> _]. cbn [mbind option_bind].
  rewrite (gstate_size _ _ _ _ _ Hg1).
  destruct (scan_loop (S (length l0)) rt1 [] l1 l2 rc1 mk1) as (rt2 & s & l3 & rc2 & mk2 & -> & Hg2 & Hi2 & Hrc2).
  - done.
  - split_and!; [|by intros q ?%elem_of_nil|done]. intros q Hq. destruct (H1 q Hq) as [_ Hp]. split; [done|].
    assert (q ∈ l0) by (apply (gstate_in _ _ _ _ _ _ Hg1); by left).
    exists q. split_and!; [done| |by apply rtc_refl]. rewrite <- Hrc1; done.
  - intros q Hq. rewrite Hrc1 by done. cbn. lia.
  - pose proof (Permutation_length (gs_all _ _ _ _ _ Hg1)) as E. rewrite length_app in E. lia.
  - cbn [mbind option_bind]. destruct (next_head _ _ _ _ _ Hg2) as [_ ->]. cbn [mbind option_bind].
    rewrite (gstate_size _ _ _ _ _ Hg2). pose proof (gs_all _ _ _ _ _ Hg2) as Hall.
    destruct (restore_loop (S (length l0)) rt2 s [] l3 rc2 mk2) as (rt3 & rc3 & -> & Hg3 & Hrc3); [done| |].
    { pose proof (Permutation_length Hall) as E. rewrite length_app in E. lia. }
    exists rt3, s, l3, rc3, mk2. split_and!; [done..| | | |].
    + intros q Hq. rewrite Hrc3, Hrc2, start_external by done.
      assert (E : refs rt0 (s ++ l3) q = refs rt0 l0 q) by (by apply refs_permutation). rewrite refs_app in E. lia.
    + intros q. pose proof Hi2 as (Hs & _). split; [|by apply (scanned_live _ _ _ _ _ Hg2 Hi2 Hrc2)].
      intros Hq. apply Hs. by rewrite app_nil_r.
    + by destruct Hi2 as (_ & ? & _).
    + intros q Hq. by destruct Hi2 as (_ & _ & H); apply H.
Qed.
End run.

(** C4: On a consistent heap (every reference count is at least the number of
    references from heap objects) gc_decref followed by gc_scan terminates without
    failing an assertion, restores every reference count, leaves in gc_obj_list
    exactly the objects reachable from an object that is referenced from outside the
    heap, with their marks reset, and moves exactly the others to tmp_obj_list. *)
Theorem gc_finds_garbage rt l : gc_heap rt l ->
  exists rt' live dead, (gc_decref rt ≫= gc_scan) = Some rt' /\
    is_list (links rt') gc_obj_list (link <$> live) /\ is_list (links rt') tmp_obj_list (link <$> dead) /\
    live ++ dead ≡ₚ l /\ (forall x, x ∈ live <-> gc_live rt l x) /\
    (forall p h, headers rt !! p = Some h ->
       headers rt' !! p = Some (mk_header (ref_count h) (gc_obj_type h) (if decide (p ∈ live) then 0 else 1))) /\
    objects rt' = objects rt.
Proof.
  intros Hheap. destruct (gc_partition rt l Hheap) as (rt' & live & dead & rc & mk & E & Hg & Hrc & Hlive & H0 & H1).
  exists rt', live, dead. destruct (gs_lists _ _ _ _ _ _ _ Hg) as (L1 & L2 & _).
  split_and!; try done; [by eapply gs_all| |by eapply gs_objects].
  intros p h Hh. rewrite (gs_headers _ _ _ _ _ _ _ Hg), Hh. cbn [fmap option_fmap option_map].
  assert (Hp : p ∈ l) by (apply (heap_headers _ _ Hheap); by eexists).
  rewrite Hrc by done. unfold rc_start. rewrite Hh. do 2 f_equal.
  case_decide as Hx; [by apply H0|]. apply H1. apply (gstate_in _ _ _ _ _ _ _ _ Hg) in Hp. tauto.
Qed.
End collector.

(** ** A heap with a live cycle and a dead one *)

Definition demo_classes : JSClasses := js_std_class_def (fun _ => None).

(** The object [2] is on the stack; [2] and [3] refer to each other, and so do [4] and [5]. *)
Definition demo_object (other : Z) : GCObject :=
  GC_object (mk_object JS_CLASS_OBJECT 1 [u_value (JS_MKPTR JS_TAG_OBJECT other)] (u_opaque 0)).

Definition demo_runtime : JSRuntime := {|
  headers := list_to_map [(1, mk_header 4 JS_GC_OBJ_TYPE_SHAPE 0); (2, mk_header 2 JS_GC_OBJ_TYPE_JS_OBJECT 0);
    (3, mk_header 1 JS_GC_OBJ_TYPE_JS_OBJECT 0); (4, mk_header 1 JS_GC_OBJ_TYPE_JS_OBJECT 0);
    (5, mk_header 1 JS_GC_OBJ_TYPE_JS_OBJECT 0)];
  links := list_to_map [(gc_obj_list, mk_list_head (Some (link 5)) (Some (link 1)));
    (tmp_obj_list, mk_list_head None None);
    (link 1, mk_list_head (Some gc_obj_list) (Some (link 2)));
    (link 2, mk_list_head (Some (link 1)) (Some (link 3)));
    (link 3, mk_list_head (Some (link 2)) (Some (link 4)));
    (link 4, mk_list_head (Some (link 3)) (Some (link 5)));
    (link 5, mk_list_head (Some (link 4)) (Some gc_obj_list))];
  objects := list_to_map [
    (1, GC_shape (mk_shape false false 0 3 2 1 0 0 0 [mk_shape_property 0 0 80; mk_shape_property 0 0 0] [1; 0; 0; 0]));
    (2, demo_object 3); (3, demo_object 2); (4, demo_object 5); (5, demo_object 4)];
  stack_values := ∅;
  class_count := 0;
  gc_phase := JS_GC_PHASE_NONE
|}.

Lemma demo_heap : @gc_heap demo_classes demo_runtime [1; 2; 3; 4; 5].
Proof.
  assert (Hcases : forall p h, headers demo_runtime !! p = Some h -> p ∈ [1; 2; 3; 4; 5]).
  { intros p h Hh%elem_of_list_to_map_2. exact (list_elem_of_fmap_2 fst _ _ Hh). }
  split.
  - split; [|split]; [apply (bool_decide_unpack _); vm_compute; exact I|reflexivity|].
    cbn [chain fmap list_fmap]. split_and!; reflexivity.
  - by eexists.
  - intros p. split; [|by intros [h ?]; eapply Hcases].
    rewrite !elem_of_cons. intros [->|[->|[->|[->|[->|?%elem_of_nil]]]]]; [by eexists..|done].
  - intros p h Hh. pose proof (Hcases p h Hh) as Hp. rewrite !elem_of_cons in Hp.
    destruct Hp as [->|[->|[->|[->|[->|?%elem_of_nil]]]]]; [by injection Hh as <-..|done].
  - intros p. rewrite !elem_of_cons.
    intros [->|[->|[->|[->|[->|?%elem_of_nil]]]]]; [eexists; split; [vm_compute; reflexivity|]; intros q; rewrite !elem_of_cons; tauto..|done].
  - intros p. unfold external. destruct (headers demo_runtime !! p) as [h|] eqn:Hh; [|done].
    pose proof (Hcases p h Hh) as Hp. rewrite !elem_of_cons in Hp.
    destruct Hp as [->|[->|[->|[->|[->|?%elem_of_nil]]]]]; [injection Hh as <-; vm_compute; congruence..|done].
Qed.

Lemma gc_finds_garbage_witness :
  exists rt' live dead, (@gc_decref demo_classes demo_runtime ≫= @gc_scan demo_classes) = Some rt' /\
    is_list (links rt') gc_obj_list (link <$> live) /\ is_list (links rt') tmp_obj_list (link <$> dead) /\
    live ++ dead ≡ₚ [1; 2; 3; 4; 5].
Proof.
  destruct (gc_finds_garbage (classes := demo_classes) demo_runtime [1; 2; 3; 4; 5] demo_heap)
    as (rt' & live & dead & E & L1 & L2 & Hp & _).
  exists rt', live, dead. split; [exact E|]. split; [exact L1|]. split; [exact L2|exact Hp].
Defined.

(** The collector, evaluated on this heap. *)
Example demo_collected : (rt ← @gc_decref demo_classes demo_runtime; rt ← @gc_scan demo_classes rt;
    el ← get_next (links rt) gc_obj_list; el2 ← get_next (links rt) tmp_obj_list; el3 ← get_next (links rt) el2;
    Some (el, el2, el3)) = Some (link 2, link 4, link 5).
Proof. vm_compute. reflexivity. Qed.
