(* ===== verification/Chain.v ===== *)
(** * Chains of indices and sums over maps

    The hash tables of quickjs.c chain the entries of an array by index; 0 ends a chain.
    [next] gives the field that links an entry to the following one.  The sums count over the
    entries of a map: how many objects use a shape, how often an atom occurs in the
    shapes. *)

From stdpp Require Import list.
From stdpp Require Import gmap.
From S2P Require Import Prelude.

Section chains.
Context (next : Z -> option Z).

(** From the index [h], the entries [l] follow each other. *)
Fixpoint ichain (h : Z) (l : list Z) : Prop :=
  match l with
  | [] => h = 0
  | x :: l' => h = x /\ x <> 0 /\ exists n, next x = Some n /\ ichain n l'
  end.

Lemma ichain_unique h l l' : ichain h l -> ichain h l' -> l = l'.
Proof.
  revert h l'. induction l as [|x l IH]; intros h [|y l']; cbn [ichain]; [done|by intros -> (? & ? & _); lia|
    by intros (-> & ? & _) ?; lia|].
  intros (-> & _ & n & Hn & Hl) (<- & _ & n' & Hn' & Hl'). assert (n' = n) as -> by congruence. f_equal. by eapply IH.
Qed.

Lemma ichain_app h l1 l2 : ichain h (l1 ++ l2) <->
  exists m, ichain m l2 /\ match l1 with
    | [] => h = m
    | x :: _ => h = x /\ forall a x b, l1 = a ++ x :: b -> x <> 0 /\ next x = Some (hd m b)
    end.
Proof.
  revert h. induction l1 as [|x l1 IH]; intros h; cbn [app ichain].
  { split; [by exists h|by intros (m & ? & ->)]. }
  split.
  - intros (-> & Hx & n & Hn & (m & Hm & Hl)%IH). exists m. split; [done|]. split; [done|].
    intros [|y a] z b [= <- E]; [subst b|].
    + split; [done|]. rewrite Hn. destruct l1 as [|y l1]; [by subst|]. destruct Hl as [-> _]. done.
    + destruct l1 as [|y' l1]; [by destruct a|]. destruct Hl as [_ Hl]. by apply (Hl a z b).
  - intros (m & Hm & -> & Hl). split; [done|]. destruct (Hl [] x l1 eq_refl) as [Hx Hn]. split; [done|].
    exists (hd m l1). split; [done|]. apply IH. exists m. split; [done|].
    destruct l1 as [|y l1]; [done|]. split; [done|]. intros a z b E. apply (Hl (x :: a) z b). by rewrite E.
Qed.

Lemma ichain_nonzero h l x : ichain h l -> x ∈ l -> x <> 0 /\ is_Some (next x).
Proof.
  revert h. induction l as [|y l IH]; intros h; cbn [ichain]; [by intros _ ?%elem_of_nil|].
  intros (-> & Hy & n & Hn & Hl) [->|Hx]%elem_of_cons; [split; [done|by eexists]|by eapply IH].
Qed.

(** A chain that ends has no entry twice. *)
Lemma ichain_NoDup h l : ichain h l -> NoDup l.
Proof.
  revert h. induction l as [|x l IH]; intros h; cbn [ichain]; [constructor|]. intros (-> & Hx & n & Hn & Hl).
  apply list.NoDup_cons. split; [|by eapply IH]. intros (l1 & l2 & ->)%list_elem_of_split.
  assert (Hs : exists m, ichain m (x :: l2)).
  { revert Hl. clear. revert n. induction l1 as [|y l1 IH]; intros n; cbn [app ichain].
    - intros H. exists n. exact H.
    - intros (-> & _ & m & _ & Hl). by eapply IH. }
  destruct Hs as (m & -> & _ & n' & Hn' & Hl2). assert (n' = n) as -> by congruence.
  pose proof (ichain_unique n _ _ Hl Hl2) as E. apply (f_equal length) in E. rewrite length_app in E. cbn [length] in E. lia.
Qed.

End chains.

Lemma ichain_frame next next' h l : (forall x, x ∈ l -> next' x = next x) -> ichain next h l -> ichain next' h l.
Proof.
  revert h. induction l as [|x l IH]; intros h Hf; cbn [ichain]; [done|]. intros (-> & Hx & n & Hn & Hl).
  split_and!; [done..|]. exists n. rewrite Hf by (by left). split; [done|]. apply IH; [|done].
  intros y Hy. apply Hf. by right.
Qed.

(** The entry [x] leaves its chain: the one before it, or the head, takes its successor. *)
Lemma ichain_delete next next' h l1 x l2 : ichain next h (l1 ++ x :: l2) -> NoDup (l1 ++ x :: l2) ->
  (forall y, y ∈ l1 ++ l2 -> y <> List.last l1 0 -> next' y = next y) ->
  (l1 <> [] -> next' (List.last l1 0) = next x) ->
  exists n, next x = Some n /\ ichain next' (if decide (l1 = []) then n else h) (l1 ++ l2).
Proof.
  revert h. induction l1 as [|y l1 IH]; intros h; cbn [app ichain].
  - intros (-> & Hx & n & Hn & Hl) [Hx' _]%list.NoDup_cons Hf _. exists n. split; [done|]. rewrite decide_True by done.
    eapply ichain_frame; [|exact Hl]. intros y Hy. apply Hf; [done|]. cbn.
    by destruct (ichain_nonzero _ _ _ _ Hl Hy).
  - intros (-> & Hy & n & Hn & Hl) [Hy' Hnd]%list.NoDup_cons Hf Hlast.
    destruct l1 as [|z l1].
    + cbn [app ichain] in *. destruct Hl as (-> & Hx & m & Hm & Hl). exists m. split; [done|].
      rewrite decide_False by done. split_and!; [done..|]. exists m. split; [rewrite <- Hm; by apply Hlast|].
      apply list.NoDup_cons in Hnd as [Hx' _].
      eapply ichain_frame; [|exact Hl]. intros w Hw. apply Hf; [by right|]. cbn. intros ->. apply Hy'. by right.
    + destruct (IH n Hl Hnd) as (m & Hm & Hl').
      * intros w Hw Hne. apply Hf; [by right|]. done.
      * intros _. by apply Hlast.
      * exists m. split; [done|]. rewrite decide_False in Hl' by done. rewrite decide_False by done. split_and!; [done..|].
        exists n. split; [|done]. rewrite Hf; [done|by left|]. intros E. apply Hy'.
        change (List.last (y :: z :: l1) 0) with (List.last (z :: l1) 0) in E.
        apply elem_of_app. left. rewrite E. clear. revert z. induction l1 as [|w l1 IH]; intros z; [by left|].
        right. apply (IH w).
Qed.

(** ** Arrays *)

(** [array[i] = x] *)
Lemma zupd_write {A} (l : list A) i x y : znth l i = Some y ->
  exists l', zupd l i x = Some l' /\ zlen l' = zlen l /\
    forall j, znth l' j = if decide (j = i) then Some x else znth l j.
Proof.
  intros Hi. pose proof (znth_Some_range _ _ _ Hi) as Hr. rewrite (zupd_is_Some l i x Hr). eexists. split; [done|].
  split; [unfold zlen; by rewrite length_insert|]. intros j. case_decide as E.
  - subst j. rewrite znth_lookup, list_lookup_insert_eq by (unfold zlen in Hr; lia). done.
  - unfold znth. destruct (Z.ltb_spec j 0); [done|]. by rewrite list_lookup_insert_ne by lia.
Qed.

(** Distinct indices of an array are no more than its size. *)
Lemma NoDup_indices (l : list Z) n : NoDup l -> (forall x, x ∈ l -> 0 <= x < n) -> zlen l <= Z.max 0 n.
Proof.
  intros Hnd Hl. assert (E : l ⊆+ seqZ 0 n).
  { apply NoDup_submseteq; [done|]. intros x Hx. apply elem_of_seqZ. specialize (Hl x Hx). lia. }
  apply submseteq_length in E. rewrite length_seqZ in E. unfold zlen. lia.
Qed.

Lemma last_nonempty (l : list Z) d : l <> [] -> List.last l d ∈ l.
Proof.
  destruct l as [|y l]; [done|]. intros _. revert y. induction l as [|z l IH]; intros y; [by left|]. right. apply (IH z).
Qed.

Section sums.
Context {A : Type}.
Implicit Types (f g : Z -> A -> Z) (m : gmap Z A).

Definition msum f m : Z := map_fold (fun k v n => f k v + n) 0 m.

Lemma msum_empty f : msum f ∅ = 0.
Proof. apply map_fold_empty. Qed.

Lemma msum_insert f m k v : m !! k = None -> msum f (<[k := v]> m) = f k v + msum f m.
Proof. intros Hk. unfold msum. apply (map_fold_insert_L (fun k v n => f k v + n)); [|done]. intros; lia. Qed.

Lemma msum_delete f m k v : m !! k = Some v -> msum f (delete k m) = msum f m - f k v.
Proof.
  intros Hk. rewrite <- (insert_delete_id m k v Hk) at 2. rewrite msum_insert by apply lookup_delete_eq. lia.
Qed.

Lemma msum_update f m k v w : m !! k = Some v -> msum f (<[k := w]> m) = msum f m - f k v + f k w.
Proof.
  intros Hk. rewrite <- insert_delete_eq, msum_insert by apply lookup_delete_eq. rewrite (msum_delete f m k v Hk). lia.
Qed.

Lemma msum_nonneg f m : (forall k v, m !! k = Some v -> 0 <= f k v) -> 0 <= msum f m.
Proof.
  induction m as [|k v m Hk IH] using map_ind; intros Hf; [by rewrite msum_empty|].
  rewrite msum_insert by done. pose proof (Hf k v ltac:(apply lookup_insert_eq)).
  assert (0 <= msum f m); [|lia]. apply IH. intros k' v' Hk'. apply Hf. rewrite lookup_insert_ne; [done|]. congruence.
Qed.

Lemma msum_pos f m k v : (forall k v, m !! k = Some v -> 0 <= f k v) -> m !! k = Some v -> f k v <= msum f m.
Proof.
  intros Hf Hk. pose proof (msum_delete f m k v Hk) as E.
  assert (0 <= msum f (delete k m)); [|lia]. apply msum_nonneg. intros k' v' [_ H']%lookup_delete_Some. by apply Hf.
Qed.

(** Two entries count at least their sum. *)
Lemma msum_pos2 f m k v k' v' : (forall k v, m !! k = Some v -> 0 <= f k v) -> k <> k' ->
  m !! k = Some v -> m !! k' = Some v' -> f k v + f k' v' <= msum f m.
Proof.
  intros Hf Hne Hk Hk'. pose proof (msum_delete f m k v Hk) as E.
  assert (f k' v' <= msum f (delete k m)); [|lia].
  apply msum_pos; [|by rewrite lookup_delete_ne]. intros i w [_ Hi]%lookup_delete_Some. by apply Hf.
Qed.

Lemma msum_ext f g m : (forall k v, m !! k = Some v -> f k v = g k v) -> msum f m = msum g m.
Proof.
  induction m as [|k v m Hk IH] using map_ind; intros Hf; [done|].
  rewrite !msum_insert by done. rewrite (Hf k v) by apply lookup_insert_eq. rewrite IH; [done|].
  intros k' v' Hk'. apply Hf. rewrite lookup_insert_ne; [done|]. congruence.
Qed.

(** A map that differs in the entry [k] only. *)
Lemma msum_zero f m : (forall k v, m !! k = Some v -> f k v = 0) -> msum f m = 0.
Proof.
  intros Hf. rewrite (msum_ext f (fun _ _ => 0) m) by done. induction m as [|k v m Hk IH] using map_ind; [done|].
  rewrite msum_insert by done. rewrite IH; [done|]. intros. apply Hf. rewrite lookup_insert_ne; [done|]. congruence.
Qed.
End sums.
