(* ===== verification/ShapeTable.v ===== *)
(** * Shapes: the properties of objects (quickjs.c)

    The names and flags of the properties of an object are in its shape, the values in an
    array of the object.  A shape has a hash table of its properties, whose chains run
    through [hash_next] (an index from 1, 0 at the end).  Objects share shapes: a shape that
    is in the hash table of the runtime is never changed while another reference to it
    exists.

    Shapes and objects lie at addresses.  The value array of an object has the length that
    was allocated, [None] being a slot that was not written yet; [sh_prop] has the
    [prop_count] properties in use.  The calls that concern other components (references to
    atoms and objects, values that are freed, the list of the collector) are recorded in
    their order.  [None] is undefined behaviour, a failed assertion or a loop that does not
    end. *)

From stdpp Require Import gmap.
From S2P Require Import Prelude CStr ListHead GcHeap.

(** ** State *)

Record JSShape := mk_shape {
  sh_ref_count : Z;
  sh_is_hashed : bool;
  sh_small_index : bool;
  sh_hash : Z;
  sh_hash_mask : Z;
  sh_prop_size : Z;
  sh_prop_count : Z;
  sh_deleted : Z;
  sh_next : Z;
  sh_proto : Z;
  sh_prop : list JSShapeProperty;
  sh_prop_hash : list Z
}.

Record JSObject := mk_object { obj_shape : Z; obj_prop : list (option JSProperty) }.

Inductive RtCall :=
  | CallDupAtom (a : Z)
  | CallFreeAtom (a : Z)
  | CallDupObject (p : Z)
  | CallFreeObject (p : Z)
  | CallFreeProperty (pr : JSProperty) (flags : Z)
  | CallGcAdd (p : Z)
  | CallGcRemove (p : Z)
  | CallTriggerGc.

Record ShapeHeap := mk_heap {
  shape_hash_bits : Z;
  shape_hash_size : Z;
  shape_hash_count : Z;
  shape_hash : list Z;
  shapes : gmap Z JSShape;
  sobjects : gmap Z JSObject;
  calls : list RtCall
}.

Definition set_shapes (m : gmap Z JSShape) (σ : ShapeHeap) : ShapeHeap :=
  mk_heap (shape_hash_bits σ) (shape_hash_size σ) (shape_hash_count σ) (shape_hash σ) m (sobjects σ) (calls σ).
Definition set_sobjects (m : gmap Z JSObject) (σ : ShapeHeap) : ShapeHeap :=
  mk_heap (shape_hash_bits σ) (shape_hash_size σ) (shape_hash_count σ) (shape_hash σ) (shapes σ) m (calls σ).
Definition set_shape_hash (l : list Z) (n : Z) (σ : ShapeHeap) : ShapeHeap :=
  mk_heap (shape_hash_bits σ) (shape_hash_size σ) n l (shapes σ) (sobjects σ) (calls σ).
Definition record (l : list RtCall) (σ : ShapeHeap) : ShapeHeap :=
  mk_heap (shape_hash_bits σ) (shape_hash_size σ) (shape_hash_count σ) (shape_hash σ) (shapes σ) (sobjects σ) (calls σ ++ l).

Definition put_shape (p : Z) (sh : JSShape) (σ : ShapeHeap) : ShapeHeap := set_shapes (<[p := sh]> (shapes σ)) σ.
Definition put_object (o : Z) (ob : JSObject) (σ : ShapeHeap) : ShapeHeap := set_sobjects (<[o := ob]> (sobjects σ)) σ.

(** Updates of one shape. *)
Definition set_sh_ref (n : Z) (sh : JSShape) : JSShape :=
  mk_shape n (sh_is_hashed sh) (sh_small_index sh) (sh_hash sh) (sh_hash_mask sh) (sh_prop_size sh) (sh_prop_count sh)
    (sh_deleted sh) (sh_next sh) (sh_proto sh) (sh_prop sh) (sh_prop_hash sh).
Definition set_sh_hashed (b : bool) (sh : JSShape) : JSShape :=
  mk_shape (sh_ref_count sh) b (sh_small_index sh) (sh_hash sh) (sh_hash_mask sh) (sh_prop_size sh) (sh_prop_count sh)
    (sh_deleted sh) (sh_next sh) (sh_proto sh) (sh_prop sh) (sh_prop_hash sh).
Definition set_sh_hash (h : Z) (sh : JSShape) : JSShape :=
  mk_shape (sh_ref_count sh) (sh_is_hashed sh) (sh_small_index sh) h (sh_hash_mask sh) (sh_prop_size sh) (sh_prop_count sh)
    (sh_deleted sh) (sh_next sh) (sh_proto sh) (sh_prop sh) (sh_prop_hash sh).
Definition set_sh_next (n : Z) (sh : JSShape) : JSShape :=
  mk_shape (sh_ref_count sh) (sh_is_hashed sh) (sh_small_index sh) (sh_hash sh) (sh_hash_mask sh) (sh_prop_size sh)
    (sh_prop_count sh) (sh_deleted sh) n (sh_proto sh) (sh_prop sh) (sh_prop_hash sh).
(** The table of the properties: their array, the hash table with its mask, and the sizes. *)
Definition set_sh_table (props : list JSShapeProperty) (hash : list Z) (mask size count deleted : Z) (sh : JSShape) : JSShape :=
  mk_shape (sh_ref_count sh) (sh_is_hashed sh) (sh_small_index sh) (sh_hash sh) mask size count deleted
    (sh_next sh) (sh_proto sh) props hash.
Definition set_sh_small_index (b : bool) (sh : JSShape) : JSShape :=
  mk_shape (sh_ref_count sh) (sh_is_hashed sh) b (sh_hash sh) (sh_hash_mask sh) (sh_prop_size sh) (sh_prop_count sh)
    (sh_deleted sh) (sh_next sh) (sh_proto sh) (sh_prop sh) (sh_prop_hash sh).

(** The bit fields of [JSShapeProperty]: [hash_next : 26], [flags : 6]. *)
Definition prop_entry (hash_next flags atom : Z) : JSShapeProperty :=
  mk_shape_property (Z.land hash_next 0x3ffffff) (Z.land flags 63) atom.

Definition JS_PROP_INITIAL_SIZE : Z := 2.
Definition JS_PROP_INITIAL_HASH_SIZE : Z := 4.
Definition JS_PROP_CONFIGURABLE : Z := 1.

(** The allocator: the address of a new block, or of a block that was resized. *)
Class ShapeMalloc := {
  sh_malloc : ShapeHeap -> Z -> option Z;
  sh_realloc : ShapeHeap -> Z -> Z -> option Z
}.

Definition get_shape_size (hash_size prop_size : Z) : Z := hash_size * 4 + 64 + prop_size * 8.
Definition sizeof_JSProperty : Z := 16.
Definition sizeof_JSObject : Z := 72.

(** The block of a value array with [n] slots. *)
Definition resize_slots (n : Z) (l : list (option JSProperty)) : list (option JSProperty) :=
  take (Z.to_nat n) l ++ replicate (Z.to_nat n - length l) None.

(** ** The hash table of the shapes *)

Definition shape_hash_mix (h val : Z) : Z := u32 (u32 (h + val) * 0x9e370001).
Definition get_shape_hash (h hash_bits : Z) : Z := Z.shiftr h (32 - hash_bits).
Definition shape_initial_hash (proto : Z) : Z :=
  shape_hash_mix (shape_hash_mix 1 (u32 proto)) (u32 (Z.shiftr proto 32)).

Section shapes.
Context {M : ShapeMalloc}.

Definition init_shape_hash (σ : ShapeHeap) : ShapeHeap * Z :=
  let size := Z.shiftl 1 4 in
  match sh_malloc σ (8 * size) with
  | None => (mk_heap 4 size 0 [] (shapes σ) (sobjects σ) (calls σ), -1)
  | Some _ => (mk_heap 4 size 0 (replicate (Z.to_nat size) 0) (shapes σ) (sobjects σ) (calls σ), 0)
  end.

(** One chain of the old table, shape by shape, into the new one. *)
Fixpoint rehash_shapes (fuel : nat) (σ : ShapeHeap) (new_hash : list Z) (bits p : Z) : option (ShapeHeap * list Z) :=
  if p =? 0 then Some (σ, new_hash)
  else
    match fuel with
    | O => None
    | S fuel' =>
        sh ← shapes σ !! p;
        let sh_next := sh_next sh in
        let h := get_shape_hash (sh_hash sh) bits in
        n ← znth new_hash h;
        let σ := put_shape p (set_sh_next n sh) σ in
        new_hash ← zupd new_hash h p;
        rehash_shapes fuel' σ new_hash bits sh_next
    end.

Fixpoint rehash_buckets (σ : ShapeHeap) (old new_hash : list Z) (bits : Z) : option (ShapeHeap * list Z) :=
  match old with
  | [] => Some (σ, new_hash)
  | p :: old =>
      '(σ, new_hash) ← rehash_shapes (size (shapes σ)) σ new_hash bits p;
      rehash_buckets σ old new_hash bits
  end.

(** [1 << new_shape_hash_bits] is an [int]. *)
Definition resize_shape_hash (σ : ShapeHeap) (bits : Z) : option (ShapeHeap * Z) :=
  if bits >? 30 then None
  else
    let size := Z.shiftl 1 bits in
    match sh_malloc σ (8 * size) with
    | None => Some (σ, -1)
    | Some _ =>
        old ← zslice (shape_hash σ) 0 (shape_hash_size σ);
        '(σ, new_hash) ← rehash_buckets σ old (replicate (Z.to_nat size) 0) bits;
        Some (mk_heap bits size (shape_hash_count σ) new_hash (shapes σ) (sobjects σ) (calls σ), 0)
    end.

Definition js_shape_hash_link (σ : ShapeHeap) (p : Z) : option ShapeHeap :=
  sh ← shapes σ !! p;
  let h := get_shape_hash (sh_hash sh) (shape_hash_bits σ) in
  n ← znth (shape_hash σ) h;
  l ← zupd (shape_hash σ) h p;
  Some (set_shape_hash l (shape_hash_count σ + 1) (put_shape p (set_sh_next n sh) σ)).

(** [*psh] is [cur]: a field [shape_hash_next] of the shape [prev], or the bucket [h]. *)
Fixpoint unlink_shape (fuel : nat) (σ : ShapeHeap) (h : Z) (prev : option Z) (cur p : Z) : option ShapeHeap :=
  if cur =? p then
    sh ← shapes σ !! p;
    match prev with
    | None => l ← zupd (shape_hash σ) h (sh_next sh); Some (set_shape_hash l (shape_hash_count σ) σ)
    | Some q => sh0 ← shapes σ !! q; Some (put_shape q (set_sh_next (sh_next sh) sh0) σ)
    end
  else
    match fuel with
    | O => None
    | S fuel' => sh ← shapes σ !! cur; unlink_shape fuel' σ h (Some cur) (sh_next sh) p
    end.

Definition js_shape_hash_unlink (σ : ShapeHeap) (p : Z) : option ShapeHeap :=
  sh ← shapes σ !! p;
  let h := get_shape_hash (sh_hash sh) (shape_hash_bits σ) in
  cur ← znth (shape_hash σ) h;
  σ ← unlink_shape (size (shapes σ)) σ h None cur p;
  Some (set_shape_hash (shape_hash σ) (shape_hash_count σ - 1) σ).

(** ** Shapes *)

Definition dup_proto (proto : Z) : list RtCall := if proto =? 0 then [] else [CallDupObject proto].
Definition free_proto (proto : Z) : list RtCall := if proto =? 0 then [] else [CallFreeObject proto].

Definition js_new_shape2 (σ : ShapeHeap) (proto hash_size prop_size : Z) : option (ShapeHeap * Z) :=
  '(σ, _) ← (if 2 * (shape_hash_count σ + 1) >? shape_hash_size σ
             then resize_shape_hash σ (shape_hash_bits σ + 1) else Some (σ, 0));
  match sh_malloc σ (get_shape_size hash_size prop_size) with
  | None => Some (σ, 0)
  | Some p =>
      let sh := mk_shape 1 true false (shape_initial_hash proto) (u32 (hash_size - 1)) prop_size 0 0 0 proto
                  [] (replicate (Z.to_nat hash_size) 0) in
      σ ← js_shape_hash_link (record (CallGcAdd p :: dup_proto proto) (put_shape p sh σ)) p;
      Some (σ, p)
  end.

Definition js_new_shape (σ : ShapeHeap) (proto : Z) : option (ShapeHeap * Z) :=
  js_new_shape2 σ proto JS_PROP_INITIAL_HASH_SIZE JS_PROP_INITIAL_SIZE.

Definition js_clone_shape (σ : ShapeHeap) (p1 : Z) : option (ShapeHeap * Z) :=
  sh1 ← shapes σ !! p1;
  match sh_malloc σ (get_shape_size (sh_hash_mask sh1 + 1) (sh_prop_size sh1)) with
  | None => Some (σ, 0)
  | Some p =>
      let sh := set_sh_hashed false (set_sh_ref 1 sh1) in
      Some (record (CallGcAdd p :: dup_proto (sh_proto sh) ++ map (fun pr => CallDupAtom (prop_atom pr)) (sh_prop sh))
              (put_shape p sh σ), p)
  end.

Definition js_dup_shape (σ : ShapeHeap) (p : Z) : option ShapeHeap :=
  sh ← shapes σ !! p;
  Some (put_shape p (set_sh_ref (sh_ref_count sh + 1) sh) σ).

Definition js_free_shape0 (σ : ShapeHeap) (p : Z) : option ShapeHeap :=
  sh ← shapes σ !! p;
  if sh_ref_count sh =? 0 then
    σ ← (if sh_is_hashed sh then js_shape_hash_unlink σ p else Some σ);
    Some (set_shapes (delete p (shapes σ))
            (record (free_proto (sh_proto sh) ++ map (fun pr => CallFreeAtom (prop_atom pr)) (sh_prop sh) ++ [CallGcRemove p]) σ))
  else None.

Definition js_free_shape (σ : ShapeHeap) (p : Z) : option ShapeHeap :=
  sh ← shapes σ !! p;
  let n := sh_ref_count sh - 1 in
  let σ := put_shape p (set_sh_ref n sh) σ in
  if n <=? 0 then js_free_shape0 σ p else Some σ.

(** [while (new_hash_size < new_size) new_hash_size = 2 * new_hash_size] *)
Fixpoint grow_hash_size (fuel : nat) (hash_size new_size : Z) : option Z :=
  if hash_size <? new_size then
    match fuel with O => None | S fuel' => grow_hash_size fuel' (u32 (2 * hash_size)) new_size end
  else Some hash_size.

(** The entries from index [i] on into an empty hash table. *)
Fixpoint rehash_props (prs : list JSShapeProperty) (i : Z) (hash : list Z) (mask : Z)
  : option (list JSShapeProperty * list Z) :=
  match prs with
  | [] => Some ([], hash)
  | pr :: prs =>
      if negb (prop_atom pr =? JS_ATOM_NULL) then
        let h := Z.land (prop_atom pr) mask in
        n ← znth hash h;
        hash ← zupd hash h (i + 1);
        '(prs, hash) ← rehash_props prs (i + 1) hash mask;
        Some (prop_entry n (prop_flags pr) (prop_atom pr) :: prs, hash)
      else
        '(prs, hash) ← rehash_props prs (i + 1) hash mask;
        Some (pr :: prs, hash)
  end.

(** The shape of the object [o] is moved to the address [p']. *)
Definition move_shape (σ : ShapeHeap) (o p p' : Z) (sh : JSShape) : option ShapeHeap :=
  ob ← sobjects σ !! o;
  Some (put_object o (mk_object p' (obj_prop ob))
          (record [CallGcRemove p; CallGcAdd p'] (put_shape p' sh (set_shapes (delete p (shapes σ)) σ)))).

(** With [psh = &p->shape] for the object [p] at [o]. *)
Definition resize_properties (σ : ShapeHeap) (o count : Z) : option (ShapeHeap * Z) :=
  ob ← sobjects σ !! o;
  let p := obj_shape ob in
  sh ← shapes σ !! p;
  if sh_prop_size sh * 3 >? INT32_MAX then None
  else
    let new_size := max_int count (sh_prop_size sh * 3 / 2) in
    match sh_malloc σ (sizeof_JSProperty * new_size) with
    | None => Some (σ, -1)
    | Some _ =>
        let σ := put_object o (mk_object p (resize_slots new_size (obj_prop ob))) σ in
        new_hash_size ← grow_hash_size 32 (sh_hash_mask sh + 1) new_size;
        if negb (new_hash_size =? sh_hash_mask sh + 1) then
          match sh_malloc σ (get_shape_size new_hash_size new_size) with
          | None => Some (σ, -1)
          | Some p' =>
              let mask := new_hash_size - 1 in
              '(prs, hash) ← rehash_props (sh_prop sh) 0 (replicate (Z.to_nat new_hash_size) 0) mask;
              σ ← move_shape σ o p p' (set_sh_table prs hash mask new_size (sh_prop_count sh) (sh_deleted sh) sh);
              Some (σ, 0)
          end
        else
          match sh_realloc σ p (get_shape_size new_hash_size new_size) with
          | None => Some (record [CallGcRemove p; CallGcAdd p] σ, -1)
          | Some p' =>
              σ ← move_shape σ o p p' (set_sh_table (sh_prop sh) (sh_prop_hash sh) (sh_hash_mask sh) new_size
                                         (sh_prop_count sh) (sh_deleted sh) sh);
              Some (σ, 0)
          end
    end.

(** [while ((new_hash_size / 2) >= new_size) new_hash_size = new_hash_size / 2] *)
Fixpoint shrink_hash_size (fuel : nat) (hash_size new_size : Z) : option Z :=
  if hash_size / 2 >=? new_size then
    match fuel with O => None | S fuel' => shrink_hash_size fuel' (hash_size / 2) new_size end
  else Some hash_size.

(** The entry [i] of the old shape becomes the entry [j] of the new one, with its value. *)
Fixpoint compact_loop (prs : list JSShapeProperty) (i j : Z) (hash : list Z) (mask : Z) (prop : list (option JSProperty))
  : option (list JSShapeProperty * list Z * list (option JSProperty) * Z) :=
  match prs with
  | [] => Some ([], hash, prop, j)
  | pr :: prs =>
      if negb (prop_atom pr =? JS_ATOM_NULL) then
        let h := Z.land (prop_atom pr) mask in
        n ← znth hash h;
        hash ← zupd hash h (j + 1);
        v ← znth prop i;
        prop ← zupd prop j v;
        '(prs, hash, prop, j') ← compact_loop prs (i + 1) (j + 1) hash mask prop;
        Some (prop_entry n (prop_flags pr) (prop_atom pr) :: prs, hash, prop, j')
      else compact_loop prs (i + 1) j hash mask prop
  end.

Definition compact_properties (σ : ShapeHeap) (o : Z) : option (ShapeHeap * Z) :=
  ob ← sobjects σ !! o;
  let p := obj_shape ob in
  sh ← shapes σ !! p;
  let new_size := max_int JS_PROP_INITIAL_SIZE (sh_prop_count sh - sh_deleted sh) in
  if negb (sh_is_hashed sh) && (new_size <=? sh_prop_size sh) then
    new_hash_size ← shrink_hash_size 32 (sh_hash_mask sh + 1) new_size;
    let mask := new_hash_size - 1 in
    match sh_malloc σ (get_shape_size new_hash_size new_size) with
    | None => Some (σ, -1)
    | Some p' =>
        '(prs, hash, prop, j) ← compact_loop (sh_prop sh) 0 0 (replicate (Z.to_nat new_hash_size) 0) mask (obj_prop ob);
        if j =? sh_prop_count sh - sh_deleted sh then
          σ ← move_shape σ o p p' (set_sh_table prs hash mask new_size j 0 sh);
          let prop := match sh_realloc σ o (sizeof_JSProperty * new_size) with
                      | Some _ => resize_slots new_size prop
                      | None => prop
                      end in
          Some (put_object o (mk_object p' prop) σ, 0)
        else None
    end
  else None.

(** The part of [add_shape_property] from the new entry on. *)
Definition append_property (σ : ShapeHeap) (p atom flags : Z) : option ShapeHeap :=
  sh ← shapes σ !! p;
  if sh_prop_count sh <? sh_prop_size sh then
    let count := sh_prop_count sh + 1 in
    let h := Z.land atom (sh_hash_mask sh) in
    n ← znth (sh_prop_hash sh) h;
    hash ← zupd (sh_prop_hash sh) h count;
    let small := sh_small_index sh || negb (Z.land atom (Z.shiftl 1 31) =? 0) in
    Some (record [CallDupAtom atom]
            (put_shape p (set_sh_small_index small
               (set_sh_table (sh_prop sh ++ [prop_entry n flags atom]) hash (sh_hash_mask sh) (sh_prop_size sh) count
                  (sh_deleted sh) sh)) σ))
  else None.

Definition add_shape_property (σ : ShapeHeap) (o atom flags : Z) : option (ShapeHeap * Z) :=
  ob ← sobjects σ !! o;
  let p := obj_shape ob in
  sh ← shapes σ !! p;
  let new_shape_hash := shape_hash_mix (shape_hash_mix (sh_hash sh) atom) flags in
  σ ← (if sh_is_hashed sh then js_shape_hash_unlink σ p else Some σ);
  '(σ, r) ← (if sh_prop_count sh >=? sh_prop_size sh then resize_properties σ o (sh_prop_count sh + 1) else Some (σ, 0));
  if negb (r =? 0) then
    σ ← (if sh_is_hashed sh then js_shape_hash_link σ p else Some σ);
    Some (σ, -1)
  else
    ob ← sobjects σ !! o;
    let p := obj_shape ob in
    σ ← (if sh_is_hashed sh then
           sh ← shapes σ !! p;
           js_shape_hash_link (put_shape p (set_sh_hash new_shape_hash sh) σ) p
         else Some σ);
    σ ← append_property σ p atom flags;
    Some (σ, 0).

(** The hashed empty shape of a prototype; 0 is NULL. *)
Fixpoint find_shape_proto (fuel : nat) (σ : ShapeHeap) (h proto p : Z) : option Z :=
  if p =? 0 then Some 0
  else
    match fuel with
    | O => None
    | S fuel' =>
        sh ← shapes σ !! p;
        if (sh_hash sh =? h) && (sh_proto sh =? proto) && (sh_prop_count sh =? 0) then Some p
        else find_shape_proto fuel' σ h proto (sh_next sh)
    end.

Definition find_hashed_shape_proto (σ : ShapeHeap) (proto : Z) : option Z :=
  let h := shape_initial_hash proto in
  p ← znth (shape_hash σ) (get_shape_hash h (shape_hash_bits σ));
  find_shape_proto (size (shapes σ)) σ h proto p.

(** The first properties of [prs1] are those of [prs], and one more. *)
Fixpoint same_props (prs1 prs : list JSShapeProperty) (atom flags : Z) : bool :=
  match prs1, prs with
  | [pr1], [] => (prop_atom pr1 =? atom) && (prop_flags pr1 =? flags)
  | pr1 :: prs1, pr :: prs =>
      (prop_atom pr1 =? prop_atom pr) && (prop_flags pr1 =? prop_flags pr) && same_props prs1 prs atom flags
  | _, _ => false
  end.

Fixpoint find_shape_prop (fuel : nat) (σ : ShapeHeap) (sh : JSShape) (h atom flags p : Z) : option Z :=
  if p =? 0 then Some 0
  else
    match fuel with
    | O => None
    | S fuel' =>
        sh1 ← shapes σ !! p;
        if (sh_hash sh1 =? h) && (sh_proto sh1 =? sh_proto sh) && (sh_prop_count sh1 =? sh_prop_count sh + 1)
           && same_props (sh_prop sh1) (sh_prop sh) atom flags
        then Some p
        else find_shape_prop fuel' σ sh h atom flags (sh_next sh1)
    end.

Definition find_hashed_shape_prop (σ : ShapeHeap) (sh : JSShape) (atom flags : Z) : option Z :=
  let h := shape_hash_mix (shape_hash_mix (sh_hash sh) atom) flags in
  p ← znth (shape_hash σ) (get_shape_hash h (shape_hash_bits σ));
  find_shape_prop (size (shapes σ)) σ sh h atom flags p.

(** ** Objects *)

(** The index of a property; [Some None] is NULL. *)
Fixpoint find_prop_loop (fuel : nat) (prs : list JSShapeProperty) (h atom : Z) : option (option Z) :=
  if h =? 0 then Some None
  else
    match fuel with
    | O => None
    | S fuel' =>
        pr ← znth prs (h - 1);
        if prop_atom pr =? atom then Some (Some (h - 1)) else find_prop_loop fuel' prs (hash_next pr) atom
    end.

(** The entry [i] of the shape with the flags, and the slot [i] of the values. *)
Definition find_own_property (σ : ShapeHeap) (o atom : Z) : option (option Z) :=
  ob ← sobjects σ !! o;
  sh ← shapes σ !! obj_shape ob;
  h ← znth (sh_prop_hash sh) (Z.land atom (sh_hash_mask sh));
  find_prop_loop (length (sh_prop sh)) (sh_prop sh) h atom.

Definition js_shape_prepare_update (σ : ShapeHeap) (o : Z) : option (ShapeHeap * Z) :=
  ob ← sobjects σ !! o;
  let p := obj_shape ob in
  sh ← shapes σ !! p;
  if sh_is_hashed sh then
    if negb (sh_ref_count sh =? 1) then
      '(σ, p') ← js_clone_shape σ p;
      if p' =? 0 then Some (σ, -1)
      else
        σ ← js_free_shape σ p;
        Some (put_object o (mk_object p' (obj_prop ob)) σ, 0)
    else
      σ ← js_shape_hash_unlink σ p;
      sh ← shapes σ !! p;
      Some (put_shape p (set_sh_hashed false sh) σ, 0)
  else Some (σ, 0).

(** The slot of the new property, whose value is not written; [Some (_, None)] is NULL. *)
Definition add_property (σ : ShapeHeap) (o atom flags : Z) : option (ShapeHeap * option Z) :=
  ob ← sobjects σ !! o;
  let p := obj_shape ob in
  sh ← shapes σ !! p;
  let add (σ : ShapeHeap) : option (ShapeHeap * option Z) :=
    ob ← sobjects σ !! o;
    sh ← shapes σ !! obj_shape ob;
    if sh_ref_count sh =? 1 then
      '(σ, r) ← add_shape_property σ o atom flags;
      if negb (r =? 0) then Some (σ, None)
      else
        ob ← sobjects σ !! o;
        sh ← shapes σ !! obj_shape ob;
        Some (σ, Some (sh_prop_count sh - 1))
    else None in
  if sh_is_hashed sh then
    new_sh ← find_hashed_shape_prop σ sh atom flags;
    if negb (new_sh =? 0) then
      sh1 ← shapes σ !! new_sh;
      match (if negb (sh_prop_size sh1 =? sh_prop_size sh) then
               match sh_realloc σ o (sizeof_JSProperty * sh_prop_size sh1) with
               | None => None
               | Some _ => Some (resize_slots (sh_prop_size sh1) (obj_prop ob))
               end
             else Some (obj_prop ob)) with
      | None => Some (σ, None)
      | Some prop =>
          σ ← js_dup_shape σ new_sh;
          σ ← js_free_shape (put_object o (mk_object new_sh prop) σ) p;
          Some (σ, Some (sh_prop_count sh1 - 1))
      end
    else if negb (sh_ref_count sh =? 1) then
      '(σ, p') ← js_clone_shape σ p;
      if p' =? 0 then Some (σ, None)
      else
        sh' ← shapes σ !! p';
        σ ← js_shape_hash_link (put_shape p' (set_sh_hashed true sh') σ) p';
        σ ← js_free_shape σ p;
        add (put_object o (mk_object p' (obj_prop ob)) σ)
    else add σ
  else add σ.

(** The assignment to the slot that [add_property] or [find_own_property] gave. *)
Definition set_property_value (σ : ShapeHeap) (o i : Z) (v : JSProperty) : option ShapeHeap :=
  ob ← sobjects σ !! o;
  prop ← zupd (obj_prop ob) i (Some v);
  Some (put_object o (mk_object (obj_shape ob) prop) σ).

Definition js_update_property_flags (σ : ShapeHeap) (o i flags : Z) : option (ShapeHeap * Z) :=
  ob ← sobjects σ !! o;
  sh ← shapes σ !! obj_shape ob;
  pr ← znth (sh_prop sh) i;
  if negb (flags =? prop_flags pr) then
    '(σ, r) ← js_shape_prepare_update σ o;
    if negb (r =? 0) then Some (σ, -1)
    else
      ob ← sobjects σ !! o;
      sh ← shapes σ !! obj_shape ob;
      pr ← znth (sh_prop sh) i;
      prs ← zupd (sh_prop sh) i (mk_shape_property (hash_next pr) (Z.land flags 63) (prop_atom pr));
      Some (put_shape (obj_shape ob) (set_sh_table prs (sh_prop_hash sh) (sh_hash_mask sh) (sh_prop_size sh)
              (sh_prop_count sh) (sh_deleted sh) sh) σ, 0)
  else Some (σ, 0).

(** The entry before the property in its chain, if any, and the index (from 1) of the property. *)
Fixpoint delete_find (fuel : nat) (prs : list JSShapeProperty) (lpr : option Z) (h atom : Z) : option (option (option Z * Z)) :=
  if h =? 0 then Some None
  else
    match fuel with
    | O => None
    | S fuel' =>
        pr ← znth prs (h - 1);
        if prop_atom pr =? atom then Some (Some (lpr, h))
        else delete_find fuel' prs (Some (h - 1)) (hash_next pr) atom
    end.

(** The entry leaves its chain and gets default values. *)
Definition erase_entry (sh : JSShape) (lpr : option Z) (h1 h : Z) : option JSShape :=
  pr ← znth (sh_prop sh) (h - 1);
  '(prs, hash) ← match lpr with
                 | Some i =>
                     l ← znth (sh_prop sh) i;
                     prs ← zupd (sh_prop sh) i (mk_shape_property (hash_next pr) (prop_flags l) (prop_atom l));
                     Some (prs, sh_prop_hash sh)
                 | None => hash ← zupd (sh_prop_hash sh) h1 (hash_next pr); Some (sh_prop sh, hash)
                 end;
  prs ← zupd prs (h - 1) (mk_shape_property (hash_next pr) 0 JS_ATOM_NULL);
  Some (set_sh_table prs hash (sh_hash_mask sh) (sh_prop_size sh) (sh_prop_count sh) (sh_deleted sh + 1) sh).

(** For an object that is not exotic: 1 is TRUE, 0 FALSE. *)
Definition delete_property (σ : ShapeHeap) (o atom : Z) : option (ShapeHeap * Z) :=
  ob ← sobjects σ !! o;
  sh ← shapes σ !! obj_shape ob;
  let h1 := Z.land atom (sh_hash_mask sh) in
  h ← znth (sh_prop_hash sh) h1;
  found ← delete_find (length (sh_prop sh)) (sh_prop sh) None h atom;
  match found with
  | None => Some (σ, 1)
  | Some (lpr, h) =>
      pr ← znth (sh_prop sh) (h - 1);
      if Z.land (prop_flags pr) JS_PROP_CONFIGURABLE =? 0 then Some (σ, 0)
      else
        '(σ, r) ← js_shape_prepare_update σ o;
        if negb (r =? 0) then Some (σ, -1)
        else
          ob ← sobjects σ !! o;
          let p := obj_shape ob in
          sh ← shapes σ !! p;
          pr ← znth (sh_prop sh) (h - 1);
          sh' ← erase_entry sh lpr h1 h;
          slot ← znth (obj_prop ob) (h - 1);
          v ← slot;
          prop ← zupd (obj_prop ob) (h - 1) (Some (u_value (JS_MKPTR JS_TAG_UNDEFINED 0)));
          let σ := record [CallFreeProperty v (prop_flags pr); CallFreeAtom (prop_atom pr)]
                     (put_object o (mk_object p prop) (put_shape p sh' σ)) in
          if (sh_deleted sh' >=? 8) && (sh_deleted sh' >=? sh_prop_count sh' / 2) then
            '(σ, _) ← compact_properties σ o;
            Some (σ, 1)
          else Some (σ, 1)
  end.

(** An object of the class [JS_CLASS_OBJECT]; 0 is an exception. *)
Definition JS_NewObjectFromShape (σ : ShapeHeap) (p : Z) : option (ShapeHeap * Z) :=
  let σ := record [CallTriggerGc] σ in
  sh ← shapes σ !! p;
  match sh_malloc σ sizeof_JSObject with
  | None => σ ← js_free_shape σ p; Some (σ, 0)
  | Some o =>
      match sh_malloc σ (sizeof_JSProperty * sh_prop_size sh) with
      | None => σ ← js_free_shape σ p; Some (σ, 0)
      | Some _ => Some (record [CallGcAdd o] (put_object o (mk_object p (replicate (Z.to_nat (sh_prop_size sh)) None)) σ), o)
      end
  end.

Definition JS_NewObjectProtoClass (σ : ShapeHeap) (proto : Z) : option (ShapeHeap * Z) :=
  p ← find_hashed_shape_proto σ proto;
  if negb (p =? 0) then
    σ ← js_dup_shape σ p;
    JS_NewObjectFromShape σ p
  else
    '(σ, p) ← js_new_shape σ proto;
    if p =? 0 then Some (σ, 0) else JS_NewObjectFromShape σ p.

Fixpoint free_fields (prs : list JSShapeProperty) (prop : list (option JSProperty)) : option (list RtCall) :=
  match prs, prop with
  | [], _ => Some []
  | pr :: prs, Some v :: prop => l ← free_fields prs prop; Some (CallFreeProperty v (prop_flags pr) :: l)
  | _, _ => None
  end.

(** What [free_object] does with the fields and the shape. *)
Definition free_object (σ : ShapeHeap) (o : Z) : option ShapeHeap :=
  ob ← sobjects σ !! o;
  sh ← shapes σ !! obj_shape ob;
  l ← free_fields (sh_prop sh) (obj_prop ob);
  σ ← js_free_shape (record l σ) (obj_shape ob);
  Some (record [CallGcRemove o] (set_sobjects (delete o (sobjects σ)) σ)).
End shapes.
