(* ===== verification/ShapeOk.v ===== *)
(** * The property table of a shape

    The chains of the hash table hold every property of the shape that was not deleted, at
    most one for each atom; adding, deleting, moving to a larger table and compacting keep
    this, and the lookup finds the entry of an atom. *)

From stdpp Require Import gmap.
From S2P Require Import Prelude Chain GcHeap ShapeTable.

Implicit Types (prs : list JSShapeProperty) (hash : list Z) (mask atom : Z).

(** ** Tables *)

(** The link of the entry [i] (from 1). *)
Definition prop_next prs (i : Z) : option Z := hash_next <$> znth prs (i - 1).

Definition live_at prs mask (j i : Z) : Prop :=
  exists pr, znth prs (i - 1) = Some pr /\ prop_atom pr <> JS_ATOM_NULL /\ Z.land (prop_atom pr) mask = j.

Record chains_ok prs hash mask : Prop := {
  ch_mask : exists k, 0 <= k <= 30 /\ mask = 2 ^ k - 1;
  ch_len : zlen hash = mask + 1;
  ch_count : zlen prs < 2 ^ 26;
  ch_chain j h : znth hash j = Some h -> exists l, ichain (prop_next prs) h l /\ forall i, i ∈ l <-> live_at prs mask j i
}.

Record table_ok prs hash mask : Prop := {
  tab_chains : chains_ok prs hash mask;
  tab_unique i j pr pr' : znth prs i = Some pr -> znth prs j = Some pr' -> prop_atom pr <> JS_ATOM_NULL ->
    prop_atom pr = prop_atom pr' -> i = j;
  tab_flags pr : pr ∈ prs -> 0 <= prop_flags pr < 64
}.

Lemma bucket_in prs hash mask atom : chains_ok prs hash mask -> exists h, znth hash (Z.land atom mask) = Some h.
Proof.
  intros Hc. destruct (ch_mask _ _ _ Hc) as (k & Hk & E). apply znth_is_Some. rewrite (ch_len _ _ _ Hc).
  rewrite (land_mask _ _ k) by (done || lia). rewrite E. pose proof (Z.mod_pos_bound atom (2 ^ k) ltac:(lia)). lia.
Qed.

Lemma live_range prs mask j i : live_at prs mask j i -> 1 <= i <= zlen prs.
Proof. intros (pr & Hpr & _). apply znth_Some_range in Hpr. lia. Qed.

Lemma chain_length prs hash mask j h l : chains_ok prs hash mask -> ichain (prop_next prs) h l ->
  (forall i, i ∈ l <-> live_at prs mask j i) -> (length l <= length prs)%nat.
Proof.
  intros Hc Hl Hi. destruct l as [|x l]; [cbn; lia|]. pose proof (NoDup_indices (Z.pred <$> x :: l) (zlen prs)) as Hp.
  assert (E : zlen (Z.pred <$> x :: l) = zlen (x :: l)) by (unfold zlen; by rewrite length_fmap).
  rewrite E in Hp. pose proof (zlen_nonneg prs).
  enough (Z.of_nat (length (x :: l)) <= Z.max 0 (zlen prs)) by (unfold zlen in *; lia). apply Hp.
  - apply NoDup_fmap_2; [intros ? ?; lia|by eapply ichain_NoDup].
  - intros y (i & -> & Hin)%list_elem_of_fmap. apply Hi, live_range in Hin. lia.
Qed.

(** ** Lookup *)

Lemma find_prop_loop_spec fuel prs h l atom : ichain (prop_next prs) h l -> (length l <= fuel)%nat ->
  exists r, find_prop_loop fuel prs h atom = Some r /\
    match r with
    | Some i => i + 1 ∈ l /\ exists pr, znth prs i = Some pr /\ prop_atom pr = atom
    | None => forall i pr, i ∈ l -> znth prs (i - 1) = Some pr -> prop_atom pr <> atom
    end.
Proof.
  revert h l. induction fuel as [|fuel IH]; intros h [|x l]; cbn [ichain length find_prop_loop]; try lia.
  1, 2: intros -> _; exists None; split; [done|]; by intros i pr ?%elem_of_nil.
  intros (-> & Hx & n & Hn & Hl) Hf. rewrite (proj2 (Z.eqb_neq x 0)) by done. unfold prop_next in Hn.
  destruct (znth prs (x - 1)) as [pr|] eqn:Hpr; [|done]. injection Hn as Hn. cbn [mbind option_bind].
  destruct (Z.eqb_spec (prop_atom pr) atom) as [E|E].
  - exists (Some (x - 1)). split; [done|]. rewrite Z.sub_add. split; [by left|by exists pr].
  - rewrite Hn. destruct (IH n l Hl) as (r & -> & Hr); [lia|]. exists r. split; [done|]. destruct r as [i|].
    + destruct Hr as [Hi ?]. split; [by right|done].
    + intros i pr' [->|Hi]%elem_of_cons Hpr'; [congruence|by eapply Hr].
Qed.

(** The index of an atom in the table. *)
Definition at_index prs atom (r : option Z) : Prop :=
  match r with
  | Some i => exists pr, znth prs i = Some pr /\ prop_atom pr = atom
  | None => forall pr, pr ∈ prs -> prop_atom pr <> atom
  end.

Lemma elem_of_znth {A} (l : list A) x : x ∈ l <-> exists i, znth l i = Some x.
Proof.
  rewrite list_elem_of_lookup. split.
  - intros [i Hi]. exists (Z.of_nat i). rewrite znth_lookup by lia. by rewrite Nat2Z.id.
  - intros [i Hi]. pose proof (znth_Some_range _ _ _ Hi) as Hr. exists (Z.to_nat i). by rewrite <- znth_lookup by lia.
Qed.

Lemma find_prop_spec prs hash mask atom : table_ok prs hash mask -> atom <> JS_ATOM_NULL ->
  exists h r, znth hash (Z.land atom mask) = Some h /\ find_prop_loop (length prs) prs h atom = Some r /\ at_index prs atom r.
Proof.
  intros [Hc Hu Hfl] Ha. destruct (bucket_in _ _ _ atom Hc) as [h Hh]. destruct (ch_chain _ _ _ Hc _ _ Hh) as (l & Hl & Hi).
  destruct (find_prop_loop_spec (length prs) prs h l atom Hl) as (r & Er & Hr); [by eapply chain_length|].
  exists h, r. split; [done|]. split; [done|]. destruct r as [i|]; [apply Hr|].
  intros pr (i & Hpr)%elem_of_znth E. apply (Hr (i + 1) pr); [|by rewrite Z.add_simpl_r|done].
  apply Hi. exists pr. rewrite Z.add_simpl_r. by rewrite E.
Qed.

(** ** A new entry at the end *)

Lemma land_26 n : 0 <= n < 2 ^ 26 -> Z.land n 0x3ffffff = n.
Proof. intros Hn. rewrite (land_mask _ _ 26) by done. by apply Z.mod_small. Qed.

Lemma land_6 n : 0 <= n < 64 -> Z.land n 63 = n.
Proof. intros Hn. rewrite (land_mask _ _ 6) by done. by apply Z.mod_small. Qed.

Lemma prop_next_app prs prs' i : i <= zlen prs -> prop_next (prs ++ prs') i = prop_next prs i.
Proof. intros Hi. unfold prop_next. by rewrite znth_app_l by lia. Qed.

Lemma znth_snoc {A} (l : list A) x : znth (l ++ [x]) (zlen l) = Some x.
Proof. rewrite znth_app_r by lia. by rewrite Z.sub_diag. Qed.

Lemma live_at_app prs pr mask j i : live_at (prs ++ [pr]) mask j i <->
  live_at prs mask j i \/ i = zlen prs + 1 /\ prop_atom pr <> JS_ATOM_NULL /\ Z.land (prop_atom pr) mask = j.
Proof.
  unfold live_at. split.
  - intros (pr' & Hpr & Ha & Hj). destruct (decide (i - 1 < zlen prs)) as [Hi|Hi].
    + rewrite znth_app_l in Hpr by done. left. by exists pr'.
    + right. pose proof (znth_Some_range _ _ _ Hpr) as Hr. rewrite zlen_app in Hr. change (zlen [pr]) with 1 in Hr.
      assert (i = zlen prs + 1) as -> by lia. rewrite Z.add_simpl_r, znth_snoc in Hpr. injection Hpr as <-. done.
  - intros [(pr' & Hpr & ?)|(-> & ?)].
    + exists pr'. rewrite znth_app_l by (apply znth_Some_range in Hpr; lia). done.
    + exists pr. rewrite Z.add_simpl_r, znth_snoc. done.
Qed.

Lemma append_dead prs hash mask pr : chains_ok prs hash mask -> prop_atom pr = JS_ATOM_NULL -> zlen prs + 1 < 2 ^ 26 ->
  chains_ok (prs ++ [pr]) hash mask.
Proof.
  intros [H1 H2 H3 H4] Ha Hn. split; [done|done|rewrite zlen_app; exact Hn|].
  intros j h Hh. destruct (H4 j h Hh) as (l & Hl & Hi). exists l. split.
  - eapply ichain_frame; [|exact Hl]. intros i Hin. apply Hi, live_range in Hin. apply prop_next_app. lia.
  - intros i. rewrite live_at_app, Hi. tauto.
Qed.

Lemma append_live prs hash mask atom flags : chains_ok prs hash mask -> atom <> JS_ATOM_NULL -> zlen prs + 1 < 2 ^ 26 ->
  exists n hash', znth hash (Z.land atom mask) = Some n /\ zupd hash (Z.land atom mask) (zlen prs + 1) = Some hash' /\
    chains_ok (prs ++ [prop_entry n flags atom]) hash' mask.
Proof.
  intros Hc Ha Hn. destruct (bucket_in _ _ _ atom Hc) as [n Hh]. destruct Hc as [H1 H2 H3 H4].
  set (j := Z.land atom mask) in *. pose proof (znth_Some_range _ _ _ Hh) as Hr.
  destruct (zupd_write hash j (zlen prs + 1) n Hh) as (hash' & E' & El & Hnth).
  exists n, hash'. split; [done|]. split; [done|].
  destruct (H4 j n Hh) as (l & Hl & Hi).
  assert (Hbound : 0 <= n <= zlen prs).
  { destruct l as [|x l]; [cbn in Hl; subst; pose proof (zlen_nonneg prs); lia|]. destruct Hl as (-> & _).
    assert (Hx : live_at prs mask j x) by (apply Hi; by left). apply live_range in Hx. lia. }
  split; [done|by rewrite El|rewrite zlen_app; exact Hn|].
  intros k h. rewrite Hnth. case_decide as E.
  - intros [= <-]. subst k. exists (zlen prs + 1 :: l). split.
    + cbn [ichain]. split; [done|]. split; [pose proof (zlen_nonneg prs); lia|]. exists n. split.
      * unfold prop_next. rewrite Z.add_simpl_r, znth_snoc. cbn. f_equal. apply land_26. lia.
      * eapply ichain_frame; [|exact Hl]. intros i Hin. apply Hi, live_range in Hin. apply prop_next_app. lia.
    + intros i. rewrite elem_of_cons, live_at_app, Hi. cbn. tauto.
  - intros Hk. destruct (H4 k h Hk) as (lk & Hlk & Hik). exists lk. split.
    + eapply ichain_frame; [|exact Hlk]. intros i Hin. apply Hik, live_range in Hin. apply prop_next_app. lia.
    + intros i. rewrite live_at_app, Hik. cbn. subst j. intuition congruence.
Qed.

(** ** Other tables for the same properties *)

(** What an entry says, without its link. *)
Definition prop_key (pr : JSShapeProperty) : Z * Z := (prop_atom pr, prop_flags pr).

Definition live_prop (pr : JSShapeProperty) : Prop := prop_atom pr <> JS_ATOM_NULL.
#[export] Instance live_prop_dec pr : Decision (live_prop pr).
Proof. unfold live_prop. apply _. Defined.

Lemma prop_entry_key n flags atom : 0 <= flags < 64 -> prop_key (prop_entry n flags atom) = (atom, flags).
Proof. intros Hf. unfold prop_key, prop_entry. cbn. by rewrite land_6. Qed.

Lemma znth_fmap {A B} (f : A -> B) (l : list A) i : znth (f <$> l) i = f <$> znth l i.
Proof. unfold znth. destruct (i <? 0); [done|]. apply list_lookup_fmap. Qed.

Lemma zlen_fmap {A B} (f : A -> B) (l : list A) : zlen (f <$> l) = zlen l.
Proof. unfold zlen. by rewrite length_fmap. Qed.

Lemma key_znth prs prs' i pr : prop_key <$> prs' = prop_key <$> prs -> znth prs' i = Some pr ->
  exists pr', znth prs i = Some pr' /\ prop_key pr' = prop_key pr.
Proof.
  intros E Hpr. apply (f_equal (fun l => znth l i)) in E. rewrite !znth_fmap, Hpr in E.
  destruct (znth prs i) as [pr'|]; [|done]. exists pr'. split; [done|]. cbn in E. congruence.
Qed.

(** Uniqueness and flags are about the keys. *)
Lemma table_rekey prs hash mask prs' hash' mask' : table_ok prs hash mask -> prop_key <$> prs' = prop_key <$> prs ->
  chains_ok prs' hash' mask' -> table_ok prs' hash' mask'.
Proof.
  intros [_ Hu Hf] E Hc. split; [done| |].
  - intros i j pr pr' Hi Hj Ha Hab. destruct (key_znth _ _ _ _ E Hi) as (p & Hp & [= E1 _]).
    destruct (key_znth _ _ _ _ E Hj) as (p' & Hp' & [= E2 _]). eapply (Hu i j p p'); congruence.
  - intros pr (i & Hi)%elem_of_znth. destruct (key_znth _ _ _ _ E Hi) as (p & Hp & [= _ <-]).
    apply Hf, elem_of_znth. by exists i.
Qed.

Lemma empty_chains k : 0 <= k <= 30 -> chains_ok [] (replicate (Z.to_nat (2 ^ k)) 0) (2 ^ k - 1).
Proof.
  intros Hk. split; [by exists k|unfold zlen; rewrite length_replicate; lia|done|].
  intros j h Hh. exists []. unfold znth in Hh. destruct (j <? 0); [done|]. apply lookup_replicate in Hh as [-> _].
  split; [done|]. intros i. split; [by intros ?%elem_of_nil|]. intros (pr & Hpr & _). by rewrite znth_nil in Hpr.
Qed.

Lemma rehash_props_ok prs : forall dn hash mask, chains_ok dn hash mask -> zlen dn + zlen prs < 2 ^ 26 ->
  (forall pr, pr ∈ prs -> 0 <= prop_flags pr < 64) ->
  exists prs' hash', rehash_props prs (zlen dn) hash mask = Some (prs', hash') /\ chains_ok (dn ++ prs') hash' mask /\
    prop_key <$> prs' = prop_key <$> prs.
Proof.
  induction prs as [|pr prs IH]; intros dn hash mask Hc Hn Hf; cbn [rehash_props].
  { exists [], hash. rewrite app_nil_r. done. }
  rewrite zlen_cons in Hn. pose proof (zlen_nonneg prs). pose proof (Hf pr ltac:(by left)) as Hfp.
  assert (Hrec : forall e hash1, chains_ok (dn ++ [e]) hash1 mask -> exists prs' hash',
    rehash_props prs (zlen dn + 1) hash1 mask = Some (prs', hash') /\ chains_ok (dn ++ e :: prs') hash' mask /\
    prop_key <$> prs' = prop_key <$> prs).
  { intros e hash1 He. destruct (IH (dn ++ [e]) hash1 mask He) as (prs' & hash' & E & Hc' & Hk).
    - rewrite zlen_app. change (zlen [e]) with 1. lia.
    - intros p Hp. apply Hf. by right.
    - rewrite zlen_app in E. change (zlen [e]) with 1 in E. exists prs', hash'. rewrite <- app_assoc in Hc'. done. }
  destruct (Z.eqb_spec (prop_atom pr) JS_ATOM_NULL) as [Ha|Ha]; cbn [negb].
  - destruct (Hrec pr hash) as (prs' & hash' & -> & Hc' & Hk); [apply append_dead; (done || lia)|].
    cbn [mbind option_bind]. exists (pr :: prs'), hash'. split; [done|]. split; [done|]. by rewrite !fmap_cons, Hk.
  - destruct (append_live dn hash mask (prop_atom pr) (prop_flags pr) Hc Ha ltac:(lia)) as (n & hash1 & -> & E & Hc1).
    cbn [mbind option_bind]. rewrite E. cbn [mbind option_bind].
    destruct (Hrec _ _ Hc1) as (prs' & hash' & -> & Hc' & Hk). cbn [mbind option_bind].
    eexists _, hash'. split; [done|]. split; [exact Hc'|]. rewrite !fmap_cons, Hk, prop_entry_key by done. done.
Qed.

(** ** Fields *)

(** The properties of an object that were not deleted, in their order. *)
Fixpoint fields prs (prop : list (option JSProperty)) : list (Z * Z * option JSProperty) :=
  match prs, prop with
  | pr :: prs, v :: prop => if decide (live_prop pr) then (prop_key pr, v) :: fields prs prop else fields prs prop
  | _, _ => []
  end.

Lemma fields_key prs prs' prop : prop_key <$> prs' = prop_key <$> prs -> fields prs' prop = fields prs prop.
Proof.
  revert prs prop. induction prs' as [|pr' prs' IH]; intros [|pr prs] prop; try done. rewrite !fmap_cons. intros [= E1 E2 E].
  destruct prop as [|v prop]; [done|]. cbn [fields]. rewrite (IH prs) by done.
  assert (Hk : prop_key pr' = prop_key pr) by (unfold prop_key; congruence). rewrite Hk. apply decide_ext.
  unfold live_prop. by rewrite E1.
Qed.

Lemma fields_prefix prs prop prop' : (length prs <= length prop)%nat -> fields prs (prop ++ prop') = fields prs prop.
Proof.
  revert prop. induction prs as [|pr prs IH]; intros [|v prop] Hl; cbn [length] in Hl; try lia; try done.
  cbn [fields app]. rewrite IH by lia. done.
Qed.

Lemma fields_take prs prop n : (length prs <= n)%nat -> fields prs (take n prop) = fields prs prop.
Proof.
  revert prop n. induction prs as [|pr prs IH]; intros [|v prop] [|n] Hl; cbn [length] in Hl; try lia; try done.
  cbn [fields take]. by rewrite IH by lia.
Qed.

Lemma fields_resize prs prop n : zlen prs <= n -> zlen prs <= zlen prop -> fields prs (resize_slots n prop) = fields prs prop.
Proof.
  intros Hn Hp. unfold resize_slots, zlen in *. rewrite fields_prefix by (rewrite length_take; lia). apply fields_take. lia.
Qed.

Lemma fields_app prs prs' prop prop' : length prs = length prop -> fields (prs ++ prs') (prop ++ prop') = fields prs prop ++ fields prs' prop'.
Proof.
  revert prop. induction prs as [|pr prs IH]; intros [|v prop] E; try discriminate E; [done|]. injection E as E. cbn [fields app]. rewrite IH by done. by case_decide.
Qed.

Definition live_count prs : Z := zlen (filter live_prop prs).

Lemma compact_loop_ok prs : forall i dn hash mask prop, chains_ok dn hash mask ->
  zlen dn <= i -> i + zlen prs <= zlen prop -> i + zlen prs < 2 ^ 26 -> (forall pr, pr ∈ prs -> 0 <= prop_flags pr < 64) ->
  exists prs' hash' prop', compact_loop prs i (zlen dn) hash mask prop = Some (prs', hash', prop', zlen dn + live_count prs) /\
    chains_ok (dn ++ prs') hash' mask /\ prop_key <$> prs' = prop_key <$> filter live_prop prs /\
    length prop' = length prop /\ take (length dn) prop' = take (length dn) prop /\
    fields prs' (drop (length dn) prop') = fields prs (drop (Z.to_nat i) prop).
Proof.
  induction prs as [|pr prs IH]; intros i dn hash mask prop Hc Hdi Hip Hn Hf; cbn [compact_loop].
  { exists [], hash, prop. rewrite app_nil_r. unfold live_count. rewrite filter_nil. change (zlen []) with 0.
    rewrite Z.add_0_r. done. }
  rewrite zlen_cons in Hip, Hn. pose proof (zlen_nonneg prs). pose proof (zlen_nonneg dn).
  destruct (drop_znth prop i ltac:(lia)) as (v & Hv & Hd). rewrite Hd.
  unfold live_count. destruct (Z.eqb_spec (prop_atom pr) JS_ATOM_NULL) as [Ha|Ha]; cbn [negb fields].
  - rewrite filter_cons_False by (by intros ?). rewrite (decide_False (P := live_prop pr)) by (by intros ?).
    apply IH; (done || lia || (intros; apply Hf; by right)).
  - rewrite filter_cons_True by done. rewrite (decide_True (P := live_prop pr)) by done.
    destruct (append_live dn hash mask (prop_atom pr) (prop_flags pr) Hc Ha ltac:(lia)) as (n & hash1 & -> & E & Hc1).
    cbn [mbind option_bind]. rewrite E. cbn [mbind option_bind]. rewrite Hv. cbn [mbind option_bind].
    rewrite zupd_is_Some by lia. cbn [mbind option_bind]. set (e := prop_entry _ _ _) in *.
    set (prop1 := <[Z.to_nat (zlen dn) := v]> prop).
    assert (Hlen : zlen prop1 = zlen prop) by (unfold zlen, prop1; by rewrite length_insert).
    assert (Ez : zlen (dn ++ [e]) = zlen dn + 1) by (by rewrite zlen_app).
    destruct (IH (i + 1) (dn ++ [e]) hash1 mask prop1 Hc1) as (prs' & hash' & prop' & E' & Hc' & Hk & Hl & Ht & Hfl);
      [lia..|intros; apply Hf; by right|].
    rewrite Ez in E'. rewrite E'. cbn [mbind option_bind]. eexists _, hash', prop'. split; [do 2 f_equal; rewrite zlen_cons; unfold live_count; lia|].
    rewrite <- app_assoc in Hc'. split; [exact Hc'|].
    rewrite length_app in Ht, Hfl. cbn [length] in Ht, Hfl. rewrite Nat.add_1_r in Ht, Hfl.
    split; [rewrite !fmap_cons, Hk; unfold e; rewrite prop_entry_key by (apply Hf; by left); done|].
    split; [rewrite Hl; unfold prop1; by rewrite length_insert|].
    assert (Hj : (length dn < length prop)%nat) by (unfold zlen in *; lia).
    split.
    + apply (f_equal (take (length dn))) in Ht. rewrite !take_take, !Nat.min_l in Ht by lia. rewrite Ht.
      unfold prop1. apply take_insert_ge. unfold zlen. lia.
    + assert (Ev : prop' !! length dn = Some v).
      { rewrite <- (lookup_take_lt _ (S (length dn))) by lia. rewrite Ht, lookup_take_lt by lia. unfold prop1.
        replace (Z.to_nat (zlen dn)) with (length dn) by (unfold zlen; lia). by apply list_lookup_insert_eq. }
      rewrite (drop_S _ v) by done. cbn [fields]. rewrite (decide_True (P := live_prop e)) by done. rewrite Hfl.
      unfold prop1. rewrite drop_insert_lt by (unfold zlen in *; lia). f_equal. f_equal.
      unfold e. apply prop_entry_key. apply Hf. by left.
Qed.

(** ** Deleting an entry *)

Definition lpr_of (l : list Z) : option Z := match l with [] => None | _ => Some (List.last l 0 - 1) end.

Lemma last_snoc_Z (l : list Z) x d : List.last (l ++ [x]) d = x.
Proof. induction l as [|y l IH]; [done|]. cbn [app]. destruct l; [done|]. exact IH. Qed.

Lemma lpr_of_snoc l x : lpr_of (l ++ [x]) = Some (x - 1).
Proof. unfold lpr_of. destruct (l ++ [x]) eqn:E; [by destruct l|]. by rewrite <- E, last_snoc_Z. Qed.

Lemma delete_find_spec fuel prs : forall l0 h l atom, ichain (prop_next prs) h l -> (length l <= fuel)%nat ->
  exists r, delete_find fuel prs (lpr_of l0) h atom = Some r /\
    match r with
    | Some (lpr, x) => exists l1 l2 pr, l = l1 ++ x :: l2 /\ lpr = lpr_of (l0 ++ l1) /\ znth prs (x - 1) = Some pr /\ prop_atom pr = atom
    | None => forall i pr, i ∈ l -> znth prs (i - 1) = Some pr -> prop_atom pr <> atom
    end.
Proof.
  induction fuel as [|fuel IH]; intros l0 h [|x l] atom; cbn [ichain length delete_find]; try lia.
  1, 2: intros -> _; exists None; split; [done|]; by intros i pr ?%elem_of_nil.
  intros (-> & Hx & n & Hn & Hl) Hf. rewrite (proj2 (Z.eqb_neq x 0)) by done. unfold prop_next in Hn.
  destruct (znth prs (x - 1)) as [pr|] eqn:Hpr; [|done]. injection Hn as Hn. cbn [mbind option_bind].
  destruct (Z.eqb_spec (prop_atom pr) atom) as [E|E].
  - exists (Some (lpr_of l0, x)). split; [done|]. exists [], l, pr. by rewrite app_nil_r.
  - rewrite <- (lpr_of_snoc l0), Hn. destruct (IH (l0 ++ [x]) n l atom Hl) as (r & -> & Hr); [lia|]. exists r. split; [done|].
    destruct r as [[lpr y]|].
    + destruct Hr as (l1 & l2 & p & -> & -> & Hp). exists (x :: l1), l2, p. by rewrite <- app_assoc.
    + intros i p [->|Hi]%elem_of_cons Hp; [congruence|by eapply Hr].
Qed.

Lemma fields_erase prs prs' prop n pr v u f : prs !! n = Some pr -> live_prop pr -> prop !! n = Some v ->
  prop_key <$> prs' = <[n := (JS_ATOM_NULL, f)]> (prop_key <$> prs) ->
  exists f1 f2, fields prs prop = f1 ++ (prop_key pr, v) :: f2 /\ fields prs' (<[n := u]> prop) = f1 ++ f2.
Proof.
  intros Hpr Hlive Hv E.
  assert (Hn : (n < length prs)%nat) by (by eapply lookup_lt_Some). assert (Hm : (n < length prop)%nat) by (by eapply lookup_lt_Some).
  assert (El : length (take n prs) = length (take n prop)) by (rewrite !length_take; lia).
  exists (fields (take n prs) (take n prop)), (fields (drop (S n) prs) (drop (S n) prop)). split.
  - rewrite <- (take_drop_middle prs n pr), <- (take_drop_middle prop n v) at 1 by done. rewrite fields_app by done. cbn [fields].
    by rewrite decide_True.
  - rewrite (fields_key (<[n := mk_shape_property 0 f JS_ATOM_NULL]> prs)) by (by rewrite list_fmap_insert).
    rewrite !insert_take_drop, fields_app by done. cbn [fields]. rewrite decide_False; [done|]. by intros H.
Qed.

(** Two distinct entries of one chain. *)
Lemma erase_entry_ok sh l1 l2 x h j pr : table_ok (sh_prop sh) (sh_prop_hash sh) (sh_hash_mask sh) ->
  znth (sh_prop_hash sh) j = Some h -> ichain (prop_next (sh_prop sh)) h (l1 ++ x :: l2) ->
  (forall i, i ∈ l1 ++ x :: l2 <-> live_at (sh_prop sh) (sh_hash_mask sh) j i) ->
  znth (sh_prop sh) (x - 1) = Some pr ->
  exists prs' hash', erase_entry sh (lpr_of l1) j x =
      Some (set_sh_table prs' hash' (sh_hash_mask sh) (sh_prop_size sh) (sh_prop_count sh) (sh_deleted sh + 1) sh) /\
    table_ok prs' hash' (sh_hash_mask sh) /\
    prop_key <$> prs' = <[Z.to_nat (x - 1) := (JS_ATOM_NULL, 0)]> (prop_key <$> sh_prop sh).
Proof.
  intros [Hc Hu Hf] Hh Hl Hi Hpr. set (prs := sh_prop sh) in *. set (mask := sh_hash_mask sh) in *.
  pose proof (ichain_NoDup _ _ _ Hl) as Hnd. pose proof (znth_Some_range _ _ _ Hpr) as Hr.
  set (dead := mk_shape_property (hash_next pr) 0 JS_ATOM_NULL).
  (* the chain of every table whose links differ only there *)
  assert (Hfin : forall prs' hash', (forall k, znth hash' k = if decide (k = j /\ l1 = []) then Some (hash_next pr) else znth (sh_prop_hash sh) k) ->
    zlen hash' = zlen (sh_prop_hash sh) ->
    prop_key <$> prs' = <[Z.to_nat (x - 1) := (JS_ATOM_NULL, 0)]> (prop_key <$> prs) ->
    (forall i, i <> x -> i <> List.last l1 0 -> prop_next prs' i = prop_next prs i) ->
    (l1 <> [] -> prop_next prs' (List.last l1 0) = prop_next prs x) -> table_ok prs' hash' mask).
  { intros prs' hash' Hnh Elh Ek Hnext Hlast.
    assert (Hkey : forall i p', znth prs' i = Some p' -> i = x - 1 /\ prop_key p' = (JS_ATOM_NULL, 0) \/
      i <> x - 1 /\ exists p, znth prs i = Some p /\ prop_key p = prop_key p').
    { intros i p' Hp'. pose proof (znth_Some_range _ _ _ Hp') as Hri. apply (f_equal (fun l => znth l i)) in Ek.
      rewrite znth_fmap, Hp' in Ek. cbn in Ek. destruct (decide (i = x - 1)) as [->|Hne].
      - left. split; [done|]. rewrite znth_lookup, list_lookup_insert_eq in Ek by (rewrite ?length_fmap; unfold zlen in Hr; lia).
        congruence.
      - right. split; [done|]. rewrite znth_insert_ne, znth_fmap in Ek by lia.
        destruct (znth prs i) as [p|]; [|done]. exists p. split; [done|]. cbn in Ek. congruence. }
    assert (Hlive : forall k i, live_at prs' mask k i <-> live_at prs mask k i /\ i <> x).
    { intros k i. split.
      - intros (p' & Hp' & Ha & Hk). destruct (Hkey _ _ Hp') as [[_ E]|[Hne (p & Hp & E)]]; [injection E as E; congruence|].
        injection E as E1 E2. split; [|lia]. exists p. by rewrite E1.
      - intros [(p & Hp & Ha & Hk) Hne]. apply (f_equal (fun l => znth l (i - 1))) in Ek.
        pose proof (znth_Some_range _ _ _ Hp). rewrite znth_fmap, znth_insert_ne, znth_fmap, Hp in Ek by lia.
        destruct (znth prs' (i - 1)) as [p'|] eqn:Hp'; [|done]. cbn in Ek. injection Ek as E1 E2. exists p'. by rewrite Hp', E1. }
    split; [split|..].
    - apply (ch_mask _ _ _ Hc).
    - rewrite Elh. apply (ch_len _ _ _ Hc).
    - pose proof (zlen_fmap prop_key prs') as E. rewrite Ek in E. unfold zlen in E. rewrite length_insert, length_fmap in E.
      unfold zlen. rewrite <- E. apply (ch_count _ _ _ Hc).
    - intros k h' Hh'. rewrite Hnh in Hh'. destruct (decide (k = j)) as [->|Hkj].
      + exists (l1 ++ l2). split.
        * destruct (ichain_delete (prop_next prs) (prop_next prs') h l1 x l2 Hl Hnd) as (n & Hn & Hl').
          { intros y Hy Hyl. apply Hnext; [|done]. intros ->. apply list.NoDup_app in Hnd as (_ & Hd & [Hx _]%list.NoDup_cons).
            apply elem_of_app in Hy as [Hy|Hy]; [|done]. apply (Hd x Hy). by left. }
          { exact Hlast. }
          unfold prop_next in Hn. rewrite Hpr in Hn. injection Hn as Hn.
          destruct l1 as [|y l1]; [rewrite decide_True in Hh' by done; injection Hh' as <-; by rewrite decide_True, <- Hn in Hl' by done|].
          rewrite decide_False in Hh' by (by intros [_ ?]). rewrite decide_False in Hl' by done. by rewrite Hh in Hh'; injection Hh' as <-.
        * intros i. rewrite Hlive, <- Hi, !elem_of_app, elem_of_cons. split; [|naive_solver].
          intros Hin. split; [tauto|]. intros ->. apply list.NoDup_app in Hnd as (_ & Hd & [Hx _]%list.NoDup_cons).
          destruct Hin as [Hin|Hin]; [|done]. apply (Hd x Hin). by left.
      + rewrite decide_False in Hh' by (by intros [? _]). destruct (ch_chain _ _ _ Hc k h' Hh') as (lk & Hlk & Hik).
        assert (Hout : forall i, i ∈ l1 ++ x :: l2 -> ~ (i ∈ lk)).
        { intros i (p & Hp & _ & E1)%Hi (p' & Hp' & _ & E2)%Hik. congruence. }
        exists lk. split.
        * eapply ichain_frame; [|exact Hlk]. intros i Hin. apply Hnext.
          -- intros ->. apply (Hout x); [|done]. apply elem_of_app. right. by left.
          -- intros ->. destruct l1 as [|y l1]; [by destruct (ichain_nonzero _ _ _ _ Hlk Hin)|].
             apply (Hout (List.last (y :: l1) 0)); [apply elem_of_app; left; by apply last_nonempty|exact Hin].
        * intros i. rewrite Hlive, <- Hik. split; [|tauto]. intros Hin. split; [done|]. intros ->.
          apply (Hout x); [|done]. apply elem_of_app. right. by left.
    - intros i i' p p' Hp Hp' Ha Hab. destruct (Hkey _ _ Hp) as [[_ E]|[_ (q & Hq & E)]]; [injection E as E _; congruence|].
      destruct (Hkey _ _ Hp') as [[_ E']|[_ (q' & Hq' & E')]]; [injection E' as E' _; congruence|].
      injection E as E _. injection E' as E' _. eapply (Hu i i' q q'); congruence.
    - intros p (i & Hp)%elem_of_znth. destruct (Hkey _ _ Hp) as [[_ E]|[_ (q & Hq & E)]]; injection E as _ E; [lia|].
      rewrite <- E. apply Hf, elem_of_znth. by exists i. }
  unfold erase_entry. fold prs. rewrite Hpr. cbn [mbind option_bind]. fold dead.
  destruct l1 as [|y l1].
  - destruct (zupd_write _ _ (hash_next pr) _ Hh) as (hash' & E & El & Hn). cbn [lpr_of]. rewrite E. cbn [mbind option_bind].
    rewrite zupd_is_Some by done. cbn [mbind option_bind]. eexists _, hash'. split; [done|].
    assert (Ek : prop_key <$> <[Z.to_nat (x - 1) := dead]> prs = <[Z.to_nat (x - 1) := (JS_ATOM_NULL, 0)]> (prop_key <$> prs))
      by (by rewrite list_fmap_insert).
    split; [|exact Ek]. apply Hfin; try done.
    + intros k. rewrite Hn. destruct (decide (k = j)) as [->|]; [by rewrite decide_True|]. by rewrite decide_False by (by intros [? _]).
    + intros i Hix _. unfold prop_next. by rewrite znth_insert_ne by lia.
  - set (q := List.last (y :: l1) 0). assert (Hq : q ∈ (y :: l1) ++ x :: l2) by (apply elem_of_app; left; by apply last_nonempty).
    assert (Hqx : q <> x).
    { intros E. apply list.NoDup_app in Hnd as (_ & Hd & _). apply (Hd x); [rewrite <- E; by apply last_nonempty|by left]. }
    destruct (proj1 (Hi q) Hq) as (l & Hlq & _). pose proof (znth_Some_range _ _ _ Hlq) as Hqr.
    change (lpr_of (y :: l1)) with (Some (q - 1)). cbv iota beta. rewrite Hlq. cbn [mbind option_bind].
    rewrite zupd_is_Some by done. cbn [mbind option_bind].
    set (e := mk_shape_property (hash_next pr) (prop_flags l) (prop_atom l)). set (prs1 := <[Z.to_nat (q - 1) := e]> prs).
    assert (El : zlen prs1 = zlen prs) by (unfold zlen, prs1; by rewrite length_insert).
    rewrite zupd_is_Some by (rewrite El; exact Hr). cbn [mbind option_bind]. eexists _, (sh_prop_hash sh). split; [done|].
    assert (Ek : prop_key <$> <[Z.to_nat (x - 1) := dead]> prs1 = <[Z.to_nat (x - 1) := (JS_ATOM_NULL, 0)]> (prop_key <$> prs)).
    { rewrite list_fmap_insert. unfold prs1. rewrite list_fmap_insert, (list_insert_id (prop_key <$> prs)); [done|].
      rewrite list_lookup_fmap. rewrite znth_lookup in Hlq by lia. by rewrite Hlq. }
    split; [|exact Ek]. apply Hfin; try done.
    + intros k. by rewrite decide_False by (by intros [_ ?]).
    + intros i Hix Hiq. unfold prop_next, prs1. destruct (decide (i - 1 < 0)) as [Hneg|]; [unfold znth; by rewrite (proj2 (Z.ltb_lt _ _))|].
      rewrite !znth_insert_ne by lia. done.
    + intros _. unfold prop_next at 1. rewrite znth_insert_ne by lia. unfold prs1.
      rewrite znth_lookup, list_lookup_insert_eq by (unfold zlen in *; lia). unfold prop_next. by rewrite Hpr.
Qed.
