(* ===== verification/ShapeHeapOk.v ===== *)
(** * The invariant of the shapes

    Every object has a shape with as many slots; the reference count of a shape is the number
    of its users; the shapes in the hash table of the runtime are on the chain of their hash
    and have no deleted property; the references to atoms and prototypes that were taken and
    given up balance with those that the shapes hold. *)

From stdpp Require Import gmap.
From S2P Require Import Prelude Chain GcHeap ShapeTable ShapeOk.

(** ** References to other components *)

Inductive Ref := RefAtom (a : Z) | RefObject (p : Z).

Definition call_ref (r : Ref) (c : RtCall) : Z :=
  match r, c with
  | RefAtom a, CallDupAtom b => Z.b2z (a =? b)
  | RefAtom a, CallFreeAtom b => - Z.b2z (a =? b)
  | RefObject p, CallDupObject q => Z.b2z (p =? q)
  | RefObject p, CallFreeObject q => - Z.b2z (p =? q)
  | _, _ => 0
  end.

Definition sum_calls (r : Ref) (cs : list RtCall) : Z := foldr (fun c n => call_ref r c + n) 0 cs.

Definition props_ref (a : Z) (prs : list JSShapeProperty) : Z := foldr (fun pr n => Z.b2z (a =? prop_atom pr) + n) 0 prs.

Definition shape_ref (r : Ref) (sh : JSShape) : Z :=
  match r with RefAtom a => props_ref a (sh_prop sh) | RefObject p => Z.b2z (p =? sh_proto sh) end.

Definition real_ref (r : Ref) : Prop := match r with RefAtom a => a <> 0 | RefObject p => p <> 0 end.

Lemma sum_calls_app r c1 c2 : sum_calls r (c1 ++ c2) = sum_calls r c1 + sum_calls r c2.
Proof. induction c1 as [|c c1 IH]; [done|]. cbn. unfold sum_calls in *. cbn. lia. Qed.

Lemma props_ref_app a l1 l2 : props_ref a (l1 ++ l2) = props_ref a l1 + props_ref a l2.
Proof. induction l1 as [|c l1 IH]; [done|]. unfold props_ref in *. cbn. lia. Qed.

Lemma props_ref_key a l l' : prop_key <$> l = prop_key <$> l' -> props_ref a l = props_ref a l'.
Proof.
  revert l'. induction l as [|pr l IH]; intros [|pr' l'] E; try done. rewrite !fmap_cons in E. injection E as E1 _ E.
  unfold props_ref in *. cbn. rewrite E1, (IH l') by done. done.
Qed.

Lemma props_ref_live a l : a <> 0 -> props_ref a (filter live_prop l) = props_ref a l.
Proof.
  intros Ha. induction l as [|pr l IH]; [done|]. rewrite filter_cons. case_decide as H; unfold props_ref in *; cbn; [lia|].
  unfold live_prop in H. destruct (Z.eqb_spec a (prop_atom pr)) as [->|]; [|cbn; lia]. by destruct H.
Qed.

Lemma sum_calls_proto_dup r p : real_ref r -> sum_calls r (dup_proto p) = match r with RefObject q => Z.b2z (q =? p) | _ => 0 end.
Proof.
  intros Hr. unfold dup_proto. destruct (Z.eqb_spec p 0) as [->|]; destruct r as [a|q]; cbn; try lia.
  cbn in Hr. by rewrite (proj2 (Z.eqb_neq q 0)).
Qed.

Lemma sum_calls_proto_free r p : real_ref r -> sum_calls r (free_proto p) = match r with RefObject q => - Z.b2z (q =? p) | _ => 0 end.
Proof.
  intros Hr. unfold free_proto. destruct (Z.eqb_spec p 0) as [->|]; destruct r as [a|q]; cbn; try lia.
  cbn in Hr. by rewrite (proj2 (Z.eqb_neq q 0)).
Qed.

Lemma sum_calls_dup r prs : sum_calls r (map (fun pr => CallDupAtom (prop_atom pr)) prs) =
  match r with RefAtom a => props_ref a prs | _ => 0 end.
Proof. induction prs as [|pr prs IH]; [by destruct r|]. cbn. unfold sum_calls in *. rewrite IH. by destruct r. Qed.

Lemma sum_calls_free r prs : sum_calls r (map (fun pr => CallFreeAtom (prop_atom pr)) prs) =
  match r with RefAtom a => - props_ref a prs | _ => 0 end.
Proof. induction prs as [|pr prs IH]; [by destruct r|]. cbn. unfold sum_calls in *. rewrite IH. destruct r; unfold props_ref; cbn; lia. Qed.

(** ** The invariant *)

Record shape_ok (sh : JSShape) : Prop := {
  so_table : table_ok (sh_prop sh) (sh_prop_hash sh) (sh_hash_mask sh);
  so_count : sh_prop_count sh = zlen (sh_prop sh);
  so_size : zlen (sh_prop sh) <= sh_prop_size sh <= 2 ^ 27;
  so_deleted : sh_deleted sh = zlen (sh_prop sh) - live_count (sh_prop sh);
  so_hashed : sh_is_hashed sh = true -> sh_deleted sh = 0;
  so_hash : 0 <= sh_hash sh < 2 ^ 32
}.

Definition users (σ : ShapeHeap) (p : Z) : Z := msum (fun _ ob => Z.b2z (obj_shape ob =? p)) (sobjects σ).

(** The link of a shape in the hash table of the runtime. *)
Definition shape_link (σ : ShapeHeap) (p : Z) : option Z := sh_next <$> shapes σ !! p.

Definition in_bucket (σ : ShapeHeap) (L : Z -> Prop) (j p : Z) : Prop :=
  L p /\ exists sh, shapes σ !! p = Some sh /\ get_shape_hash (sh_hash sh) (shape_hash_bits σ) = j.

(** [ext p] references to the shape [p] are held outside the objects; the shapes of [L] are
    linked in the hash table. *)
Record heap_core (σ : ShapeHeap) (ext : Z -> Z) (L : Z -> Prop) : Prop := {
  hc_bits : 0 <= shape_hash_bits σ <= 30;
  hc_size : shape_hash_size σ = 2 ^ shape_hash_bits σ;
  hc_len : zlen (shape_hash σ) = shape_hash_size σ;
  hc_shape p sh : shapes σ !! p = Some sh -> p <> 0 /\ shape_ok sh;
  hc_object o ob : sobjects σ !! o = Some ob -> o <> 0 /\ exists sh, shapes σ !! obj_shape ob = Some sh /\ sh_prop_size sh <= zlen (obj_prop ob);
  hc_ref p sh : shapes σ !! p = Some sh -> sh_ref_count sh = users σ p + ext p;
  hc_ext p : 0 <= ext p;
  hc_ext_none p : shapes σ !! p = None -> ext p = 0;
  hc_chain j h : znth (shape_hash σ) j = Some h -> exists l, ichain (shape_link σ) h l /\ forall p, p ∈ l <-> in_bucket σ L j p;
  hc_linked p : L p -> is_Some (shapes σ !! p);
  hc_calls r : real_ref r -> sum_calls r (calls σ) = msum (fun _ sh => shape_ref r sh) (shapes σ)
}.

Definition hashed (σ : ShapeHeap) (p : Z) : Prop := exists sh, shapes σ !! p = Some sh /\ sh_is_hashed sh = true.

(** Only a hashed shape is shared. *)
Definition counted (sh : JSShape) : Prop := 1 <= sh_ref_count sh /\ (sh_is_hashed sh = false -> sh_ref_count sh = 1).

Definition heap_ok (σ : ShapeHeap) (ext : Z -> Z) : Prop :=
  heap_core σ ext (hashed σ) /\ forall p sh, shapes σ !! p = Some sh -> counted sh.

Lemma users_nonneg σ p : 0 <= users σ p.
Proof. apply msum_nonneg. intros. by destruct (_ =? _). Qed.

Lemma user_counted σ o ob : sobjects σ !! o = Some ob -> 1 <= users σ (obj_shape ob).
Proof.
  intros Ho. pose proof (msum_pos (fun _ ob' => Z.b2z (obj_shape ob' =? obj_shape ob)) (sobjects σ) o ob) as H.
  cbn in H. rewrite Z.eqb_refl in H. apply H; [|done]. intros. by destruct (_ =? _).
Qed.

(** A shape with one reference has no other user. *)
Lemma only_user σ o ob o' ob' : sobjects σ !! o = Some ob -> sobjects σ !! o' = Some ob' -> obj_shape ob' = obj_shape ob ->
  users σ (obj_shape ob) <= 1 -> o' = o.
Proof.
  intros Ho Ho' E Hu. destruct (decide (o' = o)) as [|Hne]; [done|]. exfalso.
  pose proof (msum_pos2 (fun _ b => Z.b2z (obj_shape b =? obj_shape ob)) (sobjects σ) o ob o' ob') as H. cbn in H.
  rewrite E, Z.eqb_refl in H. unfold users in Hu. cbn in H. lapply H; [|by intros; destruct (_ =? _)]. intros H'.
  specialize (H' (fun e => Hne (eq_sym e)) Ho Ho'). lia.
Qed.

Lemma hash_bucket σ ext L sh : heap_core σ ext L -> 0 <= sh_hash sh < 2 ^ 32 ->
  exists h, znth (shape_hash σ) (get_shape_hash (sh_hash sh) (shape_hash_bits σ)) = Some h.
Proof.
  intros Hc Hh. apply znth_is_Some. rewrite (hc_len _ _ _ Hc), (hc_size _ _ _ Hc). unfold get_shape_hash.
  pose proof (hc_bits _ _ _ Hc) as Hb. rewrite Z.shiftr_div_pow2 by lia. split; [apply Z.div_pos; lia|].
  apply Z.div_lt_upper_bound; [lia|]. rewrite <- Z.pow_add_r by lia.
  replace (32 - shape_hash_bits σ + shape_hash_bits σ) with 32 by lia. lia.
Qed.

Lemma chain_shapes σ ext L j h l : heap_core σ ext L -> ichain (shape_link σ) h l ->
  (forall p, p ∈ l <-> in_bucket σ L j p) -> (length l <= size (shapes σ))%nat.
Proof.
  intros Hc Hl Hi. rewrite <- size_dom. rewrite <- (size_list_to_set (C := gset Z)) by (by eapply ichain_NoDup).
  apply subseteq_size. intros p Hp%elem_of_list_to_set. apply Hi in Hp as (_ & sh & Hsh & _). by apply elem_of_dom_2 in Hsh.
Qed.

(** ** Changing one shape *)

Lemma put_core σ ext ext' L p sh sh' cs : heap_core σ ext L -> shapes σ !! p = Some sh -> shape_ok sh' ->
  (L p -> sh_hash sh' = sh_hash sh /\ sh_next sh' = sh_next sh) -> 
  (forall o ob, sobjects σ !! o = Some ob -> obj_shape ob = p -> sh_prop_size sh' <= zlen (obj_prop ob)) ->
  sh_ref_count sh' = users σ p + ext' p -> 0 <= ext' p -> (forall q, q <> p -> ext' q = ext q) ->
  (forall r, real_ref r -> sum_calls r cs = shape_ref r sh' - shape_ref r sh) ->
  heap_core (record cs (put_shape p sh' σ)) ext' L.
Proof.
  intros Hc Hp Hok Hl Hs Hr He Hext Hcs. set (σ' := record _ _).
  assert (Hlk : forall q, L q -> shape_link σ' q = shape_link σ q).
  { intros q Hq. unfold shape_link. subst σ'. cbn. destruct (decide (q = p)) as [->|Hne]; [|by rewrite lookup_insert_ne].
    rewrite lookup_insert_eq, Hp. cbn. f_equal. by apply Hl. }
  destruct Hc. split; try done.
  - intros q s. subst σ'. cbn. intros [[<- <-]|[_ Hq]]%lookup_insert_Some; [|by apply hc_shape0]. split; [|done].
    by apply (hc_shape0 p sh).
  - intros o ob Ho. destruct (hc_object0 o ob Ho) as (Ho0 & s & Hs' & Hz). split; [done|]. subst σ'. cbn.
    destruct (decide (obj_shape ob = p)) as [E|Hne]; [|exists s; by rewrite lookup_insert_ne by done].
    rewrite E, lookup_insert_eq. exists sh'. split; [done|]. by eapply Hs.
  - intros q s. subst σ'. cbn. intros [[<- <-]|[Hne Hq]]%lookup_insert_Some; [done|]. rewrite Hext by done. by apply hc_ref0.
  - intros q. destruct (decide (q = p)) as [->|Hne]; [done|]. by rewrite Hext.
  - intros q. subst σ'. cbn. intros [Hq Hne]%lookup_insert_None. rewrite Hext by done. by apply hc_ext_none0.
  - intros j h Hh. destruct (hc_chain0 j h Hh) as (l & Hl' & Hi). exists l. split.
    + eapply ichain_frame; [|exact Hl']. intros q Hq. apply Hlk. by apply Hi in Hq as [? _].
    + intros q. rewrite Hi. unfold in_bucket. split; intros (HL & s & Hsq & Hb); (split; [done|]); subst σ'; cbn in *.
      * destruct (decide (q = p)) as [->|Hne]; [rewrite lookup_insert_eq|rewrite lookup_insert_ne by done; by exists s].
        exists sh'. split; [done|]. destruct (Hl HL) as [-> _]. congruence.
      * destruct (decide (q = p)) as [->|Hne]; [rewrite lookup_insert_eq in Hsq|rewrite lookup_insert_ne in Hsq by done; by exists s].
        injection Hsq as <-. exists sh. split; [done|]. destruct (Hl HL) as [E _]. by rewrite <- E.
  - intros q HL. subst σ'. cbn. destruct (decide (q = p)) as [->|Hne]; [rewrite lookup_insert_eq; by eexists|].
    rewrite lookup_insert_ne by done. by apply hc_linked0.
  - intros r Hrr. subst σ'. cbn [calls record put_shape set_shapes shapes]. rewrite sum_calls_app, hc_calls0, Hcs by done.
    rewrite (msum_update (fun _ s => shape_ref r s) (shapes σ) p sh sh' Hp). lia.
Qed.

(** ** Linking *)

(** The shapes but for their links in the hash table. *)
Definition relinked (σ σ' : ShapeHeap) : Prop :=
  sobjects σ' = sobjects σ /\ calls σ' = calls σ /\
  forall q, match shapes σ !! q with
    | Some sh => exists n, shapes σ' !! q = Some (set_sh_next n sh)
    | None => shapes σ' !! q = None
    end.

Lemma relinked_back σ σ' q sh' : relinked σ σ' -> shapes σ' !! q = Some sh' -> exists sh n, shapes σ !! q = Some sh /\ sh' = set_sh_next n sh.
Proof.
  intros (_ & _ & H) E. specialize (H q). destruct (shapes σ !! q) as [sh|]; [|congruence]. destruct H as [n Hn]. exists sh, n.
  split; [done|congruence].
Qed.

Lemma relinked_size σ σ' : relinked σ σ' -> size (shapes σ') = size (shapes σ).
Proof.
  intros (_ & _ & H). rewrite <- !size_dom. f_equal. apply set_eq. intros q. rewrite !elem_of_dom. specialize (H q).
  destruct (shapes σ !! q) as [sh|]; [destruct H as [n ->]; split; by eexists|rewrite H; by split].
Qed.

Lemma shape_ok_next n sh : shape_ok sh -> shape_ok (set_sh_next n sh).
Proof. by intros []. Qed.

Lemma relinked_sum σ σ' r : relinked σ σ' -> msum (fun _ sh => shape_ref r sh) (shapes σ') = msum (fun _ sh => shape_ref r sh) (shapes σ).
Proof.
  intros (_ & _ & H).
  assert (E : forall m m' : gmap Z JSShape, (forall q, match m !! q with Some sh => exists n, m' !! q = Some (set_sh_next n sh)
    | None => m' !! q = None end) -> msum (fun _ sh => shape_ref r sh) m' = msum (fun _ sh => shape_ref r sh) m).
  { clear. intros m. induction m as [|k v m Hk IH] using map_ind; intros m' H.
    - assert (m' = ∅) as ->; [|done]. apply map_empty. intros q. specialize (H q). by rewrite lookup_empty in H.
    - pose proof (H k) as Hk'. rewrite lookup_insert_eq in Hk'. destruct Hk' as [n Hn].
      rewrite msum_insert by done. rewrite <- (IH (delete k m')).
      + rewrite (msum_delete _ m' k _ Hn). replace (shape_ref r (set_sh_next n v)) with (shape_ref r v) by (by destruct r). lia.
      + intros q. destruct (decide (q = k)) as [->|Hne]; [by rewrite Hk, lookup_delete_eq|].
        specialize (H q). rewrite lookup_insert_ne in H by done. by rewrite lookup_delete_ne. }
  by apply E.
Qed.

Lemma relink_core σ σ' ext L L' : heap_core σ ext L -> relinked σ σ' -> 0 <= shape_hash_bits σ' <= 30 ->
  shape_hash_size σ' = 2 ^ shape_hash_bits σ' -> zlen (shape_hash σ') = shape_hash_size σ' ->
  (forall q, L' q -> is_Some (shapes σ !! q)) ->
  (forall j h, znth (shape_hash σ') j = Some h -> exists l, ichain (shape_link σ') h l /\
     forall p, p ∈ l <-> L' p /\ exists sh, shapes σ !! p = Some sh /\ get_shape_hash (sh_hash sh) (shape_hash_bits σ') = j) ->
  heap_core σ' ext L'.
Proof.
  intros Hc Hr Hb Hs Hl HL Hch. pose proof Hr as (Eo & Ec & Hq).
  assert (Hu : forall p, users σ' p = users σ p) by (intros p; unfold users; by rewrite Eo).
  destruct Hc. split; try done.
  - intros p sh' (sh & n & Hsh & ->)%(relinked_back σ σ' _ _ Hr). destruct (hc_shape0 p sh Hsh). split; [done|by apply shape_ok_next].
  - intros o ob Ho. rewrite Eo in Ho. destruct (hc_object0 o ob Ho) as (? & sh & Hsh & Hz). split; [done|].
    specialize (Hq (obj_shape ob)). rewrite Hsh in Hq. destruct Hq as [n ->]. by exists (set_sh_next n sh).
  - intros p sh' (sh & n & Hsh & ->)%(relinked_back σ σ' _ _ Hr). rewrite Hu. by apply (hc_ref0 p sh).
  - intros p Hp. apply hc_ext_none0. specialize (Hq p). destruct (shapes σ !! p); [|done]. destruct Hq as [n Hn]. congruence.
  - intros j h Hh. destruct (Hch j h Hh) as (l & Hl' & Hi). exists l. split; [done|]. intros p. rewrite Hi. unfold in_bucket.
    split; intros (H1 & sh & H2 & H3); (split; [done|]).
    + specialize (Hq p). rewrite H2 in Hq. destruct Hq as [n Hn]. by exists (set_sh_next n sh).
    + apply (relinked_back _ _ _ _ Hr) in H2 as (s & n & Hsn & ->). by exists s.
  - intros q H. apply HL in H as [sh Hsh]. specialize (Hq q). rewrite Hsh in Hq. destruct Hq as [n Hn]. rewrite Hn. by eexists.
  - intros r Hrr. rewrite Ec, (relinked_sum σ σ' r Hr). by apply hc_calls0.
Qed.

Lemma link_core σ ext L p sh : heap_core σ ext L -> shapes σ !! p = Some sh -> ~ L p ->
  exists σ', js_shape_hash_link σ p = Some σ' /\ heap_core σ' ext (fun q => q = p \/ L q) /\ relinked σ σ'.
Proof.
  intros Hc Hp HL. destruct (hc_shape _ _ _ Hc p sh Hp) as [Hp0 Hok].
  destruct (hash_bucket σ ext L sh Hc (so_hash _ Hok)) as [n Hn]. unfold js_shape_hash_link. rewrite Hp. cbn [mbind option_bind].
  rewrite Hn. cbn [mbind option_bind]. destruct (zupd_write _ _ p _ Hn) as (l & El & Hlen & Hnth). rewrite El. cbn [mbind option_bind].
  eexists. split; [done|]. set (σ' := set_shape_hash _ _ _).
  assert (Hr : relinked σ σ').
  { split; [done|]. split; [done|]. intros q. subst σ'. cbn. destruct (decide (q = p)) as [->|Hne].
    - rewrite lookup_insert_eq, Hp. by exists n.
    - rewrite lookup_insert_ne by done. destruct (shapes σ !! q) as [s|]; [|done]. exists (sh_next s). f_equal. by destruct s. }
  split; [|exact Hr]. eapply (relink_core σ σ' ext L); try done.
  - apply (hc_bits _ _ _ Hc).
  - apply (hc_size _ _ _ Hc).
  - subst σ'. cbn. rewrite Hlen. apply (hc_len _ _ _ Hc).
  - intros q [->|Hq]; [by eexists|by apply (hc_linked _ _ _ Hc)].
  - assert (Hlk : forall q, q <> p -> shape_link σ' q = shape_link σ q).
    { intros q Hq. unfold shape_link. subst σ'. cbn. by rewrite lookup_insert_ne. }
    set (j0 := get_shape_hash (sh_hash sh) (shape_hash_bits σ)) in *. intros j h. subst σ'. cbn [shape_hash set_shape_hash]. rewrite Hnth. case_decide as Ej.
    + intros [= <-]. subst j. destruct (hc_chain _ _ _ Hc _ _ Hn) as (lj & Hlj & Hij). exists (p :: lj). split.
      * cbn [ichain]. split; [done|]. split; [done|]. exists n. split; [unfold shape_link; cbn; by rewrite lookup_insert_eq|].
        eapply ichain_frame; [|exact Hlj]. intros q Hq. apply Hlk. intros ->. by apply Hij in Hq as [? _].
      * intros q. rewrite elem_of_cons, Hij. unfold in_bucket. cbn. split; [|naive_solver].
        intros [->|(HLq & s & Hs & E)]; (split; [tauto|]); [by exists sh|by exists s].
    + intros Hj. destruct (hc_chain _ _ _ Hc j h Hj) as (lj & Hlj & Hij). exists lj. split.
      * eapply ichain_frame; [|exact Hlj]. intros q Hq. apply Hlk. intros ->. by apply Hij in Hq as [? _].
      * intros q. rewrite Hij. unfold in_bucket. cbn. split; [naive_solver|]. intros ([->|HLq] & s & Hs & E); [|by split; [|exists s]].
        exfalso. apply Ej. rewrite Hp in Hs. injection Hs as <-. by rewrite <- E.
Qed.

Lemma unlink_shape_spec fuel σ h p sh l2 : forall l1 prev cur, ichain (shape_link σ) cur (l1 ++ p :: l2) -> ~ (p ∈ l1) ->
  shapes σ !! p = Some sh -> (length l1 <= fuel)%nat ->
  unlink_shape fuel σ h prev cur p =
    match (match l1 with [] => prev | _ => Some (List.last l1 0) end) with
    | None => l ← zupd (shape_hash σ) h (sh_next sh); Some (set_shape_hash l (shape_hash_count σ) σ)
    | Some q => sh0 ← shapes σ !! q; Some (put_shape q (set_sh_next (sh_next sh) sh0) σ)
    end.
Proof.
  induction fuel as [|fuel IH]; intros [|x l1] prev cur; cbn [app ichain length]; try lia; intros (-> & Hx & n & Hn & Hl) Hp Hs Hf.
  1, 2: cbn [unlink_shape]; rewrite Z.eqb_refl, Hs; cbn [mbind option_bind]; by destruct prev.
  rewrite elem_of_cons in Hp. cbn [unlink_shape]. rewrite (proj2 (Z.eqb_neq x p)) by (intros ->; tauto).
  unfold shape_link in Hn. destruct (shapes σ !! x) as [s|] eqn:Hsx; [|done]. injection Hn as Hn. cbn [mbind option_bind]. rewrite Hn.
  rewrite (IH l1 (Some x) n Hl) by (tauto || lia). destruct l1; done.
Qed.

Lemma unlink_core σ ext L p : heap_core σ ext L -> L p ->
  exists σ', js_shape_hash_unlink σ p = Some σ' /\ heap_core σ' ext (fun q => L q /\ q <> p) /\ relinked σ σ'.
Proof.
  intros Hc HL. destruct (hc_linked _ _ _ Hc p HL) as [sh Hp]. destruct (hc_shape _ _ _ Hc p sh Hp) as [Hp0 Hok].
  destruct (hash_bucket σ ext L sh Hc (so_hash _ Hok)) as [cur Hn]. unfold js_shape_hash_unlink. rewrite Hp. cbn [mbind option_bind].
  rewrite Hn. cbn [mbind option_bind]. set (j0 := get_shape_hash (sh_hash sh) (shape_hash_bits σ)) in *.
  destruct (hc_chain _ _ _ Hc _ _ Hn) as (l & Hl & Hi). assert (Hin : p ∈ l) by (apply Hi; split; [done|by exists sh]).
  pose proof (chain_shapes σ ext L j0 cur l Hc Hl Hi) as Hlen. pose proof (ichain_NoDup _ _ _ Hl) as Hnd.
  apply list_elem_of_split in Hin as (l1 & l2 & ->).
  assert (Hp1 : ~ (p ∈ l1)). { intros H. apply list.NoDup_app in Hnd as (_ & Hd & _). apply (Hd p H). by left. }
  assert (Hp2 : ~ (p ∈ l2)). { intros H. by apply list.NoDup_app in Hnd as (_ & _ & [? _]%list.NoDup_cons). }
  rewrite length_app in Hlen. cbn [length] in Hlen.
  rewrite (unlink_shape_spec (size (shapes σ)) σ j0 p sh l2 l1 None cur Hl Hp1 Hp ltac:(lia)).
  assert (Hfin : forall σ1, relinked σ σ1 -> shape_hash_bits σ1 = shape_hash_bits σ -> shape_hash_size σ1 = shape_hash_size σ ->
    zlen (shape_hash σ1) = zlen (shape_hash σ) ->
    (forall k, znth (shape_hash σ1) k = if decide (k = j0 /\ l1 = []) then Some (sh_next sh) else znth (shape_hash σ) k) ->
    (forall q, q <> List.last l1 0 -> shape_link σ1 q = shape_link σ q) ->
    (l1 <> [] -> shape_link σ1 (List.last l1 0) = shape_link σ p) ->
    heap_core σ1 ext (fun q => L q /\ q <> p)).
  { intros σ1 Hr Eb Es El Enth Hlk Hlast. eapply (relink_core σ σ1 ext L); try done.
    - rewrite Eb. apply (hc_bits _ _ _ Hc).
    - rewrite Es, Eb. apply (hc_size _ _ _ Hc).
    - rewrite El, Es. apply (hc_len _ _ _ Hc).
    - intros q [Hq _]. by apply (hc_linked _ _ _ Hc).
    - rewrite Eb. intros k h Hk. rewrite Enth in Hk. destruct (decide (k = j0)) as [->|Hkj].
      + exists (l1 ++ l2). split.
        * destruct (ichain_delete (shape_link σ) (shape_link σ1) cur l1 p l2 Hl Hnd) as (n & En & Hl').
          { intros y _ Hy. by apply Hlk. } { exact Hlast. }
          unfold shape_link in En. rewrite Hp in En. injection En as En. destruct (decide (l1 = [])) as [->|Hne].
          -- rewrite decide_True in Hk by done. injection Hk as <-. by rewrite En.
          -- rewrite decide_False in Hk by (by intros [_ ?]). rewrite Hn in Hk. by injection Hk as <-.
        * intros q. transitivity (q ∈ l1 ++ p :: l2 /\ q <> p).
          { rewrite !elem_of_app, elem_of_cons. split; [|naive_solver]. intros Hq. split; [tauto|]. intros ->. tauto. }
          rewrite Hi. unfold in_bucket. naive_solver.
      + rewrite decide_False in Hk by (by intros [? _]). destruct (hc_chain _ _ _ Hc k h Hk) as (lk & Hlk' & Hik). exists lk. split.
        * eapply ichain_frame; [|exact Hlk']. intros q Hq. apply Hlk. intros ->.
          destruct l1 as [|y l1]; [by destruct (ichain_nonzero _ _ _ _ Hlk' Hq)|].
          assert (Hin : List.last (y :: l1) 0 ∈ (y :: l1) ++ p :: l2) by (apply elem_of_app; left; by apply last_nonempty).
          apply Hi in Hin as (_ & s & Hs & E1). apply Hik in Hq as (_ & s' & Hs' & E2). congruence.
        * intros q. rewrite Hik. unfold in_bucket. split; [|naive_solver]. intros (H1 & s & H2 & H3). split; [|by exists s].
          split; [done|]. intros ->. apply Hkj. rewrite <- H3. assert (s = sh) as -> by congruence. done. }
  destruct l1 as [|y l1].
  - destruct (zupd_write _ _ (sh_next sh) _ Hn) as (hl & -> & Hll & Hln). cbn [mbind option_bind]. eexists. split; [done|].
    assert (Hr : relinked σ (set_shape_hash hl (shape_hash_count σ - 1) σ)).
    { split; [done|]. split; [done|]. intros q. cbn. destruct (shapes σ !! q) as [s|]; [|done]. exists (sh_next s). f_equal. by destruct s. }
    split; [|exact Hr]. apply Hfin; try done. intros k. cbn. rewrite Hln.
    destruct (decide (k = j0)) as [->|]; [by rewrite !decide_True|]. by rewrite !decide_False by naive_solver.
  - set (q0 := List.last (y :: l1) 0). assert (Hq0 : q0 ∈ (y :: l1) ++ p :: l2) by (apply elem_of_app; left; by apply last_nonempty).
    apply Hi in Hq0 as (_ & s0 & Hs0 & _). rewrite Hs0. cbn [mbind option_bind]. eexists. split; [done|].
    set (σ1 := set_shape_hash _ _ _).
    assert (Hlk : forall q, shapes σ1 !! q = if decide (q = q0) then Some (set_sh_next (sh_next sh) s0) else shapes σ !! q).
    { intros q. subst σ1. cbn. case_decide as E; [subst; by rewrite lookup_insert_eq|by rewrite lookup_insert_ne]. }
    assert (Hr : relinked σ σ1).
    { split; [done|]. split; [done|]. intros q. rewrite Hlk. case_decide as E; [subst q; rewrite Hs0; by eexists|].
      destruct (shapes σ !! q) as [s|]; [|done]. exists (sh_next s). f_equal. by destruct s. }
    split; [|exact Hr]. apply Hfin; try done.
    + intros k. rewrite decide_False by naive_solver. done.
    + intros q Hq. unfold shape_link. by rewrite Hlk, decide_False.
    + intros _. unfold shape_link. by rewrite Hlk, decide_True, Hp.
Qed.

(** ** Shapes that come and go *)

Lemma core_ext σ ext ext' L L' : (forall p, ext p = ext' p) -> (forall p, L p <-> L' p) -> heap_core σ ext L -> heap_core σ ext' L'.
Proof.
  intros He HL []. split; try done.
  - intros p sh Hp. rewrite <- He. by apply hc_ref0.
  - intros p. by rewrite <- He.
  - intros p. rewrite <- He. apply hc_ext_none0.
  - intros j h Hh. destruct (hc_chain0 j h Hh) as (l & Hl & Hi). exists l. split; [done|]. intros p. rewrite Hi.
    unfold in_bucket. by rewrite HL.
  - intros p Hp. by apply hc_linked0, HL.
Qed.

Lemma no_users σ ext L p : heap_core σ ext L -> shapes σ !! p = None -> users σ p = 0.
Proof.
  intros Hc Hp. apply msum_zero. intros o ob Ho. destruct (Z.eqb_spec (obj_shape ob) p) as [E|]; [|done].
  destruct (hc_object _ _ _ Hc o ob Ho) as (_ & sh & Hsh & _). congruence.
Qed.

(** [ext] with [n] at [p]. *)
Definition with_ext (ext : Z -> Z) (p n : Z) : Z -> Z := fun q => if decide (q = p) then n else ext q.

Lemma with_ext_eq ext p n : with_ext ext p n p = n.
Proof. unfold with_ext. by rewrite decide_True. Qed.

Lemma with_ext_ne ext p n q : q <> p -> with_ext ext p n q = ext q.
Proof. intros. unfold with_ext. by rewrite decide_False. Qed.

Lemma insert_core σ ext L p sh cs : heap_core σ ext L -> shapes σ !! p = None -> p <> 0 -> shape_ok sh -> sh_ref_count sh = 1 ->
  (forall r, real_ref r -> sum_calls r cs = shape_ref r sh) ->
  heap_core (record cs (put_shape p sh σ)) (with_ext ext p 1) L.
Proof.
  intros Hc Hp Hp0 Hok Hr Hcs. pose proof (no_users _ _ _ _ Hc Hp) as Hu. set (σ' := record _ _).
  assert (HL : ~ L p) by (intros [sh' H]%(hc_linked _ _ _ Hc); congruence).
  assert (Hk : forall q, q <> p -> shapes σ' !! q = shapes σ !! q) by (intros q Hq; subst σ'; cbn; by rewrite lookup_insert_ne).
  assert (Hlk : forall q, L q -> shape_link σ' q = shape_link σ q) by (intros q Hq; unfold shape_link; rewrite Hk; [done|congruence]).
  destruct Hc. split; try done.
  - intros q s. subst σ'. cbn. intros [[<- <-]|[_ Hq]]%lookup_insert_Some; [done|by apply hc_shape0].
  - intros o ob Ho. destruct (hc_object0 o ob Ho) as (? & s & Hs & Hz). split; [done|]. exists s. rewrite Hk; [done|]. congruence.
  - intros q s. subst σ'. cbn. intros [[<- <-]|[Hne Hq]]%lookup_insert_Some.
    + rewrite with_ext_eq, Hr. change (users _ p) with (users σ p). lia.
    + rewrite with_ext_ne by done. by apply hc_ref0.
  - intros q. unfold with_ext. case_decide; [lia|done].
  - intros q Hq. destruct (decide (q = p)) as [->|Hne]; [subst σ'; cbn in Hq; by rewrite lookup_insert_eq in Hq|].
    rewrite with_ext_ne by done. rewrite Hk in Hq by done. by apply hc_ext_none0.
  - intros j h Hh. destruct (hc_chain0 j h Hh) as (l & Hl & Hi). exists l. split.
    + eapply ichain_frame; [|exact Hl]. intros q Hq. apply Hlk. by apply Hi in Hq as [? _].
    + intros q. rewrite Hi. unfold in_bucket. split; intros (Hq & s & Hs & E); (split; [done|]); exists s;
        rewrite Hk in *; done || congruence.
  - intros q Hq. rewrite Hk by congruence. by apply hc_linked0.
  - intros r Hrr. subst σ'. cbn [calls record put_shape set_shapes shapes]. rewrite sum_calls_app, hc_calls0, Hcs by done.
    rewrite msum_insert by done. lia.
Qed.

Lemma delete_core σ ext L p sh cs : heap_core σ ext L -> shapes σ !! p = Some sh -> ~ L p -> users σ p = 0 -> ext p = 0 ->
  (forall r, real_ref r -> sum_calls r cs = - shape_ref r sh) ->
  heap_core (set_shapes (delete p (shapes σ)) (record cs σ)) ext L.
Proof.
  intros Hc Hp HL Hu He Hcs. set (σ' := set_shapes _ _).
  assert (Hk : forall q, q <> p -> shapes σ' !! q = shapes σ !! q) by (intros q Hq; subst σ'; cbn; by rewrite lookup_delete_ne).
  assert (Hlk : forall q, L q -> shape_link σ' q = shape_link σ q) by (intros q Hq; unfold shape_link; rewrite Hk; [done|congruence]).
  assert (Hout : forall o ob, sobjects σ !! o = Some ob -> obj_shape ob <> p).
  { intros o ob Ho E. pose proof (user_counted σ o ob Ho) as H. rewrite E in H. lia. }
  destruct Hc. split; try done.
  - intros q s. subst σ'. cbn. intros [_ Hq]%lookup_delete_Some. by apply hc_shape0.
  - intros o ob Ho. destruct (hc_object0 o ob Ho) as (? & s & Hs & Hz). split; [done|]. exists s. rewrite Hk; [done|]. by eapply Hout.
  - intros q s. subst σ'. cbn. intros [_ Hq]%lookup_delete_Some. by apply hc_ref0.
  - intros q Hq. destruct (decide (q = p)) as [->|Hne]; [done|]. rewrite Hk in Hq by done. by apply hc_ext_none0.
  - intros j h Hh. destruct (hc_chain0 j h Hh) as (l & Hl & Hi). exists l. split.
    + eapply ichain_frame; [|exact Hl]. intros q Hq. apply Hlk. by apply Hi in Hq as [? _].
    + intros q. rewrite Hi. unfold in_bucket. split; intros (Hq & s & Hs & E); (split; [done|]); exists s;
        rewrite Hk in *; done || congruence.
  - intros q Hq. rewrite Hk by congruence. by apply hc_linked0.
  - intros r Hrr. subst σ'. cbn [calls record set_shapes shapes]. rewrite sum_calls_app, hc_calls0, Hcs by done.
    rewrite (msum_delete _ _ p sh Hp). lia.
Qed.

(** ** Objects *)

Lemma users_put σ o ob p' prop q : sobjects σ !! o = Some ob ->
  users (put_object o (mk_object p' prop) σ) q = users σ q - Z.b2z (obj_shape ob =? q) + Z.b2z (p' =? q).
Proof. intros Ho. unfold users. cbn. by rewrite (msum_update _ _ o ob _ Ho). Qed.

(** The object [o] changes its slots, and its shape from [obj_shape ob] to [p']. *)
Lemma object_core σ ext ext' L o ob p' sh' prop : heap_core σ ext L -> sobjects σ !! o = Some ob ->
  shapes σ !! p' = Some sh' -> sh_prop_size sh' <= zlen prop ->
  (forall q, ext' q = ext q + Z.b2z (obj_shape ob =? q) - Z.b2z (p' =? q)) -> 0 <= ext' p' ->
  heap_core (put_object o (mk_object p' prop) σ) ext' L.
Proof.
  intros Hc Ho Hp Hz He Hpos. pose proof (users_put σ o ob p' prop) as Hu. destruct Hc. split; try done.
  - intros o' ob'. cbn. intros [[<- <-]|[_ H]]%lookup_insert_Some; [|by apply hc_object0]. split; [|by exists sh'].
    by destruct (hc_object0 o ob Ho).
  - intros q s Hs. rewrite Hu, He by done. cbn in Hs. rewrite (hc_ref0 q s Hs). lia.
  - intros q. rewrite He. specialize (hc_ext0 q). destruct (Z.eqb_spec p' q) as [->|]; [|destruct (_ =? _); cbn; lia].
    rewrite He in Hpos. rewrite Z.eqb_refl in Hpos. done.
  - intros q Hq. cbn in Hq. rewrite He, (hc_ext_none0 q Hq). destruct (hc_object0 o ob Ho) as (_ & s & Hs & _).
    cbn. destruct (Z.eqb_spec (obj_shape ob) q) as [E|]; [congruence|]. destruct (Z.eqb_spec p' q) as [E|]; [congruence|]. done.
Qed.

Lemma new_object_core σ ext L o p sh prop cs : heap_core σ ext L -> sobjects σ !! o = None -> o <> 0 -> shapes σ !! p = Some sh ->
  sh_prop_size sh <= zlen prop -> 1 <= ext p -> (forall r, sum_calls r cs = 0) ->
  heap_core (record cs (put_object o (mk_object p prop) σ)) (with_ext ext p (ext p - 1)) L.
Proof.
  intros Hc Ho Ho0 Hp Hz He Hcs. set (σ' := record _ _).
  assert (Hu : forall q, users σ' q = users σ q + Z.b2z (p =? q)).
  { intros q. unfold users. subst σ'. cbn. rewrite msum_insert by done. cbn. lia. }
  destruct Hc. split; try done.
  - intros o' ob'. subst σ'. cbn. intros [[<- <-]|[_ H]]%lookup_insert_Some; [|by apply hc_object0]. split; [done|]. by exists sh.
  - intros q s Hs. rewrite Hu. cbn in Hs. rewrite (hc_ref0 q s Hs). unfold with_ext. case_decide as E.
    + subst q. rewrite Z.eqb_refl. cbn. lia.
    + rewrite (proj2 (Z.eqb_neq p q)) by congruence. cbn. lia.
  - intros q. unfold with_ext. case_decide; [lia|done].
  - intros q Hq. cbn in Hq. unfold with_ext. case_decide; [congruence|by apply hc_ext_none0].
  - intros r Hr. subst σ'. cbn [calls record put_object set_sobjects shapes]. rewrite sum_calls_app, Hcs, Z.add_0_r. by apply hc_calls0.
Qed.

Lemma delete_object_core σ ext L o ob cs : heap_core σ ext L -> sobjects σ !! o = Some ob -> (forall r, sum_calls r cs = 0) ->
  heap_core (record cs (set_sobjects (delete o (sobjects σ)) σ)) (with_ext ext (obj_shape ob) (ext (obj_shape ob) + 1)) L.
Proof.
  intros Hc Ho Hcs. set (σ' := record _ _).
  assert (Hu : forall q, users σ' q = users σ q - Z.b2z (obj_shape ob =? q)).
  { intros q. unfold users. subst σ'. cbn. by rewrite (msum_delete _ _ o ob Ho). }
  destruct Hc. split; try done.
  - intros o' ob'. subst σ'. cbn. intros [_ H]%lookup_delete_Some. by apply hc_object0.
  - intros q s Hs. rewrite Hu. cbn in Hs. rewrite (hc_ref0 q s Hs). unfold with_ext. case_decide as E.
    + subst q. rewrite Z.eqb_refl. cbn. lia.
    + rewrite (proj2 (Z.eqb_neq _ q)) by congruence. cbn. lia.
  - intros q. unfold with_ext. specialize (hc_ext0 q). case_decide; [subst; lia|done].
  - intros q Hq. cbn in Hq. unfold with_ext. destruct (hc_object0 o ob Ho) as (_ & s & Hs & _).
    case_decide; [congruence|by apply hc_ext_none0].
  - intros r Hr. subst σ'. cbn [calls record set_sobjects shapes]. rewrite sum_calls_app, Hcs, Z.add_0_r. by apply hc_calls0.
Qed.
