(* ===== verification/ShapeStep.v ===== *)
(** * What the steps on shapes leave as it was

    The view of an object is its prototype with its properties in their order.  A step on
    the object [o] changes [o] and the shapes of a short list; every other object keeps its
    view.  References to shapes are taken and given up, a shape is copied for one object that
    will change it, and the shape of one object moves to another address. *)

From stdpp Require Import gmap.
From S2P Require Import Prelude GcHeap Chain ShapeTable ShapeOk ShapeHeapOk.

(** ** Views *)

Definition obj_view (σ : ShapeHeap) (o : Z) : option (Z * list (Z * Z * option JSProperty)) :=
  ob ← sobjects σ !! o;
  sh ← shapes σ !! obj_shape ob;
  Some (sh_proto sh, fields (sh_prop sh) (obj_prop ob)).

(** The object at [o] with its shape. *)
Definition owns (σ : ShapeHeap) (o : Z) (ob : JSObject) (sh : JSShape) : Prop :=
  sobjects σ !! o = Some ob /\ shapes σ !! obj_shape ob = Some sh.

Lemma owns_view σ o ob sh : owns σ o ob sh -> obj_view σ o = Some (sh_proto sh, fields (sh_prop sh) (obj_prop ob)).
Proof. intros [Ho Hs]. unfold obj_view. rewrite Ho. cbn [mbind option_bind]. by rewrite Hs. Qed.

Lemma view_owns σ o proto fs : obj_view σ o = Some (proto, fs) -> exists ob sh, owns σ o ob sh /\
  proto = sh_proto sh /\ fs = fields (sh_prop sh) (obj_prop ob).
Proof.
  unfold obj_view, owns. destruct (sobjects σ !! o) as [ob|]; [|done]. cbn [mbind option_bind].
  destruct (shapes σ !! obj_shape ob) as [sh|] eqn:E; [|done]. cbn [mbind option_bind]. intros H. exists ob, sh.
  split; [done|]. injection H. done.
Qed.

Definition others (o : Z) (σ σ' : ShapeHeap) : Prop := forall o', o' <> o -> obj_view σ' o' = obj_view σ o'.

(** ** Frames *)

Record frame (o : Z) (X : list Z) (σ σ' : ShapeHeap) : Prop := {
  fr_object o' : o' <> o -> sobjects σ' !! o' = sobjects σ !! o';
  fr_shape q sh : ~ (q ∈ X) -> shapes σ !! q = Some sh -> exists n, shapes σ' !! q = Some (set_sh_next n sh);
  fr_none q : ~ (q ∈ X) -> shapes σ !! q = None -> shapes σ' !! q = None
}.

Lemma set_next_same sh : set_sh_next (sh_next sh) sh = sh.
Proof. by destruct sh. Qed.

Lemma frame_refl o X σ : frame o X σ σ.
Proof. split; [done| |done]. intros q sh _ H. exists (sh_next sh). by rewrite set_next_same. Qed.

Lemma frame_trans o X σ1 σ2 σ3 : frame o X σ1 σ2 -> frame o X σ2 σ3 -> frame o X σ1 σ3.
Proof.
  intros [A1 A2 A3] [B1 B2 B3]. split.
  - intros o' H. by rewrite B1, A1.
  - intros q sh Hq H. destruct (A2 q sh Hq H) as [n Hn]. destruct (B2 q _ Hq Hn) as [m Hm]. by exists m.
  - intros q Hq H. by apply B3, A3.
Qed.

Lemma frame_weaken o X Y σ σ' : (forall q, q ∈ X -> q ∈ Y) -> frame o X σ σ' -> frame o Y σ σ'.
Proof.
  intros H [A1 A2 A3]. split; [done| |].
  - intros q sh Hq. apply A2. intros Hx. by apply Hq, H.
  - intros q Hq. apply A3. intros Hx. by apply Hq, H.
Qed.

Lemma relinked_frame o X σ σ' : relinked σ σ' -> frame o X σ σ'.
Proof.
  intros (Ho & _ & H). split.
  - intros o' _. by rewrite Ho.
  - intros q sh _ Hq. specialize (H q). by rewrite Hq in H.
  - intros q _ Hq. specialize (H q). by rewrite Hq in H.
Qed.

Lemma frame_put_shape o X p sh cs σ : p ∈ X -> frame o X σ (record cs (put_shape p sh σ)).
Proof.
  intros Hp. split; [done| |].
  - intros q s Hq H. cbn. rewrite lookup_insert_ne by congruence. exists (sh_next s). by rewrite set_next_same.
  - intros q Hq H. cbn. by rewrite lookup_insert_ne by congruence.
Qed.

Lemma frame_put_object o X ob σ : frame o X σ (put_object o ob σ).
Proof.
  split; [|intros q s _ H; exists (sh_next s); by rewrite set_next_same|done].
  intros o' H. cbn. by rewrite lookup_insert_ne.
Qed.

Lemma frame_record o X cs σ : frame o X σ (record cs σ).
Proof. split; [done| |done]. intros q s _ H. exists (sh_next s). by rewrite set_next_same. Qed.

Lemma frame_delete_shape o X p cs σ : p ∈ X -> frame o X σ (set_shapes (delete p (shapes σ)) (record cs σ)).
Proof.
  intros Hp. split; [done| |].
  - intros q s Hq H. cbn. rewrite lookup_delete_ne by congruence. exists (sh_next s). by rewrite set_next_same.
  - intros q Hq H. cbn. by rewrite lookup_delete_ne by congruence.
Qed.

Lemma frame_view o X σ σ' o' ob' : frame o X σ σ' -> o' <> o -> sobjects σ !! o' = Some ob' -> ~ (obj_shape ob' ∈ X) ->
  obj_view σ' o' = obj_view σ o'.
Proof.
  intros [A1 A2 A3] Hne Ho Hx. unfold obj_view. rewrite A1 by done. rewrite Ho. cbn [mbind option_bind].
  destruct (shapes σ !! obj_shape ob') as [sh|] eqn:E; [|by rewrite A3]. destruct (A2 _ _ Hx E) as [n ->]. done.
Qed.

(** No other object uses a shape of the list. *)
Lemma frame_others o X σ σ' : frame o X σ σ' ->
  (forall o' ob', o' <> o -> sobjects σ !! o' = Some ob' -> ~ (obj_shape ob' ∈ X)) -> others o σ σ'.
Proof.
  intros Hf HX o' Hne. destruct (sobjects σ !! o') as [ob'|] eqn:E; [eapply frame_view; eauto|].
  unfold obj_view. by rewrite (fr_object _ _ _ _ Hf) by done; rewrite E.
Qed.

Lemma others_trans o σ1 σ2 σ3 : others o σ1 σ2 -> others o σ2 σ3 -> others o σ1 σ3.
Proof. intros H1 H2 o' Hne. by rewrite H2, H1. Qed.

Lemma frame_hashed o X σ σ' q : frame o X σ σ' -> ~ (q ∈ X) -> hashed σ' q <-> hashed σ q.
Proof.
  intros [_ A2 A3] Hq. unfold hashed. destruct (shapes σ !! q) as [sh|] eqn:E.
  - destruct (A2 q sh Hq E) as [n ->]. split; intros (s & [= <-] & H); by eexists.
  - rewrite A3 by done. done.
Qed.

Lemma frame_counted o X σ σ' : frame o X σ σ' -> (forall p sh, shapes σ !! p = Some sh -> counted sh) ->
  (forall p sh, p ∈ X -> shapes σ' !! p = Some sh -> counted sh) -> forall p sh, shapes σ' !! p = Some sh -> counted sh.
Proof.
  intros [_ A2 A3] Hc HX p sh' H. destruct (decide (p ∈ X)) as [Hp|Hp]; [by eapply HX|].
  destruct (shapes σ !! p) as [sh|] eqn:E; [|rewrite A3 in H by done; done].
  destruct (A2 p sh Hp E) as [n Hn]. rewrite Hn in H. injection H as <-. by apply (Hc p sh).
Qed.

(** A new block is at an address that is not in use; a block that is resized stays where it
    is or moves to such an address. *)
Class ShapeMallocOk (M : ShapeMalloc) : Prop := {
  malloc_fresh σ n p : sh_malloc σ n = Some p -> p <> 0 /\ shapes σ !! p = None /\ sobjects σ !! p = None;
  realloc_fresh σ p n p' : sh_realloc σ p n = Some p' -> p' = p \/ p' <> 0 /\ shapes σ !! p' = None /\ sobjects σ !! p' = None
}.

(** ** The record of the calls *)

Lemma record_nil σ : record [] σ = σ.
Proof. destruct σ. unfold record. cbn. by rewrite app_nil_r. Qed.

Lemma core_calls σ σ' ext L : heap_core σ ext L -> shape_hash_bits σ' = shape_hash_bits σ -> shape_hash_size σ' = shape_hash_size σ ->
  shape_hash σ' = shape_hash σ -> shapes σ' = shapes σ -> sobjects σ' = sobjects σ ->
  (forall r, real_ref r -> sum_calls r (calls σ') = sum_calls r (calls σ)) -> heap_core σ' ext L.
Proof.
  destruct σ as [b n c h s o cs], σ' as [b' n' c' h' s' o' cs']. cbn. intros [] -> -> -> -> -> Hcs.
  split; try done. intros r Hr. cbn. rewrite Hcs by done. by apply hc_calls.
Qed.

Lemma core_record σ ext L cs : heap_core σ ext L -> (forall r, real_ref r -> sum_calls r cs = 0) -> heap_core (record cs σ) ext L.
Proof. intros Hc Hcs. eapply core_calls; [exact Hc|done..|]. intros r Hr. cbn [calls record]. rewrite sum_calls_app, Hcs by done. lia. Qed.

(** A shape takes and gives up its references. *)
Lemma sum_calls_take r sh cs : real_ref r -> sum_calls r cs = 0 ->
  sum_calls r (dup_proto (sh_proto sh) ++ map (fun pr => CallDupAtom (prop_atom pr)) (sh_prop sh) ++ cs) = shape_ref r sh.
Proof. intros Hr E. rewrite !sum_calls_app, sum_calls_proto_dup, sum_calls_dup, E by done. destruct r; cbn [shape_ref]; lia. Qed.

Lemma sum_calls_give r sh cs : real_ref r -> sum_calls r cs = 0 ->
  sum_calls r (free_proto (sh_proto sh) ++ map (fun pr => CallFreeAtom (prop_atom pr)) (sh_prop sh) ++ cs) = - shape_ref r sh.
Proof. intros Hr E. rewrite !sum_calls_app, sum_calls_proto_free, sum_calls_free, E by done. destruct r; cbn [shape_ref]; lia. Qed.

Lemma shape_ok_ref n sh : shape_ok sh -> shape_ok (set_sh_ref n sh).
Proof. by intros []. Qed.

Lemma core_put_ref σ ext ext' L p sh n : heap_core σ ext L -> shapes σ !! p = Some sh -> n = users σ p + ext' p -> 0 <= ext' p ->
  (forall q, q <> p -> ext' q = ext q) -> heap_core (put_shape p (set_sh_ref n sh) σ) ext' L.
Proof.
  intros Hc Hp Hn He Hext. rewrite <- (record_nil (put_shape _ _ _)).
  eapply put_core; [exact Hc|exact Hp|by apply shape_ok_ref, (hc_shape _ _ _ Hc p)|done| |done|done|done|].
  - intros o ob Ho <-. destruct (hc_object _ _ _ Hc o ob Ho) as (_ & s & Hs & Hz). cbn. congruence.
  - intros r _. symmetry. destruct r; apply Z.sub_diag.
Qed.

Lemma hashed_put_ref σ p sh n q : shapes σ !! p = Some sh -> hashed (put_shape p (set_sh_ref n sh) σ) q <-> hashed σ q.
Proof.
  intros Hp. unfold hashed. cbn. destruct (decide (q = p)) as [->|Hne]; [|by rewrite lookup_insert_ne].
  rewrite lookup_insert_eq, Hp. split; intros (s & [= <-] & H); by eexists.
Qed.

Section share.
Context {M : ShapeMalloc} {MO : ShapeMallocOk M}.

(** ** References *)

Lemma dup_core σ ext L p sh : heap_core σ ext L -> shapes σ !! p = Some sh ->
  js_dup_shape σ p = Some (put_shape p (set_sh_ref (sh_ref_count sh + 1) sh) σ) /\
  heap_core (put_shape p (set_sh_ref (sh_ref_count sh + 1) sh) σ) (with_ext ext p (ext p + 1)) L.
Proof.
  intros Hc Hp. unfold js_dup_shape. rewrite Hp. split; [done|]. eapply core_put_ref; [exact Hc|exact Hp|..].
  - rewrite with_ext_eq, (hc_ref _ _ _ Hc p sh Hp). lia.
  - rewrite with_ext_eq. pose proof (hc_ext _ _ _ Hc p). lia.
  - intros q Hq. by apply with_ext_ne.
Qed.

Lemma free_shared σ p sh : shapes σ !! p = Some sh -> 2 <= sh_ref_count sh ->
  js_free_shape σ p = Some (put_shape p (set_sh_ref (sh_ref_count sh - 1) sh) σ).
Proof.
  intros Hp Hr. unfold js_free_shape. rewrite Hp. cbn [mbind option_bind].
  by rewrite (proj2 (Z.leb_gt _ 0)) by lia.
Qed.

Lemma free_core σ ext L p sh : heap_core σ ext L -> shapes σ !! p = Some sh -> (L p <-> sh_is_hashed sh = true) -> 1 <= ext p ->
  exists σ', js_free_shape σ p = Some σ' /\ heap_core σ' (with_ext ext p (ext p - 1)) (fun q => L q /\ is_Some (shapes σ' !! q)) /\
    (forall o, frame o [p] σ σ') /\ sobjects σ' = sobjects σ /\
    shapes σ' !! p = if decide (sh_ref_count sh = 1) then None else Some (set_sh_ref (sh_ref_count sh - 1) sh).
Proof.
  intros Hc Hp HL He. pose proof (hc_ref _ _ _ Hc p sh Hp) as Hr. pose proof (users_nonneg σ p) as Hu.
  assert (Hc1 : heap_core (put_shape p (set_sh_ref (sh_ref_count sh - 1) sh) σ) (with_ext ext p (ext p - 1)) L).
  { eapply core_put_ref; [exact Hc|exact Hp|rewrite with_ext_eq; lia..|]. intros q Hq. by apply with_ext_ne. }
  unfold js_free_shape. rewrite Hp. cbn [mbind option_bind]. set (σ1 := put_shape _ _ _) in *.
  assert (Hp1 : shapes σ1 !! p = Some (set_sh_ref (sh_ref_count sh - 1) sh)) by (cbn; apply lookup_insert_eq).
  assert (Hf1 : forall o, frame o [p] σ σ1).
  { intros o. unfold σ1. rewrite <- (record_nil (put_shape _ _ _)). apply frame_put_shape. by left. }
  destruct (Z.leb_spec (sh_ref_count sh - 1) 0) as [Hz|Hz].
  - assert (E0 : sh_ref_count sh - 1 = 0) by lia. unfold js_free_shape0. rewrite Hp1. cbn [mbind option_bind sh_ref_count set_sh_ref].
    rewrite E0. cbn [Z.eqb]. rewrite decide_True by lia. change (sh_is_hashed (set_sh_ref 0 sh)) with (sh_is_hashed sh).
    assert (Hun : exists σ2, (if sh_is_hashed sh then js_shape_hash_unlink σ1 p else Some σ1) = Some σ2 /\
      heap_core σ2 (with_ext ext p (ext p - 1)) (fun q => L q /\ q <> p) /\ relinked σ1 σ2).
    { destruct (sh_is_hashed sh) eqn:Eh.
      - apply unlink_core; [exact Hc1|by apply HL].
      - exists σ1. split; [done|]. split.
        + eapply core_ext; [| |exact Hc1]; [done|]. intros q. split; [|tauto]. intros Hq. split; [done|].
          intros ->. by apply HL in Hq.
        + split; [done|]. split; [done|]. intros q. destruct (shapes σ1 !! q) as [s|]; [|done]. exists (sh_next s).
          by rewrite set_next_same. }
    destruct Hun as (σ2 & -> & Hc2 & Hr2). cbn [mbind option_bind]. eexists. split; [done|].
    pose proof Hr2 as (Eo & _ & Hq2). pose proof (Hq2 p) as Hp2. rewrite Hp1 in Hp2. destruct Hp2 as [n Hp2].
    split; [|split; [|split]].
    + eapply core_ext; [| |eapply (delete_core σ2)]; [done| |exact Hc2|exact Hp2|tauto| | |].
      * intros q. cbn. split; intros [HLq Hq]; (split; [done|]).
        -- rewrite lookup_delete_ne by done. destruct (hc_linked _ _ _ Hc1 q HLq) as [s Hs].
           specialize (Hq2 q). rewrite Hs in Hq2. destruct Hq2 as [m ->]. by eexists.
        -- intros ->. rewrite lookup_delete_eq in Hq. by destruct Hq.
      * unfold users. rewrite Eo. change (users σ p = 0). lia.
      * rewrite with_ext_eq. lia.
      * intros r Hrr. apply (sum_calls_give r (set_sh_ref 0 sh) [CallGcRemove p] Hrr). by destruct r.
    + intros o. eapply frame_trans; [apply Hf1|]. eapply frame_trans; [by apply relinked_frame|].
      apply frame_delete_shape. by left.
    + cbn. by rewrite Eo.
    + cbn. apply lookup_delete_eq.
  - rewrite decide_False by lia. exists σ1. split; [done|]. split; [|by split].
    eapply core_ext; [| |exact Hc1]; [done|]. intros q. split; [|tauto]. intros Hq. split; [done|]. by apply (hc_linked _ _ _ Hc1).
Qed.

(** ** Copies *)

Definition cloned (sh : JSShape) : JSShape := set_sh_hashed false (set_sh_ref 1 sh).

Lemma clone_ok σ ext L p sh : heap_core σ ext L -> shapes σ !! p = Some sh ->
  exists σ' p', js_clone_shape σ p = Some (σ', p') /\
    (p' = 0 /\ σ' = σ \/
     p' <> 0 /\ shapes σ !! p' = None /\ shapes σ' = <[p' := cloned sh]> (shapes σ) /\ sobjects σ' = sobjects σ /\
     heap_core σ' (with_ext ext p' 1) L /\ forall o, frame o [p'] σ σ').
Proof.
  intros Hc Hp. destruct (hc_shape _ _ _ Hc p sh Hp) as [_ Hok]. unfold js_clone_shape. rewrite Hp. cbn [mbind option_bind].
  destruct (sh_malloc _ _) as [p'|] eqn:Em; [|by exists σ, 0; split; [|left]].
  destruct (malloc_fresh _ _ _ Em) as (Hp0 & Hp' & _). eexists _, p'. split; [done|]. right.
  split; [done|]. split; [done|]. split; [done|]. split; [done|]. split.
  - apply (insert_core σ ext L p' (cloned sh)); try done.
    + by destruct Hok.
    + intros r Hrr. assert (E0 : sum_calls r [] = 0) by (by destruct r).
      pose proof (sum_calls_take r (cloned sh) [] Hrr E0) as E. rewrite app_nil_r in E. rewrite <- E. by destruct r.
  - intros o. apply frame_put_shape. by left.
Qed.

(** ** The shape of one object *)

(** A shape with one reference, which is the object's. *)
Definition sole (σ : ShapeHeap) (ext : Z -> Z) (o : Z) (ob : JSObject) (sh : JSShape) : Prop :=
  owns σ o ob sh /\ sh_ref_count sh = 1 /\ ext (obj_shape ob) = 0.

Lemma sole_out σ ext L o ob sh : heap_core σ ext L -> sole σ ext o ob sh ->
  forall o' ob', o' <> o -> sobjects σ !! o' = Some ob' -> obj_shape ob' <> obj_shape ob.
Proof.
  intros Hc ([Ho Hs] & Hr & He) o' ob' Hne Ho' E. apply Hne. eapply (only_user σ o ob o' ob'); try done.
  pose proof (hc_ref _ _ _ Hc _ _ Hs). lia.
Qed.

(** A shape with one reference that some object has. *)
Lemma sole_intro σ ext L o ob sh : heap_core σ ext L -> owns σ o ob sh -> sh_ref_count sh = 1 -> sole σ ext o ob sh.
Proof.
  intros Hc [Ho Hs] Hr. split; [done|]. split; [done|]. pose proof (hc_ref _ _ _ Hc _ _ Hs). pose proof (user_counted σ o ob Ho).
  pose proof (hc_ext _ _ _ Hc (obj_shape ob)). lia.
Qed.

(** The object gets other slots. *)
Lemma slots_core σ ext L o ob sh prop : heap_core σ ext L -> owns σ o ob sh -> sh_prop_size sh <= zlen prop ->
  heap_core (put_object o (mk_object (obj_shape ob) prop) σ) ext L.
Proof.
  intros Hc [Ho Hs] Hz. eapply object_core; [exact Hc|exact Ho|exact Hs|exact Hz|intros; lia|apply (hc_ext _ _ _ Hc)].
Qed.

(** The shape of the object is replaced where it is. *)
Lemma edit_core σ ext L o ob sh sh' cs : heap_core σ ext L -> sole σ ext o ob sh -> shape_ok sh' ->
  (L (obj_shape ob) -> sh_hash sh' = sh_hash sh /\ sh_next sh' = sh_next sh) -> sh_ref_count sh' = 1 ->
  sh_prop_size sh' <= zlen (obj_prop ob) -> (forall r, real_ref r -> sum_calls r cs = shape_ref r sh' - shape_ref r sh) ->
  heap_core (record cs (put_shape (obj_shape ob) sh' σ)) ext L.
Proof.
  intros Hc Hsole Hok HL Hr' Hz Hcs. pose proof (sole_out _ _ _ _ _ _ Hc Hsole) as Hout. destruct Hsole as ([Ho Hs] & Hr & He).
  eapply put_core; [exact Hc|exact Hs|done|exact HL| |pose proof (hc_ref _ _ _ Hc _ _ Hs); lia|apply (hc_ext _ _ _ Hc)|done|done].
  intros o' ob' Ho' E. destruct (decide (o' = o)) as [->|Hne]; [congruence|]. by destruct (Hout o' ob' Hne Ho').
Qed.

Lemma move_core σ ext L o ob sh p' sh' : heap_core σ ext L -> sole σ ext o ob sh -> ~ L (obj_shape ob) ->
  p' = obj_shape ob \/ p' <> 0 /\ shapes σ !! p' = None -> shape_ok sh' -> sh_ref_count sh' = 1 ->
  (forall r, real_ref r -> shape_ref r sh' = shape_ref r sh) -> sh_prop_size sh' <= zlen (obj_prop ob) ->
  exists σ', move_shape σ o (obj_shape ob) p' sh' = Some σ' /\ heap_core σ' ext L /\ owns σ' o (mk_object p' (obj_prop ob)) sh' /\
    frame o [obj_shape ob; p'] σ σ' /\ (p' <> obj_shape ob -> shapes σ' !! obj_shape ob = None).
Proof.
  intros Hc Hsole HL Hp' Hok Hr' Href Hz. pose proof Hsole as ([Ho Hs] & Hr & He). unfold move_shape. rewrite Ho. cbn [mbind option_bind].
  eexists. split; [done|]. set (p := obj_shape ob) in *. set (σ' := put_object _ _ _).
  split; [|split; [|split]].
  - destruct Hp' as [E|[Hp0 Hp']].
    + assert (Hc1 : heap_core (record [CallGcRemove p; CallGcAdd p] (put_shape p sh' σ)) ext L).
      { eapply edit_core; try done. intros r Hrr. rewrite Href by done. destruct r; cbn; lia. }
      assert (Eσ : σ' = put_object o (mk_object p (obj_prop ob)) (record [CallGcRemove p; CallGcAdd p] (put_shape p sh' σ))).
      { subst σ'. rewrite E. unfold put_object, put_shape, record, set_shapes, set_sobjects. cbn. by rewrite insert_delete_eq. }
      rewrite Eσ. apply (slots_core _ ext L o ob sh'); [done| |done]. split; [done|]. cbn. fold p. by rewrite lookup_insert_eq.
    + assert (Hne : p' <> p) by (intros E; congruence).
      set (cs1 := dup_proto (sh_proto sh') ++ map (fun pr => CallDupAtom (prop_atom pr)) (sh_prop sh') ++ []).
      set (cs2 := free_proto (sh_proto sh) ++ map (fun pr => CallFreeAtom (prop_atom pr)) (sh_prop sh) ++ []).
      assert (Hs1 : forall r, real_ref r -> sum_calls r cs1 = shape_ref r sh') by (intros r Hrr; apply sum_calls_take; [done|by destruct r]).
      assert (Hs2 : forall r, real_ref r -> sum_calls r cs2 = - shape_ref r sh) by (intros r Hrr; apply sum_calls_give; [done|by destruct r]).
      pose proof (insert_core σ ext L p' sh' cs1 Hc Hp' Hp0 Hok Hr' Hs1) as Hc1. set (σ1 := record cs1 (put_shape p' sh' σ)) in *.
      assert (Hc2 : heap_core (put_object o (mk_object p' (obj_prop ob)) σ1) (with_ext ext p 1) L).
      { eapply object_core; [exact Hc1|exact Ho|cbn; apply lookup_insert_eq|done| |].
        - intros q. fold p. destruct (decide (q = p)) as [->|Hq].
          { rewrite with_ext_eq, with_ext_ne, Z.eqb_refl, (proj2 (Z.eqb_neq p' p)), He by done. done. }
          rewrite with_ext_ne, (proj2 (Z.eqb_neq p q)) by congruence. destruct (decide (q = p')) as [->|Hq'].
          { rewrite with_ext_eq, Z.eqb_refl, (hc_ext_none _ _ _ Hc p' Hp'). done. }
          rewrite with_ext_ne, (proj2 (Z.eqb_neq p' q)) by congruence. cbn. lia.
        - rewrite with_ext_ne by done. apply (hc_ext _ _ _ Hc). }
      set (σ2 := put_object _ _ σ1) in *.
      assert (Hu : users σ2 p = 0).
      { pose proof (hc_ref _ _ _ Hc2 p sh) as E. rewrite with_ext_eq in E. cbn in E. rewrite lookup_insert_ne in E by done.
        specialize (E Hs). unfold users in *. cbn in *. lia. }
      assert (Hsh2 : shapes σ2 !! p = Some sh) by (cbn; by rewrite lookup_insert_ne).
      (* the reference that the object had is given up *)
      pose proof (core_put_ref σ2 _ ext L p sh 0 Hc2 Hsh2 ltac:(lia) ltac:(lia) ltac:(intros q Hq; by rewrite with_ext_ne)) as Hc3.
      set (σ3 := put_shape p (set_sh_ref 0 sh) σ2) in *.
      assert (Hsh3 : shapes σ3 !! p = Some (set_sh_ref 0 sh)) by (cbn; apply lookup_insert_eq).
      pose proof (delete_core σ3 ext L p _ cs2 Hc3 Hsh3 HL Hu He Hs2) as Hc4.
      eapply core_calls; [exact Hc4|done|done|done| |done|].
      * subst σ' σ3 σ2 σ1. cbn. rewrite delete_insert_eq, delete_insert_ne by done. done.
      * intros r Hrr. subst σ' σ3 σ2 σ1. cbn [calls record put_object put_shape set_shapes set_sobjects]. rewrite !sum_calls_app.
        rewrite Hs1, Hs2, Href by done. destruct r; cbn; lia.
  - split; cbn; apply lookup_insert_eq.
  - eapply frame_trans; [|apply frame_put_object]. split; [done| |].
    + intros q s Hq Hqs. cbn. rewrite !elem_of_cons in Hq. rewrite lookup_insert_ne, lookup_delete_ne by (intros ->; tauto).
      exists (sh_next s). by rewrite set_next_same.
    + intros q Hq Hqs. cbn. rewrite !elem_of_cons in Hq. by rewrite lookup_insert_ne, lookup_delete_ne by (intros ->; tauto).
  - intros Hne. subst σ'. cbn. by rewrite lookup_insert_ne, lookup_delete_eq.
Qed.
End share.
