(* ===== verification/ShapeAdd.v ===== *)
(** * Adding a property to a shape

    An object that has its shape to itself gets a larger array and hash table when there is
    no room; the shape leaves the hash table of the runtime under its old hash and is linked
    again under the new one. *)

From stdpp Require Import gmap.
From S2P Require Import Prelude CStr Chain GcHeap ShapeTable ShapeOk ShapeHeapOk ShapeStep.

(** ** Tables and fields with one more property *)

Lemma table_append prs hash mask atom flags : table_ok prs hash mask -> atom <> JS_ATOM_NULL -> zlen prs + 1 < 2 ^ 26 ->
  0 <= flags < 64 -> (forall pr, pr ∈ prs -> prop_atom pr <> atom) ->
  exists n hash', znth hash (Z.land atom mask) = Some n /\ zupd hash (Z.land atom mask) (zlen prs + 1) = Some hash' /\
    table_ok (prs ++ [prop_entry n flags atom]) hash' mask.
Proof.
  intros [Hc Hu Hf] Ha Hn Hfl Habs. destruct (append_live prs hash mask atom flags Hc Ha Hn) as (n & hash' & Hh & Hup & Hc').
  exists n, hash'. split; [done|]. split; [done|]. split; [done| |].
  - assert (Hnth : forall i pr, znth (prs ++ [prop_entry n flags atom]) i = Some pr ->
      znth prs i = Some pr \/ i = zlen prs /\ prop_atom pr = atom).
    { intros i pr Hi. destruct (Z.lt_ge_cases i (zlen prs)) as [Hlt|Hge].
      - left. destruct (Z.lt_ge_cases i 0); [unfold znth in Hi; by rewrite (proj2 (Z.ltb_lt i 0)) in Hi|].
        by rewrite znth_app_l in Hi by done.
      - right. pose proof (znth_Some_range _ _ _ Hi) as Hr. rewrite zlen_app in Hr. change (zlen [_]) with 1 in Hr.
        assert (i = zlen prs) as -> by lia. rewrite znth_snoc in Hi. split; [done|]. by injection Hi as <-. }
    intros i j pr pr' Hi Hj Hlive E. destruct (Hnth _ _ Hi) as [Hi'|[-> Ei]], (Hnth _ _ Hj) as [Hj'|[-> Ej]]; try done.
    + by eapply Hu.
    + destruct (Habs pr); [apply elem_of_znth; by exists i|congruence].
    + destruct (Habs pr'); [apply elem_of_znth; by exists j|congruence].
  - intros pr [Hin|Hin%list_elem_of_singleton]%elem_of_app; [by apply Hf|]. subst pr. cbn [prop_flags prop_entry]. by rewrite land_6.
Qed.

Lemma fields_snoc prs e prop : live_prop e -> zlen prs < zlen prop ->
  exists v, znth prop (zlen prs) = Some v /\ fields (prs ++ [e]) prop = fields prs prop ++ [(prop_key e, v)].
Proof.
  intros He Hz. destruct (drop_znth prop (zlen prs)) as (v & Hv & Hd); [pose proof (zlen_nonneg prs); lia|]. exists v. split; [done|].
  rewrite <- (take_drop (length prs) prop). unfold zlen in *. rewrite Nat2Z.id in Hd. rewrite fields_app, Hd.
  - cbn [fields]. rewrite decide_True by done. f_equal. symmetry. rewrite fields_prefix; [done|]. rewrite length_take. lia.
  - rewrite length_take. lia.
Qed.

Lemma fields_atoms prs prop pr : zlen prs <= zlen prop -> pr ∈ prs -> live_prop pr ->
  exists v, (prop_key pr, v) ∈ fields prs prop.
Proof.
  unfold zlen. revert prop. induction prs as [|p prs IH]; intros [|v prop] Hz Hin Hl; cbn [length] in Hz; try lia.
  1, 2: by apply elem_of_nil in Hin.
  cbn [fields]. apply elem_of_cons in Hin as [<-|Hin].
  - rewrite decide_True by done. exists v. by left.
  - destruct (IH prop ltac:(lia) Hin Hl) as [w Hw]. exists w. case_decide; [by right|done].
Qed.

Lemma zlen_resize n l : 0 <= n -> zlen (resize_slots n l) = n.
Proof. intros Hn. unfold resize_slots, zlen. rewrite length_app, length_take, length_replicate. lia. Qed.

Lemma live_count_app l1 l2 : live_count (l1 ++ l2) = live_count l1 + live_count l2.
Proof. unfold live_count. by rewrite list.filter_app, zlen_app. Qed.

Lemma live_count_key prs prs' : prop_key <$> prs' = prop_key <$> prs -> live_count prs' = live_count prs.
Proof.
  revert prs. induction prs' as [|pr' prs' IH]; intros [|pr prs] E; try done. rewrite !fmap_cons in E. injection E as E1 E2 E.
  unfold live_count in *. rewrite !filter_cons. assert (H : live_prop pr' <-> live_prop pr) by (unfold live_prop; by rewrite E1).
  destruct (decide (live_prop pr')), (decide (live_prop pr)); try tauto; rewrite ?zlen_cons; by rewrite (IH prs).
Qed.

Lemma zlen_key prs prs' : prop_key <$> prs' = prop_key <$> prs -> zlen prs' = zlen prs.
Proof. intros E. by rewrite <- (zlen_fmap prop_key prs'), E, zlen_fmap. Qed.

(** ** Room *)

Lemma grow_hash_size_ok n : n <= 2 ^ 27 -> forall fuel k, 0 <= k <= 30 -> 27 <= k + Z.of_nat fuel ->
  exists k', grow_hash_size fuel (2 ^ k) n = Some (2 ^ k') /\ k <= k' <= 30 /\ n <= 2 ^ k'.
Proof.
  intros Hn. induction fuel as [|fuel IH]; intros k Hk Hf; cbn [grow_hash_size];
    (destruct (Z.ltb_spec (2 ^ k) n) as [Hlt|Hge]; [|exists k; split; [done|lia]]).
  - assert (2 ^ 27 <= 2 ^ k) by (apply Z.pow_le_mono_r; lia). lia.
  - assert (Hk27 : k < 27) by (apply (Z.pow_lt_mono_r_iff 2); lia).
    assert (E : u32 (2 * 2 ^ k) = 2 ^ (k + 1)).
    { rewrite <- Z.pow_succ_r by lia. apply Z.mod_small. split; [lia|]. apply Z.pow_lt_mono_r; lia. }
    rewrite E. destruct (IH (k + 1)) as (k' & -> & H1 & H2); [lia..|]. exists k'. split; [done|lia].
Qed.

(** The shapes differ in their tables and hashes only. *)
Record alike (sh sh' : JSShape) : Prop := {
  al_ref : sh_ref_count sh' = sh_ref_count sh;
  al_hashed : sh_is_hashed sh' = sh_is_hashed sh;
  al_proto : sh_proto sh' = sh_proto sh;
  al_keys : prop_key <$> sh_prop sh' = prop_key <$> sh_prop sh
}.

Lemma alike_trans sh1 sh2 sh3 : alike sh1 sh2 -> alike sh2 sh3 -> alike sh1 sh3.
Proof. intros [] []. split; congruence. Qed.

Lemma alike_ref_of r sh sh' : alike sh sh' -> shape_ref r sh' = shape_ref r sh.
Proof. intros [_ _ Hp Hk]. destruct r; cbn; [by apply props_ref_key|by rewrite Hp]. Qed.

(** The object moved its shape from [p] to where it is now. *)
Definition moved (o p p' : Z) (σ σ' : ShapeHeap) : Prop :=
  frame o [p; p'] σ σ' /\ (p' = p \/ shapes σ !! p' = None /\ shapes σ' !! p = None).

Lemma moved_hashed o p p' σ σ' sh' : moved o p p' σ σ' -> shapes σ' !! p' = Some sh' ->
  forall q, hashed σ' q <-> sh_is_hashed sh' = true /\ q = p' \/ hashed σ q /\ q <> p.
Proof.
  intros [Hf Hp'] Hs' q. destruct (decide (q = p')) as [->|Hne].
  - split; [intros (s & Hs & H); left; split; congruence|].
    intros [[H _]|[(s & Hs & _) Hq]]; [by exists sh'|]. destruct Hp' as [->|[Hnone _]]; [done|congruence].
  - destruct (decide (q = p)) as [->|Hq].
    + split; [|tauto]. intros (s & Hs & _). destruct Hp' as [->|[_ Hnone]]; [done|congruence].
    + rewrite (frame_hashed _ _ _ _ q Hf) by (rewrite !elem_of_cons, elem_of_nil; tauto). tauto.
Qed.

Section add.
Context {M : ShapeMalloc} {MO : ShapeMallocOk M}.

(** What a resize of the object [o] with its shape [sh] gives. *)
Definition resized (σ : ShapeHeap) (ext : Z -> Z) (L : Z -> Prop) (o : Z) (ob : JSObject) (sh : JSShape)
    (res : option (ShapeHeap * Z)) : Prop :=
  exists σ' r ob' sh', res = Some (σ', r) /\ heap_core σ' ext L /\ owns σ' o ob' sh' /\
    moved o (obj_shape ob) (obj_shape ob') σ σ' /\ alike sh sh' /\
    fields (sh_prop sh') (obj_prop ob') = fields (sh_prop sh) (obj_prop ob) /\
    (r = 0 /\ zlen (sh_prop sh') < sh_prop_size sh' \/ r = -1 /\ obj_shape ob' = obj_shape ob /\ sh' = sh).

Lemma resize_shape_ok sh sh' new_size : shape_ok sh -> zlen (sh_prop sh) <= new_size <= 2 ^ 27 ->
  forall prs hash mask, sh' = set_sh_table prs hash mask new_size (sh_prop_count sh) (sh_deleted sh) sh ->
  chains_ok prs hash mask -> prop_key <$> prs = prop_key <$> sh_prop sh -> shape_ok sh' /\ alike sh sh'.
Proof.
  intros [] Hn prs hash mask -> Hc Hk. pose proof (zlen_key _ _ Hk) as Ez. split; split; cbn; try done.
  - by eapply table_rekey.
  - by rewrite Ez.
  - by rewrite Ez.
  - by rewrite Ez, (live_count_key _ _ Hk).
Qed.

Lemma resize_ok σ ext L o ob sh : heap_core σ ext L -> sole σ ext o ob sh -> ~ L (obj_shape ob) ->
  sh_prop_size sh <= zlen (sh_prop sh) -> zlen (sh_prop sh) + 1 < 2 ^ 26 ->
  resized σ ext L o ob sh (resize_properties σ o (zlen (sh_prop sh) + 1)).
Proof.
  intros Hc Hsole HL Hfull Hn. pose proof Hsole as ([Ho Hs] & Hr & He). destruct (hc_shape _ _ _ Hc _ _ Hs) as [Hp0 Hok].
  pose proof (so_size _ Hok) as Hsz. pose proof (zlen_nonneg (sh_prop sh)) as Hz0.
  destruct (hc_object _ _ _ Hc o ob Ho) as (_ & s0 & Hs0 & Hslots). rewrite Hs in Hs0. injection Hs0 as <-.
  assert (Hsame : forall σ', frame o [obj_shape ob; obj_shape ob] σ σ' -> moved o (obj_shape ob) (obj_shape ob) σ σ') by (intros σ' H; split; [done|by left]).
  assert (Hal : alike sh sh) by done.
  unfold resize_properties. rewrite Ho. cbn [mbind option_bind]. rewrite Hs. cbn [mbind option_bind].
  rewrite Z.gtb_ltb, (proj2 (Z.ltb_ge _ _)) by (unfold INT32_MAX; lia).
  set (new_size := max_int _ _). assert (Hnew : zlen (sh_prop sh) + 1 <= new_size <= 2 ^ 27).
  { unfold new_size, max_int. pose proof (Z.div_lt_upper_bound (sh_prop_size sh * 3) 2 (2 ^ 27) ltac:(lia) ltac:(lia)). destruct (_ >? _) eqn:E; lia. }
  destruct (sh_malloc σ _); [|].
  2: { exists σ, (-1), ob, sh. split; [done|]. split; [done|]. split; [done|]. split; [apply Hsame, frame_refl|]. split; [done|]. split; [done|by right]. }
  set (prop1 := resize_slots new_size (obj_prop ob)). set (ob1 := mk_object (obj_shape ob) prop1). set (σ1 := put_object o ob1 σ).
  assert (Hz1 : zlen prop1 = new_size) by (apply zlen_resize; lia).
  assert (Hf1 : fields (sh_prop sh) prop1 = fields (sh_prop sh) (obj_prop ob)) by (apply fields_resize; lia).
  assert (Hc1 : heap_core σ1 ext L) by (apply (slots_core σ ext L o ob sh); (done || lia)).
  assert (Hs1 : owns σ1 o ob1 sh) by (split; [cbn; apply lookup_insert_eq|exact Hs]).
  assert (Hsole1 : sole σ1 ext o ob1 sh) by done.
  assert (Hfr1 : forall X, frame o X σ σ1) by (intros X; apply frame_put_object).
  destruct (ch_mask _ _ _ (tab_chains _ _ _ (so_table _ Hok))) as (k & Hk & Ek).
  destruct (grow_hash_size_ok new_size ltac:(lia) 32%nat k Hk ltac:(lia)) as (k' & Eg & Hk' & _).
  rewrite Ek, Z.sub_add, Eg. cbn [mbind option_bind].
  (* the shape moves with its new table *)
  assert (Hmove : forall p' prs hash mask, p' = obj_shape ob \/ p' <> 0 /\ shapes σ1 !! p' = None -> chains_ok prs hash mask ->
    prop_key <$> prs = prop_key <$> sh_prop sh ->
    resized σ ext L o ob sh (σ2 ← move_shape σ1 o (obj_shape ob) p'
      (set_sh_table prs hash mask new_size (sh_prop_count sh) (sh_deleted sh) sh); Some (σ2, 0))).
  { intros p' prs hash mask Hp' Hch Hkey.
    destruct (resize_shape_ok sh _ new_size Hok ltac:(lia) prs hash mask eq_refl Hch Hkey) as [Hok' Hal']. set (sh' := set_sh_table _ _ _ _ _ _ _) in *.
    destruct (move_core σ1 ext L o ob1 sh p' sh' Hc1 Hsole1 HL Hp' Hok' Hr) as (σ2 & Em & Hc2 & Ho2 & Hfr2 & Hold);
      [intros r _; by apply alike_ref_of|cbn; lia|].
    change (obj_shape ob1) with (obj_shape ob) in Em, Hfr2, Hold. rewrite Em. cbn [mbind option_bind]. exists σ2, 0, (mk_object p' prop1), sh'. split; [done|]. split; [done|]. split; [done|]. split.
    { split; [eapply frame_trans; [apply Hfr1|exact Hfr2]|]. destruct (decide (p' = obj_shape ob)) as [->|Hne]; [by left|right].
      destruct Hp' as [?|[_ Hnone]]; [done|]. split; [exact Hnone|by apply Hold]. }
    split; [done|]. split; [|left; split; [done|cbn; rewrite (zlen_key _ _ Hkey); lia]].
    cbn. by rewrite (fields_key _ _ _ Hkey). }
  assert (Hfail : forall cs, (forall r, sum_calls r cs = 0) -> resized σ ext L o ob sh (Some (record cs σ1, -1))).
  { intros cs Hcs. exists (record cs σ1), (-1), ob1, sh. split; [done|]. split; [by apply core_record|]. split; [done|].
    split; [apply Hsame; eapply frame_trans; [apply Hfr1|apply frame_record]|]. split; [done|]. split; [done|by right]. }
  destruct (Z.eqb_spec (2 ^ k') (2 ^ k)) as [Ekk|Ekk]; cbn [negb].
  - destruct (sh_realloc σ1 _ _) as [p'|] eqn:Er.
    + apply Hmove; [|by rewrite <- Ek; apply tab_chains, so_table|done].
      destruct (realloc_fresh _ _ _ _ Er) as [->|(? & ? & _)]; [by left|by right].
    + apply Hfail. by intros [].
  - destruct (sh_malloc σ1 _) as [p'|] eqn:Em; [|rewrite <- (record_nil σ1); apply Hfail; by intros []].
    destruct (malloc_fresh _ _ _ Em) as (Hp'0 & Hp'n & _).
    destruct (rehash_props_ok (sh_prop sh) [] (replicate (Z.to_nat (2 ^ k')) 0) (2 ^ k' - 1)) as (prs & hash & E & Hch & Hkey);
      [apply empty_chains; lia|change (zlen []) with 0; lia|apply (tab_flags _ _ _ (so_table _ Hok))|].
    change (zlen []) with 0 in E. rewrite E. cbn [mbind option_bind]. apply Hmove; [by right|exact Hch|exact Hkey].
Qed.

(** ** The new entry *)

Lemma append_shape_ok sh n hash' atom flags small : shape_ok sh -> atom <> JS_ATOM_NULL -> 0 <= flags < 64 ->
  zlen (sh_prop sh) < sh_prop_size sh -> table_ok (sh_prop sh ++ [prop_entry n flags atom]) hash' (sh_hash_mask sh) ->
  shape_ok (set_sh_small_index small (set_sh_table (sh_prop sh ++ [prop_entry n flags atom]) hash' (sh_hash_mask sh)
    (sh_prop_size sh) (sh_prop_count sh + 1) (sh_deleted sh) sh)).
Proof.
  intros [] Ha Hf Hz Ht. split; cbn; try done.
  - rewrite zlen_app. change (zlen [_]) with 1. lia.
  - rewrite zlen_app. change (zlen [_]) with 1. lia.
  - rewrite zlen_app, live_count_app. change (zlen [_]) with 1.
    replace (live_count [prop_entry n flags atom]) with 1; [lia|]. unfold live_count. by rewrite filter_cons_True.
Qed.

Lemma append_ok σ ext L o ob sh atom flags : heap_core σ ext L -> sole σ ext o ob sh -> zlen (sh_prop sh) < sh_prop_size sh ->
  zlen (sh_prop sh) + 1 < 2 ^ 26 -> atom <> JS_ATOM_NULL -> 0 <= flags < 64 -> (forall pr, pr ∈ sh_prop sh -> prop_atom pr <> atom) ->
  exists σ' sh', append_property σ (obj_shape ob) atom flags = Some σ' /\ heap_core σ' ext L /\ owns σ' o ob sh' /\
    frame o [obj_shape ob] σ σ' /\ sh_ref_count sh' = 1 /\ sh_is_hashed sh' = sh_is_hashed sh /\ sh_proto sh' = sh_proto sh /\
    exists e, prop_key e = (atom, flags) /\ sh_prop sh' = sh_prop sh ++ [e].
Proof.
  intros Hc Hsole Hz Hn Ha Hf Habs. pose proof Hsole as ([Ho Hs] & Hr & He). destruct (hc_shape _ _ _ Hc _ _ Hs) as [Hp0 Hok].
  destruct (hc_object _ _ _ Hc o ob Ho) as (_ & s0 & Hs0 & Hslots). rewrite Hs in Hs0. injection Hs0 as <-.
  destruct (table_append _ _ _ atom flags (so_table _ Hok) Ha Hn Hf Habs) as (n & hash' & Hh & Hup & Ht).
  unfold append_property. rewrite Hs. cbn [mbind option_bind]. rewrite (so_count _ Hok), (proj2 (Z.ltb_lt _ _)) by done.
  rewrite Hh. cbn [mbind option_bind]. rewrite Hup. cbn [mbind option_bind].
  set (small := sh_small_index sh || _). pose proof (append_shape_ok sh n hash' atom flags small Hok Ha Hf Hz Ht) as Hok'.
  rewrite (so_count _ Hok) in Hok'. set (sh' := set_sh_small_index _ _) in *. eexists _, sh'. split; [done|].
  split; [|split; [|split; [|split; [done|split; [done|split; [done|]]]]]].
  - eapply edit_core; try done. intros r _. destruct r as [a|q]; cbn [shape_ref sh' sh_prop set_sh_small_index set_sh_table].
    + rewrite props_ref_app. cbn. lia.
    + cbn. lia.
  - split; [exact Ho|]. cbn. apply lookup_insert_eq.
  - apply frame_put_shape. by left.
  - exists (prop_entry n flags atom). by rewrite prop_entry_key.
Qed.

(** ** A property of an object that has its shape to itself *)

Definition added (σ : ShapeHeap) (ext : Z -> Z) (o atom flags : Z) (ob : JSObject) (sh : JSShape) (res : option (ShapeHeap * Z)) : Prop :=
  exists σ' r ob' sh', res = Some (σ', r) /\ heap_core σ' ext (hashed σ') /\ owns σ' o ob' sh' /\
    moved o (obj_shape ob) (obj_shape ob') σ σ' /\ sh_ref_count sh' = 1 /\ sh_proto sh' = sh_proto sh /\
    (r = 0 /\ (exists v, fields (sh_prop sh') (obj_prop ob') = fields (sh_prop sh) (obj_prop ob) ++ [((atom, flags), v)]) /\
       (exists prs e, sh_prop sh' = prs ++ [e] /\ prop_atom e = atom) \/
     r = -1 /\ fields (sh_prop sh') (obj_prop ob') = fields (sh_prop sh) (obj_prop ob)).

Lemma moved_trans_frame o p p' X σ1 σ2 σ3 : moved o p p' σ1 σ2 -> frame o X σ2 σ3 -> (forall q, q ∈ X -> q = p') -> moved o p p' σ1 σ3.
Proof.
  intros [Hf Hp] Hf' HX. split.
  - eapply frame_trans; [exact Hf|]. eapply frame_weaken; [|exact Hf']. intros q ->%HX. right. by left.
  - destruct Hp as [->|[H1 H2]]; [by left|]. destruct (decide (p' = p)) as [->|Hne]; [by left|right]. split; [done|].
    apply (fr_none _ _ _ _ Hf'); [|done]. intros Hq%HX. congruence.
Qed.

Lemma frame_trans_moved o p p' σ1 σ2 σ3 : relinked σ1 σ2 -> moved o p p' σ2 σ3 -> moved o p p' σ1 σ3.
Proof.
  intros Hr [Hf Hp]. split; [eapply frame_trans; [by apply relinked_frame|exact Hf]|].
  destruct Hp as [->|[H1 H2]]; [by left|right]. split; [|done]. destruct Hr as (_ & _ & H). specialize (H p').
  destruct (shapes σ1 !! p'); [|done]. destruct H as [n Hn]. congruence.
Qed.

Lemma relinked_owns σ σ' o ob sh : relinked σ σ' -> owns σ o ob sh -> exists n, owns σ' o ob (set_sh_next n sh).
Proof.
  intros (Ho & _ & H) [H1 H2]. specialize (H (obj_shape ob)). rewrite H2 in H. destruct H as [n Hn]. exists n. split; [|done]. by rewrite Ho.
Qed.

Lemma shape_hash_mix_range h v : 0 <= shape_hash_mix h v < 2 ^ 32.
Proof. apply Z.mod_pos_bound. lia. Qed.

(** The last steps: the new entry of a shape that is linked where it belongs. *)
Lemma added_append σ σ0 ext L o atom flags ob0 sh0 ob sh : heap_core σ ext L -> owns σ o ob sh -> sh_ref_count sh = 1 ->
  (forall q, L q <-> sh_is_hashed sh = true /\ q = obj_shape ob \/ hashed σ0 q /\ q <> obj_shape ob0) ->
  moved o (obj_shape ob0) (obj_shape ob) σ0 σ ->
  zlen (sh_prop sh) < sh_prop_size sh -> zlen (sh_prop sh) + 1 < 2 ^ 26 -> atom <> JS_ATOM_NULL -> 0 <= flags < 64 ->
  (forall pr, pr ∈ sh_prop sh -> prop_atom pr <> atom) -> sh_proto sh = sh_proto sh0 ->
  fields (sh_prop sh) (obj_prop ob) = fields (sh_prop sh0) (obj_prop ob0) ->
  added σ0 ext o atom flags ob0 sh0 (σ ← append_property σ (obj_shape ob) atom flags; Some (σ, 0)).
Proof.
  intros Hc How Hr HL Hmv Hz Hn Ha Hf Habs Hproto Hfl. pose proof (sole_intro _ _ _ _ _ _ Hc How Hr) as Hsole.
  destruct (hc_object _ _ _ Hc o ob (proj1 How)) as (_ & s0 & Hs0 & Hslots). rewrite (proj2 How) in Hs0. injection Hs0 as <-.
  destruct (append_ok σ ext L o ob sh atom flags) as (σ' & sh' & -> & Hc' & How' & Hfr & Hr' & Hh' & Hp' & e & Hk & Eprs); try done.
  assert (Hmv' : moved o (obj_shape ob0) (obj_shape ob) σ0 σ') by (eapply moved_trans_frame; [exact Hmv|exact Hfr|]; by intros q ?%list_elem_of_singleton).
  cbn [mbind option_bind]. exists σ', 0, ob, sh'. split; [done|]. split.
  { eapply core_ext; [| |exact Hc']; [done|]. intros q. rewrite HL. symmetry. rewrite <- Hh'.
    apply (moved_hashed _ _ _ _ _ sh' Hmv'). apply How'. }
  split; [done|]. split; [done|]. split; [done|]. split; [congruence|]. left. split; [done|].
  injection Hk as Hk1 Hk2. rewrite Eprs. split; [|by exists (sh_prop sh), e].
  destruct (fields_snoc (sh_prop sh) e (obj_prop ob)) as (v & _ & E); [unfold live_prop; congruence|lia|].
  exists v. rewrite E, Hfl. unfold prop_key. by rewrite Hk1, Hk2.
Qed.

Lemma add_shape_property_ok σ ext o ob sh atom flags : heap_core σ ext (hashed σ) -> owns σ o ob sh -> sh_ref_count sh = 1 ->
  zlen (sh_prop sh) + 1 < 2 ^ 26 -> atom <> JS_ATOM_NULL -> 0 <= flags < 64 -> (forall pr, pr ∈ sh_prop sh -> prop_atom pr <> atom) ->
  added σ ext o atom flags ob sh (add_shape_property σ o atom flags).
Proof.
  intros Hc How Hr Hn Ha Hf Habs. pose proof How as [Ho Hs]. set (p := obj_shape ob) in *.
  unfold add_shape_property. rewrite Ho. cbn [mbind option_bind]. fold p. rewrite Hs. cbn [mbind option_bind].
  set (nh := shape_hash_mix _ _).
  (* the shape leaves the hash table *)
  assert (Hun : exists σ1 sh1, (if sh_is_hashed sh then js_shape_hash_unlink σ p else Some σ) = Some σ1 /\
    heap_core σ1 ext (fun q => hashed σ q /\ q <> p) /\ relinked σ σ1 /\ owns σ1 o ob sh1 /\ exists n, sh1 = set_sh_next n sh).
  { destruct (sh_is_hashed sh) eqn:Eh.
    - destruct (unlink_core σ ext (hashed σ) p Hc) as (σ1 & E & Hc1 & Hr1); [by exists sh|].
      destruct (relinked_owns _ _ _ _ _ Hr1 How) as [n Hn1]. exists σ1, (set_sh_next n sh).
      repeat (split; [done|]). by exists n.
    - exists σ, sh. split; [done|]. split; [|split; [|split; [done|]]].
      + eapply core_ext; [| |exact Hc]; [done|]. intros q. split; [|tauto]. intros Hq. split; [done|]. intros ->.
        destruct Hq as (s & Hs' & E). congruence.
      + split; [done|]. split; [done|]. intros q. destruct (shapes σ !! q) as [s|]; [|done]. exists (sh_next s). by rewrite set_next_same.
      + exists (sh_next sh). by rewrite set_next_same. }
  destruct Hun as (σ1 & sh1 & -> & Hc1 & Hr1 & How1 & n1 & Esh1). cbn [mbind option_bind].
  assert (Hal1 : alike sh sh1) by (by subst sh1).
  (* room *)
  destruct (hc_shape _ _ _ Hc _ _ Hs) as [_ Hok]. pose proof (so_size _ Hok) as Hsz.
  assert (Hres : resized σ1 ext (fun q => hashed σ q /\ q <> p) o ob sh1
    (if sh_prop_count sh >=? sh_prop_size sh then resize_properties σ1 o (sh_prop_count sh + 1) else Some (σ1, 0))).
  { rewrite Z.geb_leb, (so_count _ Hok). destruct (Z.leb_spec (sh_prop_size sh) (zlen (sh_prop sh))) as [Hle|Hgt].
    - replace (zlen (sh_prop sh)) with (zlen (sh_prop sh1)) by (by subst sh1).
      apply resize_ok; [exact Hc1|apply (sole_intro _ _ _ _ _ _ Hc1 How1); by subst sh1|fold p; tauto|by subst sh1|by subst sh1].
    - exists σ1, 0, ob, sh1. split; [done|]. split; [done|]. split; [done|]. split; [split; [apply frame_refl|by left]|].
      split; [done|]. split; [done|]. left. split; [done|by subst sh1]. }
  destruct Hres as (σ2 & r & ob2 & sh2 & -> & Hc2 & How2 & Hmv2 & Hal2 & Hfl2 & Hr2). cbn [mbind option_bind].
  pose proof (alike_trans _ _ _ Hal1 Hal2) as Hal. pose proof (frame_trans_moved _ _ _ _ _ _ Hr1 Hmv2) as Hmv.
  assert (Efl : fields (sh_prop sh2) (obj_prop ob2) = fields (sh_prop sh) (obj_prop ob)) by (rewrite Hfl2; by subst sh1).
  pose proof How2 as [Ho2 Hs2]. set (p2 := obj_shape ob2) in *.
  assert (HL2 : ~ (hashed σ p2 /\ p2 <> p)).
  { intros [(s & Hs' & _) Hne]. destruct Hmv as [_ [?|[Hnone _]]]; [done|congruence]. }
  destruct Hr2 as [[-> Hroom]|(-> & Ep & ->)]; cbn [Z.eqb negb].
  - rewrite Ho2. cbn [mbind option_bind]. fold p2.
    set (sh3 := set_sh_hash (if sh_is_hashed sh then nh else sh_hash sh2) sh2).
    assert (Hlink : exists σ4 n4, (if sh_is_hashed sh then sh0 ← shapes σ2 !! p2; js_shape_hash_link (put_shape p2 (set_sh_hash nh sh0) σ2) p2
        else Some σ2) = Some σ4 /\ heap_core σ4 ext (fun q => sh_is_hashed sh = true /\ q = p2 \/ hashed σ q /\ q <> p) /\
        owns σ4 o ob2 (set_sh_next n4 sh3) /\ frame o [p2] σ2 σ4).
    { unfold sh3. destruct (sh_is_hashed sh) eqn:Eh.
      - rewrite Hs2. cbn [mbind option_bind]. set (σ3 := put_shape _ _ _).
        assert (Hc3 : heap_core σ3 ext (fun q => hashed σ q /\ q <> p)).
        { unfold σ3. rewrite <- (record_nil (put_shape _ _ _)). eapply edit_core; [exact Hc2| |..].
          - apply (sole_intro _ _ _ _ _ _ Hc2 How2). rewrite (al_ref _ _ Hal). exact Hr.
          - destruct (hc_shape _ _ _ Hc2 _ _ Hs2) as [_ []]. split; try done. apply shape_hash_mix_range.
          - fold p2. tauto.
          - cbn. rewrite (al_ref _ _ Hal). exact Hr.
          - destruct (hc_object _ _ _ Hc2 o ob2 Ho2) as (_ & s & Hs' & Hz). fold p2 in Hs'. rewrite Hs2 in Hs'. injection Hs' as <-. exact Hz.
          - intros ref _. symmetry. destruct ref; apply Z.sub_diag. }
        destruct (link_core σ3 ext _ p2 (set_sh_hash nh sh2) Hc3) as (σ4 & -> & Hc4 & Hr4); [cbn; apply lookup_insert_eq|done|].
        destruct (relinked_owns σ3 σ4 o ob2 (set_sh_hash nh sh2) Hr4) as [n4 How4]; [split; [exact Ho2|cbn; fold p2; apply lookup_insert_eq]|].
        exists σ4, n4. split; [done|]. split; [|split; [exact How4|]].
        + eapply core_ext; [| |exact Hc4]; [done|]. intros q. cbn. tauto.
        + eapply frame_trans; [|apply relinked_frame; exact Hr4]. unfold σ3. rewrite <- (record_nil (put_shape _ _ _)).
          apply frame_put_shape. by left.
      - exists σ2, (sh_next sh2). split; [done|]. split; [|split; [|apply frame_refl]].
        + eapply core_ext; [| |exact Hc2]; [done|]. intros q. intuition congruence.
        + destruct sh2. exact How2. }
    destruct Hlink as (σ4 & n4 & -> & Hc4 & How4 & Hfr4). cbn [mbind option_bind].
    assert (Hkey4 : prop_key <$> sh_prop (set_sh_next n4 sh3) = prop_key <$> sh_prop sh) by apply (al_keys _ _ Hal).
    eapply (added_append σ4 σ ext _ o atom flags ob sh ob2 _ Hc4 How4); try done.
    + cbn. rewrite (al_ref _ _ Hal). exact Hr.
    + intros q. cbn. rewrite (al_hashed _ _ Hal). done.
    + eapply moved_trans_frame; [exact Hmv|exact Hfr4|]. by intros q ?%list_elem_of_singleton.
    + rewrite (zlen_key _ _ Hkey4). done.
    + intros pr (i & Hpr)%elem_of_znth. destruct (key_znth _ _ _ _ Hkey4 Hpr) as (pr0 & Hpr0 & [= E _]).
      rewrite <- E. apply Habs, elem_of_znth. by exists i.
    + cbn. apply (al_proto _ _ Hal).
  - (* the shape is linked again *)
    assert (Hlink : exists σ4, (if sh_is_hashed sh then js_shape_hash_link σ2 p else Some σ2) = Some σ4 /\
      heap_core σ4 ext (fun q => sh_is_hashed sh = true /\ q = p \/ hashed σ q /\ q <> p) /\ relinked σ2 σ4).
    { destruct (sh_is_hashed sh) eqn:Eh.
      - destruct (link_core σ2 ext _ p sh1 Hc2) as (σ4 & -> & Hc4 & Hr4); [unfold p; by rewrite <- Ep|cbn; tauto|].
        exists σ4. split; [done|]. split; [|done]. eapply core_ext; [| |exact Hc4]; [done|]. intros q. cbn. tauto.
      - exists σ2. split; [done|]. split; [eapply core_ext; [| |exact Hc2]; [done|]; intros q; intuition congruence|].
        split; [done|]. split; [done|]. intros q. destruct (shapes σ2 !! q) as [s|]; [|done]. exists (sh_next s). by rewrite set_next_same. }
    destruct Hlink as (σ4 & -> & Hc4 & Hr4). cbn [mbind option_bind]. destruct (relinked_owns _ _ _ _ _ Hr4 How2) as [n4 How4].
    assert (Hmv4 : moved o p p2 σ σ4).
    { eapply (moved_trans_frame _ _ _ []); [exact Hmv|by apply relinked_frame|]. by intros q ?%elem_of_nil. }
    exists σ4, (-1), ob2, (set_sh_next n4 sh1). split; [done|]. split.
    { eapply core_ext; [| |exact Hc4]; [done|]. intros q. rewrite (moved_hashed _ _ _ _ _ _ Hmv4 (proj2 How4) q).
      rewrite Ep. by subst sh1. }
    split; [done|]. split; [done|]. split; [by subst sh1|]. split; [by subst sh1|]. right. split; [done|]. exact Efl.
Qed.
End add.
