(* ===== verification/ShapeLaws.v ===== *)
(** * Own properties of objects

    [find_own_property] and [add_property] for an object whose shape may be shared with
    others.  An object that shares its shape gets another one, which exists already or is
    copied, before its properties change, so that no other object sees the change. *)

From stdpp Require Import gmap.
From S2P Require Import Prelude CStr GcHeap Chain ShapeTable ShapeOk ShapeHeapOk ShapeStep ShapeAdd.

(** ** Views *)

Lemma put_object_view σ o ob : others o σ (put_object o ob σ).
Proof. intros o' Hne. unfold obj_view. cbn. by rewrite lookup_insert_ne. Qed.

Lemma put_ref_view σ p sh n o : shapes σ !! p = Some sh -> obj_view (put_shape p (set_sh_ref n sh) σ) o = obj_view σ o.
Proof.
  intros Hp. unfold obj_view. cbn. destruct (sobjects σ !! o) as [ob|]; [|done]. cbn [mbind option_bind].
  destruct (decide (obj_shape ob = p)) as [E|Hne]; [|by rewrite lookup_insert_ne]. by rewrite E, lookup_insert_eq, Hp.
Qed.

Lemma frame_all_view X σ σ' o ob : (forall o, frame o X σ σ') -> sobjects σ !! o = Some ob -> ~ (obj_shape ob ∈ X) ->
  obj_view σ' o = obj_view σ o.
Proof. intros Hf Ho Hx. apply (frame_view (o + 1) X _ _ o ob); [done|lia|done|done]. Qed.

(** A shape that no object has yet. *)
Lemma frame_fresh_view σ ext L σ' p : heap_core σ ext L -> shapes σ !! p = None -> (forall o, frame o [p] σ σ') ->
  forall o, obj_view σ' o = obj_view σ o.
Proof.
  intros Hc Hp Hf o. destruct (sobjects σ !! o) as [ob|] eqn:Ho.
  - eapply frame_all_view; [done..|]. intros E%list_elem_of_singleton.
    destruct (hc_object _ _ _ Hc o ob Ho) as (_ & sh & Hs & _). congruence.
  - unfold obj_view. rewrite (fr_object _ _ _ _ (Hf (o + 1)) o) by lia. by rewrite Ho.
Qed.

Lemma sole_others σ ext L o ob sh σ' p' : heap_core σ ext L -> sole σ ext o ob sh -> moved o (obj_shape ob) p' σ σ' -> others o σ σ'.
Proof.
  intros Hc Hsole [Hf Hp]. eapply frame_others; [exact Hf|]. intros o' ob' Hne Ho' Hin.
  rewrite !elem_of_cons, elem_of_nil in Hin. pose proof (sole_out _ _ _ _ _ _ Hc Hsole o' ob' Hne Ho').
  destruct (hc_object _ _ _ Hc o' ob' Ho') as (_ & s & Hs & _). destruct Hp as [->|[Hnone _]]; [tauto|].
  destruct Hin as [?|[?|?]]; [done|congruence|done].
Qed.

(** ** Lookup *)

Lemma find_own_ok σ ext L o ob sh atom : heap_core σ ext L -> owns σ o ob sh -> atom <> JS_ATOM_NULL ->
  exists r, find_own_property σ o atom = Some r /\ at_index (sh_prop sh) atom r.
Proof.
  intros Hc [Ho Hs] Ha. destruct (hc_shape _ _ _ Hc _ _ Hs) as [_ Hok].
  destruct (find_prop_spec _ _ _ atom (so_table _ Hok) Ha) as (h & r & Hh & Hr & Hat). exists r. split; [|done].
  unfold find_own_property. rewrite Ho. cbn [mbind option_bind]. rewrite Hs. cbn [mbind option_bind]. by rewrite Hh.
Qed.

Lemma find_own_at σ ext L o ob sh atom i pr : heap_core σ ext L -> owns σ o ob sh -> atom <> JS_ATOM_NULL ->
  znth (sh_prop sh) i = Some pr -> prop_atom pr = atom -> find_own_property σ o atom = Some (Some i).
Proof.
  intros Hc How Ha Hi Hpr. destruct (find_own_ok _ _ _ _ _ _ _ Hc How Ha) as (r & -> & Hr). do 2 f_equal.
  destruct (hc_shape _ _ _ Hc _ _ (proj2 How)) as [_ Hok]. destruct r as [j|].
  - destruct Hr as (pr' & Hj & E). f_equal. eapply (tab_unique _ _ _ (so_table _ Hok) j i pr' pr); congruence.
  - exfalso. apply (Hr pr); [apply elem_of_znth; by exists i|done].
Qed.

(** The entry [i] of the shape and the slot [i] of the values make a field. *)
Lemma fields_at prs prop i pr : znth prs i = Some pr -> live_prop pr -> zlen prs <= zlen prop ->
  exists v f1 f2, znth prop i = Some v /\ fields prs prop = f1 ++ (prop_key pr, v) :: f2 /\
    f1 = fields (take (Z.to_nat i) prs) (take (Z.to_nat i) prop) /\
    f2 = fields (drop (S (Z.to_nat i)) prs) (drop (S (Z.to_nat i)) prop).
Proof.
  intros Hi Hl Hz. pose proof (znth_Some_range _ _ _ Hi) as Hr. destruct (znth_is_Some prop i ltac:(lia)) as [v Hv].
  exists v, (fields (take (Z.to_nat i) prs) (take (Z.to_nat i) prop)), (fields (drop (S (Z.to_nat i)) prs) (drop (S (Z.to_nat i)) prop)).
  split; [done|]. split; [|done]. rewrite znth_lookup in Hi by lia. rewrite znth_lookup in Hv by lia.
  rewrite <- (take_drop_middle prs _ pr), <- (take_drop_middle prop _ v) at 1 by done.
  rewrite fields_app by (unfold zlen in *; rewrite !length_take; lia). cbn [fields]. by rewrite decide_True.
Qed.

Lemma fields_in prs prop k v : (k, v) ∈ fields prs prop -> exists i pr, znth prs i = Some pr /\ live_prop pr /\ prop_key pr = k /\ znth prop i = Some v.
Proof.
  revert prop. induction prs as [|pr prs IH]; intros [|w prop] Hin; cbn [fields] in Hin; try (by apply elem_of_nil in Hin).
  assert (Hrec : (k, v) ∈ fields prs prop -> exists i p, znth (pr :: prs) i = Some p /\ live_prop p /\ prop_key p = k /\ znth (w :: prop) i = Some v).
  { intros (i & p & Hi & Hp)%IH. pose proof (znth_Some_range _ _ _ Hi). exists (i + 1), p.
    rewrite !znth_lookup in * by lia. rewrite Z2Nat.inj_add, Nat.add_1_r by lia. done. }
  case_decide as Hl; [|by apply Hrec]. apply elem_of_cons in Hin as [E|Hin]; [|by apply Hrec].
  injection E as -> ->. by exists 0, pr.
Qed.

(** ** Another shape for one object *)

Section prop.
Context {M : ShapeMalloc} {MO : ShapeMallocOk M}.

Lemma free_hashed σ ext p sh : heap_core σ ext (hashed σ) -> shapes σ !! p = Some sh -> counted sh -> 1 <= ext p ->
  (sh_ref_count sh <> 1 -> sh_is_hashed sh = true) ->
  exists σ', js_free_shape σ p = Some σ' /\ heap_core σ' (with_ext ext p (ext p - 1)) (hashed σ') /\
    (forall o, frame o [p] σ σ') /\ sobjects σ' = sobjects σ /\
    (forall s, shapes σ' !! p = Some s -> counted s /\ s = set_sh_ref (sh_ref_count sh - 1) sh) /\
    forall o, obj_view σ' o = obj_view σ o.
Proof.
  intros Hc Hp [Hr1 Hr2] He Hh. destruct (free_core σ ext (hashed σ) p sh Hc Hp) as (σ' & E & Hc' & Hf & Eo & Ep); [|done|].
  { split; [intros (s & Hs & H); congruence|intros H; by exists sh]. }
  assert (Hsh : forall s, shapes σ' !! p = Some s -> counted s /\ s = set_sh_ref (sh_ref_count sh - 1) sh).
  { intros s Hs. rewrite Ep in Hs. case_decide; [done|]. injection Hs as <-. split; [|done]. split; cbn; [lia|].
    intros H'. rewrite Hh in H' by done. done. }
  exists σ'. split; [done|]. split; [|split; [done|split; [done|split; [done|]]]].
  - eapply core_ext; [| |exact Hc']; [done|]. intros q. cbn. destruct (decide (q = p)) as [->|Hne].
    + split.
      * intros [(s0 & Hs0 & H0) [s Hs]]. rewrite Hp in Hs0. injection Hs0 as <-. exists s. split; [done|]. by rewrite (proj2 (Hsh s Hs)).
      * intros (s & Hs & H). split; [|by eexists]. exists sh. split; [done|]. by rewrite (proj2 (Hsh s Hs)) in H.
    + rewrite (frame_hashed _ _ _ _ q (Hf 0)) by (by intros ?%list_elem_of_singleton). split; [tauto|]. intros H. split; [done|].
      destruct H as (s & Hs & _). destruct (fr_shape _ _ _ _ (Hf 0) q s) as [n Hn]; [by intros ?%list_elem_of_singleton|done|].
      rewrite Hn. by eexists.
  - intros o. destruct (sobjects σ !! o) as [ob|] eqn:Ho; [|unfold obj_view; by rewrite Eo, Ho].
    destruct (decide (obj_shape ob = p)) as [Epp|Hne].
    + destruct (hc_object _ _ _ Hc' o ob) as (_ & s & Hs & _); [by rewrite Eo|]. rewrite Epp in Hs.
      unfold obj_view. rewrite Eo, Ho. cbn [mbind option_bind]. rewrite Epp, Hp, Hs. cbn [mbind option_bind].
      by rewrite (proj2 (Hsh s Hs)).
    + apply (frame_all_view [p] _ _ o ob Hf Ho). by intros ?%list_elem_of_singleton.
Qed.

Lemma switch_ok σ ext L o ob sh p' sh' : heap_core σ (with_ext ext p' 1) L -> ext p' = 0 -> 0 <= ext (obj_shape ob) ->
  owns σ o ob sh -> 2 <= sh_ref_count sh -> p' <> obj_shape ob -> shapes σ !! p' = Some sh' ->
  sh_prop sh' = sh_prop sh -> sh_proto sh' = sh_proto sh -> sh_prop_size sh' = sh_prop_size sh ->
  let σ1 := put_shape (obj_shape ob) (set_sh_ref (sh_ref_count sh - 1) sh) σ in
  let σ2 := put_object o (mk_object p' (obj_prop ob)) σ1 in
  js_free_shape σ (obj_shape ob) = Some σ1 /\ heap_core σ2 ext L /\ owns σ2 o (mk_object p' (obj_prop ob)) sh' /\
  (forall q, hashed σ2 q <-> hashed σ q) /\ forall o', obj_view σ2 o' = obj_view σ o'.
Proof.
  intros Hc He0 Hep How Hr Hne Hp' Eprop Eproto Esize σ1 σ2. pose proof How as [Ho Hs]. set (p := obj_shape ob) in *.
  assert (Eσ : σ2 = put_shape p (set_sh_ref (sh_ref_count sh - 1) sh) (put_object o (mk_object p' (obj_prop ob)) σ)) by done.
  assert (How2 : owns σ2 o (mk_object p' (obj_prop ob)) sh').
  { split; cbn; [apply lookup_insert_eq|]. by rewrite lookup_insert_ne. }
  split; [by apply free_shared|]. split; [|split; [done|split; [intros q; apply (hashed_put_ref σ p sh); done|]]].
  - rewrite Eσ. eapply (core_put_ref _ (with_ext ext p (ext p + 1))); [|exact Hs| |done|].
    + eapply object_core; [exact Hc|exact Ho|exact Hp'| | |].
      * destruct (hc_object _ _ _ Hc o ob Ho) as (_ & s & Hs' & Hz). fold p in Hs'. rewrite Hs in Hs'. injection Hs' as <-. lia.
      * intros q. fold p. unfold with_ext. destruct (decide (q = p)) as [->|Hq].
        { rewrite decide_False, Z.eqb_refl, (proj2 (Z.eqb_neq p' p)) by done. cbn. lia. }
        rewrite (proj2 (Z.eqb_neq p q)) by congruence. destruct (decide (q = p')) as [->|Hq'].
        { rewrite Z.eqb_refl. cbn. lia. }
        rewrite (proj2 (Z.eqb_neq p' q)) by congruence. cbn. lia.
      * rewrite with_ext_ne by done. lia.
    + rewrite (users_put σ o ob) by done. fold p. rewrite Z.eqb_refl, (proj2 (Z.eqb_neq p' p)) by done.
      pose proof (hc_ref _ _ _ Hc p sh Hs) as E. rewrite with_ext_ne in E by done. cbn. lia.
    + intros q Hq. by rewrite with_ext_ne.
  - intros o'. destruct (decide (o' = o)) as [->|Hno].
    + rewrite (owns_view _ _ _ _ How2), (owns_view _ _ _ _ How), Eprop, Eproto. done.
    + unfold σ2. rewrite (put_object_view σ1 o _ o') by done. by apply put_ref_view.
Qed.

(** A copy of the shape for the object alone: [js_shape_prepare_update]. *)
Definition alone (sh sh' : JSShape) : Prop := exists n, sh' = set_sh_next n (set_sh_hashed false (set_sh_ref 1 sh)).

Lemma counted_next n sh : counted sh -> counted (set_sh_next n sh).
Proof. done. Qed.

Lemma prepare_ok σ ext o ob sh : heap_ok σ ext -> owns σ o ob sh ->
  exists σ' r, js_shape_prepare_update σ o = Some (σ', r) /\
    (r = -1 /\ σ' = σ \/
     r = 0 /\ heap_ok σ' ext /\ (forall o', obj_view σ' o' = obj_view σ o') /\
     exists ob' sh', owns σ' o ob' sh' /\ obj_prop ob' = obj_prop ob /\ alone sh sh').
Proof.
  intros [Hc Hcnt] How. pose proof How as [Ho Hs]. pose proof (Hcnt _ _ Hs) as [Hr1 Hr2].
  unfold js_shape_prepare_update. rewrite Ho. cbn [mbind option_bind]. rewrite Hs. cbn [mbind option_bind].
  set (p := obj_shape ob) in *. destruct (sh_is_hashed sh) eqn:Eh.
  - destruct (Z.eqb_spec (sh_ref_count sh) 1) as [Er|Er]; cbn [negb].
    + destruct (unlink_core σ ext (hashed σ) p Hc) as (σ1 & -> & Hc1 & Hrel); [by exists sh|]. cbn [mbind option_bind].
      destruct (relinked_owns _ _ _ _ _ Hrel How) as [n How1]. pose proof How1 as [Ho1 Hs1]. fold p in Hs1. rewrite Hs1. cbn [mbind option_bind].
      set (sh' := set_sh_hashed false _). set (σ' := put_shape p sh' σ1). exists σ', 0. split; [done|]. right. split; [done|].
      assert (Hok' : shape_ok sh') by (destruct (hc_shape _ _ _ Hc1 _ _ Hs1) as [_ []]; split; done).
      assert (Hc' : heap_core σ' ext (fun q => hashed σ q /\ q <> p)).
      { unfold σ'. rewrite <- (record_nil (put_shape _ _ _)). apply (edit_core σ1 ext _ o ob (set_sh_next n sh) sh' []); [exact Hc1| |done|tauto|exact Er| |].
        - apply (sole_intro _ _ _ _ _ _ Hc1 How1). exact Er.
        - destruct (hc_object _ _ _ Hc1 o ob Ho1) as (_ & s & Hs' & Hz). fold p in Hs'. rewrite Hs1 in Hs'. injection Hs' as <-. exact Hz.
        - intros r _. symmetry. destruct r; apply Z.sub_diag. }
      assert (How' : owns σ' o ob sh') by (split; [exact Ho1|cbn; apply lookup_insert_eq]).
      assert (Hf : frame o [p; p] σ σ').
      { eapply frame_trans; [by apply relinked_frame|]. unfold σ'. rewrite <- (record_nil (put_shape _ _ _)). apply frame_put_shape. by left. }
      split; [split|split].
      * eapply core_ext; [| |exact Hc']; [done|]. intros q. rewrite (moved_hashed o p p σ σ' sh') by (done || (split; [done|by left]) || apply How').
        split; [by right|]. by intros [[? _]|?].
      * eapply frame_counted; [exact Hf|exact Hcnt|]. intros q s Hq Hqs. assert (q = p) as -> by (rewrite !elem_of_cons, elem_of_nil in Hq; tauto).
        pose proof (proj2 How') as Hs'. fold p in Hs'. rewrite Hs' in Hqs. injection Hqs as <-. split; cbn; [lia|done].
      * intros o'. destruct (decide (o' = o)) as [->|Hne].
        -- by rewrite (owns_view _ _ _ _ How'), (owns_view _ _ _ _ How).
        -- apply (sole_others σ ext (hashed σ) o ob sh σ' p); [done|by apply (sole_intro _ _ _ _ _ _ Hc How)|split; [done|by left]|done].
      * exists ob, sh'. split; [done|]. split; [done|]. exists n. by rewrite <- Er; destruct sh.
    + destruct (clone_ok σ ext (hashed σ) p sh Hc Hs) as (σ1 & p' & -> & Hcl). cbn [mbind option_bind].
      destruct Hcl as [[-> ->]|(Hp0 & Hpn & Esh & Eobj & Hc1 & Hf1)].
      { exists σ, (-1). split; [done|by left]. }
      rewrite (proj2 (Z.eqb_neq p' 0)) by done. assert (Hne : p' <> p) by (intros E; congruence).
      assert (How1 : owns σ1 o ob sh) by (split; [by rewrite Eobj|]; rewrite Esh; fold p; by rewrite lookup_insert_ne).
      assert (Hp1 : shapes σ1 !! p' = Some (cloned sh)) by (rewrite Esh; apply lookup_insert_eq).
      destruct (switch_ok σ1 ext (hashed σ) o ob sh p' (cloned sh)) as (Efree & Hc2 & How2 & Hh2 & Hv2);
        [done|by apply (hc_ext_none _ _ _ Hc)|apply (hc_ext _ _ _ Hc)|done|lia|done..|].
      fold p in Efree, Hc2, How2, Hh2, Hv2. rewrite Efree. cbn [mbind option_bind]. set (σ2 := put_object _ _ _) in *. exists σ2, 0.
      split; [done|]. right. split; [done|]. split; [split|split].
      * eapply core_ext; [| |exact Hc2]; [done|]. intros q. rewrite Hh2. unfold hashed. rewrite Esh. destruct (decide (q = p')) as [->|Hq].
        -- rewrite lookup_insert_eq, Hpn. split; intros (s & Hs' & H); [done|]. injection Hs' as <-. done.
        -- by rewrite lookup_insert_ne.
      * intros q s. unfold σ2. cbn. rewrite Esh. intros [[<- <-]|[_ [[<- <-]|[_ Hq]]%lookup_insert_Some]]%lookup_insert_Some.
        -- split; cbn; [lia|congruence].
        -- done.
        -- by apply (Hcnt q).
      * intros o'. rewrite Hv2. by apply (frame_fresh_view σ ext (hashed σ) σ1 p').
      * exists (mk_object p' (obj_prop ob)), (cloned sh). split; [done|]. split; [done|]. exists (sh_next sh). by destruct sh.
  - exists σ, 0. split; [done|]. right. split; [done|]. split; [done|]. split; [done|]. exists ob, sh. split; [done|]. split; [done|].
    exists (sh_next sh). destruct sh. cbn in *. rewrite Eh. by rewrite (Hr2 eq_refl).
Qed.
End prop.

(** ** An existing shape with one more property *)

Lemma same_props_key l1 l atom flags : same_props l1 l atom flags = true ->
  exists l0 e, l1 = l0 ++ [e] /\ prop_key <$> l0 = prop_key <$> l /\ prop_key e = (atom, flags).
Proof.
  revert l. induction l1 as [|p1 l1 IH]; intros l H; [done|]. destruct l as [|p l].
  - destruct l1; [|done]. cbn [same_props] in H. apply andb_prop in H as [H1%Z.eqb_eq H2%Z.eqb_eq].
    exists [], p1. split; [done|]. split; [done|]. unfold prop_key. by rewrite H1, H2.
  - assert (H' : (prop_atom p1 =? prop_atom p) && (prop_flags p1 =? prop_flags p) && same_props l1 l atom flags = true)
      by (by destruct l1).
    apply andb_prop in H' as [[H1%Z.eqb_eq H2%Z.eqb_eq]%andb_prop H']. destruct (IH l H') as (l0 & e & -> & Hk & He).
    exists (p1 :: l0), e. split; [done|]. split; [|done]. rewrite !fmap_cons, Hk. unfold prop_key at 1 3. by rewrite H1, H2.
Qed.

Lemma find_shape_prop_spec fuel σ sh h atom flags p l : ichain (shape_link σ) p l -> (length l <= fuel)%nat ->
  exists r, find_shape_prop fuel σ sh h atom flags p = Some r /\
    (r = 0 \/ r <> 0 /\ r ∈ l /\ exists sh1, shapes σ !! r = Some sh1 /\ sh_proto sh1 = sh_proto sh /\
       same_props (sh_prop sh1) (sh_prop sh) atom flags = true).
Proof.
  revert p l. induction fuel as [|fuel IH]; intros p [|x l]; cbn [ichain length find_shape_prop]; try lia.
  1, 2: intros -> _; exists 0; split; [done|by left].
  intros (-> & Hx & n & Hn & Hl) Hf. rewrite (proj2 (Z.eqb_neq x 0)) by done. unfold shape_link in Hn.
  destruct (shapes σ !! x) as [sh1|] eqn:Hs; [|done]. injection Hn as Hn. cbn [mbind option_bind].
  destruct (_ && _) eqn:E.
  - exists x. split; [done|]. right. split; [done|]. split; [by left|]. exists sh1. split; [done|].
    apply andb_prop in E as [[[_ E]%andb_prop _]%andb_prop E']. apply Z.eqb_eq in E. done.
  - rewrite Hn. destruct (IH n l Hl ltac:(lia)) as (r & -> & Hr). exists r. split; [done|].
    destruct Hr as [->|(? & ? & ?)]; [by left|right]. split; [done|]. split; [by right|done].
Qed.

Lemma find_hashed_ok σ ext sh atom flags : heap_core σ ext (hashed σ) ->
  exists r, find_hashed_shape_prop σ sh atom flags = Some r /\
    (r = 0 \/ r <> 0 /\ exists sh1 l0 e, shapes σ !! r = Some sh1 /\ sh_is_hashed sh1 = true /\ sh_proto sh1 = sh_proto sh /\
       sh_prop sh1 = l0 ++ [e] /\ prop_key <$> l0 = prop_key <$> sh_prop sh /\ prop_key e = (atom, flags)).
Proof.
  intros Hc. unfold find_hashed_shape_prop. set (h := shape_hash_mix _ flags).
  destruct (hash_bucket σ ext (hashed σ) (set_sh_hash h sh) Hc) as [p Hp]; [apply shape_hash_mix_range|].
  change (sh_hash (set_sh_hash h sh)) with h in Hp. rewrite Hp. cbn [mbind option_bind].
  destruct (hc_chain _ _ _ Hc _ _ Hp) as (l & Hl & Hi).
  destruct (find_shape_prop_spec (size (shapes σ)) σ sh h atom flags p l Hl) as (r & -> & Hr); [by eapply chain_shapes|].
  exists r. split; [done|]. destruct Hr as [->|(Hr0 & Hin & sh1 & Hs1 & Hproto & Hsame)]; [by left|right]. split; [done|].
  apply same_props_key in Hsame as (l0 & e & E & Hk & He). exists sh1, l0, e. split; [done|]. split; [|done].
  apply Hi in Hin as [(s & Hs & H) _]. congruence.
Qed.

(** ** Objects with one more property *)

Section laws.
Context {M : ShapeMalloc} {MO : ShapeMallocOk M}.

Definition prop_added (σ : ShapeHeap) (ext : Z -> Z) (o : Z) (sh : JSShape) (ob : JSObject) (atom flags : Z)
    (res : option (ShapeHeap * option Z)) : Prop :=
  exists σ' r, res = Some (σ', r) /\ heap_ok σ' ext /\ others o σ σ' /\
    match r with
    | Some i => (exists v, obj_view σ' o = Some (sh_proto sh, fields (sh_prop sh) (obj_prop ob) ++ [((atom, flags), v)])) /\
        find_own_property σ' o atom = Some (Some i) /\
        (exists ob', sobjects σ' !! o = Some ob' /\ 0 <= i < zlen (obj_prop ob'))
    | None => obj_view σ' o = obj_view σ o
    end.

Lemma heap_slots σ ext L o ob sh : heap_core σ ext L -> owns σ o ob sh -> zlen (sh_prop sh) <= sh_prop_size sh <= zlen (obj_prop ob).
Proof.
  intros Hc [Ho Hs]. destruct (hc_object _ _ _ Hc o ob Ho) as (_ & s & Hs' & Hz). rewrite Hs in Hs'. injection Hs' as <-.
  destruct (hc_shape _ _ _ Hc _ _ Hs) as [_ Hok]. pose proof (so_size _ Hok). lia.
Qed.

(** The last entry of the shape is the new property. *)
Lemma added_slot σ ext L o ob sh prs e atom : heap_core σ ext L -> owns σ o ob sh -> sh_prop sh = prs ++ [e] -> prop_atom e = atom ->
  atom <> JS_ATOM_NULL -> find_own_property σ o atom = Some (Some (sh_prop_count sh - 1)) /\ 0 <= sh_prop_count sh - 1 < zlen (obj_prop ob).
Proof.
  intros Hc How E Ee Ha. pose proof (heap_slots _ _ _ _ _ _ Hc How) as Hz. destruct (hc_shape _ _ _ Hc _ _ (proj2 How)) as [_ Hok].
  rewrite (so_count _ Hok), E, zlen_app in *. change (zlen [e]) with 1 in *. rewrite Z.add_simpl_r.
  split; [|pose proof (zlen_nonneg prs); lia]. eapply find_own_at; [exact Hc|exact How|done| |exact Ee]. rewrite E. apply znth_snoc.
Qed.

(** The object has its shape to itself. *)
Lemma add_sole σ ext o ob sh atom flags : heap_ok σ ext -> owns σ o ob sh -> sh_ref_count sh = 1 ->
  zlen (sh_prop sh) + 1 < 2 ^ 26 -> atom <> JS_ATOM_NULL -> 0 <= flags < 64 -> (forall pr, pr ∈ sh_prop sh -> prop_atom pr <> atom) ->
  prop_added σ ext o sh ob atom flags
    ('(σ, r) ← add_shape_property σ o atom flags;
     if negb (r =? 0) then Some (σ, None)
     else
       ob ← sobjects σ !! o;
       sh ← shapes σ !! obj_shape ob;
       Some (σ, Some (sh_prop_count sh - 1))).
Proof.
  intros [Hc Hcnt] How Hr Hn Ha Hf Habs.
  destruct (add_shape_property_ok σ ext o ob sh atom flags Hc How Hr Hn Ha Hf Habs)
    as (σ' & r & ob' & sh' & -> & Hc' & How' & Hmv & Hr' & Hp' & Hres). cbn [mbind option_bind].
  assert (Hok' : heap_ok σ' ext).
  { split; [done|]. eapply frame_counted; [apply Hmv|exact Hcnt|]. intros q s Hq Hqs.
    destruct (decide (q = obj_shape ob')) as [->|Hne].
    - rewrite (proj2 How') in Hqs. injection Hqs as <-. split; lia.
    - rewrite !elem_of_cons, elem_of_nil in Hq. assert (q = obj_shape ob) as -> by tauto. destruct Hmv as [_ [E|[_ E]]]; congruence. }
  assert (Hoth : others o σ σ').
  { eapply sole_others; [exact Hc|by apply (sole_intro _ _ _ _ _ _ Hc How)|exact Hmv]. }
  destruct Hres as [(-> & [v Hv] & prs & e & Eprs & Ee)|[-> Hv]]; cbn [Z.eqb negb].
  - rewrite (proj1 How'). cbn [mbind option_bind]. rewrite (proj2 How'). cbn [mbind option_bind].
    exists σ', (Some (sh_prop_count sh' - 1)). split; [done|]. split; [done|]. split; [done|].
    destruct (added_slot σ' ext _ o ob' sh' prs e atom Hc' How' Eprs Ee Ha) as [Hfind Hi]. split; [|split; [done|exists ob'; split; [apply How'|done]]].
    exists v. by rewrite (owns_view _ _ _ _ How'), Hv, Hp'.
  - exists σ', None. split; [done|]. split; [done|]. split; [done|]. by rewrite (owns_view _ _ _ _ How'), (owns_view _ _ _ _ How), Hv, Hp'.
Qed.

(** The object joins an existing shape. *)
Lemma add_join σ ext o ob sh p1 sh1 l0 e atom flags prop : heap_ok σ ext -> owns σ o ob sh -> sh_is_hashed sh = true ->
  shapes σ !! p1 = Some sh1 -> sh_is_hashed sh1 = true -> sh_proto sh1 = sh_proto sh -> sh_prop sh1 = l0 ++ [e] ->
  prop_key <$> l0 = prop_key <$> sh_prop sh -> prop_key e = (atom, flags) -> atom <> JS_ATOM_NULL ->
  sh_prop_size sh1 <= zlen prop -> fields (sh_prop sh) prop = fields (sh_prop sh) (obj_prop ob) ->
  prop_added σ ext o sh ob atom flags
    (σ ← js_dup_shape σ p1;
     σ ← js_free_shape (put_object o (mk_object p1 prop) σ) (obj_shape ob);
     Some (σ, Some (sh_prop_count sh1 - 1))).
Proof.
  intros [Hc Hcnt] How Hh Hp1 Hh1 Hproto Eprs Hkey He Ha Hz Hfl. pose proof How as [Ho Hs]. set (p := obj_shape ob) in *.
  assert (Hne : p1 <> p).
  { intros ->. rewrite Hs in Hp1. injection Hp1 as <-. rewrite Eprs in Hkey. apply (f_equal length) in Hkey.
    rewrite !length_fmap, length_app in Hkey. cbn in Hkey. lia. }
  destruct (dup_core σ ext (hashed σ) p1 sh1 Hc Hp1) as [-> Hc1]. cbn [mbind option_bind]. set (sh1' := set_sh_ref _ sh1) in *.
  set (σ1 := put_shape p1 sh1' σ) in *. set (σ2 := put_object o (mk_object p1 prop) σ1).
  assert (Hh2 : forall q, hashed σ2 q <-> hashed σ q) by (intros q; by apply (hashed_put_ref σ p1 sh1)).
  assert (Hc2 : heap_core σ2 (with_ext ext p (ext p + 1)) (hashed σ2)).
  { eapply (core_ext _ (with_ext ext p (ext p + 1)) _ (hashed σ)); [done|intros q; by rewrite Hh2|].
    eapply object_core; [exact Hc1|exact Ho|cbn; apply lookup_insert_eq|exact Hz| |].
    - intros q. fold p. unfold with_ext. destruct (decide (q = p)) as [->|Hq].
      { rewrite decide_False, Z.eqb_refl, (proj2 (Z.eqb_neq p1 p)) by done. cbn. lia. }
      rewrite (proj2 (Z.eqb_neq p q)) by congruence. destruct (decide (q = p1)) as [->|Hq'].
      { rewrite Z.eqb_refl. cbn. lia. }
      rewrite (proj2 (Z.eqb_neq p1 q)) by congruence. cbn. lia.
    - rewrite with_ext_ne by done. apply (hc_ext _ _ _ Hc). }
  assert (Hs2 : shapes σ2 !! p = Some sh) by (cbn; by rewrite lookup_insert_ne).
  destruct (free_hashed σ2 _ p sh Hc2 Hs2) as (σ3 & -> & Hc3 & Hf3 & Eo3 & Hsh3 & Hv3); [by apply (Hcnt p)|by rewrite with_ext_eq; pose proof (hc_ext _ _ _ Hc p); lia|done|].
  cbn [mbind option_bind]. exists σ3, (Some (sh_prop_count sh1 - 1)). split; [done|].
  assert (Hc3' : heap_core σ3 ext (hashed σ3)).
  { eapply core_ext; [| |exact Hc3]; [|done]. intros q. rewrite with_ext_eq. unfold with_ext. repeat case_decide; subst; lia. }
  assert (How3 : exists n, owns σ3 o (mk_object p1 prop) (set_sh_next n sh1')).
  { destruct (fr_shape _ _ _ _ (Hf3 o) p1 sh1') as [n Hn]; [by intros ?%list_elem_of_singleton|cbn; apply lookup_insert_eq|].
    exists n. split; [rewrite Eo3; cbn; apply lookup_insert_eq|done]. }
  destruct How3 as [n3 How3]. split; [split; [done|]|split].
  - intros q s Hqs. destruct (decide (q = p)) as [->|Hqp]; [by apply Hsh3|].
    destruct (shapes σ2 !! q) as [s2|] eqn:E2; [|rewrite (fr_none _ _ _ _ (Hf3 o)) in Hqs; [done| |done]; by intros ?%list_elem_of_singleton].
    destruct (fr_shape _ _ _ _ (Hf3 o) q s2) as [n Hn]; [by intros ?%list_elem_of_singleton|done|]. rewrite Hn in Hqs. injection Hqs as <-.
    apply counted_next. cbn in E2. apply lookup_insert_Some in E2 as [[<- <-]|[_ E2]]; [|by apply (Hcnt q)].
    destruct (Hcnt _ _ Hp1). split; cbn; [lia|congruence].
  - intros o' Hno. rewrite Hv3. unfold σ2. rewrite (put_object_view σ1 o _ o') by done. by apply put_ref_view.
  - assert (Ecount : sh_prop_count (set_sh_next n3 sh1') = sh_prop_count sh1) by done.
    destruct (added_slot σ3 ext _ o _ _ l0 e atom Hc3' How3 Eprs) as [Hfind Hi]; [unfold prop_key in He; congruence|done|].
    rewrite Ecount in Hfind, Hi. split; [|split; [done|eexists; split; [apply How3|done]]].
    rewrite (owns_view _ _ _ _ How3). cbn [sh_proto sh_prop set_sh_next set_sh_ref sh1' obj_prop]. rewrite Hproto, Eprs.
    pose proof (heap_slots _ _ _ _ _ _ Hc3' How3) as Hz3. cbn [sh_prop set_sh_next set_sh_ref sh1' obj_prop] in Hz3.
    rewrite Eprs, zlen_app in Hz3. change (zlen [e]) with 1 in Hz3.
    destruct (fields_snoc l0 e prop) as (v & _ & E); [unfold live_prop, prop_key in *; congruence|lia|]. exists v.
    by rewrite E, (fields_key _ _ _ Hkey), Hfl, He.
Qed.

(** The object leaves a shared shape for a copy that is in the hash table. *)
Lemma add_clone σ ext o ob sh : heap_ok σ ext -> owns σ o ob sh -> sh_is_hashed sh = true -> sh_ref_count sh <> 1 ->
  exists σ1 p', js_clone_shape σ (obj_shape ob) = Some (σ1, p') /\
    (p' = 0 /\ σ1 = σ \/
     p' <> 0 /\ exists sh' σ2 σ3 sh3 n, shapes σ1 !! p' = Some sh' /\
       js_shape_hash_link (put_shape p' (set_sh_hashed true sh') σ1) p' = Some σ2 /\
       js_free_shape σ2 (obj_shape ob) = Some σ3 /\
       let σ4 := put_object o (mk_object p' (obj_prop ob)) σ3 in
       heap_ok σ4 ext /\ (forall o', obj_view σ4 o' = obj_view σ o') /\ owns σ4 o (mk_object p' (obj_prop ob)) sh3 /\
       sh3 = set_sh_next n (set_sh_ref 1 sh)).
Proof.
  intros [Hc Hcnt] How Hh Hr. pose proof How as [Ho Hs]. set (p := obj_shape ob) in *. pose proof (Hcnt _ _ Hs) as [Hr1 _].
  destruct (clone_ok σ ext (hashed σ) p sh Hc Hs) as (σ1 & p' & -> & Hcl). exists σ1, p'. split; [done|].
  destruct Hcl as [[-> ->]|(Hp0 & Hpn & Esh & Eobj & Hc1 & Hf1)]; [by left|right]. split; [done|].
  assert (Hne : p' <> p) by (intros E; congruence). set (sh' := set_sh_ref 1 sh). destruct (hc_shape _ _ _ Hc _ _ Hs) as [_ Hok].
  assert (Hp1 : shapes σ1 !! p' = Some (cloned sh)) by (rewrite Esh; apply lookup_insert_eq).
  assert (Eh' : set_sh_hashed true (cloned sh) = sh') by (destruct sh; cbn in Hh; by subst).
  set (σ1' := put_shape p' (set_sh_hashed true (cloned sh)) σ1).
  assert (Hnl : ~ hashed σ p') by (intros (s & Hs' & _); congruence).
  assert (Hc1' : heap_core σ1' (with_ext ext p' 1) (hashed σ)).
  { unfold σ1'. rewrite Eh', <- (record_nil (put_shape _ _ _)).
    apply (put_core σ1 (with_ext ext p' 1) _ _ p' (cloned sh)); [exact Hc1|exact Hp1|by apply shape_ok_ref|done| | |rewrite with_ext_eq; lia|done|].
    - intros o' ob' Ho' E. rewrite Eobj in Ho'. destruct (hc_object _ _ _ Hc o' ob' Ho') as (_ & s & Hs' & _). congruence.
    - exact (hc_ref _ _ _ Hc1 _ _ Hp1).
    - intros r _. symmetry. destruct r; apply Z.sub_diag. }
  destruct (link_core σ1' _ (hashed σ) p' sh' Hc1') as (σ2 & E2 & Hc2 & Hr2); [cbn; by rewrite lookup_insert_eq, Eh'|done|].
  pose proof Hr2 as (Eo2 & _ & Hq2).
  assert (Hp2 : exists n, shapes σ2 !! p' = Some (set_sh_next n sh')).
  { specialize (Hq2 p'). cbn in Hq2. by rewrite lookup_insert_eq, Eh' in Hq2. }
  destruct Hp2 as [n Hp2].
  assert (How2 : exists m, owns σ2 o ob (set_sh_next m sh)).
  { apply (relinked_owns σ1' σ2 o ob sh Hr2). split; [exact (eq_trans (f_equal (fun m => m !! o) Eobj) Ho)|].
    cbn. fold p. rewrite lookup_insert_ne, Esh, lookup_insert_ne by done. exact Hs. }
  destruct How2 as [m How2].
  destruct (switch_ok σ2 ext (fun q => q = p' \/ hashed σ q) o ob (set_sh_next m sh) p' (set_sh_next n sh')) as (Efree & Hc3 & How3 & Hh3 & Hv3);
    [exact Hc2|by apply (hc_ext_none _ _ _ Hc)|apply (hc_ext _ _ _ Hc)|done|cbn; lia|done..|].
  eexists (cloned sh), σ2, _, (set_sh_next n sh'), n. split; [done|]. split; [exact E2|]. split; [exact Efree|]. cbv zeta.
  fold p in Hc3, How3, Hh3, Hv3 |- *. set (σ4 := put_object _ _ _) in *.
  assert (Hf : forall o, frame o [p'] σ σ2).
  { intros o'. eapply frame_trans; [apply Hf1|]. eapply frame_trans; [|by apply relinked_frame]. unfold σ1'.
    rewrite <- (record_nil (put_shape _ _ _)). apply frame_put_shape. by left. }
  split; [split|split; [|split; [exact How3|done]]].
  - eapply core_ext; [| |exact Hc3]; [done|]. intros q. rewrite Hh3. destruct (decide (q = p')) as [->|Hq].
    + split; [|by left]. intros _. exists (set_sh_next n sh'). split; [done|]. exact Hh.
    + rewrite (frame_hashed _ _ _ _ q (Hf 0)) by (by intros ?%list_elem_of_singleton). tauto.
  - intros q s. unfold σ4. cbn. intros [[<- <-]|[Hqp Hqs]]%lookup_insert_Some.
    + split; cbn; [lia|congruence].
    + destruct (decide (q = p')) as [->|Hq].
      * rewrite Hp2 in Hqs. injection Hqs as <-. split; cbn; [lia|done].
      * destruct (shapes σ !! q) as [s0|] eqn:E0.
        -- destruct (fr_shape _ _ _ _ (Hf 0) q s0) as [k Hk]; [by intros ?%list_elem_of_singleton|done|].
           rewrite Hk in Hqs. injection Hqs as <-. by apply counted_next, (Hcnt q).
        -- rewrite (fr_none _ _ _ _ (Hf 0)) in Hqs; [done| |done]. by intros ?%list_elem_of_singleton.
  - intros o'. rewrite Hv3. by apply (frame_fresh_view σ ext (hashed σ) σ2 p').
Qed.

Lemma heap_ok_live σ ext o ob sh atom : heap_ok σ ext -> owns σ o ob sh -> atom <> JS_ATOM_NULL ->
  (forall k v, (k, v) ∈ fields (sh_prop sh) (obj_prop ob) -> k.1 <> atom) -> forall pr, pr ∈ sh_prop sh -> prop_atom pr <> atom.
Proof.
  intros [Hc _] How Ha Habs pr Hin E. pose proof (heap_slots _ _ _ _ _ _ Hc How) as Hz.
  destruct (fields_atoms (sh_prop sh) (obj_prop ob) pr) as [v Hv]; [lia|done|unfold live_prop; congruence|]. by apply (Habs _ _ Hv).
Qed.

Lemma add_property_ok σ ext o ob sh atom flags : heap_ok σ ext -> owns σ o ob sh ->
  atom <> JS_ATOM_NULL -> 0 <= flags < 64 -> sh_prop_count sh + 1 < 2 ^ 26 ->
  (forall k v, (k, v) ∈ fields (sh_prop sh) (obj_prop ob) -> k.1 <> atom) ->
  exists σ' r, add_property σ o atom flags = Some (σ', r) /\ heap_ok σ' ext /\ others o σ σ' /\
    match r with
    | Some i => (exists v, obj_view σ' o = Some (sh_proto sh, fields (sh_prop sh) (obj_prop ob) ++ [((atom, flags), v)])) /\
        find_own_property σ' o atom = Some (Some i) /\
        (exists ob', sobjects σ' !! o = Some ob' /\ 0 <= i < zlen (obj_prop ob'))
    | None => obj_view σ' o = obj_view σ o
    end.
Proof.
  intros Hok How Ha Hf Hn Habs'. pose proof (heap_ok_live _ _ _ _ _ _ Hok How Ha Habs') as Habs. clear Habs'.
  pose proof Hok as [Hc Hcnt]. pose proof How as [Ho Hs]. destruct (hc_shape _ _ _ Hc _ _ Hs) as [_ Hsh].
  rewrite (so_count _ Hsh) in Hn. change (prop_added σ ext o sh ob atom flags (add_property σ o atom flags)).
  unfold add_property. rewrite Ho. cbn [mbind option_bind]. rewrite Hs. cbn [mbind option_bind].
  pose proof (Hcnt _ _ Hs) as [Hr1 Hr2]. destruct (sh_is_hashed sh) eqn:Eh.
  2: { rewrite (Hr2 eq_refl), Z.eqb_refl. by apply add_sole; auto. }
  destruct (find_hashed_ok σ ext sh atom flags Hc) as (p1 & -> & Hfind). cbn [mbind option_bind].
  destruct Hfind as [->|(Hp10 & sh1 & l0 & e & Hp1 & Hh1 & Hproto & Eprs & Hkey & He)]; cbn [Z.eqb negb].
  - destruct (Z.eqb_spec (sh_ref_count sh) 1) as [Er|Er]; cbn [negb].
    + by apply add_sole.
    + destruct (add_clone σ ext o ob sh Hok How Eh Er) as (σ1 & p' & -> & Hcl). cbn [mbind option_bind].
      destruct Hcl as [[-> ->]|(Hp0 & sh' & σ2 & σ3 & sh3 & n & E1 & E2 & E3 & Hok4 & Hv4 & How4 & Esh3)].
      { exists σ, None. done. }
      rewrite (proj2 (Z.eqb_neq p' 0)) by done. rewrite E1. cbn [mbind option_bind]. rewrite E2. cbn [mbind option_bind].
      rewrite E3. cbn [mbind option_bind]. set (σ4 := put_object _ _ _) in *. rewrite (proj1 How4). cbn [mbind option_bind].
      rewrite (proj2 How4). cbn [mbind option_bind]. assert (Er3 : sh_ref_count sh3 = 1) by (by subst sh3). rewrite Er3, Z.eqb_refl.
      destruct (add_sole σ4 ext o _ sh3 atom flags Hok4 How4 Er3) as (σ' & r & E & Hok' & Hoth & Hres); [by subst sh3..|].
      exists σ', r. split; [exact E|]. split; [done|]. split; [intros o' Hne; by rewrite (Hoth o'), Hv4|].
      destruct r as [i|]; [|by rewrite Hres]. by subst sh3.
  - rewrite (proj2 (Z.eqb_neq p1 0)) by done. cbn [negb]. rewrite Hp1. cbn [mbind option_bind].
    pose proof (heap_slots _ _ _ _ _ _ Hc How) as Hz. destruct (hc_shape _ _ _ Hc _ _ Hp1) as [_ Hsh1]. pose proof (so_size _ Hsh1) as Hz1.
    assert (Hlen : zlen (sh_prop sh) + 1 = zlen (sh_prop sh1)).
    { rewrite Eprs, zlen_app, (zlen_key _ _ Hkey). done. }
    pose proof (zlen_nonneg (sh_prop sh)) as Hz0.
    destruct (Z.eqb_spec (sh_prop_size sh1) (sh_prop_size sh)) as [Esz|Esz]; cbn [negb].
    + eapply add_join; try done. lia.
    + destruct (sh_realloc σ o _); [|exists σ, None; done]. eapply add_join; try done; [rewrite zlen_resize; lia|].
      apply fields_resize; lia.
Qed.

(** C7: add_property gives a plain object one more property, after the others and with
    its slot at the index that a lookup finds, or fails and leaves its properties as
    they were; no other object sees a change although shapes are shared, and reference
    counts and the hash table of shapes stay consistent. *)
Theorem add_property_correct σ ext o ob sh atom flags : heap_ok σ ext -> owns σ o ob sh ->
  atom <> JS_ATOM_NULL -> 0 <= flags < 64 -> sh_prop_count sh + 1 < 2 ^ 26 ->
  (forall k v, (k, v) ∈ fields (sh_prop sh) (obj_prop ob) -> k.1 <> atom) ->
  exists σ' r, add_property σ o atom flags = Some (σ', r) /\ heap_ok σ' ext /\ others o σ σ' /\
    match r with
    | Some i => (exists v, obj_view σ' o = Some (sh_proto sh, fields (sh_prop sh) (obj_prop ob) ++ [((atom, flags), v)])) /\
        find_own_property σ' o atom = Some (Some i) /\
        (exists ob', sobjects σ' !! o = Some ob' /\ 0 <= i < zlen (obj_prop ob'))
    | None => obj_view σ' o = obj_view σ o
    end.
Proof. exact (add_property_ok σ ext o ob sh atom flags). Qed.

(** C24: find_own_property ends and gives the index of the slot of the only property
    with the atom, or NULL when the object has none. *)
Theorem find_own_property_correct σ ext o ob sh atom : heap_ok σ ext -> owns σ o ob sh -> atom <> JS_ATOM_NULL ->
  exists r, find_own_property σ o atom = Some r /\
    match r with
    | Some i => exists flags v, znth (obj_prop ob) i = Some v /\
        (forall k w, (k, w) ∈ fields (sh_prop sh) (obj_prop ob) /\ k.1 = atom <-> k = (atom, flags) /\ w = v)
    | None => forall k w, (k, w) ∈ fields (sh_prop sh) (obj_prop ob) -> k.1 <> atom
    end.
Proof.
  intros [Hc _] How Ha. destruct (find_own_ok _ _ _ _ _ _ _ Hc How Ha) as (r & E & Hat). exists r. split; [done|].
  pose proof (heap_slots _ _ _ _ _ _ Hc How) as Hz. destruct (hc_shape _ _ _ Hc _ _ (proj2 How)) as [_ Hok].
  destruct r as [i|].
  - destruct Hat as (pr & Hi & Epr).
    destruct (fields_at (sh_prop sh) (obj_prop ob) i pr Hi) as (v & f1 & f2 & Hv & Ef & _); [unfold live_prop; congruence|lia|].
    exists (prop_flags pr), v. split; [done|]. intros k w. split.
    + intros [(j & p & Hj & Hl & Ek & Hw)%fields_in Ek1]. unfold prop_key in Ek. subst k. cbn in Ek1.
      assert (j = i) as -> by (eapply (tab_unique _ _ _ (so_table _ Hok) j i p pr); congruence).
      split; congruence.
    + intros [-> ->]. split; [|done]. rewrite Ef. apply elem_of_app. right. unfold prop_key. rewrite Epr. by left.
  - intros k w (j & p & Hj & Hl & Ek & Hw)%fields_in Ek1. apply (Hat p); [apply elem_of_znth; by exists j|]. unfold prop_key in Ek. by subst k.
Qed.
End laws.
