(* ===== verification/ShapeUpdate.v ===== *)
(** * Deletion of properties and changes of their flags

    The entry of a deleted property leaves its chain and stays in the array as a hole; when
    there are many holes the array and the values are compacted into a new shape.
    [delete_property] and [js_update_property_flags] work on a shape that the object has to
    itself, after [js_shape_prepare_update]. *)

From stdpp Require Import gmap.
From S2P Require Import Prelude CStr GcHeap Chain ShapeTable ShapeOk ShapeHeapOk ShapeStep ShapeAdd ShapeLaws.

Implicit Types (prs : list JSShapeProperty).

(** ** Compacting a table *)

Lemma unique_NoDup prs : (forall i j pr pr', znth prs i = Some pr -> znth prs j = Some pr' -> prop_atom pr <> JS_ATOM_NULL ->
    prop_atom pr = prop_atom pr' -> i = j) -> NoDup (prop_atom <$> filter live_prop prs).
Proof.
  induction prs as [|pr prs IH]; intros Hu; [rewrite filter_nil; apply base.NoDup_nil_2|].
  assert (Hshift : forall i p, znth prs i = Some p -> znth (pr :: prs) (i + 1) = Some p).
  { intros i p Hi. pose proof (znth_Some_range _ _ _ Hi). rewrite !znth_lookup in * by lia.
    rewrite Z2Nat.inj_add, Nat.add_1_r by lia. done. }
  assert (HN : NoDup (prop_atom <$> filter live_prop prs)).
  { apply IH. intros i j p p' Hi Hj Hl E. pose proof (Hu (i + 1) (j + 1) p p' (Hshift _ _ Hi) (Hshift _ _ Hj) Hl E). lia. }
  rewrite filter_cons. case_decide as Hl; [|done]. rewrite fmap_cons. apply list.NoDup_cons. split; [|done].
  intros (p & E & [_ Hin]%list_elem_of_filter)%list_elem_of_fmap. apply elem_of_znth in Hin as [i Hi].
  pose proof (znth_Some_range _ _ _ Hi). pose proof (Hu 0 (i + 1) pr p eq_refl (Hshift _ _ Hi) Hl E). lia.
Qed.

Lemma NoDup_unique prs : NoDup (prop_atom <$> prs) -> forall i j pr pr', znth prs i = Some pr -> znth prs j = Some pr' ->
  prop_atom pr = prop_atom pr' -> i = j.
Proof.
  intros Hn i j pr pr' Hi Hj E. pose proof (znth_Some_range _ _ _ Hi). pose proof (znth_Some_range _ _ _ Hj).
  rewrite !znth_lookup in * by lia. apply Z2Nat.inj; [lia..|]. eapply (NoDup_lookup _ _ _ (prop_atom pr) Hn).
  - by rewrite list_lookup_fmap, Hi.
  - by rewrite list_lookup_fmap, Hj, E.
Qed.

Lemma filter_live_all prs : (forall pr, pr ∈ prs -> live_prop pr) -> filter live_prop prs = prs.
Proof.
  induction prs as [|pr prs IH]; intros H; [done|]. rewrite filter_cons_True by (apply H; by left). f_equal. apply IH.
  intros p Hp. apply H. by right.
Qed.

Lemma table_compact prs hash mask prs' hash' mask' : table_ok prs hash mask -> chains_ok prs' hash' mask' ->
  prop_key <$> prs' = prop_key <$> filter live_prop prs -> table_ok prs' hash' mask' /\ live_count prs' = zlen prs'.
Proof.
  intros [Hc Hu Hf] Hc' Hk.
  assert (Hback : forall pr, pr ∈ prs' -> exists p, p ∈ prs /\ live_prop p /\ prop_key p = prop_key pr).
  { intros pr (i & Hi)%elem_of_znth. destruct (key_znth _ _ _ _ Hk Hi) as (p & Hp & E).
    assert (Hin : p ∈ filter live_prop prs) by (apply elem_of_znth; by exists i). apply list_elem_of_filter in Hin as [Hl Hin]. by exists p. }
  split.
  - split; [done| |].
    + intros i j pr pr' Hi Hj _ E. eapply (NoDup_unique prs'); [|done..].
      apply (f_equal (fmap fst)) in Hk. rewrite <- !list_fmap_compose in Hk.
      change (prop_atom <$> prs' = prop_atom <$> filter live_prop prs) in Hk. rewrite Hk. by apply unique_NoDup.
    + intros pr Hin. destruct (Hback pr Hin) as (p & Hp & _ & E). unfold prop_key in E. injection E as _ <-. by apply Hf.
  - unfold live_count. rewrite filter_live_all; [done|]. intros pr Hin. destruct (Hback pr Hin) as (p & _ & Hl & E).
    unfold prop_key, live_prop in *. congruence.
Qed.

Lemma shrink_hash_size_ok n : 2 <= n -> forall fuel k, 0 <= k < Z.of_nat fuel ->
  exists k', shrink_hash_size fuel (2 ^ k) n = Some (2 ^ k') /\ 0 <= k' <= k.
Proof.
  intros Hn. induction fuel as [|fuel IH]; intros k Hk; [lia|]. cbn [shrink_hash_size]. rewrite Z.geb_leb.
  destruct (Z.leb_spec n (2 ^ k / 2)) as [Hle|Hgt]; [|exists k; split; [done|lia]].
  assert (k <> 0) by (intros ->; change (2 ^ 0 / 2) with 0 in Hle; lia).
  assert (E : 2 ^ k / 2 = 2 ^ (k - 1)). { replace k with (Z.succ (k - 1)) at 1 by lia. rewrite Z.pow_succ_r, Z.mul_comm, Z.div_mul by lia. done. }
  rewrite E. destruct (IH (k - 1)) as (k' & -> & H1); [lia|]. exists k'. split; [done|lia].
Qed.

Section delete.
Context {M : ShapeMalloc} {MO : ShapeMallocOk M}.

(** What a change of the object's own unhashed shape gives. *)
Definition compacted (σ : ShapeHeap) (ext : Z -> Z) (o : Z) (ob : JSObject) (sh : JSShape) (res : option (ShapeHeap * Z)) : Prop :=
  exists σ' r ob' sh', res = Some (σ', r) /\ heap_core σ' ext (hashed σ') /\ owns σ' o ob' sh' /\
    moved o (obj_shape ob) (obj_shape ob') σ σ' /\ sh_ref_count sh' = 1 /\ sh_proto sh' = sh_proto sh /\
    fields (sh_prop sh') (obj_prop ob') = fields (sh_prop sh) (obj_prop ob).

Lemma compact_shape_ok sh prs hash mask n : shape_ok sh -> chains_ok prs hash mask ->
  prop_key <$> prs = prop_key <$> filter live_prop (sh_prop sh) -> zlen prs <= n <= 2 ^ 27 ->
  shape_ok (set_sh_table prs hash mask n (zlen prs) 0 sh).
Proof.
  intros [] Hc Hk Hn. destruct (table_compact _ _ _ _ _ _ so_table Hc Hk) as [Ht Hl]. split; cbn; try done. lia.
Qed.

Lemma compact_ok σ ext o ob sh : heap_core σ ext (hashed σ) -> sole σ ext o ob sh -> sh_is_hashed sh = false -> 2 <= zlen (sh_prop sh) ->
  compacted σ ext o ob sh (compact_properties σ o).
Proof.
  intros Hc Hsole Hh Hbig. pose proof Hsole as (How & Hr & He). pose proof How as [Ho Hs]. set (p := obj_shape ob) in *.
  pose proof (heap_slots _ _ _ _ _ _ Hc How) as Hz. destruct (hc_shape _ _ _ Hc _ _ Hs) as [_ Hok]. pose proof (so_size _ Hok) as Hsz.
  unfold compact_properties. rewrite Ho. cbn [mbind option_bind]. fold p. rewrite Hs. cbn [mbind option_bind].
  rewrite Hh, (so_count _ Hok), (so_deleted _ Hok). cbn [negb].
  replace (zlen (sh_prop sh) - (zlen (sh_prop sh) - live_count (sh_prop sh))) with (live_count (sh_prop sh)) by lia.
  set (n := max_int _ _). assert (Hlive : 0 <= live_count (sh_prop sh) <= zlen (sh_prop sh)).
  { unfold live_count, zlen. pose proof (length_filter live_prop (sh_prop sh)). lia. }
  assert (Hn : 2 <= n /\ live_count (sh_prop sh) <= n <= sh_prop_size sh).
  { unfold n, max_int, JS_PROP_INITIAL_SIZE. destruct (2 >? live_count (sh_prop sh)) eqn:E; lia. }
  rewrite (proj2 (Z.leb_le n _)) by lia. cbn [andb].
  destruct (ch_mask _ _ _ (tab_chains _ _ _ (so_table _ Hok))) as (k & Hk & Ek). rewrite Ek, Z.sub_add.
  destruct (shrink_hash_size_ok n ltac:(lia) 32%nat k ltac:(lia)) as (k' & -> & Hk'). cbn [mbind option_bind].
  destruct (sh_malloc σ _) as [p'|] eqn:Em.
  2: { exists σ, (-1), ob, sh. split; [done|]. split; [done|]. split; [done|]. split; [split; [apply frame_refl|by left]|]. done. }
  destruct (malloc_fresh _ _ _ Em) as (Hp0 & Hpn & _).
  destruct (compact_loop_ok (sh_prop sh) 0 [] (replicate (Z.to_nat (2 ^ k')) 0) (2 ^ k' - 1) (obj_prop ob))
    as (prs & hash & prop & E & Hch & Hkey & Hlen & _ & Hfl);
    [apply empty_chains; lia|done|lia|pose proof (ch_count _ _ _ (tab_chains _ _ _ (so_table _ Hok))); lia|apply (tab_flags _ _ _ (so_table _ Hok))|].
  change (zlen []) with 0 in E. rewrite E. cbn [mbind option_bind]. rewrite !Z.add_0_l, Z.eqb_refl. cbn [app drop] in Hch, Hfl.
  assert (Ez : zlen prs = live_count (sh_prop sh)) by (unfold live_count; rewrite <- (zlen_fmap prop_key prs), Hkey; apply zlen_fmap).
  rewrite <- Ez in Hn |- *. pose proof (compact_shape_ok sh prs hash (2 ^ k' - 1) n Hok Hch Hkey ltac:(lia)) as Hok'. set (sh' := set_sh_table _ _ _ _ _ _ _) in *.
  destruct (move_core σ ext (hashed σ) o ob sh p' sh' Hc Hsole) as (σ1 & Emv & Hc1 & How1 & Hf1 & Hold); try done.
  { intros (s & Hs' & H). fold p in Hs'. congruence. }
  { by right. }
  { intros r Hrr. destruct r as [a|q]; [|done]. cbn [shape_ref]. change (sh_prop sh') with prs. by rewrite (props_ref_key a _ _ Hkey), props_ref_live by done. }
  { cbn. lia. }
  fold p in Emv, Hf1, Hold. rewrite Emv. cbn [mbind option_bind]. set (prop' := match sh_realloc σ1 o _ with Some _ => _ | None => _ end).
  assert (Hprop' : n <= zlen prop' /\ fields prs prop' = fields prs prop).
  { unfold prop'. assert (zlen prop = zlen (obj_prop ob)) by (unfold zlen; lia). destruct (sh_realloc _ _ _); [|split; [lia|done]].
    rewrite zlen_resize by lia. split; [lia|]. apply fields_resize; lia. }
  set (σ2 := put_object o (mk_object p' prop') σ1). exists σ2, 0, (mk_object p' prop'), sh'. split; [done|].
  assert (Hmv : moved o p p' σ σ2).
  { split; [eapply frame_trans; [exact Hf1|apply frame_put_object]|]. right. split; [done|]. apply Hold. fold p. congruence. }
  assert (How2 : owns σ2 o (mk_object p' prop') sh') by (split; [cbn; apply lookup_insert_eq|apply How1]).
  assert (Hc2 : heap_core σ2 ext (hashed σ)) by (apply (slots_core σ1 ext _ o (mk_object p' (obj_prop ob)) sh' prop'); [done|done|exact (proj1 Hprop')]).
  split; [|split; [done|split; [exact Hmv|split; [done|split; [done|]]]]].
  - eapply core_ext; [| |exact Hc2]; [done|]. intros q. rewrite (moved_hashed _ _ _ _ _ _ Hmv (proj2 How2) q).
    change (sh_is_hashed sh') with (sh_is_hashed sh). rewrite Hh. split; [|by intros [[? _]|[? _]]]. intros Hq. right. split; [done|]. intros ->.
    destruct Hq as (s & Hs' & H). congruence.
  - cbn [sh_prop sh' set_sh_table obj_prop]. rewrite (proj2 Hprop'). exact Hfl.
Qed.
End delete.

(** ** One entry erased *)

Lemma erase_counts prs prs' n pr : prs !! n = Some pr -> live_prop pr ->
  prop_key <$> prs' = <[n := (JS_ATOM_NULL, 0)]> (prop_key <$> prs) ->
  live_count prs' = live_count prs - 1 /\ zlen prs' = zlen prs /\
  forall a, a <> 0 -> props_ref a prs' = props_ref a prs - Z.b2z (a =? prop_atom pr).
Proof.
  intros Hpr Hl E. set (dead := mk_shape_property 0 0 JS_ATOM_NULL).
  assert (Ek : prop_key <$> prs' = prop_key <$> (take n prs ++ dead :: drop (S n) prs)).
  { rewrite E, <- insert_take_drop by (by eapply lookup_lt_Some). by rewrite list_fmap_insert. }
  pose proof (eq_sym (take_drop_middle prs n pr Hpr)) as Ep.
  rewrite (live_count_key _ _ Ek), (zlen_key _ _ Ek). split; [|split].
  - rewrite (f_equal live_count Ep), !live_count_app. unfold live_count at 2 4.
    rewrite filter_cons_False by (intros H; by apply H). rewrite filter_cons_True, zlen_cons by done. lia.
  - rewrite (f_equal zlen Ep). by rewrite !zlen_app, !zlen_cons.
  - intros a Ha. rewrite (props_ref_key a _ _ Ek), (f_equal (props_ref a) Ep), !props_ref_app. unfold props_ref. cbn [foldr].
    change (prop_atom dead) with 0. rewrite (proj2 (Z.eqb_neq a 0)) by done. cbn [Z.b2z]. lia.
Qed.

Lemma erase_shape_ok sh prs' hash' n pr : shape_ok sh -> sh_is_hashed sh = false -> sh_prop sh !! n = Some pr -> live_prop pr ->
  table_ok prs' hash' (sh_hash_mask sh) -> prop_key <$> prs' = <[n := (JS_ATOM_NULL, 0)]> (prop_key <$> sh_prop sh) ->
  shape_ok (set_sh_table prs' hash' (sh_hash_mask sh) (sh_prop_size sh) (sh_prop_count sh) (sh_deleted sh + 1) sh).
Proof.
  intros [] Hh Hpr Hl Ht Hk. destruct (erase_counts _ _ _ _ Hpr Hl Hk) as (E1 & E2 & _). split; cbn; try done.
  - by rewrite E2.
  - by rewrite E2.
  - rewrite E1, E2. lia.
  - by rewrite Hh.
Qed.

(** Only the flags of an entry change. *)
Lemma table_flags prs hash mask i pr f : table_ok prs hash mask -> znth prs i = Some pr -> 0 <= f < 64 ->
  table_ok (<[Z.to_nat i := mk_shape_property (hash_next pr) f (prop_atom pr)]> prs) hash mask.
Proof.
  intros [Hc Hu Hf] Hi Hfl. set (e := mk_shape_property _ _ _). set (prs' := <[_ := e]> prs). pose proof (znth_Some_range _ _ _ Hi) as Hr.
  assert (Hnth : forall j, znth prs' j = if decide (j = i) then Some e else znth prs j).
  { intros j. unfold prs'. case_decide as E; [subst j|].
    - rewrite znth_lookup by lia. apply list_lookup_insert_eq. unfold zlen in Hr. lia.
    - destruct (Z.lt_ge_cases j 0); [unfold znth; by rewrite (proj2 (Z.ltb_lt _ _))|]. by rewrite znth_insert_ne by lia. }
  assert (Hback : forall j p, znth prs' j = Some p -> exists p0, znth prs j = Some p0 /\ prop_atom p0 = prop_atom p /\ hash_next p0 = hash_next p).
  { intros j p Hj. rewrite Hnth in Hj. case_decide as E; [|by exists p]. subst j. injection Hj as <-. by exists pr. }
  assert (Hnext : forall x, prop_next prs' x = prop_next prs x).
  { intros x. unfold prop_next. rewrite Hnth. case_decide as E; [|done]. by rewrite E, Hi. }
  assert (Hlive : forall j x, live_at prs' mask j x <-> live_at prs mask j x).
  { intros j x. unfold live_at. rewrite Hnth. case_decide as E; [|done]. rewrite E, Hi.
    split; intros (p & [= <-] & H); eexists; (split; [reflexivity|exact H]). }
  split; [split|..].
  - apply (ch_mask _ _ _ Hc).
  - apply (ch_len _ _ _ Hc).
  - unfold prs', zlen. rewrite length_insert. apply (ch_count _ _ _ Hc).
  - intros j h Hh. destruct (ch_chain _ _ _ Hc j h Hh) as (l & Hl & Hin). exists l. split.
    + eapply ichain_frame; [|exact Hl]. done.
    + intros x. by rewrite Hlive.
  - intros j j' p p' Hj Hj' Hl E. destruct (Hback _ _ Hj) as (q & Hq & E1 & _). destruct (Hback _ _ Hj') as (q' & Hq' & E2 & _).
    eapply (Hu j j' q q'); congruence.
  - intros p (j & Hj)%elem_of_znth. rewrite Hnth in Hj. case_decide as E; [injection Hj as <-; exact Hfl|]. apply Hf, elem_of_znth. by exists j.
Qed.

(** ** An element that occurs once *)

Lemma split_unique {A} (P : A -> Prop) (l1 l2 m1 m2 : list A) (x y : A) : l1 ++ x :: l2 = m1 ++ y :: m2 -> P x -> P y ->
  (forall z, z ∈ l1 -> ~ P z) -> (forall z, z ∈ m1 -> ~ P z) -> l1 = m1 /\ l2 = m2.
Proof.
  revert m1. induction l1 as [|a l1 IH]; intros [|b m1] E Hx Hy Hl Hm; cbn [app] in E; injection E as E1 E2.
  - done.
  - subst b. by destruct (Hm x ltac:(by left)).
  - subst a. by destruct (Hl y ltac:(by left)).
  - destruct (IH m1 E2 Hx Hy) as [-> ->]; [intros z Hz; apply Hl; by right|intros z Hz; apply Hm; by right|]. by subst b.
Qed.

Lemma fields_NoDup sh prop : shape_ok sh -> NoDup (fst <$> (fst <$> fields (sh_prop sh) prop)).
Proof.
  intros Hok. pose proof (unique_NoDup (sh_prop sh) (tab_unique _ _ _ (so_table _ Hok))) as Hn. clear -Hn. revert prop.
    induction (sh_prop sh) as [|pr prs IH]; intros [|u prop]; cbn [fields]; try apply base.NoDup_nil_2.
    rewrite filter_cons in Hn. case_decide as Hl; [|by apply IH]. rewrite fmap_cons in Hn. apply list.NoDup_cons in Hn as [Hin Hn].
    rewrite !fmap_cons. apply list.NoDup_cons. split; [|by apply IH]. intros Hin'. apply Hin.
    apply list_elem_of_fmap in Hin' as (y & Ey & (z & Ez & Hz)%list_elem_of_fmap). subst y. destruct z as [y u'].
    apply fields_in in Hz as (i & p & Hp & Hlp & Ep & _). apply list_elem_of_fmap. exists p. split.
    - cbn in Ey. rewrite Ey. by rewrite <- Ep.
    - apply list_elem_of_filter. split; [done|]. apply elem_of_znth. by exists i.
Qed.

Lemma unique_fields sh prop f1 f2 atom flags v : shape_ok sh -> atom <> JS_ATOM_NULL ->
  fields (sh_prop sh) prop = f1 ++ ((atom, flags), v) :: f2 ->
  forall k w, ((k, w) ∈ f1 -> k.1 <> atom) /\ ((k, w) ∈ f2 -> k.1 <> atom).
Proof.
  intros Hok Ha E k w.
  pose proof (fields_NoDup sh prop Hok) as Hn.
  rewrite E, !fmap_app, !fmap_cons in Hn. cbn [fst] in Hn. apply list.NoDup_app in Hn as (_ & Hd & [Hx _]%list.NoDup_cons).
  assert (Hin : forall l : list (Z * Z * option JSProperty), (k, w) ∈ l -> k.1 ∈ fst <$> (fst <$> l)).
  { intros l H. apply list_elem_of_fmap. exists k. split; [done|]. apply list_elem_of_fmap. by exists (k, w). }
  split; intros H Ek; apply Hin in H; rewrite Ek in H; [|done]. apply (Hd _ H). by left.
Qed.

Section update.
Context {M : ShapeMalloc} {MO : ShapeMallocOk M}.

(** The object's own unhashed shape is replaced where it is, and its slots change. *)
Lemma own_core σ ext o ob sh sh' prop cs : heap_ok σ ext -> owns σ o ob sh -> sh_is_hashed sh = false -> shape_ok sh' ->
  sh_ref_count sh' = 1 -> sh_is_hashed sh' = false -> sh_prop_size sh' <= zlen (obj_prop ob) -> sh_prop_size sh' <= zlen prop ->
  (forall r, real_ref r -> sum_calls r cs = shape_ref r sh' - shape_ref r sh) ->
  let σ' := record cs (put_object o (mk_object (obj_shape ob) prop) (put_shape (obj_shape ob) sh' σ)) in
  heap_ok σ' ext /\ owns σ' o (mk_object (obj_shape ob) prop) sh' /\ moved o (obj_shape ob) (obj_shape ob) σ σ' /\ others o σ σ'.
Proof.
  intros [Hc Hcnt] How Hh Hok' Hr' Hh' Hz1 Hz2 Hcs σ'. pose proof How as [Ho Hs]. pose proof (proj2 (Hcnt _ _ Hs) Hh) as Hr.
  pose proof (sole_intro _ _ _ _ _ _ Hc How Hr) as Hsole.
  assert (Hc1 : heap_core (record cs (put_shape (obj_shape ob) sh' σ)) ext (hashed σ)).
  { apply (edit_core σ ext (hashed σ) o ob sh sh' cs Hc Hsole Hok'); [|done|done|exact Hcs]. intros (s & Hs' & H). congruence. }
  assert (Hc2 : heap_core σ' ext (hashed σ)).
  { apply (slots_core (record cs (put_shape (obj_shape ob) sh' σ)) ext _ o ob sh'); [done| |done]. split; [exact Ho|cbn; apply lookup_insert_eq]. }
  assert (How' : owns σ' o (mk_object (obj_shape ob) prop) sh') by (split; cbn; apply lookup_insert_eq).
  assert (Hmv : moved o (obj_shape ob) (obj_shape ob) σ σ').
  { split; [|by left]. eapply frame_trans; [apply (frame_put_shape o _ (obj_shape ob) sh' cs); by left|].
    apply (frame_put_object o _ (mk_object (obj_shape ob) prop)). }
  split; [split|split; [done|split; [done|]]].
  - eapply core_ext; [| |exact Hc2]; [done|]. intros q. rewrite (moved_hashed _ _ _ _ _ _ Hmv (proj2 How') q).
    rewrite Hh'. split; [|by intros [[? _]|[? _]]]. intros Hq. right. split; [done|]. intros ->. destruct Hq as (s & Hs' & H). congruence.
  - eapply frame_counted; [apply Hmv|exact Hcnt|]. intros q s Hq Hqs. assert (q = obj_shape ob) as -> by (rewrite !elem_of_cons, elem_of_nil in Hq; tauto).
    rewrite (proj2 How' : shapes σ' !! obj_shape ob = _) in Hqs. injection Hqs as <-. split; lia.
  - eapply sole_others; [exact Hc|exact Hsole|exact Hmv].
Qed.

Lemma delete_find_ok sh atom h : shape_ok sh -> atom <> JS_ATOM_NULL -> znth (sh_prop_hash sh) (Z.land atom (sh_hash_mask sh)) = Some h ->
  exists r, delete_find (length (sh_prop sh)) (sh_prop sh) None h atom = Some r /\
    match r with
    | None => forall pr, pr ∈ sh_prop sh -> prop_atom pr <> atom
    | Some (lpr, x) => exists l1 l2 pr, lpr = lpr_of l1 /\ znth (sh_prop sh) (x - 1) = Some pr /\ prop_atom pr = atom /\
        ichain (prop_next (sh_prop sh)) h (l1 ++ x :: l2) /\
        forall i, i ∈ l1 ++ x :: l2 <-> live_at (sh_prop sh) (sh_hash_mask sh) (Z.land atom (sh_hash_mask sh)) i
    end.
Proof.
  intros Hok Ha Hh. pose proof (so_table _ Hok) as Ht. destruct (ch_chain _ _ _ (tab_chains _ _ _ Ht) _ _ Hh) as (l & Hl & Hi).
  destruct (delete_find_spec (length (sh_prop sh)) (sh_prop sh) [] h l atom Hl) as (r & E & Hr); [by eapply chain_length; [apply Ht|..]|].
  exists r. split; [exact E|]. destruct r as [[lpr x]|].
  - destruct Hr as (l1 & l2 & pr & -> & -> & Hpr & Epr). by exists l1, l2, pr.
  - intros pr (i & Hpr)%elem_of_znth Epr. apply (Hr (i + 1) pr); [|by rewrite Z.add_simpl_r|done].
    apply Hi. exists pr. rewrite Z.add_simpl_r. by rewrite Epr.
Qed.

(** The last step of a deletion. *)
Lemma compact_heap σ ext o ob sh : heap_ok σ ext -> owns σ o ob sh -> sh_is_hashed sh = false -> 2 <= zlen (sh_prop sh) ->
  exists σ' r, compact_properties σ o = Some (σ', r) /\ heap_ok σ' ext /\ forall o', obj_view σ' o' = obj_view σ o'.
Proof.
  intros [Hc Hcnt] How Hh Hz. pose proof (proj2 (Hcnt _ _ (proj2 How)) Hh) as Hr. pose proof (sole_intro _ _ _ _ _ _ Hc How Hr) as Hsole.
  destruct (compact_ok σ ext o ob sh Hc Hsole Hh Hz) as (σ' & r & ob' & sh' & -> & Hc' & How' & Hmv & Hr' & Hp' & Hfl).
  exists σ', r. split; [done|]. split; [split; [done|]|].
  - eapply frame_counted; [apply Hmv|exact Hcnt|]. intros q s Hq Hqs. destruct (decide (q = obj_shape ob')) as [->|Hne].
    + rewrite (proj2 How') in Hqs. injection Hqs as <-. split; lia.
    + rewrite !elem_of_cons, elem_of_nil in Hq. assert (q = obj_shape ob) as -> by tauto. destruct Hmv as [_ [E|[_ E]]]; congruence.
  - intros o'. destruct (decide (o' = o)) as [->|Hne].
    + by rewrite (owns_view _ _ _ _ How'), (owns_view _ _ _ _ How), Hfl, Hp'.
    + by apply (sole_others _ _ _ _ _ _ _ _ Hc Hsole Hmv).
Qed.

Lemma delete_property_ok σ ext o ob sh atom : heap_ok σ ext -> owns σ o ob sh -> atom <> JS_ATOM_NULL ->
  (forall k w, (k, w) ∈ fields (sh_prop sh) (obj_prop ob) -> k.1 = atom -> is_Some w) ->
  exists σ' r, delete_property σ o atom = Some (σ', r) /\ heap_ok σ' ext /\ others o σ σ' /\
    ((forall k w, (k, w) ∈ fields (sh_prop sh) (obj_prop ob) -> k.1 <> atom) /\ r = 1 /\ σ' = σ \/
     exists f1 f2 flags v, fields (sh_prop sh) (obj_prop ob) = f1 ++ ((atom, flags), Some v) :: f2 /\
       (Z.land flags JS_PROP_CONFIGURABLE = 0 /\ r = 0 /\ σ' = σ \/
        Z.land flags JS_PROP_CONFIGURABLE <> 0 /\
          (r = -1 /\ σ' = σ \/ r = 1 /\ obj_view σ' o = Some (sh_proto sh, f1 ++ f2)))).
Proof.
  intros Hok How Ha Hset. pose proof Hok as [Hc Hcnt]. pose proof How as [Ho Hs]. destruct (hc_shape _ _ _ Hc _ _ Hs) as [_ Hsh].
  pose proof (heap_slots _ _ _ _ _ _ Hc How) as Hz.
  unfold delete_property. rewrite Ho. cbn [mbind option_bind]. rewrite Hs. cbn [mbind option_bind].
  destruct (bucket_in _ _ _ atom (tab_chains _ _ _ (so_table _ Hsh))) as [h Hh]. rewrite Hh. cbn [mbind option_bind].
  destruct (delete_find_ok sh atom h Hsh Ha Hh) as (r & -> & Hr). cbn [mbind option_bind]. destruct r as [[lpr x]|].
  2: { exists σ, 1. split; [done|]. split; [done|]. split; [done|]. left. split; [|done].
       intros k w (j & p & Hj & Hl & Ek & Hw)%fields_in Ek1. apply (Hr p); [apply elem_of_znth; by exists j|]. unfold prop_key in Ek. by subst k. }
  destruct Hr as (l1 & l2 & pr & -> & Hpr & Epr & Hl & Hi). rewrite Hpr. cbn [mbind option_bind].
  assert (Hlive : live_prop pr) by (unfold live_prop; congruence).
  destruct (fields_at (sh_prop sh) (obj_prop ob) _ pr Hpr Hlive ltac:(lia)) as (v & f1 & f2 & Hv & Efl & _).
  assert (Hkey : prop_key pr = (atom, prop_flags pr)) by (unfold prop_key; by rewrite Epr).
  assert (Hvs : is_Some v). { eapply (Hset (prop_key pr)); [rewrite Efl; apply elem_of_app; right; by left|by rewrite Hkey]. }
  destruct Hvs as [v0 ->]. rewrite Hkey in Efl.
  destruct (Z.eqb_spec (Z.land (prop_flags pr) JS_PROP_CONFIGURABLE) 0) as [Econf|Econf].
  { exists σ, 0. split; [done|]. split; [done|]. split; [done|]. right. exists f1, f2, (prop_flags pr), v0. split; [done|]. by left. }
  destruct (prepare_ok σ ext o ob sh Hok How) as (σ1 & r & -> & Hprep). cbn [mbind option_bind].
  destruct Hprep as [[-> ->]|(-> & Hok1 & Hv1 & ob1 & sh1 & How1 & Eprop & [n Esh1])]; cbn [Z.eqb negb].
  { exists σ, (-1). split; [done|]. split; [done|]. split; [done|]. right. exists f1, f2, (prop_flags pr), v0. split; [done|]. right. split; [done|]. by left. }
  rewrite (proj1 How1). cbn [mbind option_bind]. rewrite (proj2 How1). cbn [mbind option_bind].
  assert (Epr1 : sh_prop sh1 = sh_prop sh) by (by subst sh1). assert (Emask : sh_hash_mask sh1 = sh_hash_mask sh) by (by subst sh1).
  assert (Eph : sh_prop_hash sh1 = sh_prop_hash sh) by (by subst sh1). assert (Eh1 : sh_is_hashed sh1 = false) by (by subst sh1).
  assert (Epo : sh_proto sh1 = sh_proto sh) by (by subst sh1). assert (Er1 : sh_ref_count sh1 = 1) by (by subst sh1).
  pose proof Hok1 as [Hc1 Hcnt1]. destruct (hc_shape _ _ _ Hc1 _ _ (proj2 How1)) as [_ Hsh1].
  rewrite <- Epr1 in Hpr, Hl, Hi, Efl. rewrite <- Emask in Hi, Hh |- *. rewrite <- Eph in Hh. rewrite <- Eprop in Hv, Efl.
  rewrite Hpr. cbn [mbind option_bind].
  destruct (erase_entry_ok sh1 l1 l2 x h _ pr (so_table _ Hsh1) Hh Hl Hi Hpr) as (prs' & hash' & -> & Ht & Ek). cbn [mbind option_bind].
  rewrite Hv. cbn [mbind option_bind]. pose proof (znth_Some_range _ _ _ Hv) as Hrv. rewrite zupd_is_Some by done. cbn [mbind option_bind].
  rewrite znth_lookup in Hv by lia. rewrite znth_lookup in Hpr by lia.
  pose proof (erase_shape_ok sh1 prs' hash' _ pr Hsh1 Eh1 Hpr Hlive Ht Ek) as Hok'. set (sh' := set_sh_table _ _ _ _ _ _ _) in *.
  set (u := u_value (JS_MKPTR JS_TAG_UNDEFINED 0)). set (prop' := <[Z.to_nat (x - 1) := Some u]> (obj_prop ob1)).
  set (cs := [CallFreeProperty v0 (prop_flags pr); CallFreeAtom (prop_atom pr)]).
  pose proof (heap_slots _ _ _ _ _ _ Hc1 How1) as Hz1.
  destruct (own_core σ1 ext o ob1 sh1 sh' prop' cs Hok1 How1 Eh1 Hok' Er1 Eh1) as (Hok2 & How2 & _ & Hoth2).
  { cbn. lia. } { unfold prop', zlen. rewrite length_insert. apply Hz1. }
  { intros r Hrr. destruct (erase_counts _ _ _ _ Hpr Hlive Ek) as (_ & _ & Href). destruct r as [a|q]; [|cbn; lia].
    cbn [shape_ref]. change (sh_prop sh') with prs'. rewrite Href by done. cbn. lia. }
  set (σ2 := record cs _) in *.
  assert (Hview2 : obj_view σ2 o = Some (sh_proto sh, f1 ++ f2)).
  { rewrite (owns_view _ _ _ _ How2). change (sh_proto sh') with (sh_proto sh1). rewrite Epo. do 2 f_equal.
    destruct (fields_erase (sh_prop sh1) prs' (obj_prop ob1) _ pr (Some v0) (Some u) 0 Hpr Hlive Hv Ek) as (g1 & g2 & Eg & Eg').
    rewrite Hkey in Eg. unfold prop'. change (sh_prop sh') with prs'. cbn [obj_prop]. rewrite Eg'.
    assert (Hg : f1 = g1 /\ f2 = g2); [|by destruct Hg as [-> ->]].
    rewrite Efl in Eg. eapply (split_unique (fun kw => kw.1.1 = atom)); [exact Eg|done|done|..].
    - intros [k w] Hin Hk. cbn in Hk.
      destruct (unique_fields sh1 (obj_prop ob1) f1 f2 atom (prop_flags pr) (Some v0) Hsh1 Ha Efl k w) as [H _]. by apply (H Hin).
    - intros [k w] Hin Hk. cbn in Hk. rewrite Eg in Efl.
      destruct (unique_fields sh1 (obj_prop ob1) g1 g2 atom (prop_flags pr) (Some v0) Hsh1 Ha Efl k w) as [H _]. by apply (H Hin). }
  assert (Hfin : forall σ', heap_ok σ' ext -> (forall o', obj_view σ' o' = obj_view σ2 o') ->
    exists σ'' r, Some (σ', 1) = Some (σ'', r) /\ heap_ok σ'' ext /\ others o σ σ'' /\
    ((forall k w, (k, w) ∈ fields (sh_prop sh) (obj_prop ob) -> k.1 <> atom) /\ r = 1 /\ σ'' = σ \/
     exists f1 f2 flags v, fields (sh_prop sh) (obj_prop ob) = f1 ++ ((atom, flags), Some v) :: f2 /\
       (Z.land flags JS_PROP_CONFIGURABLE = 0 /\ r = 0 /\ σ'' = σ \/
        Z.land flags JS_PROP_CONFIGURABLE <> 0 /\
          (r = -1 /\ σ'' = σ \/ r = 1 /\ obj_view σ'' o = Some (sh_proto sh, f1 ++ f2))))).
  { intros σ' Hok'' Hv'. exists σ', 1. split; [done|]. split; [done|]. split.
    - intros o' Hne. rewrite Hv', (Hoth2 o' Hne). apply Hv1.
    - right. exists f1, f2, (prop_flags pr), v0. split; [by rewrite <- Epr1, <- Eprop|]. right. split; [done|]. right. split; [done|].
      by rewrite Hv'. }
  destruct (_ && _) eqn:Edel; [|by apply Hfin].
  apply andb_prop in Edel as [Edel _]. rewrite Z.geb_leb in Edel. apply Z.leb_le in Edel.
  destruct (compact_heap σ2 ext o _ sh' Hok2 How2 Eh1) as (σ3 & r & -> & Hok3 & Hv3).
  { pose proof (so_deleted _ Hok') as E. pose proof (zlen_nonneg (filter live_prop (sh_prop sh'))). unfold live_count in E. lia. }
  cbn [mbind option_bind]. by apply Hfin.
Qed.

(** C8: delete_property removes exactly the property of the atom and keeps the order
    of the others, also when the shape is shared or compacted; a property that is not
    configurable stays and gives 0, an absent one gives 1, and a failed allocation
    changes nothing. *)
Theorem delete_property_correct σ ext o ob sh atom : heap_ok σ ext -> owns σ o ob sh -> atom <> JS_ATOM_NULL ->
  (forall k w, (k, w) ∈ fields (sh_prop sh) (obj_prop ob) -> k.1 = atom -> is_Some w) ->
  exists σ' r, delete_property σ o atom = Some (σ', r) /\ heap_ok σ' ext /\ others o σ σ' /\
    ((forall k w, (k, w) ∈ fields (sh_prop sh) (obj_prop ob) -> k.1 <> atom) /\ r = 1 /\ σ' = σ \/
     exists f1 f2 flags v, fields (sh_prop sh) (obj_prop ob) = f1 ++ ((atom, flags), Some v) :: f2 /\
       (Z.land flags JS_PROP_CONFIGURABLE = 0 /\ r = 0 /\ σ' = σ \/
        Z.land flags JS_PROP_CONFIGURABLE <> 0 /\
          (r = -1 /\ σ' = σ \/ r = 1 /\ obj_view σ' o = Some (sh_proto sh, f1 ++ f2)))).
Proof. exact (delete_property_ok σ ext o ob sh atom). Qed.

Lemma flags_shape_ok sh prs' i pr f : shape_ok sh -> znth (sh_prop sh) i = Some pr -> live_prop pr -> 0 <= f < 64 ->
  prs' = <[Z.to_nat i := mk_shape_property (hash_next pr) f (prop_atom pr)]> (sh_prop sh) ->
  shape_ok (set_sh_table prs' (sh_prop_hash sh) (sh_hash_mask sh) (sh_prop_size sh) (sh_prop_count sh) (sh_deleted sh) sh) /\
  zlen prs' = zlen (sh_prop sh) /\ forall a, props_ref a prs' = props_ref a (sh_prop sh).
Proof.
  intros [] Hi Hl Hf ->. pose proof (table_flags _ _ _ _ _ _ so_table Hi Hf) as Ht. pose proof (znth_Some_range _ _ _ Hi) as Hr.
  rewrite znth_lookup in Hi by lia. set (e := mk_shape_property _ _ _) in *.
  assert (Ez : zlen (<[Z.to_nat i := e]> (sh_prop sh)) = zlen (sh_prop sh)) by (unfold zlen; by rewrite length_insert).
  assert (Elive : live_count (<[Z.to_nat i := e]> (sh_prop sh)) = live_count (sh_prop sh) /\
    forall a, props_ref a (<[Z.to_nat i := e]> (sh_prop sh)) = props_ref a (sh_prop sh)).
  { rewrite insert_take_drop by (by eapply lookup_lt_Some). pose proof (eq_sym (take_drop_middle _ _ _ Hi)) as Ep. split.
    - rewrite (f_equal live_count Ep), !live_count_app. unfold live_count at 2 4. by rewrite !filter_cons_True.
    - intros a. by rewrite (f_equal (props_ref a) Ep), !props_ref_app. }
  split; [|split; [done|apply Elive]]. split; cbn; try done; [by rewrite Ez|by rewrite Ez|by rewrite Ez, (proj1 Elive)].
Qed.

Lemma update_flags_ok σ ext o ob sh i pr flags : heap_ok σ ext -> owns σ o ob sh ->
  znth (sh_prop sh) i = Some pr -> prop_atom pr <> JS_ATOM_NULL -> 0 <= flags < 64 ->
  exists σ' r f1 f2 v, js_update_property_flags σ o i flags = Some (σ', r) /\ heap_ok σ' ext /\ others o σ σ' /\
    fields (sh_prop sh) (obj_prop ob) = f1 ++ ((prop_atom pr, prop_flags pr), v) :: f2 /\
    (r = -1 /\ σ' = σ \/ r = 0 /\ obj_view σ' o = Some (sh_proto sh, f1 ++ ((prop_atom pr, flags), v) :: f2)).
Proof.
  intros Hok How Hpr Hl Hf. pose proof Hok as [Hc Hcnt]. pose proof How as [Ho Hs]. pose proof (heap_slots _ _ _ _ _ _ Hc How) as Hz.
  destruct (fields_at (sh_prop sh) (obj_prop ob) _ pr Hpr Hl ltac:(lia)) as (v & f1 & f2 & Hv & Efl & Ef1 & Ef2).
  unfold js_update_property_flags. rewrite Ho. cbn [mbind option_bind]. rewrite Hs. cbn [mbind option_bind].
  rewrite Hpr. cbn [mbind option_bind]. destruct (Z.eqb_spec flags (prop_flags pr)) as [->|Hne]; cbn [negb].
  { exists σ, 0, f1, f2, v. split; [done|]. split; [done|]. split; [done|]. split; [done|]. right. split; [done|].
    by rewrite (owns_view _ _ _ _ How), Efl. }
  destruct (prepare_ok σ ext o ob sh Hok How) as (σ1 & r & -> & Hprep). cbn [mbind option_bind].
  destruct Hprep as [[-> ->]|(-> & Hok1 & Hv1 & ob1 & sh1 & How1 & Eprop & [n Esh1])]; cbn [Z.eqb negb].
  { exists σ, (-1), f1, f2, v. split; [done|]. split; [done|]. split; [done|]. split; [done|]. by left. }
  rewrite (proj1 How1). cbn [mbind option_bind]. rewrite (proj2 How1). cbn [mbind option_bind].
  assert (Epr1 : sh_prop sh1 = sh_prop sh) by (by subst sh1). assert (Eh1 : sh_is_hashed sh1 = false) by (by subst sh1).
  assert (Epo : sh_proto sh1 = sh_proto sh) by (by subst sh1). assert (Er1 : sh_ref_count sh1 = 1) by (by subst sh1).
  pose proof Hok1 as [Hc1 _]. destruct (hc_shape _ _ _ Hc1 _ _ (proj2 How1)) as [_ Hsh1]. pose proof (heap_slots _ _ _ _ _ _ Hc1 How1) as Hz1.
  rewrite Epr1, Hpr. cbn [mbind option_bind]. pose proof (znth_Some_range _ _ _ Hpr) as Hr. rewrite zupd_is_Some by done. cbn [mbind option_bind].
  rewrite land_6 by done. set (e := mk_shape_property _ _ _). set (prs' := <[Z.to_nat i := e]> (sh_prop sh)).
  destruct (flags_shape_ok sh1 prs' i pr flags Hsh1) as (Hok' & Ez & Eref); [by rewrite Epr1|done|done|by rewrite Epr1|].
  set (sh' := set_sh_table _ _ _ _ _ _ _) in *.
  destruct (own_core σ1 ext o ob1 sh1 sh' (obj_prop ob1) [] Hok1 How1 Eh1 Hok' Er1 Eh1) as (Hok2 & How2 & _ & Hoth2).
  { cbn. lia. } { cbn. lia. }
  { intros r _. symmetry. destruct r as [a|q]; [|apply Z.sub_diag]. cbn [shape_ref]. change (sh_prop sh') with prs'. rewrite Eref. apply Z.sub_diag. }
  rewrite record_nil in Hok2, How2, Hoth2. set (σ2 := put_shape (obj_shape ob1) sh' σ1).
  assert (Eσ : put_object o (mk_object (obj_shape ob1) (obj_prop ob1)) σ2 = σ2).
  { unfold σ2, put_object, put_shape, set_sobjects, set_shapes. cbn. f_equal. destruct ob1. apply insert_id. apply How1. }
  fold σ2 in Hok2, How2, Hoth2 |- *. rewrite Eσ in Hok2, How2, Hoth2.
  exists σ2, 0, f1, f2, v. split; [done|]. split; [done|]. split; [intros o' Hno; by rewrite (Hoth2 o' Hno), Hv1|]. split; [done|].
  right. split; [done|]. rewrite (owns_view _ _ _ _ How2). change (sh_proto sh') with (sh_proto sh1). rewrite Epo. do 2 f_equal.
  change (sh_prop sh') with prs'. cbn [obj_prop]. rewrite Eprop.
  assert (Hi' : znth prs' i = Some e).
  { unfold prs'. rewrite znth_lookup by lia. apply list_lookup_insert_eq. unfold zlen in Hr. lia. }
  rewrite Epr1 in Ez. destruct (fields_at prs' (obj_prop ob) i e Hi') as (v' & g1 & g2 & Hv' & Eg & Eg1 & Eg2); [done|lia|].
  rewrite Hv in Hv'. injection Hv' as <-. rewrite Eg. unfold prs' in Eg1, Eg2. rewrite take_insert_ge in Eg1 by lia.
  rewrite drop_insert_lt in Eg2 by lia. by rewrite Eg1, Eg2, <- Ef1, <- Ef2.
Qed.

(** C26: js_update_property_flags changes the flags of one property of one object,
    also when the shape is shared, or fails and changes nothing. *)
Theorem update_property_flags_correct σ ext o ob sh i pr flags : heap_ok σ ext -> owns σ o ob sh ->
  znth (sh_prop sh) i = Some pr -> prop_atom pr <> JS_ATOM_NULL -> 0 <= flags < 64 ->
  exists σ' r f1 f2 v, js_update_property_flags σ o i flags = Some (σ', r) /\ heap_ok σ' ext /\ others o σ σ' /\
    fields (sh_prop sh) (obj_prop ob) = f1 ++ ((prop_atom pr, prop_flags pr), v) :: f2 /\
    (r = -1 /\ σ' = σ \/ r = 0 /\ obj_view σ' o = Some (sh_proto sh, f1 ++ ((prop_atom pr, flags), v) :: f2)).
Proof. exact (update_flags_ok σ ext o ob sh i pr flags). Qed.
End update.
