(* ===== verification/ShapeNew.v ===== *)
(** * New objects

    [resize_shape_hash] moves every shape to the chain of its hash in a table of twice the
    size.  A new object gets the empty shape of its prototype, which it shares with every
    object of that prototype that has no property yet. *)

From stdpp Require Import gmap.
From S2P Require Import Prelude CStr GcHeap Chain ShapeTable ShapeOk ShapeHeapOk ShapeStep ShapeAdd ShapeLaws.
From S2P Require Import ShapeUpdate.

Section rehash.
Context (σ0 : ShapeHeap) (bits : Z).

Definition new_bucket (D : Z -> Prop) (j p : Z) : Prop :=
  D p /\ exists sh, shapes σ0 !! p = Some sh /\ get_shape_hash (sh_hash sh) bits = j.

(** The shapes of [D] are in the table [nh], the others have their old links. *)
Record rehashed (D : Z -> Prop) (σ : ShapeHeap) (nh : list Z) : Prop := {
  rh_rel : relinked σ0 σ;
  rh_count : shape_hash_count σ = shape_hash_count σ0;
  rh_len : zlen nh = 2 ^ bits;
  rh_chain j h : znth nh j = Some h -> exists l, ichain (shape_link σ) h l /\ forall p, p ∈ l <-> new_bucket D j p;
  rh_old p : ~ D p -> shape_link σ p = shape_link σ0 p
}.

Lemma rehashed_ext D D' σ nh : (forall p, D p <-> D' p) -> rehashed D σ nh -> rehashed D' σ nh.
Proof.
  intros H []. split; try done.
  - intros j h Hh. destruct (rh_chain0 j h Hh) as (l & Hl & Hi). exists l. split; [done|]. intros p. rewrite Hi. unfold new_bucket. by rewrite H.
  - intros p Hp. apply rh_old0. by rewrite H.
Qed.

Lemma new_hash_bucket nh h : 0 <= bits <= 30 -> zlen nh = 2 ^ bits -> 0 <= h < 2 ^ 32 -> exists n : Z, znth nh (get_shape_hash h bits) = Some n.
Proof.
  intros Hb Hl Hh. apply znth_is_Some. rewrite Hl. unfold get_shape_hash. rewrite Z.shiftr_div_pow2 by lia. split; [apply Z.div_pos; lia|].
  apply Z.div_lt_upper_bound; [lia|]. rewrite <- Z.pow_add_r by lia. replace (32 - bits + bits) with 32 by lia. lia.
Qed.

Lemma rehash_shape_ok D σ nh p sh : 0 <= bits <= 30 -> rehashed D σ nh -> ~ D p -> p <> 0 -> shapes σ0 !! p = Some sh -> 0 <= sh_hash sh < 2 ^ 32 ->
  exists n nh' s, znth nh (get_shape_hash (sh_hash sh) bits) = Some n /\ zupd nh (get_shape_hash (sh_hash sh) bits) p = Some nh' /\
    shapes σ !! p = Some s /\ sh_hash s = sh_hash sh /\ sh_next s = sh_next sh /\
    rehashed (fun q => D q \/ q = p) (put_shape p (set_sh_next n s) σ) nh'.
Proof.
  intros Hb Hre HD Hp0 Hp Hh. pose proof Hre as [Hrel Hcnt Hlen Hch Hold].
  destruct (new_hash_bucket nh (sh_hash sh) Hb Hlen Hh) as [n Hn]. destruct (zupd_write _ _ p _ Hn) as (nh' & El & Elen & Hnth).
  pose proof Hrel as (_ & _ & Hq). pose proof (Hq p) as Hqp. rewrite Hp in Hqp. destruct Hqp as [m Hm].
  assert (Em : m = sh_next sh). { pose proof (Hold p HD) as E. unfold shape_link in E. rewrite Hm, Hp in E. by injection E. }
  exists n, nh', (set_sh_next m sh). split; [done|]. split; [done|]. split; [done|]. split; [done|]. split; [done|].
  set (σ' := put_shape _ _ _).
  assert (Hlk : forall q, q <> p -> shape_link σ' q = shape_link σ q).
  { intros q Hne. unfold shape_link. subst σ'. cbn. by rewrite lookup_insert_ne. }
  split; [|done|by rewrite Elen| |].
  - destruct Hrel as (Ho & Hcalls & _). split; [done|]. split; [done|]. intros q. subst σ'. cbn. specialize (Hq q).
    destruct (decide (q = p)) as [->|Hne]; [|by rewrite lookup_insert_ne]. rewrite lookup_insert_eq, Hp. by exists n.
  - intros j h. rewrite Hnth. case_decide as Ej.
    + intros [= <-]. destruct (Hch _ _ Hn) as (l & Hl & Hi). exists (p :: l). split.
      * cbn [ichain]. split; [done|]. split; [done|]. exists n. split; [unfold shape_link; subst σ'; cbn; by rewrite lookup_insert_eq|].
        eapply ichain_frame; [|exact Hl]. intros q Hin. apply Hlk. intros ->. by apply Hi in Hin as [? _].
      * intros q. rewrite elem_of_cons, Hi. unfold new_bucket. subst j. split.
        -- intros [->|[H1 H2]]; [split; [by right|by exists sh]|tauto].
        -- intros [[H1| ->] H2]; tauto.
    + intros Hj. destruct (Hch j h Hj) as (l & Hl & Hi). exists l. split.
      * eapply ichain_frame; [|exact Hl]. intros q Hin. apply Hlk. intros ->. by apply Hi in Hin as [? _].
      * intros q. rewrite Hi. unfold new_bucket. split; [tauto|]. intros [[H1| ->] H2]; [tauto|].
        destruct H2 as (s & Hs & E). rewrite Hp in Hs. injection Hs as <-. by destruct Ej.
  - intros q HDq. rewrite Hlk by tauto. apply Hold. tauto.
Qed.

Lemma rehash_shapes_ok fuel : 0 <= bits <= 30 -> forall l p D σ nh, rehashed D σ nh -> ichain (shape_link σ0) p l -> NoDup l ->
  (forall q, q ∈ l -> ~ D q /\ exists sh, shapes σ0 !! q = Some sh /\ 0 <= sh_hash sh < 2 ^ 32) -> (length l <= fuel)%nat ->
  exists σ' nh', rehash_shapes fuel σ nh bits p = Some (σ', nh') /\ rehashed (fun q => D q \/ q ∈ l) σ' nh'.
Proof.
  intros Hb. induction fuel as [|fuel IH]; intros [|x l] p D σ nh Hre Hl Hnd Hq Hf; cbn [ichain length rehash_shapes] in *; try lia.
  1, 2: subst p; exists σ, nh; split; [done|]; eapply rehashed_ext; [|exact Hre]; intros q; rewrite elem_of_nil; tauto.
  destruct Hl as (-> & Hx & n & Hn & Hl). rewrite (proj2 (Z.eqb_neq x 0)) by done. apply list.NoDup_cons in Hnd as [Hxl Hnd].
  destruct (Hq x ltac:(by left)) as (HD & sh & Hsh & Hh).
  destruct (rehash_shape_ok D σ nh x sh Hb Hre HD Hx Hsh Hh) as (m & nh' & s & Hm & Hup & Hs & Eh & En & Hre').
  rewrite Hs. cbn [mbind option_bind]. rewrite Eh, Hm. cbn [mbind option_bind]. rewrite Hup. cbn [mbind option_bind].
  unfold shape_link in Hn. rewrite Hsh in Hn. injection Hn as Hn. rewrite En, Hn.
  destruct (IH l n _ _ _ Hre' Hl Hnd) as (σ' & nh'' & E & Hre''); [|lia|].
  { intros q Hin. destruct (Hq q ltac:(by right)) as [H1 H2]. split; [|done]. intros [?| ->]; tauto. }
  exists σ', nh''. split; [exact E|]. eapply rehashed_ext; [|exact Hre'']. intros q. rewrite elem_of_cons. tauto.
Qed.

Definition old_bucket (L : Z -> Prop) (P : Z -> Prop) (p : Z) : Prop :=
  L p /\ exists sh, shapes σ0 !! p = Some sh /\ P (get_shape_hash (sh_hash sh) (shape_hash_bits σ0)).

Lemma rehash_buckets_ok ext L : 0 <= bits <= 30 -> heap_core σ0 ext L -> forall old k σ nh,
  drop k (shape_hash σ0) = old -> rehashed (old_bucket L (fun j => j < Z.of_nat k)) σ nh ->
  exists σ' nh', rehash_buckets σ old nh bits = Some (σ', nh') /\
    rehashed (old_bucket L (fun j => j < Z.of_nat (k + length old))) σ' nh'.
Proof.
  intros Hb Hc. induction old as [|h old IH]; intros k σ nh Hd Hre; cbn [rehash_buckets length].
  { exists σ, nh. by rewrite Nat.add_0_r. }
  assert (Hk : shape_hash σ0 !! k = Some h) by (rewrite <- (Nat.add_0_r k), <- lookup_drop, Hd; done).
  assert (Hz : znth (shape_hash σ0) (Z.of_nat k) = Some h) by (rewrite znth_lookup by lia; by rewrite Nat2Z.id).
  destruct (hc_chain _ _ _ Hc _ _ Hz) as (l & Hl & Hi).
  assert (Hsize : size (shapes σ) = size (shapes σ0)) by (apply relinked_size, Hre).
  destruct (rehash_shapes_ok (size (shapes σ)) Hb l h _ σ nh Hre Hl) as (σ' & nh' & -> & Hre').
  - by eapply ichain_NoDup.
  - intros q Hin. apply Hi in Hin as (HL & sh & Hsh & E). split; [|exists sh; split; [done|]].
    + intros (_ & s & Hs & Hlt). assert (s = sh) as -> by congruence. lia.
    + by apply (hc_shape _ _ _ Hc q sh).
  - rewrite Hsize. by eapply chain_shapes.
  - cbn [mbind option_bind]. destruct (IH (S k) σ' nh') as (σ'' & nh'' & E & Hre'').
    + replace (S k) with (k + 1)%nat by lia. by rewrite <- drop_drop, Hd.
    + eapply rehashed_ext; [|exact Hre']. intros q. cbn beta. rewrite Hi. unfold old_bucket, in_bucket. split.
      * intros [(HL & sh & Hsh & Hlt)|(HL & sh & Hsh & E)]; (split; [done|]); exists sh; (split; [done|lia]).
      * intros (HL & sh & Hsh & Hlt). destruct (decide (get_shape_hash (sh_hash sh) (shape_hash_bits σ0) = Z.of_nat k)) as [E|Hne].
        -- right. split; [done|]. by exists sh.
        -- left. split; [done|]. exists sh. split; [done|]. lia.
    + exists σ'', nh''. split; [exact E|]. by replace (k + S (length old))%nat with (S k + length old)%nat by lia.
Qed.
End rehash.

Section resize.
Context {M : ShapeMalloc}.

Lemma resize_hash_core σ ext L bits : heap_core σ ext L -> 0 <= bits <= 30 ->
  exists σ' r, resize_shape_hash σ bits = Some (σ', r) /\ heap_core σ' ext L /\ relinked σ σ' /\
    (r = -1 /\ σ' = σ \/ r = 0 /\ shape_hash_bits σ' = bits /\ shape_hash_size σ' = 2 ^ bits).
Proof.
  intros Hc Hb. unfold resize_shape_hash. rewrite Z.gtb_ltb, (proj2 (Z.ltb_ge _ _)) by lia.
  assert (Hrefl : relinked σ σ).
  { split; [done|]. split; [done|]. intros q. destruct (shapes σ !! q) as [s|]; [|done]. exists (sh_next s). by rewrite set_next_same. }
  destruct (sh_malloc σ _); [|exists σ, (-1); split; [done|]; split; [done|]; split; [done|by left]].
  assert (Es : zslice (shape_hash σ) 0 (shape_hash_size σ) = Some (shape_hash σ)).
  { rewrite <- (hc_len _ _ _ Hc). rewrite zslice_is_Some by (pose proof (zlen_nonneg (shape_hash σ)); lia). f_equal.
    unfold zlen. by rewrite Nat2Z.id, firstn_all. }
  rewrite Es. cbn [mbind option_bind]. rewrite Z.shiftl_1_l.
  assert (Hlen : zlen (replicate (Z.to_nat (2 ^ bits)) 0) = 2 ^ bits) by (unfold zlen; rewrite length_replicate; lia).
  destruct (rehash_buckets_ok σ bits ext L Hb Hc (shape_hash σ) 0%nat σ (replicate (Z.to_nat (2 ^ bits)) 0)) as (σ' & nh & -> & Hre); [done| |].
  { split; try done. intros j h Hh. exists []. unfold znth in Hh. destruct (j <? 0); [done|]. apply lookup_replicate in Hh as [-> _].
    split; [done|]. intros q. rewrite elem_of_nil. split; [done|]. intros [(_ & sh & Hsh & Hlt) _].
    destruct (hc_shape _ _ _ Hc q sh Hsh) as [_ Hok]. pose proof (so_hash _ Hok). pose proof (hc_bits _ _ _ Hc).
    unfold get_shape_hash in Hlt. rewrite Z.shiftr_div_pow2 in Hlt by lia. pose proof (Z.div_pos (sh_hash sh) (2 ^ (32 - shape_hash_bits σ)) ltac:(lia) ltac:(lia)). lia. }
  cbn [mbind option_bind]. eexists _, 0. split; [done|]. pose proof (rh_rel _ _ _ _ _ Hre) as Hrel.
  set (σ1 := mk_heap _ _ _ _ _ _ _).
  assert (Hrel1 : relinked σ σ1) by exact Hrel.
  split; [|split; [done|by right]]. eapply (relink_core σ σ1 ext L L Hc Hrel1); [done|done|exact (rh_len _ _ _ _ _ Hre)|apply (hc_linked _ _ _ Hc)|].
  intros j h Hh. destruct (rh_chain _ _ _ _ _ Hre j h Hh) as (l & Hl & Hi). exists l. split; [exact Hl|].
  intros p. rewrite Hi. unfold new_bucket, old_bucket. cbn. split.
  - intros [[HL _] H]. done.
  - intros [HL (sh & Hsh & E)]. split; [|by exists sh]. split; [done|]. exists sh. split; [done|].
    destruct (hc_shape _ _ _ Hc p sh Hsh) as [_ Hok]. destruct (hash_bucket σ ext L sh Hc (so_hash _ Hok)) as [b Hb'].
    apply znth_Some_range in Hb'. unfold zlen in Hb'. lia.
Qed.
End resize.

(** ** The empty shape of a prototype *)

Lemma find_shape_proto_spec fuel σ h proto p l : ichain (shape_link σ) p l -> (length l <= fuel)%nat ->
  exists r, find_shape_proto fuel σ h proto p = Some r /\
    (r = 0 \/ r <> 0 /\ r ∈ l /\ exists sh, shapes σ !! r = Some sh /\ sh_proto sh = proto /\ sh_prop_count sh = 0).
Proof.
  revert p l. induction fuel as [|fuel IH]; intros p [|x l]; cbn [ichain length find_shape_proto]; try lia.
  1, 2: intros -> _; exists 0; split; [done|by left].
  intros (-> & Hx & n & Hn & Hl) Hf. rewrite (proj2 (Z.eqb_neq x 0)) by done. unfold shape_link in Hn.
  destruct (shapes σ !! x) as [sh|] eqn:Hs; [|done]. injection Hn as Hn. cbn [mbind option_bind].
  destruct (_ && _) eqn:E.
  - exists x. split; [done|]. right. split; [done|]. split; [by left|]. exists sh. split; [done|].
    apply andb_prop in E as [[_ E1%Z.eqb_eq]%andb_prop E2%Z.eqb_eq]. done.
  - rewrite Hn. destruct (IH n l Hl ltac:(lia)) as (r & -> & Hr). exists r. split; [done|].
    destruct Hr as [->|(? & ? & ?)]; [by left|right]. split; [done|]. split; [by right|done].
Qed.

Lemma find_proto_ok σ ext proto : heap_core σ ext (hashed σ) ->
  exists r, find_hashed_shape_proto σ proto = Some r /\
    (r = 0 \/ r <> 0 /\ exists sh, shapes σ !! r = Some sh /\ sh_is_hashed sh = true /\ sh_proto sh = proto /\ sh_prop sh = []).
Proof.
  intros Hc. unfold find_hashed_shape_proto. set (h := shape_initial_hash proto).
  set (sh0 := mk_shape 0 true false h 0 0 0 0 0 0 [] []).
  destruct (hash_bucket σ ext (hashed σ) sh0 Hc) as [p Hp]; [apply shape_hash_mix_range|].
  change (sh_hash sh0) with h in Hp. rewrite Hp. cbn [mbind option_bind].
  destruct (hc_chain _ _ _ Hc _ _ Hp) as (l & Hl & Hi).
  destruct (find_shape_proto_spec (size (shapes σ)) σ h proto p l Hl) as (r & -> & Hr); [by eapply chain_shapes|].
  exists r. split; [done|]. destruct Hr as [->|(Hr0 & Hin & sh & Hs & Hproto & Hcount)]; [by left|right]. split; [done|].
  exists sh. split; [done|]. split; [apply Hi in Hin as [(s & Hs' & H) _]; congruence|]. split; [done|].
  destruct (hc_shape _ _ _ Hc _ _ Hs) as [_ Hok]. rewrite (so_count _ Hok) in Hcount. destruct (sh_prop sh); [done|].
  rewrite zlen_cons in Hcount. pose proof (zlen_nonneg l0). lia.
Qed.

Definition proto_of (σ : ShapeHeap) (p proto : Z) : Prop :=
  exists sh, shapes σ !! p = Some sh /\ sh_is_hashed sh = true /\ sh_proto sh = proto /\ sh_prop sh = [].

Section new.
Context {M : ShapeMalloc} {MO : ShapeMallocOk M}.

Lemma relinked_view σ σ' o : relinked σ σ' -> obj_view σ' o = obj_view σ o.
Proof.
  intros (Ho & _ & H). unfold obj_view. rewrite Ho. destruct (sobjects σ !! o) as [ob|]; [|done]. cbn [mbind option_bind].
  specialize (H (obj_shape ob)). destruct (shapes σ !! obj_shape ob) as [sh|]; [destruct H as [n ->]; done|by rewrite H].
Qed.

Lemma relinked_heap_ok σ σ' ext : heap_ok σ ext -> relinked σ σ' -> heap_core σ' ext (hashed σ) -> heap_ok σ' ext.
Proof.
  intros [_ Hcnt] Hr Hc. split.
  - eapply core_ext; [| |exact Hc]; [done|]. intros q. symmetry. apply (frame_hashed 0 []); [by apply relinked_frame|].
    by intros ?%elem_of_nil.
  - intros p sh' (sh & n & Hsh & ->)%(relinked_back _ _ _ _ Hr). by apply counted_next, (Hcnt p).
Qed.

Lemma shape_initial_range proto : 0 <= shape_initial_hash proto < 2 ^ 32.
Proof. apply shape_hash_mix_range. Qed.

Lemma new_shape_ok σ ext proto : heap_ok σ ext -> shape_hash_bits σ < 30 ->
  exists σ' p, js_new_shape σ proto = Some (σ', p) /\ sobjects σ' = sobjects σ /\ (forall o, obj_view σ' o = obj_view σ o) /\
    (p = 0 /\ heap_ok σ' ext \/ p <> 0 /\ ext p = 0 /\ heap_ok σ' (with_ext ext p 1) /\ proto_of σ' p proto).
Proof.
  intros Hok Hbits. pose proof Hok as [Hc Hcnt]. unfold js_new_shape, js_new_shape2.
  assert (Hres : exists σ1 r, (if 2 * (shape_hash_count σ + 1) >? shape_hash_size σ then resize_shape_hash σ (shape_hash_bits σ + 1)
      else Some (σ, 0)) = Some (σ1, r) /\ heap_ok σ1 ext /\ relinked σ σ1).
  { destruct (_ >? _).
    - pose proof (hc_bits _ _ _ Hc). destruct (resize_hash_core σ ext (hashed σ) (shape_hash_bits σ + 1) Hc ltac:(lia)) as (σ1 & r & E & Hc1 & Hr & _).
      exists σ1, r. split; [done|]. split; [by eapply relinked_heap_ok|done].
    - exists σ, 0. split; [done|]. split; [done|]. split; [done|]. split; [done|]. intros q. destruct (shapes σ !! q) as [s|]; [|done].
      exists (sh_next s). by rewrite set_next_same. }
  destruct Hres as (σ1 & r & -> & [Hc1 Hcnt1] & Hr1). cbn [mbind option_bind].
  destruct (sh_malloc σ1 _) as [p|] eqn:Em.
  2: { exists σ1, 0. split; [done|]. split; [apply Hr1|]. split; [intros o; by apply relinked_view|]. by left. }
  destruct (malloc_fresh _ _ _ Em) as (Hp0 & Hpn & _). set (sh := mk_shape _ _ _ _ _ _ _ _ _ _ _ _).
  assert (Hsh : shape_ok sh).
  { split; cbn; try done.
    - destruct (empty_chains 2 ltac:(lia)). split; [exact (empty_chains 2 ltac:(lia))| |].
      + intros i j pr pr' Hi. by rewrite znth_nil in Hi.
      + by intros pr ?%elem_of_nil.
    - apply shape_initial_range. }
  pose proof (insert_core σ1 ext (hashed σ1) p sh (CallGcAdd p :: dup_proto proto) Hc1 Hpn Hp0 Hsh eq_refl) as Hc2.
  set (σ2 := record _ (put_shape p sh σ1)) in *. lapply Hc2; clear Hc2.
  2: { intros ref Href. assert (E0 : sum_calls ref [] = 0) by (by destruct ref).
       pose proof (sum_calls_take ref sh [] Href E0) as E. cbn [sh_prop sh map app] in E. rewrite app_nil_r in E. rewrite <- E. by destruct ref. }
  intros Hc2. destruct (link_core σ2 _ _ p sh Hc2) as (σ3 & -> & Hc3 & Hr3); [cbn; apply lookup_insert_eq|intros (s & Hs & _); congruence|].
  cbn [mbind option_bind]. exists σ3, p. split; [done|].
  assert (Hf : forall o, frame o [p] σ1 σ3).
  { intros o. eapply frame_trans; [|apply relinked_frame; exact Hr3]. apply frame_put_shape. by left. }
  pose proof Hr3 as (Eo3 & _ & Hq3). pose proof (Hq3 p) as Hp3. cbn in Hp3. rewrite lookup_insert_eq in Hp3. destruct Hp3 as [n Hp3].
  assert (Hview : forall o, obj_view σ3 o = obj_view σ o).
  { intros o. rewrite (frame_fresh_view σ1 ext _ σ3 p Hc1 Hpn Hf o). by apply relinked_view. }
  split; [rewrite Eo3; apply Hr1|]. split; [done|]. right. split; [done|]. split; [by apply (hc_ext_none _ _ _ Hc1)|].
  split; [split|by exists (set_sh_next n sh)].
  - eapply core_ext; [| |exact Hc3]; [done|]. intros q. destruct (decide (q = p)) as [->|Hq].
    + split; [|by left]. intros _. by exists (set_sh_next n sh).
    + rewrite (frame_hashed _ _ _ _ q (Hf 0)) by (by intros ?%list_elem_of_singleton). tauto.
  - eapply frame_counted; [exact (Hf 0)|exact Hcnt1|]. intros q s ->%list_elem_of_singleton Hs. rewrite Hp3 in Hs. injection Hs as <-.
    split; cbn; [lia|done].
Qed.

Lemma heap_ok_record σ ext cs : heap_ok σ ext -> (forall r, sum_calls r cs = 0) -> heap_ok (record cs σ) ext.
Proof. intros [Hc Hcnt] Hcs. split; [by apply core_record|done]. Qed.

Lemma heap_ok_ext σ ext ext' : (forall p, ext p = ext' p) -> heap_ok σ ext -> heap_ok σ ext'.
Proof. intros He [Hc Hcnt]. split; [|done]. by eapply core_ext. Qed.

(** The reference to [p] goes to the new object, or is given up. *)
Lemma new_from_shape σ ext p proto : heap_ok σ (with_ext ext p (ext p + 1)) -> 0 <= ext p -> proto_of σ p proto ->
  exists σ' o, JS_NewObjectFromShape σ p = Some (σ', o) /\ heap_ok σ' ext /\ others o σ σ' /\
    (o = 0 \/ o <> 0 /\ sobjects σ !! o = None /\ obj_view σ' o = Some (proto, [])).
Proof.
  intros Hok Hep (sh & Hs & Hh & Hproto & Hprop).
  assert (Hok1 : heap_ok (record [CallTriggerGc] σ) (with_ext ext p (ext p + 1))) by (apply heap_ok_record; [done|by intros []]).
  unfold JS_NewObjectFromShape. set (σ1 := record _ σ) in *. assert (Hs1 : shapes σ1 !! p = Some sh) by exact Hs.
  rewrite Hs1. cbn [mbind option_bind]. destruct Hok1 as [Hc1 Hcnt1].
  assert (Hback : forall q, with_ext (with_ext ext p (ext p + 1)) p (with_ext ext p (ext p + 1) p - 1) q = ext q).
  { intros q. rewrite with_ext_eq. unfold with_ext. repeat case_decide; subst; lia. }
  assert (Hfail : exists σ' o, (σ ← js_free_shape σ1 p; Some (σ, 0)) = Some (σ', o) /\ heap_ok σ' ext /\ others o σ σ' /\
    (o = 0 \/ o <> 0 /\ sobjects σ !! o = None /\ obj_view σ' o = Some (proto, []))).
  { destruct (free_hashed σ1 _ p sh Hc1 Hs1) as (σ2 & -> & Hc2 & Hf2 & Eo2 & Hp2 & Hv2); [by apply (Hcnt1 p)|rewrite with_ext_eq; lia|done|].
    cbn [mbind option_bind]. exists σ2, 0. split; [done|]. split; [|split; [by intros o _; rewrite Hv2|by left]].
    split; [by eapply core_ext; [exact Hback| |exact Hc2]|]. eapply frame_counted; [exact (Hf2 0)|exact Hcnt1|].
    intros q s ->%list_elem_of_singleton Hs2. by apply Hp2. }
  destruct (sh_malloc σ1 sizeof_JSObject) as [o|] eqn:Em; [|exact Hfail]. destruct (sh_malloc σ1 (sizeof_JSProperty * sh_prop_size sh)) as [a|]; [|exact Hfail]. clear Hfail.
  destruct (malloc_fresh _ _ _ Em) as (Ho0 & _ & Hon). set (prop := replicate _ _).
  destruct (hc_shape _ _ _ Hc1 _ _ Hs1) as [_ Hsh]. pose proof (so_size _ Hsh) as Hsz. pose proof (zlen_nonneg (sh_prop sh)).
  assert (Hz : zlen prop = sh_prop_size sh) by (unfold prop, zlen; rewrite length_replicate; lia).
  eexists _, o. split; [done|]. set (σ2 := record _ (put_object o (mk_object p prop) σ1)).
  assert (How : owns σ2 o (mk_object p prop) sh) by (split; [cbn; apply lookup_insert_eq|exact Hs1]).
  split; [split|split].
  - eapply core_ext; [exact Hback| |]; [|eapply (new_object_core σ1); [exact Hc1|done|done|exact Hs1|lia|rewrite with_ext_eq; lia|by intros []]]. done.
  - exact Hcnt1.
  - intros o' Hne. apply (put_object_view σ1 o (mk_object p prop) o' Hne).
  - right. split; [done|]. split; [done|]. rewrite (owns_view _ _ _ _ How), Hprop, Hproto. done.
Qed.

Lemma new_object_ok σ ext proto : heap_ok σ ext -> shape_hash_bits σ < 30 ->
  exists σ' o, JS_NewObjectProtoClass σ proto = Some (σ', o) /\ heap_ok σ' ext /\ others o σ σ' /\
    (o = 0 \/ o <> 0 /\ sobjects σ !! o = None /\ obj_view σ' o = Some (proto, [])).
Proof.
  intros Hok Hbits. pose proof Hok as [Hc Hcnt]. unfold JS_NewObjectProtoClass.
  destruct (find_proto_ok σ ext proto Hc) as (p & -> & Hp). cbn [mbind option_bind].
  destruct Hp as [->|(Hp0 & sh & Hs & Hh & Hproto & Hprop)]; cbn [Z.eqb negb].
  - destruct (new_shape_ok σ ext proto Hok Hbits) as (σ1 & p & -> & Eo & Hv & Hp). cbn [mbind option_bind].
    destruct Hp as [[-> Hok1]|(Hp0 & He & Hok1 & Hpr)]; cbn [Z.eqb].
    { exists σ1, 0. split; [done|]. split; [done|]. split; [by intros o _|by left]. }
    rewrite (proj2 (Z.eqb_neq p 0)) by done.
    destruct (new_from_shape σ1 ext p proto) as (σ' & o & E & Hok' & Hoth & Hres); [by rewrite He|lia|done|].
    exists σ', o. split; [exact E|]. split; [done|]. split; [intros o' Hne; by rewrite (Hoth o' Hne)|]. by rewrite <- Eo.
  - rewrite (proj2 (Z.eqb_neq p 0)) by done. cbn [negb]. destruct (dup_core σ ext (hashed σ) p sh Hc Hs) as [-> Hc1]. cbn [mbind option_bind].
    set (σ1 := put_shape _ _ _) in *. destruct (new_from_shape σ1 ext p proto) as (σ' & o & E & Hok' & Hoth & Hres).
    + split.
      * eapply core_ext; [| |exact Hc1]; [done|]. intros q. symmetry. by apply hashed_put_ref.
      * intros q s. cbn. intros [[<- <-]|[_ Hq]]%lookup_insert_Some; [|by apply (Hcnt q)]. destruct (Hcnt _ _ Hs). split; cbn; [lia|congruence].
    + apply (hc_ext _ _ _ Hc).
    + exists (set_sh_ref (sh_ref_count sh + 1) sh). split; [cbn; apply lookup_insert_eq|done].
    + exists σ', o. split; [exact E|]. split; [done|]. split; [|exact Hres]. intros o' Hne. rewrite (Hoth o' Hne). by apply put_ref_view.
Qed.

End new.
