(* ===== verification/ShapeReach.v ===== *)
(** * Programs that work on objects

    The states that a program reaches by making objects, adding, setting, changing and
    deleting their properties and freeing objects satisfy the invariant; every property of
    every object has a name of its own and a value. *)

From stdpp Require Import gmap.
From S2P Require Import Prelude CStr Chain GcHeap ShapeTable ShapeOk ShapeHeapOk ShapeStep ShapeAdd ShapeLaws ShapeUpdate ShapeNew.

(** ** Objects that are freed *)

(** The functions on shapes do not look at the objects. *)
Lemma unlink_objects fuel m σ h prev cur p :
  unlink_shape fuel (set_sobjects m σ) h prev cur p = set_sobjects m <$> unlink_shape fuel σ h prev cur p.
Proof.
  revert prev cur. induction fuel as [|fuel IH]; intros prev cur; cbn [unlink_shape]; (destruct (cur =? p); [|]).
  1, 3: destruct (shapes σ !! p) as [sh|] eqn:E; cbn [shapes set_sobjects]; rewrite E; [|done]; cbn [mbind option_bind];
    destruct prev as [q|]; [destruct (shapes σ !! q)|cbn [shape_hash set_sobjects]; destruct (zupd _ _ _)]; done.
  - done.
  - cbn [shapes set_sobjects]. destruct (shapes σ !! cur) as [sh|]; [|done]. cbn [mbind option_bind]. apply IH.
Qed.

Lemma free_shape_objects m σ p : js_free_shape (set_sobjects m σ) p = set_sobjects m <$> js_free_shape σ p.
Proof.
  unfold js_free_shape. cbn [shapes set_sobjects]. destruct (shapes σ !! p) as [sh|]; [|done]. cbn [mbind option_bind].
  destruct (_ <=? 0); [|done]. change (put_shape p ?s (set_sobjects m σ)) with (set_sobjects m (put_shape p s σ)).
  set (σ1 := put_shape _ _ σ). unfold js_free_shape0. change (shapes (set_sobjects m σ1)) with (shapes σ1).
  destruct (shapes σ1 !! p) as [s1|] eqn:E1; [|done]. cbn [mbind option_bind]. destruct (_ =? 0); [|done].
  destruct (sh_is_hashed s1); [|done]. unfold js_shape_hash_unlink. change (shapes (set_sobjects m σ1)) with (shapes σ1). rewrite E1.
  cbn [mbind option_bind shape_hash set_sobjects shape_hash_bits]. destruct (znth _ _) as [cur|]; [|done]. cbn [mbind option_bind].
  rewrite unlink_objects. by destruct (unlink_shape _ _ _ _ _ _).
Qed.

Lemma set_sobjects_same σ : set_sobjects (sobjects σ) σ = σ.
Proof. by destruct σ. Qed.

Lemma free_fields_calls prs prop l : free_fields prs prop = Some l -> forall r, sum_calls r l = 0.
Proof.
  revert prop l. induction prs as [|pr prs IH]; intros prop l H r; cbn [free_fields] in H; [by injection H as <-; destruct r|].
  destruct prop as [|[v|] prop]; try done. destruct (free_fields prs prop) as [l'|] eqn:E; [|done]. injection H as <-.
  cbn. rewrite (IH prop l' E r : foldr _ 0 l' = 0). by destruct r.
Qed.

Section reach.
Context {M : ShapeMalloc} {MO : ShapeMallocOk M}.

Lemma free_object_ok σ ext o ob sh l : heap_ok σ ext -> owns σ o ob sh -> free_fields (sh_prop sh) (obj_prop ob) = Some l ->
  exists σ', free_object σ o = Some σ' /\ heap_ok σ' ext /\ others o σ σ' /\ sobjects σ' = delete o (sobjects σ).
Proof.
  intros [Hc Hcnt] How Hl. pose proof How as [Ho Hs]. pose proof (free_fields_calls _ _ _ Hl) as Hsum.
  unfold free_object. rewrite Ho. cbn [mbind option_bind]. rewrite Hs. cbn [mbind option_bind]. rewrite Hl. cbn [mbind option_bind].
  set (p := obj_shape ob) in *. set (m := delete o (sobjects σ)). set (σ1 := record l (set_sobjects m σ)).
  pose proof (delete_object_core σ ext (hashed σ) o ob l Hc Ho Hsum) as Hc1. fold p m σ1 in Hc1.
  assert (Hs1 : shapes σ1 !! p = Some sh) by exact Hs.
  destruct (free_hashed σ1 _ p sh Hc1 Hs1) as (σ2 & E2 & Hc2 & Hf2 & Eo2 & Hp2 & Hv2).
  { by apply (Hcnt p). } { rewrite with_ext_eq. pose proof (hc_ext _ _ _ Hc p). lia. }
  { intros Hne. destruct (sh_is_hashed sh) eqn:Eh; [done|]. by destruct (proj2 (Hcnt _ _ Hs) Eh). }
  change σ1 with (set_sobjects m (record l σ)) in E2. rewrite free_shape_objects in E2.
  destruct (js_free_shape (record l σ) p) as [σ3|] eqn:E3; [|done]. injection E2 as E2. cbn [mbind option_bind].
  assert (Eσ3 : sobjects σ3 = sobjects σ).
  { pose proof (free_shape_objects (sobjects σ) (record l σ) p) as E. change (sobjects σ) with (sobjects (record l σ)) in E at 1.
    rewrite set_sobjects_same, E3 in E. injection E as E. rewrite E. done. }
  eexists. split; [done|]. rewrite Eσ3. fold m. rewrite E2.
  assert (Hok : heap_ok σ2 ext).
  { split.
    - eapply core_ext; [| |exact Hc2]; [|done]. intros q. rewrite with_ext_eq. unfold with_ext. repeat case_decide; subst; lia.
    - eapply frame_counted; [exact (Hf2 0)|exact Hcnt|]. intros q s ->%list_elem_of_singleton Hq. by apply Hp2. }
  split; [apply heap_ok_record; [done|by intros []]|]. split; [|cbn; rewrite Eo2; done].
  intros o' Hne. change (obj_view (record [CallGcRemove o] σ2) o') with (obj_view σ2 o'). rewrite Hv2.
  unfold obj_view. subst σ1 m. cbn. by rewrite lookup_delete_ne.
Qed.

(** ** Values *)

Lemma set_property_value_ok σ ext o ob sh i pr v : heap_ok σ ext -> owns σ o ob sh -> znth (sh_prop sh) i = Some pr -> live_prop pr ->
  exists σ' f1 f2 w, set_property_value σ o i v = Some σ' /\ heap_ok σ' ext /\ others o σ σ' /\
    fields (sh_prop sh) (obj_prop ob) = f1 ++ (prop_key pr, w) :: f2 /\
    obj_view σ' o = Some (sh_proto sh, f1 ++ (prop_key pr, Some v) :: f2).
Proof.
  intros [Hc Hcnt] How Hpr Hl. pose proof (heap_slots _ _ _ _ _ _ Hc How) as Hz. pose proof (znth_Some_range _ _ _ Hpr) as Hr.
  destruct (fields_at _ (obj_prop ob) i pr Hpr Hl ltac:(lia)) as (w & f1 & f2 & Hw & Ef & E1 & E2).
  unfold set_property_value. rewrite (proj1 How). cbn [mbind option_bind]. rewrite zupd_is_Some by lia. cbn [mbind option_bind].
  set (prop := <[Z.to_nat i := Some v]> (obj_prop ob)). assert (Ez : zlen prop = zlen (obj_prop ob)) by (unfold prop, zlen; by rewrite length_insert).
  eexists _, f1, f2, w. split; [done|]. split; [split; [|exact Hcnt]|split; [apply put_object_view|split; [done|]]].
  - apply (slots_core σ ext (hashed σ) o ob sh prop Hc How). lia.
  - rewrite (owns_view _ o (mk_object (obj_shape ob) prop) sh) by (split; [cbn; apply lookup_insert_eq|apply How]). do 2 f_equal. cbn [obj_prop].
    destruct (fields_at (sh_prop sh) prop i pr Hpr Hl ltac:(lia)) as (w' & g1 & g2 & Hw' & Eg & Eg1 & Eg2).
    assert (w' = Some v) as ->.
    { unfold prop in Hw'. rewrite znth_lookup, list_lookup_insert_eq in Hw' by (unfold zlen in *; lia). by injection Hw'. }
    unfold prop in Eg1, Eg2. rewrite take_insert_ge in Eg1 by lia. rewrite drop_insert_lt in Eg2 by lia. by rewrite Eg, E1, E2, Eg1, Eg2.
Qed.

(** ** Reachable states *)

Inductive obj_step (σ : ShapeHeap) : ShapeHeap -> Prop :=
  | step_new proto σ' o : shape_hash_bits σ < 30 -> JS_NewObjectProtoClass σ proto = Some (σ', o) -> obj_step σ σ'
  | step_add o ob sh atom flags v σ1 i σ' : owns σ o ob sh -> atom <> JS_ATOM_NULL -> 0 <= flags < 64 -> sh_prop_count sh + 1 < 2 ^ 26 ->
      find_own_property σ o atom = Some None -> add_property σ o atom flags = Some (σ1, Some i) -> set_property_value σ1 o i v = Some σ' ->
      obj_step σ σ'
  | step_add_fails o ob sh atom flags σ' : owns σ o ob sh -> atom <> JS_ATOM_NULL -> 0 <= flags < 64 -> sh_prop_count sh + 1 < 2 ^ 26 ->
      find_own_property σ o atom = Some None -> add_property σ o atom flags = Some (σ', None) -> obj_step σ σ'
  | step_set o atom i v σ' : atom <> JS_ATOM_NULL -> find_own_property σ o atom = Some (Some i) -> set_property_value σ o i v = Some σ' ->
      obj_step σ σ'
  | step_flags o atom i flags σ' r : atom <> JS_ATOM_NULL -> 0 <= flags < 64 -> find_own_property σ o atom = Some (Some i) ->
      js_update_property_flags σ o i flags = Some (σ', r) -> obj_step σ σ'
  | step_delete o atom σ' r : atom <> JS_ATOM_NULL -> delete_property σ o atom = Some (σ', r) -> obj_step σ σ'
  | step_free o σ' : free_object σ o = Some σ' -> obj_step σ σ'.

Inductive obj_reachable : ShapeHeap -> Prop :=
  | reach_init σ : init_shape_hash (mk_heap 0 0 0 [] ∅ ∅ []) = (σ, 0) -> obj_reachable σ
  | reach_step σ σ' : obj_reachable σ -> obj_step σ σ' -> obj_reachable σ'.

(** Every property has a value. *)
Definition views_set (σ : ShapeHeap) : Prop := forall o proto fs, obj_view σ o = Some (proto, fs) -> forall k w, (k, w) ∈ fs -> is_Some w.

Lemma views_others σ σ' o : views_set σ -> others o σ σ' ->
  (forall proto fs, obj_view σ' o = Some (proto, fs) -> forall k w, (k, w) ∈ fs -> is_Some w) -> views_set σ'.
Proof.
  intros Hv Ho Hn o' proto fs E. destruct (decide (o' = o)) as [->|Hne]; [by eapply Hn|]. rewrite Ho in E by done. by eapply Hv.
Qed.

Lemma init_ok σ : init_shape_hash (mk_heap 0 0 0 [] ∅ ∅ []) = (σ, 0) -> heap_ok σ (fun _ => 0) /\ views_set σ.
Proof.
  unfold init_shape_hash. destruct (sh_malloc _ _); [|done]. intros [= <-]. split; [|intros o proto fs E; unfold obj_view in E; cbn in E; by rewrite lookup_empty in E].
  split; [split; cbn; try done|].
  - intros j h Hh. exists []. unfold znth in Hh. destruct (j <? 0); [done|]. apply (lookup_replicate_1 (Z.to_nat 16) 0 h) in Hh as [-> _].
    split; [done|]. intros p. rewrite elem_of_nil. split; [done|]. intros (_ & sh & H & _). cbn in H. by rewrite lookup_empty in H.
  - intros p (sh & H & _). cbn in H. by rewrite lookup_empty in H.
  - intros p sh H. cbn in H. by rewrite lookup_empty in H.
Qed.

Lemma find_own_none σ ext o ob sh atom : heap_ok σ ext -> owns σ o ob sh -> atom <> JS_ATOM_NULL -> find_own_property σ o atom = Some None ->
  forall k v, (k, v) ∈ fields (sh_prop sh) (obj_prop ob) -> k.1 <> atom.
Proof.
  intros [Hc _] How Ha E k v (i & pr & Hi & _ & Ek & _)%fields_in. destruct (find_own_ok _ _ _ _ _ _ _ Hc How Ha) as (r & E' & Hr).
  rewrite E in E'. injection E' as <-. rewrite <- Ek. apply Hr. apply elem_of_znth. by exists i.
Qed.

Lemma find_own_some σ ext o atom i : heap_ok σ ext -> atom <> JS_ATOM_NULL -> find_own_property σ o atom = Some (Some i) ->
  exists ob sh pr, owns σ o ob sh /\ znth (sh_prop sh) i = Some pr /\ prop_atom pr = atom.
Proof.
  intros [Hc _] Ha E. unfold find_own_property in E. destruct (sobjects σ !! o) as [ob|] eqn:Ho; [|done]. cbn [mbind option_bind] in E.
  destruct (shapes σ !! obj_shape ob) as [sh|] eqn:Hs; [|done]. assert (How : owns σ o ob sh) by done.
  destruct (find_own_ok _ _ _ _ _ _ atom Hc How Ha) as (r & E' & Hr). unfold find_own_property in E'. rewrite Ho in E'. cbn [mbind option_bind] in E, E'.
  rewrite Hs in E'. cbn [mbind option_bind] in E, E'. rewrite E in E'. injection E' as <-. destruct Hr as (pr & Hpr & Epr). by exists ob, sh, pr.
Qed.

Lemma owns_set σ o ob sh k w : views_set σ -> owns σ o ob sh -> (k, w) ∈ fields (sh_prop sh) (obj_prop ob) -> is_Some w.
Proof. intros Hv How. eapply Hv. by apply owns_view. Qed.

Lemma owns_fun σ o ob sh ob' sh' : owns σ o ob sh -> owns σ o ob' sh' -> ob' = ob /\ sh' = sh.
Proof. intros [H1 H2] [H3 H4]. rewrite H1 in H3. injection H3 as <-. rewrite H2 in H4. by injection H4 as <-. Qed.

Lemma obj_step_ok σ σ' : heap_ok σ (fun _ => 0) -> views_set σ -> obj_step σ σ' -> heap_ok σ' (fun _ => 0) /\ views_set σ'.
Proof.
  intros Hok Hv Hstep. destruct Hstep as [proto σ' o Hb E|o ob sh atom flags v σ1 i σ' How Ha Hf Hn Hnone E Eset|o ob sh atom flags σ' How Ha Hf Hn Hnone E
    |o atom i v σ' Ha Hi E|o atom i flags σ' r Ha Hf Hi E|o atom σ' r Ha E|o σ' E].
  - destruct (new_object_ok σ _ proto Hok Hb) as (σ2 & o2 & E2 & Hok2 & Hoth & Hres). rewrite E in E2. injection E2 as <- <-.
    split; [done|]. eapply views_others; [exact Hv|exact Hoth|]. intros pr fs Ev. destruct Hres as [->|(Ho0 & _ & Hres)].
    + apply view_owns in Ev as (ob & sh & [Hob _] & _). by destruct (proj1 (hc_object _ _ _ (proj1 Hok2) _ _ Hob)).
    + rewrite Hres in Ev. injection Ev as <- <-. by intros k w ?%elem_of_nil.
  - destruct (add_property_ok σ _ o ob sh atom flags Hok How Ha Hf Hn (find_own_none _ _ _ _ _ _ Hok How Ha Hnone))
      as (σ2 & r & E2 & Hok2 & Hoth & Hres). rewrite E in E2. injection E2 as <- <-. destruct Hres as ([v0 Hview] & Hfind & _).
    destruct (find_own_some _ _ _ _ _ Hok2 Ha Hfind) as (ob1 & sh1 & pr & How1 & Hpr & Epr).
    destruct (set_property_value_ok σ1 _ o ob1 sh1 i pr v Hok2 How1 Hpr) as (σ2 & f1 & f2 & w & E2 & Hok3 & Hoth2 & Ef & Hview2); [unfold live_prop; congruence|].
    rewrite Eset in E2. injection E2 as <-. split; [done|]. eapply (views_others σ); [exact Hv|by eapply others_trans|].
    intros pr' fs Ev k w' Hin. rewrite Hview2 in Ev. injection Ev as <- <-. rewrite (owns_view _ _ _ _ How1) in Hview. injection Hview as _ Hview.
    pose proof Hok2 as [Hc2 _]. destruct (hc_shape _ _ _ Hc2 _ _ (proj2 How1)) as [_ Hsh1].
    assert (Ek : prop_key pr = (atom, prop_flags pr)) by (unfold prop_key; by rewrite Epr). rewrite Ek in Ef, Hin.
    pose proof (unique_fields sh1 _ _ _ _ _ _ Hsh1 Ha Ef k w') as [Hu1 Hu2].
    rewrite Ef in Hview. assert (Hin' : (k, w') ∈ f1 \/ (k, w') ∈ f2 \/ is_Some w').
    { apply elem_of_app in Hin as [?|[?|?]%elem_of_cons]; [tauto| |tauto]. right. right. assert (w' = Some v) as -> by congruence. by eexists. }
    assert (Hall : (k, w') ∈ f1 \/ (k, w') ∈ f2 -> (k, w') ∈ fields (sh_prop sh) (obj_prop ob)).
    { intros H. assert (Hk : k.1 <> atom) by tauto. assert (Hin2 : (k, w') ∈ f1 ++ ((atom, prop_flags pr), w) :: f2).
      { rewrite elem_of_app, elem_of_cons. tauto. }
      rewrite Hview in Hin2. apply elem_of_app in Hin2 as [?|Hin2%list_elem_of_singleton]; [done|]. injection Hin2 as -> _. by destruct Hk. }
    destruct Hin' as [H|[H|H]]; [| |done]; apply (owns_set σ o ob sh k w' Hv How), Hall; [by left|by right].
  - destruct (add_property_ok σ _ o ob sh atom flags Hok How Ha Hf Hn (find_own_none _ _ _ _ _ _ Hok How Ha Hnone))
      as (σ2 & r & E2 & Hok2 & Hoth & Hres). rewrite E in E2. injection E2 as <- <-. split; [done|].
    eapply views_others; [exact Hv|exact Hoth|]. rewrite Hres. apply Hv.
  - destruct (find_own_some _ _ _ _ _ Hok Ha Hi) as (ob & sh & pr & How & Hpr & Epr).
    destruct (set_property_value_ok σ _ o ob sh i pr v Hok How Hpr) as (σ2 & f1 & f2 & w & E2 & Hok2 & Hoth & Ef & Hview); [unfold live_prop; congruence|].
    rewrite E in E2. injection E2 as <-. split; [done|]. eapply views_others; [exact Hv|exact Hoth|].
    intros pr' fs Ev k w' Hin. rewrite Hview in Ev. injection Ev as <- <-. apply elem_of_app in Hin as [Hin|[Hin|Hin]%elem_of_cons].
    + eapply owns_set; [exact Hv|exact How|]. rewrite Ef. apply elem_of_app. by left.
    + assert (w' = Some v) as -> by congruence. by eexists.
    + eapply owns_set; [exact Hv|exact How|]. rewrite Ef. apply elem_of_app. right. by right.
  - destruct (find_own_some _ _ _ _ _ Hok Ha Hi) as (ob & sh & pr & How & Hpr & Epr).
    destruct (update_flags_ok σ _ o ob sh i pr flags Hok How Hpr) as (σ2 & r2 & f1 & f2 & w & E2 & Hok2 & Hoth & Ef & Hres); [congruence|done|].
    rewrite E in E2. injection E2 as <- <-. split; [done|]. destruct Hres as [[_ ->]|[_ Hview]]; [done|]. eapply views_others; [exact Hv|exact Hoth|].
    intros pr' fs Ev k w' Hin. rewrite Hview in Ev. injection Ev as <- <-.
    assert (Hin' : exists k', (k', w') ∈ f1 ++ (prop_atom pr, prop_flags pr, w) :: f2).
    { rewrite elem_of_app, elem_of_cons in Hin. destruct Hin as [Hin|[Hin|Hin]].
      - exists k. rewrite elem_of_app. by left.
      - exists (prop_atom pr, prop_flags pr). rewrite elem_of_app, elem_of_cons. right. left. congruence.
      - exists k. rewrite elem_of_app, elem_of_cons. right. by right. }
    destruct Hin' as [k' Hin']. rewrite <- Ef in Hin'. by eapply owns_set.
  - assert (How : exists ob sh, owns σ o ob sh).
    { unfold delete_property in E. destruct (sobjects σ !! o) as [ob|] eqn:Ho; [|done]. cbn [mbind option_bind] in E.
      destruct (shapes σ !! obj_shape ob) as [sh|] eqn:Hs; [|done]. by exists ob, sh. }
    destruct How as (ob & sh & How). destruct (delete_property_ok σ _ o ob sh atom Hok How Ha) as (σ2 & r2 & E2 & Hok2 & Hoth & Hres).
    { intros k w Hin _. by eapply owns_set. }
    rewrite E in E2. injection E2 as <- <-. split; [done|].
    destruct Hres as [(_ & _ & ->)|(f1 & f2 & fl & v & Ef & [(_ & _ & ->)|(_ & [[_ ->]|[_ Hview]])])]; try done.
    eapply views_others; [exact Hv|exact Hoth|]. intros pr fs Ev k w Hin. rewrite Hview in Ev. injection Ev as <- <-.
    apply (owns_set σ o ob sh k w Hv How). rewrite Ef. apply elem_of_app in Hin as [Hin|Hin]; apply elem_of_app; [by left|right; by right].
  - assert (How : exists ob sh l, owns σ o ob sh /\ free_fields (sh_prop sh) (obj_prop ob) = Some l).
    { unfold free_object in E. destruct (sobjects σ !! o) as [ob|] eqn:Ho; [|done]. cbn [mbind option_bind] in E.
      destruct (shapes σ !! obj_shape ob) as [sh|] eqn:Hs; [|done]. cbn [mbind option_bind] in E.
      destruct (free_fields _ _) as [l|] eqn:El; [|done]. by exists ob, sh, l. }
    destruct How as (ob & sh & l & How & Hl). destruct (free_object_ok σ _ o ob sh l Hok How Hl) as (σ2 & E2 & Hok2 & Hoth & Eo).
    rewrite E in E2. injection E2 as <-. split; [done|]. eapply views_others; [exact Hv|exact Hoth|].
    intros pr fs Ev. apply view_owns in Ev as (ob2 & sh2 & [H _] & _). rewrite Eo, lookup_delete_eq in H. done.
Qed.

(** C9: In every state that a program reaches by making objects, adding, setting,
    changing and deleting properties and freeing objects, each reference count of a
    shape is the number of objects that have it, the hashed shapes are on the chain of
    their hash, the references to atoms and prototypes balance, and the properties of
    an object have distinct names and values. *)
Theorem reachable_objects_ok σ : obj_reachable σ -> heap_ok σ (fun _ => 0) /\
  forall o proto fs, obj_view σ o = Some (proto, fs) -> NoDup (fst <$> (fst <$> fs)) /\ forall k w, (k, w) ∈ fs -> is_Some w.
Proof.
  intros Hr. assert (H : heap_ok σ (fun _ => 0) /\ views_set σ).
  { induction Hr as [σ E|σ σ' _ [IH1 IH2] Hstep]; [by apply init_ok|by eapply obj_step_ok]. }
  destruct H as [Hok Hv]. split; [done|]. intros o proto fs E. split; [|by apply (Hv o proto fs)].
  apply view_owns in E as (ob & sh & How & _ & ->). destruct (hc_shape _ _ _ (proj1 Hok) _ _ (proj2 How)) as [_ Hsh]. by apply fields_NoDup.
Qed.
End reach.
