(* ===== verification/ShapeDemo.v ===== *)
(** * Objects that share their shapes: a run

    Two objects of one prototype get the property 5 and share the shape; then one of them
    gets the property 6 and the other loses its property. *)

From stdpp Require Import gmap.
From S2P Require Import Prelude CStr Chain GcHeap ShapeTable ShapeOk ShapeHeapOk ShapeStep ShapeAdd ShapeLaws ShapeUpdate ShapeNew ShapeReach.

(** ** An allocator *)

Definition next_addr (σ : ShapeHeap) : Z :=
  1 + Z.max (map_fold (fun p _ n => Z.max p n) 0 (shapes σ)) (map_fold (fun o _ n => Z.max o n) 0 (sobjects σ)).

#[local] Instance bump : ShapeMalloc := {| sh_malloc σ _ := Some (next_addr σ); sh_realloc _ p _ := Some p |}.

Lemma keys_below {A} (m : gmap Z A) k v : m !! k = Some v -> k <= map_fold (fun p _ n => Z.max p n) 0 m /\ 0 <= map_fold (fun p _ n => Z.max p n) 0 m.
Proof.
  assert (H : (forall k v, m !! k = Some v -> k <= map_fold (fun p _ n => Z.max p n) 0 m) /\ 0 <= map_fold (fun p _ n => Z.max p n) 0 m).
  { apply (map_fold_weak_ind (fun r m => (forall k v, m !! k = Some v -> k <= r) /\ 0 <= r)).
    - split; [|done]. intros i x H. by rewrite lookup_empty in H.
    - intros i x m' r Hi [IH Hr]. split; [|lia]. intros j y [[<- <-]|[_ H]]%lookup_insert_Some; [lia|]. apply IH in H. lia. }
  intros Hk. split; [by apply (proj1 H k v)|apply H].
Qed.

#[local] Instance bump_ok : ShapeMallocOk bump.
Proof.
  split.
  - intros σ n p [= <-]. unfold next_addr. set (a := map_fold _ 0 (shapes σ)). set (b := map_fold _ 0 (sobjects σ)).
    assert (Ha : forall k v, shapes σ !! k = Some v -> k <= a) by (intros k v H; by apply (keys_below (shapes σ) k v)).
    assert (Hb : forall k v, sobjects σ !! k = Some v -> k <= b) by (intros k v H; by apply (keys_below (sobjects σ) k v)).
    assert (H0 : 0 <= a).
    { destruct (decide (shapes σ = ∅)) as [E|[k [v H]]%map_choose]; [|by apply (keys_below (shapes σ) k v)].
      unfold a. by rewrite E, map_fold_empty. }
    split; [lia|]. split.
    + destruct (shapes σ !! _) as [v|] eqn:E; [|done]. apply Ha in E. lia.
    + destruct (sobjects σ !! _) as [v|] eqn:E; [|done]. apply Hb in E. lia.
  - intros σ p n p' [= <-]. by left.
Qed.

(** ** The run *)

Definition num (n : Z) : JSProperty := u_value (JS_MKPTR JS_TAG_UNDEFINED n).

Definition state {A} (r : option (ShapeHeap * A)) : ShapeHeap :=
  match r with Some (σ, _) => σ | None => mk_heap 0 0 0 [] ∅ ∅ [] end.
Definition state' (r : option ShapeHeap) : ShapeHeap := match r with Some σ => σ | None => mk_heap 0 0 0 [] ∅ ∅ [] end.

Definition s0 : ShapeHeap := (init_shape_hash (mk_heap 0 0 0 [] ∅ ∅ [])).1.
Definition s1 : ShapeHeap := state (JS_NewObjectProtoClass s0 0).
Definition s2 : ShapeHeap := state (JS_NewObjectProtoClass s1 0).
Definition s3 : ShapeHeap := state' ('(σ, _) ← add_property s2 2 5 7; set_property_value σ 2 0 (num 0)).
Definition s4 : ShapeHeap := state' ('(σ, _) ← add_property s3 3 5 7; set_property_value σ 3 0 (num 0)).

Lemma reach0 : obj_reachable s0.
Proof. apply reach_init. by vm_compute. Qed.

Lemma reach1 : obj_reachable s1.
Proof. eapply reach_step; [apply reach0|]. eapply (step_new s0 0 s1 2); [done|by vm_compute]. Qed.

Lemma reach2 : obj_reachable s2.
Proof. eapply reach_step; [apply reach1|]. eapply (step_new s1 0 s2 3); [done|by vm_compute]. Qed.

Definition empty_slots : list (option JSProperty) := [None; None].
Definition empty_shape (n : Z) : JSShape := mk_shape n true false 1013841921 3 2 0 0 0 0 [] [0; 0; 0; 0].

Lemma reach3 : obj_reachable s3.
Proof.
  eapply reach_step; [apply reach2|].
  eapply (step_add s2 2 (mk_object 1 empty_slots) (empty_shape 2) 5 7 (num 0) (state (add_property s2 2 5 7)) 0);
    [split; by vm_compute|done|lia|done|by vm_compute..].
Qed.

Lemma reach4 : obj_reachable s4.
Proof.
  eapply reach_step; [apply reach3|].
  eapply (step_add s3 3 (mk_object 1 empty_slots) (empty_shape 1) 5 7 (num 0) (state (add_property s3 3 5 7)) 0);
    [split; by vm_compute|done|lia|done|by vm_compute..].
Qed.

Lemma s4_ok : heap_ok s4 (fun _ => 0).
Proof.
  assert (H : forall σ, obj_reachable σ -> heap_ok σ (fun _ => 0) /\ views_set σ).
  { intros σ Hr. induction Hr as [σ E|σ σ' _ [IH1 IH2] Hstep]; [by apply init_ok|by eapply obj_step_ok]. }
  by apply H, reach4.
Qed.

(** The two objects have the same shape. *)
Definition one_slot : JSObject := mk_object 4 [Some (num 0); None].
Definition one_shape : JSShape :=
  mk_shape 2 true false 4202889229 3 2 1 0 0 0 [mk_shape_property 0 7 5] [0; 1; 0; 0].

Lemma s4_owns2 : owns s4 2 one_slot one_shape.
Proof. split; by vm_compute. Qed.

Lemma s4_owns3 : owns s4 3 one_slot one_shape.
Proof. split; by vm_compute. Qed.

Lemma one_field k w : (k, w) ∈ fields (sh_prop one_shape) (obj_prop one_slot) -> k = (5, 7) /\ w = Some (num 0).
Proof. intros H%list_elem_of_singleton. by injection H as -> ->. Qed.

Lemma reachable_objects_ok_witness : heap_ok s4 (fun _ => 0) /\
  forall o proto fs, obj_view s4 o = Some (proto, fs) -> NoDup (fst <$> (fst <$> fs)) /\ forall k w, (k, w) ∈ fs -> is_Some w.
Proof. exact (reachable_objects_ok s4 reach4). Defined.


Lemma add_property_correct_witness : sh_ref_count one_shape = 2 /\
  exists σ' r, add_property s4 2 6 7 = Some (σ', r) /\ heap_ok σ' (fun _ => 0) /\ others 2 s4 σ' /\
    match r with
    | Some i => (exists v, obj_view σ' 2 = Some (0, [((5, 7), Some (num 0)); ((6, 7), v)])) /\
        find_own_property σ' 2 6 = Some (Some i) /\
        (exists ob', sobjects σ' !! 2 = Some ob' /\ 0 <= i < zlen (obj_prop ob'))
    | None => obj_view σ' 2 = obj_view s4 2
    end.
Proof.
  split; [done|]. apply (add_property_correct s4 (fun _ => 0) 2 one_slot one_shape 6 7 s4_ok s4_owns2); [done|lia|done|].
  intros k v H. apply one_field in H as [-> _]. done.
Defined.

Lemma find_own_property_correct_witness : exists r, find_own_property s4 2 5 = Some r /\
  match r with
  | Some i => exists flags v, znth (obj_prop one_slot) i = Some v /\
      (forall k w, (k, w) ∈ fields (sh_prop one_shape) (obj_prop one_slot) /\ k.1 = 5 <-> k = (5, flags) /\ w = v)
  | None => forall k w, (k, w) ∈ fields (sh_prop one_shape) (obj_prop one_slot) -> k.1 <> 5
  end.
Proof. exact (find_own_property_correct s4 (fun _ => 0) 2 one_slot one_shape 5 s4_ok s4_owns2 ltac:(done)). Defined.

Lemma delete_property_correct_witness :
  exists σ' r, delete_property s4 3 5 = Some (σ', r) /\ heap_ok σ' (fun _ => 0) /\ others 3 s4 σ' /\
    ((forall k w, (k, w) ∈ fields (sh_prop one_shape) (obj_prop one_slot) -> k.1 <> 5) /\ r = 1 /\ σ' = s4 \/
     exists f1 f2 flags v, fields (sh_prop one_shape) (obj_prop one_slot) = f1 ++ ((5, flags), Some v) :: f2 /\
       (Z.land flags JS_PROP_CONFIGURABLE = 0 /\ r = 0 /\ σ' = s4 \/
        Z.land flags JS_PROP_CONFIGURABLE <> 0 /\
          (r = -1 /\ σ' = s4 \/ r = 1 /\ obj_view σ' 3 = Some (0, f1 ++ f2)))).
Proof.
  apply (delete_property_correct s4 (fun _ => 0) 3 one_slot one_shape 5 s4_ok s4_owns3); [done|].
  intros k w H _. apply one_field in H as [_ ->]. by eexists.
Defined.

Lemma update_property_flags_correct_witness :
  exists σ' r f1 f2 v, js_update_property_flags s4 2 0 3 = Some (σ', r) /\ heap_ok σ' (fun _ => 0) /\ others 2 s4 σ' /\
    fields (sh_prop one_shape) (obj_prop one_slot) = f1 ++ ((5, 7), v) :: f2 /\
    (r = -1 /\ σ' = s4 \/ r = 0 /\ obj_view σ' 2 = Some (0, f1 ++ ((5, 3), v) :: f2)).
Proof.
  apply (update_property_flags_correct s4 (fun _ => 0) 2 one_slot one_shape 0 (mk_shape_property 0 7 5) 3 s4_ok s4_owns2);
    [done|done|lia].
Defined.
