(* ===== verification/AtomTable.v ===== *)
(** * The table of atoms (quickjs.c)

    An atom is the index of an interned string or of a symbol in [atom_array], or an integer
    with the top bit set.  A free entry of the array holds the next free index in a word with
    the low bit set, another entry the (even) address of the string.  The string atoms are in
    a hash table whose chains run through [hash_next]; the [hash_next] of a symbol is its own
    index. *)

From Stdlib Require Import Strings.String Strings.Ascii.
From stdpp Require Import gmap.
From S2P Require Import Prelude Chain.

(** ** Strings *)

(** [chars] are the code units: bytes, or 16 bit units when [is_wide_char]. *)
Record JSString := mk_string {
  str_ref_count : Z;
  is_wide_char : bool;
  chars : list Z;
  hash : Z;
  atom_type : Z;
  hash_next : Z
}.

Definition str_len (p : JSString) : Z := zlen (chars p).
Definition set_ref_count (n : Z) (p : JSString) : JSString :=
  mk_string n (is_wide_char p) (chars p) (hash p) (atom_type p) (hash_next p).
Definition set_atom_type (t : Z) (p : JSString) : JSString :=
  mk_string (str_ref_count p) (is_wide_char p) (chars p) (hash p) t (hash_next p).
Definition set_hash_next (n : Z) (p : JSString) : JSString :=
  mk_string (str_ref_count p) (is_wide_char p) (chars p) (hash p) (atom_type p) n.

Definition JS_ATOM_TYPE_STRING : Z := 1.
Definition JS_ATOM_TYPE_GLOBAL_SYMBOL : Z := 2.
Definition JS_ATOM_TYPE_SYMBOL : Z := 3.
Definition JS_ATOM_TYPE_PRIVATE : Z := 4.
Definition JS_ATOM_HASH_SYMBOL : Z := 0.
Definition JS_ATOM_HASH_PRIVATE : Z := 1.
Definition JS_ATOM_HASH_MASK : Z := Z.shiftl 1 30 - 1.
Definition JS_ATOM_NULL : Z := 0.
Definition JS_ATOM_TAG_INT : Z := Z.shiftl 1 31.
Definition JS_ATOM_MAX_INT : Z := JS_ATOM_TAG_INT - 1.
Definition JS_ATOM_MAX : Z := Z.shiftl 1 30 - 1.
Definition JS_ATOM_COUNT_RESIZE (n : Z) : Z := n * 2.

(** The predefined atoms, from index 1. *)
Definition js_atom_init : list string := [
  "null"; "false"; "true"; "if"; "else"; "return"; "var"; "this"; "delete"; "void"; "typeof";
  "new"; "in"; "instanceof"; "do"; "while"; "for"; "break"; "continue"; "switch"; "case";
  "default"; "throw"; "try"; "catch"; "finally"; "function"; "debugger"; "with"; "class";
  "const"; "enum"; "export"; "extends"; "import"; "super"; "implements"; "interface"; "let";
  "package"; "private"; "protected"; "public"; "static"; "yield"; "await"; ""; "length";
  "fileName"; "lineNumber"; "message"; "errors"; "stack"; "name"; "toString"; "toLocaleString";
  "valueOf"; "eval"; "prototype"; "constructor"; "configurable"; "writable"; "enumerable";
  "value"; "get"; "set"; "of"; "__proto__"; "undefined"; "number"; "boolean"; "string"; "object";
  "symbol"; "integer"; "unknown"; "arguments"; "callee"; "caller"; "<eval>"; "<ret>"; "<var>";
  "<arg_var>"; "<with>"; "lastIndex"; "target"; "index"; "input"; "defineProperties"; "apply";
  "join"; "concat"; "split"; "construct"; "getPrototypeOf"; "setPrototypeOf"; "isExtensible";
  "preventExtensions"; "has"; "deleteProperty"; "defineProperty"; "getOwnPropertyDescriptor";
  "ownKeys"; "add"; "done"; "next"; "values"; "source"; "flags"; "global"; "unicode"; "raw";
  "new.target"; "this.active_func"; "<home_object>"; "<computed_field>";
  "<static_computed_field>"; "<class_fields_init>"; "<brand>"; "#constructor"; "as"; "from";
  "meta"; "*default*"; "*"; "Module"; "then"; "resolve"; "reject"; "promise"; "proxy"; "revoke";
  "async"; "exec"; "groups"; "status"; "reason"; "globalThis"; "bigint"; "bigfloat";
  "bigdecimal"; "roundingMode"; "maximumSignificantDigits"; "maximumFractionDigits"; "not-equal";
  "timed-out"; "ok"; "toJSON"; "Object"; "Array"; "Error"; "Number"; "String"; "Boolean";
  "Symbol"; "Arguments"; "Math"; "JSON"; "Date"; "Function"; "GeneratorFunction";
  "ForInIterator"; "RegExp"; "ArrayBuffer"; "SharedArrayBuffer"; "Uint8ClampedArray";
  "Int8Array"; "Uint8Array"; "Int16Array"; "Uint16Array"; "Int32Array"; "Uint32Array";
  "BigInt64Array"; "BigUint64Array"; "Float32Array"; "Float64Array"; "DataView"; "BigInt";
  "BigFloat"; "BigFloatEnv"; "BigDecimal"; "OperatorSet"; "Operators"; "Map"; "Set"; "WeakMap";
  "WeakSet"; "Map Iterator"; "Set Iterator"; "Array Iterator"; "String Iterator";
  "RegExp String Iterator"; "Generator"; "Proxy"; "Promise"; "PromiseResolveFunction";
  "PromiseRejectFunction"; "AsyncFunction"; "AsyncFunctionResolve"; "AsyncFunctionReject";
  "AsyncGeneratorFunction"; "AsyncGenerator"; "EvalError"; "RangeError"; "ReferenceError";
  "SyntaxError"; "TypeError"; "URIError"; "InternalError"; "<brand>"; "Symbol.toPrimitive";
  "Symbol.iterator"; "Symbol.match"; "Symbol.matchAll"; "Symbol.replace"; "Symbol.search";
  "Symbol.split"; "Symbol.toStringTag"; "Symbol.isConcatSpreadable"; "Symbol.hasInstance";
  "Symbol.species"; "Symbol.unscopables"; "Symbol.asyncIterator"; "Symbol.operatorSet"
]%string.

Definition JS_ATOM_empty_string : Z := 47.
Definition JS_ATOM_Private_brand : Z := 210.
Definition JS_ATOM_Symbol_toPrimitive : Z := 211.
Definition JS_ATOM_END : Z := Eval vm_compute in 1 + zlen js_atom_init.

Definition int32 (v : Z) : Z := s32 v.

Definition JS_AtomIsConst (v : Z) : bool := int32 v <? JS_ATOM_END.
Definition JS_AtomIsTaggedInt (v : Z) : bool := negb (Z.land v JS_ATOM_TAG_INT =? 0).
Definition JS_AtomFromUInt32 (v : Z) : Z := Z.lor v JS_ATOM_TAG_INT.
Definition JS_AtomToUInt32 (atom : Z) : Z := Z.land atom (u32 (Z.lnot JS_ATOM_TAG_INT)).

Definition is_num (c : Z) : bool := (48 <=? c) && (c <=? 57).

Fixpoint num_string_loop (l : list Z) (n : Z) : option Z :=
  match l with
  | [] => Some n
  | c :: l =>
      if negb (is_num c) then None
      else
        let n64 := u64 (n * 10 + (c - 48)) in
        if negb (Z.shiftr n64 32 =? 0) then None else num_string_loop l (u32 n64)
  end.

(** The number of a string of digits, [FALSE] being [None]. *)
Definition is_num_string (p : JSString) : option Z :=
  let len := str_len p in
  if (len =? 0) || (len >? 10) then None
  else
    match chars p with
    | c :: l =>
        if is_num c then
          if c =? 48 then (if negb (len =? 1) then None else Some 0)
          else num_string_loop l (c - 48)
        else None
    | [] => None
    end.

Definition hash_string (str : JSString) (h : Z) : Z := foldl (fun h c => u32 (h * 263 + c)) h (chars str).

(** The first difference of two strings: its sign is the result of [memcmp]. *)
Fixpoint units_cmp (p1 p2 : list Z) (len : nat) : option Z :=
  match len, p1, p2 with
  | O, _, _ => Some 0
  | S len, c1 :: p1, c2 :: p2 => if c1 - c2 =? 0 then units_cmp p1 p2 len else Some (c1 - c2)
  | _, _, _ => None
  end.

Definition js_string_memcmp (p1 p2 : JSString) (len : Z) : option Z :=
  units_cmp (chars p1) (chars p2) (Z.to_nat len).

(** ** The table *)

Record JSAtoms := mk_atoms {
  atom_hash_size : Z;
  atom_count : Z;
  atom_size : Z;
  atom_count_resize : Z;
  atom_hash : list Z;
  atom_array : list Z;
  atom_free_index : Z;
  strings : gmap Z JSString
}.

Definition set_strings (m : gmap Z JSString) (σ : JSAtoms) : JSAtoms :=
  mk_atoms (atom_hash_size σ) (atom_count σ) (atom_size σ) (atom_count_resize σ) (atom_hash σ)
    (atom_array σ) (atom_free_index σ) m.
Definition set_hash_table (l : list Z) (σ : JSAtoms) : JSAtoms :=
  mk_atoms (atom_hash_size σ) (atom_count σ) (atom_size σ) (atom_count_resize σ) l
    (atom_array σ) (atom_free_index σ) (strings σ).
Definition set_atom_array (l : list Z) (σ : JSAtoms) : JSAtoms :=
  mk_atoms (atom_hash_size σ) (atom_count σ) (atom_size σ) (atom_count_resize σ) (atom_hash σ)
    l (atom_free_index σ) (strings σ).
Definition set_free_index (i : Z) (σ : JSAtoms) : JSAtoms :=
  mk_atoms (atom_hash_size σ) (atom_count σ) (atom_size σ) (atom_count_resize σ) (atom_hash σ)
    (atom_array σ) i (strings σ).
Definition set_atom_count (n : Z) (σ : JSAtoms) : JSAtoms :=
  mk_atoms (atom_hash_size σ) n (atom_size σ) (atom_count_resize σ) (atom_hash σ)
    (atom_array σ) (atom_free_index σ) (strings σ).

Definition get_string (σ : JSAtoms) (p : Z) : option JSString := strings σ !! p.
Definition put_string (σ : JSAtoms) (p : Z) (s : JSString) : JSAtoms := set_strings (<[p := s]> (strings σ)) σ.

Definition atom_get_free (p : Z) : Z := u32 (Z.shiftr p 1).
Definition atom_is_free (p : Z) : bool := negb (Z.land p 1 =? 0).
Definition atom_set_free (v : Z) : Z := Z.lor (Z.shiftl v 1) 1.

(** The allocator: the address of a new block of some size, or a failure. *)
Class JSMalloc := js_malloc : JSAtoms -> Z -> option Z.

(** The addresses of the strings are new, even and not NULL. *)
Class JSMallocOk (M : JSMalloc) : Prop := {
  js_malloc_fresh σ size p : js_malloc σ size = Some p -> strings σ !! p = None;
  js_malloc_even σ size p : js_malloc σ size = Some p -> atom_is_free p = false /\ p <> 0
}.

Definition sizeof_JSString : Z := 24.
Definition string_size (len : Z) (is_wide_char : bool) : Z :=
  sizeof_JSString + Z.shiftl len (Z.b2z is_wide_char) + 1 - Z.b2z is_wide_char.

Section atoms.
Context {M : JSMalloc}.

Definition js_alloc_string_rt (σ : JSAtoms) (content : list Z) (is_wide_char : bool) : JSAtoms * Z :=
  match js_malloc σ (string_size (zlen content) is_wide_char) with
  | None => (σ, 0)
  | Some p => (put_string σ p (mk_string 1 is_wide_char content 0 0 0), p)
  end.

(** *** The hash table *)

(** One chain of the old table, entry by entry, into the new one. *)
Fixpoint rehash_chain (fuel : nat) (σ : JSAtoms) (new_hash : list Z) (new_hash_mask h : Z)
  : option (JSAtoms * list Z) :=
  if h =? 0 then Some (σ, new_hash)
  else
    match fuel with
    | O => None
    | S fuel' =>
        p ← znth (atom_array σ) h;
        s ← get_string σ p;
        let hash_next1 := hash_next s in
        let j := Z.land (hash s) new_hash_mask in
        n ← znth new_hash j;
        let σ := put_string σ p (set_hash_next n s) in
        new_hash ← zupd new_hash j h;
        rehash_chain fuel' σ new_hash new_hash_mask hash_next1
    end.

Fixpoint rehash_all (σ : JSAtoms) (old new_hash : list Z) (new_hash_mask : Z) : option (JSAtoms * list Z) :=
  match old with
  | [] => Some (σ, new_hash)
  | h :: old =>
      '(σ, new_hash) ← rehash_chain (length (atom_array σ)) σ new_hash new_hash_mask h;
      rehash_all σ old new_hash new_hash_mask
  end.

Definition JS_ResizeAtomHash (σ : JSAtoms) (new_hash_size : Z) : option (JSAtoms * Z) :=
  if Z.land new_hash_size (new_hash_size - 1) =? 0 then
    match js_malloc σ (4 * new_hash_size) with
    | None => Some (σ, -1)
    | Some _ =>
        old ← zslice (atom_hash σ) 0 (atom_hash_size σ);
        '(σ, new_hash) ← rehash_all σ old (replicate (Z.to_nat new_hash_size) 0) (u32 (new_hash_size - 1));
        Some (mk_atoms new_hash_size (atom_count σ) (atom_size σ) (JS_ATOM_COUNT_RESIZE new_hash_size)
                new_hash (atom_array σ) (atom_free_index σ) (strings σ), 0)
    end
  else None.

(** [h & (rt->atom_hash_size - 1)] *)
Definition bucket_of (σ : JSAtoms) (h : Z) : Z := Z.land h (u32 (atom_hash_size σ - 1)).

(** The search of [p] in its chain from [i]. *)
Fixpoint atom_index_loop (fuel : nat) (σ : JSAtoms) (p i : Z) : option Z :=
  p1 ← znth (atom_array σ) i;
  if p1 =? p then Some i
  else if i =? 0 then None
  else
    match fuel with
    | O => None
    | S fuel' => s1 ← get_string σ p1; atom_index_loop fuel' σ p (hash_next s1)
    end.

Definition js_get_atom_index (σ : JSAtoms) (p : Z) : option Z :=
  s ← get_string σ p;
  if negb (atom_type s =? JS_ATOM_TYPE_SYMBOL) then
    i ← znth (atom_hash σ) (bucket_of σ (hash s));
    atom_index_loop (length (atom_array σ)) σ p i
  else Some (hash_next s).

(** *** Freeing *)

(** The entry before [p] in its chain and the index of [p]; the head of the chain is [i]. *)
Fixpoint unlink_loop (fuel : nat) (σ : JSAtoms) (p i p1 : Z) : option (Z * JSAtoms) :=
  if i =? 0 then None
  else
    match fuel with
    | O => None
    | S fuel' =>
        let p0 := p1 in
        s1 ← get_string σ p1;
        let i := hash_next s1 in
        p1 ← znth (atom_array σ) i;
        if p1 =? p then
          s ← get_string σ p1;
          s0 ← get_string σ p0;
          Some (i, put_string σ p0 (set_hash_next (hash_next s) s0))
        else unlink_loop fuel' σ p i p1
    end.

Definition JS_FreeAtomStruct (σ : JSAtoms) (p : Z) : option JSAtoms :=
  s ← get_string σ p;
  '(i, σ) ← (if negb (atom_type s =? JS_ATOM_TYPE_SYMBOL) then
      let h0 := bucket_of σ (hash s) in
      i ← znth (atom_hash σ) h0;
      p1 ← znth (atom_array σ) i;
      if p1 =? p then
        l ← zupd (atom_hash σ) h0 (hash_next s);
        Some (i, set_hash_table l σ)
      else unlink_loop (length (atom_array σ)) σ p i p1
    else Some (hash_next s, σ));
  array ← zupd (atom_array σ) i (atom_set_free (atom_free_index σ));
  let σ := set_free_index i (set_atom_array array σ) in
  let σ := set_strings (delete p (strings σ)) σ in
  let σ := set_atom_count (atom_count σ - 1) σ in
  if atom_count σ >=? 0 then Some σ else None.

Definition js_free_string (σ : JSAtoms) (p : Z) : option JSAtoms :=
  s ← get_string σ p;
  let s := set_ref_count (str_ref_count s - 1) s in
  let σ := put_string σ p s in
  if str_ref_count s <=? 0 then
    if negb (atom_type s =? 0) then JS_FreeAtomStruct σ p
    else Some (set_strings (delete p (strings σ)) σ)
  else Some σ.

Definition js_free_atom (σ : JSAtoms) (i : Z) : option JSAtoms :=
  p ← znth (atom_array σ) i;
  s ← get_string σ p;
  let s := set_ref_count (str_ref_count s - 1) s in
  let σ := put_string σ p s in
  if str_ref_count s >? 0 then Some σ else JS_FreeAtomStruct σ p.

Definition JS_FreeAtom (σ : JSAtoms) (v : Z) : option JSAtoms :=
  if negb (JS_AtomIsConst v) then js_free_atom σ v else Some σ.

Definition JS_DupAtom (σ : JSAtoms) (v : Z) : option JSAtoms :=
  if negb (JS_AtomIsConst v) then
    p ← znth (atom_array σ) v;
    s ← get_string σ p;
    Some (put_string σ p (set_ref_count (str_ref_count s + 1) s))
  else Some σ.

(** *** Interning *)

(** The registered atom with the content of [str]. *)
Fixpoint find_atom_loop (fuel : nat) (σ : JSAtoms) (str : JSString) (t h i : Z) : option Z :=
  if i =? 0 then Some 0
  else
    match fuel with
    | O => None
    | S fuel' =>
        q ← znth (atom_array σ) i;
        p ← get_string σ q;
        if (hash p =? h) && (atom_type p =? t) && (str_len p =? str_len str) then
          c ← js_string_memcmp p str (str_len str);
          if c =? 0 then Some i else find_atom_loop fuel' σ str t h (hash_next p)
        else find_atom_loop fuel' σ str t h (hash_next p)
    end.

(** The free entries from [i] to the end of the array: each leads to the next one. *)
Fixpoint free_entries (n : nat) (i new_size : Z) : list Z :=
  match n with
  | O => []
  | S n' => atom_set_free (if i =? new_size - 1 then 0 else i + 1) :: free_entries n' (i + 1) new_size
  end.

(** More entries, when none is free; [Some None] is [goto fail].  The product is an [int]. *)
Definition grow_atoms (σ : JSAtoms) : option (option JSAtoms) :=
  if atom_size σ * 3 >? INT32_MAX then None
  else
  let new_size := Z.max 211 (atom_size σ * 3 / 2) in
  if new_size >? JS_ATOM_MAX then Some None
  else
    match js_malloc σ (8 * new_size) with
    | None => Some None
    | Some _ =>
        let start := atom_size σ in
        let fill (σ : JSAtoms) (array : list Z) (start : Z) :=
          mk_atoms (atom_hash_size σ) (atom_count σ) new_size (atom_count_resize σ) (atom_hash σ)
            (array ++ free_entries (Z.to_nat (new_size - start)) start new_size) start (strings σ) in
        if start =? 0 then
          match js_malloc σ sizeof_JSString with
          | None => Some None
          | Some p =>
              let σ := put_string σ p (mk_string 1 false [] 0 JS_ATOM_TYPE_SYMBOL 0) in
              Some (Some (fill (set_atom_count (atom_count σ + 1) σ) [p] 1))
          end
        else Some (Some (fill σ (atom_array σ) start))
    end.

(** The string of the new atom: [str] itself, or a copy when it is one already. *)
Inductive atom_string := Fail | Null | Str (σ : JSAtoms) (p : Z).

Definition new_atom_string (σ : JSAtoms) (str t : Z) : option atom_string :=
  if str =? 0 then
    Some (match js_malloc σ sizeof_JSString with
          | None => Null
          | Some p => Str (put_string σ p (mk_string 1 true [] 0 0 0)) p
          end)
  else
    s ← get_string σ str;
    if atom_type s =? 0 then Some (Str (put_string σ str (set_atom_type t s)) str)
    else
      match js_malloc σ (string_size (str_len s) (is_wide_char s)) with
      | None => Some Fail
      | Some p =>
          σ ← js_free_string (put_string σ p (mk_string 1 (is_wide_char s) (chars s) 0 0 0)) str;
          Some (Str σ p)
      end.

(** [fail:] and [done:] free the string. *)
Definition release (σ : JSAtoms) (str i : Z) : option (JSAtoms * Z) :=
  if str =? 0 then Some (σ, i) else σ ← js_free_string σ str; Some (σ, i).

(** The atom of [p] in the first free entry, and in its chain. *)
Definition register_atom (σ : JSAtoms) (p h h1 t : Z) : option (JSAtoms * Z) :=
  let i := atom_free_index σ in
  e ← znth (atom_array σ) i;
  array ← zupd (atom_array σ) i p;
  let σ := set_atom_array array (set_free_index (atom_get_free e) σ) in
  s ← get_string σ p;
  let s := mk_string (str_ref_count s) (is_wide_char s) (chars s) h t i in
  let σ := set_atom_count (atom_count σ + 1) (put_string σ p s) in
  if negb (t =? JS_ATOM_TYPE_SYMBOL) then
    n ← znth (atom_hash σ) h1;
    let σ := put_string σ p (set_hash_next n s) in
    l ← zupd (atom_hash σ) h1 i;
    let σ := set_hash_table l σ in
    if atom_count σ >=? atom_count_resize σ then
      '(σ, _) ← JS_ResizeAtomHash σ (atom_hash_size σ * 2);
      Some (σ, i)
    else Some (σ, i)
  else Some (σ, i).

(** The string [str] becomes a new atom of hash [h]. *)
Definition add_atom (σ : JSAtoms) (str h h1 t : Z) : option (JSAtoms * Z) :=
  grown ← (if atom_free_index σ =? 0 then grow_atoms σ else Some (Some σ));
  match grown with
  | None => release σ str JS_ATOM_NULL
  | Some σ =>
      r ← new_atom_string σ str t;
      match r with
      | Fail => release σ str JS_ATOM_NULL
      | Null => Some (σ, JS_ATOM_NULL)
      | Str σ p => register_atom σ p h h1 t
      end
  end.

Definition JS_NewAtom (σ : JSAtoms) (str t : Z) : option (JSAtoms * Z) :=
  if t <? JS_ATOM_TYPE_SYMBOL then
    s ← get_string σ str;
    if atom_type s =? t then
      i ← js_get_atom_index σ str;
      Some (if JS_AtomIsConst i then put_string σ str (set_ref_count (str_ref_count s - 1) s) else σ, i)
    else
      let h := Z.land (hash_string s t) JS_ATOM_HASH_MASK in
      let h1 := bucket_of σ h in
      i ← znth (atom_hash σ) h1;
      i ← find_atom_loop (length (atom_array σ)) σ s t h i;
      if negb (i =? 0) then
        σ ← JS_DupAtom σ i;
        release σ str i
      else add_atom σ str h h1 t
  else if t =? JS_ATOM_TYPE_SYMBOL then add_atom σ str JS_ATOM_HASH_SYMBOL 0 JS_ATOM_TYPE_SYMBOL
  else add_atom σ str JS_ATOM_HASH_PRIVATE 0 JS_ATOM_TYPE_SYMBOL.

Definition JS_NewAtomInit (σ : JSAtoms) (str : list Z) (t : Z) : option (JSAtoms * Z) :=
  let '(σ, p) := js_alloc_string_rt σ str false in
  if p =? 0 then Some (σ, JS_ATOM_NULL) else JS_NewAtom σ p t.

(** A string of the program that names a property: small numbers are not interned. *)
Definition JS_NewAtomStr (σ : JSAtoms) (p : Z) : option (JSAtoms * Z) :=
  s ← get_string σ p;
  match is_num_string s with
  | Some n =>
      if n <=? JS_ATOM_MAX_INT then
        σ ← js_free_string σ p;
        Some (σ, JS_AtomFromUInt32 n)
      else JS_NewAtom σ p JS_ATOM_TYPE_STRING
  | None => JS_NewAtom σ p JS_ATOM_TYPE_STRING
  end.

(** *** The predefined atoms *)

Definition string_units (s : string) : list Z := map (fun c => Z.of_N (N_of_ascii c)) (list_ascii_of_string s).

Fixpoint init_atoms_loop (σ : JSAtoms) (i : Z) (l : list string) : option (JSAtoms * Z) :=
  match l with
  | [] => Some (σ, 0)
  | s :: l =>
      let t := if i =? JS_ATOM_Private_brand then JS_ATOM_TYPE_PRIVATE
               else if i >=? JS_ATOM_Symbol_toPrimitive then JS_ATOM_TYPE_SYMBOL
               else JS_ATOM_TYPE_STRING in
      '(σ, a) ← JS_NewAtomInit σ (string_units s) t;
      if a =? JS_ATOM_NULL then Some (σ, -1) else init_atoms_loop σ (i + 1) l
  end.

Definition JS_InitAtoms (strings : gmap Z JSString) : option (JSAtoms * Z) :=
  let σ := mk_atoms 0 0 0 0 [] [] 0 strings in
  '(σ, r) ← JS_ResizeAtomHash σ 256;
  if negb (r =? 0) then Some (σ, -1) else init_atoms_loop σ 1 js_atom_init.
End atoms.
