(* ===== verification/AtomOk.v ===== *)
(** * The invariant of the atom table

    Every word of [atom_array] is a free entry, on the chain of free entries, or the address
    of a string; the string atoms are on the chain of their hash, each content once. *)

From stdpp Require Import gmap.
From S2P Require Import Prelude Chain AtomTable.

(** ** Words and masks *)

Lemma atom_set_free_odd v : atom_is_free (atom_set_free v) = true.
Proof.
  unfold atom_is_free, atom_set_free. apply negb_true_iff, Z.eqb_neq. rewrite Z.land_lor_distr_l.
  intros E%Z.lor_eq_0_iff. destruct E as [_ E]. by vm_compute in E.
Qed.

Lemma atom_get_set_free v : 0 <= v < 2 ^ 32 -> atom_get_free (atom_set_free v) = v.
Proof.
  intros Hv. unfold atom_get_free, atom_set_free. rewrite Z.shiftr_lor, Z.shiftr_shiftl_l by lia.
  change (Z.shiftr 1 1) with 0. rewrite Z.lor_0_r, Z.sub_diag, Z.shiftl_0_r. apply u32_small. lia.
Qed.

Lemma land_pow2_mask x k : 0 <= k -> 2 ^ k <= 2 ^ 30 -> Z.land x (u32 (2 ^ k - 1)) = x mod 2 ^ k.
Proof.
  intros Hk Hm. rewrite u32_small by (pose proof (Z.pow_pos_nonneg 2 k); lia).
  rewrite <- Z.land_ones by done. f_equal. rewrite Z.ones_equiv. lia.
Qed.

Lemma units_cmp_equal p1 p2 : length p1 = length p2 ->
  exists c, units_cmp p1 p2 (length p2) = Some c /\ (c = 0 <-> p1 = p2).
Proof.
  revert p2. induction p1 as [|a p1 IH]; intros [|b p2] E; try discriminate E; cbn [units_cmp length]; [by exists 0|].
  injection E as E.
  destruct (Z.eqb_spec (a - b) 0) as [H|H].
  - destruct (IH p2 E) as (c & -> & Hc). exists c. split; [done|]. rewrite Hc.
    split; [intros ->; f_equal; lia|by intros [= _ ->]].
  - exists (a - b). split; [done|]. split; [done|]. intros [= -> _]. lia.
Qed.

(** ** The invariant *)

(** The string of the atom [i], the next one in its chain, and the next free entry. *)
Definition atom (σ : JSAtoms) (i : Z) : option JSString := p ← znth (atom_array σ) i; strings σ !! p.
Definition next_atom (σ : JSAtoms) (i : Z) : option Z := hash_next <$> atom σ i.
Definition next_free (σ : JSAtoms) (i : Z) : option Z :=
  p ← znth (atom_array σ) i; if atom_is_free p then Some (atom_get_free p) else None.

(** What the table says of an atom: [hash_next] is its own business. *)
Definition content (σ : JSAtoms) (i : Z) : option (Z * list Z) := (fun s => (atom_type s, chars s)) <$> atom σ i.

Definition atom_hash_of (s : JSString) : Z := Z.land (hash_string s (atom_type s)) JS_ATOM_HASH_MASK.

Definition interned (s : JSString) : Prop :=
  atom_type s = JS_ATOM_TYPE_STRING \/ atom_type s = JS_ATOM_TYPE_GLOBAL_SYMBOL.

(** [fl] are the free entries in their order, [bs j] the chain of the hash [j]. *)
Record atoms_ok (σ : JSAtoms) (fl : list Z) (bs : Z -> list Z) : Prop := {
  ok_hash_size : exists k, 0 <= k /\ atom_hash_size σ = 2 ^ k /\ 2 ^ k <= 2 ^ 30;
  ok_resize : atom_count_resize σ = JS_ATOM_COUNT_RESIZE (atom_hash_size σ);
  ok_hash_len : zlen (atom_hash σ) = atom_hash_size σ;
  ok_array_len : zlen (atom_array σ) = atom_size σ;
  ok_size_max : atom_size σ <= JS_ATOM_MAX;
  ok_count : atom_count σ + zlen fl = atom_size σ;
  ok_address p s : strings σ !! p = Some s -> atom_is_free p = false /\ p <> 0;
  ok_entry i p : znth (atom_array σ) i = Some p -> atom_is_free p = false -> is_Some (strings σ !! p);
  ok_inj i j p : znth (atom_array σ) i = Some p -> znth (atom_array σ) j = Some p -> atom_is_free p = false -> i = j;
  ok_zero p : znth (atom_array σ) 0 = Some p -> atom_is_free p = false;
  ok_free : ichain (next_free σ) (atom_free_index σ) fl;
  ok_free_nodup : NoDup fl;
  ok_free_all i : i ∈ fl <-> is_Some (next_free σ i);
  ok_chain j h : znth (atom_hash σ) j = Some h -> ichain (next_atom σ) h (bs j);
  ok_chain_nodup j : NoDup (bs j);
  ok_bucket j i : i ∈ bs j <-> 0 <= j < atom_hash_size σ /\
    exists s, atom σ i = Some s /\ interned s /\ bucket_of σ (hash s) = j;
  ok_kind i s : atom σ i = Some s ->
    atom_type s = JS_ATOM_TYPE_SYMBOL /\ hash_next s = i \/ i <> 0 /\ interned s /\ hash s = atom_hash_of s;
  ok_unique i j s s' : atom σ i = Some s -> atom σ j = Some s' -> interned s ->
    atom_type s = atom_type s' -> chars s = chars s' -> i = j;
  ok_atoms p s : strings σ !! p = Some s -> atom_type s <> 0 -> exists i, znth (atom_array σ) i = Some p
}.

Lemma interned_not_symbol s : interned s -> atom_type s <> JS_ATOM_TYPE_SYMBOL.
Proof. intros [-> | ->]; done. Qed.

Lemma bucket_range σ fl bs h : atoms_ok σ fl bs -> 0 <= bucket_of σ h < atom_hash_size σ.
Proof.
  intros Hok. destruct (ok_hash_size _ _ _ Hok) as (k & Hk & E & Hm). unfold bucket_of. rewrite E.
  rewrite land_pow2_mask by done. apply Z.mod_pos_bound. apply Z.pow_pos_nonneg; lia.
Qed.

Lemma bucket_head σ fl bs h : atoms_ok σ fl bs -> exists i, znth (atom_hash σ) (bucket_of σ h) = Some i.
Proof.
  intros Hok. apply znth_is_Some. rewrite (ok_hash_len _ _ _ Hok). by eapply bucket_range.
Qed.

(** Every index is a free entry or an atom. *)
Lemma entry_cases σ fl bs i : atoms_ok σ fl bs -> 0 <= i < atom_size σ ->
  i ∈ fl \/ exists p s, znth (atom_array σ) i = Some p /\ strings σ !! p = Some s /\ atom_is_free p = false.
Proof.
  intros Hok Hi. destruct (znth_is_Some (atom_array σ) i) as [p Hp]; [by rewrite (ok_array_len _ _ _ Hok)|].
  destruct (atom_is_free p) eqn:E.
  - left. apply (ok_free_all _ _ _ Hok). unfold next_free. rewrite Hp. cbn. rewrite E. by eexists.
  - right. destruct (ok_entry _ _ _ Hok i p Hp E) as [s Hs]. by exists p, s.
Qed.

Lemma atom_Some σ i s : atom σ i = Some s -> exists p, znth (atom_array σ) i = Some p /\ strings σ !! p = Some s.
Proof. unfold atom. destruct (znth (atom_array σ) i) as [p|]; [|done]. cbn. intros ?. by exists p. Qed.

(** The index of an address. *)
Lemma atom_at σ fl bs p s i : atoms_ok σ fl bs -> strings σ !! p = Some s -> znth (atom_array σ) i = Some p ->
  atom σ i = Some s.
Proof. intros _ Hs Hp. unfold atom. rewrite Hp. done. Qed.

(** ** Writing one string *)

Lemma atom_put σ p s i : atom (put_string σ p s) i =
  q ← znth (atom_array σ) i; if decide (q = p) then Some s else strings σ !! q.
Proof.
  unfold atom, put_string. cbn [atom_array strings set_strings]. destruct (znth (atom_array σ) i) as [q|]; [|done].
  cbn [mbind option_bind]. case_decide as E; [subst; by rewrite lookup_insert_eq|by rewrite lookup_insert_ne].
Qed.

(** Only the reference count of a string changes. *)
Lemma put_count_ok σ fl bs p s n : atoms_ok σ fl bs -> strings σ !! p = Some s ->
  atoms_ok (put_string σ p (set_ref_count n s)) fl bs /\ forall i, content (put_string σ p (set_ref_count n s)) i = content σ i.
Proof.
  intros Hok Hs. set (σ' := put_string _ _ _).
  assert (Ha : forall i, exists f, atom σ' i = f <$> atom σ i /\ forall t, atom_type (f t) = atom_type t /\
    chars (f t) = chars t /\ hash (f t) = hash t /\ hash_next (f t) = hash_next t).
  { intros i. subst σ'. rewrite atom_put. unfold atom. destruct (znth (atom_array σ) i) as [q|]; cbn [mbind option_bind].
    - case_decide as E; [subst q; rewrite Hs; by exists (set_ref_count n)|]. exists id. by rewrite option_fmap_id.
    - by exists id. }
  assert (Hn : forall i, next_atom σ' i = next_atom σ i).
  { intros i. unfold next_atom. destruct (Ha i) as (f & -> & Hf). destruct (atom σ i); cbn; [|done]. f_equal. apply Hf. }
  assert (Hint : forall i s', atom σ' i = Some s' -> exists s0, atom σ i = Some s0 /\ atom_type s' = atom_type s0 /\
    chars s' = chars s0 /\ hash s' = hash s0 /\ hash_next s' = hash_next s0).
  { intros i s' E. destruct (Ha i) as (f & Ef & Hf). rewrite Ef in E. destruct (atom σ i) as [s0|]; [|done].
    injection E as <-. exists s0. split; [done|]. apply Hf. }
  split; [|intros i; unfold content; destruct (Ha i) as (f & -> & Hf); destruct (atom σ i) as [s0|]; [|done]; cbn;
    destruct (Hf s0) as (-> & -> & _); done].
  destruct Hok. split; try done.
  - intros q t. subst σ'. cbn [strings put_string set_strings]. intros [[<- _]|[? ?]]%lookup_insert_Some; eauto.
  - intros i q Hq He. destruct (ok_entry0 i q Hq He) as [t Ht]. subst σ'. cbn [strings put_string set_strings].
    destruct (decide (q = p)) as [->|]; [rewrite lookup_insert_eq|rewrite lookup_insert_ne by done]; by eexists.
  - intros j h Hh. eapply ichain_frame; [|by apply ok_chain0]. intros; apply Hn.
  - intros j i. rewrite ok_bucket0. split; intros (Hj & t & Ht & Hi & Hb); (split; [done|]).
    + destruct (Ha i) as (f & Ef & Hf). exists (f t). rewrite Ef, Ht. destruct (Hf t) as (E1 & E2 & E3 & E4).
      split; [done|]. unfold interned. rewrite E1. split; [done|]. by rewrite E3.
    + destruct (Hint i t Ht) as (t0 & Ht0 & E1 & E2 & E3 & E4). exists t0. split; [done|].
      unfold interned. rewrite <- E1, <- E3. done.
  - intros i t Ht. destruct (Hint i t Ht) as (t0 & Ht0 & E1 & E2 & E3 & E4).
    unfold interned, atom_hash_of, hash_string. rewrite E1, E2, E3, E4. apply (ok_kind0 i t0 Ht0).
  - intros i j t t' Ht Ht' Hi E E'. destruct (Hint i t Ht) as (t0 & Ht0 & E1 & E2 & E3 & E4).
    destruct (Hint j t' Ht') as (t0' & Ht0' & E1' & E2' & E3' & E4'). unfold interned in Hi. rewrite E1 in Hi, E.
    eapply ok_unique0; eauto; congruence.
  - intros q t. subst σ'. cbn [strings put_string set_strings atom_array]. intros [[<- <-]|[? ?]]%lookup_insert_Some ?; eauto.
Qed.

(** ** Ranges *)

Lemma atom_range σ fl bs i s : atoms_ok σ fl bs -> atom σ i = Some s -> 0 <= i < atom_size σ.
Proof.
  intros Hok (p & Hp & _)%atom_Some. rewrite <- (ok_array_len _ _ _ Hok). by eapply znth_Some_range.
Qed.

Lemma free_range σ fl bs i : atoms_ok σ fl bs -> i ∈ fl -> 0 < i < atom_size σ.
Proof.
  intros Hok Hi. destruct (ichain_nonzero _ _ _ _ (ok_free _ _ _ Hok) Hi) as [Hz [n Hn]]. unfold next_free in Hn.
  destruct (znth (atom_array σ) i) as [p|] eqn:Hp; [|done]. apply znth_Some_range in Hp.
  rewrite (ok_array_len _ _ _ Hok) in Hp. lia.
Qed.

Lemma bucket_atoms σ fl bs j i : atoms_ok σ fl bs -> i ∈ bs j -> exists s, atom σ i = Some s /\ interned s /\
  i <> 0 /\ hash s = atom_hash_of s.
Proof.
  intros Hok Hi. destruct (proj1 (ok_bucket _ _ _ Hok j i) Hi) as (_ & s & Hs & Hint & _). exists s.
  split_and!; try done; destruct (ok_kind _ _ _ Hok i s Hs) as [[E _]|(? & ? & ?)]; try done;
    by apply interned_not_symbol in Hint.
Qed.

Lemma bucket_length σ fl bs j : atoms_ok σ fl bs -> (length (bs j) <= length (atom_array σ))%nat.
Proof.
  intros Hok. pose proof (NoDup_indices (bs j) (atom_size σ) (ok_chain_nodup _ _ _ Hok j)) as Hn.
  rewrite <- (ok_array_len _ _ _ Hok) in Hn. unfold zlen in Hn.
  enough (Z.of_nat (length (bs j)) <= Z.max 0 (Z.of_nat (length (atom_array σ)))) by lia. apply Hn.
  intros x Hx. destruct (bucket_atoms _ _ _ _ _ Hok Hx) as (s & Hs & _).
  pose proof (atom_range _ _ _ _ _ Hok Hs) as Hr. rewrite <- (ok_array_len _ _ _ Hok) in Hr. exact Hr.
Qed.

(** ** The search *)

Lemma find_atom_loop_spec fuel σ str t i l : ichain (next_atom σ) i l -> (length l <= fuel)%nat ->
  (forall x, x ∈ l -> exists s, atom σ x = Some s /\ hash s = atom_hash_of s) ->
  exists r, find_atom_loop fuel σ str t (Z.land (hash_string str t) JS_ATOM_HASH_MASK) i = Some r /\
    (r = 0 /\ (forall x, x ∈ l -> content σ x <> Some (t, chars str)) \/
     r ∈ l /\ content σ r = Some (t, chars str)).
Proof.
  set (h := Z.land _ _). revert i l. induction fuel as [|fuel IH]; intros i [|x l]; cbn [ichain length find_atom_loop].
  - intros -> _ _. exists 0. split; [done|]. left. split; [done|]. by intros x ?%elem_of_nil.
  - lia.
  - intros -> _ _. exists 0. split; [done|]. left. split; [done|]. by intros x ?%elem_of_nil.
  - intros (-> & Hx & n & Hn & Hl) Hf Hall. rewrite (proj2 (Z.eqb_neq x 0)) by done.
    destruct (Hall x ltac:(by left)) as (s & Hs & Hh). destruct (atom_Some _ _ _ Hs) as (q & Hq & Hqs).
    rewrite Hq. cbn [mbind option_bind]. unfold get_string. rewrite Hqs. cbn [mbind option_bind].
    assert (Hn' : hash_next s = n) by (unfold next_atom in Hn; rewrite Hs in Hn; by injection Hn).
    assert (Hrec : exists r, find_atom_loop fuel σ str t h n = Some r /\
      (r = 0 /\ (forall y, y ∈ l -> content σ y <> Some (t, chars str)) \/ r ∈ l /\ content σ r = Some (t, chars str))).
    { apply (IH n l Hl); [lia|]. intros y Hy. apply Hall. by right. }
    assert (Hskip : content σ x <> Some (t, chars str) ->
      exists r, find_atom_loop fuel σ str t h (hash_next s) = Some r /\
      (r = 0 /\ (forall y, y ∈ x :: l -> content σ y <> Some (t, chars str)) \/
       r ∈ x :: l /\ content σ r = Some (t, chars str))).
    { intros Hc. rewrite Hn'. destruct Hrec as (r & -> & [[-> Hr]|[Hr Hc']]); eexists; (split; [done|]).
      - left. split; [done|]. intros y [->|Hy]%elem_of_cons; [done|by apply Hr].
      - right. split; [by right|done]. }
    unfold content in *. rewrite Hs in Hskip. cbn [fmap option_fmap option_map] in Hskip.
    destruct (_ && _) eqn:E.
    + zify_bools. unfold js_string_memcmp, str_len in *. replace (Z.to_nat (zlen (chars str))) with (length (chars str)) by (unfold zlen; lia).
      destruct (units_cmp_equal (chars s) (chars str)) as (c & -> & Hc); [unfold zlen in *; lia|].
      cbn [mbind option_bind]. destruct (Z.eqb_spec c 0) as [->|Hne].
      * exists x. split; [done|]. right. split; [by left|]. rewrite Hs. cbn. do 2 f_equal; [done|by apply Hc].
      * apply Hskip. intros [= _ Ec]. by apply Hne, Hc.
    + apply Hskip. intros [= Et Ec]. revert E. unfold h, str_len. rewrite Hh. unfold atom_hash_of, hash_string.
      rewrite Et, Ec, !Z.eqb_refl. done.
Qed.

(** ** Freeing *)

Lemma next_atom_Some σ x n : next_atom σ x = Some n -> exists q s, znth (atom_array σ) x = Some q /\
  strings σ !! q = Some s /\ hash_next s = n.
Proof.
  unfold next_atom. destruct (atom σ x) as [s|] eqn:Hs; [|done]. intros [= <-].
  apply atom_Some in Hs as (q & Hq & Hs). by exists q, s.
Qed.

Lemma unlink_loop_spec fuel σ p s i l2 l1 y q : ichain (next_atom σ) y (y :: l1 ++ i :: l2) ->
  znth (atom_array σ) y = Some q -> znth (atom_array σ) i = Some p -> strings σ !! p = Some s ->
  (forall x, x ∈ y :: l1 -> znth (atom_array σ) x <> Some p) -> (length l1 < fuel)%nat ->
  exists q0 s0, znth (atom_array σ) (List.last (y :: l1) 0) = Some q0 /\ strings σ !! q0 = Some s0 /\
    unlink_loop fuel σ p y q = Some (i, put_string σ q0 (set_hash_next (hash_next s) s0)).
Proof.
  revert y q l1. induction fuel as [|fuel IH]; intros y q l1 (_ & Hy & n & Hn & Hl) Hq Hi Hs Hne Hf; [lia|].
  cbn [unlink_loop]. rewrite (proj2 (Z.eqb_neq y 0)) by done.
  destruct (next_atom_Some _ _ _ Hn) as (q' & s1 & Hq' & Hs1 & En). rewrite Hq in Hq'. injection Hq' as <-.
  unfold get_string. rewrite Hs1. cbn [mbind option_bind]. rewrite En.
  destruct l1 as [|z l1].
  - destruct Hl as [-> _]. rewrite Hi. cbn [mbind option_bind]. rewrite Z.eqb_refl, Hs. cbn [mbind option_bind].
    exists q, s1. split_and!; done.
  - pose proof Hl as (-> & Hz & m & Hm & _). destruct (next_atom_Some _ _ _ Hm) as (qz & sz & Hqz & _ & _).
    rewrite Hqz. cbn [mbind option_bind].
    rewrite (proj2 (Z.eqb_neq qz p)) by (intros ->; apply (Hne z); [right; by left|done]).
    destruct (IH z qz l1) as (q0 & s0 & H1 & H2 & H3); try done; [|cbn [length] in Hf; lia|].
    { intros x Hx. apply Hne. by right. }
    exists q0, s0. split_and!; try done.
Qed.

(** A string but for its place in a chain. *)
Definition same_string (s t : JSString) : Prop :=
  str_ref_count s = str_ref_count t /\ is_wide_char s = is_wide_char t /\ chars s = chars t /\
  hash s = hash t /\ atom_type s = atom_type t.

(** The string at [q] is the same in both tables, but for its chain when it is interned. *)
Definition string_kept (σ σ' : JSAtoms) (q : Z) : Prop :=
  match strings σ !! q with
  | Some t => exists t', strings σ' !! q = Some t' /\ same_string t' t /\ (hash_next t' = hash_next t \/ interned t)
  | None => strings σ' !! q = None
  end.

(** The table without the atom [i], whose string is [p]: the entry is free, and the rest of
    every chain as it was. *)
Lemma free_entry_ok σ σ' fl bs i p s j l : atoms_ok σ fl bs -> znth (atom_array σ) i = Some p -> i <> 0 ->
  strings σ !! p = Some s -> atom_is_free p = false ->
  atom_hash_size σ' = atom_hash_size σ -> atom_count σ' = atom_count σ - 1 -> atom_size σ' = atom_size σ ->
  atom_count_resize σ' = atom_count_resize σ -> atom_free_index σ' = i -> zlen (atom_array σ') = zlen (atom_array σ) ->
  (forall x, znth (atom_array σ') x = if decide (x = i) then Some (atom_set_free (atom_free_index σ)) else znth (atom_array σ) x) ->
  strings σ' !! p = None ->
  (forall q, q <> p -> string_kept σ σ' q) ->
  zlen (atom_hash σ') = zlen (atom_hash σ) ->
  (interned s -> j = bucket_of σ (hash s)) ->
  (forall k h, znth (atom_hash σ') k = Some h -> ichain (next_atom σ') h (if decide (k = j) then l else bs k)) ->
  NoDup l -> (forall x, x ∈ l <-> x ∈ bs j /\ x <> i) ->
  atoms_ok σ' (i :: fl) (fun k => if decide (k = j) then l else bs k).
Proof.
  intros Hok Hi Hi0 Hs Hp Ehs Ec Esz Ecr Efi Eal Ea Esp Est Ehl Hj Hch Hnd Hl.
  unfold string_kept, same_string in Est.
  assert (Hat : forall x t, x <> i -> atom σ x = Some t -> exists t', atom σ' x = Some t' /\ atom_type t' = atom_type t /\
    chars t' = chars t /\ hash t' = hash t /\ (hash_next t' = hash_next t \/ interned t)).
  { intros x t Hx (q & Hq & Hqs)%atom_Some. assert (Hqp : q <> p) by (intros ->; apply Hx; by eapply (ok_inj _ _ _ Hok)).
    specialize (Est q Hqp). rewrite Hqs in Est. destruct Est as (t' & Et & (_ & _ & E1 & E2 & E3) & E4). exists t'.
    unfold atom. by rewrite Ea, decide_False, Hq by done. }
  assert (Hback : forall x t', atom σ' x = Some t' -> x <> i /\ exists t, atom σ x = Some t /\ atom_type t' = atom_type t /\
    chars t' = chars t /\ hash t' = hash t /\ (hash_next t' = hash_next t \/ interned t)).
  { intros x t' (q & Hq & Hqs)%atom_Some. rewrite Ea in Hq. assert (Hqp : q <> p) by (intros ->; by rewrite Esp in Hqs).
    specialize (Est q Hqp). case_decide as Hx.
    - injection Hq as <-. destruct (strings σ !! atom_set_free (atom_free_index σ)) as [t|] eqn:Et; [|congruence].
      apply (ok_address _ _ _ Hok) in Et as [E _]. by rewrite atom_set_free_odd in E.
    - split; [done|]. destruct (strings σ !! q) as [t|] eqn:Et; [|congruence]. exists t.
      destruct Est as (t1 & Et1 & (_ & _ & E1 & E2 & E3) & E4). rewrite Hqs in Et1. injection Et1 as <-.
      unfold atom. by rewrite Hq. }
  assert (Hii : atom σ i = Some s) by (unfold atom; by rewrite Hi).
  assert (Hfl : ~ (i ∈ fl)).
  { intros [n Hn]%(ok_free_all _ _ _ Hok). unfold next_free in Hn. rewrite Hi in Hn. cbn in Hn. by rewrite Hp in Hn. }
  assert (Hnf : forall x, next_free σ' x = if decide (x = i) then Some (atom_free_index σ) else next_free σ x).
  { intros x. unfold next_free. rewrite Ea. case_decide; [|done]. cbn [mbind option_bind].
    rewrite atom_set_free_odd, atom_get_set_free; [done|]. pose proof (ok_size_max _ _ _ Hok) as Hmax.
    assert (E : JS_ATOM_MAX = 2 ^ 30 - 1) by reflexivity. destruct fl as [|y fl].
    - pose proof (ok_free _ _ _ Hok) as Ef. cbn in Ef. rewrite Ef. lia.
    - pose proof (ok_free _ _ _ Hok) as [Ef _]. rewrite Ef.
      pose proof (free_range _ _ _ y Hok ltac:(by left)). lia. }
  split.
  - rewrite Ehs. by destruct Hok.
  - rewrite Ecr, Ehs. by destruct Hok.
  - rewrite Ehl, Ehs. by destruct Hok.
  - rewrite Eal, Esz. by destruct Hok.
  - rewrite Esz. by destruct Hok.
  - rewrite Ec, Esz, zlen_cons. pose proof (ok_count _ _ _ Hok). lia.
  - intros q t E. destruct (decide (q = p)) as [->|Hq]; [by rewrite Esp in E|]. specialize (Est q Hq).
    destruct (strings σ !! q) as [t0|] eqn:E0; [|congruence]. by eapply (ok_address _ _ _ Hok).
  - intros x q. rewrite Ea. case_decide as Hx; [by intros [= <-]; rewrite atom_set_free_odd|]. intros Hq Hqe.
    assert (q <> p) by (intros ->; apply Hx; by eapply (ok_inj _ _ _ Hok)).
    destruct (ok_entry _ _ _ Hok x q Hq Hqe) as [t Ht]. specialize (Est q ltac:(done)). rewrite Ht in Est.
    destruct Est as (t' & -> & _). by eexists.
  - intros x y q. rewrite !Ea. repeat case_decide; intros E1 E2 Hq; simplify_eq; try done.
    + by rewrite atom_set_free_odd in Hq.
    + by rewrite atom_set_free_odd in Hq.
    + by eapply (ok_inj _ _ _ Hok).
  - intros q. rewrite Ea, decide_False by congruence. apply (ok_zero _ _ _ Hok).
  - cbn [ichain]. split_and!; [done..|]. exists (atom_free_index σ). split; [by rewrite Hnf, decide_True|].
    eapply ichain_frame; [|apply (ok_free _ _ _ Hok)]. intros x Hx. rewrite Hnf, decide_False; [done|]. by intros ->.
  - apply list.NoDup_cons. split; [done|]. apply (ok_free_nodup _ _ _ Hok).
  - intros x. rewrite elem_of_cons, Hnf. case_decide as Hx; [subst; split; [by eexists|by left]|].
    rewrite (ok_free_all _ _ _ Hok). tauto.
  - exact Hch.
  - intros k. case_decide; [done|apply (ok_chain_nodup _ _ _ Hok)].
  - intros k x. assert (Eb : forall h, bucket_of σ' h = bucket_of σ h) by (intros; unfold bucket_of; by rewrite Ehs).
    transitivity (x ∈ bs k /\ x <> i).
    { case_decide as Ek; [subst k; apply Hl|]. split; [|by intros [? _]]. intros Hx. split; [done|]. intros ->.
      destruct (proj1 (ok_bucket _ _ _ Hok k i) Hx) as (_ & t & Ht & Hint & Hb). rewrite Hii in Ht. injection Ht as <-.
      apply Ek. rewrite <- Hb. symmetry. by apply Hj. }
    rewrite (ok_bucket _ _ _ Hok), Ehs. split.
    + intros [(Hk & t & Ht & Hint & Hb) Hx]. split; [done|]. destruct (Hat x t Hx Ht) as (t' & Et & E1 & E2 & E3 & E4).
      exists t'. split; [done|]. unfold interned. rewrite E1, E3, Eb. done.
    + intros (Hk & t & Ht & Hint & Hb). destruct (Hback x t Ht) as (Hx & t0 & Ht0 & E1 & E2 & E3 & E4).
      split; [|done]. split; [done|]. exists t0. unfold interned in *. rewrite <- E1, <- E3, <- Eb. done.
  - intros x t Ht. destruct (Hback x t Ht) as (Hx & t0 & Ht0 & E1 & E2 & E3 & E4).
    unfold interned, atom_hash_of, hash_string. rewrite E1, E2, E3.
    destruct (ok_kind _ _ _ Hok x t0 Ht0) as [[? ?]|?]; [left|by right]. split; [done|]. destruct E4 as [|E4]; [congruence|].
    by apply interned_not_symbol in E4.
  - intros x y t t' Ht Ht' Hint Et Ech. destruct (Hback x t Ht) as (Hx & t0 & Ht0 & E1 & E2 & _).
    destruct (Hback y t' Ht') as (Hy & t0' & Ht0' & E1' & E2' & _). unfold interned in Hint. rewrite E1 in Hint, Et.
    eapply (ok_unique _ _ _ Hok); eauto; congruence.
  - intros q t E Hat'. destruct (decide (q = p)) as [->|Hq]; [by rewrite Esp in E|]. specialize (Est q Hq).
    destruct (strings σ !! q) as [t0|] eqn:E0; [|congruence]. destruct Est as (t1 & Et1 & (_ & _ & _ & _ & E1) & _).
    rewrite E in Et1. injection Et1 as <-. rewrite E1 in Hat'.
    destruct (ok_atoms _ _ _ Hok q t0 E0 Hat') as [x Hx]. exists x. rewrite Ea, decide_False; [done|].
    intros ->. apply Hq. congruence.
Qed.

Lemma live_entries σ fl bs i s : atoms_ok σ fl bs -> atom σ i = Some s -> 0 < atom_count σ.
Proof.
  intros Hok Hs. pose proof (atom_range _ _ _ _ _ Hok Hs) as Hr. pose proof (ok_count _ _ _ Hok) as Hc.
  assert (Hi : ~ (i ∈ fl)).
  { intros [n Hn]%(ok_free_all _ _ _ Hok). apply atom_Some in Hs as (p & Hp & Hps). unfold next_free in Hn.
    rewrite Hp in Hn. cbn in Hn. apply (ok_address _ _ _ Hok) in Hps as [Hps _]. by rewrite Hps in Hn. }
  pose proof (NoDup_indices (i :: fl) (atom_size σ)) as Hn. rewrite zlen_cons in Hn.
  enough (zlen fl + 1 <= Z.max 0 (atom_size σ)) by lia. rewrite Z.add_comm. apply Hn.
  - apply list.NoDup_cons. split; [done|apply (ok_free_nodup _ _ _ Hok)].
  - intros x [->|Hx]%elem_of_cons; [done|]. pose proof (free_range _ _ _ _ Hok Hx). lia.
Qed.

(** What removes the atom from its chain. *)
Lemma unlink_ok σ fl bs i p s : atoms_ok σ fl bs -> znth (atom_array σ) i = Some p -> strings σ !! p = Some s ->
  interned s -> let j := bucket_of σ (hash s) in
  exists h p1 l1 l2, znth (atom_hash σ) j = Some h /\ znth (atom_array σ) h = Some p1 /\ bs j = l1 ++ i :: l2 /\
    match l1 with
    | [] => p1 = p
    | _ => p1 <> p /\ exists q0 s0, znth (atom_array σ) (List.last l1 0) = Some q0 /\ strings σ !! q0 = Some s0 /\
        unlink_loop (length (atom_array σ)) σ p h p1 = Some (i, put_string σ q0 (set_hash_next (hash_next s) s0))
    end.
Proof.
  intros Hok Hi Hs Hint j. pose proof (ok_address _ _ _ Hok p s Hs) as [Hp _].
  assert (Hij : i ∈ bs j).
  { apply (ok_bucket _ _ _ Hok). split; [by eapply bucket_range|]. exists s. split; [|done].
    unfold atom. by rewrite Hi. }
  destruct (bucket_head σ fl bs (hash s) Hok) as [h Hh]. fold j in Hh. pose proof (ok_chain _ _ _ Hok j h Hh) as Hc.
  pose proof (ok_chain_nodup _ _ _ Hok j) as Hnd. pose proof (bucket_length _ _ _ j Hok) as Hlen.
  apply list_elem_of_split in Hij as (l1 & l2 & E). rewrite E in Hc, Hnd, Hlen. destruct l1 as [|y l1].
  - destruct Hc as [-> _]. by exists i, p, [], l2.
  - pose proof Hc as (-> & _ & n & Hn & _). destruct (next_atom_Some _ _ _ Hn) as (q & t & Hq & _ & _).
    assert (Hne : forall x, x ∈ y :: l1 -> znth (atom_array σ) x <> Some p).
    { intros x Hx Ex. assert (x = i) as -> by (by eapply (ok_inj _ _ _ Hok)).
      apply list.NoDup_app in Hnd as (_ & Hd & _). apply (Hd i Hx). by left. }
    destruct (unlink_loop_spec (length (atom_array σ)) σ p s i l2 l1 y q Hc Hq Hi Hs Hne) as (q0 & s0 & E1 & E2 & E3).
    { rewrite length_app in Hlen. cbn [length] in Hlen. lia. }
    exists y, q, (y :: l1), l2. split_and!; try done; [|by exists q0, s0].
    intros ->. by apply (Hne y); [left|].
Qed.

(** [σ1] is [σ] with the entry after [i] in the place of [i] in its chain. *)
Record unlinked (σ σ1 : JSAtoms) (bs : Z -> list Z) (i j : Z) (l1 l2 : list Z) (s : JSString) : Prop := {
  un_sizes : atom_hash_size σ1 = atom_hash_size σ /\ atom_count σ1 = atom_count σ /\ atom_size σ1 = atom_size σ /\
    atom_count_resize σ1 = atom_count_resize σ /\ atom_array σ1 = atom_array σ /\ atom_free_index σ1 = atom_free_index σ;
  un_split : bs j = l1 ++ i :: l2;
  un_hash_len : zlen (atom_hash σ1) = zlen (atom_hash σ);
  un_hash k : znth (atom_hash σ1) k =
    if decide (k = j /\ l1 = []) then Some (hash_next s) else znth (atom_hash σ) k;
  un_strings : exists prev, strings σ1 = prev /\
    match l1 with
    | [] => prev = strings σ
    | _ => exists q0 s0, znth (atom_array σ) (List.last l1 0) = Some q0 /\ strings σ !! q0 = Some s0 /\
        prev = <[q0 := set_hash_next (hash_next s) s0]> (strings σ)
    end
}.

Lemma unlink_step σ fl bs i p s : atoms_ok σ fl bs -> znth (atom_array σ) i = Some p -> strings σ !! p = Some s ->
  interned s -> exists σ1 l1 l2, unlinked σ σ1 bs i (bucket_of σ (hash s)) l1 l2 s /\
  (i ← znth (atom_hash σ) (bucket_of σ (hash s));
   p1 ← znth (atom_array σ) i;
   if p1 =? p then
     l ← zupd (atom_hash σ) (bucket_of σ (hash s)) (hash_next s);
     Some (i, set_hash_table l σ)
   else unlink_loop (length (atom_array σ)) σ p i p1) = Some (i, σ1).
Proof.
  intros Hok Hi Hs Hint. destruct (unlink_ok _ _ _ _ _ _ Hok Hi Hs Hint) as (h & p1 & l1 & l2 & Hh & Hp1 & E & Hc).
  rewrite Hh. cbn [mbind option_bind]. rewrite Hp1. cbn [mbind option_bind]. destruct l1 as [|y l1].
  - subst p1. rewrite Z.eqb_refl. destruct (zupd_write _ _ (hash_next s) _ Hh) as (l & -> & Hl & Hn). cbn [mbind option_bind].
    assert (h = i) as -> by (by eapply (ok_inj _ _ _ Hok); [done..|eapply (ok_address _ _ _ Hok)]).
    exists (set_hash_table l σ), [], l2. split; [|done]. split; [done..|exact Hl| |by exists (strings σ)].
    intros k. cbn [atom_hash set_hash_table]. rewrite Hn. repeat case_decide; naive_solver.
  - destruct Hc as (Hne & q0 & s0 & E1 & E2 & E3). rewrite (proj2 (Z.eqb_neq p1 p)), E3 by done.
    eexists _, (y :: l1), l2. split; [|done]. split; try done.
    + intros k. rewrite decide_False by naive_solver. done.
    + eexists. split; [done|]. by exists q0, s0.
Qed.

(** The strings and the links after the step, seen through the indices. *)
Lemma unlinked_strings σ σ1 fl bs i j l1 l2 s q : atoms_ok σ fl bs -> unlinked σ σ1 bs i j l1 l2 s ->
  string_kept σ σ1 q.
Proof.
  intros Hok Hu. unfold string_kept. destruct (un_strings _ _ _ _ _ _ _ _ Hu) as (prev & -> & Hp).
  assert (Hid : match strings σ !! q with Some t => exists t', strings σ !! q = Some t' /\ same_string t' t /\
    (hash_next t' = hash_next t \/ interned t) | None => strings σ !! q = None end).
  { destruct (strings σ !! q) as [t|]; [|done]. exists t. split; [done|]. split; [done|by left]. }
  destruct l1 as [|y l1]; [by subst|]. destruct Hp as (q0 & s0 & E1 & E2 & ->).
  destruct (decide (q = q0)) as [->|Hne]; [|by rewrite lookup_insert_ne].
  rewrite lookup_insert_eq, E2. exists (set_hash_next (hash_next s) s0). split; [done|]. split; [done|]. right.
  assert (Hin : List.last (y :: l1) 0 ∈ bs j).
  { rewrite (un_split _ _ _ _ _ _ _ _ Hu). apply elem_of_app. left.
    clear. revert y. induction l1 as [|z l1 IH]; intros y; [by left|]. right. apply (IH z). }
  destruct (bucket_atoms _ _ _ _ _ Hok Hin) as (t & Ht & Hint & _). unfold atom in Ht. rewrite E1 in Ht. cbn in Ht. congruence.
Qed.

(** The chains once [i] is out of its own and its string is gone. *)
Lemma unlinked_chains σ σ1 σ' fl bs i p j l1 l2 s : atoms_ok σ fl bs -> unlinked σ σ1 bs i j l1 l2 s ->
  j = bucket_of σ (hash s) -> znth (atom_array σ) i = Some p -> strings σ !! p = Some s -> interned s ->
  (forall x, x <> i -> znth (atom_array σ') x = znth (atom_array σ) x) ->
  strings σ' = delete p (strings σ1) -> atom_hash σ' = atom_hash σ1 ->
  forall k h, znth (atom_hash σ') k = Some h -> ichain (next_atom σ') h (if decide (k = j) then l1 ++ l2 else bs k).
Proof.
  intros Hok Hu Ej Hi Hs Hint Ha Es Eh k h. rewrite Eh, (un_hash _ _ _ _ _ _ _ _ Hu).
  pose proof (un_split _ _ _ _ _ _ _ _ Hu) as Esp. pose proof (ok_chain_nodup _ _ _ Hok j) as Hnd. rewrite Esp in Hnd.
  assert (Hnext : forall x, x <> i -> (l1 = [] \/ x <> List.last l1 0) -> next_atom σ' x = next_atom σ x).
  { intros x Hx Hl. unfold next_atom, atom. rewrite (Ha x Hx). destruct (znth (atom_array σ) x) as [q|] eqn:Hq; [|done].
    cbn [mbind option_bind]. rewrite Es. destruct (decide (q = p)) as [->|Hqp].
    { destruct Hx. eapply (ok_inj _ _ _ Hok); [done..|]. by eapply (ok_address _ _ _ Hok). }
    rewrite lookup_delete_ne by done. destruct (un_strings _ _ _ _ _ _ _ _ Hu) as (prev & -> & Hp).
    destruct l1 as [|y l1]; [by subst|]. destruct Hp as (q0 & s0 & E1 & E2 & ->).
    rewrite lookup_insert_ne; [done|]. intros ->. destruct Hl as [|Hl]; [done|]. apply Hl.
    eapply (ok_inj _ _ _ Hok); [done..|]. by eapply (ok_address _ _ _ Hok). }
  assert (Hlast : l1 <> [] -> next_atom σ' (List.last l1 0) = next_atom σ i).
  { intros Hl. pose proof (last_nonempty l1 0 Hl) as Hin.
    assert (List.last l1 0 <> i).
    { intros E. apply list.NoDup_app in Hnd as (_ & Hd & _). apply (Hd _ Hin). rewrite E. by left. }
    unfold next_atom, atom. rewrite (Ha _ ltac:(done)), Hi, Es. cbn [mbind option_bind]. rewrite Hs.
    destruct (un_strings _ _ _ _ _ _ _ _ Hu) as (prev & -> & Hp). destruct l1 as [|y l1]; [done|].
    destruct Hp as (q0 & s0 & E1 & E2 & ->). rewrite E1. cbn [mbind option_bind].
    rewrite lookup_delete_ne, lookup_insert_eq; [done|]. intros <-.
    assert (List.last (y :: l1) 0 = i); [|done]. eapply (ok_inj _ _ _ Hok); [done..|]. by eapply (ok_address _ _ _ Hok). }
  assert (Hib : next_atom σ i = Some (hash_next s)) by (unfold next_atom, atom; by rewrite Hi; cbn; rewrite Hs).
  destruct (decide (k = j)) as [->|Hk].
  - intros Hh. destruct (bucket_head σ fl bs (hash s) Hok) as [h0 Hh0]. rewrite <- Ej in Hh0.
    pose proof (ok_chain _ _ _ Hok j h0 Hh0) as Hc. rewrite Esp in Hc.
    destruct (ichain_delete _ (next_atom σ') _ _ _ _ Hc Hnd) as (n & En & Hc').
    + intros x Hx Hxl. apply Hnext; [|by right]. intros ->. assert (E : l1 ++ i :: l2 ≡ₚ i :: l1 ++ l2) by (by rewrite Permutation_middle).
      rewrite E in Hnd. apply list.NoDup_cons in Hnd as [Hn _]. done.
    + done.
    + rewrite Hib in En. injection En as <-. case_decide as E1; case_decide as E2; try tauto.
      * injection Hh as <-. done.
      * rewrite Hh0 in Hh. injection Hh as <-. done.
  - rewrite decide_False by tauto. intros Hh. eapply ichain_frame; [|by apply (ok_chain _ _ _ Hok k h)].
    assert (Hdis : forall x, x ∈ bs k -> ~ (x ∈ bs j)).
    { intros x Hx Hxj. destruct (proj1 (ok_bucket _ _ _ Hok k x) Hx) as (_ & t & Ht & _ & E1).
      destruct (proj1 (ok_bucket _ _ _ Hok j x) Hxj) as (_ & t' & Ht' & _ & E2). congruence. }
    intros x Hx. apply Hnext.
    + intros ->. apply (Hdis i Hx). rewrite Esp. apply elem_of_app. right. by left.
    + destruct (decide (l1 = [])); [by left|right]. intros ->. apply (Hdis _ Hx). rewrite Esp. apply elem_of_app. left.
      by apply last_nonempty.
Qed.

Lemma JS_FreeAtomStruct_ok σ fl bs i p s : atoms_ok σ fl bs -> znth (atom_array σ) i = Some p -> i <> 0 ->
  strings σ !! p = Some s ->
  exists σ' bs', JS_FreeAtomStruct σ p = Some σ' /\ atoms_ok σ' (i :: fl) bs' /\
    strings σ' !! p = None /\ atom_hash_size σ' = atom_hash_size σ /\ (forall q, q <> p -> string_kept σ σ' q) /\
    (forall x, content σ' x = if decide (x = i) then None else content σ x).
Proof.
  intros Hok Hi Hi0 Hs. pose proof (ok_address _ _ _ Hok p s Hs) as [Hp _].
  assert (Hii : atom σ i = Some s) by (unfold atom; rewrite Hi; done).
  destruct (zupd_write _ _ (atom_set_free (atom_free_index σ)) _ Hi) as (a & Ea & Hal & Han).
  pose proof (live_entries _ _ _ _ _ Hok Hii) as Hcount. unfold JS_FreeAtomStruct, get_string. rewrite Hs.
  cbn [mbind option_bind].
  assert (Hfinish : forall σ1 j l, (interned s -> j = bucket_of σ (hash s)) ->
    atom_hash_size σ1 = atom_hash_size σ /\ atom_count σ1 = atom_count σ /\ atom_size σ1 = atom_size σ /\
      atom_count_resize σ1 = atom_count_resize σ /\ atom_array σ1 = atom_array σ /\ atom_free_index σ1 = atom_free_index σ ->
    zlen (atom_hash σ1) = zlen (atom_hash σ) -> (forall q, string_kept σ σ1 q) -> NoDup l ->
    (forall x, x ∈ l <-> x ∈ bs j /\ x <> i) ->
    let σ' := mk_atoms (atom_hash_size σ) (atom_count σ - 1) (atom_size σ) (atom_count_resize σ) (atom_hash σ1) a i
      (delete p (strings σ1)) in
    (forall k h, znth (atom_hash σ') k = Some h -> ichain (next_atom σ') h (if decide (k = j) then l else bs k)) ->
    exists σ'' bs', Some σ' = Some σ'' /\ atoms_ok σ'' (i :: fl) bs' /\ strings σ'' !! p = None /\
      atom_hash_size σ'' = atom_hash_size σ /\
      (forall q, q <> p -> string_kept σ σ'' q) /\ (forall x, content σ'' x = if decide (x = i) then None else content σ x)).
  { intros σ1 j l Hj (E1 & E2 & E3 & E4 & E5 & E6) Hhl Hk Hnd Hl σ' Hch. exists σ', (fun k => if decide (k = j) then l else bs k).
    assert (Hkept : forall q, q <> p -> string_kept σ σ' q).
    { intros q Hq. specialize (Hk q). unfold string_kept in *. subst σ'. cbn [strings]. by rewrite lookup_delete_ne by done. }
    assert (Hdel : strings σ' !! p = None) by (subst σ'; cbn; by rewrite lookup_delete_eq).
    split; [done|]. split; [|split; [done|split; [done|split; [done|]]]].
    - eapply (free_entry_ok σ σ' fl bs i p s j l); done.
    - intros x. unfold content, atom. subst σ'. cbn [atom_array strings]. rewrite Han. case_decide as Hx; cbn [mbind option_bind].
      + rewrite lookup_delete_ne; [|intros ->; by rewrite atom_set_free_odd in Hp].
        specialize (Hk (atom_set_free (atom_free_index σ))). unfold string_kept in Hk.
        destruct (strings σ !! atom_set_free (atom_free_index σ)) as [t|] eqn:Et; [|by rewrite Hk].
        apply (ok_address _ _ _ Hok) in Et as [E _]. by rewrite atom_set_free_odd in E.
      + destruct (znth (atom_array σ) x) as [q|] eqn:Hq; [|done]. cbn [mbind option_bind].
        assert (q <> p) by (intros ->; apply Hx; by eapply (ok_inj _ _ _ Hok)). rewrite lookup_delete_ne by done.
        specialize (Hk q). unfold string_kept in Hk. destruct (strings σ !! q) as [t|]; [|by rewrite Hk].
        destruct Hk as (t' & -> & (_ & _ & Ec & _ & Et) & _). cbn. by rewrite Ec, Et. }
  destruct (Z.eqb_spec (atom_type s) JS_ATOM_TYPE_SYMBOL) as [Et|Et]; cbn [negb].
  - destruct (ok_kind _ _ _ Hok i s Hii) as [[_ ->]|(_ & Hint & _)]; [|by apply interned_not_symbol in Hint].
    cbn [mbind option_bind]. rewrite Ea. cbn [mbind option_bind]. cbn.
    replace (atom_count σ - 1 >=? 0) with true by (symmetry; rewrite Z.geb_leb; apply Z.leb_le; lia).
    apply (Hfinish σ (-1) (bs (-1))); try done.
    + intros Hint. by apply interned_not_symbol in Hint.
    + intros q. unfold string_kept. destruct (strings σ !! q) as [t|]; [|done]. exists t. split; [done|]. split; [done|by left].
    + apply (ok_chain_nodup _ _ _ Hok).
    + intros x. split; [|by intros [? _]]. intros Hx. pose proof (proj1 (ok_bucket _ _ _ Hok _ _) Hx) as [? _]. lia.
    + cbn. intros k h Hh. replace (if decide (k = -1) then bs (-1) else bs k) with (bs k) by (case_decide; congruence).
      eapply ichain_frame; [|by apply (ok_chain _ _ _ Hok k h)]. intros x Hx.
      destruct (bucket_atoms _ _ _ _ _ Hok Hx) as (t & Ht & Hti & _).
      assert (Hxi : x <> i). { intros ->. rewrite Hii in Ht. injection Ht as <-. by apply interned_not_symbol in Hti. }
      unfold next_atom, atom. cbn [atom_array strings]. rewrite Han, decide_False by done.
      destruct (znth (atom_array σ) x) as [q|] eqn:Hq; [|done]. cbn [mbind option_bind].
      rewrite lookup_delete_ne; [done|]. intros <-. apply Hxi. by eapply (ok_inj _ _ _ Hok).
  - assert (Hint : interned s) by (by destruct (ok_kind _ _ _ Hok i s Hii) as [[? _]|(_ & ? & _)]).
    destruct (unlink_step _ _ _ _ _ _ Hok Hi Hs Hint) as (σ1 & l1 & l2 & Hu & E). rewrite E. cbn [mbind option_bind].
    pose proof (un_sizes _ _ _ _ _ _ _ _ Hu) as (E1 & E2 & E3 & E4 & E5 & E6). rewrite E5, E6, Ea. cbn [mbind option_bind]. cbn.
    unfold set_atom_count, set_strings, set_free_index, set_atom_array. cbn. rewrite E1, E2, E3, E4.
    replace (atom_count σ - 1 >=? 0) with true by (symmetry; rewrite Z.geb_leb; apply Z.leb_le; lia).
    pose proof (ok_chain_nodup _ _ _ Hok (bucket_of σ (hash s))) as Hnd. rewrite (un_split _ _ _ _ _ _ _ _ Hu) in Hnd.
    assert (Ep : l1 ++ i :: l2 ≡ₚ i :: l1 ++ l2) by (by rewrite Permutation_middle). rewrite Ep in Hnd.
    apply list.NoDup_cons in Hnd as [Hn Hnd].
    apply (Hfinish σ1 (bucket_of σ (hash s)) (l1 ++ l2)); try done.
    + apply (un_hash_len _ _ _ _ _ _ _ _ Hu).
    + intros q. by eapply unlinked_strings.
    + intros x. rewrite (un_split _ _ _ _ _ _ _ _ Hu), Ep, elem_of_cons. split; [|tauto].
      intros Hx. split; [by right|]. by intros ->.
    + eapply (unlinked_chains σ σ1 _ fl bs i p); try done. intros x Hx. cbn. by rewrite Han, decide_False.
Qed.

(** ** A new entry *)

Lemma plain_not_entry σ fl bs p s x : atoms_ok σ fl bs -> strings σ !! p = Some s -> atom_type s = 0 ->
  znth (atom_array σ) x <> Some p.
Proof.
  intros Hok Hs Ht Hx. assert (Ha : atom σ x = Some s) by (unfold atom; by rewrite Hx).
  destruct (ok_kind _ _ _ Hok x s Ha) as [[E _]|(_ & [E|E] & _)]; rewrite Ht in E; done.
Qed.

(** The plain string [p] becomes the atom of the first free entry [i]. *)
Lemma add_entry_ok σ σ' fl bs i p s s2 t j n : atoms_ok σ (i :: fl) bs -> strings σ !! p = Some s -> atom_type s = 0 ->
  chars s2 = chars s -> atom_type s2 = t ->
  atom_hash_size σ' = atom_hash_size σ -> atom_count σ' = atom_count σ + 1 -> atom_size σ' = atom_size σ ->
  atom_count_resize σ' = atom_count_resize σ -> next_free σ i = Some (atom_free_index σ') ->
  zlen (atom_array σ') = zlen (atom_array σ) ->
  (forall x, znth (atom_array σ') x = if decide (x = i) then Some p else znth (atom_array σ) x) ->
  strings σ' = <[p := s2]> (strings σ) -> zlen (atom_hash σ') = zlen (atom_hash σ) ->
  (t = JS_ATOM_TYPE_SYMBOL /\ hash_next s2 = i /\ atom_hash σ' = atom_hash σ \/
   interned s2 /\ hash s2 = atom_hash_of s2 /\ j = bucket_of σ (hash s2) /\ znth (atom_hash σ) j = Some n /\
   hash_next s2 = n /\ (forall k, znth (atom_hash σ') k = if decide (k = j) then Some i else znth (atom_hash σ) k) /\
   forall x, content σ x <> Some (t, chars s)) ->
  atoms_ok σ' fl (fun k => if decide (k = j /\ t <> JS_ATOM_TYPE_SYMBOL) then i :: bs k else bs k) /\
  forall x, content σ' x = if decide (x = i) then Some (t, chars s) else content σ x.
Proof.
  intros Hok Hs Hs0 Ech Et Ehs Ec Esz Ecr Efi Eal Ea Est Ehl Hkind.
  pose proof (ok_address _ _ _ Hok p s Hs) as [Hp Hp0].
  assert (Hpn : forall x, znth (atom_array σ) x <> Some p) by (intros x; by eapply plain_not_entry).
  pose proof (free_range _ _ _ i Hok ltac:(by left)) as Hir.
  assert (Hfree : exists e, znth (atom_array σ) i = Some e /\ atom_is_free e = true).
  { unfold next_free in Efi. destruct (znth (atom_array σ) i) as [e|]; [|done]. cbn in Efi. exists e.
    split; [done|]. by destruct (atom_is_free e). }
  destruct Hfree as (e & He & Hef).
  assert (Hat : forall x, atom σ' x = if decide (x = i) then Some s2 else atom σ x).
  { intros x. unfold atom. rewrite Ea. case_decide; cbn [mbind option_bind]; [by rewrite Est, lookup_insert_eq|].
    destruct (znth (atom_array σ) x) as [q|] eqn:Hq; [|done]. cbn [mbind option_bind].
    rewrite Est, lookup_insert_ne; [done|]. intros <-. by apply (Hpn x). }
  assert (Hai : atom σ i = None).
  { unfold atom. rewrite He. cbn [mbind option_bind]. destruct (strings σ !! e) as [u|] eqn:E; [|done].
    apply (ok_address _ _ _ Hok) in E as [E _]. congruence. }
  assert (Hnf : forall x, next_free σ' x = if decide (x = i) then None else next_free σ x).
  { intros x. unfold next_free. rewrite Ea. case_decide; [|done]. cbn [mbind option_bind]. by rewrite Hp. }
  assert (Hsym : interned s2 -> t <> JS_ATOM_TYPE_SYMBOL) by (rewrite <- Et; apply interned_not_symbol).
  assert (Hnb : forall k, ~ (i ∈ bs k)).
  { intros k Hk. destruct (bucket_atoms _ _ _ _ _ Hok Hk) as (u & Hu & _). congruence. }
  pose proof (ok_free_nodup _ _ _ Hok) as [Hifl Hnd]%list.NoDup_cons.
  split; [|intros x; unfold content; rewrite Hat; case_decide; [cbn; by rewrite Et, Ech|done]]. split.
  - rewrite Ehs. by destruct Hok.
  - rewrite Ecr, Ehs. by destruct Hok.
  - rewrite Ehl, Ehs. by destruct Hok.
  - rewrite Eal, Esz. by destruct Hok.
  - rewrite Esz. by destruct Hok.
  - rewrite Ec, Esz. pose proof (ok_count _ _ _ Hok) as E. rewrite zlen_cons in E. lia.
  - intros q u. rewrite Est. intros [[<- _]|[_ ?]]%lookup_insert_Some; [done|by eapply (ok_address _ _ _ Hok)].
  - intros x q. rewrite Ea, Est. case_decide; [intros [= <-] _; rewrite lookup_insert_eq; by eexists|].
    intros Hq Hqe. destruct (ok_entry _ _ _ Hok x q Hq Hqe) as [u Hu].
    destruct (decide (q = p)) as [->|]; [rewrite lookup_insert_eq|rewrite lookup_insert_ne by done]; by eexists.
  - intros x y q. rewrite !Ea. repeat case_decide; intros E1 E2 Hq; simplify_eq; try done.
    + by destruct (Hpn y).
    + by destruct (Hpn x).
    + by eapply (ok_inj _ _ _ Hok).
  - intros q. rewrite Ea, decide_False by lia. apply (ok_zero _ _ _ Hok).
  - pose proof (ok_free _ _ _ Hok) as (_ & _ & m & Hm & Hc). rewrite Efi in Hm. injection Hm as ->.
    eapply ichain_frame; [|exact Hc]. intros x Hx. rewrite Hnf, decide_False; [done|]. by intros ->.
  - done.
  - intros x. rewrite Hnf. case_decide as Hx; [subst; split; [done|by intros []]|].
    rewrite <- (ok_free_all _ _ _ Hok), elem_of_cons. tauto.
  - assert (Hfr : forall k h, ichain (next_atom σ) h (bs k) -> ichain (next_atom σ') h (bs k)).
    { intros k h. apply ichain_frame. intros x Hx. unfold next_atom. rewrite Hat, decide_False; [done|].
      intros ->. by apply (Hnb k). }
    intros k h. destruct Hkind as [(Ht & _ & ->)|(Hint & _ & Hj & Hn & En & Hh & _)].
    + intros Hh. rewrite decide_False by tauto. by apply Hfr, (ok_chain _ _ _ Hok).
    + rewrite Hh. case_decide as Hk; [|rewrite decide_False by tauto; intros ?; by apply Hfr, (ok_chain _ _ _ Hok)].
      rewrite decide_True by auto. intros [= <-]. subst k. split; [done|]. split; [lia|]. exists n. unfold next_atom at 1. rewrite Hat, decide_True by done.
      split; [cbn; by rewrite En|]. by apply Hfr, (ok_chain _ _ _ Hok).
  - intros k. case_decide; [|apply (ok_chain_nodup _ _ _ Hok)]. apply list.NoDup_cons. split; [by apply Hnb|].
    apply (ok_chain_nodup _ _ _ Hok).
  - intros k x. assert (Eb : forall h, bucket_of σ' h = bucket_of σ h) by (intros; unfold bucket_of; by rewrite Ehs).
    transitivity (x ∈ bs k \/ (k = j /\ t <> JS_ATOM_TYPE_SYMBOL) /\ x = i); [case_decide; rewrite ?elem_of_cons; tauto|].
    rewrite Ehs, (ok_bucket _ _ _ Hok). setoid_rewrite Hat. setoid_rewrite Eb. destruct (decide (x = i)) as [->|Hx].
    + rewrite Hai. destruct Hkind as [(Ht & _)|(Hint & _ & Hj & Hn & _)].
      * split; [intros [(_ & u & [=] & _)|[[_ ?] _]]; done|]. intros (_ & u & [= <-] & Hu & _). by apply Hsym in Hu.
      * split; [intros [(_ & u & [=] & _)|[[-> _] _]]|].
        -- split; [|by exists s2]. rewrite <- (ok_hash_len _ _ _ Hok). by eapply znth_Some_range.
        -- intros (_ & u & [= <-] & _ & <-). right. auto.
    + split; [intros [?|[_ ?]]; done|by left].
  - intros x u. rewrite Hat. case_decide as Hx; [intros [= <-]; subst x|by apply (ok_kind _ _ _ Hok)].
    destruct Hkind as [(? & ? & _)|(? & ? & _)]; [left; split; congruence|right; split_and!; [lia|done..]].
  - assert (Hno : forall y u, atom σ y = Some u -> interned s2 -> atom_type u = t -> chars u = chars s -> False).
    { intros y u Hu Hint E1 E2. destruct Hkind as [(? & _)|(_ & _ & _ & _ & _ & _ & Hc)]; [by apply Hsym in Hint|].
      apply (Hc y). unfold content. rewrite Hu. cbn. by rewrite E1, E2. }
    intros x y u u'. rewrite !Hat. repeat case_decide; subst; try done; intros E1 E2 Hint E3 E4; simplify_eq.
    + exfalso. eapply (Hno y); try done. congruence.
    + exfalso. unfold interned in *. rewrite E3 in Hint. eapply (Hno x); try done. congruence.
    + by eapply (ok_unique _ _ _ Hok).
  - intros q u. rewrite Est. intros [[<- _]|[Hq Hu]]%lookup_insert_Some Hty.
    + exists i. by rewrite Ea, decide_True.
    + destruct (ok_atoms _ _ _ Hok q u Hu Hty) as [x Hx]. exists x. rewrite Ea, decide_False; [done|].
      intros ->. rewrite He in Hx. injection Hx as <-. apply (ok_address _ _ _ Hok) in Hu as [E _]. congruence.
Qed.

(** ** Rehashing *)

Section rehash.
Context (σ0 : JSAtoms) (fl : list Z) (bs : Z -> list Z) (Hok : atoms_ok σ0 fl bs) (n mask : Z).
Context (Hmask : forall h, 0 <= Z.land h mask < n).

(** The atoms [done] are in the new table [nh], with the chains [nb]. *)
Record rehashed (σ : JSAtoms) (nh : list Z) (done : list Z) (nb : Z -> list Z) : Prop := {
  rh_array : atom_array σ = atom_array σ0;
  rh_rest : atom_hash_size σ = atom_hash_size σ0 /\ atom_count σ = atom_count σ0 /\ atom_size σ = atom_size σ0 /\
    atom_count_resize σ = atom_count_resize σ0 /\ atom_free_index σ = atom_free_index σ0;
  rh_strings q : string_kept σ0 σ q;
  rh_next x : ~ (x ∈ done) -> next_atom σ x = next_atom σ0 x;
  rh_len : zlen nh = n;
  rh_chain j h : znth nh j = Some h -> ichain (next_atom σ) h (nb j);
  rh_nodup j : NoDup (nb j);
  rh_bucket j x : x ∈ nb j <-> x ∈ done /\ exists s, atom σ0 x = Some s /\ Z.land (hash s) mask = j
}.

Lemma rehash_one σ nh dn nb x s : rehashed σ nh dn nb -> ~ (x ∈ dn) -> atom σ0 x = Some s -> interned s -> x <> 0 ->
  exists p t m nh', znth (atom_array σ) x = Some p /\ get_string σ p = Some t /\ hash t = hash s /\
    next_atom σ0 x = Some (hash_next t) /\
    znth nh (Z.land (hash t) mask) = Some m /\ zupd nh (Z.land (hash t) mask) x = Some nh' /\
    rehashed (put_string σ p (set_hash_next m t)) nh' (x :: dn)
      (fun k => if decide (k = Z.land (hash t) mask) then x :: nb k else nb k).
Proof.
  intros Hr Hx Hs Hint Hx0. destruct (atom_Some _ _ _ Hs) as (p & Hp & Hps).
  pose proof (rh_strings _ _ _ _ Hr p) as Hk. unfold string_kept in Hk. rewrite Hps in Hk.
  destruct Hk as (t & Ht & (E1 & E2 & E3 & E4 & E5) & _).
  assert (Hn : next_atom σ0 x = Some (hash_next t)).
  { rewrite <- (rh_next _ _ _ _ Hr x Hx). unfold next_atom, atom. rewrite (rh_array _ _ _ _ Hr), Hp. cbn. by rewrite Ht. }
  destruct (znth_is_Some nh (Z.land (hash t) mask)) as [m Hm]; [rewrite (rh_len _ _ _ _ Hr); apply Hmask|].
  destruct (zupd_write _ _ x _ Hm) as (nh' & Hupd & Hl & Hnth).
  exists p, t, m, nh'. split_and!; try done; [by rewrite (rh_array _ _ _ _ Hr)|].
  set (σ' := put_string _ _ _). set (j := Z.land (hash t) mask) in *.
  assert (Hat : forall y, next_atom σ' y = if decide (y = x) then Some m else next_atom σ y).
  { intros y. unfold next_atom. subst σ'. rewrite atom_put, (rh_array _ _ _ _ Hr). unfold atom. rewrite (rh_array _ _ _ _ Hr).
    case_decide as Hy; [subst y; rewrite Hp; cbn [mbind option_bind]; by rewrite decide_True|].
    destruct (znth (atom_array σ0) y) as [q|] eqn:Hq; [|done]. cbn [mbind option_bind]. rewrite decide_False; [done|].
    intros ->. apply Hy. eapply (ok_inj _ _ _ Hok); [done..|]. by eapply (ok_address _ _ _ Hok). }
  assert (Hnb : forall k, ~ (x ∈ nb k)) by (intros k [? _]%(rh_bucket _ _ _ _ Hr); done).
  split.
  - exact (rh_array _ _ _ _ Hr).
  - exact (rh_rest _ _ _ _ Hr).
  - intros q. pose proof (rh_strings _ _ _ _ Hr q) as Hk. unfold string_kept in *. subst σ'.
    cbn [strings put_string set_strings]. destruct (decide (q = p)) as [->|]; [|by rewrite lookup_insert_ne].
    rewrite lookup_insert_eq, Hps. exists (set_hash_next m t). split; [done|]. split; [done|by right].
  - intros y Hy. rewrite elem_of_cons in Hy. rewrite Hat, decide_False by tauto. apply (rh_next _ _ _ _ Hr). tauto.
  - rewrite Hl. apply (rh_len _ _ _ _ Hr).
  - intros k h. rewrite Hnth.
    assert (Hf : forall h, ichain (next_atom σ) h (nb k) -> ichain (next_atom σ') h (nb k)).
    { intros h1. apply ichain_frame. intros y Hy. rewrite Hat, decide_False; [done|]. intros ->. by apply (Hnb k). }
    case_decide as E; [|intros ?; by apply Hf, (rh_chain _ _ _ _ Hr)]. intros [= <-]. subst k. split; [done|]. split; [done|].
    exists m. split; [by rewrite Hat, decide_True|]. by apply Hf, (rh_chain _ _ _ _ Hr).
  - intros k. case_decide; [|apply (rh_nodup _ _ _ _ Hr)]. apply list.NoDup_cons. split; [apply Hnb|apply (rh_nodup _ _ _ _ Hr)].
  - intros k y. transitivity (y ∈ nb k \/ k = j /\ y = x); [case_decide; rewrite ?elem_of_cons; tauto|].
    rewrite (rh_bucket _ _ _ _ Hr), elem_of_cons. subst j. rewrite E4. split.
    + intros [[Hy Hb]|[-> ->]]; [by split; [right|]|]. split; [by left|]. by exists s.
    + intros [[->|Hy] (u & Hu & <-)]; [right|left]; [|split; [done|by exists u]]. rewrite Hs in Hu. by injection Hu as <-.
Qed.

Lemma rehash_chain_ok fuel : forall σ nh dn nb h l, rehashed σ nh dn nb -> ichain (next_atom σ0) h l -> NoDup l ->
  (forall x, x ∈ l -> ~ (x ∈ dn) /\ exists s, atom σ0 x = Some s /\ interned s) -> (length l <= fuel)%nat ->
  exists σ' nh' dn' nb', rehash_chain fuel σ nh mask h = Some (σ', nh') /\ rehashed σ' nh' dn' nb' /\
    forall x, x ∈ dn' <-> x ∈ dn \/ x ∈ l.
Proof.
  induction fuel as [|fuel IH]; intros σ nh dn nb h [|x l]; cbn [ichain rehash_chain length]; try lia.
  1, 2: intros Hr -> _ _ _; exists σ, nh, dn, nb; split; [done|]; split; [done|]; intros y; rewrite elem_of_nil; tauto.
  intros Hr (-> & Hx & m & Hm & Hl) [Hxl Hnd]%list.NoDup_cons Hall Hf. rewrite (proj2 (Z.eqb_neq x 0)) by done.
  destruct (Hall x ltac:(by left)) as (Hxd & s & Hs & Hint).
  destruct (rehash_one σ nh dn nb x s Hr Hxd Hs Hint Hx) as (p & t & m' & nh' & E1 & E2 & E3 & E4 & E5 & E6 & Hr').
  rewrite E1. cbn [mbind option_bind]. rewrite E2. cbn [mbind option_bind]. rewrite E5. cbn [mbind option_bind].
  rewrite E6. cbn [mbind option_bind].
  rewrite Hm in E4. injection E4 as ->.
  destruct (IH _ _ _ _ _ l Hr' Hl Hnd) as (σ2 & nh2 & dn2 & nb2 & -> & Hr2 & Hd); [|lia|].
  - intros y Hy. destruct (Hall y ltac:(by right)) as [Hyd ?]. split; [|done]. rewrite elem_of_cons.
    intros [->|?]; done.
  - exists σ2, nh2, dn2, nb2. split; [done|]. split; [done|]. intros y. rewrite Hd, !elem_of_cons. tauto.
Qed.

Lemma rehash_all_ok old : forall σ nh dn nb b, rehashed σ nh dn nb -> 0 <= b ->
  (forall j, 0 <= j -> znth old j = znth (atom_hash σ0) (b + j)) ->
  (forall x, x ∈ dn <-> exists j, 0 <= j < b /\ x ∈ bs j) ->
  exists σ' nh' dn' nb', rehash_all σ old nh mask = Some (σ', nh') /\ rehashed σ' nh' dn' nb' /\
    forall x, x ∈ dn' <-> exists j, 0 <= j < b + zlen old /\ x ∈ bs j.
Proof.
  induction old as [|h old IH]; intros σ nh dn nb b Hr Hb Hold Hdn; cbn [rehash_all].
  { exists σ, nh, dn, nb. split; [done|]. split; [done|]. intros x. rewrite Hdn. change (zlen []) with 0. by rewrite Z.add_0_r. }
  pose proof (Hold 0 ltac:(lia)) as Hh. rewrite znth_cons_0, Z.add_0_r in Hh. symmetry in Hh.
  destruct (rehash_chain_ok (length (atom_array σ)) σ nh dn nb h (bs b) Hr (ok_chain _ _ _ Hok b h Hh) (ok_chain_nodup _ _ _ Hok b))
    as (σ1 & nh1 & dn1 & nb1 & -> & Hr1 & Hd1).
  - intros x Hx. destruct (bucket_atoms _ _ _ _ _ Hok Hx) as (s & Hs & Hint & _). split; [|by exists s].
    intros (j & Hj & Hxj)%Hdn. destruct (proj1 (ok_bucket _ _ _ Hok j x) Hxj) as (_ & t & Ht & _ & E1).
    destruct (proj1 (ok_bucket _ _ _ Hok b x) Hx) as (_ & t' & Ht' & _ & E2). rewrite Ht in Ht'. injection Ht' as ->. lia.
  - rewrite (rh_array _ _ _ _ Hr). by eapply bucket_length.
  - cbn [mbind option_bind]. destruct (IH σ1 nh1 dn1 nb1 (b + 1) Hr1) as (σ2 & nh2 & dn2 & nb2 & E & Hr2 & Hd2); [lia| | |].
    + intros j Hj. specialize (Hold (j + 1) ltac:(lia)). rewrite znth_cons_S in Hold by lia.
      replace (j + 1 - 1) with j in Hold by lia. rewrite Hold. f_equal. lia.
    + intros x. rewrite Hd1, Hdn. split.
      * intros [(j & Hj & Hx)|Hx]; [exists j; split; [lia|done]|exists b; split; [lia|done]].
      * intros (j & Hj & Hx). destruct (decide (j = b)) as [->|]; [by right|left; exists j; split; [lia|done]].
    + exists σ2, nh2, dn2, nb2. split; [done|]. split; [done|]. intros x. rewrite Hd2, zlen_cons.
      split; intros (j & Hj & Hx); exists j; (split; [lia|done]).
Qed.
End rehash.

Lemma string_kept_refl σ σ' q : strings σ' !! q = strings σ !! q -> string_kept σ σ' q.
Proof.
  unfold string_kept. intros ->. destruct (strings σ !! q) as [t|]; [|done]. exists t. split; [done|]. split; [done|by left].
Qed.

Lemma string_kept_trans σ1 σ2 σ3 q : string_kept σ1 σ2 q -> string_kept σ2 σ3 q -> string_kept σ1 σ3 q.
Proof.
  unfold string_kept, same_string. destruct (strings σ1 !! q) as [t|]; [|by intros ->].
  intros (t' & -> & (E1 & E2 & E3 & E4 & E5) & E6) (t'' & -> & (F1 & F2 & F3 & F4 & F5) & F6). exists t''.
  split; [done|]. split; [split_and!; congruence|]. destruct F6 as [F6|F6]; [|right; unfold interned in *; by rewrite <- E5].
  destruct E6 as [E6|E6]; [left; congruence|by right].
Qed.

Lemma kept_atom σ σ' i : atom_array σ' = atom_array σ -> (forall q, string_kept σ σ' q) ->
  match atom σ i with
  | Some s => exists s', atom σ' i = Some s' /\ same_string s' s /\ (hash_next s' = hash_next s \/ interned s)
  | None => atom σ' i = None
  end.
Proof.
  intros Ea Hk. unfold atom. rewrite Ea. destruct (znth (atom_array σ) i) as [p|]; [|done]. cbn. apply (Hk p).
Qed.

Lemma kept_content σ σ' i : atom_array σ' = atom_array σ -> (forall q, string_kept σ σ' q) -> content σ' i = content σ i.
Proof.
  intros Ea Hk. pose proof (kept_atom σ σ' i Ea Hk) as H. unfold content. destruct (atom σ i) as [s|]; [|by rewrite H].
  destruct H as (s' & -> & (_ & _ & E1 & _ & E2) & _). cbn. by rewrite E1, E2.
Qed.

Lemma rehashed_ok σ0 fl bs σ nh dn nb k : atoms_ok σ0 fl bs -> 0 <= k -> 2 ^ k <= 2 ^ 30 ->
  rehashed σ0 (2 ^ k) (u32 (2 ^ k - 1)) σ nh dn nb ->
  (forall x, x ∈ dn <-> exists j, 0 <= j < atom_hash_size σ0 /\ x ∈ bs j) ->
  atoms_ok (mk_atoms (2 ^ k) (atom_count σ) (atom_size σ) (JS_ATOM_COUNT_RESIZE (2 ^ k)) nh (atom_array σ)
    (atom_free_index σ) (strings σ)) fl nb.
Proof.
  intros Hok Hk Hmax Hr Hdn. pose proof (rh_array _ _ _ _ _ _ _ Hr) as Ea.
  pose proof (rh_rest _ _ _ _ _ _ _ Hr) as (_ & E2 & E3 & _ & E5).
  pose proof (fun q => rh_strings _ _ _ _ _ _ _ Hr q) as Hkept. set (σ' := mk_atoms _ _ _ _ _ _ _ _).
  assert (Hk' : forall q, string_kept σ0 σ' q) by (intros q; apply Hkept).
  assert (Hat : forall i, match atom σ0 i with
    | Some s => exists s', atom σ' i = Some s' /\ same_string s' s /\ (hash_next s' = hash_next s \/ interned s)
    | None => atom σ' i = None end) by (intros i; by apply kept_atom).
  assert (Hback : forall i s', atom σ' i = Some s' -> exists s, atom σ0 i = Some s /\ same_string s' s /\
    (hash_next s' = hash_next s \/ interned s)).
  { intros i s' E. specialize (Hat i). destruct (atom σ0 i) as [s|]; [|congruence].
    destruct Hat as (u & Eu & ?). rewrite E in Eu. injection Eu as <-. by exists s. }
  assert (Hnf : forall x, next_free σ' x = next_free σ0 x) by (intros x; unfold next_free; subst σ'; cbn; by rewrite Ea).
  assert (Hb : forall x, x ∈ dn <-> exists s, atom σ0 x = Some s /\ interned s).
  { intros x. rewrite Hdn. split.
    - intros (j & _ & Hx). destruct (bucket_atoms _ _ _ _ _ Hok Hx) as (s & ? & ? & _). by exists s.
    - intros (s & Hs & Hint). exists (bucket_of σ0 (hash s)). pose proof (bucket_range _ _ _ (hash s) Hok) as Hj.
      split; [done|]. apply (ok_bucket _ _ _ Hok). split; [done|]. by exists s. }
  subst σ'. destruct Hok. split; cbn [atom_hash_size atom_count_resize atom_hash atom_array atom_size atom_count strings atom_free_index].
  - by exists k.
  - done.
  - apply (rh_len _ _ _ _ _ _ _ Hr).
  - by rewrite Ea, E3.
  - by rewrite E3.
  - by rewrite E2, E3.
  - intros p s' E. specialize (Hkept p). unfold string_kept in Hkept. destruct (strings σ0 !! p) as [s|] eqn:Es; [|congruence].
    by eapply ok_address0.
  - intros i p Hp Hpe. rewrite Ea in Hp. destruct (ok_entry0 i p Hp Hpe) as [s Hs]. specialize (Hkept p).
    unfold string_kept in Hkept. rewrite Hs in Hkept. destruct Hkept as (s' & -> & _). by eexists.
  - rewrite Ea. apply ok_inj0.
  - rewrite Ea. apply ok_zero0.
  - rewrite E5. eapply ichain_frame; [|exact ok_free0]. intros x _. apply Hnf.
  - done.
  - intros x. rewrite Hnf. apply ok_free_all0.
  - intros j h Hh. apply (rh_chain _ _ _ _ _ _ _ Hr j h Hh).
  - apply (rh_nodup _ _ _ _ _ _ _ Hr).
  - intros j x. rewrite (rh_bucket _ _ _ _ _ _ _ Hr), Hb. unfold bucket_of. cbn [atom_hash_size]. split.
    + intros [(s & Hs & Hint) (s1 & Hs1 & <-)]. rewrite Hs in Hs1. injection Hs1 as <-. split.
      { rewrite land_pow2_mask by done. apply Z.mod_pos_bound. apply Z.pow_pos_nonneg; lia. }
      specialize (Hat x). rewrite Hs in Hat. destruct Hat as (s' & Hs' & (_ & _ & _ & E6 & E7) & _). exists s'.
      split; [done|]. unfold interned. by rewrite E6, E7.
    + intros (_ & s' & Hs' & Hint & <-). destruct (Hback x s' Hs') as (s & Hs & (_ & _ & _ & E6 & E7) & _).
      unfold interned in Hint. rewrite E7 in Hint. split; exists s; (split; [done|]); [done|by rewrite E6].
  - intros x s' Hs'. destruct (Hback x s' Hs') as (s & Hs & (_ & _ & F1 & F2 & F3) & F4).
    unfold interned, atom_hash_of, hash_string. rewrite F1, F2, F3. destruct (ok_kind0 x s Hs) as [[? ?]|?]; [left|by right].
    split; [done|]. destruct F4 as [F4|F4]; [congruence|by apply interned_not_symbol in F4].
  - intros x y s s' Hs Hs' Hint Et Ec. destruct (Hback x s Hs) as (t & Ht & (_ & _ & F1 & _ & F3) & _).
    destruct (Hback y s' Hs') as (t' & Ht' & (_ & _ & G1 & _ & G3) & _). unfold interned in Hint. rewrite F3 in Hint, Et.
    eapply ok_unique0; eauto; congruence.
  - intros p s' E Hty. specialize (Hkept p). unfold string_kept in Hkept. destruct (strings σ0 !! p) as [s|] eqn:Es; [|congruence].
    destruct Hkept as (u & Eu & (_ & _ & _ & _ & F) & _). rewrite E in Eu. injection Eu as <-. rewrite F in Hty.
    rewrite Ea. by eapply ok_atoms0.
Qed.

Section operations.
Context {M : JSMalloc} {HM : JSMallocOk M}.

Lemma pow2_land k : 0 <= k -> Z.land (2 ^ k) (2 ^ k - 1) = 0.
Proof.
  intros Hk. replace (2 ^ k - 1) with (Z.ones k) by (rewrite Z.ones_equiv; lia).
  rewrite Z.land_ones by done. apply Z.mod_same. pose proof (Z.pow_pos_nonneg 2 k). lia.
Qed.

Lemma JS_ResizeAtomHash_ok σ fl bs k : atoms_ok σ fl bs -> 0 <= k -> 2 ^ k <= 2 ^ 30 ->
  exists σ' r bs', JS_ResizeAtomHash σ (2 ^ k) = Some (σ', r) /\ atoms_ok σ' fl bs' /\
    atom_array σ' = atom_array σ /\ atom_size σ' = atom_size σ /\ (forall q, string_kept σ σ' q).
Proof.
  intros Hok Hk Hmax. unfold JS_ResizeAtomHash. rewrite pow2_land by done. cbn [Z.eqb].
  destruct (js_malloc σ (4 * 2 ^ k)); [|exists σ, (-1), bs; split_and!; try done; intros; by apply string_kept_refl].
  assert (Hold : zslice (atom_hash σ) 0 (atom_hash_size σ) = Some (atom_hash σ)).
  { pose proof (ok_hash_len _ _ _ Hok) as El. pose proof (zlen_nonneg (atom_hash σ)). rewrite zslice_is_Some by lia.
    f_equal. change (drop (Z.to_nat 0) (atom_hash σ)) with (atom_hash σ). apply take_ge. unfold zlen in El. lia. }
  rewrite Hold. cbn [mbind option_bind]. pose proof (Z.pow_pos_nonneg 2 k ltac:(lia) Hk) as Hpos.
  assert (Hmask : forall h, 0 <= Z.land h (u32 (2 ^ k - 1)) < 2 ^ k).
  { intros h. rewrite land_pow2_mask by done. by apply Z.mod_pos_bound. }
  destruct (rehash_all_ok σ fl bs Hok (2 ^ k) (u32 (2 ^ k - 1)) Hmask (atom_hash σ) σ
    (replicate (Z.to_nat (2 ^ k)) 0) [] (fun _ => []) 0) as (σ1 & nh & dn & nb & -> & Hr & Hdn).
  - split; try done.
    + intros q. by apply string_kept_refl.
    + unfold zlen. rewrite length_replicate. lia.
    + intros j h Hh. cbn. unfold znth in Hh. destruct (j <? 0); [done|]. by apply lookup_replicate in Hh as [-> _].
    + intros j. constructor.
    + intros j x. split; [by intros ?%elem_of_nil|by intros [?%elem_of_nil _]].
  - lia.
  - intros j Hj. by rewrite Z.add_0_l.
  - intros x. split; [by intros ?%elem_of_nil|intros (j & ? & _); lia].
  - cbn [mbind option_bind]. eexists _, 0, nb. split; [done|]. split.
    + eapply rehashed_ok; try done. intros x. rewrite Hdn. pose proof (ok_hash_len _ _ _ Hok) as El.
      split; intros (j & Hj & Hx); exists j; (split; [lia|done]).
    + split; [apply (rh_array _ _ _ _ _ _ _ Hr)|]. split; [apply (rh_rest _ _ _ _ _ _ _ Hr)|].
      intros q. apply (rh_strings _ _ _ _ _ _ _ Hr).
Qed.
End operations.
