(* ===== verification/AtomOps.v ===== *)
(** * The operations on atoms and interning

    Interning gives every content one index and leaves the other atoms alone; the invariant
    of the table survives every operation, also when the allocator fails.  The second half
    says what [JS_NewAtom] and the operations on the references of an atom promise. *)

From Stdlib Require Import Strings.String.
From stdpp Require Import gmap.
From S2P Require Import Prelude Chain AtomTable AtomOk.

(** ** Strings outside the table *)

Lemma atoms_ok_strings σ fl bs m : atoms_ok σ fl bs ->
  (forall i p, znth (atom_array σ) i = Some p -> m !! p = strings σ !! p) ->
  (forall p s, m !! p = Some s -> atom_is_free p = false /\ p <> 0 /\
     (atom_type s <> 0 -> exists i, znth (atom_array σ) i = Some p)) ->
  atoms_ok (set_strings m σ) fl bs /\ forall i, atom (set_strings m σ) i = atom σ i.
Proof.
  intros Hok Hm Hp.
  assert (Hat : forall i, atom (set_strings m σ) i = atom σ i).
  { intros i. unfold atom. cbn [atom_array set_strings strings]. destruct (znth (atom_array σ) i) as [q|] eqn:Hq; [|done].
    cbn [mbind option_bind]. by eapply Hm. }
  split; [|done]. destruct Hok. split; try done.
  - intros p s Hs. by destruct (Hp p s Hs) as (? & ? & _).
  - intros i p Hi He. cbn [strings set_strings]. rewrite (Hm i p Hi). by eapply ok_entry.
  - intros j h Hh. eapply ichain_frame; [|by apply ok_chain]. intros x _. unfold next_atom. by rewrite Hat.
  - intros j i. rewrite Hat. apply ok_bucket.
  - intros i s. rewrite Hat. apply ok_kind.
  - intros i j s s'. rewrite !Hat. apply ok_unique.
  - intros p s Hs Ht. destruct (Hp p s Hs) as (_ & _ & Hx). by apply Hx.
Qed.

(** The string at [p] is not an atom. *)
Definition plain (σ : JSAtoms) (p : Z) : Prop := match strings σ !! p with Some s => atom_type s = 0 | None => True end.

Lemma plain_no_entry σ fl bs p i : atoms_ok σ fl bs -> plain σ p -> atom_is_free p = false -> znth (atom_array σ) i <> Some p.
Proof.
  intros Hok Hp He Hi. destruct (ok_entry _ _ _ Hok i p Hi He) as [s Hs]. unfold plain in Hp. rewrite Hs in Hp.
  by eapply plain_not_entry.
Qed.

Lemma put_plain_ok σ fl bs p s : atoms_ok σ fl bs -> plain σ p -> atom_is_free p = false -> p <> 0 -> atom_type s = 0 ->
  atoms_ok (put_string σ p s) fl bs /\ forall i, content (put_string σ p s) i = content σ i.
Proof.
  intros Hok Hp He Hp0 Ht. destruct (atoms_ok_strings σ fl bs (<[p := s]> (strings σ)) Hok) as [H1 H2].
  - intros i q Hq. rewrite lookup_insert_ne; [done|]. intros ->. by eapply plain_no_entry.
  - intros q t [[<- <-]|[Hq Hqt]]%lookup_insert_Some; [done|].
    destruct (ok_address _ _ _ Hok q t Hqt) as [? ?]. split_and!; try done. by eapply (ok_atoms _ _ _ Hok).
  - split; [exact H1|]. intros i. unfold content. by rewrite H2.
Qed.

Lemma delete_plain_ok σ fl bs p : atoms_ok σ fl bs -> plain σ p -> atom_is_free p = false ->
  atoms_ok (set_strings (delete p (strings σ)) σ) fl bs /\
  forall i, content (set_strings (delete p (strings σ)) σ) i = content σ i.
Proof.
  intros Hok Hp He. destruct (atoms_ok_strings σ fl bs (delete p (strings σ)) Hok) as [H1 H2].
  - intros i q Hq. rewrite lookup_delete_ne; [done|]. intros ->. by eapply plain_no_entry.
  - intros q t [Hq Hqt]%lookup_delete_Some. destruct (ok_address _ _ _ Hok q t Hqt) as [? ?]. split_and!; try done.
    by eapply (ok_atoms _ _ _ Hok).
  - split; [exact H1|]. intros i. unfold content. by rewrite H2.
Qed.

(** ** Growing the array *)

Lemma free_entries_nth n : forall i N k, 0 <= k < Z.of_nat n ->
  znth (free_entries n i N) k = Some (atom_set_free (if i + k =? N - 1 then 0 else i + k + 1)).
Proof.
  induction n as [|n IH]; intros i N k Hk; [lia|]. cbn [free_entries]. destruct (decide (k = 0)) as [->|].
  - by rewrite znth_cons_0, Z.add_0_r.
  - rewrite znth_cons_S, IH by lia. by replace (i + 1 + (k - 1)) with (i + k) by lia.
Qed.

Lemma free_entries_len n i N : zlen (free_entries n i N) = Z.of_nat n.
Proof. revert i. induction n as [|n IH]; intros i; cbn [free_entries]; [done|]. rewrite zlen_cons, IH. lia. Qed.

(** The new entries hold no address. *)
Lemma grown_entry a n i0 N p i : atom_is_free p = false ->
  znth (a ++ free_entries n i0 N) i = Some p <-> znth a i = Some p.
Proof.
  intros He. destruct (decide (i < zlen a)) as [Hi|Hi]; [by rewrite znth_app_l|].
  rewrite (znth_None a) by lia. split; [|done]. intros H. pose proof (znth_Some_range _ _ _ H) as Hr.
  rewrite zlen_app, free_entries_len in Hr. rewrite znth_app_r, free_entries_nth in H by lia.
  injection H as <-. by rewrite atom_set_free_odd in He.
Qed.

Lemma no_free σ fl bs : atoms_ok σ fl bs -> atom_free_index σ = 0 -> fl = [].
Proof.
  intros Hok Hz. pose proof (ok_free _ _ _ Hok) as Hf. destruct fl as [|x fl]; [done|].
  destruct Hf as (E & Hx & _). congruence.
Qed.

(** The free entries that are added follow each other. *)
Lemma new_entries_chain (f : Z -> option Z) start N n : 0 < start -> start + Z.of_nat n = N ->
  (forall i, start <= i < N -> f i = Some (if i =? N - 1 then 0 else i + 1)) -> (0 < n)%nat ->
  ichain f start (seqZ start (Z.of_nat n)).
Proof.
  revert start. induction n as [|n IH]; intros start Hs HN Hf Hn; [lia|].
  rewrite seqZ_cons by lia. cbn [ichain]. split; [done|]. split; [lia|]. replace (Z.pred (Z.of_nat (S n))) with (Z.of_nat n) by lia.
  exists (if start =? N - 1 then 0 else start + 1). split; [apply Hf; lia|]. destruct (Z.eqb_spec start (N - 1)) as [E|E].
  - replace n with 0%nat by lia. done.
  - apply IH; [lia..| |lia]. intros i Hi. apply Hf. lia.
Qed.

Lemma grow_array_ok σ bs N : atoms_ok σ [] bs -> 0 < atom_size σ < N -> N <= JS_ATOM_MAX ->
  let σ' := mk_atoms (atom_hash_size σ) (atom_count σ) N (atom_count_resize σ) (atom_hash σ)
    (atom_array σ ++ free_entries (Z.to_nat (N - atom_size σ)) (atom_size σ) N) (atom_size σ) (strings σ) in
  atoms_ok σ' (seqZ (atom_size σ) (N - atom_size σ)) bs /\ forall i, content σ' i = content σ i.
Proof.
  intros Hok Hs HN σ'. set (start := atom_size σ) in *. assert (EM : JS_ATOM_MAX = 2 ^ 30 - 1) by reflexivity.
  pose proof (ok_array_len _ _ _ Hok) as Hlen. fold start in Hlen.
  assert (Hold : forall i, i < start -> znth (atom_array σ') i = znth (atom_array σ) i) by (intros; apply znth_app_l; lia).
  assert (Hnew : forall i, start <= i < N ->
    znth (atom_array σ') i = Some (atom_set_free (if i =? N - 1 then 0 else i + 1))).
  { intros i Hi. subst σ'. cbn [atom_array]. rewrite znth_app_r by lia. rewrite free_entries_nth by lia.
    rewrite Hlen. by replace (start + (i - start)) with i by lia. }
  assert (Hcase : forall i p, znth (atom_array σ') i = Some p -> atom_is_free p = false -> i < start /\ znth (atom_array σ) i = Some p).
  { intros i p Hp He. destruct (decide (i < start)) as [Hi|Hi]; [by rewrite Hold in Hp|].
    pose proof (znth_Some_range _ _ _ Hp) as Hr. subst σ'. cbn [atom_array] in Hr. rewrite zlen_app, free_entries_len in Hr.
    rewrite (Hnew i) in Hp by lia. injection Hp as <-. by rewrite atom_set_free_odd in He. }
  assert (Hat : forall i, atom σ' i = atom σ i).
  { intros i. unfold atom. destruct (decide (i < start)) as [Hi|Hi]; [by rewrite Hold|].
    destruct (znth (atom_array σ') i) as [p|] eqn:Hp.
    - destruct (strings σ' !! p) as [s|] eqn:Es; cbn [mbind option_bind]; rewrite Es.
      + apply (ok_address _ _ _ Hok) in Es as [He _]. by destruct (Hcase i p Hp He).
      + by rewrite znth_None by lia.
    - by rewrite znth_None by lia. }
  assert (Hnf : forall i, next_free σ' i = if decide (start <= i < N) then Some (if i =? N - 1 then 0 else i + 1) else None).
  { intros i. unfold next_free. case_decide as Hi.
    - rewrite Hnew by done. cbn [mbind option_bind]. rewrite atom_set_free_odd, atom_get_set_free; [done|].
      destruct (i =? N - 1); lia.
    - destruct (decide (i < start)) as [Hlt|Hlt].
      + rewrite Hold by done. destruct (next_free σ i) as [n|] eqn:En; [|exact En].
        assert (Hin : i ∈ []) by (apply (ok_free_all _ _ _ Hok); by eexists). by apply elem_of_nil in Hin.
      + rewrite znth_None; [done|]. subst σ'. cbn [atom_array]. rewrite zlen_app, free_entries_len. lia. }
  split; [|intros i; unfold content; by rewrite Hat].
  pose proof (ok_count _ _ _ Hok) as Hc. rewrite Z.add_0_r in Hc.
  assert (Hb : forall h, bucket_of σ' h = bucket_of σ h) by done.
  destruct Hok. split; try done.
  - cbn [atom_array atom_size]. subst σ'. cbn [atom_array atom_size]. rewrite zlen_app, free_entries_len. lia.
  - cbn. unfold zlen. rewrite length_seqZ. fold start in Hc. lia.
  - intros i p Hp He. destruct (Hcase i p Hp He) as [_ Hp']. by eapply ok_entry.
  - intros i j p Hp Hp' He. destruct (Hcase i p Hp He) as [_ H1], (Hcase j p Hp' He) as [_ H2]. by eapply ok_inj.
  - intros p. rewrite Hold by lia. apply ok_zero.
  - replace (N - start) with (Z.of_nat (Z.to_nat (N - start))) by lia. apply (new_entries_chain _ start N); [lia..| |lia].
    intros i Hi. rewrite Hnf. by rewrite decide_True.
  - apply NoDup_seqZ.
  - intros i. rewrite elem_of_seqZ, Hnf. case_decide as Hi; [split; [by eexists|lia]|]. split; [lia|by intros []].
  - intros j h Hh. eapply ichain_frame; [|by apply ok_chain]. intros x _. unfold next_atom. by rewrite Hat.
  - intros j i. rewrite Hat. apply ok_bucket.
  - intros i s. rewrite Hat. apply ok_kind.
  - intros i j s s'. rewrite !Hat. apply ok_unique.
  - intros p s Hs' Ht. destruct (ok_atoms p s Hs' Ht) as [i Hi]. exists i. rewrite Hold; [done|].
    apply znth_Some_range in Hi. lia.
Qed.

(** The first entry is the atom [JS_ATOM_NULL]. *)
Lemma zero_entry_ok σ bs p : atoms_ok σ [] bs -> atom_size σ = 0 -> strings σ !! p = None -> atom_is_free p = false -> p <> 0 ->
  atoms_ok (mk_atoms (atom_hash_size σ) (atom_count σ + 1) 1 (atom_count_resize σ) (atom_hash σ) [p] (atom_free_index σ)
    (<[p := mk_string 1 false [] 0 JS_ATOM_TYPE_SYMBOL 0]> (strings σ))) [] bs.
Proof.
  intros Hok Hz Hp He Hp0. set (σ' := mk_atoms _ _ _ _ _ _ _ _). pose proof (ok_array_len _ _ _ Hok) as Hlen.
  assert (Hnone : forall i, znth (atom_array σ) i = None).
  { intros i. destruct (znth (atom_array σ) i) as [q|] eqn:E; [|done]. apply znth_Some_range in E. lia. }
  assert (Hemp : forall i, atom σ i = None) by (intros i; unfold atom; by rewrite Hnone).
  assert (Hbs : forall j i, ~ (i ∈ bs j)).
  { intros j i Hi. destruct (bucket_atoms _ _ _ _ _ Hok Hi) as (s & Hs & _). by rewrite Hemp in Hs. }
  assert (Harr : forall i q, znth (atom_array σ') i = Some q -> i = 0 /\ q = p).
  { intros i q Hq. pose proof (znth_Some_range _ _ _ Hq) as Hr. change (zlen _) with 1 in Hr.
    replace i with 0 in * by lia. by injection Hq as <-. }
  assert (Hat : forall i s, atom σ' i = Some s -> i = 0 /\ s = mk_string 1 false [] 0 JS_ATOM_TYPE_SYMBOL 0).
  { intros i s (q & Hq & Hs)%atom_Some. destruct (Harr i q Hq) as [-> ->]. split; [done|].
    subst σ'. cbn [strings] in Hs. rewrite lookup_insert_eq in Hs. by injection Hs as <-. }
  destruct Hok. split; try done.
  - cbn [atom_size atom_count]. rewrite Z.add_0_r in ok_count |- *. subst σ'. cbn. lia.
  - subst σ'. cbn [strings]. intros q s [[<- _]|[_ Hs]]%lookup_insert_Some; [done|by eapply ok_address].
  - intros i q Hq _. destruct (Harr i q Hq) as [-> ->]. subst σ'. cbn. rewrite lookup_insert_eq. by eexists.
  - intros i j q Hi Hj _. destruct (Harr i q Hi) as [-> _]. by destruct (Harr j q Hj) as [-> _].
  - intros q Hq. destruct (Harr 0 q Hq) as [_ ->]. done.
  - intros i. split; [by intros ?%elem_of_nil|]. intros [n Hn]. unfold next_free in Hn.
    destruct (znth (atom_array σ') i) as [q|] eqn:Hq; [|done]. destruct (Harr i q Hq) as [_ ->]. cbn in Hn. by rewrite He in Hn.
  - intros j h Hh. eapply ichain_frame; [|by apply ok_chain]. intros x Hx. by apply Hbs in Hx.
  - intros j i. split; [intros Hi; by apply Hbs in Hi|]. intros (_ & s & Hs & Hint & _). apply Hat in Hs as [_ ->].
    by destruct Hint.
  - intros i s Hs. destruct (Hat i s Hs) as [-> ->]. by left.
  - intros i j s s' Hs _ Hint. destruct (Hat i s Hs) as [_ ->]. by destruct Hint.
  - subst σ'. cbn [strings]. intros q s [[<- _]|[_ Hs]]%lookup_insert_Some Ht; [by exists 0|]. destruct (ok_atoms q s Hs Ht) as [i Hi].
    by rewrite Hnone in Hi.
Qed.

Section operations.
Context {M : JSMalloc} {HM : JSMallocOk M}.

(** The size up to which [atom_size * 3] is an [int]. *)
Definition may_grow (σ : JSAtoms) : Prop := atom_size σ * 3 <= INT32_MAX.

Lemma grow_atoms_ok σ bs : atoms_ok σ [] bs -> may_grow σ ->
  exists r, grow_atoms σ = Some r /\ forall σ', r = Some σ' -> exists fl, fl <> [] /\ atoms_ok σ' fl bs /\
    (forall i, i <> 0 -> content σ' i = content σ i) /\ atom_hash_size σ' = atom_hash_size σ /\
    (forall p s, strings σ !! p = Some s -> strings σ' !! p = Some s /\
       forall i, znth (atom_array σ') i = Some p <-> znth (atom_array σ) i = Some p).
Proof.
  intros Hok Hg. unfold grow_atoms, may_grow in *. rewrite Z.gtb_ltb, (proj2 (Z.ltb_ge _ _)) by done.
  set (N := Z.max 211 (atom_size σ * 3 / 2)).
  destruct (N >? JS_ATOM_MAX) eqn:EN; [by eexists|]. rewrite Z.gtb_ltb in EN. apply Z.ltb_ge in EN.
  destruct (js_malloc σ (8 * N)); [|by eexists].
  pose proof (ok_array_len _ _ _ Hok) as Hlen. pose proof (zlen_nonneg (atom_array σ)).
  assert (HN : atom_size σ < N) by (unfold N; divlia).
  destruct (Z.eqb_spec (atom_size σ) 0) as [Hz|Hz].
  - destruct (js_malloc σ sizeof_JSString) as [p|] eqn:Ep; [|by eexists]. eexists. split; [done|]. intros σ' [= <-].
    pose proof (js_malloc_fresh _ _ _ Ep) as Hf. destruct (js_malloc_even _ _ _ Ep) as [He Hp0].
    pose proof (zero_entry_ok σ bs p Hok Hz Hf He Hp0) as Hok1.
    destruct (grow_array_ok _ _ N Hok1) as [Hok2 Hc]; [cbn [atom_size]; unfold N; lia|done|]. cbn in Hok2, Hc.
    eexists. split; [|split; [exact Hok2|split; [|split; [done|]]]].
    + replace (N - 1) with (Z.succ (N - 2)) by lia. by rewrite seqZ_cons by lia.
    + intros i Hi. cbn. rewrite Hc. unfold content, atom. cbn [atom_array strings].
      destruct (znth [p] i) as [q|] eqn:Hq; [apply znth_Some_range in Hq; change (zlen [p]) with 1 in Hq; lia|].
      assert (atom_array σ = []) as ->; [|by rewrite znth_nil].
      destruct (atom_array σ) as [|y l]; [done|]. rewrite zlen_cons in Hlen. pose proof (zlen_nonneg l). lia.
    + intros q s Hs. cbn. assert (Hqp : p <> q) by congruence. rewrite lookup_insert_ne by done. split; [done|].
      intros i. match goal with |- context [p :: ?l] => change (p :: l) with ([p] ++ l) end.
      rewrite grown_entry by (by eapply (ok_address _ _ _ Hok)).
      assert (atom_array σ = []) as ->; [|rewrite znth_nil; split; [|done]].
      { destruct (atom_array σ) as [|y l]; [done|]. rewrite zlen_cons in Hlen. pose proof (zlen_nonneg l). lia. }
      intros E. pose proof (znth_Some_range _ _ _ E) as Hr. change (zlen [p]) with 1 in Hr.
      replace i with 0 in E by lia. rewrite znth_cons_0 in E. congruence.
  - eexists. split; [done|]. intros σ' [= <-]. destruct (grow_array_ok σ bs N Hok) as [Hok1 Hc]; [lia|done|].
    eexists. split; [|split; [exact Hok1|split; [by intros i _|split; [done|]]]].
    + replace (N - atom_size σ) with (Z.succ (N - atom_size σ - 1)) by lia. by rewrite seqZ_cons by lia.
    + intros p s Hs. split; [done|]. intros i. apply grown_entry. by eapply (ok_address _ _ _ Hok).
Qed.

(** ** Registering *)

(** What [register_atom] does when the table is not rehashed. *)
Lemma register_entry_ok σ fl bs i p s s1 t h h1 : atoms_ok σ (i :: fl) bs -> strings σ !! p = Some s -> atom_type s = 0 ->
  chars s1 = chars s ->
  (t = JS_ATOM_TYPE_SYMBOL \/ (t = JS_ATOM_TYPE_STRING \/ t = JS_ATOM_TYPE_GLOBAL_SYMBOL) /\
     h = Z.land (hash_string s t) JS_ATOM_HASH_MASK /\ h1 = bucket_of σ h /\ forall x, content σ x <> Some (t, chars s)) ->
  exists σ' bs', atoms_ok σ' fl bs' /\ (forall x, content σ' x = if decide (x = i) then Some (t, chars s) else content σ x) /\
    register_atom (put_string σ p s1) p h h1 t =
      if negb (t =? JS_ATOM_TYPE_SYMBOL) && (atom_count σ' >=? atom_count_resize σ')
      then '(σ', _) ← JS_ResizeAtomHash σ' (atom_hash_size σ' * 2); Some (σ', i) else Some (σ', i).
Proof.
  intros Hok Hs Hs0 Hch Hk. pose proof (ok_free _ _ _ Hok) as (Ei & Hi0 & m & Hm & _).
  pose proof Hm as Hm'. unfold next_free in Hm'. destruct (znth (atom_array σ) i) as [e|] eqn:He; [|done].
  cbn [mbind option_bind] in Hm'. destruct (atom_is_free e) eqn:Ef; [|done]. injection Hm' as Em.
  destruct (zupd_write _ _ p _ He) as (a & Ea & Hal & Han).
  set (s2 := mk_string (str_ref_count s1) (is_wide_char s1) (chars s1) h t i).
  unfold register_atom. cbn [atom_free_index put_string set_strings atom_array]. rewrite Ei, He. cbn [mbind option_bind].
  rewrite Ea. cbn [mbind option_bind]. unfold get_string, put_string, set_atom_array, set_free_index, set_strings. cbn [strings].
  rewrite lookup_insert_eq. cbn [mbind option_bind]. fold s2.
  destruct Hk as [->|(Ht & Eh & Eh1 & Hno)].
  - exists (mk_atoms (atom_hash_size σ) (atom_count σ + 1) (atom_size σ) (atom_count_resize σ) (atom_hash σ) a
      (atom_get_free e) (<[p := s2]> (strings σ))).
    set (σ' := mk_atoms _ _ _ _ _ _ _ _).
    destruct (add_entry_ok σ σ' fl bs i p s s2 JS_ATOM_TYPE_SYMBOL (-1) 0) as [Hok' Hc]; try done.
    { subst σ'. cbn. by rewrite Hm, Em. }
    { by left. }
    eexists. split; [exact Hok'|]. split; [exact Hc|]. cbn [Z.eqb negb andb]. cbn.
    unfold set_atom_count, put_string, set_strings. cbn. by rewrite insert_insert_eq.
  - assert (Hts : t <> JS_ATOM_TYPE_SYMBOL) by (destruct Ht; subst; done).
    rewrite (proj2 (Z.eqb_neq _ _)) by done. cbn [negb andb].
    destruct (bucket_head σ _ bs h Hok) as [n Hn]. rewrite <- Eh1 in Hn.
    cbn [atom_hash set_atom_count put_string set_strings set_atom_array set_free_index]. rewrite Hn. cbn [mbind option_bind].
    destruct (zupd_write _ _ i _ Hn) as (l & El & Hll & Hln). rewrite El. cbn [mbind option_bind].
    exists (mk_atoms (atom_hash_size σ) (atom_count σ + 1) (atom_size σ) (atom_count_resize σ) l a
      (atom_get_free e) (<[p := set_hash_next n s2]> (strings σ))).
    set (σ' := mk_atoms _ _ _ _ _ _ _ _).
    assert (Hint : interned (set_hash_next n s2)) by (destruct Ht as [-> | ->]; [left|right]; done).
    assert (Hh : h = atom_hash_of (set_hash_next n s2)).
    { unfold atom_hash_of. cbn. rewrite Eh. unfold hash_string. cbn. by rewrite Hch. }
    destruct (add_entry_ok σ σ' fl bs i p s (set_hash_next n s2) t h1 n) as [Hok' Hc]; try done.
    { subst σ'. cbn. by rewrite Hm, Em. }
    { right. by split_and!. }
    eexists. split; [exact Hok'|]. split; [exact Hc|].
    assert (E : set_hash_table l (put_string (set_atom_count (atom_count σ + 1)
      (put_string (set_atom_array a (set_free_index (atom_get_free e) (put_string σ p s1))) p s2)) p (set_hash_next n s2)) = σ').
    { unfold σ', set_hash_table, put_string, set_atom_count, set_strings. cbn. by rewrite !insert_insert_eq. }
    subst σ'. unfold set_hash_table, put_string, set_atom_count, set_strings. cbn. rewrite !insert_insert_eq. done.
Qed.

Lemma register_atom_ok σ fl bs i p s s1 t h h1 : atoms_ok σ (i :: fl) bs -> strings σ !! p = Some s -> atom_type s = 0 ->
  chars s1 = chars s ->
  (t = JS_ATOM_TYPE_SYMBOL \/ (t = JS_ATOM_TYPE_STRING \/ t = JS_ATOM_TYPE_GLOBAL_SYMBOL) /\
     h = Z.land (hash_string s t) JS_ATOM_HASH_MASK /\ h1 = bucket_of σ h /\ forall x, content σ x <> Some (t, chars s)) ->
  exists σ' bs', register_atom (put_string σ p s1) p h h1 t = Some (σ', i) /\ atoms_ok σ' fl bs' /\
    forall x, content σ' x = if decide (x = i) then Some (t, chars s) else content σ x.
Proof.
  intros Hok Hs Hs0 Hch Hk.
  destruct (register_entry_ok σ fl bs i p s s1 t h h1 Hok Hs Hs0 Hch Hk) as (σ1 & bs1 & Hok1 & Hc1 & ->).
  destruct (_ && _) eqn:E; [|by exists σ1, bs1]. zify_bools.
  assert (Hbig : atom_count_resize σ1 <= atom_count σ1).
  { match goal with H : (_ >=? _) = true |- _ => rewrite Z.geb_leb in H; by apply Z.leb_le in H end. }
  destruct (ok_hash_size _ _ _ Hok1) as (k & Hk0 & Ek & Hkm). rewrite Ek.
  replace (2 ^ k * 2) with (2 ^ (k + 1)) by (rewrite Z.pow_add_r; lia).
  destruct (JS_ResizeAtomHash_ok σ1 fl bs1 (k + 1) Hok1) as (σ2 & r & bs2 & -> & Hok2 & Ea & _ & Hkept); [lia| |].
  - rewrite (ok_resize _ _ _ Hok1) in Hbig. unfold JS_ATOM_COUNT_RESIZE in Hbig. rewrite Ek in Hbig.
    pose proof (ok_count _ _ _ Hok1). pose proof (ok_size_max _ _ _ Hok1) as Hm. change JS_ATOM_MAX with (2 ^ 30 - 1) in Hm.
    pose proof (zlen_nonneg fl). rewrite Z.pow_add_r by lia. lia.
  - cbn [mbind option_bind]. exists σ2, bs2. split; [done|]. split; [done|]. intros x.
    rewrite (kept_content σ1 σ2 x Ea Hkept). apply Hc1.
Qed.
End operations.

(** ** Releasing a string *)

(** What the table holds once a reference to the string [s] at [p] is given up. *)
Definition after_release (σ : JSAtoms) (p : Z) (s : JSString) (x : Z) : option (Z * list Z) :=
  if decide (znth (atom_array σ) x = Some p /\ str_ref_count s <= 1) then None else content σ x.

Lemma entry_of σ fl bs p s : atoms_ok σ fl bs -> strings σ !! p = Some s ->
  (atom_type s = 0 /\ forall x, znth (atom_array σ) x <> Some p) \/
  (atom_type s <> 0 /\ exists i, znth (atom_array σ) i = Some p /\ forall x, znth (atom_array σ) x = Some p -> x = i).
Proof.
  intros Hok Hs. destruct (decide (atom_type s = 0)) as [E|E].
  - left. split; [done|]. intros x. by eapply plain_not_entry.
  - right. split; [done|]. destruct (ok_atoms _ _ _ Hok p s Hs E) as [i Hi]. exists i. split; [done|].
    intros x Hx. eapply (ok_inj _ _ _ Hok); [done..|]. by eapply (ok_address _ _ _ Hok).
Qed.

Lemma put_kept σ p s n q : strings σ !! p = Some s -> q <> p -> string_kept σ (put_string σ p (set_ref_count n s)) q.
Proof. intros Hs Hq. apply string_kept_refl. cbn. by rewrite lookup_insert_ne. Qed.

Lemma js_free_string_ok σ fl bs p s : atoms_ok σ fl bs -> strings σ !! p = Some s -> znth (atom_array σ) 0 <> Some p ->
  exists σ' fl' bs', js_free_string σ p = Some σ' /\ atoms_ok σ' fl' bs' /\ (fl <> [] -> fl' <> []) /\
    atom_hash_size σ' = atom_hash_size σ /\ (forall q, q <> p -> string_kept σ σ' q) /\
    forall x, content σ' x = after_release σ p s x.
Proof.
  intros Hok Hs H0. unfold js_free_string, get_string, after_release. rewrite Hs. cbn [mbind option_bind].
  set (σ1 := put_string _ _ _). destruct (put_count_ok σ fl bs p s (str_ref_count s - 1) Hok Hs) as [Hok1 Hc1]. fold σ1 in Hok1, Hc1.
  assert (Hs1 : strings σ1 !! p = Some (set_ref_count (str_ref_count s - 1) s)) by (cbn; by rewrite lookup_insert_eq).
  cbn [set_ref_count str_ref_count atom_type]. destruct (Z.leb_spec (str_ref_count s - 1) 0) as [Hn|Hn].
  - destruct (entry_of _ _ _ _ _ Hok Hs) as [(Et & Hno)|(Et & i & Hi & Hu)].
    + rewrite Et. cbn [Z.eqb negb]. eexists _, fl, bs. split; [done|].
      destruct (delete_plain_ok σ1 fl bs p Hok1) as [Hok2 Hc2]; [unfold plain; by rewrite Hs1|by eapply (ok_address _ _ _ Hok)|].
      split; [exact Hok2|]. split; [done|]. split; [done|]. split.
      * intros q Hq. apply string_kept_refl. cbn. by rewrite lookup_delete_ne, lookup_insert_ne.
      * intros x. rewrite Hc2, Hc1, decide_False; [done|]. intros [E _]. by eapply Hno.
    + rewrite (proj2 (Z.eqb_neq _ _)) by done. cbn [negb].
      assert (Hi0 : i <> 0) by (intros ->; done).
      destruct (JS_FreeAtomStruct_ok σ1 fl bs i p _ Hok1 Hi Hi0 Hs1) as (σ2 & bs2 & E & Hok2 & _ & Eh & Hk & Hc2).
      exists σ2, (i :: fl), bs2. split; [exact E|]. split; [done|]. split; [done|]. split; [done|]. split.
      * intros q Hq. eapply string_kept_trans; [by apply (put_kept σ p s)|by apply Hk].
      * intros x. rewrite Hc2, Hc1. destruct (decide (x = i)) as [->|Hx]; [by rewrite decide_True by (split; [done|lia])|].
        rewrite decide_False; [done|]. intros [Ex _]. by apply Hx, Hu.
  - eexists _, fl, bs. split; [done|]. split; [done|]. split; [done|]. split; [done|]. split; [intros; by apply put_kept|].
    intros x. rewrite Hc1, decide_False; [done|]. lia.
Qed.

(** ** The string of a new atom *)

(** [str] is NULL, which stands for an empty string, or a string that is not the atom 0. *)
Definition given (σ : JSAtoms) (str : Z) (s : JSString) : Prop :=
  strings σ !! str = Some s /\ znth (atom_array σ) 0 <> Some str \/ str = 0 /\ s = mk_string 1 true [] 0 0 0.

Lemma null_entry σ fl bs x : atoms_ok σ fl bs -> znth (atom_array σ) x <> Some 0.
Proof.
  intros Hok Hx. destruct (ok_entry _ _ _ Hok x 0 Hx) as [s Hs]; [done|]. by destruct (ok_address _ _ _ Hok 0 s Hs).
Qed.

Section operations.
Context {M : JSMalloc} {HM : JSMallocOk M}.

Lemma release_ok σ fl bs str s i : atoms_ok σ fl bs -> given σ str s ->
  exists σ' fl' bs', release σ str i = Some (σ', i) /\ atoms_ok σ' fl' bs' /\ forall x, content σ' x = after_release σ str s x.
Proof.
  intros Hok Hg. unfold release. destruct Hg as [[Hs H0]|[-> _]].
  - destruct (ok_address _ _ _ Hok str s Hs) as [_ Hn]. rewrite (proj2 (Z.eqb_neq str 0)) by done.
    destruct (js_free_string_ok _ _ _ _ _ Hok Hs H0) as (σ' & fl' & bs' & -> & Hok' & _ & _ & _ & Hc).
    by exists σ', fl', bs'.
  - exists σ, fl, bs. split; [done|]. split; [done|]. intros x. unfold after_release. rewrite decide_False; [done|].
    intros [E _]. by eapply null_entry.
Qed.

Lemma new_atom_string_ok σ fl bs str s t : atoms_ok σ fl bs -> given σ str s -> fl <> [] ->
  exists r, new_atom_string σ str t = Some r /\
    match r with
    | Fail => True
    | Null => str = 0
    | Str σ' p => exists σ0 s0 s1 fl' bs', σ' = put_string σ0 p s1 /\ atoms_ok σ0 fl' bs' /\ fl' <> [] /\
        strings σ0 !! p = Some s0 /\ atom_type s0 = 0 /\ chars s0 = chars s /\ chars s1 = chars s /\
        atom_hash_size σ0 = atom_hash_size σ /\ forall x, content σ0 x = after_release σ str s x
    end.
Proof.
  intros Hok Hg Hfl. unfold new_atom_string. destruct Hg as [[Hs H0]|[-> ->]].
  - destruct (ok_address _ _ _ Hok str s Hs) as [_ Hn]. rewrite (proj2 (Z.eqb_neq str 0)) by done.
    unfold get_string. rewrite Hs. cbn [mbind option_bind]. destruct (Z.eqb_spec (atom_type s) 0) as [Et|Et].
    + eexists. split; [done|]. exists σ, s, (set_atom_type t s), fl, bs. split_and!; try done. intros x.
      unfold after_release. rewrite decide_False; [done|]. intros [E _]. by eapply plain_not_entry.
    + destruct (js_malloc σ _) as [p|] eqn:Ep; [|by eexists]. set (c := mk_string _ _ _ _ _ _).
      pose proof (js_malloc_fresh _ _ _ Ep) as Hf. destruct (js_malloc_even _ _ _ Ep) as [He Hp0].
      destruct (put_plain_ok σ fl bs p c Hok) as [Hok1 Hc1]; [unfold plain; by rewrite Hf|done..|].
      assert (Hps : p <> str) by congruence.
      destruct (js_free_string_ok (put_string σ p c) fl bs str s Hok1) as (σ2 & fl2 & bs2 & E & Hok2 & Hfl2 & Eh & Hk & Hc2).
      { cbn. by rewrite lookup_insert_ne. } { done. }
      rewrite E. cbn [mbind option_bind]. eexists. split; [done|]. specialize (Hk p Hps). unfold string_kept in Hk.
      cbn [strings put_string set_strings] in Hk. rewrite lookup_insert_eq in Hk. destruct Hk as (c' & Hc' & (_ & _ & E1 & _ & E2) & _).
      exists σ2, c', c', fl2, bs2. split_and!; try done; [|by apply Hfl2|].
      * unfold put_string, set_strings. rewrite insert_id by done. by destruct σ2.
      * intros x. rewrite Hc2. unfold after_release. cbn [atom_array put_string set_strings]. by rewrite Hc1.
  - cbn [Z.eqb]. eexists. split; [done|]. destruct (js_malloc σ _) as [p|] eqn:Ep; [|done].
    pose proof (js_malloc_fresh _ _ _ Ep) as Hf. destruct (js_malloc_even _ _ _ Ep) as [He Hp0].
    set (c := mk_string _ _ _ _ _ _).
    destruct (put_plain_ok σ fl bs p c Hok) as [Hok1 Hc1]; [unfold plain; by rewrite Hf|done..|].
    exists (put_string σ p c), c, c, fl, bs. split_and!; try done.
    + unfold put_string, set_strings. cbn. by rewrite insert_insert_eq.
    + cbn. by rewrite lookup_insert_eq.
    + intros x. rewrite Hc1. unfold after_release. rewrite decide_False; [done|]. intros [E _]. by eapply null_entry.
Qed.

(** ** A new atom *)

(** The kinds of a new atom with the hash and the chain it is entered with. *)
Definition new_kind (σ : JSAtoms) (t h h1 : Z) (s : JSString) : Prop :=
  t = JS_ATOM_TYPE_SYMBOL \/ (t = JS_ATOM_TYPE_STRING \/ t = JS_ATOM_TYPE_GLOBAL_SYMBOL) /\
     h = Z.land (hash_string s t) JS_ATOM_HASH_MASK /\ h1 = bucket_of σ h /\ forall x, content σ x <> Some (t, chars s).

Lemma after_release_None σ p s x : content σ x = None -> after_release σ p s x = None.
Proof. unfold after_release. by case_decide. Qed.

Lemma free_content σ fl bs x : atoms_ok σ fl bs -> x ∈ fl -> content σ x = None.
Proof.
  intros Hok Hx. destruct (content σ x) eqn:E; [|done]. unfold content in E.
  destruct (atom σ x) as [s|] eqn:Ha; [|done]. apply atom_Some in Ha as (q & Hp & Hs).
  destruct (proj1 (ok_free_all _ _ _ Hok x) Hx) as [n Hn]. unfold next_free in Hn. rewrite Hp in Hn. cbn in Hn.
  destruct (ok_address _ _ _ Hok q s Hs) as [Hf _]. by rewrite Hf in Hn.
Qed.

(** The last part of [add_atom], once there is a free entry. *)
Lemma enter_atom_ok σ fl bs str s t h h1 : atoms_ok σ fl bs -> given σ str s -> fl <> [] -> new_kind σ t h h1 s ->
  exists σ' i fl' bs', (r ← new_atom_string σ str t;
      match r with
      | Fail => release σ str JS_ATOM_NULL
      | Null => Some (σ, JS_ATOM_NULL)
      | Str σ p => register_atom σ p h h1 t
      end) = Some (σ', i) /\ atoms_ok σ' fl' bs' /\
    (forall x, x <> i -> content σ' x = after_release σ str s x) /\
    (i = 0 /\ content σ' 0 = after_release σ str s 0 \/
     i <> 0 /\ after_release σ str s i = None /\ content σ' i = Some (t, chars s)).
Proof.
  intros Hok Hg Hfl Hk. destruct (new_atom_string_ok σ fl bs str s t Hok Hg Hfl) as (r & -> & Hr). cbn [mbind option_bind].
  destruct r as [| |σ1 p].
  - destruct (release_ok σ fl bs str s JS_ATOM_NULL Hok Hg) as (σ' & fl' & bs' & -> & Hok' & Hc).
    exists σ', 0, fl', bs'. split; [done|]. split; [done|]. split; [by intros x _|]. by left.
  - subst str. assert (E : forall x, content σ x = after_release σ 0 s x).
    { intros x. unfold after_release. rewrite decide_False; [done|]. intros [E _]. by eapply null_entry. }
    exists σ, 0, fl, bs. split; [done|]. split; [done|]. split; [by intros x _|]. by left.
  - destruct Hr as (σ0 & s0 & s1 & fl1 & bs1 & -> & Hok1 & Hfl1 & Hs0 & Et & E0 & E1 & Eh & Hc1).
    destruct fl1 as [|i fl1]; [done|].
    destruct (register_atom_ok σ0 fl1 bs1 i p s0 s1 t h h1 Hok1 Hs0 Et) as (σ' & bs' & E & Hok' & Hc').
    { by rewrite E0. }
    { destruct Hk as [->|(Ht & Hh & Hh1 & Hno)]; [by left|right]. split; [done|]. split; [rewrite Hh; unfold hash_string; by rewrite E0|].
      split; [rewrite Hh1; unfold bucket_of; by rewrite Eh|]. intros x. rewrite Hc1, E0. unfold after_release.
      case_decide; [done|apply Hno]. }
    exists σ', i, fl1, bs'. split; [done|]. split; [done|]. split.
    + intros x Hx. rewrite Hc', decide_False by done. apply Hc1.
    + right. split; [|split; [|rewrite Hc', decide_True by done; by rewrite E0]].
      * by destruct (ichain_nonzero _ _ _ i (ok_free _ _ _ Hok1) ltac:(by left)).
      * rewrite <- Hc1. eapply free_content; [done|by left].
Qed.

Lemma add_atom_ok σ fl bs str s t h h1 : atoms_ok σ fl bs -> given σ str s ->
  may_grow σ \/ add_atom σ str h h1 t <> None -> new_kind σ t h h1 s ->
  exists σ' i fl' bs', add_atom σ str h h1 t = Some (σ', i) /\ atoms_ok σ' fl' bs' /\
    (forall x, x <> i -> x <> 0 -> content σ' x = after_release σ str s x) /\
    (i <> 0 -> after_release σ str s i = None /\ content σ' i = Some (t, chars s)).
Proof.
  intros Hok Hg Hm Hk. unfold add_atom in *. destruct (Z.eqb_spec (atom_free_index σ) 0) as [Hz|Hz].
  - assert (Hm' : may_grow σ).
    { destruct Hm as [?|Hm]; [done|]. unfold may_grow. destruct (Z.ltb_spec INT32_MAX (atom_size σ * 3)) as [H|H]; [|done].
      unfold grow_atoms in Hm. rewrite Z.gtb_ltb, (proj2 (Z.ltb_lt _ _)) in Hm by done. done. }
    clear Hm. rename Hm' into Hm. pose proof (no_free _ _ _ Hok Hz) as ->. destruct (grow_atoms_ok σ bs Hok Hm) as (r & -> & Hr). cbn [mbind option_bind].
    destruct r as [σ1|].
    + destruct (Hr σ1 eq_refl) as (fl1 & Hfl1 & Hok1 & Hc1 & Eh & Hs1).
      assert (Hrel : forall x, x <> 0 -> after_release σ1 str s x = after_release σ str s x).
      { intros x Hx. unfold after_release. rewrite Hc1 by done. destruct Hg as [[Hs _]|[-> _]].
        - destruct (Hs1 str s Hs) as [_ Hi]. specialize (Hi x). repeat case_decide; tauto.
        - rewrite !decide_False; [done|intros [E _]; by eapply (null_entry σ)|
            intros [E _]; by eapply (null_entry σ1)]. }
      destruct (enter_atom_ok σ1 fl1 bs str s t h h1 Hok1) as (σ' & i & fl' & bs' & -> & Hok' & Hc' & Hi'); try done.
      { destruct Hg as [[Hs H0]|?]; [left|by right]. destruct (Hs1 str s Hs) as [? Hi]. split; [done|]. by rewrite Hi. }
      { destruct Hk as [->|(Ht & Hh & Hh1 & Hno)]; [by left|right]. split_and!; try done; [rewrite Hh1; unfold bucket_of; by rewrite Eh|].
        intros x Hx. destruct (decide (x = 0)) as [->|Hx0]; [|rewrite Hc1 in Hx by done; by apply (Hno x)].
        unfold content in Hx. destruct (atom σ1 0) as [u|] eqn:Ha; [|done]. injection Hx as Eu _.
        destruct (ok_kind _ _ _ Hok1 0 u Ha) as [[E _]|[? _]]; [|done]. rewrite E in Eu. by destruct Ht; subst. }
      exists σ', i, fl', bs'. split; [done|]. split; [done|]. split.
      * intros x Hx Hx0. rewrite Hc' by done. by apply Hrel.
      * intros Hi0. destruct Hi' as [[? _]|(_ & Ei & ?)]; [done|]. split; [|done]. by rewrite <- Hrel.
    + destruct (release_ok σ [] bs str s JS_ATOM_NULL Hok Hg) as (σ' & fl' & bs' & -> & Hok' & Hc).
      exists σ', 0, fl', bs'. by split_and!.
  - cbn [mbind option_bind]. assert (Hfl : fl <> []) by (intros ->; apply Hz, (ok_free _ _ _ Hok)).
    destruct (enter_atom_ok σ fl bs str s t h h1 Hok Hg Hfl Hk) as (σ' & i & fl' & bs' & -> & Hok' & Hc' & Hi').
    exists σ', i, fl', bs'. split; [done|]. split; [done|]. split; [by intros x ? _; apply Hc'|].
    intros Hi. by destruct Hi' as [[? _]|(_ & ? & ?)].
Qed.

(** ** The index of an atom, and its references *)

Lemma atom_index_loop_spec fuel σ p i l x : ichain (next_atom σ) i l -> x ∈ l -> znth (atom_array σ) x = Some p ->
  (forall y q, znth (atom_array σ) y = Some p -> znth (atom_array σ) x = Some q -> y = x) -> (length l <= fuel)%nat ->
  atom_index_loop fuel σ p i = Some x.
Proof.
  revert i l. induction fuel as [|fuel IH]; intros i [|y l]; cbn [ichain length atom_index_loop]; try lia.
  1, 2: by intros _ ?%elem_of_nil.
  intros (-> & Hy & n & Hn & Hl) Hx Hp Hu Hf. destruct (next_atom_Some _ _ _ Hn) as (q & s & Hq & Hs & En).
  rewrite Hq. cbn [mbind option_bind]. destruct (Z.eqb_spec q p) as [->|Hqp]; [f_equal; by eapply Hu|].
  rewrite (proj2 (Z.eqb_neq y 0)) by done. unfold get_string. rewrite Hs. cbn [mbind option_bind]. rewrite En.
  apply (IH n l Hl); [|done..|lia]. apply elem_of_cons in Hx as [->|Hx]; [congruence|done].
Qed.

Lemma js_get_atom_index_ok σ fl bs p s i : atoms_ok σ fl bs -> znth (atom_array σ) i = Some p -> strings σ !! p = Some s ->
  js_get_atom_index σ p = Some i.
Proof.
  intros Hok Hi Hs. assert (Ha : atom σ i = Some s) by (unfold atom; by rewrite Hi).
  unfold js_get_atom_index, get_string. rewrite Hs. cbn [mbind option_bind].
  destruct (ok_kind _ _ _ Hok i s Ha) as [[Et En]|(_ & Hint & _)]; [by rewrite Et, En|].
  rewrite (proj2 (Z.eqb_neq _ _)) by (by apply interned_not_symbol). cbn [negb].
  destruct (bucket_head σ fl bs (hash s) Hok) as [h Hh]. rewrite Hh. cbn [mbind option_bind].
  eapply (atom_index_loop_spec _ σ p h (bs (bucket_of σ (hash s))) i).
  - by apply (ok_chain _ _ _ Hok).
  - apply (ok_bucket _ _ _ Hok). split; [by eapply bucket_range|]. by exists s.
  - done.
  - intros y q Hy _. eapply (ok_inj _ _ _ Hok); [done..|]. by eapply (ok_address _ _ _ Hok).
  - by eapply bucket_length.
Qed.

Lemma content_Some σ i t l : content σ i = Some (t, l) -> exists p s, znth (atom_array σ) i = Some p /\
  strings σ !! p = Some s /\ atom_type s = t /\ chars s = l.
Proof.
  unfold content. destruct (atom σ i) as [s|] eqn:E; [|done]. intros [= <- <-]. apply atom_Some in E as (p & ? & ?).
  by exists p, s.
Qed.

Lemma JS_DupAtom_ok σ fl bs i p s : atoms_ok σ fl bs -> znth (atom_array σ) i = Some p -> strings σ !! p = Some s ->
  exists σ', JS_DupAtom σ i = Some σ' /\ atoms_ok σ' fl bs /\ (forall x, content σ' x = content σ x) /\
    atom_array σ' = atom_array σ /\
    (forall q, q <> p -> strings σ' !! q = strings σ !! q) /\
    exists s', strings σ' !! p = Some s' /\ str_ref_count s' = str_ref_count s + Z.b2z (negb (JS_AtomIsConst i)).
Proof.
  intros Hok Hi Hs. unfold JS_DupAtom. destruct (JS_AtomIsConst i); cbn [negb Z.b2z].
  - exists σ. split_and!; try done. exists s. split; [done|lia].
  - rewrite Hi. cbn [mbind option_bind]. unfold get_string. rewrite Hs. cbn [mbind option_bind].
    destruct (put_count_ok σ fl bs p s (str_ref_count s + 1) Hok Hs) as [Hok' Hc]. eexists. split; [done|].
    split; [done|]. split; [done|]. split; [done|]. cbn. split; [intros; by rewrite lookup_insert_ne|].
    rewrite lookup_insert_eq. eexists. split; [done|]. cbn. lia.
Qed.

Lemma JS_FreeAtom_ok σ fl bs i p s : atoms_ok σ fl bs -> znth (atom_array σ) i = Some p -> strings σ !! p = Some s ->
  exists σ' fl' bs', JS_FreeAtom σ i = Some σ' /\ atoms_ok σ' fl' bs' /\
    forall x, content σ' x = if decide (x = i /\ JS_AtomIsConst i = false /\ str_ref_count s <= 1) then None else content σ x.
Proof.
  intros Hok Hi Hs. unfold JS_FreeAtom. destruct (JS_AtomIsConst i) eqn:Ec; cbn [negb].
  { exists σ, fl, bs. split; [done|]. split; [done|]. intros x. rewrite decide_False; [done|]. by intros (_ & ? & _). }
  unfold js_free_atom. rewrite Hi. cbn [mbind option_bind]. unfold get_string. rewrite Hs. cbn [mbind option_bind].
  destruct (put_count_ok σ fl bs p s (str_ref_count s - 1) Hok Hs) as [Hok' Hc]. cbn [set_ref_count str_ref_count].
  rewrite Z.gtb_ltb. destruct (Z.ltb_spec 0 (str_ref_count s - 1)) as [Hn|Hn].
  - eexists _, fl, bs. split; [done|]. split; [exact Hok'|]. intros x. rewrite decide_False by lia. apply Hc.
  - assert (Hi0 : i <> 0) by (intros ->; by vm_compute in Ec).
    destruct (JS_FreeAtomStruct_ok _ fl bs i p (set_ref_count (str_ref_count s - 1) s) Hok' Hi Hi0)
      as (σ' & bs' & E & Hok2 & _ & _ & _ & Hc2).
    { cbn. by rewrite lookup_insert_eq. }
    exists σ', (i :: fl), bs'. split; [exact E|]. split; [done|]. intros x. rewrite Hc2, Hc.
    destruct (decide (x = i)) as [->|Hx]; [rewrite decide_True; [done|]; split; [done|split; [done|lia]]|].
    rewrite decide_False; [done|]. by intros [? _].
Qed.

(** ** [JS_NewAtom] *)

Definition atom_kind (t : Z) : Prop := 1 <= t <= 4.
(** The type the atom gets: a private name is a symbol. *)
Definition kind_of (t : Z) : Z := Z.min t JS_ATOM_TYPE_SYMBOL.

Record new_atom_spec (σ : JSAtoms) (str : Z) (s : JSString) (t : Z) (σ' : JSAtoms) (i : Z) : Prop := {
  na_others x : x <> i -> x <> 0 -> content σ' x = after_release σ str s x;
  na_content : i <> 0 -> content σ' i = Some (kind_of t, chars s);
  na_known x : t < JS_ATOM_TYPE_SYMBOL -> content σ x = Some (t, chars s) -> i = x;
  na_new : i <> 0 -> after_release σ str s i = None \/ t < JS_ATOM_TYPE_SYMBOL /\ content σ i = Some (t, chars s)
}.

Lemma new_symbol_ok σ fl bs str s t h : atoms_ok σ fl bs -> given σ str s ->
  may_grow σ \/ add_atom σ str h 0 JS_ATOM_TYPE_SYMBOL <> None -> JS_ATOM_TYPE_SYMBOL <= t ->
  exists σ' i fl' bs', add_atom σ str h 0 JS_ATOM_TYPE_SYMBOL = Some (σ', i) /\ atoms_ok σ' fl' bs' /\
    new_atom_spec σ str s t σ' i.
Proof.
  intros Hok Hg Hm Ht. destruct (add_atom_ok σ fl bs str s JS_ATOM_TYPE_SYMBOL h 0 Hok Hg Hm) as (σ' & i & fl' & bs' & E & Hok' & Hc & Hi).
  { by left. }
  exists σ', i, fl', bs'. split; [done|]. split; [done|]. split.
  - exact Hc.
  - intros Hi0. unfold kind_of. rewrite Z.min_r by done. by apply Hi.
  - lia.
  - intros Hi0. left. by apply Hi.
Qed.

Lemma JS_NewAtom_ok σ fl bs str s t : atoms_ok σ fl bs -> given σ str s -> atom_kind t ->
  (str = 0 -> JS_ATOM_TYPE_SYMBOL <= t) -> may_grow σ \/ JS_NewAtom σ str t <> None ->
  exists σ' i fl' bs', JS_NewAtom σ str t = Some (σ', i) /\ atoms_ok σ' fl' bs' /\ new_atom_spec σ str s t σ' i.
Proof.
  intros Hok Hg Ht Hnull. unfold JS_NewAtom. destruct (Z.ltb_spec t JS_ATOM_TYPE_SYMBOL) as [Hts|Hts].
  2: { destruct (Z.eqb_spec t JS_ATOM_TYPE_SYMBOL) as [->|Hne]; intros Hm; by eapply new_symbol_ok. }
  pose proof Hg as [[Hs H0]|[-> _]]; [|specialize (Hnull eq_refl); lia]. unfold get_string. rewrite Hs. cbn [mbind option_bind].
  destruct (ok_address _ _ _ Hok str s Hs) as [_ Hn0]. assert (Ek : kind_of t = t) by (unfold kind_of, JS_ATOM_TYPE_SYMBOL in *; lia).
  assert (Hint : t = JS_ATOM_TYPE_STRING \/ t = JS_ATOM_TYPE_GLOBAL_SYMBOL).
  { unfold atom_kind, JS_ATOM_TYPE_STRING, JS_ATOM_TYPE_GLOBAL_SYMBOL, JS_ATOM_TYPE_SYMBOL in *. lia. }
  assert (Hknown : forall x i, content σ x = Some (t, chars s) -> content σ i = Some (t, chars s) -> i = x).
  { intros x i (p1 & s1 & Hp1 & Hs1 & E1 & E2)%content_Some (p2 & s2 & Hp2 & Hs2 & E3 & E4)%content_Some.
    eapply (ok_unique _ _ _ Hok _ _ s2 s1); [unfold atom; by rewrite Hp2|unfold atom; by rewrite Hp1| |congruence..].
    unfold interned. by rewrite E3. }
  destruct (Z.eqb_spec (atom_type s) t) as [Et|Et].
  - destruct (entry_of _ _ _ _ _ Hok Hs) as [(E & _)|(_ & i & Hi & Hu)]; [rewrite E in Et; destruct Hint as [-> | ->]; done|].
    rewrite (js_get_atom_index_ok _ _ _ _ _ _ Hok Hi Hs). cbn [mbind option_bind].
    assert (Hci : content σ i = Some (t, chars s)) by (unfold content, atom; rewrite Hi; cbn; rewrite Hs; cbn; congruence).
    set (σ' := if JS_AtomIsConst i then _ else σ). assert (H' : atoms_ok σ' fl bs /\ forall x, content σ' x = content σ x).
    { subst σ'. destruct (JS_AtomIsConst i); [by apply put_count_ok|done]. }
    destruct H' as [Hok' Hc']. intros _. exists σ', i, fl, bs. split; [done|]. split; [done|]. split.
    + intros x Hx _. rewrite Hc'. unfold after_release. rewrite decide_False; [done|]. intros [E _]. by apply Hx, Hu.
    + intros _. by rewrite Hc', Ek.
    + intros x _ Hx. by apply Hknown.
    + intros _. by right.
  - set (h := Z.land _ _). destruct (bucket_head σ fl bs h Hok) as [h0 Hh0]. rewrite Hh0. cbn [mbind option_bind].
    destruct (find_atom_loop_spec (length (atom_array σ)) σ s t h0 (bs (bucket_of σ h)) (ok_chain _ _ _ Hok _ _ Hh0))
      as (r & Er & Hr).
    { by eapply bucket_length. }
    { intros x Hx. destruct (bucket_atoms _ _ _ _ _ Hok Hx) as (u & Hu & _ & _ & Eh). by exists u. }
    fold h in Er. rewrite Er. cbn [mbind option_bind].
    assert (Hwhere : forall x, content σ x = Some (t, chars s) -> x ∈ bs (bucket_of σ h)).
    { intros x (p1 & s1 & Hp1 & Hs1 & E1 & E2)%content_Some. assert (Ha : atom σ x = Some s1) by (unfold atom; by rewrite Hp1).
      assert (Hi1 : interned s1) by (unfold interned; by rewrite E1). apply (ok_bucket _ _ _ Hok).
      split; [by eapply bucket_range|]. exists s1. split; [done|]. split; [done|]. f_equal.
      destruct (ok_kind _ _ _ Hok x s1 Ha) as [[E _]|(_ & _ & ->)]; [by apply interned_not_symbol in E|].
      unfold atom_hash_of, h, hash_string. by rewrite E1, E2. }
    destruct Hr as [[-> Hno]|[Hrb Hrc]].
    + cbn [Z.eqb negb]. intros Hm. destruct (add_atom_ok σ fl bs str s t h (bucket_of σ h) Hok Hg Hm) as (σ' & i & fl' & bs' & E & Hok' & Hc & Hi).
      { right. split_and!; try done. intros x Hx. apply (Hno x); [by apply Hwhere|done]. }
      exists σ', i, fl', bs'. split; [exact E|]. split; [done|]. split.
      * exact Hc.
      * intros Hi0. rewrite Ek. by apply Hi.
      * intros x _ Hx. destruct (Hno x (Hwhere x Hx) Hx).
      * intros Hi0. left. by apply Hi.
    + destruct (bucket_atoms _ _ _ _ _ Hok Hrb) as (u & Hu & Hui & Hr0 & _). rewrite (proj2 (Z.eqb_neq r 0)) by done. cbn [negb].
      destruct (atom_Some _ _ _ Hu) as (q & Hq & Hqs).
      destruct (JS_DupAtom_ok σ fl bs r q u Hok Hq Hqs) as (σ1 & -> & Hok1 & Hc1 & Ea & Hk1 & _). cbn [mbind option_bind].
      assert (Eu : atom_type u = t) by (unfold content in Hrc; rewrite Hu in Hrc; by injection Hrc).
      assert (Hqn : q <> str) by congruence.
      destruct (release_ok σ1 fl bs str s r Hok1) as (σ' & fl' & bs' & -> & Hok' & Hc').
      { left. rewrite Ea, Hk1 by done. done. }
      assert (Hrel : forall x, content σ' x = after_release σ str s x).
      { intros x. rewrite Hc'. unfold after_release. by rewrite Ea, Hc1. }
      intros _. exists σ', r, fl', bs'. split; [done|]. split; [done|]. split.
      * intros x _ _. apply Hrel.
      * intros _. rewrite Hrel. unfold after_release. rewrite decide_False; [by rewrite Ek|]. intros [E _]. congruence.
      * intros x _ Hx. by apply Hknown.
      * intros _. by right.
Qed.
End operations.
