(* ===== verification/AtomLaws.v ===== *)
(** * The laws of atoms

    Interning is injective on contents, references balance, the invariant holds in every
    state the operations reach, and the strings of small numbers become tagged integers. *)

From stdpp Require Import gmap.
From S2P Require Import Prelude Chain AtomTable AtomOk AtomOps.

(** ** A concrete allocator *)

(** Blocks of 16 bytes above every address in use. *)
Definition bump_malloc : JSMalloc := fun σ _ => Some (16 + map_fold (fun p _ m => Z.max p m) 0 (strings σ) / 16 * 16).

Lemma map_fold_max_ge (m : gmap Z JSString) : 0 <= map_fold (fun p _ n => Z.max p n) 0 m /\
  forall p s, m !! p = Some s -> p <= map_fold (fun p _ n => Z.max p n) 0 m.
Proof.
  apply (map_fold_weak_ind (fun r m => 0 <= r /\ forall p s, m !! p = Some s -> p <= r)).
  - split; [done|]. by intros p s ?%lookup_empty_Some.
  - intros i x m' r _ [H1 H2]. split; [lia|]. intros p s [[-> _]|[_ Hp]]%lookup_insert_Some; [lia|].
    specialize (H2 p s Hp). lia.
Qed.

Lemma bump_malloc_ok : @JSMallocOk bump_malloc.
Proof.
  split; intros σ size p [= <-]; destruct (map_fold_max_ge (strings σ)) as [H1 H2].
  - destruct (strings σ !! _) as [s|] eqn:E; [|done]. apply H2 in E. divlia.
  - split; [|divlia]. unfold atom_is_free. rewrite (land_mask _ 1 1) by done.
    set (q := map_fold _ _ _ / 16). change (2 ^ 1) with 2.
    replace ((16 + q * 16) mod 2) with 0 by divlia. done.
Qed.

(** ** Histories *)

Section histories.
Context {M : JSMalloc} {HM : JSMallocOk M}.

(** The operations on the table, as the rest of the engine calls them. *)
Inductive atom_step : JSAtoms -> JSAtoms -> Prop :=
  | step_alloc σ content w σ' p : js_alloc_string_rt σ content w = (σ', p) -> atom_step σ σ'
  | step_new σ str s t σ' i : given σ str s -> atom_kind t -> (str = 0 -> JS_ATOM_TYPE_SYMBOL <= t) ->
      JS_NewAtom σ str t = Some (σ', i) -> atom_step σ σ'
  | step_dup σ i σ' : content σ i <> None -> JS_DupAtom σ i = Some σ' -> atom_step σ σ'
  | step_free σ i σ' : content σ i <> None -> JS_FreeAtom σ i = Some σ' -> atom_step σ σ'
  | step_free_string σ p s σ' : strings σ !! p = Some s -> znth (atom_array σ) 0 <> Some p ->
      js_free_string σ p = Some σ' -> atom_step σ σ'
  | step_resize σ k σ' r : 0 <= k -> 2 ^ k <= 2 ^ 30 -> JS_ResizeAtomHash σ (2 ^ k) = Some (σ', r) -> atom_step σ σ'.

(** The runtime starts with a hash table of 256 empty chains. *)
Inductive reachable_atoms : JSAtoms -> Prop :=
  | reachable_start m σ : (forall p s, m !! p = Some s -> atom_is_free p = false /\ p <> 0 /\ atom_type s = 0) ->
      JS_ResizeAtomHash (mk_atoms 0 0 0 0 [] [] 0 m) 256 = Some (σ, 0) -> reachable_atoms σ
  | reachable_step σ σ' : reachable_atoms σ -> atom_step σ σ' -> reachable_atoms σ'.

Definition table_ok (σ : JSAtoms) : Prop := exists fl bs, atoms_ok σ fl bs.

Lemma start_ok m σ : (forall p s, m !! p = Some s -> atom_is_free p = false /\ p <> 0 /\ atom_type s = 0) ->
  JS_ResizeAtomHash (mk_atoms 0 0 0 0 [] [] 0 m) 256 = Some (σ, 0) -> atoms_ok σ [] (fun _ => []).
Proof.
  intros Hm. unfold JS_ResizeAtomHash. change (Z.land 256 (256 - 1) =? 0) with true. cbv iota.
  destruct (js_malloc _ _); [|done]. cbn [atom_hash atom_hash_size].
  change (zslice [] 0 0) with (Some (@nil Z)). cbn [mbind option_bind rehash_all]. intros [= <-].
  set (σ := mk_atoms _ _ _ _ _ _ _ _).
  assert (Hn : forall i, znth (atom_array σ) i = None) by (intros i; apply znth_nil).
  assert (Ha : forall i, atom σ i = None) by (intros i; unfold atom; by rewrite Hn).
  split; try done.
  - by exists 8.
  - intros p s Hp. destruct (Hm p s Hp) as (? & ? & _). done.
  - intros i p. by rewrite Hn.
  - intros i j p. by rewrite Hn.
  - constructor.
  - intros i. unfold next_free. rewrite Hn. split; [by intros ?%elem_of_nil|by intros []].
  - intros j h Hh. cbn. unfold znth in Hh. destruct (j <? 0); [done|]. cbn [atom_hash σ] in Hh.
    by apply (lookup_replicate 256 0) in Hh as [-> _].
  - intros j. constructor.
  - intros j i. split; [by intros ?%elem_of_nil|]. intros (_ & s & Hs & _). by rewrite Ha in Hs.
  - intros i s. by rewrite Ha.
  - intros i j s s'. by rewrite Ha.
  - intros p s Hp Ht. by destruct (Hm p s Hp) as (_ & _ & ?).
Qed.

Lemma js_alloc_string_ok σ fl bs l w : atoms_ok σ fl bs ->
  atoms_ok (js_alloc_string_rt σ l w).1 fl bs /\ forall x, content (js_alloc_string_rt σ l w).1 x = content σ x.
Proof.
  intros Hok. unfold js_alloc_string_rt. destruct (js_malloc σ _) as [p|] eqn:Ep; [|done].
  destruct (js_malloc_even _ _ _ Ep) as [He Hp0]. apply put_plain_ok; try done.
  unfold plain. by rewrite (js_malloc_fresh _ _ _ Ep).
Qed.

Lemma content_entry σ i : content σ i <> None -> exists p s, znth (atom_array σ) i = Some p /\ strings σ !! p = Some s.
Proof.
  intros Hi. destruct (content σ i) as [[t l]|] eqn:E; [|done]. apply content_Some in E as (p & s & ? & ? & _). by exists p, s.
Qed.

Lemma atom_step_ok σ σ' : table_ok σ -> atom_step σ σ' -> table_ok σ'.
Proof.
  intros (fl & bs & Hok) Hs. unfold table_ok. destruct Hs as [σ l w σ' p E|σ str s t σ' i Hg Ht Hn E|σ i σ' Hi E|σ i σ' Hi E|
    σ p s σ' Hp H0 E|σ k σ' r Hk Hk' E].
  - exists fl, bs. destruct (js_alloc_string_ok σ fl bs l w Hok) as [H _]. by rewrite E in H.
  - destruct (JS_NewAtom_ok σ fl bs str s t Hok Hg Ht Hn) as (σ1 & j & fl1 & bs1 & E1 & Hok1 & _); [right; congruence|].
    rewrite E in E1. injection E1 as <- _. by exists fl1, bs1.
  - destruct (content_entry σ i Hi) as (p & s & Hp & Hs). destruct (JS_DupAtom_ok σ fl bs i p s Hok Hp Hs) as (σ1 & E1 & Hok1 & _).
    rewrite E in E1. injection E1 as <-. by exists fl, bs.
  - destruct (content_entry σ i Hi) as (p & s & Hp & Hs).
    destruct (JS_FreeAtom_ok σ fl bs i p s Hok Hp Hs) as (σ1 & fl1 & bs1 & E1 & Hok1 & _).
    rewrite E in E1. injection E1 as <-. by exists fl1, bs1.
  - destruct (js_free_string_ok σ fl bs p s Hok Hp H0) as (σ1 & fl1 & bs1 & E1 & Hok1 & _).
    rewrite E in E1. injection E1 as <-. by exists fl1, bs1.
  - destruct (JS_ResizeAtomHash_ok σ fl bs k Hok Hk Hk') as (σ1 & r1 & bs1 & E1 & Hok1 & _).
    rewrite E in E1. injection E1 as <- _. by exists fl, bs1.
Qed.

Lemma reachable_table_ok σ : reachable_atoms σ -> table_ok σ.
Proof.
  induction 1 as [m σ Hm E|σ σ' _ IH Hs]; [|by eapply atom_step_ok].
  exists [], (fun _ => []). by eapply start_ok.
Qed.

(** C6: Every table that the operations reach from the start of a runtime is well
    formed: hash chains, free list and array agree, interned contents are unique, and
    js_get_atom_index finds the index of every atom. *)
Theorem reachable_atoms_ok σ : reachable_atoms σ -> table_ok σ /\
  (forall i j t l, t < JS_ATOM_TYPE_SYMBOL -> content σ i = Some (t, l) -> content σ j = Some (t, l) -> i = j) /\
  (forall i p s, znth (atom_array σ) i = Some p -> strings σ !! p = Some s -> js_get_atom_index σ p = Some i).
Proof.
  intros Hr. pose proof (reachable_table_ok σ Hr) as Hok. split; [done|]. destruct Hok as (fl & bs & Hok). split.
  - intros i j t l Ht (p1 & s1 & Hp1 & Hs1 & E1 & E2)%content_Some (p2 & s2 & Hp2 & Hs2 & E3 & E4)%content_Some.
    assert (Ha : atom σ i = Some s1) by (unfold atom; by rewrite Hp1).
    eapply (ok_unique _ _ _ Hok _ _ s1 s2); [done|unfold atom; by rewrite Hp2| |congruence..].
    destruct (ok_kind _ _ _ Hok i s1 Ha) as [[E _]|(_ & ? & _)]; [lia|done].
  - intros i p s. by eapply js_get_atom_index_ok.
Qed.

Lemma fresh_given σ l w p : table_ok σ -> js_malloc σ (string_size (zlen l) w) = Some p ->
  given (put_string σ p (mk_string 1 w l 0 0 0)) p (mk_string 1 w l 0 0 0).
Proof.
  intros (fl & bs & Hok) Ep. left. cbn. rewrite lookup_insert_eq. split; [done|]. intros Hp.
  destruct (js_malloc_even _ _ _ Ep) as [He _]. destruct (ok_entry _ _ _ Hok 0 p Hp He) as [s Hs].
  rewrite (js_malloc_fresh _ _ _ Ep) in Hs. done.
Qed.

(** The predefined atoms are entered by these operations. *)
Lemma init_atoms_loop_reachable l : forall σ i σ' r, reachable_atoms σ -> table_ok σ ->
  init_atoms_loop σ i l = Some (σ', r) -> reachable_atoms σ'.
Proof.
  induction l as [|str l IH]; intros σ i σ' r Hr Hok; cbn [init_atoms_loop]; [by intros [= <- _]|].
  unfold JS_NewAtomInit, js_alloc_string_rt. destruct (js_malloc σ _) as [p|] eqn:Ep; [|by intros [= <- _]].
  destruct (js_malloc_even _ _ _ Ep) as [_ Hp0]. rewrite (proj2 (Z.eqb_neq p 0)) by done.
  pose proof (fresh_given σ _ false p Hok Ep) as Hg. set (s := mk_string _ _ _ _ _ _) in *.
  assert (Ha : atom_step σ (put_string σ p s)).
  { apply (step_alloc σ (string_units str) false _ p). unfold js_alloc_string_rt. by rewrite Ep. }
  set (t := if i =? JS_ATOM_Private_brand then _ else _). assert (Ht : atom_kind t).
  { subst t. unfold atom_kind. destruct (i =? JS_ATOM_Private_brand), (i >=? JS_ATOM_Symbol_toPrimitive); done. }
  destruct (JS_NewAtom (put_string σ p s) p t) as [[σ1 a]|] eqn:En; [|done]. cbn [mbind option_bind].
  pose proof (reachable_step _ _ Hr Ha) as Hr1.
  assert (Hs : atom_step (put_string σ p s) σ1) by (by apply (step_new _ p s t σ1 a)).
  destruct (a =? _); [intros [= <- _]; by eapply reachable_step|].
  apply IH; [by eapply reachable_step|]. eapply atom_step_ok; [|done]. by eapply atom_step_ok.
Qed.

Lemma JS_InitAtoms_reachable m σ : (forall p s, m !! p = Some s -> atom_is_free p = false /\ p <> 0 /\ atom_type s = 0) ->
  JS_InitAtoms m = Some (σ, 0) -> reachable_atoms σ.
Proof.
  intros Hm. unfold JS_InitAtoms. destruct (JS_ResizeAtomHash _ 256) as [[σ1 r]|] eqn:E; [|done]. cbn [mbind option_bind].
  destruct (Z.eqb_spec r 0) as [->|Hr]; [|done]. cbn [negb]. apply init_atoms_loop_reachable; [by eapply reachable_start|].
  exists [], (fun _ => []). by eapply start_ok.
Qed.

(** ** What [JS_NewAtom] promises *)


(** C27: Two strings interned one after the other get the same atom exactly when their
    types and characters are equal, provided the first atom is still held. *)
Theorem atoms_equal_iff σ p1 s1 t1 σ1 i1 p2 s2 t2 σ2 i2 : table_ok σ ->
  given σ p1 s1 -> 1 <= t1 <= 2 -> JS_NewAtom σ p1 t1 = Some (σ1, i1) -> i1 <> 0 -> p1 <> 0 ->
  given σ1 p2 s2 -> 1 <= t2 <= 2 -> JS_NewAtom σ1 p2 t2 = Some (σ2, i2) -> i2 <> 0 -> p2 <> 0 ->
  after_release σ1 p2 s2 i1 <> None ->
  i1 = i2 <-> t1 = t2 /\ chars s1 = chars s2.
Proof.
  intros (fl & bs & Hok) Hg1 Ht1 E1 Hi1 Hp1 Hg2 Ht2 E2 Hi2 Hp2 Hheld.
  destruct (JS_NewAtom_ok σ fl bs p1 s1 t1 Hok Hg1) as (σ1' & i1' & fl1 & bs1 & F1 & Hok1 & S1); [unfold atom_kind; lia|lia|right; congruence|].
  rewrite E1 in F1. injection F1 as <- <-.
  destruct (JS_NewAtom_ok σ1 fl1 bs1 p2 s2 t2 Hok1 Hg2) as (σ2' & i2' & fl2 & bs2 & F2 & Hok2 & S2); [unfold atom_kind; lia|lia|right; congruence|].
  rewrite E2 in F2. injection F2 as <- <-.
  assert (K : forall t, 1 <= t <= 2 -> kind_of t = t) by (intros; unfold kind_of, JS_ATOM_TYPE_SYMBOL; lia).
  pose proof (na_content _ _ _ _ _ _ S1 Hi1) as C1. rewrite K in C1 by done.
  pose proof (na_content _ _ _ _ _ _ S2 Hi2) as C2. rewrite K in C2 by done.
  split.
  - intros ->. destruct (na_new _ _ _ _ _ _ S2 Hi2) as [?|[_ C]]; [done|]. rewrite C in C1. by injection C1 as -> ->.
  - intros [-> Ec]. rewrite Ec in C1. symmetry. apply (na_known _ _ _ _ _ _ S2); [unfold JS_ATOM_TYPE_SYMBOL; lia|done].
Qed.

(** ** References *)

(** A reference that is taken and given up leaves the table as it was. *)
Theorem free_after_dup σ i p s σ1 : znth (atom_array σ) i = Some p -> strings σ !! p = Some s -> 1 <= str_ref_count s ->
  JS_DupAtom σ i = Some σ1 -> JS_FreeAtom σ1 i = Some σ.
Proof.
  intros Hi Hs Hc. unfold JS_DupAtom, JS_FreeAtom. destruct (JS_AtomIsConst i); cbn [negb]; [by intros [= ->]|].
  rewrite Hi. cbn [mbind option_bind]. unfold get_string at 1. rewrite Hs. cbn [mbind option_bind]. intros [= <-].
  unfold js_free_atom, get_string, put_string, set_strings. cbn [atom_array strings]. rewrite Hi. cbn [mbind option_bind].
  rewrite lookup_insert_eq. cbn [mbind option_bind set_ref_count str_ref_count]. rewrite Z.gtb_ltb, (proj2 (Z.ltb_lt _ _)) by lia.
  cbn. rewrite insert_insert_eq, Z.add_simpl_r. f_equal.
  assert (E : mk_string (str_ref_count s) (is_wide_char s) (chars s) (hash s) (atom_type s) (hash_next s) = s) by (by destruct s).
  unfold set_ref_count. cbn. rewrite E, insert_id by done. by destruct σ.
Qed.

(** The last reference to an atom that is not predefined frees its entry, and only that one. *)
(** C28: Freeing an atom removes it exactly when it is not predefined and this was its
    last reference, leaves every other atom alone and keeps the table well formed. *)
Theorem JS_FreeAtom_releases σ i p s : table_ok σ -> znth (atom_array σ) i = Some p -> strings σ !! p = Some s ->
  exists σ', JS_FreeAtom σ i = Some σ' /\ table_ok σ' /\
    forall x, content σ' x = if decide (x = i /\ JS_AtomIsConst i = false /\ str_ref_count s <= 1) then None else content σ x.
Proof.
  intros (fl & bs & Hok) Hi Hs. destruct (JS_FreeAtom_ok σ fl bs i p s Hok Hi Hs) as (σ' & fl' & bs' & E & Hok' & Hc).
  exists σ'. split; [done|]. split; [by exists fl', bs'|done].
Qed.
End histories.
