(* ===== verification/AtomNum.v ===== *)
(** * Names that are numbers

    [is_num_string] accepts exactly the strings that [%u] prints for a 32 bit number; such a
    name below 2^31 is a tagged integer and never enters the table. *)

From stdpp Require Import gmap.
From S2P Require Import Prelude AtomTable AtomOk AtomOps AtomLaws.

(** The digits of [n], at most [k] of them: what [%u] prints. *)
Fixpoint decimal (k : nat) (n : Z) : list Z :=
  match k with
  | O => []
  | S k' => if n <? 10 then [48 + n] else decimal k' (n / 10) ++ [48 + n mod 10]
  end.

(** The number the digits of [l] continue [n] to. *)
Definition num_value (n : Z) (l : list Z) : Z := foldl (fun n c => n * 10 + (c - 48)) n l.

Lemma is_num_iff c : is_num c = true <-> 48 <= c <= 57.
Proof. unfold is_num. rewrite andb_true_iff, !Z.leb_le. done. Qed.

Lemma num_value_ge l : forall n, 0 <= n -> (forall c, c ∈ l -> is_num c = true) -> n * 10 ^ zlen l <= num_value n l.
Proof.
  induction l as [|c l IH]; intros n Hn Hl; [change (zlen []) with 0; cbn; lia|].
  rewrite zlen_cons, Z.pow_add_r by (pose proof (zlen_nonneg l); lia).
  pose proof (proj1 (is_num_iff c) (Hl c ltac:(by left))) as Hc.
  specialize (IH (n * 10 + (c - 48)) ltac:(lia) ltac:(intros; apply Hl; by right)). cbn [num_value foldl].
  fold (num_value (n * 10 + (c - 48)) l). pose proof (Z.pow_pos_nonneg 10 (zlen l) ltac:(lia) (zlen_nonneg l)). nia.
Qed.

Lemma num_string_loop_spec l : forall n m, 0 <= n < 2 ^ 32 ->
  num_string_loop l n = Some m <-> (forall c, c ∈ l -> is_num c = true) /\ num_value n l = m /\ m < 2 ^ 32.
Proof.
  induction l as [|c l IH]; intros n m Hn; cbn [num_string_loop].
  { split; [intros [= <-]; split; [by intros c ?%elem_of_nil|split; [done|lia]]|by intros (_ & <- & _)]. }
  destruct (is_num c) eqn:Ec; cbn [negb].
  2: { split; [done|]. intros (H & _). rewrite (H c) in Ec by (by left). done. }
  pose proof (proj1 (is_num_iff c) Ec) as Hc.
  assert (Eu : u64 (n * 10 + (c - 48)) = n * 10 + (c - 48)) by (unfold u64; apply Z.mod_small; lia).
  rewrite Eu, Z.shiftr_div_pow2 by lia. change (num_value n (c :: l)) with (num_value (n * 10 + (c - 48)) l).
  destruct (Z.eqb_spec ((n * 10 + (c - 48)) / 2 ^ 32) 0) as [E|E]; cbn [negb].
  - assert (Hs : 0 <= n * 10 + (c - 48) < 2 ^ 32) by divlia.
    rewrite u32_small, IH by done. split; intros (H & ?); (split; [|done]); intros d Hd.
    + apply elem_of_cons in Hd as [->|Hd]; [done|by apply H].
    + apply H. by right.
  - split; [done|]. intros (H & <- & Hm). exfalso.
    pose proof (num_value_ge l (n * 10 + (c - 48)) ltac:(lia) ltac:(intros; apply H; by right)) as Hge.
    pose proof (Z.pow_pos_nonneg 10 (zlen l) ltac:(lia) (zlen_nonneg l)). apply E, Z.div_small. nia.
Qed.

Lemma decimal_value l : forall c, is_num c = true -> c <> 48 -> (forall d, d ∈ l -> is_num d = true) ->
  forall k, (length l < k)%nat -> decimal k (num_value (c - 48) l) = c :: l.
Proof.
  induction l as [|d l IH] using rev_ind; intros c Hc Hc0 Hl k Hk; (destruct k as [|k]; [lia|]);
    pose proof (proj1 (is_num_iff c) Hc); cbn [decimal].
  - cbn [num_value foldl]. rewrite (proj2 (Z.ltb_lt _ _)) by lia. f_equal. lia.
  - assert (Hd : 48 <= d <= 57) by (apply is_num_iff, Hl, elem_of_app; right; by left).
    assert (Hl' : forall e, e ∈ l -> is_num e = true) by (intros; apply Hl, elem_of_app; by left).
    assert (E : num_value (c - 48) (l ++ [d]) = num_value (c - 48) l * 10 + (d - 48)) by (unfold num_value; by rewrite foldl_app).
    rewrite length_app in Hk. cbn [length] in Hk.
    pose proof (num_value_ge l (c - 48) ltac:(lia) Hl') as Hge.
    pose proof (Z.pow_pos_nonneg 10 (zlen l) ltac:(lia) (zlen_nonneg l)).
    rewrite E, (proj2 (Z.ltb_ge _ _)) by nia.
    replace ((num_value (c - 48) l * 10 + (d - 48)) / 10) with (num_value (c - 48) l) by divlia.
    replace ((num_value (c - 48) l * 10 + (d - 48)) mod 10) with (d - 48) by divlia.
    rewrite (IH c Hc Hc0 Hl' k) by lia. cbn [app]. repeat f_equal. lia.
Qed.

(** What is printed for a number is such a string. *)
Lemma decimal_digits k : forall n, 0 < n < 10 ^ Z.of_nat k -> exists c l, decimal k n = c :: l /\ is_num c = true /\ c <> 48 /\
  (forall d, d ∈ l -> is_num d = true) /\ num_value (c - 48) l = n /\ (length l < k)%nat.
Proof.
  induction k as [|k IH]; intros n Hn; [lia|]. cbn [decimal]. destruct (Z.ltb_spec n 10) as [H|H].
  - exists (48 + n), []. split; [done|]. split; [apply is_num_iff; lia|]. split; [lia|].
    split; [by intros d ?%elem_of_nil|]. cbn. split; lia.
  - rewrite Nat2Z.inj_succ, Z.pow_succ_r in Hn by lia.
    destruct (IH (n / 10) ltac:(divlia)) as (c & l & -> & Hc & Hc0 & Hl & Hv & Hk).
    exists c, (l ++ [48 + n mod 10]). split; [done|]. split; [done|]. split; [done|]. split.
    + intros d [Hd|Hd]%elem_of_app; [by apply Hl|]. apply list_elem_of_singleton in Hd as ->. apply is_num_iff. divlia.
    + split; [|rewrite length_app; cbn [length]; lia]. unfold num_value in *. rewrite foldl_app, Hv. cbn. divlia.
Qed.

(** C35: is_num_string accepts exactly the decimal representations, without leading
    zeros, of the numbers below 2^32 and returns the number. *)
Theorem is_num_string_decimal s n : is_num_string s = Some n <-> 0 <= n < 2 ^ 32 /\ chars s = decimal 10 n.
Proof.
  unfold is_num_string, str_len. destruct (chars s) as [|c l] eqn:Es.
  { split; [done|]. intros [Hn E]. exfalso. destruct (decide (n = 0)) as [->|Hn0]; [done|].
    destruct (decimal_digits 10 n ltac:(lia)) as (c & l & E' & _). congruence. }
  rewrite zlen_cons, (proj2 (Z.eqb_neq _ 0)) by (pose proof (zlen_nonneg l); lia). cbn [orb]. rewrite Z.gtb_ltb.
  split.
  - destruct (Z.ltb_spec 10 (1 + zlen l)) as [|Hlen]; [done|]. destruct (is_num c) eqn:Ec; [|done].
    pose proof (proj1 (is_num_iff c) Ec) as Hc. destruct (Z.eqb_spec c 48) as [->|Hc0].
    + destruct (Z.eqb_spec (1 + zlen l) 1) as [E|]; [|done]. cbn [negb]. intros [= <-]. split; [lia|].
      destruct l as [|d l]; [done|]. rewrite zlen_cons in E. pose proof (zlen_nonneg l). lia.
    + intros (Hl & Hv & Hm)%num_string_loop_spec; [|lia]. pose proof (num_value_ge l (c - 48) ltac:(lia) Hl) as Hge.
      pose proof (Z.pow_pos_nonneg 10 (zlen l) ltac:(lia) (zlen_nonneg l)). split; [nia|].
      rewrite <- Hv. symmetry. apply decimal_value; try done. unfold zlen in Hlen. lia.
  - intros [Hn E]. destruct (decide (n = 0)) as [->|Hn0].
    { injection E as -> ->. done. }
    destruct (decimal_digits 10 n ltac:(lia)) as (c' & l' & E' & Hc & Hc0 & Hl & Hv & Hk). rewrite E' in E. injection E as -> ->.
    rewrite (proj2 (Z.ltb_ge _ _)) by (unfold zlen; lia). rewrite Hc, (proj2 (Z.eqb_neq c' 48)) by done.
    apply is_num_iff in Hc. apply num_string_loop_spec; [lia|]. split; [done|]. split; [done|lia].
Qed.

Lemma tagged_int n : 0 <= n <= JS_ATOM_MAX_INT -> JS_AtomIsTaggedInt (JS_AtomFromUInt32 n) = true /\
  JS_AtomToUInt32 (JS_AtomFromUInt32 n) = n.
Proof.
  intros Hn. change JS_ATOM_MAX_INT with (2 ^ 31 - 1) in Hn.
  unfold JS_AtomIsTaggedInt, JS_AtomToUInt32, JS_AtomFromUInt32. change (u32 (Z.lnot JS_ATOM_TAG_INT)) with (Z.ones 31).
  rewrite Z.land_lor_distr_l, !Z.land_lor_distr_l, Z.land_diag.
  change (Z.land JS_ATOM_TAG_INT (Z.ones 31)) with 0. rewrite Z.lor_0_r. split.
  - apply negb_true_iff, Z.eqb_neq. intros [_ E]%Z.lor_eq_0_iff. by vm_compute in E.
  - rewrite Z.land_ones by done. apply Z.mod_small; lia.
Qed.

Section names.
Context {M : JSMalloc} {HM : JSMallocOk M}.

(** A string that is a small number in decimal digits is interned as a tagged integer,
    and the reference to it is given up. *)
Theorem JS_NewAtomStr_number σ p s n : table_ok σ -> strings σ !! p = Some s -> znth (atom_array σ) 0 <> Some p ->
  0 <= n <= JS_ATOM_MAX_INT -> chars s = decimal 10 n ->
  exists σ' a, JS_NewAtomStr σ p = Some (σ', a) /\ JS_AtomIsTaggedInt a = true /\ JS_AtomToUInt32 a = n /\
    table_ok σ' /\ forall x, content σ' x = after_release σ p s x.
Proof.
  intros (fl & bs & Hok) Hs H0 Hn E. unfold JS_NewAtomStr, get_string. rewrite Hs. cbn [mbind option_bind].
  assert (En : is_num_string s = Some n).
  { apply is_num_string_decimal. change JS_ATOM_MAX_INT with (2 ^ 31 - 1) in Hn. split; [lia|done]. }
  rewrite En, (proj2 (Z.leb_le _ _)) by lia.
  destruct (js_free_string_ok σ fl bs p s Hok Hs H0) as (σ' & fl' & bs' & -> & Hok' & _ & _ & _ & Hc). cbn [mbind option_bind].
  exists σ', (JS_AtomFromUInt32 n). destruct (tagged_int n Hn) as [? ?]. split_and!; try done. by exists fl', bs'.
Qed.
End names.
