(* ===== verification/AtomDemo.v ===== *)
(** * Atoms at work

    The runtime starts with the predefined atoms at their indices, and the laws hold at
    concrete tables. *)

From Stdlib Require Import Strings.String.
From stdpp Require Import gmap.
From S2P Require Import Prelude Chain AtomTable AtomOk AtomOps AtomLaws AtomNum.

#[local] Existing Instance bump_malloc.
#[local] Existing Instance bump_malloc_ok.

(** The table after [JS_InitAtoms]. *)
Definition started : JSAtoms :=
  match JS_InitAtoms ∅ with Some (σ, _) => σ | None => mk_atoms 0 0 0 0 [] [] 0 ∅ end.

Lemma started_init : JS_InitAtoms ∅ = Some (started, 0).
Proof. vm_compute. reflexivity. Qed.

Lemma started_reachable : reachable_atoms started.
Proof. eapply (JS_InitAtoms_reachable ∅); [by intros p s ?%lookup_empty_Some|apply started_init]. Qed.

Lemma started_ok : table_ok started.
Proof. apply reachable_table_ok, started_reachable. Qed.

(** The type [init_atoms_loop] gives to the predefined atom [i]. *)
Definition predefined_type (i : Z) : Z := if i >=? JS_ATOM_Private_brand then JS_ATOM_TYPE_SYMBOL else JS_ATOM_TYPE_STRING.

Definition predefined_content (i : Z) (str : string) : bool :=
  bool_decide (content started i = Some (predefined_type i, string_units str)).

Fixpoint predefined_from (i : Z) (l : list string) : bool :=
  match l with [] => true | str :: l => predefined_content i str && predefined_from (i + 1) l end.

Lemma predefined_from_nth l : forall i k str, predefined_from i l = true -> l !! k = Some str ->
  content started (i + Z.of_nat k) = Some (predefined_type (i + Z.of_nat k), string_units str).
Proof.
  induction l as [|a l IH]; intros i k str; [by rewrite lookup_nil|]. cbn [predefined_from].
  intros [H1 H2]%andb_true_iff. destruct k as [|k].
  - intros [= <-]. rewrite Z.add_0_r. by apply bool_decide_eq_true in H1.
  - intros Hk. specialize (IH (i + 1) k str H2 Hk). by replace (i + Z.of_nat (S k)) with (i + 1 + Z.of_nat k) by lia.
Qed.

(** After JS_InitAtoms every predefined atom has its string, its type and the
    index its enumeration constant names. *)
Theorem JS_InitAtoms_predefined : exists σ, JS_InitAtoms ∅ = Some (σ, 0) /\ atom_count σ = JS_ATOM_END /\
  forall k str, js_atom_init !! k = Some str ->
    content σ (1 + Z.of_nat k) = Some (predefined_type (1 + Z.of_nat k), string_units str).
Proof.
  exists started. split; [apply started_init|]. split; [by vm_compute|]. intros k str.
  apply predefined_from_nth. vm_compute. reflexivity.
Qed.

(** ** A name is interned twice *)

Definition hello : list Z := string_units "hello".
Definition hello_string : JSString := mk_string 1 false hello 0 0 0.

(** The address of a new string is the same in each of these tables. *)
Definition named : JSAtoms := (js_alloc_string_rt started hello false).1.
Definition named_at : Z := (js_alloc_string_rt started hello false).2.

Lemma named_ok : table_ok named.
Proof. destruct started_ok as (fl & bs & Hok). exists fl, bs. by apply js_alloc_string_ok. Qed.

Lemma named_given : given named named_at hello_string.
Proof. left. split; [vm_compute; reflexivity|by vm_compute]. Qed.

Lemma reachable_atoms_ok_witness : reachable_atoms started /\ js_get_atom_index started named_at <> Some 0 /\ table_ok started.
Proof.
  split; [apply started_reachable|]. split; [by vm_compute|]. apply (reachable_atoms_ok started), started_reachable.
Defined.


(** The table with the atom 225 and a second string of the same content. *)
Definition once : JSAtoms := match JS_NewAtom named named_at 1 with Some (σ, _) => σ | None => named end.

Lemma interned_once : JS_NewAtom named named_at 1 = Some (once, 225).
Proof. vm_compute. reflexivity. Qed.

Lemma once_ok : table_ok once.
Proof.
  eapply (atom_step_ok named); [apply named_ok|]. apply (step_new named named_at hello_string 1 once 225).
  - apply named_given.
  - unfold atom_kind. lia.
  - by vm_compute.
  - apply interned_once.
Qed.

(** The string of the atom 225. *)
Definition once_at : Z := match znth (atom_array once) 225 with Some p => p | None => 0 end.
Definition once_string : JSString := match strings once !! once_at with Some s => s | None => hello_string end.

(** Two strings of the same content get the same atom. *)
Definition both : JSAtoms := (js_alloc_string_rt named hello false).1.
Definition other_at : Z := (js_alloc_string_rt named hello false).2.
Definition first : JSAtoms := match JS_NewAtom both named_at 1 with Some (σ, _) => σ | None => both end.
Definition second : JSAtoms := match JS_NewAtom first other_at 1 with Some (σ, _) => σ | None => both end.

Lemma both_ok : table_ok both.
Proof. destruct named_ok as (fl & bs & Hok). exists fl, bs. by apply js_alloc_string_ok. Qed.

Lemma both_given : given both named_at hello_string.
Proof. left. split; [vm_compute; reflexivity|by vm_compute]. Qed.

Lemma first_given : given first other_at hello_string.
Proof. left. split; [vm_compute; reflexivity|by vm_compute]. Qed.

Lemma interned_first : JS_NewAtom both named_at 1 = Some (first, 225).
Proof. vm_compute. reflexivity. Qed.

Lemma interned_second : JS_NewAtom first other_at 1 = Some (second, 225).
Proof. vm_compute. reflexivity. Qed.

Lemma atoms_equal_iff_witness : JS_NewAtom first other_at 1 = Some (second, 225) /\
  (225 = 225 <-> 1 = 1 /\ chars hello_string = chars hello_string).
Proof.
  split; [apply interned_second|].
  apply (atoms_equal_iff both named_at hello_string 1 first 225 other_at hello_string 1 second 225 both_ok both_given
    ltac:(lia) interned_first ltac:(lia) ltac:(by vm_compute) first_given ltac:(lia) interned_second ltac:(lia)); by vm_compute.
Defined.

Definition held : JSAtoms := match JS_DupAtom once 225 with Some σ => σ | None => once end.

Lemma once_held : JS_DupAtom once 225 = Some held.
Proof. vm_compute. reflexivity. Qed.

Lemma free_after_dup_witness : exists σ1, JS_DupAtom once 225 = Some σ1 /\ JS_FreeAtom σ1 225 = Some once.
Proof.
  exists held. split; [apply once_held|].
  apply (free_after_dup once 225 once_at once_string held); [vm_compute; reflexivity..|by vm_compute|apply once_held].
Defined.

Lemma JS_FreeAtom_releases_witness : exists σ', JS_FreeAtom once 225 = Some σ' /\ table_ok σ' /\ content σ' 225 = None /\
  content σ' 47 = Some (1, []).
Proof.
  destruct (JS_FreeAtom_releases once 225 once_at once_string once_ok) as (σ' & E & Hok & Hc); [vm_compute; reflexivity..|].
  exists σ'. split; [done|]. split; [done|]. rewrite !Hc. split; [vm_compute; reflexivity|]. vm_compute. reflexivity.
Defined.

Definition digits : list Z := string_units "1024".
Definition numbered : JSAtoms := (js_alloc_string_rt started digits false).1.
Definition numbered_at : Z := (js_alloc_string_rt started digits false).2.

Lemma JS_NewAtomStr_number_witness : exists σ' a, JS_NewAtomStr numbered numbered_at = Some (σ', a) /\ JS_AtomToUInt32 a = 1024 /\
  strings σ' !! numbered_at = None.
Proof.
  destruct (JS_NewAtomStr_number numbered numbered_at (mk_string 1 false digits 0 0 0) 1024) as (σ' & a & E & _ & Ha & _ & _).
  - destruct started_ok as (fl & bs & Hok). exists fl, bs. by apply js_alloc_string_ok.
  - vm_compute. reflexivity.
  - by vm_compute.
  - by vm_compute.
  - vm_compute. reflexivity.
  - exists σ', a. split; [done|]. split; [done|].
    transitivity (match JS_NewAtomStr numbered numbered_at with Some (σ, _) => strings σ !! numbered_at | None => None end);
      [by rewrite E|vm_compute; reflexivity].
Defined.
