(* ===== verification/ChipHost.v ===== *)
(** * The chip module and its two hosts (js.cpp, GarrysMod/Lua/LuaBase.h, quickjs.h)

    js.cpp moves values between QuickJS and the Lua state of the game.  Its functions are
    programs over the Lua stack: they push values, call game functions by their position and
    must remove what they pushed.  The stack operations below are those that LuaBase.h
    documents; the game behind [Call] and the values of the two languages are the interface
    [Host].  Reference counts are not modelled, and reading a property runs no script. *)

From Stdlib Require Export String.
From Stdlib Require Import Floats.SpecFloat.
From stdpp Require Export strings gmap.
From S2P Require Export Prelude.

(** ** Doubles *)

(** IEEE 754 binary64 numbers with round to nearest. *)
Definition double : Type := spec_float.
Definition double_add : double -> double -> double := SFadd 53 1024.
Definition double_sub : double -> double -> double := SFsub 53 1024.
Definition double_mul : double -> double -> double := SFmul 53 1024.
Definition double_div : double -> double -> double := SFdiv 53 1024.
Definition double_sqrt : double -> double := SFsqrt 53 1024.
Definition double_eqb : double -> double -> bool := SFeqb.
Definition double_of_Z (z : Z) : double := binary_normalize 53 1024 z 0 false.

(** The conversion to [size_t] truncates; it is undefined for what does not fit. *)
Definition size_of_double (d : double) : option Z :=
  match d with
  | S754_zero _ => Some 0
  | S754_finite s m e =>
      let v := if 0 <=? e then Zpos m * 2 ^ e else Zpos m / 2 ^ (- e) in
      if s then (if v =? 0 then Some 0 else None)
      else if v <? 2 ^ 64 then Some v else None
  | _ => None
  end.

(** ** Outcomes *)

(** A Lua error unwinds the C++ code ([Raise]); undefined behaviour is [Crash]. *)
Inductive outcome (A : Type) :=
  | Done (a : A)
  | Raise
  | Crash.
Arguments Done {A} a.
Arguments Raise {A}.
Arguments Crash {A}.

(** ** The functions given to scripts *)

Inductive CFunction :=
  | F_console_log | F_inputs_change | F_outputs_change | F_outputs_trigger | F_vector_add
  | F_vector_mul | F_vector_sub | F_vector_div | F_vector_mod | F_vector_pow
  | F_vector_distance | F_vector_distance2 | F_vector_magnitude | F_vector_normalize
  | F_entity_get_name | F_entity_set_position | F_entity_set_color | F_entity_set_angles
  | F_entity_use | F_entity_crouching | F_entity_team | F_entity_frags | F_entity_steamid
  | F_entity_steamid64 | F_entity_accountid | F_entity_get_position | F_entity_get_color
  | F_entity_get_angles | F_entity_eye_angles | F_entity_isvalid_physics
  | F_entity_get_class | F_entity_isvalid | F_entity_isplayer | F_entity_isnpc
  | F_entity_isworld | F_entity_get_masscenter | F_entity_get_mass
  | F_entity_local_to_world | F_entity_world_to_local | F_entity_applyforce_center
  | F_entity_applyforce_offset | F_get_ent | F_get_owner | F_event_on.

#[export] Instance CFunction_eq_dec : EqDecision CFunction.
Proof. solve_decision. Defined.

(** The functions given to Lua. *)
Inductive LuaFunction :=
  | L_create_context | L_free_context | L_eval | L_compile | L_emit_event | L_get_ops.

(** ** The hosts *)

Class Host := {
  lua_value : Type;
  js_value : Type;
  (** Everything that the calls may change outside the module. *)
  world : Type;

  (** Lua values *)
  lua_globals : lua_value;
  lua_nil : lua_value;
  lua_number : double -> lua_value;
  lua_string : string -> lua_value;
  lua_cfunction : LuaFunction -> lua_value;
  lua_to_bool : lua_value -> bool;
  lua_to_number : lua_value -> double;
  (** [None] is the null pointer, for what is no string. *)
  lua_to_string : lua_value -> option string;
  lua_to_vector : lua_value -> double * double * double;
  lua_to_angle : lua_value -> double * double * double;
  lua_type : lua_value -> Z;
  lua_metatable : lua_value -> option lua_value;

  (** Lua operations, which run metamethods and game code and may raise an error *)
  lua_new_table : world -> lua_value * world;
  lua_index : lua_value -> lua_value -> world -> outcome (lua_value * world);
  lua_set_index : lua_value -> lua_value -> lua_value -> world -> outcome (unit * world);
  lua_call : lua_value -> list lua_value -> nat -> world -> outcome (list lua_value * world);

  (** JavaScript values *)
  js_undefined : js_value;
  js_null : js_value;
  js_exception : js_value;
  js_new_float64 : double -> js_value;
  js_new_bool : bool -> js_value;
  js_is_number : js_value -> bool;
  js_is_object : js_value -> bool;
  js_is_string : js_value -> bool;
  js_is_function : js_value -> bool;
  js_is_exception : js_value -> bool;

  (** JavaScript operations; contexts are named by numbers *)
  js_new_object : Z -> world -> js_value * world;
  js_new_string : Z -> string -> world -> js_value * world;
  js_to_float64 : Z -> js_value -> world -> double * world;
  js_to_cstring : Z -> js_value -> world -> option string * world;
  js_get_property : Z -> js_value -> string -> world -> js_value * world;
  js_set_property : Z -> js_value -> string -> js_value -> world -> world;
  (** The enumerable string keys, each with its conversion; [None] on an exception. *)
  js_own_names : Z -> js_value -> world -> option (list (option string)) * world;
  js_throw_type_error : Z -> string -> world -> js_value * world;
  js_throw_internal_error : Z -> string -> world -> js_value * world;
  js_get_exception : Z -> world -> js_value * world;

  (** Running scripts: next to the result are the calls of Events.on that the script made,
      in their order, with their arguments *)
  js_call : Z -> js_value -> list js_value -> world -> (js_value * list (list js_value)) * world;
  js_eval_function : Z -> js_value -> world -> (js_value * list (list js_value)) * world;
  js_eval_compile : Z -> string -> world -> js_value * world;
  js_read_bytecode : Z -> string -> world -> js_value * world;
  js_write_bytecode : Z -> js_value -> world -> option string * world;
  js_set_ops : Z -> Z -> world -> world;
  js_get_ops : Z -> world -> Z;

  (** Contexts: [JS_NewRuntime] and [JS_NewContext]; the memory limit; [JS_NewCFunction] and
      [JS_SetPropertyStr] in an object of the global object; [JS_FreeValue] of a listener,
      which may need the context; [JS_FreeContext] and [JS_FreeRuntime] *)
  js_new_context : Z -> Z -> world -> world;
  js_define_function : Z -> string -> string -> CFunction -> world -> world;
  js_free_value : option Z -> js_value -> world -> outcome (unit * world);
  js_free_context : Z -> world -> world;
  js_free_runtime : Z -> world -> world;

  (** Functions of the C library *)
  c_fmod : double -> double -> double;
  c_pow : double -> double -> double
}.

(** [Call] leaves the number of results that it was asked for; a number that was pushed is
    read as it is. *)
Class HostOk (H : Host) : Prop := {
  lua_call_results f args n w rs w' : lua_call f args n w = Done (rs, w') -> length rs = n;
  lua_type_number d : lua_type (lua_number d) = 3;
  lua_to_number_number d : lua_to_number (lua_number d) = d
}.

(** ** The state of the module *)

Definition MAX_CONTEXTS : Z := 128.
Definition MAX_LISTENERS : Z := 10.

Section state.
Context `{Host}.

Record EventListener := mkEventListener { eventName : string; callback : js_value }.

(** The first [listenerCount] elements of the array. *)
Record ContextData := mkContextData {
  listeners : list EventListener;
  entIndex : js_value;
  ownerIndex : js_value
}.

Definition listenerCount (d : ContextData) : Z := zlen (listeners d).

Record St := mkSt {
  (** The values of the current call, the top of the stack first. *)
  stack : list lua_value;
  contexts : list (option Z);
  runtimes : list (option Z);
  (** The opaque pointers of the live contexts. *)
  opaque : gmap Z ContextData;
  env : world
}.

Definition set_stack (s : St) (l : list lua_value) : St := mkSt l (contexts s) (runtimes s) (opaque s) (env s).
Definition set_env (s : St) (w : world) : St := mkSt (stack s) (contexts s) (runtimes s) (opaque s) w.
Definition set_slots (s : St) (c r : list (option Z)) : St := mkSt (stack s) c r (opaque s) (env s).
Definition set_opaque (s : St) (o : gmap Z ContextData) : St := mkSt (stack s) (contexts s) (runtimes s) o (env s).

(** Programs over the module's state, and over the hosts alone. *)
Definition M (A : Type) : Type := St -> outcome (A * St).
Definition W (A : Type) : Type := world -> outcome (A * world).

#[export] Instance M_ret : MRet M := fun A a s => Done (a, s).
#[export] Instance M_bind : MBind M := fun A B f m s =>
  match m s with Done (a, s') => f a s' | Raise => Raise | Crash => Crash end.
#[export] Instance W_ret : MRet W := fun A a w => Done (a, w).
#[export] Instance W_bind : MBind W := fun A B f m w =>
  match m w with Done (a, w') => f a w' | Raise => Raise | Crash => Crash end.

Definition crash {A} : M A := fun _ => Crash.
Definition liftW {A} (m : W A) : M A := fun s =>
  match m (env s) with Done (a, w) => Done (a, set_env s w) | Raise => Raise | Crash => Crash end.
Definition total {A} (m : world -> A * world) : W A := fun w => Done (m w).

#[global] Coercion liftW : W >-> M.

(** ** The Lua stack *)

(** The value at a position: from the top if negative, from the bottom if positive. *)
Definition stack_at (i : Z) (l : list lua_value) : option lua_value :=
  match i with
  | Zneg p => nth_error l (Nat.pred (Pos.to_nat p))
  | Z0 => None
  | Zpos p => nth_error (rev l) (Nat.pred (Pos.to_nat p))
  end.

Fixpoint stack_pop (n : nat) (l : list lua_value) : option (list lua_value) :=
  match n, l with
  | O, _ => Some l
  | S n', _ :: l' => stack_pop n' l'
  | S _, [] => None
  end.

(** The [n] values on the top, the first pushed first, and the rest. *)
Fixpoint stack_take (n : nat) (l acc : list lua_value) : option (list lua_value * list lua_value) :=
  match n, l with
  | O, _ => Some (acc, l)
  | S n', v :: l' => stack_take n' l' (v :: acc)
  | S _, [] => None
  end.

Definition get_at (i : Z) : M lua_value := fun s =>
  match stack_at i (stack s) with Some v => Done (v, s) | None => Crash end.
Definition push (v : lua_value) : M unit := fun s => Done (tt, set_stack s (v :: stack s)).

Definition Top : M Z := fun s => Done (zlen (stack s), s).
Definition Push (i : Z) : M unit := v ← get_at i; push v.
Definition Pop (n : nat) : M unit := fun s =>
  match stack_pop n (stack s) with Some l => Done (tt, set_stack s l) | None => Crash end.
Definition PushSpecial_GLOB : M unit := push lua_globals.
Definition PushNil : M unit := push lua_nil.
Definition PushNumber (d : double) : M unit := push (lua_number d).
Definition PushString (str : string) : M unit := push (lua_string str).
Definition PushCFunction (f : LuaFunction) : M unit := push (lua_cfunction f).
Definition CreateTable : M unit := t ← liftW (total lua_new_table); push t.

Definition GetField (i : Z) (name : string) : M unit :=
  t ← get_at i; v ← liftW (lua_index t (lua_string name)); push v.

(** The key is on the top; the value replaces it. *)
Definition GetTable (i : Z) : M unit :=
  t ← get_at i; k ← get_at (-1); Pop 1;; v ← liftW (lua_index t k); push v.

Definition SetField (i : Z) (name : string) : M unit :=
  t ← get_at i; v ← get_at (-1); Pop 1;; liftW (lua_set_index t (lua_string name) v).

Definition GetMetaTable (i : Z) : M bool :=
  v ← get_at i; match lua_metatable v with Some m => push m;; mret true | None => mret false end.

Definition Call (nargs nresults : nat) : M unit := fun s =>
  match stack_take nargs (stack s) [] with
  | Some (args, f :: l) =>
      match lua_call f args nresults (env s) with
      | Done (rs, w) => Done (tt, set_env (set_stack s (rev rs ++ l)) w)
      | Raise => Raise
      | Crash => Crash
      end
  | _ => Crash
  end.

Definition GetBool (i : Z) : M bool := v ← get_at i; mret (lua_to_bool v).
Definition GetNumber (i : Z) : M double := v ← get_at i; mret (lua_to_number v).
Definition GetString (i : Z) : M (option string) := v ← get_at i; mret (lua_to_string v).
Definition GetVector (i : Z) : M (double * double * double) := v ← get_at i; mret (lua_to_vector v).
Definition GetAngle (i : Z) : M (double * double * double) := v ← get_at i; mret (lua_to_angle v).
(** A position above the top has the type of no value. *)
Definition LUA_TNONE : Z := -1.
Definition GetType (i : Z) : M Z := fun s =>
  match stack_at i (stack s) with Some v => Done (lua_type v, s) | None => Done (LUA_TNONE, s) end.
(** An argument of another type is an error. *)
Definition CheckType (i type : Z) : M unit :=
  t ← GetType i; if t =? type then mret tt else fun _ => Raise.

(** ** JavaScript *)

Definition JS_ToFloat64 (ctx : Z) (v : js_value) : W double := total (js_to_float64 ctx v).
Definition JS_GetPropertyStr (ctx : Z) (v : js_value) (name : string) : W js_value :=
  total (js_get_property ctx v name).
Definition JS_SetPropertyStr (ctx : Z) (o : js_value) (name : string) (v : js_value) : W unit :=
  total (fun w => (tt, js_set_property ctx o name v w)).
Definition JS_NewObject (ctx : Z) : W js_value := total (js_new_object ctx).
Definition JS_ToCString (ctx : Z) (v : js_value) : W (option string) := total (js_to_cstring ctx v).
Definition JS_ThrowTypeError (ctx : Z) (msg : string) : W js_value := total (js_throw_type_error ctx msg).
Definition JS_ThrowInternalError (ctx : Z) (msg : string) : W js_value :=
  total (js_throw_internal_error ctx msg).

Definition JS_FreeValue (ctx : option Z) (v : js_value) : W unit := js_free_value ctx v.
Definition set_ops (ctx ops : Z) : W unit := total (fun w => (tt, js_set_ops ctx ops w)).
Definition get_ops (ctx : Z) : W Z := total (fun w => (js_get_ops ctx w, w)).
Definition JS_GetException (ctx : Z) : W js_value := total (js_get_exception ctx).

(** The same from a program over the module's state. *)
Definition ThrowTypeError (ctx : Z) (msg : string) : M js_value := JS_ThrowTypeError ctx msg.
Definition ThrowInternalError (ctx : Z) (msg : string) : M js_value := JS_ThrowInternalError ctx msg.

Definition JS_GetContextOpaque (ctx : Z) : M ContextData := fun s =>
  match opaque s !! ctx with Some d => Done (d, s) | None => Crash end.

(** [argv\[i\]], and reading through a null pointer. *)
Definition deref {A} (o : option A) : W A :=
  match o with Some v => mret v | None => fun _ => Crash end.
Definition arg (argv : list js_value) (i : nat) : W js_value := deref (nth_error argv i).

Definition JS_NewString (ctx : Z) (str : option string) : W js_value :=
  str ← deref str; total (js_new_string ctx str).
End state.
