(* ===== verification/ChipVector.v ===== *)
(** * Vector arithmetic for scripts (js.cpp)

    A vector is an object with the numbers x, y and z.  The functions check their arguments
    in the order of the code and return a new object or a number, or throw. *)

From S2P Require Import Prelude ChipHost.

Section vector.
Context `{Host}.

(** The properties x, y and z of [v]. *)
Definition get_xyz (ctx : Z) (v : js_value) : W (js_value * js_value * js_value) :=
  JSx ← JS_GetPropertyStr ctx v "x";
  JSy ← JS_GetPropertyStr ctx v "y";
  JSz ← JS_GetPropertyStr ctx v "z";
  mret (JSx, JSy, JSz).

Definition not_numbers (v : js_value * js_value * js_value) : bool :=
  let '(JSx, JSy, JSz) := v in
  negb (js_is_number JSx) || negb (js_is_number JSy) || negb (js_is_number JSz).

Definition to_xyz (ctx : Z) (v : js_value * js_value * js_value) : W (double * double * double) :=
  let '(JSx, JSy, JSz) := v in
  x ← JS_ToFloat64 ctx JSx;
  y ← JS_ToFloat64 ctx JSy;
  z ← JS_ToFloat64 ctx JSz;
  mret (x, y, z).

Definition new_xyz (ctx : Z) (x y z : double) : W js_value :=
  JSvec ← JS_NewObject ctx;
  JS_SetPropertyStr ctx JSvec "x" (js_new_float64 x);;
  JS_SetPropertyStr ctx JSvec "y" (js_new_float64 y);;
  JS_SetPropertyStr ctx JSvec "z" (js_new_float64 z);;
  mret JSvec.

(** The functions of a vector and of a vector or a number, which are the same text but for the
    operation, the argument [t] that is tested to be an object and two messages. *)
Definition vector_op (t : nat) (msg1 msg2 : string) (op : double -> double -> double)
    (ctx argc : Z) (argv : list js_value) : W js_value :=
  if argc <? 2 then JS_ThrowTypeError ctx "Expected (vector, vector or number)" else
  v ← arg argv t;
  if negb (js_is_object v) then JS_ThrowTypeError ctx msg1 else
  a0 ← arg argv 0;
  p ← get_xyz ctx a0;
  if not_numbers p then JS_ThrowTypeError ctx msg1 else
  a1 ← arg argv 1;
  let last (q : double * double * double) :=
    let '(x2, y2, z2) := q in
    '(x, y, z) ← to_xyz ctx p;
    new_xyz ctx (op x x2) (op y y2) (op z z2) in
  if negb (js_is_object a1) then
    if negb (js_is_number a1) then JS_ThrowTypeError ctx msg2
    else x2 ← JS_ToFloat64 ctx a1; last (x2, x2, x2)
  else
    p2 ← get_xyz ctx a1;
    if not_numbers p2 then JS_ThrowTypeError ctx "Second argument is not a valid vector"
    else q ← to_xyz ctx p2; last q.

Definition FIRST : string := "First argument is not a valid vector".
Definition SECOND : string := "Second argument is not a valid vector".
Definition NUMBER : string := "Second argument is not a valid number".

Definition vector_add := vector_op 0 FIRST NUMBER double_add.
Definition vector_mul := vector_op 0 FIRST NUMBER double_mul.
Definition vector_sub := vector_op 0 FIRST NUMBER double_sub.
Definition vector_div := vector_op 0 FIRST NUMBER double_div.
(** Here the first test is of [argv\[1\]]. *)
Definition vector_mod := vector_op 1 SECOND "Second argument is not a valid vecto" c_fmod.
Definition vector_pow := vector_op 0 FIRST NUMBER c_pow.

Definition vector_distance (ctx argc : Z) (argv : list js_value) : W js_value :=
  if argc <? 2 then JS_ThrowTypeError ctx "Expected (vector, vector)" else
  a0 ← arg argv 0;
  if negb (js_is_object a0) then JS_ThrowTypeError ctx FIRST else
  p ← get_xyz ctx a0;
  if not_numbers p then JS_ThrowTypeError ctx FIRST else
  a1 ← arg argv 1;
  if negb (js_is_object a1) then JS_ThrowTypeError ctx SECOND else
  p2 ← get_xyz ctx a1;
  if not_numbers p2 then JS_ThrowTypeError ctx SECOND else
  '(x, y, z) ← to_xyz ctx p;
  '(x2, y2, z2) ← to_xyz ctx p2;
  mret (js_new_float64 (double_sqrt (double_add (double_add
    (double_mul (double_sub x2 x) (double_sub x2 x)) (double_mul (double_sub y2 y) (double_sub y2 y)))
    (double_mul (double_sub z2 z) (double_sub z2 z))))).

Definition vector_distance2 (ctx argc : Z) (argv : list js_value) : W js_value :=
  if argc <? 2 then JS_ThrowTypeError ctx "Expected (vector, vector)" else
  a0 ← arg argv 0;
  if negb (js_is_object a0) then JS_ThrowTypeError ctx FIRST else
  p ← get_xyz ctx a0;
  if not_numbers p then JS_ThrowTypeError ctx FIRST else
  a1 ← arg argv 1;
  if negb (js_is_object a1) then JS_ThrowTypeError ctx SECOND else
  p2 ← get_xyz ctx a1;
  if not_numbers p2 then JS_ThrowTypeError ctx SECOND else
  '(x, y, z) ← to_xyz ctx p;
  '(x2, y2, z2) ← to_xyz ctx p2;
  mret (js_new_float64 (double_add (double_add
    (double_mul (double_sub x2 x) (double_sub x2 x)) (double_mul (double_sub y2 y) (double_sub y2 y)))
    (double_mul (double_sub z2 z) (double_sub z2 z)))).

(** [argv\[1\]] is read after a test for one argument only. *)
Definition vector_magnitude (ctx argc : Z) (argv : list js_value) : W js_value :=
  if argc <? 1 then JS_ThrowTypeError ctx "Expected at least one argument" else
  a1 ← arg argv 1;
  if negb (js_is_object a1) then JS_ThrowTypeError ctx SECOND else
  p ← get_xyz ctx a1;
  if not_numbers p then JS_ThrowTypeError ctx SECOND else
  '(x, y, z) ← to_xyz ctx p;
  mret (js_new_float64 (double_sqrt
    (double_add (double_add (double_mul x x) (double_mul y y)) (double_mul z z)))).

Definition vector_normalize (ctx argc : Z) (argv : list js_value) : W js_value :=
  if argc <? 1 then JS_ThrowTypeError ctx "Expected at least one argument" else
  a1 ← arg argv 1;
  if negb (js_is_object a1) then JS_ThrowTypeError ctx SECOND else
  p ← get_xyz ctx a1;
  if not_numbers p then JS_ThrowTypeError ctx SECOND else
  '(x, y, z) ← to_xyz ctx p;
  let magnitude :=
    double_sqrt (double_add (double_add (double_mul x x) (double_mul y y)) (double_mul z z)) in
  new_xyz ctx (double_div x magnitude) (double_div y magnitude) (double_div z magnitude).
End vector.
