(* ===== verification/ChipEntity.v ===== *)
(** * The functions of the object Entity (js.cpp)

    Every function checks its arguments, pushes the entity of an index and the answer of
    IsValid, calls methods of the entity by their positions on the Lua stack and pops what it
    pushed.  Text that several functions repeat is one definition with parameters. *)

From S2P Require Import Prelude ChipHost ChipVector.

Section entity.
Context `{Host}.

(** ** Repeated pieces *)

(** The global table and the entity of an index. *)
Definition push_entity (entityIndex : double) : M unit :=
  PushSpecial_GLOB;;
  GetField (-1) "Entity";;
  PushNumber entityIndex;;
  Call 1 1.

(** Calls a method of the value on the top without further arguments. *)
Definition ask (method : string) : M bool :=
  GetField (-1) method;;
  Push (-2);;
  Call 1 1;;
  GetBool (-1).

(** The checks of the only argument and the pushed entity; [k] goes on with the answer of
    IsValid on the stack. *)
Definition with_index (ctx argc : Z) (argv : list js_value) (k : double -> M js_value) : M js_value :=
  if argc <? 1 then ThrowTypeError ctx "Expected at least one argument" else
  a0 ← arg argv 0;
  if negb (js_is_number a0) then ThrowTypeError ctx "Argument must be a number" else
  entityIndex ← JS_ToFloat64 ctx a0;
  k entityIndex.

Definition with_entity (ctx argc : Z) (argv : list js_value) (k : M js_value) : M js_value :=
  with_index ctx argc argv (fun entityIndex =>
    push_entity entityIndex;;
    valid ← ask "IsValid";
    if negb valid then Pop 3;; ThrowTypeError ctx "Invalid entity" else k).

Definition new_pyr (ctx : Z) (x y z : double) : W js_value :=
  JSang ← JS_NewObject ctx;
  JS_SetPropertyStr ctx JSang "pitch" (js_new_float64 x);;
  JS_SetPropertyStr ctx JSang "yaw" (js_new_float64 y);;
  JS_SetPropertyStr ctx JSang "roll" (js_new_float64 z);;
  mret JSang.

(** The game constructor [name] of three numbers, taken from the table at position [i]. *)
Definition push_triple (i : Z) (name : string) (x y z : double) : M unit :=
  GetField i name;;
  PushNumber x;;
  PushNumber y;;
  PushNumber z;;
  Call 3 1.

(** ** Questions *)

Definition entity_test (method : string) (ctx argc : Z) (argv : list js_value) : M js_value :=
  with_index ctx argc argv (fun entityIndex =>
    push_entity entityIndex;;
    b ← ask method;
    Pop 3;;
    mret (js_new_bool b)).

Definition entity_isvalid := entity_test "IsValid".
Definition entity_isplayer := entity_test "IsPlayer".
Definition entity_isnpc := entity_test "IsNPC".
Definition entity_isworld := entity_test "IsWorld".

Definition entity_isvalid_physics (ctx argc : Z) (argv : list js_value) : M js_value :=
  with_entity ctx argc argv (
    GetField (-2) "GetPhysicsObject";;
    Push (-3);;
    Call 1 1;;
    b ← ask "IsValid";
    Pop 3;;
    mret (js_new_bool b)).

(** ** Properties of entities *)

Definition entity_string (method : string) (ctx argc : Z) (argv : list js_value) : M js_value :=
  with_entity ctx argc argv (
    GetField (-2) method;;
    Push (-3);;
    Call 1 1;;
    str ← GetString (-1);
    v ← JS_NewString ctx str;
    Pop 4;;
    mret v).

Definition entity_get_name := entity_string "GetName".
Definition entity_get_class := entity_string "GetClass".

Definition entity_get_position (ctx argc : Z) (argv : list js_value) : M js_value :=
  with_entity ctx argc argv (
    GetField (-2) "GetPos";;
    Push (-3);;
    Call 1 1;;
    '(x, y, z) ← GetVector (-1);
    JSvec ← new_xyz ctx x y z;
    Pop 4;;
    mret JSvec).

Definition entity_angles (method : string) (ctx argc : Z) (argv : list js_value) : M js_value :=
  with_entity ctx argc argv (
    GetField (-2) method;;
    Push (-3);;
    Call 1 1;;
    '(x, y, z) ← GetAngle (-1);
    JSang ← new_pyr ctx x y z;
    Pop 4;;
    mret JSang).

Definition entity_get_angles := entity_angles "GetAngles".
Definition entity_eye_angles := entity_angles "EyeAngles".

Definition entity_get_color (ctx argc : Z) (argv : list js_value) : M js_value :=
  with_entity ctx argc argv (
    JSang ← JS_NewObject ctx;
    GetField (-2) "GetColor";;
    Push (-3);;
    Call 1 1;;
    PushString "r";;
    GetTable (-2);;
    r ← GetNumber (-1);
    JS_SetPropertyStr ctx JSang "r" (js_new_float64 r);;
    PushString "g";;
    GetTable (-3);;
    g ← GetNumber (-1);
    JS_SetPropertyStr ctx JSang "g" (js_new_float64 g);;
    PushString "b";;
    GetTable (-4);;
    b ← GetNumber (-1);
    JS_SetPropertyStr ctx JSang "b" (js_new_float64 b);;
    PushString "a";;
    GetTable (-5);;
    a ← GetNumber (-1);
    JS_SetPropertyStr ctx JSang "a" (js_new_float64 a);;
    Pop 8;;
    mret JSang).

(** ** Properties of players *)

(** The message [msg] is thrown when the entity is no player. *)
Definition with_player (msg : string) (ctx argc : Z) (argv : list js_value) (k : M js_value) : M js_value :=
  with_entity ctx argc argv (
    GetField (-2) "IsPlayer";;
    Push (-3);;
    Call 1 1;;
    player ← GetBool (-1);
    if negb player then Pop 3;; ThrowTypeError ctx msg else k).

Definition entity_crouching (ctx argc : Z) (argv : list js_value) : M js_value :=
  with_player "Invalid playerr" ctx argc argv (
    GetField (-3) "Crouching";;
    Push (-4);;
    Call 1 1;;
    b ← GetBool (-1);
    Pop 5;;
    mret (js_new_bool b)).

Definition player_number (method : string) (ctx argc : Z) (argv : list js_value) : M js_value :=
  with_player "Invalid player" ctx argc argv (
    GetField (-3) method;;
    Push (-4);;
    Call 1 1;;
    d ← GetNumber (-1);
    Pop 5;;
    mret (js_new_float64 d)).

Definition entity_team := player_number "Team".
Definition entity_frags := player_number "Frags".

Definition player_string (method : string) (ctx argc : Z) (argv : list js_value) : M js_value :=
  with_player "Invalid player" ctx argc argv (
    GetField (-3) method;;
    Push (-4);;
    Call 1 1;;
    str ← GetString (-1);
    v ← JS_NewString ctx str;
    Pop 5;;
    mret v).

Definition entity_steamid := player_string "SteamID".
Definition entity_steamid64 := player_string "SteamID64".
Definition entity_accountid := player_string "AccountID".

(** ** Setters *)

(** The entity and its validity, for the functions that answer false if there is none. *)
Definition entity_or_false (entityIndex : double) (k : M js_value) : M js_value :=
  push_entity entityIndex;;
  valid ← ask "IsValid";
  if negb valid then Pop 3;; mret (js_new_bool false) else k.

(** Gives the value on the top to a method of the entity. *)
Definition set_with (method : string) : M js_value :=
  GetField (-3) method;;
  Push (-4);;
  Push (-3);;
  Call 2 0;;
  Pop 4;;
  mret js_undefined.

Definition entity_set_position (ctx argc : Z) (argv : list js_value) : M js_value :=
  if argc <? 2 then ThrowTypeError ctx "Expected (entity, vector)" else
  a0 ← arg argv 0;
  if negb (js_is_number a0) then ThrowTypeError ctx "Argument must be a number" else
  a1 ← arg argv 1;
  if negb (js_is_object a1) then ThrowTypeError ctx SECOND else
  p ← get_xyz ctx a1;
  if not_numbers p then ThrowTypeError ctx SECOND else
  entityIndex ← JS_ToFloat64 ctx a0;
  '(x, y, z) ← to_xyz ctx p;
  entity_or_false entityIndex (
    push_triple (-3) "Vector" x y z;;
    set_with "SetPos").

Definition entity_set_color (ctx argc : Z) (argv : list js_value) : M js_value :=
  if argc <? 2 then ThrowTypeError ctx "Expected (entity, color)" else
  a0 ← arg argv 0;
  if negb (js_is_number a0) then ThrowTypeError ctx "Argument must be a number" else
  a1 ← arg argv 1;
  if negb (js_is_object a1) then ThrowTypeError ctx SECOND else
  JSr ← JS_GetPropertyStr ctx a1 "r";
  JSg ← JS_GetPropertyStr ctx a1 "g";
  JSb ← JS_GetPropertyStr ctx a1 "b";
  JSa ← JS_GetPropertyStr ctx a1 "a";
  if not_numbers (JSr, JSg, JSb) then ThrowTypeError ctx "Second argument is not a valid color" else
  entityIndex ← JS_ToFloat64 ctx a0;
  '(r, g, b) ← to_xyz ctx (JSr, JSg, JSb);
  a ← (if negb (js_is_number JSa) then mret (double_of_Z 255) else JS_ToFloat64 ctx JSa);
  entity_or_false entityIndex (
    GetField (-3) "Color";;
    PushNumber r;;
    PushNumber g;;
    PushNumber b;;
    PushNumber a;;
    Call 4 1;;
    set_with "SetColor").

(** The properties pitch, yaw and roll of [v]. *)
Definition get_pyr (ctx : Z) (v : js_value) : W (js_value * js_value * js_value) :=
  JSpitch ← JS_GetPropertyStr ctx v "pitch";
  JSyaw ← JS_GetPropertyStr ctx v "yaw";
  JSroll ← JS_GetPropertyStr ctx v "roll";
  mret (JSpitch, JSyaw, JSroll).

Definition entity_set_angles (ctx argc : Z) (argv : list js_value) : M js_value :=
  if argc <? 2 then ThrowTypeError ctx "Expected (entity, angle)" else
  a0 ← arg argv 0;
  if negb (js_is_number a0) then ThrowTypeError ctx "Argument must be a number" else
  a1 ← arg argv 1;
  if negb (js_is_object a1) then ThrowTypeError ctx SECOND else
  p ← get_pyr ctx a1;
  if not_numbers p then ThrowTypeError ctx "Second argument is not a valid angle" else
  entityIndex ← JS_ToFloat64 ctx a0;
  '(pitch, yaw, roll) ← to_xyz ctx p;
  entity_or_false entityIndex (
    push_triple (-3) "Angle" pitch yaw roll;;
    set_with "SetAngles").

Definition entity_use (ctx argc : Z) (argv : list js_value) : M js_value :=
  if argc <? 1 then ThrowTypeError ctx "Expected at least one argument" else
  a0 ← arg argv 0;
  if negb (js_is_number a0) then ThrowTypeError ctx "Argument must be a number" else
  contextData ← JS_GetContextOpaque ctx;
  entityIndex ← JS_ToFloat64 ctx a0;
  ownerIndex ← JS_ToFloat64 ctx (ownerIndex contextData);
  push_entity entityIndex;;
  valid ← ask "IsValid";
  if negb valid then Pop 3;; ThrowTypeError ctx "Invalid entity" else
  GetField (-3) "Entity";;
  PushNumber ownerIndex;;
  Call 1 1;;
  valid ← ask "IsValid";
  if negb valid then Pop 5;; ThrowTypeError ctx "Invalid entity" else
  GetField (-4) "Use";;
  Push (-5);;
  Push (-4);;
  Call 2 0;;
  Pop 5;;
  mret js_undefined.

(** ** Coordinates *)

Definition entity_convert (method : string) (ctx argc : Z) (argv : list js_value) : M js_value :=
  if argc <? 2 then ThrowTypeError ctx "Expected (entity, vector)" else
  a0 ← arg argv 0;
  if negb (js_is_number a0) then ThrowTypeError ctx "Argument must be a number" else
  a1 ← arg argv 1;
  p ← get_xyz ctx a1;
  if not_numbers p then ThrowTypeError ctx SECOND else
  entityIndex ← JS_ToFloat64 ctx a0;
  '(x, y, z) ← to_xyz ctx p;
  entity_or_false entityIndex (
    push_triple (-3) "Vector" x y z;;
    GetField (-3) method;;
    Push (-4);;
    Push (-3);;
    Call 2 1;;
    '(x, y, z) ← GetVector (-1);
    JSvec ← new_xyz ctx x y z;
    Pop 5;;
    mret JSvec).

Definition entity_local_to_world := entity_convert "LocalToWorld".
Definition entity_world_to_local := entity_convert "WorldToLocal".

(** ** Physics *)

(** The physics object of the entity at position -2 and the answer of its IsValid. *)
Definition with_physics (ctx : Z) (k : M js_value) : M js_value :=
  GetField (-2) "GetPhysicsObject";;
  Push (-3);;
  Call 1 1;;
  valid ← ask "IsValid";
  if negb valid then Pop 5;; ThrowTypeError ctx "Invalid physics object" else k.

Definition entity_get_masscenter (ctx argc : Z) (argv : list js_value) : M js_value :=
  with_index ctx argc argv (fun entityIndex =>
    entity_or_false entityIndex (with_physics ctx (
      GetField (-2) "GetMassCenter";;
      Push (-3);;
      Call 1 1;;
      '(x, y, z) ← GetVector (-1);
      JSvec ← new_xyz ctx x y z;
      Pop 6;;
      mret JSvec))).

Definition entity_get_mass (ctx argc : Z) (argv : list js_value) : M js_value :=
  with_index ctx argc argv (fun entityIndex =>
    entity_or_false entityIndex (with_physics ctx (
      GetField (-2) "GetMass";;
      Push (-3);;
      Call 1 1;;
      mass ← GetNumber (-1);
      Pop 6;;
      mret (js_new_float64 mass)))).

Definition entity_applyforce_center (ctx argc : Z) (argv : list js_value) : M js_value :=
  if argc <? 2 then ThrowTypeError ctx "Expected (entity, vector)" else
  a0 ← arg argv 0;
  if negb (js_is_number a0) then ThrowTypeError ctx "First argument must be a number" else
  a1 ← arg argv 1;
  if negb (js_is_object a1) then ThrowTypeError ctx SECOND else
  p ← get_xyz ctx a1;
  if not_numbers p then ThrowTypeError ctx SECOND else
  entityIndex ← JS_ToFloat64 ctx a0;
  '(x, y, z) ← to_xyz ctx p;
  push_entity entityIndex;;
  valid ← ask "IsValid";
  if negb valid then Pop 3;; ThrowTypeError ctx "Invalid entity" else
  with_physics ctx (
    push_triple (-5) "Vector" x y z;;
    GetField (-3) "ApplyForceCenter";;
    Push (-4);;
    Push (-3);;
    Call 2 0;;
    Pop 6;;
    mret js_undefined).

(** The components of the second vector overwrite [x], [y] and [z]; [x2], [y2] and [z2] are
    never assigned, and what they hold is the argument [garbage]. *)
Definition entity_applyforce_offset (garbage : double * double * double)
    (ctx argc : Z) (argv : list js_value) : M js_value :=
  if argc <? 3 then ThrowTypeError ctx "Expected (entity, vector, vector)" else
  a0 ← arg argv 0;
  if negb (js_is_number a0) then ThrowTypeError ctx "First argument must be a number" else
  a1 ← arg argv 1;
  if negb (js_is_object a1) then ThrowTypeError ctx SECOND else
  a2 ← arg argv 2;
  if negb (js_is_object a2) then ThrowTypeError ctx "Third argument is not a valid vector" else
  p ← get_xyz ctx a1;
  p2 ← get_xyz ctx a2;
  if not_numbers p then ThrowTypeError ctx SECOND else
  if not_numbers p2 then ThrowTypeError ctx "Third argument is not a valid vector" else
  entityIndex ← JS_ToFloat64 ctx a0;
  '(x, y, z) ← to_xyz ctx p;
  '(x, y, z) ← to_xyz ctx p2;
  let '(x2, y2, z2) := garbage in
  push_entity entityIndex;;
  valid ← ask "IsValid";
  if negb valid then Pop 3;; ThrowTypeError ctx "Invalid entity" else
  with_physics ctx (
    push_triple (-5) "Vector" x y z;;
    push_triple (-6) "Vector" x2 y2 z2;;
    GetField (-4) "ApplyForceOffset";;
    Push (-5);;
    Push (-4);;
    Push (-4);;
    Call 3 0;;
    Pop 7;;
    mret js_undefined).

Definition get_ent (ctx argc : Z) (argv : list js_value) : M js_value :=
  contextData ← JS_GetContextOpaque ctx; mret (entIndex contextData).

Definition get_owner (ctx argc : Z) (argv : list js_value) : M js_value :=
  contextData ← JS_GetContextOpaque ctx; mret (ownerIndex contextData).
End entity.
