(* ===== verification/ChipWire.v ===== *)
(** * The objects console, Inputs and Outputs (js.cpp)

    The functions by which a script prints to the chat of its owner, declares the inputs and
    outputs of its chip and sets an output. *)

From S2P Require Import Prelude ChipHost ChipVector ChipEntity.

Section wire.
Context `{Host}.

(** ** console *)

(** [for(int i = 0; i < argc; i++)]: an argument without a string is skipped. *)
Fixpoint push_strings (ctx : Z) (argv : list js_value) (n i : nat) : M unit :=
  match n with
  | O => mret tt
  | S n' =>
      v ← arg argv i;
      str ← JS_ToCString ctx v;
      match str with Some x => PushString x | None => mret tt end;;
      push_strings ctx argv n' (S i)
  end.

Definition console_log (ctx argc : Z) (argv : list js_value) : M js_value :=
  if argc <? 1 then ThrowTypeError ctx "Expected at least one argument" else
  contextData ← JS_GetContextOpaque ctx;
  ownerIndex ← JS_ToFloat64 ctx (ownerIndex contextData);
  push_entity ownerIndex;;
  valid ← ask "IsValid";
  if negb valid then Pop 3;; ThrowTypeError ctx "Invalid entity" else
  GetField (-3) "JSChatPrint";;
  Push (-3);;
  push_strings ctx argv (Z.to_nat argc) 0;;
  Call (S (Z.to_nat argc)) 0;;
  Pop 3;;
  mret js_undefined.

(** Prints to the console of the game; no script is given this function. *)
Definition dev_console_log (ctx argc : Z) (argv : list js_value) : M js_value :=
  PushSpecial_GLOB;;
  GetField (-1) "print";;
  push_strings ctx argv (Z.to_nat argc) 0;;
  Call (Z.to_nat argc) 0;;
  Pop 1;;
  mret js_undefined.

(** ** Inputs and Outputs *)

Definition is_wire_type (str : string) : bool :=
  String.eqb str "entity" || String.eqb str "vector" || String.eqb str "angle"
  || String.eqb str "string" || String.eqb str "color".

(** The loop over the properties of [v], with the table on the top. *)
Fixpoint set_types (ctx : Z) (v : js_value) (names : list (option string)) : M unit :=
  match names with
  | [] => mret tt
  | None :: names' => set_types ctx v names'
  | Some propName :: names' =>
      value ← JS_GetPropertyStr ctx v propName;
      valueStr ← JS_ToCString ctx value;
      valueStr ← deref valueStr;
      PushString (if is_wire_type valueStr then valueStr else "normal");;
      SetField (-2) propName;;
      set_types ctx v names'
  end.

Definition own_names (ctx : Z) (v : js_value) : W (option (list (option string))) :=
  total (js_own_names ctx v).

(** The text of [inputs_change] and [outputs_change]. *)
Definition wire_change (method : string) (ctx argc : Z) (argv : list js_value) : M js_value :=
  if argc <? 1 then ThrowTypeError ctx "Expected at least one argument" else
  a0 ← arg argv 0;
  if negb (js_is_object a0) then ThrowTypeError ctx "Argument must be an object" else
  contextData ← JS_GetContextOpaque ctx;
  entityIndex ← JS_ToFloat64 ctx (entIndex contextData);
  push_entity entityIndex;;
  valid ← ask "IsValid";
  if negb valid then Pop 3;; ThrowTypeError ctx "Invalid entity" else
  properties ← own_names ctx a0;
  match properties with
  | None => mret js_undefined
  | Some names =>
      CreateTable;;
      set_types ctx a0 names;;
      GetField (-3) method;;
      Push (-4);;
      Push (-3);;
      Call 2 0;;
      Pop 4;;
      mret js_undefined
  end.

Definition inputs_change := wire_change "SetInputs".
Definition outputs_change := wire_change "SetOutputs".

(** ** Outputs.Trigger *)

(** Pushes the value of an output of type [outputType]; [Some r] is an early return. *)
Definition push_output (ctx : Z) (outputType : string) (v : js_value) : M (option js_value) :=
  let bad (msg : string) : M (option js_value) :=
    Pop 4;; r ← ThrowTypeError ctx msg; mret (Some r) in
  if String.eqb outputType "NORMAL" then
    if negb (js_is_number v) then bad NUMBER else
    outputNumber ← JS_ToFloat64 ctx v;
    PushNumber outputNumber;;
    mret None
  else if String.eqb outputType "VECTOR" then
    if negb (js_is_object v) then bad SECOND else
    p ← get_xyz ctx v;
    if not_numbers p then bad SECOND else
    '(x, y, z) ← to_xyz ctx p;
    push_triple (-4) "Vector" x y z;;
    mret None
  else if String.eqb outputType "ANGLE" then
    if negb (js_is_object v) then bad "Second argument is not a valid angle" else
    p ← get_pyr ctx v;
    if not_numbers p then bad "Second argument is not a valid angle" else
    '(pitch, yaw, roll) ← to_xyz ctx p;
    push_triple (-4) "Angle" pitch yaw roll;;
    mret None
  else if String.eqb outputType "COLOR" then
    if negb (js_is_object v) then bad "Second argument is not a valid color" else
    JSr ← JS_GetPropertyStr ctx v "r";
    JSg ← JS_GetPropertyStr ctx v "g";
    JSb ← JS_GetPropertyStr ctx v "b";
    JSa ← JS_GetPropertyStr ctx v "a";
    if not_numbers (JSr, JSg, JSb) then bad "Second argument is not a valid angle" else
    '(r, g, b) ← to_xyz ctx (JSr, JSg, JSb);
    a ← (if js_is_number JSr then JS_ToFloat64 ctx JSa else mret (double_of_Z 255));
    GetField (-4) "Color";;
    PushNumber r;;
    PushNumber g;;
    PushNumber b;;
    PushNumber a;;
    Call 4 1;;
    mret None
  else if String.eqb outputType "ENTITY" then
    if negb (js_is_number v) then bad NUMBER else
    entityIndex ← JS_ToFloat64 ctx v;
    GetField (-4) "Entity";;
    PushNumber entityIndex;;
    Call 1 1;;
    valid ← ask "IsValid";
    if negb valid then
      Pop 6;; r ← ThrowTypeError ctx "Second argument is not a valid entity"; mret (Some r)
    else
      Pop 1;;
      mret None
  else if String.eqb outputType "STRING" then
    if negb (js_is_string v) then bad "Second argument is not a valid string" else
    outputString ← JS_ToCString ctx v;
    outputString ← deref outputString;
    PushString outputString;;
    mret None
  else bad "First argument is not a valid output".

Definition outputs_trigger (ctx argc : Z) (argv : list js_value) : M js_value :=
  if argc <? 2 then ThrowTypeError ctx "Expected (outputName, output)" else
  a0 ← arg argv 0;
  if negb (js_is_string a0) then ThrowTypeError ctx "First argument must be a string" else
  contextData ← JS_GetContextOpaque ctx;
  entityIndex ← JS_ToFloat64 ctx (entIndex contextData);
  push_entity entityIndex;;
  valid ← ask "IsValid";
  if negb valid then Pop 3;; ThrowTypeError ctx "Invalid entity" else
  outputName ← JS_ToCString ctx a0;
  outputName ← deref outputName;
  GetField (-2) "OutputType";;
  Push (-3);;
  PushString outputName;;
  Call 2 1;;
  outputType ← GetString (-1);
  outputType ← deref outputType;
  a1 ← arg argv 1;
  early ← push_output ctx outputType a1;
  match early with
  | Some r => mret r
  | None =>
      GetField (-4) "TriggerOutput";;
      Push (-5);;
      PushString outputName;;
      Push (-4);;
      Call 3 0;;
      Pop 5;;
      mret js_undefined
  end.
End wire.
