(* ===== verification/ChipModule.v ===== *)
(** * The slots, the events and the Lua functions of the module (js.cpp)

    The module keeps 128 slots of contexts and runtimes; a context has the data of its chip
    and at most ten listeners.  The functions here are those that Lua calls, with their
    arguments at the bottom of the stack and their results on its top, and [event_on]. *)

From S2P Require Import Prelude ChipHost ChipVector ChipEntity ChipWire.

Section module.
Context `{Host}.

(** ** The types of Lua values (GarrysMod/Lua/Types.h) *)

Definition Type_Nil : Z := 0.
Definition Type_Bool : Z := 1.
Definition Type_Number : Z := 3.
Definition Type_String : Z := 4.
Definition Type_Table : Z := 5.
Definition Type_Entity : Z := 9.
Definition Type_Vector : Z := 10.
Definition Type_Angle : Z := 11.

(** ** Events *)

Definition set_opaque_data (ctx : Z) (d : ContextData) : M unit := fun s =>
  Done (tt, set_opaque s (<[ctx := d]> (opaque s))).

(** The first listener of an event. *)
Fixpoint find_listener (l : list EventListener) (name : string) : option nat :=
  match l with
  | [] => None
  | e :: l' => if String.eqb (eventName e) name then Some O else S <$> find_listener l' name
  end.

Definition set_callback (d : ContextData) (i : nat) (callback : js_value) : ContextData :=
  mkContextData (alter (fun e => mkEventListener (eventName e) callback) i (listeners d))
    (entIndex d) (ownerIndex d).

Definition add_listener (d : ContextData) (e : EventListener) : ContextData :=
  mkContextData (listeners d ++ [e]) (entIndex d) (ownerIndex d).

Definition event_on (ctx argc : Z) (argv : list js_value) : M js_value :=
  if argc <? 2 then ThrowTypeError ctx "Expected (eventName, callback)" else
  a0 ← arg argv 0;
  eventName ← JS_ToCString ctx a0;
  a1 ← arg argv 1;
  if negb (js_is_function a1) then ThrowTypeError ctx "Second argument must be a function" else
  contextData ← JS_GetContextOpaque ctx;
  eventName ← deref eventName;
  match find_listener (listeners contextData) eventName with
  | Some i =>
      old ← deref (nth_error (listeners contextData) i);
      JS_FreeValue (Some ctx) (callback old);;
      set_opaque_data ctx (set_callback contextData i a1);;
      mret js_undefined
  | None =>
      if listenerCount contextData >=? MAX_LISTENERS then ThrowInternalError ctx "Maximum events reached"
      else set_opaque_data ctx (add_listener contextData (mkEventListener eventName a1));;
           mret js_undefined
  end.

(** Running a script: its calls of Events.on take effect in their order. *)
Fixpoint register (ctx : Z) (calls : list (list js_value)) : M unit :=
  match calls with
  | [] => mret tt
  | argv :: calls' => event_on ctx (zlen argv) argv;; register ctx calls'
  end.

Definition run (ctx : Z) (m : world -> (js_value * list (list js_value)) * world) : M js_value :=
  '(result, calls) ← total m;
  register ctx calls;;
  mret result.

(** ** Values for a listener *)

Definition is_number_field (k : Z) (name : string) : M bool :=
  PushString name;;
  GetTable k;;
  t ← GetType (-1);
  Pop 1;;
  mret (t =? Type_Number).

(** [args\[k - 3\]]: the value at position [k] of the Lua stack. *)
Definition convert_arg (ctx k : Z) : M js_value :=
  t ← GetType k;
  if t =? Type_Nil then mret js_null
  else if t =? Type_Bool then b ← GetBool k; mret (js_new_bool b)
  else if t =? Type_Number then d ← GetNumber k; mret (js_new_float64 d)
  else if t =? Type_String then str ← GetString k; JS_NewString ctx str : M js_value
  else if t =? Type_Table then
    hasR ← is_number_field k "r";
    hasG ← is_number_field k "g";
    hasB ← is_number_field k "b";
    if hasR && hasG && hasB then
      o ← JS_NewObject ctx;
      r ← GetNumber (-3);
      JS_SetPropertyStr ctx o "r" (js_new_float64 r);;
      g ← GetNumber (-2);
      JS_SetPropertyStr ctx o "g" (js_new_float64 g);;
      b ← GetNumber (-1);
      JS_SetPropertyStr ctx o "b" (js_new_float64 b);;
      PushString "a";;
      GetTable k;;
      ta ← GetType (-1);
      (if ta =? Type_Number then
         a ← GetNumber (-1);
         JS_SetPropertyStr ctx o "a" (js_new_float64 a) : M unit
       else JS_SetPropertyStr ctx o "a" (js_new_float64 (double_of_Z 255)));;
      Pop 1;;
      mret o
    else mret js_null
  else if t =? Type_Entity then
    GetMetaTable k;;
    GetField k "EntIndex";;
    Push k;;
    Call 1 1;;
    index ← GetNumber (-1);
    Pop 1;;
    mret (if double_eqb index (double_of_Z 0) then js_null else js_new_float64 index)
  else if t =? Type_Vector then '(x, y, z) ← GetVector k; new_xyz ctx x y z : M js_value
  else if t =? Type_Angle then '(x, y, z) ← GetAngle k; new_pyr ctx x y z : M js_value
  else mret js_null.

Fixpoint convert_args (ctx : Z) (n : nat) (k : Z) : M (list js_value) :=
  match n with
  | O => mret []
  | S n' => v ← convert_arg ctx k; l ← convert_args ctx n' (k + 1); mret (v :: l)
  end.

(** ** The slots *)

(** [contexts\[context\]], which is out of bounds from 128 on. *)
Definition slot (context : Z) : M (option Z) := fun s =>
  match znth (contexts s) context with Some c => Done (c, s) | None => Crash end.

Definition runtime_slot (context : Z) : M (option Z) := fun s =>
  match znth (runtimes s) context with Some r => Done (r, s) | None => Crash end.

(** [context > MAX_CONTEXTS || context < 0 || contexts\[context\] == nullptr]; the second
    test is of an unsigned number. *)
Definition no_context (context : Z) : M bool :=
  if context >? MAX_CONTEXTS then mret true
  else c ← slot context; mret (match c with None => true | Some _ => false end).

Definition arg_size (i : Z) : M Z := d ← GetNumber i; deref (size_of_double d) : M Z.

Definition fail (msg : string) : M Z := PushNumber (double_of_Z 1);; PushString msg;; mret 2.

Definition NO_CONTEXT : string := "Couldn't find that context!".

(** Pushes an error code and the string of an exception or of a result. *)
Definition push_exception (ctx : Z) : M unit :=
  exception ← JS_GetException ctx;
  error_message ← JS_ToCString ctx exception;
  PushNumber (double_of_Z 1);;
  error_message ← deref error_message;
  PushString error_message.

Definition push_result (ctx : Z) (result : js_value) : M unit :=
  if js_is_exception result then push_exception ctx
  else
    str ← JS_ToCString ctx result;
    PushNumber (double_of_Z 0);;
    match str with Some x => PushString x | None => PushNil end.

(** ** The functions of Lua

    Their result is the number of values that they return, from the top of the stack. *)

(** [contexts\[context\]] is read before the tests. *)
Definition lua_emit_event : M Z :=
  CheckType 1 Type_Number;;
  CheckType 2 Type_String;;
  lua_args ← Top;
  context ← arg_size 1;
  name ← GetString 2;
  ctx ← slot context;
  match (if context >? MAX_CONTEXTS then None else ctx) with
  | None => fail NO_CONTEXT
  | Some ctx =>
      contextData ← JS_GetContextOpaque ctx;
      name ← deref name;
      match find_listener (listeners contextData) name with
      | None => PushNumber (double_of_Z 0);; PushNil;; mret 2
      | Some i =>
          e ← deref (nth_error (listeners contextData) i);
          args ← convert_args ctx (Z.to_nat (lua_args - 2)) 3;
          set_ops ctx 0;;
          result ← run ctx (js_call ctx (callback e) args);
          push_result ctx result;;
          mret 2
      end
  end.

(** [length] bytes are read from the string. *)
Definition prefix_of (script : string) (length : Z) : M string :=
  if length <=? Z.of_nat (String.length script) then mret (String.substring 0 (Z.to_nat length) script)
  else crash.

Definition lua_eval : M Z :=
  CheckType 1 Type_Number;;
  CheckType 2 Type_Number;;
  CheckType 3 Type_String;;
  context ← arg_size 1;
  length ← arg_size 2;
  script ← GetString 3;
  ctx ← slot context;
  match (if context >? MAX_CONTEXTS then None else ctx) with
  | None => fail NO_CONTEXT
  | Some ctx =>
      if length <? 1 then fail "Your script has to have at least 1 character!" else
      set_ops ctx 0;;
      script ← deref script;
      script ← prefix_of script length;
      bytecode ← total (js_read_bytecode ctx script);
      result ← run ctx (js_eval_function ctx bytecode);
      push_result ctx result;;
      mret 2
  end.

Definition lua_get_ops : M Z :=
  CheckType 1 Type_Number;;
  context ← arg_size 1;
  none ← no_context context;
  if (none : bool) then fail NO_CONTEXT else
  ctx ← slot context;
  ctx ← deref ctx;
  ops ← get_ops ctx;
  PushNumber (double_of_Z 0);;
  PushNumber (double_of_Z ops);;
  mret 2.

Definition lua_compile : M Z :=
  CheckType 1 Type_Number;;
  CheckType 2 Type_Number;;
  CheckType 3 Type_String;;
  context ← arg_size 1;
  length ← arg_size 2;
  script ← GetString 3;
  none ← no_context context;
  if (none : bool) then fail NO_CONTEXT
  else if length <? 1 then fail "Your script has to have at least 1 character!" else
  ctx ← slot context;
  ctx ← deref ctx;
  script ← deref script;
  script ← prefix_of script length;
  result ← total (js_eval_compile ctx script);
  if js_is_exception result then
    push_exception ctx;;
    PushNil;;
    mret 3
  else
    bytecode ← total (js_write_bytecode ctx result);
    bytecode ← deref bytecode;
    PushNumber (double_of_Z 0);;
    PushString bytecode;;
    PushNumber (double_of_Z (Z.of_nat (String.length bytecode)));;
    mret 3.

(** *** Creating and freeing contexts *)

(** The functions in the objects of the global object, in the order of their definition. *)
Definition api_table : list (string * string * CFunction) :=
  [("Entity", "Chip", F_get_ent); ("Entity", "Owner", F_get_owner);
   ("Entity", "GetName", F_entity_get_name); ("Entity", "GetClass", F_entity_get_class);
   ("Entity", "ApplyForce", F_entity_applyforce_center);
   ("Entity", "ApplyForceOffset", F_entity_applyforce_offset);
   ("Entity", "IsValid", F_entity_isvalid);
   ("Entity", "IsValidPhysics", F_entity_isvalid_physics);
   ("Entity", "GetPos", F_entity_get_position);
   ("Entity", "GetMassCenter", F_entity_get_masscenter);
   ("Entity", "ToWorld", F_entity_local_to_world);
   ("Entity", "ToLocal", F_entity_local_to_world); ("Entity", "IsWorld", F_entity_isworld);
   ("Entity", "GetColor", F_entity_get_color); ("Entity", "GetAngles", F_entity_get_angles);
   ("Entity", "IsPlayer", F_entity_isplayer); ("Entity", "IsNPC", F_entity_isnpc);
   ("Entity", "Crouching", F_entity_crouching);
   ("Entity", "EyeAngles", F_entity_eye_angles); ("Entity", "SteamID", F_entity_steamid);
   ("Entity", "Team", F_entity_team); ("Entity", "Frags", F_entity_frags);
   ("Entity", "SteamID64", F_entity_steamid64); ("Entity", "AccountID", F_entity_accountid);
   ("Entity", "Use", F_entity_use); ("Entity", "SetColor", F_entity_set_color);
   ("Entity", "SetAngles", F_entity_set_angles);
   ("Entity", "SetPos", F_entity_set_position); ("Entity", "GetMass", F_entity_get_mass);
   ("Inputs", "Change", F_inputs_change); ("Outputs", "Change", F_outputs_change);
   ("Outputs", "Trigger", F_outputs_trigger); ("Vector", "Add", F_vector_add);
   ("Vector", "Sub", F_vector_sub); ("Vector", "Mul", F_vector_mul);
   ("Vector", "Div", F_vector_div); ("Vector", "Pow", F_vector_pow);
   ("Vector", "Mod", F_vector_mod); ("Vector", "Magnitude", F_vector_magnitude);
   ("Vector", "Distance", F_vector_distance); ("Vector", "Distance2", F_vector_distance);
   ("Vector", "Normalize", F_vector_distance2); ("console", "log", F_console_log);
   ("Events", "on", F_event_on)].

(** [for(int i = 0; i < MAX_CONTEXTS; i++)] with the test for a null pointer. *)
Fixpoint find_free (n : nat) (l : list (option Z)) (i : Z) : option Z :=
  match n, l with
  | S n', None :: _ => Some i
  | S n', Some _ :: l' => find_free n' l' (i + 1)
  | _, _ => None
  end.

(** The EntIndex of the entity at position [i]; its metatable stays on the stack. *)
Definition ent_index (i : Z) : M double :=
  GetMetaTable i;;
  GetField i "EntIndex";;
  Push i;;
  Call 1 1;;
  index ← GetNumber (-1);
  Pop 1;;
  mret index.

(** The pointer of a new context is one that no live context has. *)
Definition JS_NewContext (memory_limit : Z) : M Z := fun s =>
  let ctx := fresh (dom (opaque s)) in
  Done (ctx, set_env s (js_new_context ctx memory_limit (env s))).

Definition define_functions (ctx : Z) : list (string * string * CFunction) -> W unit := fun api w =>
  Done (tt, fold_left (fun w '(o, name, f) => js_define_function ctx o name f w) api w).

Definition set_slot (i : Z) (ctx : option Z) : M unit := fun s =>
  match zupd (contexts s) i ctx, zupd (runtimes s) i ctx with
  | Some c, Some r => Done (tt, set_slots s c r)
  | _, _ => Crash
  end.

Definition lua_create_context : M Z :=
  CheckType 1 Type_Entity;;
  entIndex ← ent_index 1;
  t ← GetType 2;
  ownerIndex ← (if t =? Type_Entity then ent_index 2 else mret entIndex);
  if double_eqb entIndex (double_of_Z 0) || double_eqb ownerIndex (double_of_Z 0) then fail "Invalid entity"
  else
    s ← (fun s => Done (s, s)) : M St;
    match find_free (Z.to_nat MAX_CONTEXTS) (contexts s) 0 with
    | Some i =>
        ctx ← JS_NewContext 655359;
        set_opaque_data ctx (mkContextData [] (js_new_float64 entIndex) (js_new_float64 ownerIndex));;
        define_functions ctx api_table;;
        set_slot i (Some ctx);;
        PushNumber (double_of_Z 0);;
        PushNumber (double_of_Z i);;
        mret 2
    | None => fail "You've hit the max number of javascript contexts!"
    end.

Fixpoint free_listeners (ctx : Z) (l : list EventListener) : W unit :=
  match l with
  | [] => mret tt
  | e :: l' => JS_FreeValue (Some ctx) (callback e);; free_listeners ctx l'
  end.

Definition delete_opaque (ctx : Z) : M unit := fun s => Done (tt, set_opaque s (delete ctx (opaque s))).

Definition JS_FreeContext (ctx : Z) : W unit := total (fun w => (tt, js_free_context ctx w)).
Definition JS_FreeRuntime (ctx : Z) : W unit := total (fun w => (tt, js_free_runtime ctx w)).

Definition lua_free_context : M Z :=
  CheckType 1 Type_Number;;
  context ← arg_size 1;
  none ← no_context context;
  if (none : bool) then fail NO_CONTEXT else
  ctx ← slot context;
  ctx ← deref ctx;
  contextData ← JS_GetContextOpaque ctx;
  free_listeners ctx (listeners contextData);;
  delete_opaque ctx;;
  JS_FreeContext ctx;;
  rt ← runtime_slot context;
  rt ← deref rt;
  JS_FreeRuntime rt;;
  set_slot context None;;
  PushNumber (double_of_Z 0);;
  PushNil;;
  mret 2.

(** *** Opening and closing the module *)

Definition lua_printf (str : string) : M unit :=
  PushSpecial_GLOB;;
  GetField (-1) "print";;
  PushString str;;
  Call 1 0;;
  Pop 1.

(** The names of the functions, in the order of their definition. *)
Definition lua_table : list (string * LuaFunction) :=
  [("JS_CreateContext", L_create_context); ("JS_FreeContext", L_free_context);
   ("JS_Eval", L_eval); ("JS_Compile", L_compile); ("JS_EmitEvent", L_emit_event);
   ("JS_GetOps", L_get_ops)].

Fixpoint set_functions (l : list (string * LuaFunction)) : M unit :=
  match l with
  | [] => mret tt
  | (name, f) :: l' => PushCFunction f;; SetField (-2) name;; set_functions l'
  end.

Definition gmod13_open : M Z :=
  PushSpecial_GLOB;;
  set_functions lua_table;;
  Pop 1;;
  lua_printf "Opened JS module...";;
  mret 0.

(** The index of the listeners hides that of the contexts: the listener [i] is freed in the
    context of slot [i]. *)
Fixpoint close_listeners (l : list EventListener) (i : Z) : M unit :=
  match l with
  | [] => mret tt
  | e :: l' => ctx ← slot i; JS_FreeValue ctx (callback e);; close_listeners l' (i + 1)
  end.

Definition close_context (c : option Z) : M unit :=
  match c with
  | None => mret tt
  | Some ctx =>
      contextData ← JS_GetContextOpaque ctx;
      close_listeners (listeners contextData) 0;;
      JS_FreeValue (Some ctx) (entIndex contextData);;
      JS_FreeValue (Some ctx) (ownerIndex contextData);;
      delete_opaque ctx;;
      liftW (JS_FreeContext ctx)
  end.

Definition close_runtime (r : option Z) : W unit :=
  match r with None => mret tt | Some rt => JS_FreeRuntime rt end.

(** Calls [f] for the slots from [i] on. *)
Fixpoint for_slots {A} (f : A -> M unit) (l : list A) : M unit :=
  match l with [] => mret tt | c :: l' => f c;; for_slots f l' end.

Definition gmod13_close : M Z :=
  s ← (fun s => Done (s, s)) : M St;
  for_slots close_context (contexts s);;
  s ← (fun s => Done (s, s)) : M St;
  for_slots (fun r => liftW (close_runtime r)) (runtimes s);;
  lua_printf "Closed JS module...";;
  mret 0.

(** ** The functions by name *)

Definition lua_function (f : LuaFunction) : M Z :=
  match f with
  | L_create_context => lua_create_context
  | L_free_context => lua_free_context
  | L_eval => lua_eval
  | L_compile => lua_compile
  | L_emit_event => lua_emit_event
  | L_get_ops => lua_get_ops
  end.

(** [garbage] is what the uninitialised variables of [entity_applyforce_offset] hold. *)
Definition c_function (garbage : double * double * double) (f : CFunction)
    (ctx argc : Z) (argv : list js_value) : M js_value :=
  match f with
  | F_console_log => console_log ctx argc argv
  | F_inputs_change => inputs_change ctx argc argv
  | F_outputs_change => outputs_change ctx argc argv
  | F_outputs_trigger => outputs_trigger ctx argc argv
  | F_vector_add => liftW (vector_add ctx argc argv)
  | F_vector_mul => liftW (vector_mul ctx argc argv)
  | F_vector_sub => liftW (vector_sub ctx argc argv)
  | F_vector_div => liftW (vector_div ctx argc argv)
  | F_vector_mod => liftW (vector_mod ctx argc argv)
  | F_vector_pow => liftW (vector_pow ctx argc argv)
  | F_vector_distance => liftW (vector_distance ctx argc argv)
  | F_vector_distance2 => liftW (vector_distance2 ctx argc argv)
  | F_vector_magnitude => liftW (vector_magnitude ctx argc argv)
  | F_vector_normalize => liftW (vector_normalize ctx argc argv)
  | F_entity_get_name => entity_get_name ctx argc argv
  | F_entity_set_position => entity_set_position ctx argc argv
  | F_entity_set_color => entity_set_color ctx argc argv
  | F_entity_set_angles => entity_set_angles ctx argc argv
  | F_entity_use => entity_use ctx argc argv
  | F_entity_crouching => entity_crouching ctx argc argv
  | F_entity_team => entity_team ctx argc argv
  | F_entity_frags => entity_frags ctx argc argv
  | F_entity_steamid => entity_steamid ctx argc argv
  | F_entity_steamid64 => entity_steamid64 ctx argc argv
  | F_entity_accountid => entity_accountid ctx argc argv
  | F_entity_get_position => entity_get_position ctx argc argv
  | F_entity_get_color => entity_get_color ctx argc argv
  | F_entity_get_angles => entity_get_angles ctx argc argv
  | F_entity_eye_angles => entity_eye_angles ctx argc argv
  | F_entity_isvalid_physics => entity_isvalid_physics ctx argc argv
  | F_entity_get_class => entity_get_class ctx argc argv
  | F_entity_isvalid => entity_isvalid ctx argc argv
  | F_entity_isplayer => entity_isplayer ctx argc argv
  | F_entity_isnpc => entity_isnpc ctx argc argv
  | F_entity_isworld => entity_isworld ctx argc argv
  | F_entity_get_masscenter => entity_get_masscenter ctx argc argv
  | F_entity_get_mass => entity_get_mass ctx argc argv
  | F_entity_local_to_world => entity_local_to_world ctx argc argv
  | F_entity_world_to_local => entity_world_to_local ctx argc argv
  | F_entity_applyforce_center => entity_applyforce_center ctx argc argv
  | F_entity_applyforce_offset => entity_applyforce_offset garbage ctx argc argv
  | F_get_ent => get_ent ctx argc argv
  | F_get_owner => get_owner ctx argc argv
  | F_event_on => event_on ctx argc argv
  end.

(** [js_call_c_function]: the functions are defined with the length 1, so that at least one
    argument can be read. *)
Definition call_c_function (garbage : double * double * double) (f : CFunction) (ctx : Z)
    (args : list js_value) : M js_value :=
  c_function garbage f ctx (zlen args) (match args with [] => [js_undefined] | _ => args end).
End module.
