(* ===== verification/ChipSpec.v ===== *)
(** * What the functions of the object Entity mean

    The same functions without the Lua stack: calls of game functions and methods with their
    arguments.  A function refines its specification when it performs the same calls in the
    same order, with the same result, and leaves the Lua stack as it found it. *)

From S2P Require Import Prelude ChipHost ChipVector ChipEntity ChipWire.

Section spec.
Context `{Host}.

(** ** Game calls *)

Definition call (f : lua_value) (args : list lua_value) (n : nat) : W (list lua_value) := lua_call f args n.
Definition field (t : lua_value) (name : string) : W lua_value := lua_index t (lua_string name).

Definition set_field (t : lua_value) (name : string) (v : lua_value) : W unit :=
  lua_set_index t (lua_string name) v.
Definition new_table : W lua_value := total lua_new_table.

Definition call1 (f : lua_value) (args : list lua_value) : W lua_value :=
  rs ← call f args 1; deref (nth_error rs 0).

Definition call0 (f : lua_value) (args : list lua_value) : W unit :=
  call f args 0;; mret tt.

(** [name(args)] and [o:name(args)] *)
Definition game (name : string) (args : list lua_value) : W lua_value :=
  f ← field lua_globals name; call1 f args.

Definition method (o : lua_value) (name : string) (args : list lua_value) : W lua_value :=
  f ← field o name; call1 f (o :: args).

Definition method0 (o : lua_value) (name : string) (args : list lua_value) : W unit :=
  f ← field o name; call0 f (o :: args).

Definition Entity (i : double) : W lua_value := game "Entity" [lua_number i].

Definition asks (o : lua_value) (question : string) : W bool :=
  r ← method o question []; mret (lua_to_bool r).

Definition triple (name : string) (x y z : double) : W lua_value :=
  game name [lua_number x; lua_number y; lua_number z].

(** ** Arguments *)

Definition index_spec (ctx argc : Z) (argv : list js_value) (k : lua_value -> W js_value) : W js_value :=
  if argc <? 1 then JS_ThrowTypeError ctx "Expected at least one argument" else
  a0 ← arg argv 0;
  if negb (js_is_number a0) then JS_ThrowTypeError ctx "Argument must be a number" else
  entityIndex ← JS_ToFloat64 ctx a0;
  ent ← Entity entityIndex;
  k ent.

Definition valid_or (ent : lua_value) (bad k : W js_value) : W js_value :=
  valid ← asks ent "IsValid"; if (valid : bool) then k else bad.

Definition valid_spec (ctx argc : Z) (argv : list js_value) (k : lua_value -> W js_value) : W js_value :=
  index_spec ctx argc argv (fun ent => valid_or ent (JS_ThrowTypeError ctx "Invalid entity") (k ent)).

Definition FALSE : W js_value := mret (js_new_bool false).

(** ** The functions *)

Definition entity_test_spec (question : string) (ctx argc : Z) (argv : list js_value) : W js_value :=
  index_spec ctx argc argv (fun ent => b ← asks ent question; mret (js_new_bool b)).

Definition entity_string_spec (name : string) (ctx argc : Z) (argv : list js_value) : W js_value :=
  valid_spec ctx argc argv (fun ent => r ← method ent name []; JS_NewString ctx (lua_to_string r)).

Definition entity_get_position_spec (ctx argc : Z) (argv : list js_value) : W js_value :=
  valid_spec ctx argc argv (fun ent =>
    r ← method ent "GetPos" []; let '(x, y, z) := lua_to_vector r in new_xyz ctx x y z).

Definition entity_angles_spec (name : string) (ctx argc : Z) (argv : list js_value) : W js_value :=
  valid_spec ctx argc argv (fun ent =>
    r ← method ent name []; let '(x, y, z) := lua_to_angle r in new_pyr ctx x y z).

(** Copies a number of a table to an object. *)
Definition copy_number (ctx : Z) (t : lua_value) (o : js_value) (name : string) : W unit :=
  v ← field t name; JS_SetPropertyStr ctx o name (js_new_float64 (lua_to_number v)).

Definition entity_get_color_spec (ctx argc : Z) (argv : list js_value) : W js_value :=
  valid_spec ctx argc argv (fun ent =>
    o ← JS_NewObject ctx;
    color ← method ent "GetColor" [];
    copy_number ctx color o "r";;
    copy_number ctx color o "g";;
    copy_number ctx color o "b";;
    copy_number ctx color o "a";;
    mret o).

(** The setters: [value] makes the game value of the second argument. *)
Definition set_spec (name : string) (ent value : lua_value) : W js_value :=
  method0 ent name [value];; mret js_undefined.

Definition entity_set_position_spec (ctx argc : Z) (argv : list js_value) : W js_value :=
  if argc <? 2 then JS_ThrowTypeError ctx "Expected (entity, vector)" else
  a0 ← arg argv 0;
  if negb (js_is_number a0) then JS_ThrowTypeError ctx "Argument must be a number" else
  a1 ← arg argv 1;
  if negb (js_is_object a1) then JS_ThrowTypeError ctx SECOND else
  p ← get_xyz ctx a1;
  if not_numbers p then JS_ThrowTypeError ctx SECOND else
  entityIndex ← JS_ToFloat64 ctx a0;
  '(x, y, z) ← to_xyz ctx p;
  ent ← Entity entityIndex;
  valid_or ent FALSE (v ← triple "Vector" x y z; set_spec "SetPos" ent v).

Definition entity_set_color_spec (ctx argc : Z) (argv : list js_value) : W js_value :=
  if argc <? 2 then JS_ThrowTypeError ctx "Expected (entity, color)" else
  a0 ← arg argv 0;
  if negb (js_is_number a0) then JS_ThrowTypeError ctx "Argument must be a number" else
  a1 ← arg argv 1;
  if negb (js_is_object a1) then JS_ThrowTypeError ctx SECOND else
  JSr ← JS_GetPropertyStr ctx a1 "r";
  JSg ← JS_GetPropertyStr ctx a1 "g";
  JSb ← JS_GetPropertyStr ctx a1 "b";
  JSa ← JS_GetPropertyStr ctx a1 "a";
  if not_numbers (JSr, JSg, JSb) then JS_ThrowTypeError ctx "Second argument is not a valid color" else
  entityIndex ← JS_ToFloat64 ctx a0;
  '(r, g, b) ← to_xyz ctx (JSr, JSg, JSb);
  a ← (if js_is_number JSa then JS_ToFloat64 ctx JSa else mret (double_of_Z 255));
  ent ← Entity entityIndex;
  valid_or ent FALSE (
    c ← game "Color" [lua_number r; lua_number g; lua_number b; lua_number a];
    set_spec "SetColor" ent c).

Definition entity_set_angles_spec (ctx argc : Z) (argv : list js_value) : W js_value :=
  if argc <? 2 then JS_ThrowTypeError ctx "Expected (entity, angle)" else
  a0 ← arg argv 0;
  if negb (js_is_number a0) then JS_ThrowTypeError ctx "Argument must be a number" else
  a1 ← arg argv 1;
  if negb (js_is_object a1) then JS_ThrowTypeError ctx SECOND else
  p ← get_pyr ctx a1;
  if not_numbers p then JS_ThrowTypeError ctx "Second argument is not a valid angle" else
  entityIndex ← JS_ToFloat64 ctx a0;
  '(x, y, z) ← to_xyz ctx p;
  ent ← Entity entityIndex;
  valid_or ent FALSE (v ← triple "Angle" x y z; set_spec "SetAngles" ent v).

Definition entity_convert_spec (name : string) (ctx argc : Z) (argv : list js_value) : W js_value :=
  if argc <? 2 then JS_ThrowTypeError ctx "Expected (entity, vector)" else
  a0 ← arg argv 0;
  if negb (js_is_number a0) then JS_ThrowTypeError ctx "Argument must be a number" else
  a1 ← arg argv 1;
  p ← get_xyz ctx a1;
  if not_numbers p then JS_ThrowTypeError ctx SECOND else
  entityIndex ← JS_ToFloat64 ctx a0;
  '(x, y, z) ← to_xyz ctx p;
  ent ← Entity entityIndex;
  valid_or ent FALSE (
    v ← triple "Vector" x y z;
    r ← method ent name [v];
    let '(x, y, z) := lua_to_vector r in new_xyz ctx x y z).

Definition physics_spec (ctx : Z) (ent : lua_value) (k : lua_value -> W js_value) : W js_value :=
  phys ← method ent "GetPhysicsObject" [];
  valid_or phys (JS_ThrowTypeError ctx "Invalid physics object") (k phys).

Definition entity_get_masscenter_spec (ctx argc : Z) (argv : list js_value) : W js_value :=
  index_spec ctx argc argv (fun ent => valid_or ent FALSE (physics_spec ctx ent (fun phys =>
    r ← method phys "GetMassCenter" [];
    let '(x, y, z) := lua_to_vector r in new_xyz ctx x y z))).

Definition entity_get_mass_spec (ctx argc : Z) (argv : list js_value) : W js_value :=
  index_spec ctx argc argv (fun ent => valid_or ent FALSE (physics_spec ctx ent (fun phys =>
    r ← method phys "GetMass" [];
    mret (js_new_float64 (lua_to_number r))))).

Definition entity_applyforce_center_spec (ctx argc : Z) (argv : list js_value) : W js_value :=
  if argc <? 2 then JS_ThrowTypeError ctx "Expected (entity, vector)" else
  a0 ← arg argv 0;
  if negb (js_is_number a0) then JS_ThrowTypeError ctx "First argument must be a number" else
  a1 ← arg argv 1;
  if negb (js_is_object a1) then JS_ThrowTypeError ctx SECOND else
  p ← get_xyz ctx a1;
  if not_numbers p then JS_ThrowTypeError ctx SECOND else
  entityIndex ← JS_ToFloat64 ctx a0;
  '(x, y, z) ← to_xyz ctx p;
  ent ← Entity entityIndex;
  valid_or ent (JS_ThrowTypeError ctx "Invalid entity") (physics_spec ctx ent (fun phys =>
    v ← triple "Vector" x y z;
    method0 phys "ApplyForceCenter" [v];;
    mret js_undefined)).

(** The first vector is lost and the offset is [garbage]: see [entity_applyforce_offset]. *)
Definition entity_applyforce_offset_spec (garbage : double * double * double)
    (ctx argc : Z) (argv : list js_value) : W js_value :=
  if argc <? 3 then JS_ThrowTypeError ctx "Expected (entity, vector, vector)" else
  a0 ← arg argv 0;
  if negb (js_is_number a0) then JS_ThrowTypeError ctx "First argument must be a number" else
  a1 ← arg argv 1;
  if negb (js_is_object a1) then JS_ThrowTypeError ctx SECOND else
  a2 ← arg argv 2;
  if negb (js_is_object a2) then JS_ThrowTypeError ctx "Third argument is not a valid vector" else
  p ← get_xyz ctx a1;
  p2 ← get_xyz ctx a2;
  if not_numbers p then JS_ThrowTypeError ctx SECOND else
  if not_numbers p2 then JS_ThrowTypeError ctx "Third argument is not a valid vector" else
  entityIndex ← JS_ToFloat64 ctx a0;
  to_xyz ctx p;;
  '(x, y, z) ← to_xyz ctx p2;
  let '(x2, y2, z2) := garbage in
  ent ← Entity entityIndex;
  valid_or ent (JS_ThrowTypeError ctx "Invalid entity") (physics_spec ctx ent (fun phys =>
    v ← triple "Vector" x y z;
    offset ← triple "Vector" x2 y2 z2;
    method0 phys "ApplyForceOffset" [v; offset];;
    mret js_undefined)).

(** *** Functions that leave values on the stack

    The second component of a result is what stays on the Lua stack. *)

Definition kept (l : list lua_value) (m : W js_value) : W (js_value * list lua_value) :=
  v ← m; mret (v, l).

Definition valid_kept (ctx argc : Z) (argv : list js_value)
    (k : lua_value -> W (js_value * list lua_value)) : W (js_value * list lua_value) :=
  if argc <? 1 then kept [] (JS_ThrowTypeError ctx "Expected at least one argument") else
  a0 ← arg argv 0;
  if negb (js_is_number a0) then kept [] (JS_ThrowTypeError ctx "Argument must be a number") else
  entityIndex ← JS_ToFloat64 ctx a0;
  ent ← Entity entityIndex;
  valid ← asks ent "IsValid";
  if (valid : bool) then k ent else kept [] (JS_ThrowTypeError ctx "Invalid entity").

(** The entity and the global table stay. *)
Definition entity_isvalid_physics_spec (ctx argc : Z) (argv : list js_value) : W (js_value * list lua_value) :=
  valid_kept ctx argc argv (fun ent =>
    phys ← method ent "GetPhysicsObject" [];
    b ← asks phys "IsValid";
    mret (js_new_bool b, [ent; lua_globals])).

(** The global table stays when the entity is no player. *)
Definition player_spec (msg : string) (ctx argc : Z) (argv : list js_value)
    (k : lua_value -> W js_value) : W (js_value * list lua_value) :=
  valid_kept ctx argc argv (fun ent =>
    player ← asks ent "IsPlayer";
    if (player : bool) then kept [] (k ent) else kept [lua_globals] (JS_ThrowTypeError ctx msg)).

Definition entity_crouching_spec (ctx argc : Z) (argv : list js_value) : W (js_value * list lua_value) :=
  player_spec "Invalid playerr" ctx argc argv (fun ent =>
    b ← asks ent "Crouching"; mret (js_new_bool b)).

Definition player_number_spec (name : string) (ctx argc : Z) (argv : list js_value) :
    W (js_value * list lua_value) :=
  player_spec "Invalid player" ctx argc argv (fun ent =>
    r ← method ent name []; mret (js_new_float64 (lua_to_number r))).

Definition player_string_spec (name : string) (ctx argc : Z) (argv : list js_value) :
    W (js_value * list lua_value) :=
  player_spec "Invalid player" ctx argc argv (fun ent =>
    r ← method ent name []; JS_NewString ctx (lua_to_string r)).

(** *** Functions of the context

    The data of the context is an argument. *)

Definition entity_use_spec (d : ContextData) (ctx argc : Z) (argv : list js_value) : W js_value :=
  if argc <? 1 then JS_ThrowTypeError ctx "Expected at least one argument" else
  a0 ← arg argv 0;
  if negb (js_is_number a0) then JS_ThrowTypeError ctx "Argument must be a number" else
  index ← JS_ToFloat64 ctx a0;
  owner ← JS_ToFloat64 ctx (ownerIndex d);
  ent ← Entity index;
  valid_or ent (JS_ThrowTypeError ctx "Invalid entity") (
    user ← Entity owner;
    valid_or user (JS_ThrowTypeError ctx "Invalid entity") (
      method0 ent "Use" [user];; mret js_undefined)).

(** The strings of the first [n] arguments from [i] on; every one must have a string. *)
Fixpoint get_strings (ctx : Z) (argv : list js_value) (n i : nat) : W (list string) :=
  match n with
  | O => mret []
  | S n' =>
      v ← arg argv i;
      str ← JS_ToCString ctx v;
      x ← deref str;
      l ← get_strings ctx argv n' (S i);
      mret (x :: l)
  end.

Definition console_log_spec (d : ContextData) (ctx argc : Z) (argv : list js_value) : W js_value :=
  if argc <? 1 then JS_ThrowTypeError ctx "Expected at least one argument" else
  owner ← JS_ToFloat64 ctx (ownerIndex d);
  ent ← Entity owner;
  valid_or ent (JS_ThrowTypeError ctx "Invalid entity") (
    f ← field lua_globals "JSChatPrint";
    strs ← get_strings ctx argv (Z.to_nat argc) 0;
    call0 f (ent :: map lua_string strs);;
    mret js_undefined).

Fixpoint set_types_spec (ctx : Z) (v : js_value) (t : lua_value) (names : list (option string)) : W unit :=
  match names with
  | [] => mret tt
  | None :: names' => set_types_spec ctx v t names'
  | Some propName :: names' =>
      value ← JS_GetPropertyStr ctx v propName;
      valueStr ← JS_ToCString ctx value;
      type ← deref valueStr;
      set_field t propName (lua_string (if is_wire_type type then type else "normal"));;
      set_types_spec ctx v t names'
  end.

(** Without the names three values stay: the answer of IsValid, the entity, the globals. *)
Definition wire_change_spec (name : string) (d : ContextData) (ctx argc : Z) (argv : list js_value) :
    W (js_value * list lua_value) :=
  if argc <? 1 then kept [] (JS_ThrowTypeError ctx "Expected at least one argument") else
  a0 ← arg argv 0;
  if negb (js_is_object a0) then kept [] (JS_ThrowTypeError ctx "Argument must be an object") else
  chip ← JS_ToFloat64 ctx (entIndex d);
  ent ← Entity chip;
  answer ← method ent "IsValid" [];
  if negb (lua_to_bool answer) then kept [] (JS_ThrowTypeError ctx "Invalid entity") else
  properties ← own_names ctx a0;
  match properties with
  | None => mret (js_undefined, [answer; ent; lua_globals])
  | Some names =>
      t ← new_table;
      set_types_spec ctx a0 t names;;
      method0 ent name [t];;
      mret (js_undefined, [])
  end.

(** The game value of an output of a type, or the exception. *)
Definition output_spec (ctx : Z) (outputType : string) (v : js_value) : W (js_value + lua_value) :=
  let bad (msg : string) : W (js_value + lua_value) := r ← JS_ThrowTypeError ctx msg; mret (inl r) in
  let good (m : W lua_value) : W (js_value + lua_value) := r ← m; mret (inr r) in
  if String.eqb outputType "NORMAL" then
    if negb (js_is_number v) then bad NUMBER else
    d ← JS_ToFloat64 ctx v; mret (inr (lua_number d))
  else if String.eqb outputType "VECTOR" then
    if negb (js_is_object v) then bad SECOND else
    p ← get_xyz ctx v;
    if not_numbers p then bad SECOND else
    '(x, y, z) ← to_xyz ctx p; good (triple "Vector" x y z)
  else if String.eqb outputType "ANGLE" then
    if negb (js_is_object v) then bad "Second argument is not a valid angle" else
    p ← get_pyr ctx v;
    if not_numbers p then bad "Second argument is not a valid angle" else
    '(x, y, z) ← to_xyz ctx p; good (triple "Angle" x y z)
  else if String.eqb outputType "COLOR" then
    if negb (js_is_object v) then bad "Second argument is not a valid color" else
    JSr ← JS_GetPropertyStr ctx v "r";
    JSg ← JS_GetPropertyStr ctx v "g";
    JSb ← JS_GetPropertyStr ctx v "b";
    JSa ← JS_GetPropertyStr ctx v "a";
    if not_numbers (JSr, JSg, JSb) then bad "Second argument is not a valid angle" else
    '(r, g, b) ← to_xyz ctx (JSr, JSg, JSb);
    a ← (if js_is_number JSr then JS_ToFloat64 ctx JSa else mret (double_of_Z 255));
    good (game "Color" [lua_number r; lua_number g; lua_number b; lua_number a])
  else if String.eqb outputType "ENTITY" then
    if negb (js_is_number v) then bad NUMBER else
    d ← JS_ToFloat64 ctx v;
    ent ← Entity d;
    valid ← asks ent "IsValid";
    if (valid : bool) then mret (inr ent) else bad "Second argument is not a valid entity"
  else if String.eqb outputType "STRING" then
    if negb (js_is_string v) then bad "Second argument is not a valid string" else
    str ← JS_ToCString ctx v;
    x ← deref str; mret (inr (lua_string x))
  else bad "First argument is not a valid output".

Definition outputs_trigger_spec (d : ContextData) (ctx argc : Z) (argv : list js_value) : W js_value :=
  if argc <? 2 then JS_ThrowTypeError ctx "Expected (outputName, output)" else
  a0 ← arg argv 0;
  if negb (js_is_string a0) then JS_ThrowTypeError ctx "First argument must be a string" else
  chip ← JS_ToFloat64 ctx (entIndex d);
  ent ← Entity chip;
  valid_or ent (JS_ThrowTypeError ctx "Invalid entity") (
    str ← JS_ToCString ctx a0;
    outputName ← deref str;
    r ← method ent "OutputType" [lua_string outputName];
    outputType ← deref (lua_to_string r);
    a1 ← arg argv 1;
    out ← output_spec ctx outputType a1;
    match out with
    | inl exception => mret exception
    | inr v => method0 ent "TriggerOutput" [lua_string outputName; v];; mret js_undefined
    end).

(** ** The specification of every function but [event_on] *)

Definition function_spec (garbage : double * double * double) (f : CFunction) (d : ContextData)
    (ctx argc : Z) (argv : list js_value) : W (js_value * list lua_value) :=
  match f with
  | F_console_log => kept [] (console_log_spec d ctx argc argv)
  | F_inputs_change => wire_change_spec "SetInputs" d ctx argc argv
  | F_outputs_change => wire_change_spec "SetOutputs" d ctx argc argv
  | F_outputs_trigger => kept [] (outputs_trigger_spec d ctx argc argv)
  | F_vector_add => kept [] (vector_add ctx argc argv)
  | F_vector_mul => kept [] (vector_mul ctx argc argv)
  | F_vector_sub => kept [] (vector_sub ctx argc argv)
  | F_vector_div => kept [] (vector_div ctx argc argv)
  | F_vector_mod => kept [] (vector_mod ctx argc argv)
  | F_vector_pow => kept [] (vector_pow ctx argc argv)
  | F_vector_distance => kept [] (vector_distance ctx argc argv)
  | F_vector_distance2 => kept [] (vector_distance2 ctx argc argv)
  | F_vector_magnitude => kept [] (vector_magnitude ctx argc argv)
  | F_vector_normalize => kept [] (vector_normalize ctx argc argv)
  | F_entity_get_name => kept [] (entity_string_spec "GetName" ctx argc argv)
  | F_entity_set_position => kept [] (entity_set_position_spec ctx argc argv)
  | F_entity_set_color => kept [] (entity_set_color_spec ctx argc argv)
  | F_entity_set_angles => kept [] (entity_set_angles_spec ctx argc argv)
  | F_entity_use => kept [] (entity_use_spec d ctx argc argv)
  | F_entity_crouching => entity_crouching_spec ctx argc argv
  | F_entity_team => player_number_spec "Team" ctx argc argv
  | F_entity_frags => player_number_spec "Frags" ctx argc argv
  | F_entity_steamid => player_string_spec "SteamID" ctx argc argv
  | F_entity_steamid64 => player_string_spec "SteamID64" ctx argc argv
  | F_entity_accountid => player_string_spec "AccountID" ctx argc argv
  | F_entity_get_position => kept [] (entity_get_position_spec ctx argc argv)
  | F_entity_get_color => kept [] (entity_get_color_spec ctx argc argv)
  | F_entity_get_angles => kept [] (entity_angles_spec "GetAngles" ctx argc argv)
  | F_entity_eye_angles => kept [] (entity_angles_spec "EyeAngles" ctx argc argv)
  | F_entity_isvalid_physics => entity_isvalid_physics_spec ctx argc argv
  | F_entity_get_class => kept [] (entity_string_spec "GetClass" ctx argc argv)
  | F_entity_isvalid => kept [] (entity_test_spec "IsValid" ctx argc argv)
  | F_entity_isplayer => kept [] (entity_test_spec "IsPlayer" ctx argc argv)
  | F_entity_isnpc => kept [] (entity_test_spec "IsNPC" ctx argc argv)
  | F_entity_isworld => kept [] (entity_test_spec "IsWorld" ctx argc argv)
  | F_entity_get_masscenter => kept [] (entity_get_masscenter_spec ctx argc argv)
  | F_entity_get_mass => kept [] (entity_get_mass_spec ctx argc argv)
  | F_entity_local_to_world => kept [] (entity_convert_spec "LocalToWorld" ctx argc argv)
  | F_entity_world_to_local => kept [] (entity_convert_spec "WorldToLocal" ctx argc argv)
  | F_entity_applyforce_center => kept [] (entity_applyforce_center_spec ctx argc argv)
  | F_entity_applyforce_offset => kept [] (entity_applyforce_offset_spec garbage ctx argc argv)
  | F_get_ent => mret (entIndex d, [])
  | F_get_owner => mret (ownerIndex d, [])
  | F_event_on => mret (js_undefined, [])
  end.

(** The most values that a function leaves on the Lua stack. *)
Definition left_behind (f : CFunction) : nat :=
  match f with
  | F_inputs_change | F_outputs_change => 3
  | F_entity_isvalid_physics => 2
  | F_entity_crouching | F_entity_team | F_entity_frags | F_entity_steamid | F_entity_steamid64
  | F_entity_accountid => 1
  | _ => 0
  end.
End spec.
