(* ===== verification/ChipEntityOk.v ===== *)
(** * The functions of scripts refine their specifications

    Each function of Entity, console, Inputs and Outputs performs the calls of [ChipSpec] and
    leaves the Lua stack as it was; the functions that do not are measured. *)

From S2P Require Import Prelude ChipHost ChipVector ChipEntity ChipWire ChipSpec.

Ltac unfold_monad :=
  cbv [mbind mret M_bind M_ret W_bind W_ret liftW total deref arg get_at push Push Pop PushSpecial_GLOB
       PushNumber PushString GetField GetTable Call GetBool GetNumber GetString GetVector GetAngle
       push_entity ask with_index with_entity push_triple entity_or_false set_with with_physics with_player
       JS_ToFloat64 JS_GetPropertyStr JS_SetPropertyStr JS_NewObject JS_ThrowTypeError ThrowTypeError
       JS_NewString get_xyz to_xyz new_xyz new_pyr get_pyr not_numbers
       call field call1 call0 game method method0 Entity asks triple index_spec valid_or valid_spec FALSE
       set_spec set_field new_table own_names copy_number physics_spec kept valid_kept player_spec
       set_env set_stack stack env contexts runtimes opaque stack_at Pos.to_nat Pos.iter_op Nat.add Nat.pred].

(** Calls that are left alone, for proofs that have a lemma for them. *)
Ltac blocked x := fail.

(** Splits on the answer of a host; a call has the number of results that was asked for. *)
Ltac split_host :=
  cbn -[lua_call] in *;
  match goal with
  | Hd : ?o !! ?c = Some _ |- context [?o !! ?c] => rewrite Hd
  | |- context [match lua_call ?f ?a ?n ?w with _ => _ end] =>
      let E := fresh "E" in
      let rs := fresh "rs" in
      destruct (lua_call f a n w) as [[rs ?]| |] eqn:E; [apply lua_call_results in E|..];
      [destruct rs as [|? [|? rs]]; try discriminate E; clear E|..]
  | |- context [negb ?b] => destruct b
  | |- context [match ?x with _ => _ end] =>
      lazymatch x with
      | context [match _ with _ => _ end] => fail
      | _ => tryif blocked x then fail else destruct x
      end
  end.

Ltac refine_tac := intros [st c rt o w]; unfold_monad; repeat (progress split_host; try reflexivity).

Section refinement.
Context `{HH : Host} `{!HostOk HH}.

(** The same outcome as [spec], with the module's state unchanged, the Lua stack included. *)
Definition refines {A} (h : M A) (spec : W A) : Prop := forall s, h s = liftW spec s.

Lemma entity_test_refines question ctx argc argv :
  refines (entity_test question ctx argc argv) (entity_test_spec question ctx argc argv).
Proof. unfold refines, entity_test, entity_test_spec. refine_tac.
Qed.

Lemma entity_string_refines name ctx argc argv :
  refines (entity_string name ctx argc argv) (entity_string_spec name ctx argc argv).
Proof. unfold refines, entity_string, entity_string_spec. refine_tac. Qed.

Lemma entity_get_position_refines ctx argc argv :
  refines (entity_get_position ctx argc argv) (entity_get_position_spec ctx argc argv).
Proof. unfold refines, entity_get_position, entity_get_position_spec. refine_tac. Qed.

Lemma entity_angles_refines name ctx argc argv :
  refines (entity_angles name ctx argc argv) (entity_angles_spec name ctx argc argv).
Proof. unfold refines, entity_angles, entity_angles_spec. refine_tac. Qed.

Lemma entity_get_color_refines ctx argc argv :
  refines (entity_get_color ctx argc argv) (entity_get_color_spec ctx argc argv).
Proof. unfold refines, entity_get_color, entity_get_color_spec. refine_tac. Qed.

Lemma entity_set_position_refines ctx argc argv :
  refines (entity_set_position ctx argc argv) (entity_set_position_spec ctx argc argv).
Proof. unfold refines, entity_set_position, entity_set_position_spec. refine_tac. Qed.

Lemma entity_set_color_refines ctx argc argv :
  refines (entity_set_color ctx argc argv) (entity_set_color_spec ctx argc argv).
Proof. unfold refines, entity_set_color, entity_set_color_spec. refine_tac. Qed.

Lemma entity_set_angles_refines ctx argc argv :
  refines (entity_set_angles ctx argc argv) (entity_set_angles_spec ctx argc argv).
Proof. unfold refines, entity_set_angles, entity_set_angles_spec. refine_tac. Qed.

Lemma entity_convert_refines name ctx argc argv :
  refines (entity_convert name ctx argc argv) (entity_convert_spec name ctx argc argv).
Proof. unfold refines, entity_convert, entity_convert_spec. refine_tac. Qed.

Lemma entity_get_masscenter_refines ctx argc argv :
  refines (entity_get_masscenter ctx argc argv) (entity_get_masscenter_spec ctx argc argv).
Proof. unfold refines, entity_get_masscenter, entity_get_masscenter_spec. refine_tac. Qed.

Lemma entity_get_mass_refines ctx argc argv :
  refines (entity_get_mass ctx argc argv) (entity_get_mass_spec ctx argc argv).
Proof. unfold refines, entity_get_mass, entity_get_mass_spec. refine_tac. Qed.

Lemma entity_applyforce_center_refines ctx argc argv :
  refines (entity_applyforce_center ctx argc argv) (entity_applyforce_center_spec ctx argc argv).
Proof. unfold refines, entity_applyforce_center, entity_applyforce_center_spec. refine_tac. Qed.

Lemma entity_applyforce_offset_refines garbage ctx argc argv :
  refines (entity_applyforce_offset garbage ctx argc argv) (entity_applyforce_offset_spec garbage ctx argc argv).
Proof. unfold refines, entity_applyforce_offset, entity_applyforce_offset_spec. refine_tac. Qed.

(** ** The functions that leave values behind *)

(** As [refines], but the values that [spec] returns next to the result stay on the stack. *)
Definition leaves {A} (h : M A) (spec : W (A * list lua_value)) : Prop := forall s,
  h s = match spec (env s) with
        | Done ((a, l), w) => Done (a, set_env (set_stack s (l ++ stack s)) w)
        | Raise => Raise
        | Crash => Crash
        end.

Lemma entity_isvalid_physics_leaves ctx argc argv :
  leaves (entity_isvalid_physics ctx argc argv) (entity_isvalid_physics_spec ctx argc argv).
Proof. unfold leaves, entity_isvalid_physics, entity_isvalid_physics_spec. refine_tac. Qed.

Lemma entity_crouching_leaves ctx argc argv :
  leaves (entity_crouching ctx argc argv) (entity_crouching_spec ctx argc argv).
Proof. unfold leaves, entity_crouching, entity_crouching_spec. refine_tac. Qed.

Lemma player_number_leaves name ctx argc argv :
  leaves (player_number name ctx argc argv) (player_number_spec name ctx argc argv).
Proof. unfold leaves, player_number, player_number_spec. refine_tac. Qed.

Lemma player_string_leaves name ctx argc argv :
  leaves (player_string name ctx argc argv) (player_string_spec name ctx argc argv).
Proof. unfold leaves, player_string, player_string_spec. refine_tac. Qed.
End refinement.

Ltac blocked x ::=
  match x with
  | context [push_strings] => idtac
  | context [get_strings] => idtac
  | context [set_types] => idtac
  | context [set_types_spec] => idtac
  end.

Ltac data_tac := unfold_monad; cbv [JS_GetContextOpaque]; repeat (progress split_host; try reflexivity).

Section refinement.
Context `{HH : Host} `{!HostOk HH}.

(** ** Functions that use the data of the context *)

Definition refines_data {A} (ctx : Z) (h : M A) (spec : ContextData -> W A) : Prop :=
  forall s d, opaque s !! ctx = Some d -> h s = liftW (spec d) s.

Lemma entity_use_refines ctx argc argv :
  refines_data ctx (entity_use ctx argc argv) (fun d => entity_use_spec d ctx argc argv).
Proof.
  unfold refines_data, entity_use, entity_use_spec. intros [st c rt o w] d Hd.
  cbn in Hd. data_tac.
Qed.

(** ** Loops *)

(** Every argument has a string. *)
Definition have_strings (argv : list js_value) : Prop :=
  forall ctx v w, List.In v argv -> is_Some (fst (js_to_cstring ctx v w)).

Lemma push_strings_run ctx argv n i s :
  have_strings argv ->
  push_strings ctx argv n i s =
    match get_strings ctx argv n i (env s) with
    | Done (l, w) => Done (tt, set_env (set_stack s (rev (map lua_string l) ++ stack s)) w)
    | Raise => Raise
    | Crash => Crash
    end.
Proof.
  intros Hs. revert i s. induction n as [|n IH]; intros i [st c rt o w]; [done|].
  cbn [push_strings get_strings]. unfold_monad.
  destruct (nth_error argv i) as [v|] eqn:Ev; [|done]. apply nth_error_In in Ev.
  cbv [JS_ToCString total]. specialize (Hs ctx v w Ev). cbn.
  destruct (js_to_cstring ctx v w) as [[x|] w']; [|by destruct Hs]. cbn. rewrite IH. cbn.
  destruct (get_strings ctx argv n (S i) w') as [[l w2]| |]; [|done..]. cbv [set_env set_stack]. cbn.
  by rewrite <- app_assoc.
Qed.

Lemma stack_take_rev (l st acc : list lua_value) : stack_take (length l) (rev l ++ st) acc = Some (l ++ acc, st).
Proof.
  revert acc. induction l as [|x l IH] using rev_ind; intros acc; [done|].
  rewrite length_app, Nat.add_comm, rev_app_distr. cbn. rewrite IH, <- app_assoc. done.
Qed.

Lemma get_strings_length ctx argv n i w l w' : get_strings ctx argv n i w = Done (l, w') -> length l = n.
Proof.
  revert i w l. induction n as [|n IH]; intros i w l.
  - intros [= <- _]. done.
  - cbn [get_strings]. cbv [mbind mret W_bind W_ret]. destruct (arg argv i w) as [[v w1]| |]; [|done..].
    destruct (JS_ToCString ctx v w1) as [[str w2]| |]; [|done..]. destruct (deref str w2) as [[x w3]| |]; [|done..].
    destruct (get_strings ctx argv n (S i) w3) as [[l' w4]| |] eqn:E; [|done..]. intros [= <- <-].
    cbn. f_equal. by eapply IH.
Qed.

Lemma set_types_run ctx v names t s st :
  stack s = t :: st -> set_types ctx v names s = liftW (set_types_spec ctx v t names) s.
Proof.
  revert s. induction names as [|[name|] names IH]; intros [st' c rt o w] Hst; cbn in Hst; subst st'; [done| |by apply IH].
  cbn [set_types set_types_spec]. unfold_monad. cbv [JS_ToCString total SetField]. unfold_monad. cbn.
  destruct (js_get_property ctx v name w) as [p w1]. cbn. destruct (js_to_cstring ctx p w1) as [[x|] w2]; [|done]. cbn.
  destruct (lua_set_index _ _ _ w2) as [[[] w3]| |]; [|done..]. cbn. rewrite IH by done. done.
Qed.

(** ** The functions *)

#[local] Arguments stack_take : simpl nomatch.

Lemma console_log_refines ctx argc argv :
  have_strings argv ->
  refines_data ctx (console_log ctx argc argv) (fun d => console_log_spec d ctx argc argv).
Proof.
  intros Hs. unfold refines_data, console_log, console_log_spec. intros [st c rt o w] d Hd. cbn in Hd. data_tac.
  rewrite push_strings_run by done. cbv [set_env set_stack]. cbn.
  destruct (get_strings _ _ _ _ _) as [[strs w']| |] eqn:E; [|done..]. cbn.
  apply get_strings_length in E. rewrite <- E, <- (length_map lua_string).
  match goal with |- context [rev (map lua_string strs) ++ ?e :: ?r] =>
    pose proof (stack_take_rev (e :: map lua_string strs) r []) as T end.
  cbn [rev length] in T. rewrite <- app_assoc in T. cbn [app] in T. rewrite T, app_nil_r. cbn -[lua_call].
  repeat (progress split_host; try reflexivity).
Qed.

(** As [leaves], with the data of the context. *)
Definition leaves_data {A} (ctx : Z) (h : M A) (spec : ContextData -> W (A * list lua_value)) : Prop :=
  forall s d, opaque s !! ctx = Some d ->
    h s = match spec d (env s) with
          | Done ((a, l), w) => Done (a, set_env (set_stack s (l ++ stack s)) w)
          | Raise => Raise
          | Crash => Crash
          end.

Lemma wire_change_leaves method ctx argc argv :
  leaves_data ctx (wire_change method ctx argc argv) (fun d => wire_change_spec method d ctx argc argv).
Proof.
  unfold leaves_data, wire_change, wire_change_spec. intros [st c rt o w] d Hd. cbn in Hd.
  cbv [CreateTable]. data_tac. erewrite set_types_run by reflexivity. cbv [liftW]. cbn.
  destruct (set_types_spec _ _ _ _ _) as [[[] ?]| |]; [|done..]. data_tac.
Qed.

Lemma outputs_trigger_refines ctx argc argv :
  refines_data ctx (outputs_trigger ctx argc argv) (fun d => outputs_trigger_spec d ctx argc argv).
Proof.
  unfold refines_data, outputs_trigger, outputs_trigger_spec, push_output, output_spec.
  intros [st c rt o w] d Hd. cbn in Hd. cbv [JS_ToCString]. data_tac.
Qed.
End refinement.
