(* ===== verification/ChipOk.v ===== *)
(** * The functions given to scripts *)

From S2P Require Import Prelude ChipHost ChipVector ChipEntity ChipWire ChipModule ChipSpec.
From S2P Require Import ChipEntityOk.

(** The refinements of the single functions. *)
Create HintDb chip.

Section functions.
Context `{HH : Host} `{!HostOk HH}.

Lemma refines_leaves {A} ctx (h : M A) (spec : W A) :
  refines h spec -> leaves_data ctx h (fun _ w => match spec w with
    | Done (a, w) => Done (a, [], w) | Raise => Raise | Crash => Crash end).
Proof.
  intros Hr s d _. rewrite Hr. unfold liftW. destruct s as [st c rt o w]. cbn.
  destruct (spec w) as [[a w']| |]; done.
Qed.

Lemma refines_data_leaves {A} ctx (h : M A) (spec : ContextData -> W A) :
  refines_data ctx h spec -> leaves_data ctx h (fun d w => match spec d w with
    | Done (a, w) => Done (a, [], w) | Raise => Raise | Crash => Crash end).
Proof.
  intros Hr s d Hd. rewrite (Hr _ _ Hd). unfold liftW. destruct s as [st c rt o w]. cbn.
  destruct (spec d w) as [[a w']| |]; done.
Qed.

Lemma leaves_leaves_data {A} ctx (h : M A) (spec : W (A * list lua_value)) :
  leaves h spec -> leaves_data ctx h (fun _ => spec).
Proof. intros Hl s d _. apply Hl. Qed.

Lemma liftW_refines {A} (m : W A) : refines (liftW m) m.
Proof. done. Qed.

Lemma get_ent_leaves ctx argc argv : leaves_data ctx (get_ent ctx argc argv) (fun d => mret (entIndex d, [])).
Proof. intros [st c rt o w] d Hd. cbn in Hd. unfold get_ent, JS_GetContextOpaque. cbv [mbind M_bind]. cbn. by rewrite Hd. Qed.

Lemma get_owner_leaves ctx argc argv : leaves_data ctx (get_owner ctx argc argv) (fun d => mret (ownerIndex d, [])).
Proof. intros [st c rt o w] d Hd. cbn in Hd. unfold get_owner, JS_GetContextOpaque. cbv [mbind M_bind]. cbn. by rewrite Hd. Qed.

#[local] Hint Resolve get_ent_leaves get_owner_leaves entity_test_refines entity_string_refines entity_get_position_refines
  entity_angles_refines entity_get_color_refines entity_set_position_refines
  entity_set_color_refines entity_set_angles_refines entity_convert_refines
  entity_get_masscenter_refines entity_get_mass_refines entity_applyforce_center_refines
  entity_applyforce_offset_refines entity_use_refines outputs_trigger_refines
  entity_isvalid_physics_leaves entity_crouching_leaves player_number_leaves player_string_leaves
  wire_change_leaves liftW_refines console_log_refines : chip.

Lemma functions_refine garbage f ctx argc argv :
  f <> F_event_on -> (f = F_console_log -> have_strings argv) ->
  leaves_data ctx (c_function garbage f ctx argc argv)
    (fun d => function_spec garbage f d ctx argc argv).
Proof.
  intros Hf Hs. destruct f; try done; cbn [c_function function_spec];
    first [ apply refines_leaves; solve [eauto with chip]
          | apply refines_data_leaves; solve [eauto with chip]
          | apply leaves_leaves_data; solve [eauto with chip]
          | solve [eauto with chip] ].
Qed.


(** ** The Lua stack *)

Definition at_most {A} (n : nat) (spec : W (A * list lua_value)) : Prop :=
  forall w a l w', spec w = Done ((a, l), w') -> (length l <= n)%nat.

Lemma kept_at_most l m n : (length l <= n)%nat -> at_most n (kept l m).
Proof.
  intros Hl w a l' w'. unfold kept. cbv [mbind mret W_bind W_ret].
  destruct (m w) as [[v w1]| |]; [|done..]. by intros [= _ <- _].
Qed.

Lemma at_most_bind {A B} n (m : W A) (k : A -> W (B * list lua_value)) :
  (forall a, at_most n (k a)) -> at_most n (m ≫= k).
Proof.
  intros Hk w b l w'. cbv [mbind W_bind]. destruct (m w) as [[a w1]| |]; [|done..]. apply Hk.
Qed.

Lemma at_most_if {A} n (b : bool) (x y : W (A * list lua_value)) :
  at_most n x -> at_most n y -> at_most n (if b then x else y).
Proof. by destruct b. Qed.

Lemma at_most_ret {A} n (a : A) l : (length l <= n)%nat -> at_most n (mret (a, l)).
Proof. intros Hl w a' l' w'. by intros [= _ <- _]. Qed.

Ltac at_most_tac :=
  repeat first [ apply kept_at_most; cbn; lia | apply at_most_ret; cbn; lia | apply at_most_if
               | apply at_most_bind; intros ].

Lemma function_spec_left garbage f d ctx argc argv :
  at_most (left_behind f) (function_spec garbage f d ctx argc argv).
Proof.
  destruct f; cbn [function_spec left_behind];
    unfold wire_change_spec, entity_isvalid_physics_spec, entity_crouching_spec, player_number_spec,
      player_string_spec, player_spec, valid_kept; at_most_tac.
  all: match goal with |- at_most _ (match ?x with _ => _ end) => destruct x end; at_most_tac.
Qed.

End functions.
