(* ===== verification/ChipEvents.v ===== *)
(** * The listeners of a context

    The array of listeners is a map from event names to callbacks: [Events.on] inserts into
    it, and the first listener of a name is the one that is called. *)

From S2P Require Import Prelude ChipHost ChipVector ChipEntity ChipWire ChipModule.

Section events.
Context `{H : Host}.

Definition names (d : ContextData) : list string := eventName <$> listeners d.

Definition data_ok (d : ContextData) : Prop := listenerCount d <= MAX_LISTENERS /\ NoDup (names d).

(** What a context answers to an event. *)
Definition handlers (d : ContextData) : gmap string js_value :=
  list_to_map ((fun e => (eventName e, callback e)) <$> listeners d).

Lemma find_listener_lookup l name :
  match find_listener l name with
  | Some i => exists e, l !! i = Some e /\ eventName e = name /\
      (list_to_map ((fun e => (eventName e, callback e)) <$> l) : gmap string js_value) !! name
        = Some (callback e)
  | None => ~ (name ∈ eventName <$> l) /\
      (list_to_map ((fun e => (eventName e, callback e)) <$> l) : gmap string js_value) !! name = None
  end.
Proof.
  induction l as [|e l IH]; cbn [find_listener].
  - split; [by intros ?%elem_of_nil|done].
  - cbn [fmap list_fmap list_to_map foldr]. destruct (String.eqb_spec (eventName e) name) as [<-|Hn].
    + exists e. cbn. by rewrite lookup_insert_eq.
    + cbn. destruct (find_listener l name) as [i|] eqn:E; cbn.
      * destruct IH as (e' & ? & ? & ?). exists e'. by rewrite lookup_insert_ne.
      * destruct IH as [IH1 IH2]. rewrite lookup_insert_ne by done. split; [|done].
        rewrite not_elem_of_cons. done.
Qed.

Lemma find_listener_Some d name i : find_listener (listeners d) name = Some i ->
  exists e, listeners d !! i = Some e /\ eventName e = name /\ handlers d !! name = Some (callback e).
Proof. intros E. pose proof (find_listener_lookup (listeners d) name) as Hl. by rewrite E in Hl. Qed.

Lemma find_listener_None d name : find_listener (listeners d) name = None ->
  ~ (name ∈ names d) /\ handlers d !! name = None.
Proof. intros E. pose proof (find_listener_lookup (listeners d) name) as Hl. by rewrite E in Hl. Qed.

Lemma names_set_callback d i cb : names (set_callback d i cb) = names d.
Proof.
  unfold names, set_callback. cbn. revert i. induction (listeners d) as [|e l IH]; intros [|i]; cbn; [done..|].
  by rewrite IH.
Qed.

Lemma data_ok_set_callback d i cb : data_ok d -> data_ok (set_callback d i cb).
Proof.
  unfold data_ok, listenerCount, zlen. rewrite names_set_callback. cbn. by rewrite length_alter.
Qed.

Lemma data_ok_add d e : data_ok d -> listenerCount d < MAX_LISTENERS -> ~ (eventName e ∈ names d) ->
  data_ok (add_listener d e).
Proof.
  unfold data_ok, listenerCount, zlen, names, add_listener. cbn. intros [Hl Hn] Hlt Hnot.
  rewrite length_app, fmap_app. cbn. split; [lia|]. apply list.NoDup_app. split; [done|].
  split; [|apply NoDup_singleton]. intros x Hx ->%list_elem_of_singleton. done.
Qed.

Lemma handlers_set_callback d i cb name : find_listener (listeners d) name = Some i ->
  handlers (set_callback d i cb) = <[name := cb]> (handlers d).
Proof.
  unfold handlers, set_callback. cbn. revert i.
  induction (listeners d) as [|e l IH]; intros i; cbn [find_listener]; [done|].
  destruct (String.eqb_spec (eventName e) name) as [<-|Hn].
  - intros [= <-]. cbn. by rewrite insert_insert_eq.
  - destruct (find_listener l name) as [j|]; [|done]. intros [= <-]. cbn. rewrite (IH j eq_refl).
    by apply insert_insert_ne.
Qed.

Lemma handlers_add d e : ~ (eventName e ∈ names d) ->
  handlers (add_listener d e) = <[eventName e := callback e]> (handlers d).
Proof.
  unfold handlers, add_listener, names. cbn. intros Hn. rewrite fmap_app. cbn.
  rewrite list_to_map_snoc; [done|]. by rewrite <- list_fmap_compose.
Qed.

Lemma handlers_size d : NoDup (names d) -> Z.of_nat (size (handlers d)) = listenerCount d.
Proof.
  intros Hn. unfold handlers. rewrite map_size_list_to_map.
  - by rewrite length_fmap.
  - by rewrite <- list_fmap_compose.
Qed.

(** ** Events.on *)

(** [d'] has the callback [cb] for [name] and is [d] otherwise. *)
Definition registered (d d' : ContextData) (name : string) (cb : js_value) : Prop :=
  data_ok d' /\ handlers d' = <[name := cb]> (handlers d) /\
  entIndex d' = entIndex d /\ ownerIndex d' = ownerIndex d.

(** The contract: a map of at most ten names. *)
Definition registers (ctx : Z) (d : ContextData) (name : string) (cb : js_value) (w : world) (s : St)
    (o : outcome (js_value * St)) : Prop :=
  match handlers d !! name with
  | Some old =>
      match js_free_value (Some ctx) old w with
      | Done (_, w') => exists d', registered d d' name cb /\
          o = Done (js_undefined, set_opaque (set_env s w') (<[ctx := d']> (opaque s)))
      | Raise => o = Raise
      | Crash => o = Crash
      end
  | None =>
      if Z.of_nat (size (handlers d)) >=? MAX_LISTENERS then
        let '(r, w') := js_throw_internal_error ctx "Maximum events reached" w in o = Done (r, set_env s w')
      else exists d', registered d d' name cb /\
             o = Done (js_undefined, set_opaque (set_env s w) (<[ctx := d']> (opaque s)))
  end.

(** C29: The listeners of a context are a map from event names to callbacks: Events.on
    with a name and a function replaces the callback of a known name after freeing the
    old one, adds a new name while there are fewer than ten, and throws without a
    change otherwise. *)
Theorem event_on_registers ctx argc a0 cb rest s d name w :
  data_ok d -> opaque s !! ctx = Some d -> 2 <= argc -> js_is_function cb = true ->
  js_to_cstring ctx a0 (env s) = (Some name, w) ->
  registers ctx d name cb w s (event_on ctx argc (a0 :: cb :: rest) s).
Proof.
  intros Hd Ho Hargc Hf Hs. unfold event_on, registers. destruct (Z.ltb_spec argc 2); [lia|].
  destruct s as [st c rt o w0]. cbn in Hs, Ho.
  unfold arg, JS_ToCString, JS_GetContextOpaque, set_opaque_data. cbv [mbind mret M_bind M_ret liftW total deref W_ret].
  cbn. rewrite Hs. cbn. rewrite Hf. cbn. rewrite Ho. cbn. rewrite (handlers_size d) by apply Hd.
  destruct (find_listener (listeners d) name) as [i|] eqn:E.
  - destruct (find_listener_Some _ _ _ E) as (e & He & Hname & ->).
    rewrite nth_error_lookup, He. cbn. unfold JS_FreeValue.
    destruct (js_free_value (Some ctx) (callback e) w) as [[[] w']| |]; cbn; [|done..].
    exists (set_callback d i cb). split; [|done]. split_and!; [by apply data_ok_set_callback|by apply handlers_set_callback|done..].
  - destruct (find_listener_None _ _ E) as [Hn ->]. rewrite Z.geb_leb. destruct (Z.leb_spec MAX_LISTENERS (listenerCount d)).
    + unfold ThrowInternalError, JS_ThrowInternalError, liftW, total. cbn.
      by destruct (js_throw_internal_error ctx "Maximum events reached" w).
    + exists (add_listener d (mkEventListener name cb)). split; [|done].
      split_and!; [by apply data_ok_add|by apply (handlers_add d (mkEventListener name cb))|done..].
Qed.

Lemma event_on_no_listener ctx argc argv s :
  argc < 2 \/ (exists a0 a1 rest, argv = a0 :: a1 :: rest /\ js_is_function a1 = false) ->
  exists s', (exists r, event_on ctx argc argv s = Done (r, s')) /\
    stack s' = stack s /\ contexts s' = contexts s /\ runtimes s' = runtimes s /\ opaque s' = opaque s.
Proof.
  intros Hcase. unfold event_on, ThrowTypeError, JS_ThrowTypeError, arg, JS_ToCString.
  cbv [mbind mret M_bind M_ret liftW total deref W_ret]. destruct (Z.ltb_spec argc 2).
  - destruct (js_throw_type_error ctx _ _) as [r w]. eexists. split; [eexists; reflexivity|done].
  - destruct Hcase as [?|(a0 & a1 & rest & -> & Hf)]; [lia|]. cbn.
    destruct (js_to_cstring ctx a0 (env s)) as [str w]. cbn. rewrite Hf. cbn.
    destruct (js_throw_type_error ctx _ _) as [r w1]. eexists. split; [eexists; reflexivity|done].
Qed.

(** What any call of [event_on] can change. *)
Definition updates (ctx : Z) (s s' : St) : Prop :=
  contexts s' = contexts s /\ runtimes s' = runtimes s /\
  (opaque s' = opaque s \/ exists d d', opaque s !! ctx = Some d /\ (data_ok d -> data_ok d') /\
     opaque s' = <[ctx := d']> (opaque s)).

Lemma event_on_updates ctx argc argv s r s' : event_on ctx argc argv s = Done (r, s') -> updates ctx s s'.
Proof.
  unfold event_on, ThrowTypeError, ThrowInternalError, JS_ThrowTypeError, JS_ThrowInternalError, arg, JS_ToCString,
    JS_GetContextOpaque, set_opaque_data, JS_FreeValue, updates.
  cbv [mbind mret M_bind M_ret liftW total deref W_ret]. destruct s as [st c rt o w]. cbn.
  destruct (argc <? 2).
  { case_match. intros [= <- <-]. by auto. }
  destruct argv as [|a0 argv]; [done|]. cbn. destruct (js_to_cstring ctx a0 w) as [name w1]. cbn.
  destruct argv as [|a1 argv]; [done|]. cbn. destruct (js_is_function a1); cbn.
  2: { case_match. intros [= <- <-]. by auto. }
  destruct (o !! ctx) as [d|] eqn:Ed; cbn; [|done]. destruct name as [name|]; [|done]. cbn.
  destruct (find_listener (listeners d) name) as [i|] eqn:E; cbn.
  - destruct (nth_error (listeners d) i); cbn; [|done].
    match goal with |- context [js_free_value ?a ?b ?c] => destruct (js_free_value a b c) as [[[] w2]| |] end;
      cbn; [|done..]. intros [= <- <-]. cbn. split_and!; [done..|]. right. exists d. eexists. split_and!; [done| |done].
    apply data_ok_set_callback.
  - rewrite Z.geb_leb. destruct (Z.leb_spec MAX_LISTENERS (listenerCount d)).
    + case_match. intros [= <- <-]. by auto.
    + intros [= <- <-]. cbn. split_and!; [done..|]. right. exists d. eexists. split_and!; [done| |done].
      intros Hd. apply data_ok_add; [done..|]. by apply find_listener_None.
Qed.
End events.
