(* ===== verification/ChipModuleOk.v ===== *)
(** * The invariant of the chip module

    The state that the functions of Lua and of the scripts keep: 128 slots, every live context
    in exactly one of them and with its runtime, at most ten listeners in a context and one
    for an event.  Every function preserves it, so that it holds in every reachable state. *)

From stdpp Require Import relations.
From S2P Require Import Prelude ChipHost ChipVector ChipEntity ChipWire ChipModule ChipSpec.
From S2P Require Import ChipEntityOk ChipOk ChipEvents.

#[local] Open Scope Z_scope.

(** The rules by which a program preserves the invariant. *)
Create HintDb inv.

Section invariant.
Context `{HH : Host} `{!HostOk HH}.

Record wf (s : St) : Prop := {
  wf_contexts : length (contexts s) = Z.to_nat MAX_CONTEXTS;
  wf_runtimes : runtimes s = contexts s;
  wf_distinct i j ctx : contexts s !! i = Some (Some ctx) -> contexts s !! j = Some (Some ctx) -> i = j;
  wf_live ctx : is_Some (opaque s !! ctx) <-> Some ctx ∈ contexts s;
  wf_data ctx d : opaque s !! ctx = Some d -> data_ok d
}.

(** The module after it is loaded. *)
Definition init (w : world) : St :=
  mkSt [] (replicate (Z.to_nat MAX_CONTEXTS) None) (replicate (Z.to_nat MAX_CONTEXTS) None) ∅ w.

(** A call from Lua or from a script of a live context.  Between the calls the world changes
    in any way. *)
Inductive step : St -> St -> Prop :=
  | step_lua f args w s n s' :
      lua_function f (mkSt args (contexts s) (runtimes s) (opaque s) w) = Done (n, s') -> step s s'
  | step_script garbage f ctx args w s r s' :
      is_Some (opaque s !! ctx) ->
      call_c_function garbage f ctx args (set_env s w) = Done (r, s') -> step s s'.

Definition reachable (w : world) : St -> Prop := rtc step (init w).

(** ** Programs that preserve the invariant *)

Definition inv {A} (m : M A) : Prop := forall s a s', wf s -> m s = Done (a, s') -> wf s'.

(** The slots and the data of the contexts are not changed. *)
Definition quiet {A} (m : M A) : Prop := forall s a s', m s = Done (a, s') ->
  contexts s' = contexts s /\ runtimes s' = runtimes s /\ opaque s' = opaque s.

Lemma wf_same s s' : contexts s' = contexts s -> runtimes s' = runtimes s -> opaque s' = opaque s ->
  wf s -> wf s'.
Proof.
  destruct s, s'. cbn. intros -> -> -> [? ? ? ? ?]. by split.
Qed.

Lemma quiet_inv {A} (m : M A) : quiet m -> inv m.
Proof. intros Hm s a s' Hs E. destruct (Hm _ _ _ E) as (? & ? & ?). by eapply wf_same. Qed.

Lemma inv_bind {A B} (m : M A) (k : A -> M B) : inv m -> (forall a, inv (k a)) -> inv (m ≫= k).
Proof.
  intros Hm Hk s b s' Hs. cbv [mbind M_bind]. destruct (m s) as [[a s1]| |] eqn:E; [|done..].
  apply Hk. by eapply Hm.
Qed.

Lemma quiet_bind {A B} (m : M A) (k : A -> M B) : quiet m -> (forall a, quiet (k a)) -> quiet (m ≫= k).
Proof.
  intros Hm Hk s b s'. cbv [mbind M_bind]. destruct (m s) as [[a s1]| |] eqn:E; [|done..].
  intros E'. destruct (Hm _ _ _ E) as (<- & <- & <-). by eapply Hk.
Qed.

Lemma quiet_ret {A} (a : A) : quiet (mret a).
Proof. by intros s a' s' [= <- <-]. Qed.

Lemma quiet_liftW {A} (m : W A) : quiet (liftW m).
Proof.
  intros s a s'. unfold liftW. destruct (m (env s)) as [[a' w]| |]; [|done..]. by intros [= <- <-].
Qed.

Lemma quiet_crash {A} : quiet (@crash _ A).
Proof. by intros s a s'. Qed.

Lemma quiet_raise {A} : quiet ((fun _ => Raise) : M A).
Proof. by intros s a s'. Qed.

Lemma quiet_if {A} (b : bool) (x y : M A) : quiet x -> quiet y -> quiet (if b then x else y).
Proof. by destruct b. Qed.

Lemma quiet_get_at i : quiet (get_at i).
Proof. intros s a s'. unfold get_at. destruct (stack_at i (stack s)); [|done]. by intros [= <- <-]. Qed.

Lemma quiet_push v : quiet (push v).
Proof. by intros s a s' [= <- <-]. Qed.

Lemma quiet_Top : quiet Top.
Proof. by intros s a s' [= <- <-]. Qed.

Lemma quiet_Pop n : quiet (Pop n).
Proof. intros s a s'. unfold Pop. destruct (stack_pop n (stack s)); [|done]. by intros [= <- <-]. Qed.

Lemma quiet_GetType i : quiet (GetType i).
Proof. intros s a s'. unfold GetType. by destruct (stack_at i (stack s)); intros [= <- <-]. Qed.

Lemma quiet_Call n k : quiet (Call n k).
Proof.
  intros s a s'. unfold Call. destruct (stack_take n (stack s) []) as [[args [|f l]]|]; [done| |done].
  destruct (lua_call f args k (env s)) as [[rs w]| |]; [|done..]. by intros [= <- <-].
Qed.

Lemma quiet_JS_GetContextOpaque ctx : quiet (JS_GetContextOpaque ctx).
Proof.
  intros s a s'. unfold JS_GetContextOpaque. destruct (opaque s !! ctx); [|done]. by intros [= <- <-].
Qed.

Lemma quiet_slot i : quiet (slot i).
Proof. intros s a s'. unfold slot. destruct (znth (contexts s) i); [|done]. by intros [= <- <-]. Qed.

Lemma quiet_runtime_slot i : quiet (runtime_slot i).
Proof. intros s a s'. unfold runtime_slot. destruct (znth (runtimes s) i); [|done]. by intros [= <- <-]. Qed.
End invariant.

#[export] Hint Resolve quiet_ret quiet_liftW quiet_crash quiet_raise quiet_get_at quiet_push quiet_Top
  quiet_Pop quiet_GetType quiet_Call quiet_JS_GetContextOpaque quiet_slot quiet_runtime_slot : inv.

(** Goes through the binds and the branches of a program. *)
Ltac quiet_tac :=
  repeat first
    [ solve [eauto with inv]
    | apply quiet_bind; [|intros]
    | apply quiet_if
    | match goal with
      | |- quiet (match ?x with _ => _ end) => destruct x
      | |- quiet (let _ := _ in _) => cbv zeta
      end ].

Section preservation.
Context `{HH : Host} `{!HostOk HH}.

(** ** The quiet programs *)

Lemma quiet_push_strings ctx argv n i : quiet (push_strings ctx argv n i).
Proof.
  revert i. induction n as [|n IH]; intros i; [apply quiet_ret|].
  cbn [push_strings]. unfold PushString. quiet_tac.
Qed.

Lemma quiet_console_log ctx argc argv : quiet (console_log ctx argc argv).
Proof.
  pose proof quiet_push_strings.
  unfold console_log, ThrowTypeError, push_entity, ask, PushSpecial_GLOB, GetField, PushNumber, Push, GetBool.
  quiet_tac.
Qed.

Lemma quiet_new_xyz ctx (x y z : double) : quiet (liftW (new_xyz ctx x y z)).
Proof. apply quiet_liftW. Qed.

Lemma quiet_convert_arg ctx k : quiet (convert_arg ctx k).
Proof.
  unfold convert_arg, is_number_field, PushString, GetTable, GetBool, GetNumber, GetString, GetVector,
    GetAngle, GetMetaTable, GetField, Push. quiet_tac.
Qed.

Lemma quiet_convert_args ctx n k : quiet (convert_args ctx n k).
Proof.
  pose proof quiet_convert_arg. revert k. induction n as [|n IH]; intros k; cbn [convert_args]; quiet_tac.
Qed.

Lemma quiet_CheckType i t : quiet (CheckType i t).
Proof. unfold CheckType. quiet_tac. Qed.

Lemma quiet_GetNumber i : quiet (GetNumber i).
Proof. unfold GetNumber. quiet_tac. Qed.

Lemma quiet_GetString i : quiet (GetString i).
Proof. unfold GetString. quiet_tac. Qed.

Lemma quiet_arg_size i : quiet (arg_size i).
Proof. unfold arg_size, GetNumber. quiet_tac. Qed.

Lemma quiet_fail msg : quiet (fail msg).
Proof. unfold fail, PushNumber, PushString. quiet_tac. Qed.

Lemma quiet_no_context i : quiet (no_context i).
Proof. unfold no_context. quiet_tac. Qed.

Lemma quiet_PushNumber x : quiet (PushNumber x).
Proof. apply quiet_push. Qed.

Lemma quiet_PushString x : quiet (PushString x).
Proof. apply quiet_push. Qed.

Lemma quiet_PushNil : quiet PushNil.
Proof. apply quiet_push. Qed.

Lemma quiet_push_exception ctx : quiet (push_exception ctx).
Proof. unfold push_exception, PushNumber, PushString. quiet_tac. Qed.

Lemma quiet_push_result ctx r : quiet (push_result ctx r).
Proof. pose proof quiet_push_exception. unfold push_result, PushNumber, PushString, PushNil. quiet_tac. Qed.

Lemma quiet_prefix_of script n : quiet (prefix_of script n).
Proof. unfold prefix_of. quiet_tac. Qed.

Lemma quiet_ent_index i : quiet (ent_index i).
Proof. unfold ent_index, GetMetaTable, GetField, GetNumber, Push. quiet_tac. Qed.
End preservation.

#[export] Hint Resolve quiet_console_log quiet_convert_args quiet_CheckType quiet_GetNumber quiet_GetString
  quiet_arg_size quiet_fail quiet_no_context quiet_PushNumber quiet_PushString quiet_PushNil
  quiet_push_exception quiet_push_result quiet_prefix_of quiet_ent_index : inv.

Section operations.
Context `{HH : Host} `{!HostOk HH}.

(** ** The changes of the state *)

Lemma wf_updates ctx s s' : wf s -> updates ctx s s' -> wf s'.
Proof.
  intros [H1 H2 H3 H4 H5] (Hc & Hr & Ho). split; rewrite ?Hc, ?Hr; try done; destruct Ho as [Ho|(d & d' & Hd & Hok & Ho)];
    rewrite Ho; try done.
  - intros ctx'. rewrite lookup_insert_is_Some, <- H4. split; [|by destruct (decide (ctx = ctx')); auto].
    by intros [<-|[_ ?]]; eauto.
  - intros ctx' d1. rewrite lookup_insert_Some. intros [[<- <-]|[_ ?]]; eauto.
Qed.

Lemma inv_event_on ctx argc argv : inv (event_on ctx argc argv).
Proof. intros s a s' Hs E. by eapply wf_updates, event_on_updates. Qed.

Lemma inv_register ctx calls : inv (register ctx calls).
Proof.
  induction calls as [|argv calls IH]; cbn [register]; [apply quiet_inv, quiet_ret|].
  apply inv_bind; [apply inv_event_on|done].
Qed.

Lemma inv_run ctx m : inv (run ctx m).
Proof.
  unfold run. apply inv_bind; [apply quiet_inv, quiet_liftW|]. intros [r calls].
  apply inv_bind; [apply inv_register|]. intros _. apply quiet_inv, quiet_ret.
Qed.

Lemma find_free_Some n l i j : find_free n l i = Some j ->
  i <= j /\ j < i + Z.of_nat n /\ l !! Z.to_nat (j - i) = Some None /\
  forall k, (k < Z.to_nat (j - i))%nat -> exists c, l !! k = Some (Some c).
Proof.
  revert l i. induction n as [|n IH]; intros [|[c|] l] i; cbn [find_free]; try done.
  - intros (? & ? & Hj & Hk)%IH. split; [lia|]. split; [lia|].
    replace (Z.to_nat (j - i)) with (S (Z.to_nat (j - (i + 1)))) by lia. split; [done|].
    intros [|k]; cbn; [eauto|]. intros ?. apply Hk. lia.
  - intros [= <-]. split; [lia|]. split; [lia|]. rewrite Z.sub_diag. split; [done|]. intros k. cbn. lia.
Qed.

Lemma find_free_None n l i : find_free n l i = None -> length l = n -> forall c, c ∈ l -> c <> None.
Proof.
  revert l i. induction n as [|n IH]; intros [|[c0|] l] i; cbn [find_free length]; intros Hf Hl c; try done;
    try by intros ?%elem_of_nil.
  - intros Hc. apply elem_of_cons in Hc as [->|Hc]; [done|]. eapply IH; [done|lia|done].
Qed.

(** A new context takes a free slot. *)
Lemma wf_create s i ctx d w st : wf s -> contexts s !! i = Some None -> opaque s !! ctx = None -> data_ok d ->
  wf (mkSt st (<[i := Some ctx]> (contexts s)) (<[i := Some ctx]> (runtimes s)) (<[ctx := d]> (opaque s)) w).
Proof.
  intros [H1 H2 H3 H4 H5] Hi Hctx Hd.
  assert (Hnew : ~ (Some ctx ∈ contexts s)) by (rewrite <- H4, Hctx; by intros [? ?]).
  assert (Hne : forall j, contexts s !! j = Some (Some ctx) -> False)
    by (intros j Hj; apply Hnew; by eapply list_elem_of_lookup_2).
  split; cbn; rewrite ?H2.
  - by rewrite length_insert.
  - done.
  - intros j k c. rewrite !list_lookup_insert_Some.
    intros [(<- & E & ?)|[? ?]] [(<- & E' & ?)|[? ?]]; simplify_eq; try done; try (exfalso; by eapply Hne).
    by eapply H3.
  - intros c. rewrite lookup_insert_is_Some. rewrite H4. rewrite !list_elem_of_lookup. setoid_rewrite list_lookup_insert_Some.
    split.
    + intros [<-|[Hc [j Hj]]].
      * exists i. left. split_and!; [done..|]. by eapply lookup_lt_Some.
      * exists j. right. split; [|done]. congruence.
    + intros [j [(<- & [= <-] & ?)|[? ?]]]; [by left|]. destruct (decide (ctx = c)); [by left|right; eauto].
  - intros c d'. rewrite lookup_insert_Some. intros [[<- <-]|[_ ?]]; [done|eauto].
Qed.

(** A freed context leaves its slot empty. *)
Lemma wf_free s i ctx w st : wf s -> contexts s !! i = Some (Some ctx) ->
  wf (mkSt st (<[i := None]> (contexts s)) (<[i := None]> (runtimes s)) (delete ctx (opaque s)) w).
Proof.
  intros [H1 H2 H3 H4 H5] Hi. split; cbn; rewrite ?H2.
  - by rewrite length_insert.
  - done.
  - intros j k c. rewrite !list_lookup_insert_Some. intros [(_ & ? & _)|[? ?]] [(_ & ? & _)|[? ?]]; try done.
    by eapply H3.
  - intros c. rewrite lookup_delete_is_Some, H4. rewrite !list_elem_of_lookup. setoid_rewrite list_lookup_insert_Some.
    split.
    + intros [Hc [j Hj]]. exists j. right. split; [|done]. intros ->. congruence.
    + intros [j [(_ & ? & _)|[Hji Hj]]]; [done|]. split; [|eauto]. intros ->. apply Hji. by eapply H3.
  - intros c d. rewrite lookup_delete_Some. intros [_ ?]. eauto.
Qed.
End operations.

#[export] Hint Resolve inv_run inv_event_on : inv.

(** As [quiet_tac], for programs that run scripts. *)
Ltac inv_step :=
  first
    [ solve [eauto with inv] | apply quiet_inv; solve [eauto with inv]
    | apply inv_bind; [|intros]
    | match goal with
      | |- inv (if ?b then _ else _) => destruct b
      | |- inv (match ?x with _ => _ end) => destruct x
      end ].

Ltac inv_tac := repeat inv_step.

Section preservation.
Context `{HH : Host} `{!HostOk HH}.

(** ** The functions of Lua *)

Lemma inv_lua_emit_event : inv lua_emit_event.
Proof. unfold lua_emit_event, set_ops. inv_tac. Qed.

Lemma inv_lua_eval : inv lua_eval.
Proof. unfold lua_eval, set_ops. inv_tac. Qed.

Lemma inv_lua_compile : inv lua_compile.
Proof. unfold lua_compile. inv_tac. Qed.

Lemma inv_lua_get_ops : inv lua_get_ops.
Proof. unfold lua_get_ops. inv_tac. Qed.

(** The part of [lua_create_context] that uses a free slot. *)
Lemma inv_create (e o : js_value) :
  inv (s ← (fun s => Done (s, s)) : M St;
       match find_free (Z.to_nat MAX_CONTEXTS) (contexts s) 0 with
       | Some i =>
           ctx ← JS_NewContext 655359;
           set_opaque_data ctx (mkContextData [] e o);;
           define_functions ctx api_table;;
           set_slot i (Some ctx);;
           PushNumber (double_of_Z 0);;
           PushNumber (double_of_Z i);;
           mret 2
       | None => fail "You've hit the max number of javascript contexts!"
       end).
Proof.
  intros s n s' Hs. cbv [mbind M_bind]. destruct (find_free _ _ _) as [i|] eqn:E; [|by apply (quiet_inv (fail _) (quiet_fail _))].
  apply find_free_Some in E as (? & Hlt & Hi & _). rewrite Z.sub_0_r in Hi.
  unfold JS_NewContext, set_opaque_data, define_functions, set_slot, liftW. destruct s as [st c rt o' w]. cbn [opaque set_env set_opaque contexts runtimes env] in *.
  pose proof (wf_contexts _ Hs) as Hlen. pose proof (wf_runtimes _ Hs) as Hrt. cbn in Hlen, Hrt. subst rt.
  assert (Hz : 0 <= i < zlen c) by (unfold zlen, MAX_CONTEXTS in *; lia).
  rewrite !(zupd_is_Some c i) by done. cbn. intros [= <- <-].
  pose proof (wf_create _ _ (fresh (dom o')) (mkContextData [] e o)
    (fold_left (fun w '(o, name, f) => js_define_function (fresh (dom o')) o name f w) api_table
      (js_new_context (fresh (dom o')) 655359 w)) (lua_number (double_of_Z i) :: lua_number (double_of_Z 0) :: st) Hs Hi) as Hwf.
  apply Hwf.
  - apply not_elem_of_dom, is_fresh.
  - split; [done|apply NoDup_nil_2].
Qed.

Lemma inv_lua_create_context : inv lua_create_context.
Proof. unfold lua_create_context. repeat first [apply inv_create | inv_step]. Qed.

Lemma inv_lua_free_context : inv lua_free_context.
Proof.
  unfold lua_free_context. apply inv_bind; [apply quiet_inv, quiet_CheckType|intros _].
  apply inv_bind; [apply quiet_inv, quiet_arg_size|intros context].
  apply inv_bind; [apply quiet_inv, quiet_no_context|intros none]. destruct none; [apply quiet_inv, quiet_fail|].
  intros s n s' Hs. pose proof (wf_runtimes _ Hs) as Hrt. destruct s as [st c rt o w]. cbn in Hrt. subst rt.
  cbv [mbind M_bind slot runtime_slot liftW deref JS_GetContextOpaque set_slot delete_opaque JS_FreeContext JS_FreeRuntime
       total PushNumber PushNil push mret M_ret]. cbn.
  destruct (znth c context) as [[ctx|]|] eqn:E; cbn; [|done..]. destruct (o !! ctx) as [d|]; cbn; [|done].
  destruct (free_listeners ctx (listeners d) w) as [[[] w1]| |]; cbn; [|done..]. rewrite E. cbn.
  destruct (zupd c context None) as [c'|] eqn:Ec; cbn; [|done]. intros [= <- <-].
  apply zupd_Some in Ec as [Hz ->]. rewrite znth_lookup in E by lia.
  by apply (wf_free (mkSt st c c o w)).
Qed.

Lemma inv_lua_function f : inv (lua_function f).
Proof.
  destruct f; [apply inv_lua_create_context|apply inv_lua_free_context|apply inv_lua_eval|apply inv_lua_compile
    |apply inv_lua_emit_event|apply inv_lua_get_ops].
Qed.

(** ** The functions of scripts *)

Lemma inv_c_function garbage f ctx argc argv s r s' : is_Some (opaque s !! ctx) -> wf s ->
  c_function garbage f ctx argc argv s = Done (r, s') -> wf s'.
Proof.
  intros [d Hd] Hs E. destruct (decide (f = F_console_log)) as [->|Hf]; [by eapply quiet_inv; [apply quiet_console_log| |]|].
  destruct (decide (f = F_event_on)) as [->|Hf']; [by eapply inv_event_on|].
  rewrite (functions_refine garbage f ctx argc argv Hf' ltac:(done) s d Hd) in E.
  destruct (function_spec garbage f d ctx argc argv (env s)) as [[[a l] w]| |]; [|done..].
  injection E as _ <-. by eapply wf_same; [..|exact Hs].
Qed.

Lemma wf_init w : wf (init w).
Proof.
  split; cbn; try done.
  - intros i j ctx. rewrite lookup_replicate. by intros [? ?].
  - intros ctx. rewrite lookup_empty. split; [by intros [? ?]|].
    by intros [? _]%elem_of_replicate.
Qed.

Lemma wf_step s s' : step s s' -> wf s -> wf s'.
Proof.
  intros [f args w s0 n s1 E|garbage f ctx args w s0 r s1 Hctx E] Hs.
  - eapply inv_lua_function; [|exact E]. by eapply wf_same; [..|exact Hs].
  - eapply (inv_c_function _ _ _ _ _ (set_env s0 w)); [exact Hctx| |exact E]. by eapply wf_same; [..|exact Hs].
Qed.

(** C11: In every state that calls from Lua and from scripts can reach from the loaded
    module there are 128 slots, each live context is in exactly one slot with its
    runtime, the live contexts are those with data, no context has more than ten
    listeners, and no two listeners of a context have the same event. *)
Theorem reachable_wf w s : reachable w s -> wf s.
Proof.
  revert s. apply rtc_ind_r; [apply wf_init|]. intros s s' _ Hstep Hs. by eapply wf_step.
Qed.
End preservation.
