(* ===== verification/ChipLuaOk.v ===== *)
(** * What the functions of Lua do (js.cpp 2308-2776)

    The contract of the functions that Lua calls: the error of a context that does not exist,
    the slot that a new context takes, the answer of a context to an event. *)

From S2P Require Import Prelude ChipHost ChipVector ChipEntity ChipWire ChipModule.
From S2P Require Import ChipEvents ChipModuleOk.

#[local] Arguments stack_at : simpl never.

Section lua.
Context `{HH : Host} `{!HostOk HH}.

(** ** Reading the arguments *)

Lemma stack_at_push p x l v : stack_at (Zpos p) l = Some v -> stack_at (Zpos p) (x :: l) = Some v.
Proof.
  unfold stack_at. rewrite !nth_error_lookup. cbn [rev]. intros E. by apply lookup_app_l_Some.
Qed.

(** The arguments of a call, the first at the bottom. *)
Definition argument (s : St) (p : positive) (v : lua_value) : Prop := stack_at (Zpos p) (stack s) = Some v.

Lemma CheckType_run s p v t : argument s p v ->
  CheckType (Zpos p) t s = if lua_type v =? t then Done (tt, s) else Raise.
Proof.
  unfold argument, CheckType, GetType. intros E. cbv [mbind M_bind]. rewrite E. by destruct (lua_type v =? t).
Qed.

Lemma GetType_run s p v : argument s p v -> GetType (Zpos p) s = Done (lua_type v, s).
Proof. unfold argument, GetType. by intros ->. Qed.

Lemma get_at_run s p v : argument s p v -> get_at (Zpos p) s = Done (v, s).
Proof. unfold argument, get_at. by intros ->. Qed.

Lemma arg_size_run s p v : argument s p v ->
  arg_size (Zpos p) s = match size_of_double (lua_to_number v) with Some i => Done (i, s) | None => Crash end.
Proof.
  intros E. unfold arg_size, GetNumber. cbv [mbind M_bind]. rewrite (get_at_run s p v E).
  cbv [mret M_ret liftW deref W_ret]. destruct s. by destruct (size_of_double (lua_to_number v)).
Qed.

Lemma GetString_run s p v : argument s p v -> GetString (Zpos p) s = Done (lua_to_string v, s).
Proof. intros E. unfold GetString. cbv [mbind M_bind]. by rewrite (get_at_run s p v E). Qed.

(** ** Contexts that do not exist *)

(** The context of a slot, for a number that is a slot. *)
Definition context_of (s : St) (i : Z) : option Z := mjoin (znth (contexts s) i).

Definition reply (s : St) (code : Z) (v : lua_value) : outcome (Z * St) :=
  Done (2, set_stack s (v :: lua_number (double_of_Z code) :: stack s)).

(** The array is read at 128 by every function, and beyond by two of them. *)
Definition out_of_bounds (f : LuaFunction) (i : Z) : bool :=
  match f with
  | L_eval | L_emit_event => i >=? MAX_CONTEXTS
  | _ => i =? MAX_CONTEXTS
  end.

(** The types that a function checks. *)
Definition arguments_ok (f : LuaFunction) (s : St) : Prop :=
  match f with
  | L_create_context => exists v, argument s 1 v /\ lua_type v = Type_Entity
  | L_free_context | L_get_ops => exists v, argument s 1 v /\ lua_type v = Type_Number
  | L_eval | L_compile => exists v1 v2 v3, argument s 1 v1 /\ argument s 2 v2 /\ argument s 3 v3 /\
      lua_type v1 = Type_Number /\ lua_type v2 = Type_Number /\ lua_type v3 = Type_String /\
      is_Some (size_of_double (lua_to_number v2))
  | L_emit_event => exists v1 v2, argument s 1 v1 /\ argument s 2 v2 /\
      lua_type v1 = Type_Number /\ lua_type v2 = Type_String
  end.

Lemma size_of_double_nonneg d i : size_of_double d = Some i -> 0 <= i.
Proof.
  destruct d as [b|b| |b m e]; cbn; try done; [by intros [= <-]|]. set (v := if _ <=? _ then _ else _).
  assert (0 <= v).
  { subst v. destruct (Z.leb_spec 0 e); [apply Z.mul_nonneg_nonneg; [lia|by apply Z.pow_nonneg]|].
    apply Z.div_pos; [lia|]. apply Z.pow_pos_nonneg; lia. }
  destruct b; [destruct (v =? 0); [|done]; intros [= <-]; lia|]. destruct (v <? _); [|done]. by intros [= <-].
Qed.

Lemma slot_run s i : 0 <= i ->
  slot i s = if i <? zlen (contexts s) then Done (context_of s i, s) else Crash.
Proof.
  intros Hi. unfold slot, context_of. destruct (Z.ltb_spec i (zlen (contexts s))) as [Hlt|Hge].
  - destruct (znth_is_Some (contexts s) i ltac:(lia)) as [c E]. by rewrite E.
  - rewrite (znth_None _ _) by lia. done.
Qed.

Lemma no_context_run s i : wf s -> 0 <= i ->
  no_context i s = if i =? MAX_CONTEXTS then Crash
                   else Done (match context_of s i with None => true | Some _ => false end, s).
Proof.
  intros Hs Hi. pose proof (wf_contexts _ Hs) as Hl. unfold no_context. cbv [mbind M_bind].
  rewrite Z.gtb_ltb. destruct (Z.ltb_spec MAX_CONTEXTS i) as [Hlt|Hge].
  - rewrite (proj2 (Z.eqb_neq _ _)) by lia. unfold context_of. rewrite (znth_None _ _); [done|].
    unfold zlen. lia.
  - rewrite slot_run by done. unfold zlen. rewrite Hl. unfold MAX_CONTEXTS in *.
    destruct (Z.eqb_spec i 128) as [->|Hne]; [done|]. by rewrite (proj2 (Z.ltb_lt _ _)) by lia.
Qed.

Lemma fail_run msg s : fail msg s = reply s 1 (lua_string msg).
Proof. by destruct s. Qed.

(** ** A new context *)

(** The calls for the index of an entity. *)
Definition ent_index_spec (v : lua_value) : W double :=
  f ← (lua_index v (lua_string "EntIndex") : W _);
  l ← (lua_call f [v] 1 : W _);
  mret (lua_to_number (hd lua_nil l)).

Definition indexes_spec (v1 v2 : lua_value) : W (double * double) :=
  entIndex ← ent_index_spec v1;
  if lua_type v2 =? Type_Entity then
    ownerIndex ← ent_index_spec v2;
    mret (entIndex, ownerIndex)
  else mret (entIndex, entIndex).

(** The metatables that stay on the stack. *)
Definition metatable_of (v : lua_value) : list lua_value := option_list (lua_metatable v).
Definition metatables (v1 v2 : lua_value) : list lua_value :=
  (if lua_type v2 =? Type_Entity then metatable_of v2 else []) ++ metatable_of v1.

Lemma argument_app l s p v : argument s p v -> argument (set_stack s (l ++ stack s)) p v.
Proof. unfold argument. cbn. intros E. induction l as [|x l IH]; [done|]. by apply stack_at_push. Qed.

Lemma argument_env s p v w : argument s p v -> argument (set_env s w) p v.
Proof. done. Qed.

Lemma ent_index_run s p v : argument s p v ->
  ent_index (Zpos p) s = match ent_index_spec v (env s) with
    | Done (d, w) => Done (d, set_env (set_stack s (metatable_of v ++ stack s)) w)
    | Raise => Raise
    | Crash => Crash
    end.
Proof.
  intros Hv. unfold ent_index, ent_index_spec, GetMetaTable, metatable_of. cbv [mbind M_bind W_bind mret].
  erewrite get_at_run by eassumption.
  set (s1 := match lua_metatable v with Some m => set_stack s (m :: stack s) | None => s end).
  assert (Hs1 : argument s1 p v).
  { subst s1. destruct (lua_metatable v) as [m|]; [|done]. by apply (argument_app [m]). }
  assert (Hst : s1 = set_stack s (option_list (lua_metatable v) ++ stack s)).
  { subst s1. by destruct s, (lua_metatable v). }
  assert (Henv : env s1 = env s) by (subst s1; by destruct (lua_metatable v)).
  transitivity ((GetField (Zpos p) "EntIndex" ≫= fun _ => Push (Zpos p) ≫= fun _ => Call 1 1 ≫= fun _ =>
                 GetNumber (-1) ≫= fun index => Pop 1 ≫= fun _ => mret index) s1).
  { subst s1. by destruct (lua_metatable v). }
  rewrite <- Hst. clearbody s1. unfold GetField, Push. cbv [mbind M_bind]. erewrite get_at_run by eassumption.
  unfold liftW. rewrite Henv. destruct (lua_index v (lua_string "EntIndex") (env s)) as [[f w]| |]; [|done..].
  cbn. erewrite get_at_run by (apply (argument_app [f] (set_env s1 w)); eassumption). cbn. unfold Call. cbn.
  destruct (lua_call f [v] 1 w) as [[rs w']| |] eqn:E; [|done..]. apply lua_call_results in E.
  destruct rs as [|r [|? rs]]; try done; by destruct s1.
Qed.

(** The least slot that is free. *)
Definition first_free (l : list (option Z)) : option Z := (fun p => Z.of_nat p.1) <$> list_find (eq None) l.

Lemma find_free_first n l i : length l = n -> find_free n l i = Z.add i <$> first_free l.
Proof.
  unfold first_free. revert n i. induction l as [|[c|] l IH]; intros [|n] i Hl; try done; cbn [find_free list_find].
  - injection Hl as Hl. rewrite (IH n (i + 1) Hl). rewrite decide_False by done.
    destruct (list_find (eq None) l) as [[j x]|]; cbn; [|done]. f_equal. lia.
  - rewrite decide_True by done. cbn. f_equal. lia.
Qed.

(** The context with the functions of its global object. *)
Definition with_api (ctx : Z) (w : world) : world :=
  fold_left (fun w '(o, name, f) => js_define_function ctx o name f w) api_table (js_new_context ctx 655359 w).

Definition create (s : St) (i ctx : Z) (d : ContextData) : St :=
  mkSt (stack s) (<[Z.to_nat i := Some ctx]> (contexts s)) (<[Z.to_nat i := Some ctx]> (runtimes s))
    (<[ctx := d]> (opaque s)) (with_api ctx (env s)).

Lemma create_run s v1 v2 : wf s -> argument s 1 v1 -> argument s 2 v2 -> lua_type v1 = Type_Entity ->
  lua_create_context s = match indexes_spec v1 v2 (env s) with
    | Done ((e, o), w) =>
        let s1 := set_env (set_stack s (metatables v1 v2 ++ stack s)) w in
        if double_eqb e (double_of_Z 0) || double_eqb o (double_of_Z 0)
        then reply s1 1 (lua_string "Invalid entity")
        else match first_free (contexts s) with
             | None => reply s1 1 (lua_string "You've hit the max number of javascript contexts!")
             | Some i =>
                 let ctx := fresh (dom (opaque s)) in
                 reply (create s1 i ctx (mkContextData [] (js_new_float64 e) (js_new_float64 o))) 0
                   (lua_number (double_of_Z i))
             end
    | Raise => Raise
    | Crash => Crash
    end.
Proof.
  intros Hs H1 H2 Ht. unfold lua_create_context, indexes_spec, metatables. cbv [mbind M_bind W_bind mret W_ret].
  erewrite CheckType_run by eassumption. rewrite Ht. rewrite Z.eqb_refl. erewrite ent_index_run by eassumption.
  destruct (ent_index_spec v1 (env s)) as [[e w]| |]; [|done..].
  erewrite GetType_run by (apply argument_env, argument_app; eassumption).
  set (s0 := set_env (set_stack s (metatable_of v1 ++ stack s)) w).
  assert (Ho : (if lua_type v2 =? Type_Entity then ent_index 2 else fun s => Done (e, s)) s0 =
    match (if lua_type v2 =? Type_Entity then ent_index_spec v2 else mret e) w with
    | Done (o, w1) => Done (o, set_env (set_stack s (metatables v1 v2 ++ stack s)) w1)
    | Raise => Raise
    | Crash => Crash
    end).
  { unfold metatables. destruct (lua_type v2 =? Type_Entity); [|by destruct s].
    erewrite ent_index_run by (apply argument_env, argument_app; eassumption). cbn.
    destruct (ent_index_spec v2 w) as [[o w1]| |]; [|done..]. by rewrite app_assoc. }
  unfold metatables in Ho. change (M_ret double e) with (fun s : St => Done (e, s)). rewrite Ho. clear Ho.
  transitivity (match (match (if lua_type v2 =? Type_Entity then ent_index_spec v2 else mret e) w with
    | Done (o, w1) => Done ((e, o), w1) | Raise => Raise | Crash => Crash end) with
    | Done ((e, o), w) =>
        let s1 := set_env (set_stack s (metatables v1 v2 ++ stack s)) w in
        if double_eqb e (double_of_Z 0) || double_eqb o (double_of_Z 0)
        then reply s1 1 (lua_string "Invalid entity")
        else match first_free (contexts s) with
             | None => reply s1 1 (lua_string "You've hit the max number of javascript contexts!")
             | Some i =>
                 let ctx := fresh (dom (opaque s)) in
                 reply (create s1 i ctx (mkContextData [] (js_new_float64 e) (js_new_float64 o))) 0
                   (lua_number (double_of_Z i))
             end
    | Raise => Raise
    | Crash => Crash
    end).
  2: { unfold metatables. destruct (lua_type v2 =? Type_Entity); [by destruct (ent_index_spec v2 w) as [[]| |]|done]. }
  destruct ((if lua_type v2 =? Type_Entity then ent_index_spec v2 else mret e) w) as [[o w1]| |]; [|done..].
  cbv zeta. destruct (double_eqb e (double_of_Z 0) || double_eqb o (double_of_Z 0)); [by destruct s|].
  rewrite (find_free_first _ _ _ (wf_contexts _ Hs)).
  destruct (first_free (contexts s)) as [i|] eqn:Ei; cbn [fmap option_fmap option_map]; [|by destruct s].
  rewrite Z.add_0_l.
  assert (Hi : 0 <= i < zlen (contexts s)).
  { unfold first_free in Ei. destruct (list_find (eq None) (contexts s)) as [[j x]|] eqn:E; [|done].
    injection Ei as <-. apply list_find_Some in E as [E%lookup_lt_Some _]. unfold zlen. cbn. lia. }
  pose proof (wf_runtimes _ Hs) as Hrt. destruct s as [st c rt o0 w0]. cbn in *. subst rt.
  unfold JS_NewContext, set_opaque_data, define_functions, set_slot, liftW. cbn.
  rewrite !(zupd_is_Some c i) by done. done.
Qed.

#[local] Ltac arg_run :=
  cbv [mbind M_bind];
  repeat first
    [ erewrite CheckType_run by eassumption
    | erewrite arg_size_run by eassumption
    | erewrite GetString_run by eassumption
    | erewrite get_at_run by eassumption
    | match goal with
      | E : ?x = _ |- context [?x] => rewrite E
      end
    | rewrite Z.eqb_refl ].

(** C32: JS_CreateContext asks for the index of the entity and of the owner, rejects
    the world, fails when all 128 slots are taken, and otherwise puts a new context
    with its data and functions in the least free slot and returns the number of that
    slot. *)
Theorem create_context_reply s v1 v2 :
  wf s -> argument s 1 v1 -> argument s 2 v2 -> lua_type v1 = Type_Entity ->
  lua_create_context s = match indexes_spec v1 v2 (env s) with
    | Done ((e, o), w) =>
        let s1 := set_env (set_stack s (metatables v1 v2 ++ stack s)) w in
        if double_eqb e (double_of_Z 0) || double_eqb o (double_of_Z 0)
        then reply s1 1 (lua_string "Invalid entity")
        else match first_free (contexts s) with
             | None => reply s1 1 (lua_string "You've hit the max number of javascript contexts!")
             | Some i =>
                 let ctx := fresh (dom (opaque s)) in
                 reply (create s1 i ctx (mkContextData [] (js_new_float64 e) (js_new_float64 o))) 0
                   (lua_number (double_of_Z i))
             end
    | Raise => Raise
    | Crash => Crash
    end.
Proof. apply create_run. Qed.

(** C31: For a number that names no live context the functions of Lua return the code
    1 and the message of a missing context and change nothing; but for 128 every one
    of them, and for larger numbers JS_Eval and JS_EmitEvent, read beyond the array of
    contexts. *)
Theorem missing_context_reply f s v i : wf s -> f <> L_create_context -> arguments_ok f s ->
  argument s 1 v -> size_of_double (lua_to_number v) = Some i -> context_of s i = None ->
  lua_function f s = if out_of_bounds f i then Crash else reply s 1 (lua_string NO_CONTEXT).
Proof.
  intros Hs Hf Hargs Hv Hi Hc. pose proof (size_of_double_nonneg _ _ Hi) as Hpos.
  pose proof (wf_contexts _ Hs) as Hl. pose proof (no_context_run s i Hs Hpos) as Hn. pose proof (slot_run s i Hpos) as Hsl.
  rewrite Hc in Hn, Hsl. unfold zlen in Hsl. rewrite Hl in Hsl.
  assert (forall p v1 v2, argument s p v1 -> argument s p v2 -> v1 = v2) as Hinj by (unfold argument; congruence).
  destruct f; [done|..]; cbn [lua_function arguments_ok out_of_bounds] in *.
  - destruct Hargs as (v1 & Hv1 & Ht). assert (v1 = v) as -> by eauto.
    unfold lua_free_context. arg_run. destruct (i =? MAX_CONTEXTS); [done|]. apply fail_run.
  - destruct Hargs as (v1 & v2 & v3 & Hv1 & Hv2 & Hv3 & Ht & Ht2 & Ht3 & [n Hsize]). assert (v1 = v) as -> by eauto.
    unfold lua_eval. arg_run. rewrite Z.geb_leb, Z.gtb_ltb. unfold MAX_CONTEXTS in *.
    destruct (Z.ltb_spec i (Z.of_nat (Z.to_nat 128))), (Z.leb_spec 128 i), (Z.ltb_spec 128 i); try lia; done.
  - destruct Hargs as (v1 & v2 & v3 & Hv1 & Hv2 & Hv3 & Ht & Ht2 & Ht3 & [n Hsize]). assert (v1 = v) as -> by eauto.
    unfold lua_compile. arg_run. destruct (i =? MAX_CONTEXTS); [done|]. apply fail_run.
  - destruct Hargs as (v1 & v2 & Hv1 & Hv2 & Ht & Ht2). assert (v1 = v) as -> by eauto.
    unfold lua_emit_event, Top. arg_run. rewrite Z.geb_leb, Z.gtb_ltb. unfold MAX_CONTEXTS in *.
    destruct (Z.ltb_spec i (Z.of_nat (Z.to_nat 128))), (Z.leb_spec 128 i), (Z.ltb_spec 128 i); try lia; done.
  - destruct Hargs as (v1 & Hv1 & Ht). assert (v1 = v) as -> by eauto.
    unfold lua_get_ops. arg_run. destruct (i =? MAX_CONTEXTS); [done|]. apply fail_run.
Qed.

(** ** Freeing a context *)

Definition free (s : St) (i ctx : Z) (w : world) : St :=
  mkSt (stack s) (<[Z.to_nat i := None]> (contexts s)) (<[Z.to_nat i := None]> (runtimes s))
    (delete ctx (opaque s)) (js_free_runtime ctx (js_free_context ctx w)).

Lemma free_run s v i ctx d : wf s -> argument s 1 v -> lua_type v = Type_Number ->
  size_of_double (lua_to_number v) = Some i -> context_of s i = Some ctx -> opaque s !! ctx = Some d ->
  lua_free_context s = match free_listeners ctx (listeners d) (env s) with
    | Done (_, w) => reply (free s i ctx w) 0 lua_nil
    | Raise => Raise
    | Crash => Crash
    end.
Proof.
  intros Hs Hv Ht Hi Hc Hd. pose proof (size_of_double_nonneg _ _ Hi) as Hpos.
  unfold lua_free_context. arg_run. rewrite (no_context_run s i Hs Hpos), Hc. unfold context_of in Hc.
  destruct (znth (contexts s) i) as [c|] eqn:Ec; [|done]. cbn in Hc. subst c.
  pose proof (znth_Some_range _ _ _ Ec) as Hr. pose proof (wf_contexts _ Hs) as Hl.
  destruct (Z.eqb_spec i MAX_CONTEXTS); [unfold zlen, MAX_CONTEXTS in *; lia|].
  pose proof (wf_runtimes _ Hs) as Hrt. destruct s as [st c rt o w]. cbn in *. subst rt.
  unfold slot, runtime_slot, deref, JS_GetContextOpaque, delete_opaque, set_slot, JS_FreeContext, JS_FreeRuntime, liftW.
  cbn. rewrite Ec. cbn. rewrite Hd. cbn. destruct (free_listeners ctx (listeners d) w) as [[[] w1]| |]; [|done..].
  cbn. rewrite Ec. cbn. by rewrite !(zupd_is_Some c i) by done.
Qed.

(** The codes of success and failure are different. *)
Lemma error_code : lua_number (double_of_Z 1) <> lua_number (double_of_Z 0).
Proof. intros E%(f_equal lua_to_number). rewrite !lua_to_number_number in E. discriminate E. Qed.

Lemma slot_number i : 0 <= i < MAX_CONTEXTS -> size_of_double (double_of_Z i) = Some i.
Proof.
  intros Hi. assert (Hall : Forall (fun i => size_of_double (double_of_Z i) = Some i) (seqZ 0 128))
    by (repeat constructor).
  rewrite list.Forall_forall in Hall. apply Hall, elem_of_seqZ. unfold MAX_CONTEXTS in Hi. lia.
Qed.

(** Freeing the slot that JS_CreateContext returned succeeds and gives back the
    slots, the runtimes and the data of the contexts as they were before. *)
Theorem create_free_roundtrip s v1 v2 s1 i l w :
  wf s -> argument s 1 v1 -> argument s 2 v2 -> lua_type v1 = Type_Entity ->
  lua_create_context s = Done (2, s1) ->
  stack s1 = lua_number (double_of_Z i) :: lua_number (double_of_Z 0) :: l ->
  exists w', lua_free_context (mkSt [lua_number (double_of_Z i)] (contexts s1) (runtimes s1) (opaque s1) w) =
    Done (2, mkSt [lua_nil; lua_number (double_of_Z 0); lua_number (double_of_Z i)]
               (contexts s) (runtimes s) (opaque s) w').
Proof.
  intros Hs H1 H2 Ht. rewrite (create_run _ _ _ Hs H1 H2 Ht). cbv zeta.
  destruct (indexes_spec v1 v2 (env s)) as [[[e o] w1]| |]; [|done..]. unfold reply.
  destruct (double_eqb e (double_of_Z 0) || double_eqb o (double_of_Z 0)).
  { intros [= <-] [= _ E _]. by apply error_code in E. }
  destruct (first_free (contexts s)) as [j|] eqn:Ej; [|by intros [= <-] [= _ E _]; apply error_code in E].
  intros [= <-]. cbn. intros [= Ei _]. rewrite <- Ei.
  assert (Hj : 0 <= j < zlen (contexts s) /\ contexts s !! Z.to_nat j = Some None).
  { unfold first_free in Ej. destruct (list_find (eq None) (contexts s)) as [[k x]|] eqn:E; [|done].
    injection Ej as <-. apply list_find_Some in E as (E & -> & _). cbn. rewrite Nat2Z.id.
    apply lookup_lt_Some in E as ?. unfold zlen. split; [lia|done]. }
  destruct Hj as [Hj Hfree]. pose proof (wf_contexts _ Hs) as Hl. pose proof (wf_runtimes _ Hs) as Hrt.
  set (ctx := fresh (dom (opaque s))).
  assert (Hctx : opaque s !! ctx = None) by apply not_elem_of_dom, is_fresh.
  set (d := mkContextData [] (js_new_float64 e) (js_new_float64 o)).
  pose proof (wf_create _ _ ctx d w [lua_number (double_of_Z j)] Hs Hfree Hctx) as Hs1.
  rewrite (free_run _ (lua_number (double_of_Z j)) j ctx d).
  - eexists. unfold reply, free, set_stack. cbn. do 2 f_equal. f_equal.
    + rewrite list_insert_insert_eq. by apply list_insert_id.
    + rewrite list_insert_insert_eq, Hrt. by apply list_insert_id.
    + by apply delete_insert_id.
  - apply Hs1. split; [done|apply NoDup_nil_2].
  - done.
  - apply lua_type_number.
  - rewrite lua_to_number_number. apply slot_number. unfold zlen, MAX_CONTEXTS in *. lia.
  - unfold context_of. cbn. rewrite znth_lookup by lia. by rewrite list_lookup_insert_eq by (unfold zlen in Hj; lia).
  - cbn. apply lookup_insert_eq.
Qed.

(** ** Events *)

(** The value that a listener gets for a Lua value. *)
Definition js_of_lua (ctx : Z) (v : lua_value) : W js_value :=
  let t := lua_type v in
  if t =? Type_Nil then mret js_null
  else if t =? Type_Bool then mret (js_new_bool (lua_to_bool v))
  else if t =? Type_Number then mret (js_new_float64 (lua_to_number v))
  else if t =? Type_String then JS_NewString ctx (lua_to_string v)
  else if t =? Type_Vector then let '(x, y, z) := lua_to_vector v in new_xyz ctx x y z
  else if t =? Type_Angle then let '(x, y, z) := lua_to_angle v in new_pyr ctx x y z
  else mret js_null.

Fixpoint js_of_lua_list (ctx : Z) (l : list lua_value) : W (list js_value) :=
  match l with
  | [] => mret []
  | v :: l' => x ← js_of_lua ctx v; xs ← js_of_lua_list ctx l'; mret (x :: xs)
  end.

(** Tables and entities are read through the game. *)
Definition plain (v : lua_value) : Prop := lua_type v <> Type_Table /\ lua_type v <> Type_Entity.

Lemma convert_arg_run ctx s p v : argument s p v -> plain v ->
  convert_arg ctx (Zpos p) s = liftW (js_of_lua ctx v) s.
Proof.
  intros Hv [Ht He]. unfold convert_arg, js_of_lua, GetBool, GetNumber, GetVector, GetAngle. cbv [mbind M_bind].
  pose proof (get_at_run s p v Hv) as Hget.
  rewrite (GetType_run s p v Hv). apply Z.eqb_neq in Ht, He.
  destruct (lua_type v =? Type_Nil); [by destruct s|].
  destruct (lua_type v =? Type_Bool); [rewrite Hget; by destruct s|].
  destruct (lua_type v =? Type_Number); [rewrite Hget; by destruct s|].
  destruct (lua_type v =? Type_String); [by rewrite (GetString_run s p v Hv)|]. rewrite Ht, He.
  destruct (lua_type v =? Type_Vector). { rewrite Hget. cbn. by destruct (lua_to_vector v) as [[x y] z]. }
  destruct (lua_type v =? Type_Angle). { rewrite Hget. cbn. by destruct (lua_to_angle v) as [[x y] z]. }
  by destruct s.
Qed.

Lemma convert_args_run ctx l s p : (forall j v, l !! j = Some v -> argument s (Pos.of_nat (p + j)) v) ->
  (0 < p)%nat -> Forall plain l ->
  convert_args ctx (length l) (Z.of_nat p) s = liftW (js_of_lua_list ctx l) s.
Proof.
  revert s p. induction l as [|v l IH]; intros s p Hl Hp Hplain; [by destruct s|].
  apply List.Forall_cons_iff in Hplain as [Hv Hplain]. cbn [length convert_args js_of_lua_list].
  replace (Z.of_nat p) with (Zpos (Pos.of_nat p)) at 1 by lia. cbv [mbind M_bind W_bind].
  rewrite (convert_arg_run ctx s _ v); [|rewrite <- (Nat.add_0_r p); by apply Hl|done].
  unfold liftW. destruct (js_of_lua ctx v (env s)) as [[x w]| |]; [|done..].
  replace (Z.of_nat p + 1) with (Z.of_nat (S p)) by lia.
  rewrite (IH (set_env s w) (S p)); [|intros j u Hj; rewrite Nat.add_succ_comm; by apply argument_env, Hl|lia|done].
  unfold liftW. cbn. by destruct (js_of_lua_list ctx l w) as [[xs w1]| |].
Qed.

Lemma argument_nth s l j v : stack s = rev l -> l !! j = Some v -> argument s (Pos.of_nat (S j)) v.
Proof.
  unfold argument, stack_at. intros -> Hj. rewrite rev_involutive, Nat2Pos.id by done. cbn. by rewrite nth_error_lookup.
Qed.

End lua.
