(* ===== verification/ChipOps.v ===== *)
(** * The operation limit of a context (quickjs.c 2139-2140, 16204-16224)

    The interpreter charges the cost of an instruction (1, 2, 3 or 10) to the context of the caller before
    it runs; the module sets the count to zero before it runs a script. *)

From S2P Require Import Prelude.

(** The two fields of [JSContext], of type [uint64_t]. *)
Record OpState := mkOpState { op_count : Z; op_limit : Z }.

Definition JS_NewContextRaw_ops : OpState := mkOpState 0 25000.

(** [true] is a thrown error. *)
Definition handle_op_limit (c : OpState) (cost : Z) : bool * OpState :=
  let op_count := u64 (op_count c + cost) in
  (op_count >? op_limit c, mkOpState op_count (op_limit c)).

(** The conversion to [int64_t]. *)
Definition get_ops (c : OpState) : Z :=
  if op_count c <? 2 ^ 63 then op_count c else op_count c - 2 ^ 64.
Definition set_ops (c : OpState) (ops : Z) : OpState := mkOpState (u64 ops) (op_limit c).
Definition add_ops (c : OpState) (ops : Z) : OpState := mkOpState (u64 (op_count c + ops)) (op_limit c).

(** ** A script that does not end *)

(** The state before the instruction [n], where an instruction [k] costs [cost k]. *)
Fixpoint charged (c : OpState) (cost : nat -> Z) (n : nat) : OpState :=
  match n with O => c | S n' => (handle_op_limit (charged c cost n') (cost n')).2 end.

Definition throws (c : OpState) (cost : nat -> Z) (n : nat) : bool :=
  (handle_op_limit (charged c cost n) (cost n)).1.

(** The cost of the first [n] instructions. *)
Fixpoint total_cost (cost : nat -> Z) (n : nat) : Z :=
  match n with O => 0 | S n' => total_cost cost n' + cost n' end.

Section budget.
Context (c : OpState) (cost : nat -> Z).
Context (Hcost : forall k, 1 <= cost k <= 10).

Lemma total_cost_bounds n : Z.of_nat n <= total_cost cost n <= 10 * Z.of_nat n.
Proof using Hcost. induction n as [|n IH]; cbn [total_cost]; [lia|]. specialize (Hcost n). lia. Qed.

Lemma total_cost_mono n m : (n <= m)%nat -> total_cost cost n <= total_cost cost m.
Proof using Hcost.
  induction 1 as [|m _ IH]; [lia|]. cbn [total_cost]. specialize (Hcost m). lia.
Qed.

Lemma charged_count n : Z.of_nat n < 2 ^ 60 ->
  op_count (charged (set_ops c 0) cost n) = total_cost cost n /\
  op_limit (charged (set_ops c 0) cost n) = op_limit c.
Proof using Hcost.
  induction n as [|n IH]; [done|]. intros Hn. destruct IH as [IH1 IH2]; [lia|].
  cbn [charged handle_op_limit snd op_count op_limit total_cost]. rewrite IH1, IH2. split; [|done].
  apply u64_small. pose proof (total_cost_bounds n). specialize (Hcost n). lia.
Qed.

Lemma throws_iff n : Z.of_nat n < 2 ^ 59 ->
  throws (set_ops c 0) cost n = (total_cost cost (S n) >? op_limit c).
Proof using Hcost.
  intros Hn. unfold throws, handle_op_limit. destruct (charged_count n) as [-> ->]; [lia|]. cbn [fst total_cost].
  rewrite u64_small; [done|]. pose proof (total_cost_bounds n). specialize (Hcost n). lia.
Qed.
End budget.


