(* ===== verification/ChipDemo.v ===== *)
(** * A game for the chip module

    A small instance of the hosts, with which the functions of the module are run. *)

From Stdlib Require Import Floats.SpecFloat.
From S2P Require Import Prelude ChipHost ChipVector ChipEntity ChipWire ChipModule ChipSpec.
From S2P Require Import ChipEntityOk ChipOk ChipEvents ChipModuleOk ChipLuaOk.

(** ** The values *)

Inductive lua_demo :=
  | LNil | LBool (b : bool) | LNum (d : double) | LStr (s : string)
  | LEntity (i : double) | LVector (x y z : double) | LMeta | LGlobals
  | LMethod (s : string) | LCFunction (f : LuaFunction).

Inductive js_demo :=
  | JUndefined | JNull | JException | JNum (d : double) | JBool (b : bool) | JStr (s : string)
  | JObject (i : nat) | JFun (s : string).

(** The calls of the game, the objects of the scripts and the operation count. *)
Record world_demo := mkWorld {
  calls : list (string * list lua_demo);
  objects : list (list (string * js_demo));
  ops : Z
}.

(** What a method of the game answers. *)
Definition method_demo (name : string) (args : list lua_demo) : lua_demo :=
  match name, args with
  | "Entity", [LNum i] => LEntity i
  | "EntIndex", [LEntity i] => LNum i
  | "IsValid", _ => LBool true
  | "IsPlayer", _ => LBool false
  | "GetPos", _ => LVector (double_of_Z 1) (double_of_Z 2) (double_of_Z 3)
  | "GetName", _ => LStr "chip"
  | _, _ => LNil
  end%string.

Fixpoint assoc (l : list (string * js_demo)) (name : string) : js_demo :=
  match l with
  | [] => JUndefined
  | (n, v) :: l' => if String.eqb n name then v else assoc l' name
  end.

Definition set_in (l : list (list (string * js_demo))) (o : js_demo) (name : string) (v : js_demo) :=
  match o with JObject i => alter (fun p => (name, v) :: p) i l | _ => l end.

#[export] Instance demo : Host := {|
  lua_value := lua_demo; js_value := js_demo; world := world_demo;
  lua_globals := LGlobals; lua_nil := LNil; lua_number := LNum; lua_string := LStr;
  lua_cfunction := LCFunction;
  lua_to_bool v := match v with LNil => false | LBool b => b | _ => true end;
  lua_to_number v := match v with LNum d => d | _ => double_of_Z 0 end;
  lua_to_string v := match v with LStr s => Some s | _ => None end;
  lua_to_vector v := match v with LVector x y z => (x, y, z) | _ => (double_of_Z 0, double_of_Z 0, double_of_Z 0) end;
  lua_to_angle v := (double_of_Z 0, double_of_Z 0, double_of_Z 0);
  lua_type v := match v with
    | LNil => 0 | LBool _ => 1 | LNum _ => 3 | LStr _ => 4 | LEntity _ => 9 | LVector _ _ _ => 10
    | LMeta | LGlobals => 5 | LMethod _ | LCFunction _ => 6 end;
  lua_metatable v := match v with LEntity _ => Some LMeta | _ => None end;
  lua_new_table w := (LMeta, w);
  lua_index t k w := match t, k with
    | (LGlobals | LEntity _), LStr name => Done (LMethod name, w)
    | LMeta, _ => Done (LNil, w)
    | _, _ => Raise end;
  lua_set_index t k v w := Done (tt, w);
  lua_call f args n w := match f with
    | LMethod name => Done (match n with O => [] | S n' => method_demo name args :: repeat LNil n' end,
        mkWorld ((name, args) :: calls w) (objects w) (ops w))
    | _ => Raise end;
  js_undefined := JUndefined; js_null := JNull; js_exception := JException;
  js_new_float64 := JNum; js_new_bool := JBool;
  js_is_number v := match v with JNum _ => true | _ => false end;
  js_is_object v := match v with JObject _ => true | _ => false end;
  js_is_string v := match v with JStr _ => true | _ => false end;
  js_is_function v := match v with JFun _ => true | _ => false end;
  js_is_exception v := match v with JException => true | _ => false end;
  js_new_object ctx w := (JObject (length (objects w)), mkWorld (calls w) (objects w ++ [[]]) (ops w));
  js_new_string ctx s w := (JStr s, w);
  js_to_float64 ctx v w := (match v with JNum d => d | _ => S754_nan end, w);
  js_to_cstring ctx v w := (match v with JStr s => Some s | JUndefined => Some "undefined"%string | _ => None end, w);
  js_get_property ctx v name w :=
    (match v with JObject i => match objects w !! i with Some l => assoc l name | None => JUndefined end
     | _ => JUndefined end, w);
  js_set_property ctx o name v w := mkWorld (calls w) (set_in (objects w) o name v) (ops w);
  js_own_names ctx v w := (None, w);
  js_throw_type_error ctx msg w := (JException, w);
  js_throw_internal_error ctx msg w := (JException, w);
  js_get_exception ctx w := (JStr "error"%string, w);
  js_call ctx f args w := ((JStr "called"%string, [[JStr "later"%string; f]]), w);
  js_eval_function ctx v w := ((JUndefined, [[JStr "think"%string; JFun "listener"%string]]), w);
  js_eval_compile ctx s w := (JStr s, w);
  js_read_bytecode ctx s w := (JStr s, w);
  js_write_bytecode ctx v w := (match v with JStr s => Some s | _ => None end, w);
  js_set_ops ctx n w := mkWorld (calls w) (objects w) n;
  js_get_ops ctx w := ops w;
  js_new_context ctx limit w := w;
  js_define_function ctx o name f w := w;
  js_free_value ctx v w := match ctx with Some _ => Done (tt, w) | None => Crash end;
  js_free_context ctx w := w;
  js_free_runtime ctx w := w;
  c_fmod x y := x;
  c_pow x y := x
|}.

#[export] Instance demo_ok : HostOk demo.
Proof.
  split; [|done..]. intros f args n w rs w' E. cbn in E. destruct f; try discriminate E. injection E as <- _.
  destruct n as [|n]; cbn; [done|]. by rewrite repeat_length.
Qed.

(** ** A run of the module *)

Definition start : @world demo := mkWorld [] [] 0.

Definition chip_entity : lua_value := LEntity (double_of_Z 7).
Definition owner_entity : lua_value := LEntity (double_of_Z 8).

(** A call of Lua: its results, the first first, and the state. *)
Definition lua (f : LuaFunction) (args : list lua_value) (s : St) : outcome (list lua_value * St) :=
  match lua_function f (set_stack s (rev args)) with
  | Done (n, s') => Done (rev (firstn (Z.to_nat n) (stack s')), s')
  | Raise => Raise
  | Crash => Crash
  end.

(** The state after [JS_CreateContext]. *)
Definition after {A} (o : outcome (A * St)) : St := match o with Done (_, s) => s | _ => init start end.
Definition results {A} (o : outcome (A * St)) : option A := match o with Done (a, _) => Some a | _ => None end.

Definition created : St := Eval vm_compute in after (lua L_create_context [chip_entity; owner_entity] (init start)).
Definition evaluated : St := Eval vm_compute in
  after (lua L_eval [LNum (double_of_Z 0); LNum (double_of_Z 1); LStr "x"] created).
Definition emitted : St := Eval vm_compute in
  after (lua L_emit_event [LNum (double_of_Z 0); LStr "think"; LBool true] evaluated).

Example create_result : results (lua L_create_context [chip_entity; owner_entity] created)
  = Some [LNum (double_of_Z 0); LNum (double_of_Z 1)].
Proof. vm_compute. reflexivity. Qed.

Example emit_result : results (lua L_emit_event [LNum (double_of_Z 0); LStr "think"; LBool true] evaluated)
  = Some [LNum (double_of_Z 0); LStr "called"].
Proof. vm_compute. reflexivity. Qed.

(** ** Instances of the theorems *)

(** The index of the owner, the arguments of the calls below. *)
Definition owner_argv : list js_value := [JNum (double_of_Z 8)].
Definition on_argv : list js_value := [JStr "think"; JFun "f"].
Definition listener : js_value := JFun "listener".
Definition value (v : lua_demo) : lua_value := v.

Lemma created_wf : wf created.
Proof.
  apply (wf_step (init start)); [|apply wf_init].
  apply (step_lua L_create_context [owner_entity; chip_entity] start _ 2). vm_compute. reflexivity.
Qed.

Lemma evaluated_wf : wf evaluated.
Proof.
  apply (wf_step created); [|apply created_wf].
  apply (step_lua L_eval [value (LStr "x"); LNum (double_of_Z 1); LNum (double_of_Z 0)] (env created) _ 2).
  vm_compute. reflexivity.
Qed.


(** The data of the context that was created. *)
Definition chip_data : ContextData := mkContextData [] (JNum (double_of_Z 7)) (JNum (double_of_Z 8)).


Lemma event_on_registers_witness : registers 0 chip_data "think" (JFun "f") (env created) created
  (event_on 0 2 [JStr "think"; JFun "f"] created).
Proof. apply (event_on_registers (H := demo) 0 2 (JStr "think") (JFun "f") []); [split; [done|apply NoDup_nil_2]|done..]. Defined.

Lemma reachable_wf_witness : wf created.
Proof.
  apply (reachable_wf start). apply rtc_once, (step_lua L_create_context [owner_entity; chip_entity] start _ 2).
  vm_compute. reflexivity.
Defined.

(** The state of a call with the given arguments. *)
Definition called (s : St) (args : list lua_value) : St := set_stack s (rev args).

Lemma called_wf s args : wf s -> wf (called s args).
Proof. by apply wf_same. Qed.

Lemma missing_context_reply_witness :
  lua_function L_emit_event (called created [LNum (double_of_Z 128); LStr "think"]) = Crash /\
  lua_function L_free_context (called created [LNum (double_of_Z 129)]) =
    reply (called created [LNum (double_of_Z 129)]) 1 (LStr NO_CONTEXT).
Proof.
  split.
  - apply (missing_context_reply (HH := demo) L_emit_event _ (LNum (double_of_Z 128)) 128); try done;
      [apply called_wf, created_wf|].
    by exists (LNum (double_of_Z 128)), (LStr "think").
  - apply (missing_context_reply (HH := demo) L_free_context _ (LNum (double_of_Z 129)) 129); try done;
      [apply called_wf, created_wf|].
    by exists (LNum (double_of_Z 129)).
Defined.

Lemma create_context_reply_witness :
  exists s', lua_create_context (called created [chip_entity; owner_entity]) = Done (2, s') /\
    firstn 2 (stack s') = [LNum (double_of_Z 1); LNum (double_of_Z 0)].
Proof.
  rewrite (create_context_reply (HH := demo) _ chip_entity owner_entity); [|apply called_wf, created_wf|done..].
  vm_compute. eexists. split; reflexivity.
Defined.

Lemma create_free_roundtrip_witness :
  exists s1 w', lua_create_context (called created [chip_entity; owner_entity]) = Done (2, s1) /\
    lua_free_context (mkSt [LNum (double_of_Z 1)] (contexts s1) (runtimes s1) (opaque s1) start) =
    Done (2, mkSt [LNil; LNum (double_of_Z 0); LNum (double_of_Z 1)]
               (contexts created) (runtimes created) (opaque created) w').
Proof.
  assert (E : exists s1 l, lua_create_context (called created [chip_entity; owner_entity]) = Done (2, s1) /\
    stack s1 = LNum (double_of_Z 1) :: LNum (double_of_Z 0) :: l)
    by (vm_compute; do 2 eexists; split; reflexivity).
  destruct E as (s1 & l & E & Hl). exists s1.
  destruct (create_free_roundtrip (HH := demo) (called created [chip_entity; owner_entity]) chip_entity owner_entity s1 1 l start
    (called_wf _ _ created_wf) eq_refl eq_refl eq_refl E Hl) as [w' Hw]. by exists w'.
Defined.

